(* ===== verification/_CoqProject ===== *)
-Q . S2P
Prelude.v
Types.v
Codec.v
Wire.v
Utf8.v
Net.v
AddrParse.v
Digest.v
Header.v
ReplayWindow.v
Aead.v
Keys.v
Signature.v
Kem.v
Kdf.v
Pki.v
Envelope.v
Session.v
Fragment.v
Reassembly.v
Tunnel.v
Control.v
Init.v
Response.v
Cookie.v
Handshake.v
Agreement.v
CookieServer.v
ClientMachine.v
HandshakeReplay.v
RateLimit.v
AuthLockout.v
AddressPool.v
TokenBucket.v
SessionManager.v
SessionThreads.v
DataPlane.v
UserStore.v
Validation.v
Server.v
ServerSafety.v
ServerStart.v
ServerPaths.v
AfXdp.v
Umem.v
Xsk.v
ClientStats.v
ClientConfig.v
Transport.v
KillSwitch.v
NatTraversal.v
Client.v
Connect.v
ClientSafety.v
RelaySession.v
Relay.v
