(* ===== verification/Prelude.v ===== *)
(** A verification of the HPN virtual private network.

    HPN is a VPN written in Rust.  [hpn-core] holds the protocol: the
    cryptographic operations, the packet and message formats, the handshake,
    and the session that carries traffic.  [hpn-server] guards the handshake
    against abuse and keeps the table of sessions with their tunnel addresses;
    [hpn-relay] forwards packets between clients and servers; the clients
    drive a handshake and then a session over UDP or TCP, guarded by a kill
    switch; [hpn-afxdp] is a data path of the server through rings shared with
    the kernel.  This development models the
    protocol and the state the programs keep around it, and proves that they
    do what their users rely on.

    ** Files

    Protocol, src/crates/hpn-core/src:

    - [Prelude]: outcomes ([result] with [Ok], [Err], [Panic]), machine
      integers, buffers and big-endian encodings, cursors into a buffer
      ([rest_at]), sums over lists and maps, hash maps and sets with an
      unspecified order of iteration, tactics and hints.
    - [Types]: types.rs and error.rs.
    - [Codec], [Wire]: protocol/codec.rs, primitive readers and writers; the
      class [Codec] of what a message format promises, and the tactics that
      follow a decoder through a buffer.
    - [Utf8], [Net], [AddrParse], [Digest]: what the source uses of the
      standard library's strings, of its network addresses, their printing and
      their parsing, and of the hash functions.
    - [Header]: protocol/header.rs, the packet header.
    - [ReplayWindow]: the [AntiReplayWindow] of protocol/session.rs, with its
      abstract specification (highest counter and set of accepted counters)
      and the refinement between the two.
    - [Aead]: crypto/aead.rs over [RingAead], the interface of the cipher.
    - [Keys], [Signature], [Kem], [Kdf]: crypto/keys.rs, signature.rs, kem.rs,
      kdf.rs over the interfaces [MlDsa], [KemPrimitives] and [Hkdf].
    - [Pki]: crypto/pki.rs, certificates and the store that checks them.
    - [Envelope]: provider_envelope.rs, the authenticated envelope of a
      provider's configuration.
    - [Session]: [AtomicInstant] and [Session] of protocol/session.rs, and
      [SendCounter], the interleavings of its send counter.
    - [Fragment], [Reassembly]: protocol/fragment.rs.
    - [Tunnel], [Control], [Init], [Response], [Cookie]: the messages of
      protocol/messages.rs with the cryptography inside them.
    - [Handshake], [Agreement], [CookieServer], [ClientMachine]:
      protocol/handshake.rs; the agreement of the two ends; the cookie
      exchange over time; the calls a client's handshake allows.

    Server, src/crates/hpn-server/src:

    - [HandshakeReplay], [RateLimit], [AuthLockout]: handshake_replay.rs,
      rate_limit.rs, auth_lockout.rs.
    - [AddressPool], [TokenBucket], [SessionManager], [SessionThreads]:
      session_manager.rs.  The session table is proved against the class
      [AddressPool], which both allocators implement.  [SessionThreads] takes
      the methods apart into their atomic operations.
    - [UserStore]: user_store.rs, the table of users over [Argon2].
    - [DataPlane]: tun.rs (fields of IP packets), and what udp_workers.rs and
      tun_workers.rs do with one datagram and one packet of the TUN device.
    - [Server]: [VpnServer] of server.rs, the handlers of handshakes, their
      fragments, keep-alives, control messages and rekeys; [VpnServer.receive]
      is a datagram on its way through worker and handler.
    - [ServerSafety]: the invariant of the server in every history.
    - [Validation]: validation.rs, the checks on names and networks that become
      arguments of commands.
    - [ServerStart]: config.rs, the settings ([Settings]) and their validation,
      and [VpnServer::new_with_identity_hiding] of server.rs ([Start]).
    - [ServerPaths]: the handlers of server.rs for platforms without UDP
      workers, one loop over one socket ([SingleSocket]).
    - [AfXdp]: the sessions of hpn-afxdp/src/datapath.rs, the workers and the
      bridge of afxdp_workers.rs, and the handlers of server.rs that answer
      them.

    Rings shared with the kernel, src/crates/hpn-afxdp/src:

    - [Umem]: umem.rs, the memory of packets with its bounds, and the frame
      allocator as the atomic operations of any number of threads.
    - [Xsk]: ring.rs and socket.rs, the rings as indexes over shared entries
      and the socket that refills, receives, sends and reclaims; [Frames] is
      the allocator of one thread, which [Umem]'s implements.

    Client, src/crates/hpn-client-core/src:

    - [ClientStats], [ClientConfig], [NatTraversal], [KillSwitch]: stats.rs,
      config.rs, nat.rs, kill_switch.rs.
    - [Transport]: transport.rs, datagrams, frames on a TLS stream with polls,
      partial reads and dropped receives, pinned certificates, and the
      fallback from one transport to the other.
    - [Client]: [VpnClient] of client.rs, with [recv_from_server_scoped] of
      connection.rs and [TunnelInfo] of tunnel.rs.  Operations are a state and
      error monad over the client; what the transport did is an argument.
    - [ClientSafety]: the invariant of the client in every history, what
      datagrams can and cannot do, and that reconnection ends.
    - [Connect]: a client and a server put together.

    Relay, src/crates/hpn-relay/src:

    - [RelaySession]: session.rs, rate limiters and the table of sessions.
    - [Relay]: the packet handlers and the handshake limiter of relay.rs.

    ** Correspondence

    A Rust type is a [Module] with its name: the record or inductive type [t]
    with the source's fields or variants, and one definition per function of
    its [impl] blocks.  A function returning [Result] returns [result]; an
    operation on [&mut self], or on a structure with atomic fields, takes the
    value and returns the one it leaves, also when it fails.  [Panic] is an
    abort (index out of range, [expect], [assert!], and, as in a build with
    debug assertions, [debug_assert!] and arithmetic overflow), so that "does
    not abort" is a statement: the burst of a rate limiter, the count of
    misaddressed packets and the replay window of AF_XDP can overflow.  Bytes are integers below 256, [usize] and the fixed-width integers are [Z]
    with wrapping, checked and saturating operations written out; instants
    and durations are nanoseconds unless a definition says otherwise, and a
    clock reading is an argument; the wall clock may be before the epoch
    ([None]).  Mutexes and atomics make an operation one step; where threads
    interleave inside an operation (the compare-and-swap loop of the send
    counter, the methods of the session table, the stack of the frame
    allocator) the steps are an inductive relation or a function of a
    schedule.  Histories of a component are inductive predicates on its state
    and the events so far.

    Code outside the repository is a parameter: the ciphers, signatures, key
    encapsulation, key derivation and hash functions are classes of operations
    whose laws, a second class, state documented behaviour (sizes, round
    trips, that opening succeeds only on sealed data).  Random values are
    arguments.  For each class there is a concrete, insecure instance that
    satisfies the laws; the witnesses evaluate the model with it.

    ** What is shown

    - The programs, end to end: the datagrams of [VpnClient.connect], delivered
      to the server's handlers, and the server's answers delivered back leave
      both with the two ends of one session ([Connect.connect_end_to_end]), and
      traffic then passes in both directions ([Connect.tunnel_end_to_end]).
    - No history breaks the invariant of the server or the client.  The client
      does not abort, and the server aborts only where a 32-bit count of
      misaddressed packets is full, with [DataPath.overrun] the exact condition.  A
      session of the server changes its address only by messages sealed for
      it; nothing that is not sealed for the session reaches a tunnel; an
      endpoint change is acknowledged only under the pinned key; reconnection
      ends within its attempts.
    - A client and a server complete the handshake over the wire, also with a
      hidden initiation or after a cookie challenge, and end with sessions
      that understand each other; a client accepts a response only under the
      key it pinned and for its own initiation; rekeying agrees likewise.
    - A solved cookie is accepted while it is valid, across rotations of the
      server's secret, and accepted are exactly the solved cookies whose tag the
      server gives for this address, time and nonce; the proof of work is the comparison of a hash with a
      power of two.
    - The replay window decides as its specification on every sequence of
      counters, accepts exactly the counters not seen and not too old, and no
      counter twice.
    - A session decrypts what its peer encrypts, accepts only packets sealed
      under its key for its identifiers, never the same counter twice, and a
      refused packet changes nothing; concurrent senders never share a
      counter.
    - Encoders and decoders are inverse to each other, decoders never abort and
      accept only well-formed or canonical input; where a decoder ignores bytes
      or repairs a text the statement says so.
    - Fragments of a message are reassembled in any order, messages are never
      mixed, and the buffer's accounting and bounds hold in every reachable
      state.
    - Server guards: the replay cache decides as the set of recently accepted
      values, the rate limiter bounds what one network is served in any
      window, lockouts of pairs, addresses and user names happen when and
      only when the recorded failures justify them, the token bucket bounds what a session receives.
    - Session table: counters, indexes, pools and lifecycle events agree in
      every reachable table; creating and expiring do exactly what their
      callers rely on; the limit holds under every interleaving.
    - Relay: a forwarded handshake binds its session to the client and data
      then passes both ways; nothing is forwarded from or to another address;
      limits hold under every interleaving; no bytes abort a handler whose rate
      limit fits.
    - A client's handshake sends one initiation, accepts one response and
      hands out one set of keys, whatever the order of the calls.
    - Certificates survive the wire and determine what was signed; a store
      answers only with certificates one of its roots vouches for, and with
      those that were issued under it.
    - Start: a refused configuration builds nothing; a valid one, with an aligned
      pool, gives a server in the states [ServerSafety] speaks of, with the
      settings of the configuration.  What passes for an interface
      name or a network is harmless in a command line.
    - The loop over one socket treats ordinary datagrams as the UDP workers do.
      The server on AF_XDP keeps its invariant, its workers know only live
      sessions and abort only past the largest counter; what they accept, their replay window included, is stated
      exactly, and it is less than the other paths promise.
    - Frames in use are never shared while allocations and releases do not
      overlap, and the two overlaps that share one are shown; receiving uses up
      one frame per packet.
    - Kill switch: after a loss traffic is blocked until it is released, and it
      is blocked only after a loss.
    - Frames on a TCP stream arrive as sent however the stream is cut, while no
      receive is dropped in the middle of one.
    - An envelope opens exactly if it was made under the same key.
    - Accounts: logins succeed for the accounts the administrator left usable,
      passwords cannot be guessed faster than the lockout allows, and no
      lockout lasts.

    ** Bounds and fuel

    Loops over machine words and slices are structural.  [chunks_fuel] has the
    length of its input as fuel and [enforce_caps_loop] the number of entries;
    both are shown to be enough ([chunks_fuel_concat],
    [enforce_caps_loop_spec]).  The UTF-8 decoders have the length of their
    input as fuel.  [hex_fuel] prints a group of an IPv6 address with four
    digits as fuel, the most it can have ([hex_fuel_digits]).  The search for
    a nonce, [first_nonce], runs through the source's own bound of 2^26
    candidates.  [F64] computes with exact rationals rounded to 53 bits; the
    values of the token bucket are far from the ends of the exponent range,
    which is not modelled.

    ** Not modelled

    Zeroization of secrets, timing, logging, metrics, reading and writing of
    files, JSON, sockets and the other operating system interfaces of the
    programs (routing tables, firewalls, tunnel devices, io_uring, the system
    calls behind the AF_XDP rings and the eBPF program): what they do is an
    outcome the definitions take as an argument.  The start of threads, their
    queues and the loops around the handlers; buffer pools and CPU hints, which
    reuse memory and keep no state of the protocol; the administration socket,
    whose requests call operations that are modelled; the configuration of the
    relay; the desktop applications and the parts of the clients that run
    commands of their platform.  Of config.rs of the server the fields kept for
    old files, which are ignored, and the tuning of threads and buffers. *)

From stdpp Require Export prelude gmap fin_maps strings pretty.
From Stdlib Require Export ZArith Lia.

#[global] Open Scope Z_scope.

(** * Outcomes of fallible code

    A Rust function returning [Result<A, E>] yields [Ok] or [Err]; indexing or
    slicing out of range, an [expect] on [None] and a failed [assert!] abort
    the thread, which is [Panic].  Functions that return a plain value and may
    abort use the empty error type. *)

Inductive result (E A : Type) : Type :=
  | Ok (a : A)
  | Err (e : E)
  | Panic.

Arguments Ok {E A} a.
Arguments Err {E A} e.
Arguments Panic {E A}.

Definition rbind {E A B} (c : result E A) (k : A -> result E B) : result E B :=
  match c with
  | Ok a => k a
  | Err e => Err e
  | Panic => Panic
  end.

Definition map_err {E F A} (f : E -> F) (c : result E A) : result F A :=
  match c with
  | Ok a => Ok a
  | Err e => Err (f e)
  | Panic => Panic
  end.

Definition ok_or {E A} (e : E) (o : option A) : result E A :=
  match o with
  | Some a => Ok a
  | None => Err e
  end.

Definition is_ok {E A} (c : result E A) : bool :=
  match c with Ok _ => true | _ => false end.

Declare Scope hpn_scope.
Delimit Scope hpn_scope with hpn.
#[global] Open Scope hpn_scope.

Notation "'let?' p := c 'in' k" := (rbind c (fun p => k))
  (at level 10, p pattern, c at level 100, k at level 200,
   format "'[v' 'let?'  p  :=  c  'in' '/' k ']'") : hpn_scope.

(** * Machine integers *)

Definition uint (w x : Z) : Prop := 0 <= x < 2 ^ w.

#[global] Instance uint_dec w x : Decision (uint w x).
Proof. unfold uint. apply _. Defined.

Abbreviation u8 := (uint 8).
Abbreviation u16 := (uint 16).
Abbreviation u32 := (uint 32).
Abbreviation u64 := (uint 64).

Definition U16_MAX : Z := 65535.
Definition U32_MAX : Z := 4294967295.
Definition U64_MAX : Z := 18446744073709551615.

Definition wrapping_add (w x y : Z) : Z := (x + y) mod 2 ^ w.
Definition wrapping_sub (w x y : Z) : Z := (x - y) mod 2 ^ w.
Definition checked_add (w x y : Z) : option Z :=
  if x + y <? 2 ^ w then Some (x + y) else None.
Definition checked_sub (x y : Z) : option Z :=
  if y <=? x then Some (x - y) else None.
Definition saturating_add (w x y : Z) : Z := Z.min (x + y) (2 ^ w - 1).
Definition saturating_sub (x y : Z) : Z := Z.max 0 (x - y).
Definition as_uint (w x : Z) : Z := x mod 2 ^ w.

(** * Buffers

    A [Vec<u8>] or [&[u8]] is a list of byte values; a [usize] is a [Z].
    Every buffer holds at most [isize::MAX] bytes, so sums of a length and a
    few constants never reach [usize::MAX] and are exact. *)

Definition bytes_ok (l : list Z) : Prop := Forall u8 l.

Definition len {A} (l : list A) : Z := Z.of_nat (length l).

Definition slice {A} (l : list A) (a b : Z) : list A :=
  take (Z.to_nat (b - a)) (drop (Z.to_nat a) l).

(** [l[i]] *)
Definition index {E A} (l : list A) (i : Z) : result E A :=
  if 0 <=? i then
    match l !! Z.to_nat i with Some x => Ok x | None => Panic end
  else Panic.

(** [&l[a..b]] *)
Definition range {E A} (l : list A) (a b : Z) : result E (list A) :=
  if (0 <=? a) && (a <=? b) && (b <=? len l) then Ok (slice l a b) else Panic.

(** [l[i] = x] *)
Definition store {E A} (l : list A) (i : Z) (x : A) : result E (list A) :=
  if (0 <=? i) && (i <? len l) then Ok (<[Z.to_nat i := x]> l) else Panic.

(** [l[a..b].copy_from_slice(src)] *)
Definition copy_from_slice {E A} (l : list A) (a b : Z) (src : list A)
    : result E (list A) :=
  if (0 <=? a) && (a <=? b) && (b <=? len l) && (b - a =? len src) then
    Ok (take (Z.to_nat a) l ++ src ++ drop (Z.to_nat b) l)
  else Panic.

Fixpoint le_bytes (n : nat) (x : Z) : list Z :=
  match n with
  | O => []
  | S n => x mod 256 :: le_bytes n (x / 256)
  end.

Definition from_le (l : list Z) : Z := foldr (fun b acc => b + 256 * acc) 0 l.

(** [x.to_be_bytes()] for an [n]-byte integer, and [uN::from_be_bytes]. *)
Definition be_bytes (n : nat) (x : Z) : list Z := rev (le_bytes n x).
Definition from_be (l : list Z) : Z := from_le (rev l).

(** Decimal rendering, the [{}] of a format string. *)
(** A byte-string literal. *)
Fixpoint bytes_of_string (s : string) : list Z :=
  match s with
  | EmptyString => []
  | String c s => Z.of_N (Ascii.N_of_ascii c) :: bytes_of_string s
  end.

Definition dec (z : Z) : string := pretty z.

(** * Lemmas on lengths, slices and cursors *)

Create HintDb hpn.
Create Rewrite HintDb len.

Lemma len_app {A} (l k : list A) : len (l ++ k) = len l + len k.
Proof. unfold len. rewrite length_app. lia. Qed.

Lemma len_nil {A} : len (@nil A) = 0.
Proof. reflexivity. Qed.

Lemma len_cons {A} (x : A) l : len (x :: l) = 1 + len l.
Proof. unfold len. simpl length. lia. Qed.

Lemma len_nonneg {A} (l : list A) : 0 <= len l.
Proof. unfold len. lia. Qed.

Lemma to_nat_len {A} (l : list A) : Z.to_nat (len l) = length l.
Proof. unfold len. lia. Qed.

Lemma len_zero_nil {A} (l : list A) : len l = 0 -> l = [].
Proof. destruct l; [done|]. rewrite len_cons. pose proof (len_nonneg l). lia. Qed.

Lemma len_replicate {A} n (x : A) : len (replicate n x) = Z.of_nat n.
Proof. unfold len. by rewrite length_replicate. Qed.

Lemma len_take {A} n (l : list A) : 0 <= n <= len l -> len (take (Z.to_nat n) l) = n.
Proof. unfold len. intros ?. rewrite length_take. lia. Qed.

Lemma len_drop {A} n (l : list A) : 0 <= n <= len l -> len (drop (Z.to_nat n) l) = len l - n.
Proof. unfold len. intros ?. rewrite length_drop. lia. Qed.

Lemma len_slice {A} (l : list A) a b :
  0 <= a -> a <= b -> b <= len l -> len (slice l a b) = b - a.
Proof. unfold slice, len. intros. rewrite length_take, length_drop. lia. Qed.

Lemma len_insert {A} (l : list A) i x : len (<[i:=x]> l) = len l.
Proof. unfold len. by rewrite length_insert. Qed.

(** Lists with a common first part, or a first part of the same length. *)
Lemma app_cut {A} (a b x y : list A) : len a = len b -> a ++ x = b ++ y -> a = b /\ x = y.
Proof. intros Hl. apply app_inj_1. unfold len in Hl. lia. Qed.

Lemma range_ok {E A} (l : list A) a b :
  0 <= a -> a <= b -> b <= len l -> range (E:=E) l a b = Ok (slice l a b).
Proof.
  intros. unfold range.
  by rewrite (proj2 (Z.leb_le 0 a)), (proj2 (Z.leb_le a b)), (proj2 (Z.leb_le b (len l))).
Qed.

Lemma range_inv {E A} (l s : list A) a b :
  range (E:=E) l a b = Ok s -> 0 <= a /\ a <= b /\ b <= len l /\ s = slice l a b /\ len s = b - a.
Proof.
  unfold range. destruct ((0 <=? a) && (a <=? b) && (b <=? len l)) eqn:Hb; [|done].
  intros [= <-]. apply andb_true_iff in Hb as [Hb ?]. apply andb_true_iff in Hb as [? ?].
  rewrite Z.leb_le in *. split_and!; try done. by apply len_slice.
Qed.

Lemma range_panic {E A} (l : list A) a b :
  range (E:=E) l a b = Panic -> 0 <= a -> a <= b -> b <= len l -> False.
Proof. intros H ? ? ?. by rewrite range_ok in H. Qed.

Lemma range_not_err {E A} (l : list A) a b e : range (E:=E) l a b = Err e -> False.
Proof. unfold range. by destruct (_ && _). Qed.

Lemma index_ok {E A} (l : list A) i :
  0 <= i < len l -> exists x, index (E:=E) l i = Ok x /\ l !! Z.to_nat i = Some x.
Proof.
  intros Hi. unfold index. rewrite (proj2 (Z.leb_le 0 i)) by lia.
  destruct (l !! Z.to_nat i) as [x|] eqn:E1; [by exists x|].
  apply lookup_ge_None in E1. unfold len in Hi. lia.
Qed.

Lemma slice_app {A} (l : list A) a b c :
  0 <= a -> a <= b -> b <= c -> slice l a b ++ slice l b c = slice l a c.
Proof.
  intros. unfold slice.
  replace (drop (Z.to_nat b) l) with (drop (Z.to_nat (b - a)) (drop (Z.to_nat a) l))
    by (rewrite drop_drop; f_equal; lia).
  replace (Z.to_nat (c - a)) with (Z.to_nat (b - a) + Z.to_nat (c - b))%nat by lia.
  by rewrite take_take_drop.
Qed.

Lemma slice_drop {A} (l : list A) a b :
  0 <= a -> a <= b -> slice l a b ++ drop (Z.to_nat b) l = drop (Z.to_nat a) l.
Proof.
  intros. unfold slice.
  replace (drop (Z.to_nat b) l) with (drop (Z.to_nat (b - a)) (drop (Z.to_nat a) l))
    by (rewrite drop_drop; f_equal; lia).
  apply take_drop.
Qed.

Lemma slice_all {A} (l : list A) : slice l 0 (len l) = l.
Proof. unfold slice, len. rewrite drop_0, take_ge; [done|lia]. Qed.

Lemma slice_one {A} (l : list A) i x :
  0 <= i -> l !! Z.to_nat i = Some x -> slice l i (i + 1) = [x].
Proof.
  intros Hi Hx. unfold slice. replace (Z.to_nat (i + 1 - i)) with 1%nat by lia.
  by rewrite (drop_S l x (Z.to_nat i) Hx).
Qed.

Lemma index_inv {E A} (l : list A) i x :
  index (E:=E) l i = Ok x -> 0 <= i < len l /\ l !! Z.to_nat i = Some x.
Proof.
  unfold index. destruct (0 <=? i) eqn:Hi; [|done]. apply Z.leb_le in Hi.
  destruct (l !! Z.to_nat i) as [y|] eqn:Hl; [|done]. intros [= ->].
  apply lookup_lt_Some in Hl as ?. unfold len. split; [lia|done].
Qed.

Lemma index_panic {E A} (l : list A) i :
  index (E:=E) l i = Panic -> 0 <= i < len l -> False.
Proof. intros H Hi. destruct (index_ok (E:=E) l i Hi) as (x & Hx & _). congruence. Qed.

Lemma index_not_err {E A} (l : list A) i e : index (E:=E) l i = Err e -> False.
Proof. unfold index. destruct (0 <=? i); [|done]. by destruct (l !! _). Qed.

Lemma bytes_ok_app l k : bytes_ok (l ++ k) <-> bytes_ok l /\ bytes_ok k.
Proof. apply Forall_app. Qed.

Lemma bytes_ok_slice l a b : bytes_ok l -> bytes_ok (slice l a b).
Proof. intros. by apply Forall_take, Forall_drop. Qed.

Lemma bytes_ok_lookup l i x : bytes_ok l -> l !! i = Some x -> u8 x.
Proof. intros H ?. eapply Forall_lookup in H; eauto. Qed.

Lemma bytes_ok_replicate n x : u8 x -> bytes_ok (replicate n x).
Proof. intros. by apply Forall_replicate. Qed.

(** [rest_at buf o r]: reading [buf] from offset [o] on leaves exactly [r].
    Parsers that advance an offset are followed with it field by field. *)
Definition rest_at {A} (buf : list A) (o : Z) (r : list A) : Prop :=
  exists p, buf = p ++ r /\ len p = o.

Lemma rest_at_start {A} (buf : list A) : rest_at buf 0 buf.
Proof. by exists []. Qed.

Lemma rest_at_len {A} (buf : list A) o r : rest_at buf o r -> len buf = o + len r.
Proof. intros (p & -> & <-). apply len_app. Qed.

Lemma rest_at_nonneg {A} (buf : list A) o r : rest_at buf o r -> 0 <= o.
Proof. intros (p & -> & <-). apply len_nonneg. Qed.

Lemma rest_at_app {A} (buf : list A) o s r :
  rest_at buf o (s ++ r) -> rest_at buf (o + len s) r.
Proof. intros (p & -> & <-). exists (p ++ s). by rewrite len_app, app_assoc. Qed.

Lemma rest_at_cons {A} (buf : list A) o x r :
  rest_at buf o (x :: r) -> rest_at buf (o + 1) r.
Proof. intros H. by apply (rest_at_app buf o [x] r) in H. Qed.

Lemma rest_at_drop {A} (buf : list A) o : 0 <= o <= len buf -> rest_at buf o (drop (Z.to_nat o) buf).
Proof. intros. exists (take (Z.to_nat o) buf). by rewrite take_drop, len_take. Qed.

Lemma slice_rest_at {A} (buf : list A) o s r b :
  rest_at buf o (s ++ r) -> b = o + len s -> slice buf o b = s.
Proof.
  intros (p & -> & <-) ->. unfold slice.
  rewrite drop_app_length' by (unfold len; lia).
  rewrite take_app_length' by (unfold len; lia). done.
Qed.

Lemma range_rest_at {E A} (buf : list A) o s r b :
  rest_at buf o (s ++ r) -> b = o + len s -> range (E:=E) buf o b = Ok s.
Proof.
  intros H ->.
  pose proof (rest_at_len _ _ _ H) as Hl. pose proof (rest_at_nonneg _ _ _ H).
  pose proof (len_nonneg s). pose proof (len_nonneg r). rewrite len_app in Hl.
  rewrite range_ok by lia. f_equal. by eapply slice_rest_at.
Qed.

Lemma range_rest_at_end {E A} (buf : list A) o r :
  rest_at buf o r -> range (E:=E) buf o (len buf) = Ok r.
Proof.
  intros H. rewrite <- (app_nil_r r) in H.
  eapply range_rest_at; [done|]. apply rest_at_len in H. by rewrite app_nil_r in H.
Qed.

Lemma index_rest_at {E A} (buf : list A) o x r :
  rest_at buf o (x :: r) -> index (E:=E) buf o = Ok x.
Proof.
  intros (p & -> & <-). unfold index.
  rewrite (proj2 (Z.leb_le 0 (len p))) by apply len_nonneg.
  unfold len. rewrite Nat2Z.id, lookup_app_r by lia. by rewrite Nat.sub_diag.
Qed.

(** * Lemmas on integer encodings *)

Lemma length_le_bytes n x : length (le_bytes n x) = n.
Proof. revert x. induction n; intros; simpl; auto. Qed.

Lemma length_be_bytes n x : length (be_bytes n x) = n.
Proof. unfold be_bytes. by rewrite length_rev, length_le_bytes. Qed.

Lemma len_be_bytes n x : len (be_bytes n x) = Z.of_nat n.
Proof. unfold len. by rewrite length_be_bytes. Qed.

Lemma len_le_bytes n x : len (le_bytes n x) = Z.of_nat n.
Proof. unfold len. by rewrite length_le_bytes. Qed.

Lemma le_bytes_ok n x : bytes_ok (le_bytes n x).
Proof.
  revert x. induction n; intros x; simpl; constructor; [|apply IHn].
  unfold uint. apply Z.mod_pos_bound. lia.
Qed.

Lemma be_bytes_ok n x : bytes_ok (be_bytes n x).
Proof. unfold be_bytes, bytes_ok. apply Forall_rev, le_bytes_ok. Qed.

Lemma from_le_le_bytes n x : from_le (le_bytes n x) = x mod 256 ^ Z.of_nat n.
Proof.
  revert x. induction n; intros x; [simpl; by rewrite Z.mod_1_r|].
  change (le_bytes (S n) x) with (x mod 256 :: le_bytes n (x / 256)).
  change (from_le (x mod 256 :: ?k)) with (x mod 256 + 256 * from_le k).
  rewrite IHn, Nat2Z.inj_succ, Z.pow_succ_r by lia.
  rewrite Z.rem_mul_r by lia. lia.
Qed.

Lemma from_be_be_bytes n x :
  uint (8 * Z.of_nat n) x -> from_be (be_bytes n x) = x.
Proof.
  unfold uint, from_be, be_bytes. rewrite rev_involutive, from_le_le_bytes.
  rewrite Z.pow_mul_r by lia. change (2 ^ 8) with 256. apply Z.mod_small.
Qed.

Lemma from_be_be_bytes_2 x : u16 x -> from_be (be_bytes 2 x) = x.
Proof. intros. by apply from_be_be_bytes. Qed.
Lemma from_be_be_bytes_4 x : u32 x -> from_be (be_bytes 4 x) = x.
Proof. intros. by apply from_be_be_bytes. Qed.
Lemma from_be_be_bytes_8 x : u64 x -> from_be (be_bytes 8 x) = x.
Proof. intros. by apply from_be_be_bytes. Qed.

Lemma le_bytes_from_le l : bytes_ok l -> le_bytes (length l) (from_le l) = l.
Proof.
  induction 1 as [|b l Hb _ IH]; [done|].
  change (from_le (b :: l)) with (b + 256 * from_le l). simpl. unfold uint in Hb.
  replace ((b + 256 * from_le l) mod 256) with b.
  - replace ((b + 256 * from_le l) / 256) with (from_le l); [by rewrite IH|].
    apply (Z.div_unique _ _ _ b); lia.
  - apply (Z.mod_unique _ _ (from_le l)); lia.
Qed.

Lemma be_bytes_from_be n l :
  bytes_ok l -> length l = n -> be_bytes n (from_be l) = l.
Proof.
  intros Hl <-. unfold be_bytes, from_be. rewrite <- length_rev.
  rewrite le_bytes_from_le by (by apply Forall_rev). apply rev_involutive.
Qed.

Lemma from_le_bound l : bytes_ok l -> 0 <= from_le l < 256 ^ len l.
Proof.
  induction 1 as [|b l Hb _ IH]; [by compute|].
  change (from_le (b :: l)) with (b + 256 * from_le l). unfold uint in Hb.
  rewrite len_cons, Z.pow_add_r by (pose proof (len_nonneg l); lia). lia.
Qed.

Lemma from_be_bound n l :
  bytes_ok l -> length l = n -> uint (8 * Z.of_nat n) (from_be l).
Proof.
  intros Hl <-. unfold uint, from_be. rewrite Z.pow_mul_r by lia.
  change (2 ^ 8) with 256. pose proof (from_le_bound (rev l)) as H.
  unfold len in H. rewrite length_rev in H. apply H. by apply Forall_rev.
Qed.

Lemma from_be_app hi lo : from_be (hi ++ lo) = from_be hi * 256 ^ len lo + from_be lo.
Proof.
  unfold from_be. rewrite rev_app_distr. assert (len lo = len (rev lo)) as -> by (unfold len; by rewrite length_rev).
  generalize (rev hi) (rev lo). clear. intros hi lo. induction lo as [|b lo IH].
  - change (len (@nil Z)) with 0. simpl. change (from_le []) with 0. lia.
  - change (from_le ((b :: lo) ++ hi)) with (b + 256 * from_le (lo ++ hi)).
    change (from_le (b :: lo)) with (b + 256 * from_le lo).
    rewrite IH, len_cons, Z.pow_add_r by (pose proof (len_nonneg lo); lia). lia.
Qed.

(** The numbers of an aligned block of [2 ^ n]. *)
Lemma aligned_block n b o : 0 <= n -> b mod 2 ^ n = 0 -> 0 <= o < 2 ^ n -> (b + o) / 2 ^ n = b / 2 ^ n.
Proof.
  intros Hn Hb Ho. assert (0 < 2 ^ n) by (apply Z.pow_pos_nonneg; lia).
  apply Z.div_exact in Hb; [|lia]. rewrite Hb at 1. rewrite Z.mul_comm, Z.div_add_l by lia.
  rewrite (Z.div_small o) by done. lia.
Qed.

Lemma aligned_fits w n b : 0 <= n <= w -> 0 <= b < 2 ^ w -> b mod 2 ^ n = 0 -> b + 2 ^ n <= 2 ^ w.
Proof.
  intros Hn Hb Ha. assert (0 < 2 ^ n) as Hp by (apply Z.pow_pos_nonneg; lia). apply Z.div_exact in Ha; [|lia].
  replace (2 ^ w) with (2 ^ n * 2 ^ (w - n)) in * by (rewrite <- Z.pow_add_r by lia; f_equal; lia).
  generalize dependent (2 ^ n). intros P Hb Hp Ha. set (q := b / P) in *. assert (q < 2 ^ (w - n)) by nia. nia.
Qed.

Lemma be_bytes_inj n x y :
  uint (8 * Z.of_nat n) x -> uint (8 * Z.of_nat n) y ->
  be_bytes n x = be_bytes n y -> x = y.
Proof.
  intros Hx Hy H. rewrite <- (from_be_be_bytes n x), <- (from_be_be_bytes n y) by done.
  by rewrite H.
Qed.

#[export] Hint Rewrite @len_app @len_nil @len_cons @len_replicate len_be_bytes
  len_le_bytes @len_insert : len.
#[export] Hint Resolve len_nonneg be_bytes_ok le_bytes_ok bytes_ok_slice
  bytes_ok_replicate : hpn.

(** * Tactics *)

(** Numeric goals about lengths: normalise [len], then arithmetic. *)
Ltac lens := autorewrite with len in *; unfold uint in *; try lia.

(** Case analysis on the first call or test of [H : (let? x := c in k) = r] or
    [H : (if b then c else d) = r]. *)
Ltac step_in H :=
  match type of H with
  | rbind ?c _ = _ => let E := fresh "Hs" in destruct c eqn:E; simpl in H; try discriminate H
  | (if ?b then _ else _) = _ => let E := fresh "Hb" in destruct b eqn:E; simpl in H; try discriminate H
  end.

(** The same for a call, naming its outcome. *)
Tactic Notation "step_call" hyp(H) "as" ident(E) :=
  match type of H with
  | rbind ?c _ = _ => destruct c eqn:E; cbn [rbind] in H; try discriminate H
  end.

(** Run the sequencing of outcomes, leaving the calls folded. *)
Ltac sbind := cbn [rbind map_err ok_or fst snd].

(** Boolean comparisons to propositions, everywhere. *)
Ltac b2p :=
  repeat match goal with
  | H : (_ <? _) = true |- _ => apply Z.ltb_lt in H
  | H : (_ <? _) = false |- _ => apply Z.ltb_ge in H
  | H : (_ <=? _) = true |- _ => apply Z.leb_le in H
  | H : (_ <=? _) = false |- _ => apply Z.leb_gt in H
  | H : (_ =? _) = true |- _ => apply Z.eqb_eq in H
  | H : (_ =? _) = false |- _ => apply Z.eqb_neq in H
  | H : (_ && _) = true |- _ => apply andb_true_iff in H as [? ?]
  | H : (_ || _) = false |- _ => apply orb_false_iff in H as [? ?]
  | H : negb _ = true |- _ => apply negb_true_iff in H
  | H : negb _ = false |- _ => apply negb_false_iff in H
  | H : bool_decide _ = true |- _ => apply bool_decide_eq_true in H
  | H : bool_decide _ = false |- _ => apply bool_decide_eq_false in H
  end.

(** Close a goal whose hypotheses have an access in range that aborts. *)
Ltac in_range :=
  match goal with
  | H : range _ _ _ = Panic |- _ => exfalso; apply (range_panic _ _ _ H); lia
  | H : index _ _ = Panic |- _ => exfalso; apply (index_panic _ _ H); lia
  | H : range _ _ _ = Err _ |- _ => exfalso; apply (range_not_err _ _ _ _ H)
  | H : index _ _ = Err _ |- _ => exfalso; apply (index_not_err _ _ _ H)
  | H : ok_or _ ?o = Panic |- _ => destruct o; discriminate H
  end.

(** Record that the lengths in the goal are not negative. *)
Ltac len_pos :=
  repeat match goal with
  | |- context [len ?l] =>
      lazymatch goal with
      | H : 0 <= len l |- _ => fail
      | _ => pose proof (len_nonneg l)
      end
  end.

(** Rewrite the boolean comparisons that decide a branch of the goal. *)
Ltac decide_ltb :=
  match goal with
  | |- context [?a <? ?b] =>
      first [rewrite (proj2 (Z.ltb_lt a b)) by lia | rewrite (proj2 (Z.ltb_ge a b)) by lia]
  | |- context [?a <=? ?b] =>
      first [rewrite (proj2 (Z.leb_le a b)) by lia | rewrite (proj2 (Z.leb_gt a b)) by lia]
  | |- context [?a =? ?b] =>
      first [rewrite (proj2 (Z.eqb_eq a b)) by lia | rewrite (proj2 (Z.eqb_neq a b)) by lia]
  end.

(** * Writing into buffers *)

Lemma copy_from_slice_at {E A} (p r s : list A) a b :
  len p = a -> b = a + len s -> len s <= len r ->
  copy_from_slice (E:=E) (p ++ r) a b s = Ok ((p ++ s) ++ drop (length s) r).
Proof.
  intros <- -> Hr. unfold copy_from_slice. pose proof (len_nonneg p). pose proof (len_nonneg s).
  rewrite len_app. repeat decide_ltb. simpl. f_equal. rewrite <- app_assoc. f_equal.
  - rewrite take_app_length'; [done|unfold len; lia].
  - f_equal. rewrite drop_app_ge by (unfold len; lia). f_equal. unfold len. lia.
Qed.

Lemma copy_from_slice_start {E A} (l s : list A) b :
  b = len s -> len s <= len l ->
  copy_from_slice (E:=E) l 0 b s = Ok (s ++ drop (length s) l).
Proof. intros -> H. by apply (copy_from_slice_at [] l s 0). Qed.

Lemma store_at {E A} (p r : list A) a x :
  len p = a -> 1 <= len r -> store (E:=E) (p ++ r) a x = Ok ((p ++ [x]) ++ drop 1 r).
Proof.
  intros <- Hr. unfold store. pose proof (len_nonneg p). rewrite len_app.
  repeat decide_ltb. simpl. f_equal. destruct r as [|y r]; [rewrite len_nil in Hr; lia|].
  rewrite insert_app_r_alt by (unfold len; lia).
  replace (_ - _)%nat with 0%nat by (unfold len; lia). simpl. by rewrite <- app_assoc.
Qed.

Lemma len_copy_from_slice {E A} (l : list A) a b s l' :
  copy_from_slice (E:=E) l a b s = Ok l' -> len l' = len l.
Proof.
  unfold copy_from_slice. intros H. step_in H. b2p. injection H as <-.
  rewrite !len_app, len_take, len_drop by lia. lia.
Qed.

Lemma len_drop_nat {A} n (l : list A) : Z.of_nat n <= len l -> len (drop n l) = len l - Z.of_nat n.
Proof. unfold len. intros. rewrite length_drop. lia. Qed.

#[global] Instance bytes_ok_dec l : Decision (bytes_ok l).
Proof. unfold bytes_ok. apply _. Defined.

(** Closed decidable goals by evaluation. *)
Ltac by_decide := apply (bool_decide_unpack _); vm_compute; exact I.

#[global] Arguments le_bytes : simpl never.
#[global] Arguments be_bytes : simpl never.
#[global] Arguments from_le : simpl never.
#[global] Arguments from_be : simpl never.
#[global] Arguments len : simpl never.
#[global] Arguments slice : simpl never.
#[global] Arguments index : simpl never.
#[global] Arguments range : simpl never.
#[global] Arguments store : simpl never.
#[global] Arguments copy_from_slice : simpl never.

(** Discharge the side conditions of a write at the end of what is written. *)
Ltac write_side :=
  first
    [ reflexivity
    | rewrite ?len_be_bytes, ?drop_drop, len_drop_nat by (simpl; lia); simpl; lia
    | lens ].

Lemma split_at {A} (n : nat) (l : list A) :
  Z.of_nat n <= len l -> exists p r, l = p ++ r /\ length p = n.
Proof.
  intros. exists (take n l), (drop n l). rewrite take_drop. split; [done|].
  unfold len in *. rewrite length_take. lia.
Qed.

(** Properties of a byte are checked on the 256 values. *)
Lemma u8_forall (P : Z -> bool) :
  forallb P (seqZ 0 256) = true -> forall b, u8 b -> P b = true.
Proof.
  intros H b Hb. rewrite forallb_forall in H. apply H.
  apply list_elem_of_In, elem_of_seqZ. unfold uint in Hb. lia.
Qed.

(** * Hash maps

    A [HashMap] is a [gmap]; the order in which its iterators visit the
    entries is unspecified and given by an instance of [HashIter]. *)

Class HashIter (K V : Type) `{Countable K} := {
  hash_iter : gmap K V -> list (K * V);
  hash_iter_perm m : hash_iter m ≡ₚ map_to_list m;
}.

#[export] Instance map_order {K V} `{Countable K} : HashIter K V := {
  hash_iter := map_to_list;
  hash_iter_perm m := reflexivity (map_to_list m);
}.

Lemma size_insert_le {K V} `{Countable K} (m : gmap K V) k v : (size (<[k := v]> m) <= S (size m))%nat.
Proof. rewrite map_size_insert. destruct (m !! k); simpl; lia. Qed.

Lemma size_take {K V} `{Countable K} (m : gmap K V) k v :
  m !! k = Some v -> size m = S (size (delete k m)).
Proof.
  intros E. rewrite map_size_delete_Some by (by eexists).
  assert (size m <> 0%nat) by (intros Hz%map_size_empty_iff; by rewrite Hz in E). lia.
Qed.

(** A [HashSet] is a [gset], with the order of its iterators likewise. *)
Class SetIter (K : Type) `{Countable K} := {
  set_iter : gset K -> list K;
  set_iter_perm s : set_iter s ≡ₚ elements s;
}.

#[export] Instance set_order {K} `{Countable K} : SetIter K := {
  set_iter := elements;
  set_iter_perm s := reflexivity (elements s);
}.

Lemma elem_of_set_iter {K} `{Countable K} {I : SetIter K} (s : gset K) x : x ∈ set_iter s <-> x ∈ s.
Proof. by rewrite set_iter_perm, elem_of_elements. Qed.

(** [iter().min_by_key(f)]: the first of the least entries. *)
Definition min_by_key {A} (f : A -> Z) (l : list A) : option A :=
  foldl (fun acc x =>
    match acc with
    | None => Some x
    | Some y => if f x <? f y then Some x else Some y
    end) None l.

Lemma min_by_key_acc {A} (f : A -> Z) l acc :
  exists y, foldl (fun acc x =>
      match acc with None => Some x | Some y => if f x <? f y then Some x else Some y end)
    (Some acc) l = Some y /\ (y = acc \/ y ∈ l) /\ f y <= f acc /\ forall x, x ∈ l -> f y <= f x.
Proof.
  revert acc. induction l as [|x l IH]; intros acc; simpl.
  { exists acc. split_and!; [done|by left|lia|]. intros x Hx. by apply not_elem_of_nil in Hx. }
  destruct (f x <? f acc) eqn:E; b2p.
  - destruct (IH x) as (y & -> & Hin & Hle & Hall). exists y. split_and!; [done| |lia|].
    + right. rewrite elem_of_cons. by destruct Hin; [left|right].
    + intros z Hz. apply elem_of_cons in Hz as [->|Hz]; [done|by apply Hall].
  - destruct (IH acc) as (y & -> & Hin & Hle & Hall). exists y. split_and!; [done| |lia|].
    + rewrite elem_of_cons. destruct Hin; [by left|by right; right].
    + intros z Hz. apply elem_of_cons in Hz as [->|Hz]; [lia|by apply Hall].
Qed.

Lemma min_by_key_spec {A} (f : A -> Z) l :
  match min_by_key f l with
  | None => l = []
  | Some y => y ∈ l /\ forall x, x ∈ l -> f y <= f x
  end.
Proof.
  destruct l as [|x l]; [done|]. unfold min_by_key. simpl.
  destruct (min_by_key_acc f l x) as (y & -> & Hin & Hle & Hall). split.
  - rewrite elem_of_cons. by destruct Hin; [left|right].
  - intros z Hz. apply elem_of_cons in Hz as [->|Hz]; [done|by apply Hall].
Qed.

(** Sums over lists. *)
Definition zsum {A} (f : A -> Z) (l : list A) : Z := foldr (fun x acc => f x + acc) 0 l.

Lemma zsum_app {A} (f : A -> Z) l k : zsum f (l ++ k) = zsum f l + zsum f k.
Proof. induction l; simpl; [done|]. lia. Qed.

Lemma zsum_nonneg {A} (f : A -> Z) l : (forall x, x ∈ l -> 0 <= f x) -> 0 <= zsum f l.
Proof.
  induction l as [|x l IH]; intros Hf; simpl; [lia|].
  assert (0 <= f x) by (apply Hf, elem_of_cons; by left).
  assert (0 <= zsum f l) by (apply IH; intros y Hy; apply Hf, elem_of_cons; by right). lia.
Qed.

Lemma zsum_fmap {A B} (f : B -> Z) (g : A -> B) l : zsum f (g <$> l) = zsum (fun x => f (g x)) l.
Proof. induction l as [|x l IH]; [done|]. cbn. f_equal. exact IH. Qed.

Lemma zsum_perm {A} (f : A -> Z) l k : l ≡ₚ k -> zsum f l = zsum f k.
Proof. induction 1; simpl; lia. Qed.

Lemma zsum_replace {A} (f : A -> Z) l i x y :
  l !! i = Some x -> zsum f (<[i := y]> l) = zsum f l - f x + f y.
Proof.
  revert i. induction l as [|z l IH]; intros [|i] Hi; simpl in *; try done.
  - injection Hi as ->. lia.
  - rewrite (IH i Hi). lia.
Qed.

Lemma zsum_replicate {A} (f : A -> Z) n x : f x = 0 -> zsum f (replicate n x) = 0.
Proof. intros Hx. induction n; simpl; lia. Qed.

(** Sums over the values of a map. *)
Section MapSum.
Context {K V : Type} `{Countable K}.

Definition map_sum (f : V -> Z) (m : gmap K V) : Z :=
  map_fold (fun _ v acc => f v + acc) 0 m.

Lemma map_sum_list f m : map_sum f m = zsum (fun kv => f (snd kv)) (map_to_list m).
Proof.
  unfold map_sum, zsum. rewrite map_fold_foldr.
  induction (map_to_list m) as [|[k v] l IH]; simpl; [done|]. by rewrite IH.
Qed.

Lemma map_sum_empty f : map_sum f ∅ = 0.
Proof. apply map_fold_empty. Qed.

Lemma map_sum_insert f m k v : m !! k = None -> map_sum f (<[k := v]> m) = f v + map_sum f m.
Proof. intros Hk. unfold map_sum. rewrite map_fold_insert_L; [done|lia|done]. Qed.

Lemma map_sum_delete f m k v : m !! k = Some v -> map_sum f (delete k m) = map_sum f m - f v.
Proof.
  intros Hk. rewrite <- (insert_delete_id m k v Hk) at 2.
  rewrite map_sum_insert by apply lookup_delete_eq. lia.
Qed.

Lemma map_sum_replace f m k v v' :
  m !! k = Some v -> map_sum f (<[k := v']> m) = map_sum f m - f v + f v'.
Proof.
  intros Hk. rewrite <- insert_delete_eq, map_sum_insert by apply lookup_delete_eq.
  rewrite (map_sum_delete f m k v Hk). lia.
Qed.

Lemma map_sum_nonneg f m : (forall v, 0 <= f v) -> 0 <= map_sum f m.
Proof.
  intros Hf. unfold map_sum. apply (map_fold_weak_ind (fun r _ => 0 <= r)); [lia|].
  intros k v m' r _ Hr. specialize (Hf v). lia.
Qed.

Lemma map_sum_filter f (q : V -> bool) (m : gmap K V) :
  map_sum f (filter (fun '(_, v) => q v = true) m) = map_sum (fun v => if q v then f v else 0) m.
Proof.
  induction m as [|k v m Hk IH] using map_ind; [by rewrite map_filter_empty, !map_sum_empty|].
  rewrite map_sum_insert by done. destruct (q v) eqn:Hq.
  - rewrite map_filter_insert_True by done. rewrite map_sum_insert, IH; [done|].
    rewrite map_lookup_filter_None. by left.
  - rewrite map_filter_insert_not'; [rewrite IH; lia|congruence|]. intros y Hy. congruence.
Qed.

Lemma map_sum_ext f g (m : gmap K V) :
  (forall k v, m !! k = Some v -> f v = g v) -> map_sum f m = map_sum g m.
Proof.
  induction m as [|k v m Hk IH] using map_ind; intros Hfg; [by rewrite !map_sum_empty|].
  rewrite !map_sum_insert by done. rewrite (Hfg k v) by apply lookup_insert_eq.
  rewrite IH; [done|]. intros k' v' Hk'. apply (Hfg k').
  rewrite lookup_insert_ne; [done|congruence].
Qed.

Lemma map_sum_add f g (m : gmap K V) :
  map_sum (fun v => f v + g v) m = map_sum f m + map_sum g m.
Proof.
  induction m as [|k v m Hk IH] using map_ind; [by rewrite !map_sum_empty|].
  rewrite !map_sum_insert by done. lia.
Qed.

Lemma map_sum_le f (m : gmap K V) c :
  (forall k v, m !! k = Some v -> f v <= c) -> map_sum f m <= c * Z.of_nat (size m).
Proof.
  induction m as [|k v m Hk IH] using map_ind; intros Hc.
  { rewrite map_sum_empty, map_size_empty. lia. }
  rewrite map_sum_insert, map_size_insert_None by done.
  assert (f v <= c) by (apply (Hc k), lookup_insert_eq).
  assert (map_sum f m <= c * Z.of_nat (size m)).
  { apply IH. intros k' v' Hk'. apply (Hc k'). rewrite lookup_insert_ne; [done|congruence]. }
  lia.
Qed.

End MapSum.
