(* ===== verification/Types.v ===== *)
(** Common types and errors: hpn-core/src/types.rs and hpn-core/src/error.rs.

    The newtypes [SessionId(u64)], [KeyId(u32)] and [Counter(u64)] are their
    integer; each has a [Module] with the operations of its [impl]. *)

From S2P Require Import Prelude.

Definition PROTOCOL_VERSION : Z := 1.
Definition DEFAULT_MTU : Z := 1420.

(** * Message kinds *)

Module MessageType.

Inductive t :=
  | HandshakeInit | HandshakeResponse | Data | Keepalive | KeepaliveReply
  | Control | Rekey | RekeyResponse | CookieRequest | CookieReply
  | EncryptedHandshakeInit | HandshakeFragment.

#[global] Instance t_eq_dec : EqDecision t.
Proof. solve_decision. Defined.

Definition from_u8 (value : Z) : option t :=
  match value with
  | 1 => Some HandshakeInit
  | 2 => Some HandshakeResponse
  | 3 => Some Data
  | 4 => Some Keepalive
  | 5 => Some KeepaliveReply
  | 6 => Some Control
  | 7 => Some Rekey
  | 8 => Some RekeyResponse
  | 9 => Some CookieRequest
  | 10 => Some CookieReply
  | 11 => Some EncryptedHandshakeInit
  | 12 => Some HandshakeFragment
  | _ => None
  end.

Definition as_u8 (m : t) : Z :=
  match m with
  | HandshakeInit => 1
  | HandshakeResponse => 2
  | Data => 3
  | Keepalive => 4
  | KeepaliveReply => 5
  | Control => 6
  | Rekey => 7
  | RekeyResponse => 8
  | CookieRequest => 9
  | CookieReply => 10
  | EncryptedHandshakeInit => 11
  | HandshakeFragment => 12
  end.

(** [{:?}] *)
Definition debug (m : t) : string :=
  match m with
  | HandshakeInit => "HandshakeInit"
  | HandshakeResponse => "HandshakeResponse"
  | Data => "Data"
  | Keepalive => "Keepalive"
  | KeepaliveReply => "KeepaliveReply"
  | Control => "Control"
  | Rekey => "Rekey"
  | RekeyResponse => "RekeyResponse"
  | CookieRequest => "CookieRequest"
  | CookieReply => "CookieReply"
  | EncryptedHandshakeInit => "EncryptedHandshakeInit"
  | HandshakeFragment => "HandshakeFragment"
  end.

Lemma from_u8_as_u8 m : from_u8 (as_u8 m) = Some m.
Proof. by destruct m. Qed.

Lemma as_u8_from_u8 v m : from_u8 v = Some m -> as_u8 m = v.
Proof.
  unfold from_u8. intros H.
  repeat match type of H with
  | match ?p with _ => _ end = _ => destruct p; try discriminate H
  end; by injection H as <-.
Qed.

Lemma as_u8_u8 m : u8 (as_u8 m).
Proof. unfold uint. destruct m; simpl; lia. Qed.

End MessageType.

Module ControlType.

Inductive t := Error | Rebind | RebindAck | Config | Close.

#[global] Instance t_eq_dec : EqDecision t.
Proof. solve_decision. Defined.

Definition from_u8 (value : Z) : option t :=
  match value with
  | 1 => Some Error
  | 2 => Some Rebind
  | 3 => Some RebindAck
  | 4 => Some Config
  | 5 => Some Close
  | _ => None
  end.

(** [ty as u8] *)
Definition as_u8 (ty : t) : Z :=
  match ty with
  | Error => 1
  | Rebind => 2
  | RebindAck => 3
  | Config => 4
  | Close => 5
  end.

Lemma control_from_u8_as_u8 ty : from_u8 (as_u8 ty) = Some ty.
Proof. by destruct ty. Qed.

Lemma control_as_u8_u8 ty : u8 (as_u8 ty).
Proof. destruct ty; by_decide. Qed.

End ControlType.

(** * Errors *)

Module CryptoError.

Inductive t :=
  | KeyGeneration | Encapsulation | Decapsulation | SignatureGeneration
  | SignatureVerification | Encryption | Decryption | KeyDerivation
  | InvalidKeyLength (expected actual : Z)
  | InvalidNonce
  | BufferTooSmall (needed available : Z)
  | CounterExhausted | InvalidPublicKey.

#[global] Instance t_eq_dec : EqDecision t.
Proof. solve_decision. Defined.

(** [{:?}] *)
Definition debug (e : t) : string :=
  match e with
  | KeyGeneration => "KeyGeneration"
  | Encapsulation => "Encapsulation"
  | Decapsulation => "Decapsulation"
  | SignatureGeneration => "SignatureGeneration"
  | SignatureVerification => "SignatureVerification"
  | Encryption => "Encryption"
  | Decryption => "Decryption"
  | KeyDerivation => "KeyDerivation"
  | InvalidKeyLength e a =>
      "InvalidKeyLength { expected: " ++ dec e ++ ", actual: " ++ dec a ++ " }"
  | InvalidNonce => "InvalidNonce"
  | BufferTooSmall n a =>
      "BufferTooSmall { needed: " ++ dec n ++ ", available: " ++ dec a ++ " }"
  | CounterExhausted => "CounterExhausted"
  | InvalidPublicKey => "InvalidPublicKey"
  end.

End CryptoError.

Module ProtocolError.

Inductive t :=
  | InvalidVersion (v : Z)
  | InvalidMessageType (v : Z)
  | InvalidLength (n : Z)
  | PacketTooShort (needed available : Z)
  | InvalidHeader
  | InvalidHeaderFlags (b : Z)
  | InvalidReservedByte (b : Z)
  | UnexpectedMessageType (expected actual : MessageType.t)
  | HandshakeFailed (reason : string)
  | InvalidStateTransition
  | ReplayDetected (counter : Z)
  | Serialization (what : string)
  | InvalidData (what : string).

#[global] Instance t_eq_dec : EqDecision t.
Proof. solve_decision. Defined.

End ProtocolError.

Module SessionError.

Inductive t :=
  | NotFound (id : Z)
  | Expired | LimitReached | InvalidState
  | KeyIdMismatch (expected actual : Z)
  | IpPoolExhausted | CounterExhausted.

#[global] Instance t_eq_dec : EqDecision t.
Proof. solve_decision. Defined.

End SessionError.

(** The library error; the [std::io::Error] payload of [Io] is erased, no
    modelled operation builds one. *)
Module Error.

Inductive t :=
  | Crypto (e : CryptoError.t)
  | Protocol (e : ProtocolError.t)
  | Io
  | Session (e : SessionError.t).

#[global] Instance t_eq_dec : EqDecision t.
Proof. solve_decision. Defined.

End Error.

(** * Identifiers and counters *)

Module SessionId.

Definition from_bytes (bytes : list Z) : Z := from_be bytes.
Definition to_bytes (id : Z) : list Z := be_bytes 8 id.

End SessionId.

Module KeyId.

Definition initial : Z := 0.
Definition next (k : Z) : Z := wrapping_add 32 k 1.
Definition from_bytes (bytes : list Z) : Z := from_be bytes.
Definition to_bytes (k : Z) : list Z := be_bytes 4 k.

Lemma next_u32 k : u32 (next k).
Proof. unfold next, wrapping_add, uint. apply Z.mod_pos_bound. lia. Qed.

End KeyId.

Module Counter.

Definition MAX_SAFE : Z := Z.shiftl 1 60.
Definition REKEY_WARNING : Z := Z.shiftl 1 59.

Definition initial : Z := 0.

Definition try_next (c : Z) : option Z :=
  match checked_add 64 c 1 with
  | None => None
  | Some next => if MAX_SAFE <? next then None else Some next
  end.

Definition next (c : Z) : result CryptoError.t Z :=
  ok_or CryptoError.CounterExhausted (try_next c).

Definition should_rekey (c : Z) : bool := REKEY_WARNING <=? c.
Definition is_near_exhaustion (c : Z) : bool := MAX_SAFE <=? c.

Definition from_bytes (bytes : list Z) : Z := from_be bytes.
Definition to_bytes (c : Z) : list Z := be_bytes 8 c.

(** The counter steps by one up to [MAX_SAFE] and refuses beyond: no value a
    caller obtains ever wraps. *)
Lemma next_spec c :
  u64 c ->
  next c = if decide (c < MAX_SAFE) then Ok (c + 1) else Err CryptoError.CounterExhausted.
Proof.
  intros Hc. unfold next, try_next, checked_add, MAX_SAFE, uint in *.
  change (Z.shiftl 1 60) with (2 ^ 60).
  case_decide; destruct (c + 1 <? 2 ^ 64) eqn:E1; b2p; simpl; try lia; try done.
  - decide_ltb. done.
  - decide_ltb. done.
Qed.

End Counter.
