(* ===== verification/Codec.v ===== *)
(** Primitive readers and writers of hpn-core/src/protocol/codec.rs.

    A writer takes the buffer and returns it updated with the number of bytes
    written; accesses out of range abort, as the slice indexing of the code
    does. *)

From S2P Require Import Prelude Types.

Section Writers.
Context {E : Type}.

Definition write_u8 (buf : list Z) (offset value : Z) : result E (list Z * Z) :=
  let? buf := store buf offset value in
  Ok (buf, 1).

Definition write_u16 (buf : list Z) (offset value : Z) : result E (list Z * Z) :=
  let? buf := copy_from_slice buf offset (offset + 2) (be_bytes 2 value) in
  Ok (buf, 2).

Definition write_u32 (buf : list Z) (offset value : Z) : result E (list Z * Z) :=
  let? buf := copy_from_slice buf offset (offset + 4) (be_bytes 4 value) in
  Ok (buf, 4).

Definition write_u64 (buf : list Z) (offset value : Z) : result E (list Z * Z) :=
  let? buf := copy_from_slice buf offset (offset + 8) (be_bytes 8 value) in
  Ok (buf, 8).

Definition write_bytes (buf : list Z) (offset : Z) (bytes : list Z)
    : result E (list Z * Z) :=
  let? buf := copy_from_slice buf offset (offset + len bytes) bytes in
  Ok (buf, len bytes).

Definition read_u8 (buf : list Z) (offset : Z) : result E Z :=
  index buf offset.

Definition read_u16 (buf : list Z) (offset : Z) : result E Z :=
  let? b0 := index buf offset in
  let? b1 := index buf (offset + 1) in
  Ok (from_be [b0; b1]).

Definition read_u32 (buf : list Z) (offset : Z) : result E Z :=
  let? b0 := index buf offset in
  let? b1 := index buf (offset + 1) in
  let? b2 := index buf (offset + 2) in
  let? b3 := index buf (offset + 3) in
  Ok (from_be [b0; b1; b2; b3]).

Definition read_u64 (buf : list Z) (offset : Z) : result E Z :=
  let? b0 := index buf offset in
  let? b1 := index buf (offset + 1) in
  let? b2 := index buf (offset + 2) in
  let? b3 := index buf (offset + 3) in
  let? b4 := index buf (offset + 4) in
  let? b5 := index buf (offset + 5) in
  let? b6 := index buf (offset + 6) in
  let? b7 := index buf (offset + 7) in
  Ok (from_be [b0; b1; b2; b3; b4; b5; b6; b7]).

Definition write_length_prefixed (buf : list Z) (offset : Z) (bytes : list Z)
    : result E (list Z * Z) :=
  if len bytes <=? U16_MAX then
    let? (buf, written) := write_u16 buf offset (len bytes) in
    let? (buf, n) := write_bytes buf (offset + written) bytes in
    Ok (buf, written + n)
  else Panic.

End Writers.

Definition read_length_prefixed (buf : list Z) (offset : Z)
    : result ProtocolError.t (list Z * Z) :=
  if len buf <? offset + 2 then
    Err (ProtocolError.PacketTooShort (offset + 2) (len buf))
  else
    let? n := read_u16 buf offset in
    let data_offset := offset + 2 in
    if len buf <? data_offset + n then
      Err (ProtocolError.PacketTooShort (data_offset + n) (len buf))
    else
      let? data := range buf data_offset (data_offset + n) in
      Ok (data, 2 + n).

(** Readers followed with a cursor. *)
Lemma be_bytes_2_cons x : exists a b, be_bytes 2 x = [a; b].
Proof. do 2 eexists. reflexivity. Qed.

Lemma read_u16_rest_at {E} buf o x r :
  rest_at buf o (be_bytes 2 x ++ r) -> u16 x -> read_u16 (E:=E) buf o = Ok x.
Proof.
  intros H Hx. pose proof (from_be_be_bytes_2 x Hx) as Hf.
  destruct (be_bytes_2_cons x) as (a & b & Hab). rewrite Hab in *. simpl in H.
  unfold read_u16. rewrite (index_rest_at _ _ _ _ H). apply rest_at_cons in H.
  simpl. rewrite (index_rest_at _ _ _ _ H). simpl. by rewrite Hf.
Qed.

(** A value written with its length prefix at any offset where it fits is read
    back, and nothing outside its [2 + len] bytes changes. *)
Lemma length_prefixed_roundtrip p bytes r :
  len bytes <= U16_MAX -> 2 + len bytes <= len r ->
  write_length_prefixed (E:=ProtocolError.t) (p ++ r) (len p) bytes =
    Ok (p ++ be_bytes 2 (len bytes) ++ bytes ++ drop (2 + length bytes) r, 2 + len bytes) /\
  read_length_prefixed
    (p ++ be_bytes 2 (len bytes) ++ bytes ++ drop (2 + length bytes) r) (len p) =
    Ok (bytes, 2 + len bytes).
Proof.
  intros Hb Hr. pose proof (len_nonneg bytes). split.
  - unfold write_length_prefixed, write_u16, write_bytes. decide_ltb.
    rewrite copy_from_slice_at; [|done|by rewrite len_be_bytes|rewrite len_be_bytes; lia].
    sbind. rewrite length_be_bytes.
    rewrite copy_from_slice_at; [|lens|lens|rewrite len_drop_nat; lia].
    sbind. by rewrite drop_drop, <- !app_assoc.
  - set (buf := p ++ _).
    assert (rest_at buf (len p) (be_bytes 2 (len bytes) ++ bytes ++ drop (2 + length bytes) r)) as R
      by (by exists p).
    pose proof (rest_at_len _ _ _ R) as HL. rewrite !len_app, len_be_bytes in HL.
    pose proof (len_nonneg (drop (2 + length bytes) r)).
    unfold read_length_prefixed. decide_ltb.
    rewrite (read_u16_rest_at _ _ _ _ R) by (unfold uint, U16_MAX in *; lia).
    sbind. decide_ltb. apply rest_at_app in R. rewrite len_be_bytes in R.
    rewrite (range_rest_at _ _ bytes _ _ R) by lia. done.
Qed.
