(* ===== verification/Wire.v ===== *)
(** Tools for the message formats of hpn-core/src/protocol/messages.rs: the
    contract of a message codec, and the lemmas and tactics with which the
    decoders are followed field by field. *)

From S2P Require Import Prelude Types Codec.

(** * The contract of a message codec

    [dec] recovers every well-formed message from its encoding, also with
    bytes after it; on arbitrary bytes it never aborts and what it accepts is
    well formed. *)
Class Codec {A} (wf : A -> Prop) (enc : A -> list Z)
    (dec : list Z -> result ProtocolError.t A) : Prop := {
  codec_roundtrip x r : wf x -> dec (enc x ++ r) = Ok x;
  codec_bytes x : wf x -> bytes_ok (enc x);
  codec_sound b x : bytes_ok b -> dec b = Ok x -> wf x;
  codec_total b : bytes_ok b -> dec b <> Panic;
}.

(** A codec is injective on well-formed messages, and re-encoding what was
    decoded gives bytes that decode to the same message. *)
Lemma codec_inj {A wf enc dec} `{C : Codec A wf enc dec} x y :
  wf x -> wf y -> enc x = enc y -> x = y.
Proof.
  intros Hx Hy He. pose proof (codec_roundtrip x [] Hx) as H. rewrite He in H.
  rewrite (codec_roundtrip y [] Hy) in H. by injection H as ->.
Qed.

Lemma codec_normalises {A wf enc dec} `{C : Codec A wf enc dec} b x :
  bytes_ok b -> dec b = Ok x -> dec (enc x) = Ok x.
Proof.
  intros Hb Hd. rewrite <- (app_nil_r (enc x)). apply codec_roundtrip. by eapply codec_sound.
Qed.

(** * Integers assembled from indexed bytes *)

Lemma index_split {E A} (p : list A) x r : index (E:=E) (p ++ x :: r) (len p) = Ok x.
Proof. eapply index_rest_at. by exists p. Qed.

Section Reads.
Context {E : Type}.

Lemma index_out {A} (buf : list A) i : i < 0 \/ len buf <= i -> index (E:=E) buf i = Panic.
Proof.
  intros Hi. destruct (index buf i) as [x|e|] eqn:Hx; [|by apply index_not_err in Hx|done].
  apply index_inv in Hx as [? _]. lia.
Qed.

Lemma range_out {A} (buf : list A) a b :
  a < 0 \/ b < a \/ len buf < b -> range (E:=E) buf a b = Panic.
Proof.
  intros Hi. destruct (range buf a b) as [x|e|] eqn:Hx; [|by apply range_not_err in Hx|done].
  apply range_inv in Hx as (? & ? & ? & _). lia.
Qed.

(** Reading the [n] bytes at [o] one by one is taking the slice. *)
Lemma index_seq {A} (buf : list A) o n :
  0 <= o -> o + Z.of_nat n <= len buf ->
  exists s, length s = n /\ range (E:=E) buf o (o + Z.of_nat n) = Ok s /\
    forall k x, s !! k = Some x -> index (E:=E) buf (o + Z.of_nat k) = Ok x.
Proof.
  intros Ho Hn. exists (slice buf o (o + Z.of_nat n)). split_and!.
  - unfold slice, len in *. rewrite length_take, length_drop. lia.
  - by apply range_ok; lia.
  - intros k x Hk. unfold slice in Hk. apply lookup_take_Some in Hk as [Hk ?].
    rewrite lookup_drop in Hk. unfold index. rewrite (proj2 (Z.leb_le 0 _)) by lia.
    replace (Z.to_nat (o + Z.of_nat k)) with (Z.to_nat o + k)%nat by lia. by rewrite Hk.
Qed.

Ltac read_as_range buf o n :=
  let s := fresh "s" in let Hl := fresh "Hl" in let Hi := fresh "Hi" in
  destruct (decide (0 <= o /\ o + Z.of_nat n <= len buf)) as [[? ?]|?];
  [ destruct (index_seq buf o n) as (s & Hl & -> & Hi); [lia|lia|];
    repeat (destruct s as [|? s]; [discriminate Hl|]; apply (f_equal Nat.pred) in Hl; simpl in Hl);
    destruct s; [|discriminate Hl];
    pose proof (Hi 0%nat _ eq_refl) as Hi0; rewrite Z.add_0_r in Hi0; rewrite Hi0; sbind;
    repeat match goal with
    | |- context [index buf (o + Z.pos ?k)] =>
        rewrite (Hi (Pos.to_nat k) _ eq_refl : index buf (o + Z.pos k) = Ok _); sbind
    end; done
  | rewrite range_out by lia; repeat first
      [ rewrite index_out by lia; reflexivity
      | match goal with
        | |- context [index buf ?i] =>
            let Hx := fresh in destruct (index buf i) eqn:Hx;
            [apply index_inv in Hx as [? _]; sbind|by apply index_not_err in Hx|reflexivity]
        end ] ].

Lemma read_u16_range buf o :
  read_u16 (E:=E) buf o = let? s := range buf o (o + 2) in Ok (from_be s).
Proof. unfold read_u16. change (o + 2) with (o + Z.of_nat 2). read_as_range buf o 2%nat. Qed.

Lemma read_u32_range buf o :
  read_u32 (E:=E) buf o = let? s := range buf o (o + 4) in Ok (from_be s).
Proof. unfold read_u32. change (o + 4) with (o + Z.of_nat 4). read_as_range buf o 4%nat. Qed.

Lemma read_u64_range buf o :
  read_u64 (E:=E) buf o = let? s := range buf o (o + 8) in Ok (from_be s).
Proof. unfold read_u64. change (o + 8) with (o + Z.of_nat 8). read_as_range buf o 8%nat. Qed.

End Reads.

(** * What a successful, and what an aborting, access says *)

Lemma ok_or_ok {E A} (e : E) (o : option A) x : ok_or e o = Ok x -> o = Some x.
Proof. destruct o; [by intros [= ->]|done]. Qed.

Lemma ok_or_panic {E A} (e : E) (o : option A) : ok_or e o = Panic -> False.
Proof. by destruct o. Qed.

Lemma map_err_ok {E F A} (f : E -> F) (c : result E A) x : map_err f c = Ok x -> c = Ok x.
Proof. destruct c; [by intros [= ->]|done|done]. Qed.

Lemma map_err_panic {E F A} (f : E -> F) (c : result E A) : map_err f c = Panic -> c = Panic.
Proof. by destruct c. Qed.

Section Facts.
Context {E : Type} (buf : list Z).

Lemma range_facts a b s :
  bytes_ok buf -> range (E:=E) buf a b = Ok s ->
  bytes_ok s /\ len s = b - a /\ 0 <= a <= b /\ b <= len buf.
Proof. intros Hb H. apply range_inv in H as (? & ? & ? & -> & ?). auto with hpn. Qed.

Lemma index_facts i x :
  bytes_ok buf -> index (E:=E) buf i = Ok x -> u8 x /\ 0 <= i < len buf.
Proof. intros Hb H. apply index_inv in H as [? ?]. split; [by eapply bytes_ok_lookup|done]. Qed.

Lemma from_be_uint n s : bytes_ok s -> len s = Z.of_nat n -> uint (8 * Z.of_nat n) (from_be s).
Proof. intros Hb Hl. apply from_be_bound; [done|unfold len in Hl; lia]. Qed.

Lemma read_u16_facts o x :
  bytes_ok buf -> read_u16 (E:=E) buf o = Ok x -> u16 x /\ 0 <= o /\ o + 2 <= len buf.
Proof.
  intros Hb H. rewrite read_u16_range in H. step_in H. injection H as <-.
  apply range_facts in Hs as (? & ? & ? & ?); [|done].
  split; [by apply (from_be_uint 2); [|lia]|lia].
Qed.

Lemma read_u32_facts o x :
  bytes_ok buf -> read_u32 (E:=E) buf o = Ok x -> u32 x /\ 0 <= o /\ o + 4 <= len buf.
Proof.
  intros Hb H. rewrite read_u32_range in H. step_in H. injection H as <-.
  apply range_facts in Hs as (? & ? & ? & ?); [|done].
  split; [by apply (from_be_uint 4); [|lia]|lia].
Qed.

Lemma read_u64_facts o x :
  bytes_ok buf -> read_u64 (E:=E) buf o = Ok x -> u64 x /\ 0 <= o /\ o + 8 <= len buf.
Proof.
  intros Hb H. rewrite read_u64_range in H. step_in H. injection H as <-.
  apply range_facts in Hs as (? & ? & ? & ?); [|done].
  split; [by apply (from_be_uint 8); [|lia]|lia].
Qed.

Lemma read_u16_panic o : read_u16 (E:=E) buf o = Panic -> 0 <= o -> o + 2 <= len buf -> False.
Proof. intros H ? ?. by rewrite read_u16_range, range_ok in H by lia. Qed.

Lemma read_u32_panic o : read_u32 (E:=E) buf o = Panic -> 0 <= o -> o + 4 <= len buf -> False.
Proof. intros H ? ?. by rewrite read_u32_range, range_ok in H by lia. Qed.

Lemma read_u64_panic o : read_u64 (E:=E) buf o = Panic -> 0 <= o -> o + 8 <= len buf -> False.
Proof. intros H ? ?. by rewrite read_u64_range, range_ok in H by lia. Qed.

End Facts.

(** * Reading at a cursor *)

Section Cursor.
Context {E : Type} (buf : list Z) (o a : Z).

Lemma range_at b s r :
  rest_at buf o (s ++ r) -> a = o -> b = o + len s -> range (E:=E) buf a b = Ok s.
Proof. intros R -> ->. by eapply range_rest_at. Qed.

Lemma range_at_end r : rest_at buf o r -> a = o -> range (E:=E) buf a (len buf) = Ok r.
Proof. intros R ->. by apply range_rest_at_end. Qed.

Lemma index_at x r : rest_at buf o ([x] ++ r) -> a = o -> index (E:=E) buf a = Ok x.
Proof. intros R ->. by eapply index_rest_at. Qed.

Lemma read_u16_at x r :
  rest_at buf o (be_bytes 2 x ++ r) -> a = o -> u16 x -> read_u16 (E:=E) buf a = Ok x.
Proof.
  intros R -> Hx. rewrite read_u16_range, (range_rest_at _ _ _ _ _ R) by (by rewrite len_be_bytes).
  sbind. by rewrite from_be_be_bytes_2.
Qed.

Lemma read_u32_at x r :
  rest_at buf o (be_bytes 4 x ++ r) -> a = o -> u32 x -> read_u32 (E:=E) buf a = Ok x.
Proof.
  intros R -> Hx. rewrite read_u32_range, (range_rest_at _ _ _ _ _ R) by (by rewrite len_be_bytes).
  sbind. by rewrite from_be_be_bytes_4.
Qed.

Lemma read_u64_at x r :
  rest_at buf o (be_bytes 8 x ++ r) -> a = o -> u64 x -> read_u64 (E:=E) buf a = Ok x.
Proof.
  intros R -> Hx. rewrite read_u64_range, (range_rest_at _ _ _ _ _ R) by (by rewrite len_be_bytes).
  sbind. by rewrite from_be_be_bytes_8.
Qed.

End Cursor.

(** * Tactics *)

(** Offsets and lengths. *)
Ltac offsets := autorewrite with len; lia.

(** Read the field at the cursor and advance it. *)
Ltac eat :=
  match goal with
  | R : rest_at ?buf ?o ([?x] ++ ?r) |- context [index ?buf ?a] =>
      rewrite (index_at buf o a x r R) by offsets; apply rest_at_app in R
  | R : rest_at ?buf ?o (be_bytes 2 ?x ++ ?r) |- context [read_u16 ?buf ?a] =>
      rewrite (read_u16_at buf o a x r R) by first [offsets | assumption | unfold uint in *; offsets];
      apply rest_at_app in R
  | R : rest_at ?buf ?o (be_bytes 4 ?x ++ ?r) |- context [read_u32 ?buf ?a] =>
      rewrite (read_u32_at buf o a x r R) by first [offsets | assumption | unfold uint in *; offsets];
      apply rest_at_app in R
  | R : rest_at ?buf ?o (be_bytes 8 ?x ++ ?r) |- context [read_u64 ?buf ?a] =>
      rewrite (read_u64_at buf o a x r R) by first [offsets | assumption | unfold uint in *; offsets];
      apply rest_at_app in R
  | R : rest_at ?buf ?o (?s ++ ?r) |- context [range ?buf ?a ?b] =>
      rewrite (range_at buf o a b s r R) by offsets; apply rest_at_app in R
  | R : rest_at ?buf ?o ?r |- context [range ?buf ?a (len ?buf)] =>
      rewrite (range_at_end buf o a r R) by offsets
  end; sbind.

(** Decide the next length check. *)
Ltac check_len := decide_ltb; cbn [negb andb orb]; cbv iota.

(** Start following a decoder on [e ++ r]. *)
Ltac start_at buf :=
  let R := fresh "R" in let HL := fresh "HL" in
  pose proof (rest_at_start buf) as R; pose proof (eq_refl (len buf)) as HL.

(** Facts of the accesses that succeeded on the valid buffer. *)
Ltac access_facts :=
  repeat match goal with
  | H : ok_or _ _ = Ok _ |- _ => apply ok_or_ok in H
  | H : ok_or _ _ = Panic |- _ => by apply ok_or_panic in H
  | H : map_err _ _ = Ok _ |- _ => apply map_err_ok in H
  | H : map_err _ _ = Panic |- _ => apply map_err_panic in H
  | Hb : bytes_ok ?b, H : range ?b _ _ = Ok _ |- _ =>
      apply (range_facts _ _ _ _ Hb) in H as (? & ? & ? & ?)
  | Hb : bytes_ok ?b, H : index ?b _ = Ok _ |- _ => apply (index_facts _ _ _ Hb) in H as (? & ?)
  | Hb : bytes_ok ?b, H : read_u16 ?b _ = Ok _ |- _ => apply (read_u16_facts _ _ _ Hb) in H as (? & ? & ?)
  | Hb : bytes_ok ?b, H : read_u32 ?b _ = Ok _ |- _ => apply (read_u32_facts _ _ _ Hb) in H as (? & ? & ?)
  | Hb : bytes_ok ?b, H : read_u64 ?b _ = Ok _ |- _ => apply (read_u64_facts _ _ _ Hb) in H as (? & ? & ?)
  end.

(** No access within the checked length aborts. *)
Ltac no_abort :=
  access_facts; unfold uint in *;
  match goal with
  | H : range _ _ _ = Panic |- _ => exfalso; apply (range_panic _ _ _ H); lia
  | H : index _ _ = Panic |- _ => exfalso; apply (index_panic _ _ H); lia
  | H : read_u16 _ _ = Panic |- _ => exfalso; apply (read_u16_panic _ _ H); lia
  | H : read_u32 _ _ = Panic |- _ => exfalso; apply (read_u32_panic _ _ H); lia
  | H : read_u64 _ _ = Panic |- _ => exfalso; apply (read_u64_panic _ _ H); lia
  end.

