(* ===== verification/Utf8.v ===== *)
(** UTF-8 validation as [String::from_utf8] and [String::from_utf8_lossy] of
    the standard library do it.  A [String] is its bytes. *)

From S2P Require Import Prelude.

(** A continuation byte. *)
Definition cont (b : Z) : bool := (128 <=? b) && (b <=? 191).

Definition between (lo hi b : Z) : bool := (lo <=? b) && (b <=? hi).

(** What starts at [b0 :: rest]: a scalar of [n] bytes, or [n] bytes that no
    scalar starts with. *)
Inductive chunk := Valid (n : nat) | Invalid (n : nat).

(** The second byte of a scalar of three and of four bytes. *)
Definition second3 (b0 b1 : Z) : bool :=
  if b0 =? 224 then between 160 191 b1
  else if b0 =? 237 then between 128 159 b1
  else between 128 191 b1.

Definition second4 (b0 b1 : Z) : bool :=
  if b0 =? 240 then between 144 191 b1
  else if b0 =? 244 then between 128 143 b1
  else between 128 191 b1.

Definition next_chunk (b0 : Z) (rest : list Z) : chunk :=
  if b0 <? 128 then Valid 1
  else if between 194 223 b0 then
    match rest with
    | b1 :: _ => if cont b1 then Valid 2 else Invalid 1
    | [] => Invalid 1
    end
  else if between 224 239 b0 then
    match rest with
    | b1 :: r =>
        if second3 b0 b1 then
          match r with
          | b2 :: _ => if cont b2 then Valid 3 else Invalid 2
          | [] => Invalid 2
          end
        else Invalid 1
    | [] => Invalid 1
    end
  else if between 240 244 b0 then
    match rest with
    | b1 :: r =>
        if second4 b0 b1 then
          match r with
          | b2 :: r =>
              if cont b2 then
                match r with
                | b3 :: _ => if cont b3 then Valid 4 else Invalid 3
                | [] => Invalid 3
                end
              else Invalid 2
          | [] => Invalid 2
          end
        else Invalid 1
    | [] => Invalid 1
    end
  else Invalid 1.

(** Each round consumes at least one byte, so the length is enough fuel. *)
Fixpoint valid_fuel (fuel : nat) (l : list Z) : bool :=
  match l, fuel with
  | [], _ => true
  | _ :: _, O => false
  | b0 :: r, S fuel =>
      match next_chunk b0 r with
      | Valid n => valid_fuel fuel (drop (n - 1) r)
      | Invalid _ => false
      end
  end.

Definition utf8_valid (l : list Z) : bool := valid_fuel (length l) l.

Definition from_utf8 (l : list Z) : option (list Z) :=
  if utf8_valid l then Some l else None.

(** U+FFFD *)
Definition REPLACEMENT : list Z := [239; 191; 189].

Fixpoint lossy_fuel (fuel : nat) (l : list Z) : list Z :=
  match l, fuel with
  | [], _ => []
  | _ :: _, O => []
  | b0 :: r, S fuel =>
      match next_chunk b0 r with
      | Valid n => (b0 :: take (n - 1) r) ++ lossy_fuel fuel (drop (n - 1) r)
      | Invalid n => REPLACEMENT ++ lossy_fuel fuel (drop (n - 1) r)
      end
  end.

Definition from_utf8_lossy (l : list Z) : list Z := lossy_fuel (length l) l.

(** * Lemmas *)

Ltac chunk_cases :=
  unfold next_chunk in *;
  repeat match goal with
  | H : context [match ?x with _ => _ end] |- _ => destruct x eqn:?; simplify_eq
  end.

(** A scalar is recognised by its own bytes. *)
Lemma next_chunk_prefix b0 r n s :
  next_chunk b0 r = Valid n -> next_chunk b0 (take (n - 1) r ++ s) = Valid n /\ (1 <= n)%nat.
Proof.
  intros H. unfold next_chunk in *.
  destruct (b0 <? 128); [injection H as <-; split; [done|lia]|].
  destruct (between 194 223 b0).
  { destruct r as [|b1 r]; [done|]. destruct (cont b1) eqn:E; [|done]. injection H as <-.
    simpl. rewrite E. split; [done|lia]. }
  destruct (between 224 239 b0).
  { destruct r as [|b1 [|b2 r]]; [done|by destruct (second3 b0 b1)|].
    destruct (second3 b0 b1) eqn:E; [|done]. destruct (cont b2) eqn:E2; [|done]. injection H as <-.
    simpl. rewrite E, E2. split; [done|lia]. }
  destruct (between 240 244 b0); [|done].
  destruct r as [|b1 [|b2 [|b3 r]]]; [done|by destruct (second4 b0 b1)| |].
  { destruct (second4 b0 b1); [|done]. by destruct (cont b2). }
  destruct (second4 b0 b1) eqn:E; [|done]. destruct (cont b2) eqn:E2; [|done].
  destruct (cont b3) eqn:E3; [|done]. injection H as <-.
  simpl. rewrite E, E2, E3. split; [done|lia].
Qed.

Lemma lossy_valid fuel l : valid_fuel fuel l = true -> lossy_fuel fuel l = l.
Proof.
  revert l. induction fuel as [|fuel IH]; intros [|b0 r] H; try done. simpl in *.
  destruct (next_chunk b0 r) as [n|n] eqn:E; [|done]. rewrite IH by done. f_equal. apply take_drop.
Qed.

Lemma from_utf8_lossy_id l : utf8_valid l = true -> from_utf8_lossy l = l.
Proof. apply lossy_valid. Qed.

(** More fuel changes nothing. *)
Lemma valid_fuel_mono fuel fuel' l :
  (fuel <= fuel')%nat -> valid_fuel fuel l = true -> valid_fuel fuel' l = true.
Proof.
  revert fuel' l. induction fuel as [|fuel IH]; intros fuel' [|b0 r] Hf H; try done;
    destruct fuel' as [|fuel']; try done; try lia. simpl in *.
  destruct (next_chunk b0 r); [|done]. apply IH; [lia|done].
Qed.

Lemma valid_app fuel l s :
  valid_fuel fuel l = true -> utf8_valid s = true -> utf8_valid (l ++ s) = true.
Proof.
  revert l. induction fuel as [|fuel IH]; intros [|b0 r] H Hs; try done. simpl in H.
  destruct (next_chunk b0 r) as [n|n] eqn:E; [|done].
  pose proof (IH _ H Hs) as IHr. unfold utf8_valid in *. simpl.
  destruct (next_chunk_prefix b0 r n (drop (n - 1) r ++ s) E) as [E' ?].
  rewrite app_assoc, take_drop in E'. rewrite E'.
  destruct (decide (n - 1 <= length r)%nat) as [Hn|Hn].
  - rewrite drop_app_le by done. eapply valid_fuel_mono, IHr. rewrite !length_app, length_drop. lia.
  - exfalso. chunk_cases; simpl in *; lia.
Qed.

Lemma lossy_is_valid fuel l : utf8_valid (lossy_fuel fuel l) = true.
Proof.
  revert l. induction fuel as [|fuel IH]; intros [|b0 r]; try done. simpl.
  destruct (next_chunk b0 r) as [n|n] eqn:E.
  - apply (valid_app 1 (b0 :: take (n - 1) r)); [|apply IH]. simpl.
    destruct (next_chunk_prefix b0 r n [] E) as [E' ?]. rewrite app_nil_r in E'. rewrite E'.
    rewrite drop_ge; [done|]. rewrite length_take. lia.
  - apply (valid_app 1 REPLACEMENT); [done|apply IH].
Qed.

Lemma lossy_bytes fuel l : bytes_ok l -> bytes_ok (lossy_fuel fuel l).
Proof.
  revert l. induction fuel as [|fuel IH]; intros [|b0 r] Hl; try (apply Forall_nil_2). simpl.
  inversion Hl; subst. destruct (next_chunk b0 r) as [n|n].
  - apply (proj2 (bytes_ok_app (b0 :: take (n - 1) r) _)). split; [|by apply IH, Forall_drop].
    constructor; [done|by apply Forall_take].
  - apply (proj2 (bytes_ok_app REPLACEMENT _)). split; [by_decide|by apply IH, Forall_drop].
Qed.

Lemma lossy_len fuel l : len (lossy_fuel fuel l) <= 3 * len l.
Proof.
  revert l. induction fuel as [|fuel IH]; intros [|b0 r]; try (unfold len; simpl; lia).
  cbn [lossy_fuel]. destruct (next_chunk b0 r) as [n|n];
    pose proof (IH (drop (n - 1) r)) as H; unfold len in *; rewrite length_app; simpl length;
    rewrite ?length_drop, ?length_take in *; lia.
Qed.

Lemma from_utf8_lossy_spec l :
  bytes_ok l ->
  bytes_ok (from_utf8_lossy l) /\ utf8_valid (from_utf8_lossy l) = true /\
  len (from_utf8_lossy l) <= 3 * len l.
Proof. intros. split_and!; [by apply lossy_bytes|apply lossy_is_valid|apply lossy_len]. Qed.

Lemma from_utf8_lossy_nonempty l : 1 <= len l -> 1 <= len (from_utf8_lossy l).
Proof.
  destruct l as [|b0 r]; [done|]. intros _. unfold from_utf8_lossy. cbn [length lossy_fuel].
  destruct (next_chunk b0 r); unfold len; rewrite length_app; simpl length; lia.
Qed.
