(* ===== verification/Net.v ===== *)
(** Socket addresses of the standard library, and their textual form, as far
    as the sources use them. *)

From S2P Require Import Prelude.

(** * Hexadecimal, the [{:x}] of a format string *)

Definition hex_digit (d : Z) : string :=
  match d with
  | 0 => "0" | 1 => "1" | 2 => "2" | 3 => "3" | 4 => "4" | 5 => "5" | 6 => "6" | 7 => "7"
  | 8 => "8" | 9 => "9" | 10 => "a" | 11 => "b" | 12 => "c" | 13 => "d" | 14 => "e" | _ => "f"
  end.

(** A value of 16 bits has at most four digits. *)
Fixpoint hex_fuel (fuel : nat) (z : Z) : string :=
  match fuel with
  | O => hex_digit (z mod 16)
  | S fuel => if z <? 16 then hex_digit z else hex_fuel fuel (z / 16) ++ hex_digit (z mod 16)
  end.

Definition hex (z : Z) : string := hex_fuel 4 z.

Fixpoint join (sep : string) (l : list string) : string :=
  match l with
  | [] => EmptyString
  | [x] => x
  | x :: l => x ++ sep ++ join sep l
  end.

Module Ipv4Addr.

Definition to_string (octets : list Z) : string := join "." (map dec octets).

End Ipv4Addr.

Module Ipv6Addr.

Definition unspecified : list Z := replicate 16 0.

Fixpoint segments (octets : list Z) : list Z :=
  match octets with
  | a :: b :: r => from_be [a; b] :: segments r
  | _ => []
  end.

(** The longest run of zero segments, the first one of that length:
    [(longest start, longest length, current start, current length, index)]. *)
Definition zero_span (l : list Z) : nat * nat :=
  let '(longest, _, _) :=
    foldl (fun '(longest, current, i) segment =>
      if segment =? 0 then
        let start := if (snd current =? 0)%nat then i else fst current in
        let current := (start, S (snd current)) in
        ((if (snd longest <? snd current)%nat then current else longest), current, S i)
      else (longest, (0, 0)%nat, S i)) ((0, 0)%nat, (0, 0)%nat, 0%nat) l in
  longest.

Definition fmt_subslice (l : list Z) : string := join ":" (map hex l).

Definition to_string (octets : list Z) : string :=
  if bool_decide (take 12 octets = replicate 10 0 ++ [255; 255]) then
    "::ffff:" ++ Ipv4Addr.to_string (drop 12 octets)
  else
    let l := segments octets in
    let '(start, n) := zero_span l in
    if (1 <? n)%nat then
      fmt_subslice (take start l) ++ "::" ++ fmt_subslice (drop (start + n) l)
    else fmt_subslice l.

End Ipv6Addr.

Module IpAddr.

Inductive t := V4 (octets : list Z) | V6 (octets : list Z).

#[global] Instance t_eq_dec : EqDecision t.
Proof. solve_decision. Defined.

#[global] Instance t_countable : Countable t.
Proof.
  refine (inj_countable' (fun a => match a with V4 o => inl o | V6 o => inr o end)
    (fun x => match x with inl o => V4 o | inr o => V6 o end) _).
  by intros [].
Defined.

Definition wf (a : t) : Prop :=
  match a with
  | V4 o => bytes_ok o /\ len o = 4
  | V6 o => bytes_ok o /\ len o = 16
  end.

#[global] Instance ip_wf_dec a : Decision (wf a).
Proof. destruct a; simpl; apply _. Defined.

End IpAddr.

Module SocketAddr.

Inductive t :=
  | V4 (ip : list Z) (port : Z)
  | V6 (ip : list Z) (port flowinfo scope_id : Z).

#[global] Instance t_eq_dec : EqDecision t.
Proof. solve_decision. Defined.

#[global] Instance t_countable : Countable t.
Proof.
  refine (inj_countable'
    (fun a => match a with V4 i p => inl (i, p) | V6 i p f s => inr (i, p, f, s) end)
    (fun x => match x with inl (i, p) => V4 i p | inr (i, p, f, s) => V6 i p f s end) _).
  by intros [].
Defined.

Definition new (ip : IpAddr.t) (port : Z) : t :=
  match ip with
  | IpAddr.V4 o => V4 o port
  | IpAddr.V6 o => V6 o port 0 0
  end.

Definition ip (a : t) : IpAddr.t :=
  match a with V4 i _ => IpAddr.V4 i | V6 i _ _ _ => IpAddr.V6 i end.

Definition port (a : t) : Z := match a with V4 _ p => p | V6 _ p _ _ => p end.

Definition to_string (a : t) : string :=
  match a with
  | V4 i p => Ipv4Addr.to_string i ++ ":" ++ dec p
  | V6 i p _ s =>
      if s =? 0 then "[" ++ Ipv6Addr.to_string i ++ "]:" ++ dec p
      else "[" ++ Ipv6Addr.to_string i ++ "%" ++ dec s ++ "]:" ++ dec p
  end.

Definition wf (a : t) : Prop := IpAddr.wf (ip a) /\ u16 (port a).

#[global] Instance addr_wf_dec a : Decision (wf a).
Proof. unfold wf. apply _. Defined.

(** [SocketAddr::new] rebuilds an address from its IP and port, except for the
    flow label and scope of an IPv6 address. *)
Lemma new_ip_port a :
  match a with V4 _ _ => True | V6 _ _ f s => f = 0 /\ s = 0 end -> new (ip a) (port a) = a.
Proof. destruct a; simpl; [done|]. by intros [-> ->]. Qed.

End SocketAddr.

(** The textual forms on examples. *)
Example display_v4 : SocketAddr.to_string (SocketAddr.V4 [10; 99; 0; 1] 51820) = "10.99.0.1:51820".
Proof. vm_compute. reflexivity. Qed.

Example display_v6 :
  SocketAddr.to_string
    (SocketAddr.V6 [32; 1; 13; 184; 0; 0; 0; 0; 0; 1; 0; 0; 0; 0; 0; 255] 443 0 0)
  = "[2001:db8::1:0:0:ff]:443".
Proof. vm_compute. reflexivity. Qed.
