(* ===== verification/AddrParse.v ===== *)
(** The parser of socket addresses of the standard library ([FromStr] of
    [SocketAddr] and of the IP addresses), and that it reads back what is
    printed. *)

From S2P Require Import Prelude Net.

Module AddrParser.

(** * Numbers *)

(** [char::to_digit] *)
Definition to_digit (radix c : Z) : option Z :=
  let d :=
    if (48 <=? c) && (c <=? 57) then c - 48
    else if (97 <=? c) && (c <=? 122) then c - 87
    else if (65 <=? c) && (c <=? 90) then c - 55
    else radix in
  if d <? radix then Some d else None.

Fixpoint read_digits (radix : Z) (s : list Z) : list Z * list Z :=
  match s with
  | c :: r =>
      match to_digit radix c with
      | Some d => let '(ds, rest) := read_digits radix r in (d :: ds, rest)
      | None => ([], s)
      end
  | [] => ([], [])
  end.

Definition value (radix : Z) (ds : list Z) : Z := foldl (fun acc d => acc * radix + d) 0 ds.

Definition leading_zero (ds : list Z) : bool := match ds with 0 :: _ :: _ => true | _ => false end.

(** A number of type [u<width>]. *)
Definition read_number (radix : Z) (max_digits : option nat) (allow_zero_prefix : bool) (width : Z) (s : list Z)
    : option (Z * list Z) :=
  let '(ds, rest) := read_digits radix s in
  if match max_digits with Some m => (m <? length ds)%nat | None => false end then None
  else if bool_decide (ds = []) then None
  else if negb allow_zero_prefix && leading_zero ds then None
  else if value radix ds <? 2 ^ width then Some (value radix ds, rest) else None.

Definition read_given_char (c : Z) (s : list Z) : option (list Z) :=
  match s with x :: r => if x =? c then Some r else None | [] => None end.

(** * Addresses *)

Definition read_octet : list Z -> option (Z * list Z) := read_number 10 (Some 3%nat) false 8.

Definition read_ipv4_addr (s : list Z) : option (list Z * list Z) :=
  '(a, s) ← read_octet s;
  s ← read_given_char 46 s;
  '(b, s) ← read_octet s;
  s ← read_given_char 46 s;
  '(c, s) ← read_octet s;
  s ← read_given_char 46 s;
  '(d, s) ← read_octet s;
  Some ([a; b; c; d], s).

(** [read_separator]: a separator before all elements but the first. *)
Definition separated {A} (i : nat) (inner : list Z -> option (A * list Z)) (s : list Z) : option (A * list Z) :=
  match i with
  | O => inner s
  | S _ => s ← read_given_char 58 s; inner s
  end.

Definition read_group : list Z -> option (Z * list Z) := read_number 16 (Some 4%nat) true 16.

(** Up to [n] groups, from index [i]; whether they end in an IPv4 address. *)
Fixpoint read_groups (n i : nat) (s : list Z) : list Z * bool * list Z :=
  match n with
  | O => ([], false, s)
  | S n =>
      match (if (0 <? n)%nat then separated i read_ipv4_addr s else None) with
      | Some (octets, rest) => (Ipv6Addr.segments octets, true, rest)
      | None =>
          match separated i read_group s with
          | Some (g, rest) => let '(gs, v4, rest) := read_groups n (S i) rest in (g :: gs, v4, rest)
          | None => ([], false, s)
          end
      end
  end.

Definition of_groups (gs : list Z) : list Z := concat (map (be_bytes 2) gs).

Definition read_ipv6_addr (s : list Z) : option (list Z * list Z) :=
  let '(head, head_ipv4, s) := read_groups 8 0 s in
  if (length head =? 8)%nat then Some (of_groups head, s)
  else if (head_ipv4 : bool) then None
  else
    s ← read_given_char 58 s;
    s ← read_given_char 58 s;
    let limit := (8 - (length head + 1))%nat in
    let '(tail, _, s) := read_groups limit 0 s in
    Some (of_groups (head ++ replicate (8 - length head - length tail) 0 ++ tail), s).

Definition read_port (s : list Z) : option (Z * list Z) :=
  s ← read_given_char 58 s; read_number 10 None true 16 s.

Definition read_scope_id (s : list Z) : option (Z * list Z) :=
  s ← read_given_char 37 s; read_number 10 None true 32 s.

Definition read_socket_addr_v4 (s : list Z) : option (SocketAddr.t * list Z) :=
  '(ip, s) ← read_ipv4_addr s;
  '(port, s) ← read_port s;
  Some (SocketAddr.V4 ip port, s).

Definition read_socket_addr_v6 (s : list Z) : option (SocketAddr.t * list Z) :=
  s ← read_given_char 91 s;
  '(ip, s) ← read_ipv6_addr s;
  let '(scope_id, s) := default (0, s) (read_scope_id s) in
  s ← read_given_char 93 s;
  '(port, s) ← read_port s;
  Some (SocketAddr.V6 ip port 0 scope_id, s).

(** [parse_with]: nothing may be left. *)
Definition complete {A} (x : option (A * list Z)) : option A :=
  match x with Some (a, []) => Some a | _ => None end.

Definition parse_socket_addr (s : list Z) : option SocketAddr.t :=
  complete (match read_socket_addr_v4 s with Some x => Some x | None => read_socket_addr_v6 s end).

Definition parse_ipv4_addr (s : list Z) : option (list Z) :=
  if 15 <? len s then None else complete (read_ipv4_addr s).

Definition parse_ipv6_addr (s : list Z) : option (list Z) := complete (read_ipv6_addr s).

Definition parse_ip_addr (s : list Z) : option IpAddr.t :=
  complete
    match read_ipv4_addr s with
    | Some (octets, rest) => Some (IpAddr.V4 octets, rest)
    | None => match read_ipv6_addr s with Some (octets, rest) => Some (IpAddr.V6 octets, rest) | None => None end
    end.

Example parse_v4 : parse_socket_addr (bytes_of_string "10.99.0.1:51820") = Some (SocketAddr.V4 [10; 99; 0; 1] 51820).
Proof. vm_compute. reflexivity. Qed.
Example parse_v6 : parse_socket_addr (bytes_of_string "[2001:db8::1:0:0:ff%3]:443") =
  Some (SocketAddr.V6 [32; 1; 13; 184; 0; 0; 0; 0; 0; 1; 0; 0; 0; 0; 0; 255] 443 0 3).
Proof. vm_compute. reflexivity. Qed.
Example parse_mapped : parse_socket_addr (bytes_of_string "[::ffff:1.2.3.4]:80") =
  Some (SocketAddr.V6 [0;0;0;0;0;0;0;0;0;0;255;255;1;2;3;4] 80 0 0).
Proof. vm_compute. reflexivity. Qed.
Example parse_leading_zero : parse_socket_addr (bytes_of_string "10.099.0.1:1") = None.
Proof. vm_compute. reflexivity. Qed.

(** * Reading what is printed *)

Definition dec_char (d : Z) : Z := 48 + d.
Definition hex_char (d : Z) : Z := if d <? 10 then 48 + d else 87 + d.

(** A text after which a number of the radix ends. *)
Definition ends (radix : Z) (rest : list Z) : Prop :=
  match rest with [] => True | c :: _ => to_digit radix c = None end.

Lemma read_digits_app radix ch ds rest :
  Forall (fun d => to_digit radix (ch d) = Some d) ds -> ends radix rest ->
  read_digits radix (map ch ds ++ rest) = (ds, rest).
Proof.
  intros Hd He. induction Hd as [|d ds Hd _ IH]; simpl.
  - destruct rest as [|c rest]; [done|]. simpl in *. by rewrite He.
  - by rewrite Hd, IH.
Qed.

Lemma read_digits_suffix radix s ds rest : read_digits radix s = (ds, rest) -> exists p, s = p ++ rest.
Proof.
  revert ds rest. induction s as [|c s IH]; intros ds rest; simpl; [intros [= <- <-]; by exists []|].
  destruct (to_digit radix c); [|intros [= <- <-]; by exists []].
  destruct (read_digits radix s) as [ds' r'] eqn:E. intros [= <- <-]. destruct (IH ds' r' eq_refl) as [p ->].
  by exists (c :: p).
Qed.

Lemma read_number_suffix radix m z w s x rest : read_number radix m z w s = Some (x, rest) -> exists p, s = p ++ rest.
Proof.
  unfold read_number. destruct (read_digits radix s) as [ds r] eqn:E.
  destruct (match m with Some _ => _ | None => _ end); [done|]. destruct (bool_decide _); [done|].
  destruct (_ && _); [done|]. destruct (_ <? _); [|done]. intros [= _ <-]. by eapply read_digits_suffix.
Qed.

(** An IPv4 address has a dot. *)
Lemma read_ipv4_dot s : 46 ∉ s -> read_ipv4_addr s = None.
Proof.
  intros Hs. unfold read_ipv4_addr. destruct (read_octet s) as [[a s1]|] eqn:E; [|done]. simpl.
  apply read_number_suffix in E as [p ->]. destruct s1 as [|c s1]; [done|]. simpl.
  destruct (Z.eqb_spec c 46) as [->|]; [|done]. destruct Hs. set_solver.
Qed.

Lemma value_app radix ds d : value radix (ds ++ [d]) = value radix ds * radix + d.
Proof. unfold value. by rewrite foldl_app. Qed.

Lemma decimal_char d : 0 <= d < 10 -> to_digit 10 (dec_char d) = Some d.
Proof.
  intros Hd. unfold to_digit, dec_char. rewrite (proj2 (Z.leb_le _ _)), (proj2 (Z.leb_le _ _)) by lia. simpl.
  replace (48 + d - 48) with d by lia. by rewrite (proj2 (Z.ltb_lt _ _)) by lia.
Qed.

Lemma hex_char_digit d : 0 <= d < 16 -> to_digit 16 (hex_char d) = Some d.
Proof.
  intros Hd. assert (d ∈ seqZ 0 16) as Hin by (apply elem_of_seqZ; lia). clear Hd. revert d Hin.
  apply Forall_forall. by_decide.
Qed.

Lemma pretty_char (n : N) : (n < 10)%N -> Z.of_N (Ascii.N_of_ascii (pretty_N_char n)) = dec_char (Z.of_N n).
Proof.
  intros Hn. assert (Z.of_N n ∈ seqZ 0 10) as Hin by (apply elem_of_seqZ; lia). rewrite <- (N2Z.id n) at 1.
  revert Hin. generalize (Z.of_N n). clear. apply Forall_forall. by_decide.
Qed.

Lemma pretty_go (x : N) : forall s, exists ds,
  bytes_of_string (pretty_N_go x s) = map dec_char ds ++ bytes_of_string s /\ Forall (fun d => 0 <= d < 10) ds /\
  value 10 ds = Z.of_N x /\ (x <> 0%N -> exists d ds', ds = d :: ds' /\ d <> 0).
Proof.
  induction (N.lt_wf_0 x) as [x _ IH]. intros s. destruct (decide (x = 0%N)) as [->|Hx].
  { rewrite pretty_N_go_0. exists []. by split_and!. }
  rewrite pretty_N_go_step by lia.
  destruct (IH (x `div` 10)%N ltac:(apply N.div_lt; lia) (String (pretty_N_char (x `mod` 10)) s))
    as (ds & Hb & Hf & Hv & Hz).
  exists (ds ++ [Z.of_N (x `mod` 10)]). pose proof (N.mod_lt x 10 ltac:(lia)) as Hm. split_and!.
  - rewrite Hb. simpl. rewrite pretty_char, map_app, <- app_assoc by lia. done.
  - apply Forall_app. split; [done|]. apply Forall_singleton. split; [apply N2Z.is_nonneg|by apply (N2Z.inj_lt _ 10)].
  - rewrite value_app, Hv. rewrite N2Z.inj_div, N2Z.inj_mod. pose proof (Z.div_mod (Z.of_N x) 10 ltac:(lia)). simpl. lia.
  - intros _. destruct (decide (x `div` 10 = 0)%N) as [E|E].
    + destruct ds as [|d ds].
      * eexists _, []. split; [done|]. rewrite <- (N.mod_small x 10) in Hx; [by intros ?%(N2Z.inj _ 0)|]. by apply N.div_small_iff in E.
      * exfalso. (* a zero quotient prints nothing *)
        rewrite E, pretty_N_go_0 in Hb. simpl in Hb. apply (f_equal length) in Hb. simpl in Hb.
        rewrite length_app, length_map in Hb. simpl in Hb. lia.
    + destruct (Hz E) as (d & ds' & -> & Hd). by exists d, (ds' ++ [Z.of_N (x `mod` 10)]).
Qed.

(** Decimal numbers as they are printed. *)
Lemma dec_digits z :
  0 <= z -> exists ds, bytes_of_string (dec z) = map dec_char ds /\ Forall (fun d => 0 <= d < 10) ds /\
    value 10 ds = z /\ ds <> [] /\ leading_zero ds = false.
Proof.
  intros Hz. destruct (decide (z = 0)) as [->|Hz0].
  { exists [0]. split_and!; try done. by_decide. }
  destruct (pretty_go (Z.to_N z) EmptyString) as (ds & Hb & Hf & Hv & Hd).
  destruct Hd as (d & ds' & -> & Hd); [lia|]. exists (d :: ds'). split_and!; try done; [|lia|].
  - rewrite <- (app_nil_r (map dec_char (d :: ds'))). change [] with (bytes_of_string EmptyString). rewrite <- Hb.
    unfold dec. f_equal. destruct z as [|p|p]; [done| |lia].
    reflexivity.
  - destruct d; simpl; by destruct ds'.
Qed.

Lemma bytes_of_string_app a b : bytes_of_string (a ++ b) = bytes_of_string a ++ bytes_of_string b.
Proof. induction a as [|c a IH]; [done|]. simpl. by rewrite IH. Qed.

(** Reading a decimal number of any width. *)
Lemma read_dec z m zp w rest :
  0 <= z < 2 ^ w -> ends 10 rest -> (forall k, m = Some k -> (length (bytes_of_string (dec z)) <= k)%nat) ->
  read_number 10 m zp w (bytes_of_string (dec z) ++ rest) = Some (z, rest).
Proof.
  intros Hz He Hm. destruct (dec_digits z ltac:(lia)) as (ds & Hb & Hf & Hv & Hn & Hl). rewrite Hb in *.
  unfold read_number. rewrite read_digits_app; [|eapply Forall_impl; [exact Hf|exact decimal_char]|done].
  assert (match m with Some k => (k <? length ds)%nat | None => false end = false) as ->.
  { destruct m as [k|]; [|done]. apply Nat.ltb_ge. specialize (Hm k eq_refl). by rewrite length_map in Hm. }
  rewrite bool_decide_false, Hl, andb_false_r, Hv by done. by rewrite (proj2 (Z.ltb_lt _ _)) by lia.
Qed.

Lemma dec_octet_length z : 0 <= z < 256 -> (length (bytes_of_string (dec z)) <= 3)%nat.
Proof.
  intros Hz. assert (z ∈ seqZ 0 256) as Hin by (apply elem_of_seqZ; lia). clear Hz. revert z Hin.
  apply Forall_forall. by_decide.
Qed.

Lemma read_octet_dec z rest : 0 <= z < 256 -> ends 10 rest -> read_octet (bytes_of_string (dec z) ++ rest) = Some (z, rest).
Proof. intros Hz He. apply read_dec; [done|done|]. intros k [= <-]. by apply dec_octet_length. Qed.

Lemma read_ipv4_text octets rest :
  bytes_ok octets -> len octets = 4 -> ends 10 rest ->
  read_ipv4_addr (bytes_of_string (Ipv4Addr.to_string octets) ++ rest) = Some (octets, rest).
Proof.
  intros Hb Hl He. destruct octets as [|a [|b [|c [|d [|e l]]]]]; try (unfold len in Hl; simpl in Hl; lia).
  unfold bytes_ok in Hb. rewrite !Forall_cons in Hb. destruct Hb as (Ha & Hb & Hc & Hd & _). unfold u8, uint in *.
  unfold Ipv4Addr.to_string. cbn [map join]. rewrite !bytes_of_string_app.
  change (bytes_of_string ".") with [46]. rewrite <- !app_assoc. cbn [app].
  unfold read_ipv4_addr. rewrite read_octet_dec by done. cbn. rewrite read_octet_dec by done. cbn.
  rewrite read_octet_dec by done. cbn. by rewrite read_octet_dec.
Qed.

(** ** IPv6 *)

(** Hexadecimal groups as they are printed. *)
Lemma hex_fuel_digits fuel z :
  0 <= z < 16 ^ Z.of_nat fuel -> exists ds, bytes_of_string (hex_fuel fuel z) = map hex_char ds /\
    Forall (fun d => 0 <= d < 16) ds /\ value 16 ds = z /\ ds <> [] /\ (length ds <= Nat.max 1 fuel)%nat.
Proof.
  assert (forall d, 0 <= d < 16 -> exists ds, bytes_of_string (hex_digit d) = map hex_char ds /\
    Forall (fun d => 0 <= d < 16) ds /\ value 16 ds = d /\ ds <> [] /\ length ds = 1%nat) as Hdigit.
  { intros d Hd. exists [d]. split_and!; try done; [|by apply Forall_singleton].
    assert (d ∈ seqZ 0 16) as Hin by (apply elem_of_seqZ; lia). clear Hd. revert d Hin. apply Forall_forall. by_decide. }
  revert z. induction fuel as [|fuel IH]; intros z Hz.
  { assert (z = 0) as -> by (simpl in Hz; lia). destruct (Hdigit 0) as (ds & ? & ? & ? & ? & Hl); [lia|].
    exists ds. simpl. split_and!; try done. lia. }
  cbn [hex_fuel]. destruct (z <? 16) eqn:E; b2p.
  { destruct (Hdigit z) as (ds & ? & ? & ? & ? & Hl); [lia|]. exists ds. split_and!; try done. lia. }
  replace (Z.of_nat (S fuel)) with (Z.of_nat fuel + 1) in Hz by lia. rewrite Z.pow_add_r in Hz by lia.
  pose proof (Z.div_mod z 16 ltac:(lia)) as Hdm. pose proof (Z.mod_pos_bound z 16 ltac:(lia)) as Hm.
  destruct (IH (z / 16)) as (ds & Hb & Hf & Hv & Hn & Hl); [split; [apply Z.div_pos; lia|apply Z.div_lt_upper_bound; lia]|].
  destruct (Hdigit (z mod 16) Hm) as (ds' & Hb' & Hf' & Hv' & Hn' & Hl'). destruct ds' as [|d [|]]; try done.
  assert (d = z mod 16) as -> by exact Hv'.
  exists (ds ++ [z mod 16]). split_and!; [|by apply Forall_app|rewrite value_app; lia|by destruct ds|].
  - rewrite bytes_of_string_app, Hb, Hb'. by rewrite map_app.
  - rewrite length_app. simpl. destruct fuel; [|lia]. simpl in Hz. lia.
Qed.

Lemma read_group_hex g rest :
  u16 g -> ends 16 rest -> read_group (bytes_of_string (hex g) ++ rest) = Some (g, rest).
Proof.
  intros Hg He. unfold u16, uint in Hg. destruct (hex_fuel_digits 4 g) as (ds & Hb & Hf & Hv & Hn & Hl); [simpl; lia|].
  unfold hex. rewrite Hb. unfold read_group, read_number.
  rewrite read_digits_app; [|eapply Forall_impl; [exact Hf|exact hex_char_digit]|done].
  assert ((4 <? length ds)%nat = false) as -> by (apply Nat.ltb_ge; simpl in Hl; lia).
  rewrite bool_decide_false by done. simpl. rewrite Hv. by rewrite (proj2 (Z.ltb_lt _ _)) by lia.
Qed.

(** No printed number has a dot. *)
Lemma no_dot_hex g : u16 g -> 46 ∉ bytes_of_string (hex g).
Proof.
  intros Hg Hin. unfold u16, uint in Hg. destruct (hex_fuel_digits 4 g) as (ds & Hb & Hf & _); [simpl; lia|].
  unfold hex in Hin. rewrite Hb in Hin. apply list_elem_of_fmap in Hin as (d & E & Hd).
  rewrite Forall_forall in Hf. specialize (Hf d Hd). unfold hex_char in E. destruct (d <? 10) eqn:Ed; b2p; lia.
Qed.

Lemma no_dot_dec z : 0 <= z -> 46 ∉ bytes_of_string (dec z).
Proof.
  intros Hz Hin. destruct (dec_digits z Hz) as (ds & Hb & Hf & _). rewrite Hb in Hin.
  apply list_elem_of_fmap in Hin as (d & E & Hd). rewrite Forall_forall in Hf. specialize (Hf d Hd).
  unfold dec_char in E. lia.
Qed.

(** The text of groups from index [i] on. *)
Fixpoint groups_text (i : nat) (l : list Z) : list Z :=
  match l with
  | [] => []
  | g :: l => (if (i =? 0)%nat then [] else [58]) ++ bytes_of_string (hex g) ++ groups_text (S i) l
  end.

Lemma fmt_subslice_text l : bytes_of_string (Ipv6Addr.fmt_subslice l) = groups_text 0 l.
Proof.
  assert (forall g l, bytes_of_string (join ":" (map hex (g :: l))) = bytes_of_string (hex g) ++ groups_text 1 l) as Hj.
  { intros g l'. revert g. induction l' as [|h l' IH]; intros g; [simpl; by rewrite app_nil_r|].
    change (join ":" (map hex (g :: h :: l'))) with (hex g ++ (":" ++ join ":" (map hex (h :: l'))))%string.
    rewrite !bytes_of_string_app, IH. simpl. f_equal. f_equal. f_equal.
    assert (forall i l, groups_text (S i) l = groups_text 1 l) as Hg.
    { clear. intros i l. revert i. induction l as [|x l IH]; intros i; [done|]. simpl. by rewrite (IH (S i)), (IH 1%nat). }
    apply eq_sym, Hg. }
  unfold Ipv6Addr.fmt_subslice. destruct l as [|g l]; [done|]. rewrite Hj. done.
Qed.

Lemma no_dot_groups i l : Forall u16 l -> 46 ∉ groups_text i l.
Proof.
  intros Hl. revert i. induction Hl as [|g l Hg _ IH]; intros i; simpl; [apply not_elem_of_nil|].
  rewrite !elem_of_app. intros [Hin|[Hin|Hin]]; [|by eapply no_dot_hex|by eapply IH].
  destruct (i =? 0)%nat; [by apply elem_of_nil in Hin|]. apply list_elem_of_singleton in Hin. lia.
Qed.

Lemma separated_no_dot i s : 46 ∉ s -> separated i read_ipv4_addr s = None.
Proof.
  intros Hs. destruct i as [|i]; simpl; [by apply read_ipv4_dot|]. destruct s as [|c s]; [done|]. simpl.
  destruct (c =? 58); [|done]. simpl. apply read_ipv4_dot. set_solver.
Qed.

(** What may follow a run of groups. *)
Definition closes (i : nat) (rest : list Z) : Prop := ends 16 rest /\ separated i read_group rest = None.

Lemma groups_text_ends i l rest : (0 < i)%nat -> ends 16 rest -> ends 16 (groups_text i l ++ rest).
Proof. intros Hi He. destruct l as [|g l]; [done|]. simpl. by destruct i; [lia|]. Qed.

Lemma read_groups_text n i l rest :
  Forall u16 l -> (length l <= n)%nat -> 46 ∉ rest -> ends 16 rest ->
  ((length l < n)%nat -> separated (i + length l) read_group rest = None) ->
  read_groups n i (groups_text i l ++ rest) = (l, false, rest).
Proof.
  intros Hl. revert n i. induction Hl as [|g l Hg Hl IH]; intros n i Hn Hd He Hs; simpl in *.
  - destruct n as [|n]; [done|]. simpl. replace (if (0 <? n)%nat then separated i read_ipv4_addr rest else None) with (@None (list Z * list Z))
      by (destruct (0 <? n)%nat; [by rewrite separated_no_dot|done]).
    rewrite Nat.add_0_r in Hs. by rewrite Hs by lia.
  - destruct n as [|n]; [lia|]. cbn [read_groups].
    assert (46 ∉ groups_text i (g :: l) ++ rest) as Hnd.
    { rewrite elem_of_app. intros [Hin|Hin]; [|done]. eapply no_dot_groups; [|exact Hin]. by constructor. }
    cbn [groups_text] in Hnd. rewrite <- !app_assoc in *.
    match goal with |- match ?x with _ => _ end = _ => replace x with (@None (list Z * list Z))
      by (destruct (0 <? n)%nat; [by rewrite separated_no_dot|done]) end.
    assert (separated i read_group ((if (i =? 0)%nat then [] else [58]) ++ bytes_of_string (hex g) ++ groups_text (S i) l ++ rest)
      = Some (g, groups_text (S i) l ++ rest)) as ->.
    { assert (ends 16 (groups_text (S i) l ++ rest)) as He' by (apply groups_text_ends; [lia|done]).
      destruct i as [|i]; simpl; by rewrite read_group_hex. }
    rewrite IH; [done|lia|done|done|]. intros Hlt. rewrite <- Nat.add_succ_comm in Hs. simpl in Hs. apply Hs. lia.
Qed.

Definition span_step : nat * nat * (nat * nat) * nat -> Z -> nat * nat * (nat * nat) * nat :=
  fun '(longest, current, i) segment =>
  if segment =? 0 then
    let start := if (snd current =? 0)%nat then i else fst current in
    let current := (start, S (snd current)) in
    ((if (snd longest <? snd current)%nat then current else longest), current, S i)
  else (longest, (0, 0)%nat, S i).

(** [run l a n]: the [n] elements of [l] from [a] on are zero. *)
Definition run (l : list Z) (a n : nat) : Prop :=
  (a + n <= length l)%nat /\ forall j, (a <= j < a + n)%nat -> l !! j = Some 0.

Lemma run_snoc l x a n : run l a n -> run (l ++ [x]) a n.
Proof.
  intros [Hl Hr]. split; [rewrite length_app; lia|]. intros j Hj. rewrite lookup_app_l by lia. by apply Hr.
Qed.

Lemma span_inv l :
  let '(longest, current, i) := foldl span_step ((0, 0)%nat, (0, 0)%nat, 0%nat) l in
  i = length l /\ run l (fst longest) (snd longest) /\
  (snd current <> 0%nat -> run l (fst current) (snd current) /\ (fst current + snd current = length l)%nat).
Proof.
  induction l as [|x l IH] using rev_ind; [simpl; split_and!; try done; split; [simpl; lia|intros; lia]|].
  rewrite foldl_app. destruct (foldl span_step _ l) as [[[a m] [b k]] i]. cbn [foldl fst snd] in *.
  destruct IH as (-> & Hl & Hc). unfold span_step. cbn [fst snd].
  destruct (Z.eqb_spec x 0) as [->|Hx]; cbn [fst snd].
  - assert (run (l ++ [0]) (if (k =? 0)%nat then length l else b) (S k) /\
      ((if (k =? 0)%nat then length l else b) + S k = length (l ++ [0%Z]))%nat) as [Hr He].
    { destruct (Nat.eqb_spec k 0) as [->|Hk].
      - rewrite length_app. simpl. split; [|lia]. split; [rewrite length_app; simpl; lia|].
        intros j Hj. replace j with (length l) by lia. by rewrite list_lookup_middle.
      - destruct (Hc Hk) as [[Hc1 Hc2] Hc3]. rewrite length_app. simpl. split; [|lia].
        split; [rewrite length_app; simpl; lia|]. intros j Hj. destruct (decide (j < length l)%nat).
        + rewrite lookup_app_l by done. apply Hc2. lia.
        + replace j with (length l) by lia. by rewrite list_lookup_middle. }
    split_and!; [rewrite length_app; simpl; lia| |done]. destruct (m <? S k)%nat; [done|by apply run_snoc].
  - split_and!; [rewrite length_app; simpl; lia|by apply run_snoc|done].
Qed.

Lemma zero_span_run l : run l (fst (Ipv6Addr.zero_span l)) (snd (Ipv6Addr.zero_span l)).
Proof.
  pose proof (span_inv l) as Hs. unfold Ipv6Addr.zero_span.
  change (foldl _ _ l) with (foldl span_step ((0, 0)%nat, (0, 0)%nat, 0%nat) l).
  destruct (foldl span_step _ l) as [[longest current] i]. by destruct Hs as (_ & ? & _).
Qed.

Lemma run_split l a n : run l a n -> l = take a l ++ replicate n 0 ++ drop (a + n) l.
Proof.
  intros [Hl Hr]. rewrite <- (take_drop a l) at 1. f_equal. rewrite <- (take_drop n (drop a l)) at 1.
  rewrite drop_drop. f_equal. apply list_eq. intros i. destruct (decide (i < n)%nat).
  - rewrite lookup_take_lt, lookup_drop, lookup_replicate_2 by done. apply Hr. lia.
  - rewrite lookup_take_ge, lookup_ge_None_2 by (rewrite ?length_replicate; lia). done.
Qed.

(** The sixteen octets and their eight groups. *)
Lemma segments_spec octets n :
  bytes_ok octets -> length octets = (2 * n)%nat ->
  length (Ipv6Addr.segments octets) = n /\ Forall u16 (Ipv6Addr.segments octets) /\
  of_groups (Ipv6Addr.segments octets) = octets.
Proof.
  revert octets. induction n as [|n IH]; intros octets Hb Hl; [by destruct octets|].
  destruct octets as [|a [|b r]]; [done|simpl in Hl; lia|]. unfold bytes_ok in Hb. rewrite !Forall_cons in Hb.
  destruct Hb as (Ha & Hb & Hr). destruct (IH r Hr) as (H1 & H2 & H3); [simpl in Hl; lia|].
  assert (bytes_ok [a; b]) as Hab by (unfold bytes_ok; by rewrite !Forall_cons).
  cbn [Ipv6Addr.segments length]. split_and!; [lia| |].
  - constructor; [|done]. by apply (from_be_bound 2 [a; b]).
  - unfold of_groups in *. cbn [map concat]. rewrite H3.
    by rewrite (be_bytes_from_be 2 [a; b]) by done.
Qed.

Lemma take_groups l a n : run l a n -> Forall u16 l -> Forall u16 (take a l) /\ Forall u16 (drop (a + n) l).
Proof. intros _ Hl. split; [by apply Forall_take|by apply Forall_drop]. Qed.

Lemma read_ipv6_text octets rest :
  bytes_ok octets -> len octets = 16 -> ends 16 rest -> ends 10 rest -> 46 ∉ rest -> read_given_char 58 rest = None ->
  read_ipv6_addr (bytes_of_string (Ipv6Addr.to_string octets) ++ rest) = Some (octets, rest).
Proof.
  intros Hb Hl He H10 Hd H58. unfold Ipv6Addr.to_string.
  assert (length octets = 16)%nat as Hlen by (unfold len in Hl; lia).
  assert (separated 0 read_group rest = None) as Hs0.
  { simpl. unfold read_group, read_number. destruct rest as [|c r]; [done|]. simpl in He. simpl. by rewrite He. }
  assert (forall i, separated i read_group rest = None) as Hsi.
  { intros [|i]; [done|]. simpl. by rewrite H58. }
  destruct (bool_decide (take 12 octets = replicate 10 0 ++ [255; 255])) eqn:Em.
  - apply bool_decide_eq_true in Em. rewrite bytes_of_string_app, <- app_assoc.
    set (t := drop 12 octets). set (s := bytes_of_string (Ipv4Addr.to_string t) ++ rest).
    assert (read_ipv4_addr s = Some (t, rest)) as Hv4.
    { apply read_ipv4_text; [by apply Forall_drop|unfold len; unfold t; rewrite length_drop; lia|done]. }
    assert (octets = (replicate 10 0 ++ [255; 255]) ++ t) as Ho by (unfold t; by rewrite <- Em, take_drop).
    destruct (segments_spec t 2) as (_ & _ & Ht); [by apply Forall_drop|unfold t; rewrite length_drop; lia|].
    change (bytes_of_string "::ffff:" ++ s) with (58 :: 58 :: 102 :: 102 :: 102 :: 102 :: 58 :: s).
    assert (read_groups 7 0 (102 :: 102 :: 102 :: 102 :: 58 :: s) = (65535 :: Ipv6Addr.segments t, true, rest)) as Hg.
    { assert (read_groups 6 1 (58 :: s) = (Ipv6Addr.segments t, true, rest)) as H6.
      { assert (separated 1 read_ipv4_addr (58 :: s) = Some (t, rest)) as Hv by exact Hv4.
        cbn [read_groups]. change (0 <? 5)%nat with true. cbv iota. by rewrite Hv. }
      assert (separated 0 read_ipv4_addr (102 :: 102 :: 102 :: 102 :: 58 :: s) = None) as H0 by reflexivity.
      assert (separated 0 read_group (102 :: 102 :: 102 :: 102 :: 58 :: s) = Some (65535, 58 :: s)) as H1 by reflexivity.
      change 7%nat with (S 6). remember 6%nat as k eqn:Ek. cbn [read_groups].
      replace (0 <? k)%nat with true by (by rewrite Ek). rewrite H0, H1. by rewrite H6. }
    unfold read_ipv6_addr.
    change (read_groups 8 0 (58 :: 58 :: 102 :: 102 :: 102 :: 102 :: 58 :: s))
      with ([] : list Z, false, 58 :: 58 :: 102 :: 102 :: 102 :: 102 :: 58 :: s).
    cbn -[read_groups of_groups]. rewrite Hg. cbn -[of_groups Ipv6Addr.segments].
    destruct t as [|a [|b [|c [|d [|]]]]] eqn:Et; try (apply (f_equal length) in Et; unfold t in Et; rewrite length_drop in Et; simpl in Et; lia).
    cbn [Ipv6Addr.segments length]. cbn -[of_groups be_bytes from_be]. f_equal. f_equal. rewrite Ho.
    unfold of_groups in *. cbn [map concat Ipv6Addr.segments] in *. rewrite <- Ht. reflexivity.
  - destruct (segments_spec octets 8 Hb ltac:(lia)) as (Hn & Hu & Hg). set (l := Ipv6Addr.segments octets) in *.
    pose proof (zero_span_run l) as Hr. destruct (Ipv6Addr.zero_span l) as [a n]. cbn [fst snd] in Hr.
    destruct (take_groups l a n Hr Hu) as [Hua Hub]. pose proof (run_split l a n Hr) as Hspl. destruct Hr as [Hr _].
    destruct (1 <? n)%nat eqn:E1.
    + apply Nat.ltb_lt in E1. rewrite !bytes_of_string_app, !fmt_subslice_text, <- !app_assoc.
      change (bytes_of_string "::") with [58; 58]. cbn [app]. unfold read_ipv6_addr.
      assert (length (take a l) = a) as Hta by (rewrite length_take; lia).
      assert (length (drop (a + n) l) = 8 - a - n)%nat as Htb by (rewrite length_drop; lia).
      rewrite read_groups_text; try done; [|lia| |].
      * cbn [fst snd]. rewrite Hta. assert ((a =? 8)%nat = false) as -> by (apply Nat.eqb_neq; lia).
        cbn -[read_groups groups_text of_groups]. rewrite read_groups_text; try done; [|lia].
        cbn -[of_groups]. rewrite Htb. assert (8 - a - (8 - a - n) = n)%nat as -> by lia. by rewrite <- Hspl, Hg.
      * rewrite !not_elem_of_cons. split_and!; [lia|lia|]. rewrite not_elem_of_app. split; [by apply no_dot_groups|done].
      * intros _. rewrite Hta. by destruct a.
    + rewrite fmt_subslice_text. unfold read_ipv6_addr. rewrite read_groups_text; try done; [|lia..].
      rewrite Hn. cbn -[of_groups]. by rewrite Hg.
Qed.

(** The textual form of a socket address is read back as that address (its
    flow label, which is not printed, is zero). *)
Lemma socket_addr_roundtrip a :
  SocketAddr.wf a ->
  match a with SocketAddr.V4 _ _ => True | SocketAddr.V6 _ _ flow scope => flow = 0 /\ u32 scope end ->
  parse_socket_addr (bytes_of_string (SocketAddr.to_string a)) = Some a.
Proof.
  intros [Hip Hport] Ha. unfold parse_socket_addr.
  assert (forall p, u16 p -> read_port (58 :: bytes_of_string (dec p)) = Some (p, [])) as Hrp.
  { intros p Hp. unfold read_port. cbn. rewrite <- (app_nil_r (bytes_of_string (dec p))). by apply read_dec. }
  destruct a as [i p|i p flow scope]; cbn [SocketAddr.to_string SocketAddr.ip SocketAddr.port IpAddr.wf] in *.
  - destruct Hip as [Hb Hl]. rewrite !bytes_of_string_app. change (bytes_of_string ":") with [58].
    unfold read_socket_addr_v4. rewrite read_ipv4_text by done. cbn -[read_port]. by rewrite Hrp.
  - destruct Ha as [-> Hs]. destruct Hip as [Hb Hl]. pose proof Hport as [? _]. pose proof Hs as [? _].
    assert (46 ∉ 93 :: 58 :: bytes_of_string (dec p)) as Hd.
    { rewrite !not_elem_of_cons. split_and!; [lia|lia|by apply no_dot_dec]. }
    assert (exists r, ends 16 r /\ ends 10 r /\ 46 ∉ r /\ read_given_char 58 r = None /\
      bytes_of_string (SocketAddr.to_string (SocketAddr.V6 i p 0 scope)) = 91 :: bytes_of_string (Ipv6Addr.to_string i) ++ r /\
      default (0, r) (read_scope_id r) = (scope, 93 :: 58 :: bytes_of_string (dec p))) as (r & H16 & H10 & Hdr & H58 & Et & Er).
    { cbn [SocketAddr.to_string]. destruct (Z.eqb_spec scope 0) as [->|Hne].
      - exists (93 :: 58 :: bytes_of_string (dec p)). split_and!; try done. by rewrite !bytes_of_string_app.
      - exists (37 :: bytes_of_string (dec scope) ++ 93 :: 58 :: bytes_of_string (dec p)). split_and!; try done.
        + rewrite not_elem_of_cons, not_elem_of_app. split_and!; [lia|by apply no_dot_dec|done].
        + by rewrite !bytes_of_string_app.
        + unfold read_scope_id. cbn -[read_number]. by rewrite read_dec. }
    cbn [SocketAddr.to_string] in Et. rewrite Et. unfold read_socket_addr_v4.
    assert (read_ipv4_addr (91 :: bytes_of_string (Ipv6Addr.to_string i) ++ r) = None) as -> by reflexivity.
    cbn [option_bind mbind]. unfold read_socket_addr_v6. cbn -[read_ipv6_addr read_scope_id read_port].
    rewrite read_ipv6_text by done. cbn -[read_scope_id read_port]. rewrite Er. cbn -[read_port]. by rewrite Hrp.
Qed.

End AddrParser.
