(* ===== verification/Digest.v ===== *)
(** The digest and message authentication code of the [ring] crate as the
    sources use them: SHA-256 and HMAC-SHA256. *)

From S2P Require Import Prelude.

Class RingDigest := {
  sha256 : list Z -> list Z;
  hmac_sign : list Z -> list Z -> list Z;
  hmac_verify : list Z -> list Z -> list Z -> bool;
}.

(** Documented behaviour: both produce 32 bytes, and a tag verifies exactly
    when it is the tag of the message under the key. *)
Class RingDigestLaws {D : RingDigest} : Prop := {
  sha256_size m : len (sha256 m) = 32 /\ bytes_ok (sha256 m);
  hmac_size k m : len (hmac_sign k m) = 32 /\ bytes_ok (hmac_sign k m);
  hmac_verify_spec k m t : hmac_verify k m t = bool_decide (t = hmac_sign k m);
}.

(** [&digest[..n]] for a constant [n] of at most 32. *)
Definition truncate {E} (n : Z) (digest : list Z) : result E (list Z) := range digest 0 n.

(** * Concrete functions for evaluation: no security *)

Definition toy_hash (l : list Z) : list Z :=
  be_bytes 32 (from_be l * (2 ^ 251 + 2 ^ 190 + 4294967291) mod (2 ^ 256 - 189)).

#[export] Instance ToyDigest : RingDigest := {
  sha256 := toy_hash;
  hmac_sign k m := toy_hash (k ++ m);
  hmac_verify k m t := bool_decide (t = toy_hash (k ++ m));
}.

#[export] Instance ToyDigestLaws : RingDigestLaws.
Proof.
  split; intros; cbn [sha256 hmac_sign hmac_verify ToyDigest]; unfold toy_hash; auto with hpn.
Qed.
