(* ===== verification/Header.v ===== *)
(** The packet header of hpn-core/src/protocol/header.rs: 24 bytes, 32 with a
    timestamp. *)

From S2P Require Import Prelude Types.

Definition HEADER_SIZE : Z := 24.
Definition HEADER_SIZE_WITH_TIMESTAMP : Z := 32.

(** The [bitflags!] type is its byte; bit 3 is the only undefined one. *)
Module HeaderFlags.

Definition HAS_TIMESTAMP : Z := 1.
Definition REKEY_REQUEST : Z := 2.
Definition ACK : Z := 4.
Definition RESERVED_1 : Z := 16.
Definition RESERVED_2 : Z := 32.
Definition RESERVED_3 : Z := 64.
Definition RESERVED_4 : Z := 128.

Definition empty : Z := 0.
Definition all : Z :=
  Z.lor HAS_TIMESTAMP (Z.lor REKEY_REQUEST (Z.lor ACK
    (Z.lor RESERVED_1 (Z.lor RESERVED_2 (Z.lor RESERVED_3 RESERVED_4))))).

Definition from_bits (b : Z) : option Z :=
  if Z.land b (Z.lxor all 255) =? 0 then Some b else None.
Definition insert (f g : Z) : Z := Z.lor f g.
Definition contains (f g : Z) : bool := Z.land f g =? g.

Lemma from_bits_spec b :
  u8 b -> from_bits b = if Z.testbit b 3 then None else Some b.
Proof.
  intros Hb. unfold from_bits.
  assert (Bool.eqb (Z.land b (Z.lxor all 255) =? 0) (negb (Z.testbit b 3)) = true) as H.
  { revert b Hb. by apply u8_forall. }
  apply Bool.eqb_prop in H. rewrite H. by destruct (Z.testbit b 3).
Qed.

Lemma contains_timestamp b : u8 b -> contains b HAS_TIMESTAMP = Z.testbit b 0.
Proof.
  intros Hb. apply Bool.eqb_prop. revert b Hb.
  by apply (u8_forall (fun b => Bool.eqb (contains b HAS_TIMESTAMP) (Z.testbit b 0))).
Qed.

Lemma insert_timestamp b :
  u8 b ->
  u8 (insert b HAS_TIMESTAMP) /\ Z.testbit (insert b HAS_TIMESTAMP) 0 = true /\
  Z.testbit (insert b HAS_TIMESTAMP) 3 = Z.testbit b 3.
Proof.
  intros Hb.
  assert (let i := insert b HAS_TIMESTAMP in
    (0 <=? i) && (i <? 256) && Z.testbit i 0 &&
    Bool.eqb (Z.testbit i 3) (Z.testbit b 3) = true) as H.
  { revert b Hb. by apply u8_forall. }
  cbv zeta in H. b2p. apply Bool.eqb_prop in H0. unfold uint. auto with lia.
Qed.

Lemma insert_timestamp_id b : Z.testbit b 0 = true -> u8 b -> insert b HAS_TIMESTAMP = b.
Proof.
  intros Ht Hb. apply Z.bits_inj'. intros i Hi. unfold insert, HAS_TIMESTAMP.
  rewrite Z.lor_spec. destruct (decide (i = 0)) as [->|]; [by rewrite Ht|].
  by rewrite (Z.bits_above_log2 1), orb_false_r by (simpl; lia).
Qed.

End HeaderFlags.

Module PacketHeader.

Record t := mk {
  version : Z;
  msg_type : MessageType.t;
  flags : Z;
  reserved : Z;
  session_id : Z;
  key_id : Z;
  counter : Z;
  timestamp : option Z;
}.

#[global] Instance t_eq_dec : EqDecision t.
Proof. solve_decision. Defined.

Definition new (msg_type : MessageType.t) (session_id key_id counter : Z) : t :=
  mk PROTOCOL_VERSION msg_type HeaderFlags.empty 0 session_id key_id counter None.

Definition with_timestamp (h : t) (ts : Z) : t :=
  mk (version h) (msg_type h) (HeaderFlags.insert (flags h) HeaderFlags.HAS_TIMESTAMP)
     (reserved h) (session_id h) (key_id h) (counter h) (Some ts).

Definition default : t :=
  mk PROTOCOL_VERSION MessageType.Data HeaderFlags.empty 0 0 KeyId.initial
     Counter.initial None.

Definition encoded_size (h : t) : Z :=
  if timestamp h is Some _ then HEADER_SIZE_WITH_TIMESTAMP else HEADER_SIZE.

(** The flags byte on the wire. *)
Definition wire_flags (h : t) : Z :=
  if timestamp h is Some _ then HeaderFlags.insert (flags h) HeaderFlags.HAS_TIMESTAMP
  else flags h.

Definition encode (h : t) (buf : list Z) : result ProtocolError.t (list Z * Z) :=
  let size := encoded_size h in
  if len buf <? size then Err (ProtocolError.PacketTooShort size (len buf))
  else
    let? buf := store buf 0 (version h) in
    let? buf := store buf 1 (MessageType.as_u8 (msg_type h)) in
    let? buf := store buf 2 (wire_flags h) in
    let? buf := store buf 3 (reserved h) in
    let? buf := copy_from_slice buf 4 12 (SessionId.to_bytes (session_id h)) in
    let? buf := copy_from_slice buf 12 16 (KeyId.to_bytes (key_id h)) in
    let? buf := copy_from_slice buf 16 24 (Counter.to_bytes (counter h)) in
    let? buf :=
      match timestamp h with
      | Some ts => copy_from_slice buf 24 32 (be_bytes 8 ts)
      | None => Ok buf
      end in
    Ok (buf, size).

Definition decode (buf : list Z) : result ProtocolError.t t :=
  if len buf <? HEADER_SIZE then
    Err (ProtocolError.PacketTooShort HEADER_SIZE (len buf))
  else
    let? version := index buf 0 in
    if negb (version =? PROTOCOL_VERSION) then Err (ProtocolError.InvalidVersion version)
    else
      let? b1 := index buf 1 in
      let? msg_type := ok_or (ProtocolError.InvalidMessageType b1) (MessageType.from_u8 b1) in
      let? b2 := index buf 2 in
      let? flags := ok_or (ProtocolError.InvalidHeaderFlags b2) (HeaderFlags.from_bits b2) in
      let? reserved := index buf 3 in
      if negb (reserved =? 0) then Err (ProtocolError.InvalidReservedByte reserved)
      else
        let? session_id_bytes := range buf 4 12 in
        let session_id := SessionId.from_bytes session_id_bytes in
        let? key_id_bytes := range buf 12 16 in
        let key_id := KeyId.from_bytes key_id_bytes in
        let? counter_bytes := range buf 16 24 in
        let counter := Counter.from_bytes counter_bytes in
        let? timestamp :=
          if HeaderFlags.contains flags HeaderFlags.HAS_TIMESTAMP then
            if len buf <? HEADER_SIZE_WITH_TIMESTAMP then
              Err (ProtocolError.PacketTooShort HEADER_SIZE_WITH_TIMESTAMP (len buf))
            else
              let? ts_bytes := range buf 24 32 in
              Ok (Some (from_be ts_bytes))
          else Ok None in
        Ok (mk version msg_type flags reserved session_id key_id counter timestamp).

Definition as_aad {E} (h : t) (buf : list Z) : result E (list Z) :=
  range buf 0 (encoded_size h).

(** * Reference layout *)

Definition wire (h : t) : list Z :=
  [version h; MessageType.as_u8 (msg_type h); wire_flags h; reserved h]
  ++ be_bytes 8 (session_id h) ++ be_bytes 4 (key_id h) ++ be_bytes 8 (counter h)
  ++ match timestamp h with Some ts => be_bytes 8 ts | None => [] end.

(** A header the protocol can carry: field widths, the pinned version and
    reserved byte, allocated flags only, and the timestamp flag set only
    together with a timestamp. *)
Definition wf (h : t) : Prop :=
  version h = PROTOCOL_VERSION /\ reserved h = 0 /\
  u8 (flags h) /\ Z.testbit (flags h) 3 = false /\
  u64 (session_id h) /\ u32 (key_id h) /\ u64 (counter h) /\
  match timestamp h with
  | Some ts => u64 ts
  | None => Z.testbit (flags h) 0 = false
  end.

#[global] Instance wf_dec h : Decision (wf h).
Proof. unfold wf. destruct (timestamp h); apply _. Defined.

(** What decoding an encoded header yields: the timestamp flag is made
    explicit. *)
Definition normalise (h : t) : t :=
  mk (version h) (msg_type h) (wire_flags h) (reserved h) (session_id h) (key_id h)
     (counter h) (timestamp h).

Lemma len_wire h : len (wire h) = encoded_size h.
Proof. unfold wire, encoded_size. destruct (timestamp h); reflexivity. Qed.

Lemma bytes_ok_wire h : wf h -> bytes_ok (wire h).
Proof.
  intros (Hv & Hz & Hf & _). unfold wire. rewrite !bytes_ok_app.
  split_and!; auto with hpn; [|by destruct (timestamp h); auto with hpn; constructor].
  assert (u8 (wire_flags h)).
  { unfold wire_flags. destruct (timestamp h); [|done]. by apply HeaderFlags.insert_timestamp. }
  rewrite Hv, Hz. pose proof (MessageType.as_u8_u8 (msg_type h)).
  by repeat (apply Forall_cons; split).
Qed.

Lemma encode_wire h buf :
  encoded_size h <= len buf ->
  encode h buf = Ok (wire h ++ drop (length (wire h)) buf, encoded_size h).
Proof.
  intros Hs. unfold encode. decide_ltb.
  assert (24 <= len buf) by (unfold encoded_size, HEADER_SIZE, HEADER_SIZE_WITH_TIMESTAMP in Hs;
    destruct (timestamp h); lia).
  rewrite <- (app_nil_l buf) at 1.
  rewrite (store_at [] buf) by (done || lia). sbind.
  do 3 (rewrite store_at by write_side; sbind).
  unfold SessionId.to_bytes, KeyId.to_bytes, Counter.to_bytes.
  do 3 (rewrite copy_from_slice_at by write_side; sbind).
  unfold wire, encoded_size, HEADER_SIZE_WITH_TIMESTAMP in *. destruct (timestamp h).
  - rewrite copy_from_slice_at by write_side. sbind. by rewrite !drop_drop, <- !app_assoc.
  - sbind. by rewrite !drop_drop, app_nil_r, <- !app_assoc.
Qed.

Ltac fields :=
  cbn [version msg_type flags reserved session_id key_id counter timestamp].

(** Decoding a buffer cut at the field boundaries. *)
Lemma decode_fields v m f z s k c r :
  length s = 8%nat -> length k = 4%nat -> length c = 8%nat -> u8 f ->
  decode ([v; m; f; z] ++ s ++ k ++ c ++ r) =
    if negb (v =? PROTOCOL_VERSION) then Err (ProtocolError.InvalidVersion v)
    else let? mt := ok_or (ProtocolError.InvalidMessageType m) (MessageType.from_u8 m) in
    if Z.testbit f 3 then Err (ProtocolError.InvalidHeaderFlags f)
    else if negb (z =? 0) then Err (ProtocolError.InvalidReservedByte z)
    else if Z.testbit f 0 then
      if len r <? 8 then Err (ProtocolError.PacketTooShort 32 (24 + len r))
      else Ok (mk v mt f z (from_be s) (from_be k) (from_be c) (Some (from_be (take 8 r))))
    else Ok (mk v mt f z (from_be s) (from_be k) (from_be c) None).
Proof.
  intros Hs Hk Hc Hf. set (buf := [v; m; f; z] ++ _).
  assert (len s = 8 /\ len k = 4 /\ len c = 8) as (Ls & Lk & Lc)
    by (unfold len; rewrite Hs, Hk, Hc; done).
  pose proof (rest_at_start buf) as R0. unfold buf at 2 in R0. simpl in R0.
  pose proof (rest_at_cons _ _ _ _ R0) as R1. pose proof (rest_at_cons _ _ _ _ R1) as R2.
  pose proof (rest_at_cons _ _ _ _ R2) as R3. pose proof (rest_at_cons _ _ _ _ R3) as R4.
  pose proof (rest_at_app _ _ _ _ R4) as R5. rewrite Ls in R5.
  pose proof (rest_at_app _ _ _ _ R5) as R6. rewrite Lk in R6.
  pose proof (rest_at_app _ _ _ _ R6) as R7. rewrite Lc in R7.
  simpl in R1, R2, R3, R4, R5, R6, R7.
  assert (len buf = 24 + len r) as HL by (apply (rest_at_len _ _ _ R7)).
  pose proof (len_nonneg r). unfold decode. rewrite HL. unfold HEADER_SIZE. decide_ltb.
  rewrite (index_rest_at _ _ _ _ R0). sbind. destruct (negb (v =? PROTOCOL_VERSION)); [done|].
  rewrite (index_rest_at _ _ _ _ R1). sbind. destruct (MessageType.from_u8 m); [|done]. sbind.
  rewrite (index_rest_at _ _ _ _ R2). sbind.
  rewrite HeaderFlags.from_bits_spec by done. destruct (Z.testbit f 3); [done|]. sbind.
  rewrite (index_rest_at _ _ _ _ R3). sbind. destruct (negb (z =? 0)); [done|].
  rewrite (range_rest_at _ _ _ _ _ R4) by lia. sbind.
  rewrite (range_rest_at _ _ _ _ _ R5) by lia. sbind.
  rewrite (range_rest_at _ _ _ _ _ R6) by lia. sbind.
  rewrite HeaderFlags.contains_timestamp by done. destruct (Z.testbit f 0); [|done].
  unfold HEADER_SIZE_WITH_TIMESTAMP.
  destruct (len r <? 8) eqn:E8; b2p; decide_ltb; [done|].
  rewrite <- (take_drop 8 r) in R7. rewrite (range_rest_at _ _ _ _ _ R7); [done|].
  rewrite (len_take 8); lia.
Qed.

Lemma fields_of (buf : list Z) :
  HEADER_SIZE <= len buf ->
  exists v m f z (s k c r : list Z), buf = [v; m; f; z] ++ s ++ k ++ c ++ r /\
    length s = 8%nat /\ length k = 4%nat /\ length c = 8%nat.
Proof.
  unfold HEADER_SIZE. intros H.
  destruct (split_at 4 buf) as (p & r0 & -> & Hp); [lia|].
  destruct p as [|v [|m [|f [|z [|]]]]]; try discriminate Hp. autorewrite with len in H.
  destruct (split_at 8 r0) as (s & r1 & -> & ?); [lia|]. autorewrite with len in H.
  assert (len s = 8) by (unfold len; lia).
  destruct (split_at 4 r1) as (k & r2 & -> & ?); [lia|]. autorewrite with len in H.
  assert (len k = 4) by (unfold len; lia).
  destruct (split_at 8 r2) as (c & r & -> & ?); [lia|].
  by exists v, m, f, z, s, k, c, r.
Qed.

Lemma decode_wire h r : wf h -> decode (wire h ++ r) = Ok (normalise h).
Proof.
  intros (Hv & Hz & Hf & H3 & Hs & Hk & Hc & Ht). unfold wire. rewrite <- !app_assoc.
  assert (u8 (wire_flags h) /\ Z.testbit (wire_flags h) 3 = false /\
    Z.testbit (wire_flags h) 0 = bool_decide (is_Some (timestamp h))) as (Wf & W3 & W0).
  { unfold wire_flags. destruct (timestamp h); [|done].
    destruct (HeaderFlags.insert_timestamp _ Hf) as (? & ? & ->). done. }
  rewrite decode_fields by (done || apply length_be_bytes).
  rewrite Hv, Hz, MessageType.from_u8_as_u8, W3, W0. sbind. simpl negb.
  rewrite !from_be_be_bytes by done. unfold normalise. rewrite Hv, Hz.
  destruct (timestamp h) as [ts|]; [|done]. simpl bool_decide. cbv iota.
  rewrite len_app, len_be_bytes. pose proof (len_nonneg r). decide_ltb.
  rewrite take_app_length' by (by rewrite length_be_bytes). by rewrite from_be_be_bytes_8.
Qed.

Lemma decode_inv buf h :
  bytes_ok buf -> decode buf = Ok h ->
  wf h /\ normalise h = h /\ exists r, buf = wire h ++ r.
Proof.
  intros Hb H. assert (HEADER_SIZE <= len buf) as HL.
  { unfold decode in H. destruct (len buf <? HEADER_SIZE) eqn:E; [done|]. b2p. lia. }
  destruct (fields_of buf HL) as (v & m & f & z & s & k & c & r & -> & Hs & Hk & Hc).
  apply bytes_ok_app in Hb as [Hq Hb].
  apply bytes_ok_app in Hb as [? Hb]. apply bytes_ok_app in Hb as [? Hb].
  apply bytes_ok_app in Hb as [? Hb].
  assert (u8 f) as Hf by (apply (bytes_ok_lookup _ 2%nat _ Hq eq_refl)).
  rewrite decode_fields in H by done.
  do 2 step_in H. destruct (MessageType.from_u8 m) as [mt|] eqn:Em; [|discriminate].
  injection Hs0 as <-. apply MessageType.as_u8_from_u8 in Em. subst m.
  do 3 step_in H; b2p; subst v z.
  - step_in H. injection H as <-. b2p.
    destruct (split_at 8 r) as (ts & r' & -> & Hts); [lia|].
    apply bytes_ok_app in Hb as [? ?]. rewrite take_app_length' by done.
    unfold wf, normalise, wire, wire_flags; fields. rewrite HeaderFlags.insert_timestamp_id by done.
    rewrite !be_bytes_from_be by done.
    split_and!; try done; try (by apply (from_be_bound 8)); try (by apply (from_be_bound 4)).
    exists r'. by rewrite <- !app_assoc.
  - injection H as <-. unfold wf, normalise, wire, wire_flags; fields.
    rewrite !be_bytes_from_be by done.
    split_and!; try done; try (by apply (from_be_bound 8)); try (by apply (from_be_bound 4)).
    exists r. by rewrite app_nil_r, <- !app_assoc.
Qed.

Lemma decode_no_panic buf : bytes_ok buf -> decode buf <> Panic.
Proof.
  intros Hb H. destruct (Z.lt_ge_cases (len buf) HEADER_SIZE) as [Hl|Hl].
  { unfold decode in H. rewrite (proj2 (Z.ltb_lt _ _) Hl) in H. done. }
  destruct (fields_of buf Hl) as (v & m & f & z & s & k & c & r & -> & Hs & Hk & Hc).
  apply bytes_ok_app in Hb as [Hq Hb].
  rewrite decode_fields in H by (done || apply (bytes_ok_lookup _ 2%nat _ Hq eq_refl)).
  repeat (step_in H). by destruct (MessageType.from_u8 m).
Qed.

Lemma header_roundtrip h buf :
  wf h -> encoded_size h <= len buf ->
  exists buf', encode h buf = Ok (buf', encoded_size h) /\
    decode buf' = Ok (normalise h) /\ as_aad (E:=ProtocolError.t) h buf' = Ok (wire h) /\
    drop (Z.to_nat (encoded_size h)) buf' = drop (Z.to_nat (encoded_size h)) buf.
Proof.
  intros Hw Hs. exists (wire h ++ drop (length (wire h)) buf).
  assert (Z.to_nat (encoded_size h) = length (wire h)) as El
    by (rewrite <- len_wire; unfold len; lia).
  split_and!; [by apply encode_wire|by apply decode_wire| |].
  - unfold as_aad. apply (range_rest_at _ 0 _ (drop (length (wire h)) buf)).
    + apply rest_at_start.
    + by rewrite len_wire.
  - by rewrite El, drop_app_length.
Qed.

(** * Properties *)

(** A well-formed header encodes into any buffer with room for it, the
    bytes after it are untouched, and decoding the buffer returns the header
    with its timestamp flag made explicit.  The decoder accepts only canonical
    bytes: an accepted header is well formed, and encoding it over the same
    buffer changes nothing. *)
Lemma header_codec :
  (forall h buf, wf h -> encoded_size h <= len buf ->
     exists buf', encode h buf = Ok (buf', encoded_size h) /\
       decode buf' = Ok (normalise h) /\ as_aad (E:=ProtocolError.t) h buf' = Ok (wire h) /\
       drop (Z.to_nat (encoded_size h)) buf' = drop (Z.to_nat (encoded_size h)) buf) /\
  (forall buf h, bytes_ok buf -> decode buf = Ok h ->
     wf h /\ encode h buf = Ok (buf, encoded_size h)).
Proof.
  split; [exact header_roundtrip|]. intros buf h Hb H.
  destruct (decode_inv _ _ Hb H) as (Hw & _ & r & ->). split; [done|].
  rewrite encode_wire by (rewrite len_app, len_wire; pose proof (len_nonneg r); lia).
  by rewrite drop_app_length.
Qed.

End PacketHeader.
