(* ===== verification/ReplayWindow.v ===== *)
(** The anti-replay sliding window of hpn-core/src/protocol/session.rs
    ([AntiReplayWindow]): a highest counter and a bitmap of 64 words of 128
    bits, bit [d] (word [d / 128], position [d mod 128]) standing for counter
    [last_counter - d].

    The operations that check and mark a counter hold the bitmap lock for their
    whole body, so that such an operation is one atomic step and concurrent use
    is a sequence of steps.  [reset] stores the counter before it takes the
    lock; it is one step here because its caller, [Session::update_keys], has
    the session for itself. *)

From S2P Require Import Prelude Types.

Definition REPLAY_WINDOW_SIZE : Z := 8192.
Definition BITMAP_WORDS : nat := Z.to_nat (REPLAY_WINDOW_SIZE / 128).

Module AntiReplayWindow.

Record t := mk { last_counter : Z; bitmap : list Z }.

#[global] Instance t_eq_dec : EqDecision t.
Proof. solve_decision. Defined.

Definition new : t := mk 0 (replicate BITMAP_WORDS 0).

(** [for i in (lo..hi).rev() { bitmap[i] = f(bitmap, i) }] *)
Definition for_rev (lo hi : nat) (f : list Z -> nat -> Z) (bm : list Z) : list Z :=
  foldl (fun bm i => <[i := f bm i]> bm) bm (rev (seq lo (hi - lo))).

(** [bitmap.iter_mut().take(n)] set to zero *)
Definition clear_first (n : nat) (bm : list Z) : list Z :=
  imap (fun i w => if (i <? n)%nat then 0 else w) bm.

(** [x << b] on a 128-bit word *)
Definition shl128 (x b : Z) : Z := Z.shiftl x b mod 2 ^ 128.

Definition shift_bitmap (bm : list Z) (shift : Z) : list Z :=
  if REPLAY_WINDOW_SIZE <=? shift then map (fun _ => 0) bm
  else
    let word_shift := Z.to_nat (shift / 128) in
    let bit_shift := shift mod 128 in
    let bm :=
      if (0 <? word_shift)%nat then
        clear_first word_shift
          (for_rev word_shift BITMAP_WORDS (fun bm i => bm !!! (i - word_shift)%nat) bm)
      else bm in
    if 0 <? bit_shift then
      let bm :=
        for_rev 1 BITMAP_WORDS
          (fun bm i => Z.lor (shl128 (bm !!! i) bit_shift)
                             (Z.shiftr (bm !!! (i - 1)%nat) (128 - bit_shift))) bm in
      <[0%nat := shl128 (bm !!! 0%nat) bit_shift]> bm
    else bm.

Definition check_and_update (w : t) (counter : Z) : t * bool :=
  let last := last_counter w in
  if last <? counter then
    let shift := counter - last in
    let bm := shift_bitmap (bitmap w) shift in
    let bm := <[0%nat := Z.lor (bm !!! 0%nat) 1]> bm in
    (mk counter bm, true)
  else
    let diff := last - counter in
    if REPLAY_WINDOW_SIZE <=? diff then (w, false)
    else
      let word_idx := Z.to_nat (diff / 128) in
      let bit_idx := diff mod 128 in
      if (BITMAP_WORDS <=? word_idx)%nat then (w, false)
      else
        let mask := shl128 1 bit_idx in
        let word := bitmap w !!! word_idx in
        if negb (Z.land word mask =? 0) then (w, false)
        else (mk last (<[word_idx := Z.lor word mask]> (bitmap w)), true).

Definition check (w : t) (counter : Z) : bool :=
  let last := last_counter w in
  if last <? counter then true
  else
    let diff := last - counter in
    if REPLAY_WINDOW_SIZE <=? diff then false
    else
      let word_idx := Z.to_nat (diff / 128) in
      let bit_idx := diff mod 128 in
      if (BITMAP_WORDS <=? word_idx)%nat then false
      else
        let mask := shl128 1 bit_idx in
        Z.land (bitmap w !!! word_idx) mask =? 0.

(** Without a concurrent call. *)
Definition reset (w : t) : t := mk 0 (map (fun _ => 0) (bitmap w)).

Definition clone (w : t) : t := mk (last_counter w) (bitmap w).

(** * Bits of the bitmap *)

Definition bit (bm : list Z) (d : Z) : bool :=
  Z.testbit (bm !!! Z.to_nat (d / 128)) (d mod 128).

Definition wf_bitmap (bm : list Z) : Prop :=
  length bm = BITMAP_WORDS /\ Forall (uint 128) bm.

Lemma words_64 : BITMAP_WORDS = 64%nat.
Proof. reflexivity. Qed.

Lemma for_rev_spec lo n f bm :
  (forall bm bm' i, (forall k, (k <= i)%nat -> bm !! k = bm' !! k) -> f bm i = f bm' i) ->
  (lo + n <= length bm)%nat ->
  forall j, for_rev lo (lo + n) f bm !! j =
    if decide (lo <= j < lo + n)%nat then Some (f bm j) else bm !! j.
Proof.
  intros Hf. unfold for_rev. replace (lo + n - lo)%nat with n by lia.
  revert bm. induction n as [|n IH]; intros bm Hl j.
  - simpl. by rewrite decide_False by lia.
  - rewrite seq_S, rev_app_distr. simpl.
    rewrite IH by (rewrite length_insert; lia).
    destruct (decide (j = lo + n)%nat) as [->|Hj].
    + rewrite decide_False, decide_True by lia. rewrite list_lookup_insert_eq; [done|lia].
    + rewrite list_lookup_insert_ne by lia.
      destruct (decide (lo <= j < lo + n)%nat).
      * rewrite decide_True by lia. f_equal. apply Hf. intros k ?.
        by rewrite list_lookup_insert_ne by lia.
      * by rewrite decide_False by lia.
Qed.

Lemma length_for_rev lo hi f bm : length (for_rev lo hi f bm) = length bm.
Proof.
  unfold for_rev. generalize (rev (seq lo (hi - lo))) as l. intros l. revert bm.
  induction l as [|i l IH]; intros bm; simpl; [done|]. by rewrite IH, length_insert.
Qed.

Lemma lookup_total_spec (bm : list Z) i :
  (i < length bm)%nat -> bm !! i = Some (bm !!! i).
Proof. intros. by apply list_lookup_lookup_total_lt. Qed.

Lemma shl128_spec x b k :
  0 <= b -> 0 <= k < 128 -> Z.testbit (shl128 x b) k = Z.testbit x (k - b).
Proof.
  intros. unfold shl128. rewrite Z.mod_pow2_bits_low, Z.shiftl_spec by lia. done.
Qed.

Lemma shl128_u128 x b : uint 128 (shl128 x b).
Proof. unfold uint, shl128. apply Z.mod_pos_bound. lia. Qed.

Lemma testbit_u128 x k : uint 128 x -> 128 <= k -> Z.testbit x k = false.
Proof.
  intros [? ?] ?. destruct (decide (x = 0)) as [->|]; [apply Z.bits_0|].
  apply Z.bits_above_log2; [lia|]. apply Z.log2_lt_pow2; [lia|].
  apply Z.lt_le_trans with (2 ^ 128); [done|]. apply Z.pow_le_mono_r; lia.
Qed.

Lemma lor_u128 x y : uint 128 x -> uint 128 y -> uint 128 (Z.lor x y).
Proof.
  intros [? Hx] [? Hy]. split; [apply Z.lor_nonneg; lia|].
  destruct (decide (Z.lor x y = 0)) as [->|]; [lia|].
  apply Z.log2_lt_pow2; [apply Z.le_neq; split; [apply Z.lor_nonneg; lia|done]|].
  rewrite Z.log2_lor by lia.
  apply Z.max_lub_lt; (destruct (decide (x = 0)); destruct (decide (y = 0)); subst;
    first [apply Z.log2_lt_pow2; lia | simpl; lia]).
Qed.

Lemma shiftr_u128 x b : 0 <= b -> uint 128 x -> uint 128 (Z.shiftr x b).
Proof.
  intros Hb [? ?]. unfold uint. rewrite Z.shiftr_div_pow2 by done.
  pose proof (Z.pow_pos_nonneg 2 b). split; [apply Z.div_pos; lia|].
  apply Z.le_lt_trans with x; [|done]. apply Z.div_le_upper_bound; nia.
Qed.

Lemma wf_bitmap_intro bm :
  length bm = BITMAP_WORDS ->
  (forall j, (j < BITMAP_WORDS)%nat -> uint 128 (bm !!! j)) -> wf_bitmap bm.
Proof.
  intros Hl H. split; [done|]. apply Forall_lookup. intros i x Hx.
  rewrite <- (list_lookup_total_correct _ _ _ Hx). apply H.
  rewrite <- Hl. by apply lookup_lt_Some in Hx.
Qed.

Lemma wf_bitmap_word bm j : wf_bitmap bm -> uint 128 (bm !!! j).
Proof.
  intros [Hl H]. destruct (decide (j < length bm)%nat) as [Hj|Hj].
  - eapply Forall_lookup; [exact H|]. by apply lookup_total_spec.
  - rewrite list_lookup_total_alt, lookup_ge_None_2 by lia. done.
Qed.

Lemma lookup_total_of (l : list Z) i x : l !! i = Some x -> l !!! i = x.
Proof. apply list_lookup_total_correct. Qed.

(** Shifting by whole words. *)
Definition word_shifted (ws : nat) (bm : list Z) : list Z :=
  if (0 <? ws)%nat then
    clear_first ws (for_rev ws BITMAP_WORDS (fun bm i => bm !!! (i - ws)%nat) bm)
  else bm.

Lemma word_shifted_lookup ws bm j :
  length bm = BITMAP_WORDS -> (ws <= BITMAP_WORDS)%nat -> (j < BITMAP_WORDS)%nat ->
  word_shifted ws bm !!! j = if decide (j < ws)%nat then 0 else bm !!! (j - ws)%nat.
Proof.
  intros Hl Hws Hj. unfold word_shifted. destruct (0 <? ws)%nat eqn:E.
  - apply lookup_total_of. unfold clear_first. rewrite list_lookup_imap.
    replace BITMAP_WORDS with (ws + (BITMAP_WORDS - ws))%nat at 1 by lia.
    rewrite for_rev_spec; [| |lia].
    2:{ intros b b' i H. rewrite !list_lookup_total_alt, H by lia. done. }
    destruct (decide (j < ws)%nat).
    + rewrite decide_False by lia. rewrite lookup_total_spec by lia. simpl.
      by rewrite (proj2 (Nat.ltb_lt j ws)).
    + rewrite decide_True by lia. simpl. by rewrite (proj2 (Nat.ltb_ge j ws)) by lia.
  - apply Nat.ltb_ge in E. rewrite decide_False by lia. f_equal. lia.
Qed.

Lemma word_shifted_wf ws bm :
  (ws <= BITMAP_WORDS)%nat -> wf_bitmap bm -> wf_bitmap (word_shifted ws bm).
Proof.
  intros Hws Hw. apply wf_bitmap_intro.
  - unfold word_shifted, clear_first. destruct (0 <? ws)%nat; [|apply Hw].
    rewrite length_imap, length_for_rev. apply Hw.
  - intros j Hj. rewrite word_shifted_lookup by (done || apply Hw).
    case_decide; [done|]. by apply wf_bitmap_word.
Qed.

(** Shifting by less than a word. *)
Definition bit_shifted (bs : Z) (bm : list Z) : list Z :=
  let bm :=
    for_rev 1 BITMAP_WORDS
      (fun bm i => Z.lor (shl128 (bm !!! i) bs) (Z.shiftr (bm !!! (i - 1)%nat) (128 - bs))) bm in
  <[0%nat := shl128 (bm !!! 0%nat) bs]> bm.

Lemma bit_shifted_lookup bs bm j :
  length bm = BITMAP_WORDS -> (j < BITMAP_WORDS)%nat ->
  bit_shifted bs bm !!! j =
    if decide (j = 0)%nat then shl128 (bm !!! 0%nat) bs
    else Z.lor (shl128 (bm !!! j) bs) (Z.shiftr (bm !!! (j - 1)%nat) (128 - bs)).
Proof.
  intros Hl Hj. unfold bit_shifted. set (f := fun (bm : list Z) (i : nat) => Z.lor _ _).
  assert (forall j, for_rev 1 BITMAP_WORDS f bm !! j =
    if decide (1 <= j < BITMAP_WORDS)%nat then Some (f bm j) else bm !! j) as Hf.
  { apply (for_rev_spec 1 63); [|rewrite Hl; by vm_compute].
    intros b b' i H. unfold f. rewrite !list_lookup_total_alt, !H by lia. done. }
  apply lookup_total_of. case_decide; [subst j|].
  - rewrite list_lookup_insert_eq by (rewrite length_for_rev; lia).
    do 2 f_equal. apply lookup_total_of. rewrite Hf, decide_False by lia.
    apply lookup_total_spec. lia.
  - rewrite list_lookup_insert_ne, Hf, decide_True by lia. done.
Qed.

Lemma bit_shifted_wf bs bm :
  0 <= bs <= 128 -> wf_bitmap bm -> wf_bitmap (bit_shifted bs bm).
Proof.
  intros Hb Hw. apply wf_bitmap_intro.
  - unfold bit_shifted. rewrite length_insert, length_for_rev. apply Hw.
  - intros j Hj. rewrite bit_shifted_lookup by (done || apply Hw).
    case_decide; [apply shl128_u128|].
    apply lor_u128; [apply shl128_u128|]. apply shiftr_u128; [lia|]. by apply wf_bitmap_word.
Qed.

Lemma shift_bitmap_eq bm shift :
  shift < REPLAY_WINDOW_SIZE ->
  shift_bitmap bm shift =
    let bm1 := word_shifted (Z.to_nat (shift / 128)) bm in
    if 0 <? shift mod 128 then bit_shifted (shift mod 128) bm1 else bm1.
Proof.
  intros H. unfold shift_bitmap. rewrite (proj2 (Z.leb_gt _ _) H).
  unfold word_shifted, bit_shifted. reflexivity.
Qed.

Lemma word_index d : 0 <= d < REPLAY_WINDOW_SIZE -> (Z.to_nat (d / 128) < BITMAP_WORDS)%nat.
Proof.
  intros. rewrite words_64. unfold REPLAY_WINDOW_SIZE in *.
  assert (d / 128 < 64) by (apply Z.div_lt_upper_bound; lia).
  assert (0 <= d / 128) by (apply Z.div_pos; lia). lia.
Qed.

Lemma bit_word_shifted ws bm d :
  length bm = BITMAP_WORDS -> (ws <= BITMAP_WORDS)%nat -> 0 <= d < REPLAY_WINDOW_SIZE ->
  bit (word_shifted ws bm) d = (128 * Z.of_nat ws <=? d) && bit bm (d - 128 * Z.of_nat ws).
Proof.
  intros Hl Hws Hd. unfold bit. rewrite word_shifted_lookup by (auto using word_index).
  pose proof (Z.div_mod d 128). pose proof (Z.mod_pos_bound d 128).
  case_decide.
  - decide_ltb. apply Z.bits_0.
  - decide_ltb. simpl.
    replace (d - 128 * Z.of_nat ws) with (d + - Z.of_nat ws * 128) by lia.
    rewrite Z.div_add, Z.mod_add by lia. do 2 f_equal. lia.
Qed.

Lemma bit_bit_shifted bs bm d :
  wf_bitmap bm -> 0 < bs < 128 -> 0 <= d < REPLAY_WINDOW_SIZE ->
  bit (bit_shifted bs bm) d = (bs <=? d) && bit bm (d - bs).
Proof.
  intros Hw Hb Hd. unfold bit at 1. rewrite bit_shifted_lookup by (apply Hw || by apply word_index).
  pose proof (Z.div_mod d 128). pose proof (Z.mod_pos_bound d 128).
  pose proof (Z.div_pos d 128). set (j := d / 128) in *. set (k := d mod 128) in *.
  destruct (decide (bs <= k)).
  - assert (bit bm (d - bs) = Z.testbit (bm !!! Z.to_nat j) (k - bs)) as ->.
    { unfold bit. replace ((d - bs) / 128) with j by (apply (Z.div_unique _ _ _ (k - bs)); lia).
      replace ((d - bs) mod 128) with (k - bs) by (apply (Z.mod_unique _ _ j); lia). done. }
    decide_ltb. simpl andb. case_decide as Hj.
    + rewrite shl128_spec by lia. do 2 f_equal. lia.
    + rewrite Z.lor_spec, shl128_spec, Z.shiftr_spec by lia.
      rewrite (testbit_u128 (bm !!! (_ - 1)%nat)) by (lia || by apply wf_bitmap_word).
      apply orb_false_r.
  - case_decide as Hj.
    + decide_ltb. rewrite shl128_spec, Z.testbit_neg_r by lia. done.
    + decide_ltb. simpl andb. unfold bit.
      replace ((d - bs) / 128) with (j - 1) by (apply (Z.div_unique _ _ _ (k + 128 - bs)); lia).
      replace ((d - bs) mod 128) with (k + 128 - bs) by (apply (Z.mod_unique _ _ (j - 1)); lia).
      rewrite Z.lor_spec, shl128_spec, Z.shiftr_spec, Z.testbit_neg_r by lia.
      simpl. f_equal; [f_equal; lia|lia].
Qed.

Lemma shift_bitmap_wf bm shift :
  0 <= shift -> wf_bitmap bm -> wf_bitmap (shift_bitmap bm shift).
Proof.
  intros Hs Hw. destruct (Z.lt_ge_cases shift REPLAY_WINDOW_SIZE) as [Hlt|Hge].
  - rewrite shift_bitmap_eq by done. cbv zeta.
    pose proof (word_index shift ltac:(lia)). pose proof (Z.mod_pos_bound shift 128).
    destruct (0 <? shift mod 128); [apply bit_shifted_wf; [lia|]|];
      apply word_shifted_wf; (lia || done).
  - unfold shift_bitmap. rewrite (proj2 (Z.leb_le _ _) Hge). destruct Hw as [Hl Hw].
    split; [by rewrite length_map|]. apply Forall_map, Forall_true. done.
Qed.

(** The word-wise shift moves bit [d] to [d + shift] and fills with zeros. *)
Lemma bit_shift_bitmap bm shift d :
  wf_bitmap bm -> 0 <= shift -> 0 <= d < REPLAY_WINDOW_SIZE ->
  bit (shift_bitmap bm shift) d = (shift <=? d) && bit bm (d - shift).
Proof.
  intros Hw Hs Hd. destruct (Z.lt_ge_cases shift REPLAY_WINDOW_SIZE) as [Hlt|Hge].
  - rewrite shift_bitmap_eq by done. cbv zeta.
    pose proof (word_index shift ltac:(lia)).
    pose proof (Z.div_mod shift 128). pose proof (Z.mod_pos_bound shift 128).
    pose proof (Z.div_pos shift 128). pose proof (Z.div_pos d 128).
    assert (wf_bitmap (word_shifted (Z.to_nat (shift / 128)) bm))
      by (apply word_shifted_wf; [lia|done]).
    destruct (0 <? shift mod 128) eqn:E; b2p.
    + rewrite bit_bit_shifted by (done || lia).
      destruct (shift mod 128 <=? d) eqn:E1; b2p; [|by decide_ltb].
      rewrite bit_word_shifted by (apply Hw || lia). rewrite Z2Nat.id by lia. simpl.
      destruct (shift <=? d) eqn:E2; b2p; decide_ltb; [simpl; f_equal; lia|done].
    + rewrite bit_word_shifted by (apply Hw || lia). rewrite Z2Nat.id by lia.
      replace (128 * (shift / 128)) with shift by lia. done.
  - decide_ltb. unfold shift_bitmap. rewrite (proj2 (Z.leb_le _ _) Hge).
    unfold bit. rewrite list_lookup_total_alt, list_lookup_fmap.
    rewrite lookup_total_spec; [apply Z.bits_0|]. destruct Hw as [-> _]. by apply word_index.
Qed.

(** Setting one bit of one word. *)
Lemma bit_set bm e d :
  wf_bitmap bm -> 0 <= e < REPLAY_WINDOW_SIZE -> 0 <= d < REPLAY_WINDOW_SIZE ->
  bit (<[Z.to_nat (e / 128) := Z.lor (bm !!! Z.to_nat (e / 128)) (shl128 1 (e mod 128))]> bm) d
  = bool_decide (d = e) || bit bm d.
Proof.
  intros Hw He Hd. unfold bit.
  pose proof (Z.div_mod d 128). pose proof (Z.mod_pos_bound d 128).
  pose proof (Z.div_mod e 128). pose proof (Z.mod_pos_bound e 128).
  pose proof (Z.div_pos d 128). pose proof (Z.div_pos e 128).
  pose proof (word_index e He).
  destruct (decide (d / 128 = e / 128)) as [Eq|Ne].
  - rewrite Eq, list_lookup_total_insert_eq by (destruct Hw as [-> _]; done).
    rewrite Z.lor_spec, shl128_spec by lia. rewrite orb_comm. f_equal.
    destruct (decide (d = e)) as [->|]; [rewrite Z.sub_diag; by rewrite bool_decide_true|].
    rewrite bool_decide_false by done.
    destruct (Z.lt_ge_cases (d mod 128) (e mod 128)); [by rewrite Z.testbit_neg_r by lia|].
    apply Z.bits_above_log2; simpl; lia.
  - rewrite list_lookup_total_insert_ne by lia. rewrite bool_decide_false by congruence. done.
Qed.

Lemma set_bit_wf bm i x : wf_bitmap bm -> uint 128 x -> wf_bitmap (<[i := x]> bm).
Proof.
  intros [Hl Hw] Hx. split; [by rewrite length_insert|]. by apply Forall_insert.
Qed.

Lemma bit_test bm d :
  0 <= d -> (Z.land (bm !!! Z.to_nat (d / 128)) (shl128 1 (d mod 128)) =? 0) = negb (bit bm d).
Proof.
  intros Hd. pose proof (Z.mod_pos_bound d 128). unfold bit.
  set (x := bm !!! _). set (k := d mod 128) in *.
  assert (forall i, Z.testbit (shl128 1 k) i = bool_decide (i = k)) as Hm.
  { intros i. unfold shl128. rewrite Z.shiftl_1_l, Z.mod_small
      by (split; [lia|]; apply Z.pow_lt_mono_r; lia).
    rewrite Z.pow2_bits_eqb by lia. case_bool_decide; [subst; apply Z.eqb_refl|].
    apply Z.eqb_neq. lia. }
  destruct (Z.testbit x k) eqn:Ex; simpl.
  - apply Z.eqb_neq. intros H0. assert (Z.testbit (Z.land x (shl128 1 k)) k = false)
      by (rewrite H0; apply Z.bits_0).
    rewrite Z.land_spec, Hm, bool_decide_true, Ex in *; done.
  - apply Z.eqb_eq. apply Z.bits_inj'. intros i _. rewrite Z.bits_0, Z.land_spec, Hm.
    case_bool_decide; [subst; by rewrite Ex|apply andb_false_r].
Qed.

(** * Abstract specification

    The window promises to behave like the highest counter together with the
    set of all counters ever accepted: a counter is accepted when it is above
    the highest, or less than 8192 below it and not yet in the set. *)

Record spec := mk_spec { hi : Z; seen : gset Z }.

Definition spec_new : spec := mk_spec 0 ∅.

Definition spec_accepts (s : spec) (c : Z) : bool :=
  (hi s <? c) || ((hi s - c <? REPLAY_WINDOW_SIZE) && negb (bool_decide (c ∈ seen s))).

Definition spec_step (s : spec) (c : Z) : spec * bool :=
  if spec_accepts s c then (mk_spec (Z.max (hi s) c) ({[ c ]} ∪ seen s), true) else (s, false).

(** The abstraction relation. *)
Definition refines (w : t) (s : spec) : Prop :=
  wf_bitmap (bitmap w) /\ last_counter w = hi s /\ 0 <= hi s /\
  (forall c, c ∈ seen s -> 0 <= c <= hi s) /\
  (forall d, 0 <= d < REPLAY_WINDOW_SIZE ->
     bit (bitmap w) d = bool_decide (hi s - d ∈ seen s)).

Lemma bit_zero bm d :
  length bm = BITMAP_WORDS -> 0 <= d < REPLAY_WINDOW_SIZE ->
  (forall w, w ∈ bm -> w = 0) -> bit bm d = false.
Proof.
  intros Hl Hd H. unfold bit. rewrite (H (bm !!! _)); [apply Z.bits_0|].
  eapply list_elem_of_lookup_2, lookup_total_spec. rewrite Hl. by apply word_index.
Qed.

Lemma refines_zero bm :
  length bm = BITMAP_WORDS -> (forall w, w ∈ bm -> w = 0) -> refines (mk 0 bm) spec_new.
Proof.
  intros Hl Hz. unfold refines; simpl. split_and!; [|done|lia|set_solver|].
  - split; [done|]. apply Forall_forall. intros x Hx. by rewrite (Hz x Hx).
  - intros d Hd. rewrite bit_zero by done. by rewrite bool_decide_false by set_solver.
Qed.

Lemma refines_new : refines new spec_new.
Proof.
  apply refines_zero; [reflexivity|]. intros w Hw. by apply elem_of_replicate in Hw as [-> _].
Qed.

Lemma refines_reset w s : refines w s -> refines (reset w) spec_new.
Proof.
  intros [[Hl _] _]. apply refines_zero; [by rewrite length_map|].
  intros x Hx. by apply list_elem_of_fmap in Hx as (? & -> & _).
Qed.

Lemma check_accepts w s c : refines w s -> 0 <= c -> check w c = spec_accepts s c.
Proof.
  intros (Hw & Hl & H0 & Hseen & Hb) Hc. unfold check, spec_accepts. cbv zeta. rewrite Hl.
  destruct (hi s <? c) eqn:E; b2p; [done|]. cbn [orb].
  destruct (hi s - c <? REPLAY_WINDOW_SIZE) eqn:E1; b2p.
  - rewrite (proj2 (Z.leb_gt _ _) E1).
    rewrite (proj2 (Nat.leb_gt _ _)) by (apply word_index; lia).
    rewrite bit_test, Hb by lia. by replace (hi s - (hi s - c)) with c by lia.
  - by rewrite (proj2 (Z.leb_le _ _) E1).
Qed.

Lemma check_and_update_check w c : snd (check_and_update w c) = check w c.
Proof.
  unfold check_and_update, check. cbv zeta.
  destruct (last_counter w <? c); [done|].
  destruct (REPLAY_WINDOW_SIZE <=? last_counter w - c); [done|].
  destruct (BITMAP_WORDS <=? _)%nat; [done|].
  by destruct (Z.land _ _ =? 0).
Qed.

(** A refused counter leaves the window as it was. *)
Lemma check_and_update_refused w c :
  snd (check_and_update w c) = false -> fst (check_and_update w c) = w.
Proof.
  unfold check_and_update. cbv zeta.
  destruct (last_counter w <? c); [done|].
  destruct (REPLAY_WINDOW_SIZE <=? last_counter w - c); [done|].
  destruct (BITMAP_WORDS <=? _)%nat; [done|].
  by destruct (negb _).
Qed.

Lemma refines_advance w s c :
  refines w s -> hi s < c ->
  refines (fst (check_and_update w c)) (mk_spec c ({[ c ]} ∪ seen s)).
Proof.
  intros (Hw & Hl & H0 & Hseen & Hb) Hc. unfold check_and_update. cbv zeta. rewrite Hl. decide_ltb.
  set (bm := shift_bitmap (bitmap w) (c - hi s)).
  assert (wf_bitmap bm) as Hbm by (apply shift_bitmap_wf; [lia|done]).
  assert (forall d, 0 <= d < REPLAY_WINDOW_SIZE ->
    bit (<[0%nat := Z.lor (bm !!! 0%nat) 1]> bm) d = bool_decide (d = 0) ||
      ((c - hi s <=? d) && bit (bitmap w) (d - (c - hi s)))) as Hset.
  { intros d Hd. rewrite <- bit_shift_bitmap by (done || lia).
    apply (bit_set bm 0 d); [done|by vm_compute|done]. }
  clearbody bm. unfold refines; simpl. split_and!; [|done|lia| |].
  - apply set_bit_wf; [done|]. apply lor_u128; [by apply wf_bitmap_word|]. by vm_compute.
  - intros x Hx. apply elem_of_union in Hx as [?%elem_of_singleton|Hx]; [lia|].
    specialize (Hseen x Hx). lia.
  - intros d Hd. rewrite Hset by done.
    destruct (decide (d = 0)) as [->|].
    { rewrite (bool_decide_true (0 = 0)) by done. symmetry. apply bool_decide_true.
      rewrite Z.sub_0_r, elem_of_union, elem_of_singleton. by left. }
    rewrite bool_decide_false by done. simpl.
    destruct (c - hi s <=? d) eqn:E; b2p; simpl.
    + rewrite Hb by lia. replace (hi s - (d - (c - hi s))) with (c - d) by lia.
      apply bool_decide_ext. rewrite elem_of_union, elem_of_singleton. intuition lia.
    + symmetry. apply bool_decide_false. rewrite elem_of_union, elem_of_singleton.
      intros [?|Hx]; [lia|]. specialize (Hseen _ Hx). lia.
Qed.

Lemma refines_mark w s c :
  refines w s -> 0 <= c <= hi s -> hi s - c < REPLAY_WINDOW_SIZE -> c ∉ seen s ->
  refines (fst (check_and_update w c)) (mk_spec (hi s) ({[ c ]} ∪ seen s)).
Proof.
  intros (Hw & Hl & H0 & Hseen & Hb) Hc Hd Hn. unfold check_and_update. cbv zeta. rewrite Hl.
  rewrite (proj2 (Z.ltb_ge _ _)) by lia. rewrite (proj2 (Z.leb_gt _ _) Hd).
  rewrite (proj2 (Nat.leb_gt _ _)) by (apply word_index; lia).
  rewrite bit_test, Hb by lia. replace (hi s - (hi s - c)) with c by lia.
  rewrite bool_decide_false by done. simpl negb. cbv iota. simpl fst.
  pose proof (bit_set (bitmap w) (hi s - c)) as Hset.
  set (bm := <[_ := _]> (bitmap w)) in *.
  assert (wf_bitmap bm) as Hbm.
  { apply set_bit_wf; [done|]. apply lor_u128; [by apply wf_bitmap_word|apply shl128_u128]. }
  clearbody bm. unfold refines; simpl. split_and!; [done|done|lia| |].
  - intros x Hx. apply elem_of_union in Hx as [?%elem_of_singleton|Hx]; [lia|]. by apply Hseen.
  - intros d Hd'. rewrite Hset, Hb by (done || lia).
    destruct (decide (d = hi s - c)) as [->|].
    + rewrite (bool_decide_true (hi s - c = _)) by done. simpl. symmetry.
      apply bool_decide_true. replace (hi s - (hi s - c)) with c by lia.
      rewrite elem_of_union, elem_of_singleton. by left.
    + rewrite (bool_decide_false (d = _)) by done. simpl. apply bool_decide_ext.
      rewrite elem_of_union, elem_of_singleton. intuition lia.
Qed.

Lemma refines_reject w s c :
  refines w s -> 0 <= c -> spec_accepts s c = false -> fst (check_and_update w c) = w.
Proof.
  intros HR Hc Ha. rewrite <- (check_accepts w s c HR Hc), <- check_and_update_check in Ha.
  by apply check_and_update_refused.
Qed.

(** One step of the window is one step of the specification. *)
Lemma refines_step w s c :
  refines w s -> 0 <= c ->
  refines (fst (check_and_update w c)) (fst (spec_step s c)) /\
  snd (check_and_update w c) = snd (spec_step s c).
Proof.
  intros HR Hc. rewrite check_and_update_check, (check_accepts w s c HR Hc).
  unfold spec_step. destruct (spec_accepts s c) eqn:E; simpl.
  - split; [|done]. unfold spec_accepts in E. apply orb_prop in E as [E|E]; b2p.
    + rewrite Z.max_r by lia. by apply refines_advance.
    + destruct (Z.lt_ge_cases (hi s) c).
      * rewrite Z.max_r by lia. by apply refines_advance.
      * rewrite Z.max_l by lia. by apply refines_mark.
  - split; [|done]. by rewrite (refines_reject w s c).
Qed.

(** * Histories

    [run w cs] presents the counters [cs] in order; [accepted w cs] are those
    the window lets through. *)

Fixpoint run (w : t) (cs : list Z) : t * list bool :=
  match cs with
  | [] => (w, [])
  | c :: cs =>
      let '(w, ok) := check_and_update w c in
      let '(w, oks) := run w cs in
      (w, ok :: oks)
  end.

Fixpoint accepted (w : t) (cs : list Z) : list Z :=
  match cs with
  | [] => []
  | c :: cs =>
      let '(w, ok) := check_and_update w c in
      if ok then c :: accepted w cs else accepted w cs
  end.

Fixpoint spec_run (s : spec) (cs : list Z) : spec * list bool :=
  match cs with
  | [] => (s, [])
  | c :: cs =>
      let '(s, ok) := spec_step s c in
      let '(s, oks) := spec_run s cs in
      (s, ok :: oks)
  end.

Lemma run_refines w s cs :
  refines w s -> Forall (fun c => 0 <= c) cs ->
  refines (fst (run w cs)) (fst (spec_run s cs)) /\
  snd (run w cs) = snd (spec_run s cs).
Proof.
  intros HR Hcs. revert w s HR. induction Hcs as [|c cs Hc _ IH]; intros w s HR; [done|]. simpl.
  pose proof (refines_step w s c HR Hc) as [HR' Hok].
  destruct (check_and_update w c) as [w' ok], (spec_step s c) as [s' ok']. simpl in *.
  specialize (IH w' s' HR') as [HR'' Hoks].
  destruct (run w' cs), (spec_run s' cs). simpl in *. by subst.
Qed.

(** The set the specification ends with is what was accepted, and its bound is
    the largest counter accepted. *)
Lemma run_seen w s cs :
  refines w s -> Forall (fun c => 0 <= c) cs ->
  (forall c, c ∈ seen (fst (spec_run s cs)) <-> c ∈ seen s \/ c ∈ accepted w cs) /\
  hi (fst (spec_run s cs)) = foldr Z.max (hi s) (accepted w cs).
Proof.
  intros HR Hcs. revert w s HR. induction Hcs as [|c cs Hc _ IH]; intros w s HR; simpl.
  { split; [|done]. intros c. rewrite elem_of_nil. tauto. }
  pose proof (refines_step w s c HR Hc) as [HR' Hok].
  destruct (check_and_update w c) as [w' ok]. simpl in Hok, HR'.
  unfold spec_step in *. destruct (spec_accepts s c); simpl in *; subst ok.
  - specialize (IH w' _ HR') as [Hs Hh]. destruct (spec_run _ cs). simpl in *. split.
    + intros x. rewrite Hs, elem_of_union, elem_of_singleton, elem_of_cons. tauto.
    + rewrite Hh. clear. induction (accepted w' cs); simpl; lia.
  - specialize (IH w' _ HR') as [Hs Hh]. by destruct (spec_run s cs).
Qed.

Lemma spec_accepts_fresh w s c (P : Prop) :
  refines w s -> spec_accepts s c = true -> c ∈ seen s -> P.
Proof.
  intros (_ & _ & _ & Hb & _) E Hx. specialize (Hb _ Hx). unfold spec_accepts in E.
  rewrite bool_decide_true, (proj2 (Z.ltb_ge _ _)) in E by (done || lia).
  by rewrite andb_false_r in E.
Qed.

Lemma accepted_fresh w s cs :
  refines w s -> Forall (fun c => 0 <= c) cs ->
  NoDup (accepted w cs) /\ forall c, c ∈ seen s -> c ∉ accepted w cs.
Proof.
  intros HR Hcs. revert w s HR. induction Hcs as [|c cs Hc _ IH]; intros w s HR; simpl.
  { split; [constructor|]. intros. apply not_elem_of_nil. }
  pose proof (refines_step w s c HR Hc) as [HR' Hok].
  destruct (check_and_update w c) as [w' ok]. simpl in Hok, HR'.
  unfold spec_step in *. destruct (spec_accepts s c) eqn:E; simpl in *; subst ok.
  - specialize (IH w' _ HR') as [Hnd Hfr]. simpl in Hfr. split.
    + constructor; [|done]. apply Hfr. set_solver.
    + intros x Hx. rewrite not_elem_of_cons. split; [|apply Hfr; set_solver].
      intros ->. by apply (spec_accepts_fresh w s c).
  - by apply (IH w').
Qed.

Lemma u64_nonneg cs : Forall u64 cs -> Forall (fun c => 0 <= c) cs.
Proof. intros H. eapply Forall_impl; [exact H|]. unfold uint. simpl. lia. Qed.

(** What the window accepts, exactly.  After any history, a counter is let
    through if and only if it was not let through before and it is less than
    8192 below the highest counter let through so far. *)
Lemma window_accepts_exactly cs c :
  Forall u64 cs -> u64 c ->
  (snd (check_and_update (fst (run new cs)) c) = true <->
   (c ∉ accepted new cs) /\ foldr Z.max 0 (accepted new cs) - c < REPLAY_WINDOW_SIZE).
Proof.
  intros Hcs%u64_nonneg Hc.
  destruct (run_refines _ _ cs refines_new Hcs) as [HR _].
  destruct (run_seen _ _ cs refines_new Hcs) as [Hs Hh].
  assert (0 <= c) by (unfold uint in Hc; lia).
  rewrite check_and_update_check, (check_accepts _ _ _ HR) by done.
  destruct HR as (_ & _ & _ & Hb & _). unfold spec_accepts.
  change (hi spec_new) with 0 in Hh. rewrite <- Hh. rewrite orb_true_iff, andb_true_iff, negb_true_iff, !Z.ltb_lt.
  rewrite bool_decide_eq_false, Hs. split.
  - intros [Hlt|[Hw Hn]].
    + split; [|unfold REPLAY_WINDOW_SIZE; lia]. intros Ha.
      assert (c ∈ seen (fst (spec_run spec_new cs))) as Hin by (rewrite Hs; by right).
      specialize (Hb _ Hin). lia.
    + split; [tauto|done].
  - intros [Hn Hw]. right. split; [done|]. intros [?|?]; [set_solver|done].
Qed.

(** * Properties *)

(** C6: the window implements its contract.  On every sequence of counters,
    in any order and with repetitions, the bitmap window and the abstract
    window (highest counter and set of accepted counters) take the same
    decisions, and end in related states; so a further counter is let through
    if and only if it was not let through before and it is less than 8192
    below the highest counter let through so far. *)
Theorem window_refines_spec cs :
  Forall u64 cs ->
  snd (run new cs) = snd (spec_run spec_new cs) /\
  refines (fst (run new cs)) (fst (spec_run spec_new cs)) /\
  forall c, u64 c ->
    (snd (check_and_update (fst (run new cs)) c) = true <->
     (c ∉ accepted new cs) /\ foldr Z.max 0 (accepted new cs) - c < REPLAY_WINDOW_SIZE).
Proof.
  intros H. destruct (run_refines new spec_new cs refines_new (u64_nonneg _ H)).
  split; [done|]. split; [done|]. intros c. by apply window_accepts_exactly.
Qed.

Lemma window_refines_spec_witness :
  snd (run new [0; 5; 3; 5; 9000; 3; 809; 808]) =
    [true; true; true; false; true; false; true; false] /\
  snd (check_and_update (fst (run new [10000; 7])) 1809) = true.
Proof.
  destruct (window_refines_spec [0; 5; 3; 5; 9000; 3; 809; 808]) as [-> _]; [by_decide|].
  split; [vm_compute; reflexivity|].
  destruct (window_refines_spec [10000; 7]) as (_ & _ & H); [by_decide|].
  apply (H 1809); [by_decide|]. split; [by_decide|vm_compute; reflexivity].
Defined.

(** No counter is accepted twice, whatever the traffic. *)
Lemma window_never_accepts_twice cs : Forall u64 cs -> NoDup (accepted new cs).
Proof.
  intros H. apply (accepted_fresh _ _ cs refines_new (u64_nonneg _ H)).
Qed.

End AntiReplayWindow.
