(* ===== verification/Aead.v ===== *)
(** AES-256-GCM as hpn-core/src/crypto/aead.rs uses it.

    The cipher itself is the [ring] crate: a class of operations with the laws
    the code relies on.  Output buffers are returned updated; what a failed
    call leaves in them is not tracked, [ring] leaves it unspecified. *)

From S2P Require Import Prelude Types.

Definition NONCE_SIZE : Z := 12.
Definition TAG_SIZE : Z := 16.
Definition KEY_SIZE : Z := 32.

(** [ring::aead]: [UnboundKey::new] with [LessSafeKey::new],
    [Nonce::try_assume_unique_for_key], [seal_in_place_separate_tag] (the
    sealed buffer and the tag) and [open_in_place] (the buffer it leaves and,
    when the tag is right, how many of its first bytes are plaintext). *)
Class RingAead := {
  LessSafeKey : Type;
  Nonce : Type;
  LessSafeKey_new : list Z -> option LessSafeKey;
  try_assume_unique_for_key : list Z -> option Nonce;
  seal_in_place_separate_tag :
    LessSafeKey -> Nonce -> list Z -> list Z -> option (list Z * list Z);
  open_in_place :
    LessSafeKey -> Nonce -> list Z -> list Z -> list Z * option Z;
}.

(** What [ring] documents: keys of 32 and nonces of 12 bytes are taken, inputs
    up to the GCM limit are sealed to the same length with a 16-byte tag,
    opening inverts sealing, and opening succeeds only on what sealing the
    recovered plaintext produces (the tag is recomputed and compared). *)
Definition MAX_SEAL : Z := (2 ^ 32 - 2) * 16.

Class RingAeadLaws `{RingAead} : Prop := {
  LessSafeKey_new_32 k : len k = KEY_SIZE -> is_Some (LessSafeKey_new k);
  nonce_12 n : len n = NONCE_SIZE -> is_Some (try_assume_unique_for_key n);
  seal_ok key n aad p :
    bytes_ok p -> len p <= MAX_SEAL ->
    exists c tag, seal_in_place_separate_tag key n aad p = Some (c, tag) /\
      len c = len p /\ len tag = TAG_SIZE /\ bytes_ok c /\ bytes_ok tag;
  open_seal key n aad p c tag :
    bytes_ok p ->
    seal_in_place_separate_tag key n aad p = Some (c, tag) ->
    exists rest, open_in_place key n aad (c ++ tag) = (p ++ rest, Some (len p)) /\
      len rest = TAG_SIZE;
  seal_open key n aad buf buf' m :
    bytes_ok buf ->
    open_in_place key n aad buf = (buf', Some m) ->
    m = len buf - TAG_SIZE /\ len buf' = len buf /\ 0 <= m /\ bytes_ok buf' /\
    exists c tag, seal_in_place_separate_tag key n aad (slice buf' 0 m) = Some (c, tag) /\
      buf = c ++ tag;
}.

Definition build_nonce {E} (nonce_prefix : list Z) (counter : Z) : result E (list Z) :=
  let nonce := replicate 12 0 in
  let? nonce := copy_from_slice nonce 0 4 nonce_prefix in
  copy_from_slice nonce 4 12 (be_bytes 8 counter).

Section WithRing.
Context `{R : RingAead}.

(** Sealing and opening a sub-slice [buf[a..b]] in place. *)
Definition seal_slice (key : LessSafeKey) (nonce : Nonce) (aad buf : list Z) (a b : Z)
    : result CryptoError.t (list Z * list Z) :=
  let? part := range buf a b in
  let? (sealed, tag) :=
    ok_or CryptoError.Encryption (seal_in_place_separate_tag key nonce aad part) in
  let? buf := copy_from_slice buf a b sealed in
  Ok (buf, tag).

Definition open_slice (key : LessSafeKey) (nonce : Nonce) (aad buf : list Z) (a b : Z)
    : result CryptoError.t (list Z * Z) :=
  let? part := range buf a b in
  let '(opened, n) := open_in_place key nonce aad part in
  let? n := ok_or CryptoError.Decryption n in
  let? buf := copy_from_slice buf a b opened in
  Ok (buf, n).

End WithRing.

Module PrecomputedKey.

Section WithRing.
Context `{R : RingAead}.

Definition new (key : list Z) : result CryptoError.t LessSafeKey :=
  ok_or CryptoError.Encryption (LessSafeKey_new key).

Definition encrypt (inner : LessSafeKey) (nonce_prefix : list Z) (counter : Z)
    (aad plaintext ciphertext : list Z) : result CryptoError.t (list Z * Z) :=
  if U64_MAX - 1 <=? counter then Err CryptoError.CounterExhausted
  else
    let output_len := len plaintext + TAG_SIZE in
    if len ciphertext <? output_len then
      Err (CryptoError.BufferTooSmall output_len (len ciphertext))
    else
      let? ciphertext := copy_from_slice ciphertext 0 (len plaintext) plaintext in
      let? nonce_bytes := build_nonce nonce_prefix counter in
      let? nonce := ok_or CryptoError.InvalidNonce (try_assume_unique_for_key nonce_bytes) in
      let? (ciphertext, tag) := seal_slice inner nonce aad ciphertext 0 (len plaintext) in
      let? ciphertext := copy_from_slice ciphertext (len plaintext) output_len tag in
      Ok (ciphertext, output_len).

Definition encrypt_in_place (inner : LessSafeKey) (nonce aad buffer : list Z)
    (plaintext_len : Z) : result CryptoError.t (list Z * Z) :=
  if len buffer <? plaintext_len + TAG_SIZE then
    Err (CryptoError.BufferTooSmall (plaintext_len + TAG_SIZE) (len buffer))
  else
    let? nonce_obj := ok_or CryptoError.InvalidNonce (try_assume_unique_for_key nonce) in
    let? (buffer, tag) := seal_slice inner nonce_obj aad buffer 0 plaintext_len in
    let output_len := plaintext_len + TAG_SIZE in
    let? buffer := copy_from_slice buffer plaintext_len output_len tag in
    Ok (buffer, output_len).

Definition decrypt (inner : LessSafeKey) (nonce_prefix : list Z) (counter : Z)
    (aad ciphertext plaintext : list Z) : result CryptoError.t (list Z * Z) :=
  if len ciphertext <? TAG_SIZE then Err CryptoError.Decryption
  else
    let plaintext_len := len ciphertext - TAG_SIZE in
    if len plaintext <? len ciphertext then
      Err (CryptoError.BufferTooSmall (len ciphertext) (len plaintext))
    else
      let? plaintext := copy_from_slice plaintext 0 (len ciphertext) ciphertext in
      let? nonce_bytes := build_nonce nonce_prefix counter in
      let? nonce := ok_or CryptoError.InvalidNonce (try_assume_unique_for_key nonce_bytes) in
      let? (plaintext, _) := open_slice inner nonce aad plaintext 0 (len ciphertext) in
      Ok (plaintext, plaintext_len).

Definition decrypt_in_place (inner : LessSafeKey) (nonce aad buffer : list Z)
    : result CryptoError.t (list Z * Z) :=
  if len buffer <? TAG_SIZE then Err CryptoError.Decryption
  else
    let? nonce_obj := ok_or CryptoError.InvalidNonce (try_assume_unique_for_key nonce) in
    open_slice inner nonce_obj aad buffer 0 (len buffer).

End WithRing.

End PrecomputedKey.

Module aead.

Section WithRing.
Context `{R : RingAead}.

Definition encrypt (key nonce_prefix : list Z) (counter : Z)
    (aad plaintext ciphertext : list Z) : result CryptoError.t (list Z * Z) :=
  if U64_MAX - 1 <=? counter then Err CryptoError.CounterExhausted
  else
    let output_len := len plaintext + TAG_SIZE in
    if len ciphertext <? output_len then
      Err (CryptoError.BufferTooSmall output_len (len ciphertext))
    else
      let? ciphertext := copy_from_slice ciphertext 0 (len plaintext) plaintext in
      let? less_safe_key := ok_or CryptoError.Encryption (LessSafeKey_new key) in
      let? nonce_bytes := build_nonce nonce_prefix counter in
      let? nonce := ok_or CryptoError.InvalidNonce (try_assume_unique_for_key nonce_bytes) in
      let? (ciphertext, tag) := seal_slice less_safe_key nonce aad ciphertext 0 (len plaintext) in
      let? ciphertext := copy_from_slice ciphertext (len plaintext) output_len tag in
      Ok (ciphertext, output_len).

Definition decrypt (key nonce_prefix : list Z) (counter : Z)
    (aad ciphertext plaintext : list Z) : result CryptoError.t (list Z * Z) :=
  if len ciphertext <? TAG_SIZE then Err CryptoError.Decryption
  else
    let plaintext_len := len ciphertext - TAG_SIZE in
    if len plaintext <? len ciphertext then
      Err (CryptoError.BufferTooSmall (len ciphertext) (len plaintext))
    else
      let? plaintext := copy_from_slice plaintext 0 (len ciphertext) ciphertext in
      let? less_safe_key := ok_or CryptoError.Decryption (LessSafeKey_new key) in
      let? nonce_bytes := build_nonce nonce_prefix counter in
      let? nonce := ok_or CryptoError.InvalidNonce (try_assume_unique_for_key nonce_bytes) in
      let? (plaintext, _) := open_slice less_safe_key nonce aad plaintext 0 (len ciphertext) in
      Ok (plaintext, plaintext_len).

Definition encrypt_in_place (key nonce aad buffer : list Z) (plaintext_len : Z)
    : result CryptoError.t (list Z * Z) :=
  if len buffer <? plaintext_len + TAG_SIZE then
    Err (CryptoError.BufferTooSmall (plaintext_len + TAG_SIZE) (len buffer))
  else
    let? less_safe_key := ok_or CryptoError.Encryption (LessSafeKey_new key) in
    let? nonce_obj := ok_or CryptoError.InvalidNonce (try_assume_unique_for_key nonce) in
    let? (buffer, tag) := seal_slice less_safe_key nonce_obj aad buffer 0 plaintext_len in
    let output_len := plaintext_len + TAG_SIZE in
    let? buffer := copy_from_slice buffer plaintext_len output_len tag in
    Ok (buffer, output_len).

Definition decrypt_in_place (key nonce aad buffer : list Z)
    : result CryptoError.t (list Z * Z) :=
  if len buffer <? TAG_SIZE then Err CryptoError.Decryption
  else
    let? less_safe_key := ok_or CryptoError.Decryption (LessSafeKey_new key) in
    let? nonce_obj := ok_or CryptoError.InvalidNonce (try_assume_unique_for_key nonce) in
    open_slice less_safe_key nonce_obj aad buffer 0 (len buffer).

End WithRing.

End aead.

(** * A concrete cipher for evaluation: no secrecy, a checksum as tag *)

Definition toy_tag (key nonce aad p : list Z) : list Z :=
  be_bytes 16 (from_be (le_bytes 4 (len aad) ++ key ++ nonce ++ aad ++ p) * 257 mod (2 ^ 128 - 159)).

#[export] Instance ToyAead : RingAead := {
  LessSafeKey := list Z;
  Nonce := list Z;
  LessSafeKey_new k := if len k =? KEY_SIZE then Some k else None;
  try_assume_unique_for_key n := if len n =? NONCE_SIZE then Some n else None;
  seal_in_place_separate_tag key n aad p :=
    Some (p, toy_tag key n aad p);
  open_in_place key n aad buf :=
    let m := len buf - TAG_SIZE in
    if (0 <=? m) && bool_decide (slice buf m (len buf) = toy_tag key n aad (slice buf 0 m))
    then (buf, Some m) else (buf, None);
}.

#[export] Instance ToyAeadLaws : RingAeadLaws.
Proof.
  split; simpl.
  - intros k ->. by eexists.
  - intros n ->. by eexists.
  - intros key n aad p Hb _. exists p, (toy_tag key n aad p).
    split_and!; try done; apply be_bytes_ok.
  - intros key n aad p c tag _ [= <- <-]. exists (toy_tag key n aad p).
    assert (len (toy_tag key n aad p) = 16) as Ht by (unfold toy_tag; by rewrite len_be_bytes).
    split; [|done]. pose proof (len_nonneg p).
    rewrite len_app, Ht. unfold TAG_SIZE. replace (len p + 16 - 16) with (len p) by lia.
    rewrite (slice_rest_at _ (len p) (toy_tag key n aad p) []); [| |lia].
    2:{ exists p. by rewrite app_nil_r. }
    rewrite (slice_rest_at _ 0 p (toy_tag key n aad p)) by (done || apply rest_at_start).
    rewrite bool_decide_true by done. by decide_ltb.
  - intros key n aad buf buf' m Hb H. step_in H. injection H as <- <-. b2p.
    unfold TAG_SIZE in *.
    split_and!; try lia; [done|]. do 2 eexists. split; [done|]. rewrite <- H0.
    unfold slice. rewrite !Z.sub_0_r. change (Z.to_nat 0) with 0%nat. rewrite drop_0.
    rewrite (take_ge (drop _ _)); [symmetry; apply take_drop|]. rewrite length_drop. unfold len. lia.
Qed.

(** * Lemmas *)

Lemma copy_prefix {E} (p r s : list Z) :
  len s = len p -> copy_from_slice (E:=E) (p ++ r) 0 (len p) s = Ok (s ++ r).
Proof.
  intros Hs. rewrite (copy_from_slice_at [] (p ++ r) s 0); try (done || lia).
  - rewrite drop_app_length'; [done|unfold len in Hs; lia].
  - rewrite len_app. pose proof (len_nonneg r). lia.
Qed.

Lemma copy_prefix' {E} (p r s : list Z) b :
  len p = b -> len s = b -> copy_from_slice (E:=E) (p ++ r) 0 b s = Ok (s ++ r).
Proof. intros <- Hs. by apply copy_prefix. Qed.

Lemma build_nonce_eq {E} prefix counter :
  len prefix = 4 -> build_nonce (E:=E) prefix counter = Ok (prefix ++ be_bytes 8 counter).
Proof.
  intros Hp. unfold build_nonce.
  rewrite (copy_from_slice_at [] (replicate 12 0) prefix 0); [|done|lia|by rewrite Hp].
  sbind. rewrite copy_from_slice_at.
  - rewrite app_nil_l, drop_drop, length_be_bytes.
    rewrite drop_ge; [by rewrite app_nil_r|]. rewrite length_replicate. unfold len in Hp. lia.
  - done.
  - by rewrite len_be_bytes.
  - rewrite len_be_bytes, len_drop_nat; rewrite len_replicate; unfold len in Hp; lia.
Qed.

Section Lemmas.
Context {R : RingAead} {L : RingAeadLaws}.

Lemma seal_prefix key n aad p r :
  bytes_ok p -> len p <= MAX_SEAL ->
  exists c tag, seal_slice key n aad (p ++ r) 0 (len p) = Ok (c ++ r, tag) /\
    seal_in_place_separate_tag key n aad p = Some (c, tag) /\
    len c = len p /\ len tag = TAG_SIZE /\ bytes_ok c /\ bytes_ok tag.
Proof.
  intros Hb Hp. destruct (seal_ok key n aad p Hb Hp) as (c & tag & Hs & Hc & Ht & ? & ?).
  exists c, tag. split; [|done]. unfold seal_slice.
  rewrite (range_rest_at _ 0 p r) by (done || apply rest_at_start).
  sbind. rewrite Hs. sbind. by rewrite copy_prefix.
Qed.

(** Sealing [p] at the front of a buffer with room for the tag. *)
Lemma encrypt_in_place_ok key nonce aad p r :
  bytes_ok p -> len p <= MAX_SEAL -> len nonce = NONCE_SIZE -> TAG_SIZE <= len r ->
  exists n c tag,
    try_assume_unique_for_key nonce = Some n /\
    PrecomputedKey.encrypt_in_place key nonce aad (p ++ r) (len p) =
      Ok ((c ++ tag) ++ drop 16 r, len p + TAG_SIZE) /\
    seal_in_place_separate_tag key n aad p = Some (c, tag) /\
    len c = len p /\ len tag = TAG_SIZE /\ bytes_ok c /\ bytes_ok tag.
Proof.
  intros Hb Hp Hn Hr. destruct (nonce_12 nonce Hn) as [n Hn'].
  destruct (seal_prefix key n aad p r Hb Hp) as (c & tag & Hs & Hs' & Hc & Ht & ? & ?).
  exists n, c, tag. split; [done|]. split; [|done].
  unfold PrecomputedKey.encrypt_in_place. rewrite len_app. decide_ltb.
  rewrite Hn'. sbind. rewrite Hs. sbind.
  rewrite copy_from_slice_at by (done || rewrite ?Ht; done). sbind.
  do 3 f_equal. unfold len in Ht. f_equal. unfold TAG_SIZE in Ht. lia.
Qed.

(** Opening what was sealed. *)
Lemma decrypt_in_place_sealed key nonce n aad p c tag :
  bytes_ok p -> try_assume_unique_for_key nonce = Some n ->
  seal_in_place_separate_tag key n aad p = Some (c, tag) -> len p <= MAX_SEAL ->
  exists rest, PrecomputedKey.decrypt_in_place key nonce aad (c ++ tag) = Ok (p ++ rest, len p) /\
    len rest = TAG_SIZE.
Proof.
  intros Hb Hn Hs Hp. destruct (open_seal key n aad p c tag Hb Hs) as (rest & Ho & Hr).
  destruct (seal_ok key n aad p Hb Hp) as (c' & tag' & Hs' & Hc & Ht & _).
  rewrite Hs in Hs'. injection Hs' as <- <-.
  exists rest. split; [|done]. unfold PrecomputedKey.decrypt_in_place, open_slice.
  pose proof (len_nonneg p). rewrite len_app. decide_ltb. rewrite Hn. sbind.
  rewrite <- len_app, (range_rest_at_end _ 0 _ (rest_at_start (c ++ tag))). sbind.
  rewrite Ho. sbind. rewrite <- (app_nil_r (c ++ tag)) at 1.
  rewrite copy_prefix by (rewrite !len_app; lia). by rewrite app_nil_r.
Qed.

(** Opening succeeds only on a sealed buffer, and leaves what was sealed. *)
Lemma decrypt_in_place_inv key nonce aad buf buf' m :
  bytes_ok buf -> PrecomputedKey.decrypt_in_place key nonce aad buf = Ok (buf', m) ->
  m = len buf - TAG_SIZE /\ 0 <= m /\ len buf' = len buf /\
  exists n c tag, try_assume_unique_for_key nonce = Some n /\
    seal_in_place_separate_tag key n aad (slice buf' 0 m) = Some (c, tag) /\ buf = c ++ tag.
Proof.
  intros Hb H. unfold PrecomputedKey.decrypt_in_place, open_slice in H. step_in H.
  destruct (try_assume_unique_for_key nonce) as [n|] eqn:Hn; simpl in H; [|discriminate H].
  rewrite (range_rest_at_end buf 0 buf (rest_at_start buf)) in H. simpl in H.
  destruct (open_in_place key n aad buf) as [b' [k|]] eqn:Ho; simpl in H; [|discriminate H].
  destruct (seal_open _ _ _ _ _ _ Hb Ho) as (Hk & Hl & Hk0 & _ & c & tag & Hs & Heq).
  rewrite <- (app_nil_r buf) in H at 1. rewrite copy_prefix in H by done. simpl in H.
  injection H as <- <-. rewrite app_nil_r. split_and!; try done. by exists n, c, tag.
Qed.

Lemma decrypt_in_place_bytes key nonce aad buf buf' m :
  bytes_ok buf -> PrecomputedKey.decrypt_in_place key nonce aad buf = Ok (buf', m) -> bytes_ok buf'.
Proof.
  intros Hb H. unfold PrecomputedKey.decrypt_in_place, open_slice in H. step_in H.
  destruct (try_assume_unique_for_key nonce) as [n|]; simpl in H; [|discriminate H].
  rewrite (range_rest_at_end buf 0 buf (rest_at_start buf)) in H. simpl in H.
  destruct (open_in_place key n aad buf) as [b' [k|]] eqn:Ho; simpl in H; [|discriminate H].
  destruct (seal_open _ _ _ _ _ _ Hb Ho) as (_ & Hl & _ & Hb' & _).
  rewrite <- (app_nil_r buf) in H at 1. rewrite copy_prefix in H by done. simpl in H.
  injection H as <- _. by rewrite app_nil_r.
Qed.

(** * Properties *)

(** Distinct (prefix, counter) pairs give distinct 96-bit nonces, so nonce
    reuse under one key needs counter reuse. *)
Theorem build_nonce_injective {E} prefix prefix' counter counter' n :
  len prefix = 4 -> len prefix' = 4 -> u64 counter -> u64 counter' ->
  build_nonce (E:=E) prefix counter = Ok n -> build_nonce (E:=E) prefix' counter' = Ok n ->
  prefix = prefix' /\ counter = counter' /\ len n = NONCE_SIZE.
Proof.
  intros Hp Hp' Hc Hc'. rewrite !build_nonce_eq by done. intros [= <-] [= He].
  apply app_inj_1 in He as [-> Hb]; [|unfold len in *; lia].
  split; [done|]. split; [by apply (be_bytes_inj 8)|]. rewrite len_app, len_be_bytes, Hp. done.
Qed.

(** Decrypting what [encrypt] wrote, with the same key, nonce prefix,
    counter and associated data, returns the plaintext, whatever the two
    output buffers held, as long as they have room for the ciphertext. *)
Lemma aead_roundtrip key prefix counter aad p out out2 :
  bytes_ok p -> len p <= MAX_SEAL -> len key = KEY_SIZE -> len prefix = 4 ->
  counter < U64_MAX - 1 -> len p + TAG_SIZE <= len out -> len p + TAG_SIZE <= len out2 ->
  exists out' out2',
    aead.encrypt key prefix counter aad p out = Ok (out', len p + TAG_SIZE) /\
    aead.decrypt key prefix counter aad (slice out' 0 (len p + TAG_SIZE)) out2 =
      Ok (out2', len p) /\ slice out2' 0 (len p) = p.
Proof.
  intros Hb Hp Hk Hpre Hc Ho Ho2. unfold TAG_SIZE in *.
  destruct (LessSafeKey_new_32 key Hk) as [k Hk'].
  destruct (nonce_12 (prefix ++ be_bytes 8 counter)) as [n Hn];
    [by rewrite len_app, len_be_bytes, Hpre|].
  destruct (split_at (length p) out) as (o1 & o2 & -> & Ho1); [unfold len in *; lia|].
  destruct (seal_prefix k n aad p o2 Hb Hp) as (c & tag & Hs & Hs' & Lc & Lt & _ & _).
  destruct (open_seal _ _ _ _ _ _ Hb Hs') as (rest & Hop & Lr).
  assert (len o1 = len p) as Lo1 by (unfold len; lia). rewrite len_app in Ho.
  pose proof (len_nonneg p). unfold TAG_SIZE in *.
  assert (len (c ++ tag) = len p + 16) as Lct by (rewrite len_app; lia).
  exists ((c ++ tag) ++ drop (length tag) o2).
  assert (slice ((c ++ tag) ++ drop (length tag) o2) 0 (len p + 16) = c ++ tag) as Hsl.
  { eapply slice_rest_at; [apply rest_at_start|]. rewrite len_app. lia. }
  rewrite Hsl. destruct (split_at (length (c ++ tag)) out2) as (q1 & q2 & -> & Hq1).
  { unfold len in *. lia. }
  assert (len q1 = len (c ++ tag)) as Lq by (unfold len; lia).
  pose proof (len_nonneg q2). exists ((p ++ rest) ++ q2). split; [|split].
  - unfold aead.encrypt. rewrite len_app. unfold TAG_SIZE. repeat decide_ltb.
    rewrite copy_prefix' by done. sbind. rewrite Hk'. sbind.
    rewrite build_nonce_eq by done. sbind. rewrite Hn. sbind. rewrite Hs. sbind.
    rewrite copy_from_slice_at by lia. done.
  - unfold aead.decrypt. rewrite (len_app q1), Lq, Lct. unfold TAG_SIZE. repeat decide_ltb.
    rewrite copy_prefix' by lia.
    sbind. rewrite Hk'. sbind. rewrite build_nonce_eq by done. sbind. rewrite Hn. sbind.
    unfold open_slice. rewrite (range_rest_at _ 0 (c ++ tag) q2) by (apply rest_at_start || lia).
    sbind. rewrite Hop. sbind.
    rewrite copy_prefix' by (rewrite ?len_app; lia). sbind. do 2 f_equal. lia.
  - rewrite <- app_assoc. eapply slice_rest_at; [apply rest_at_start|lia].
Qed.

End Lemmas.

