(* ===== verification/Keys.v ===== *)
(** Key types of hpn-core/src/crypto/keys.rs.

    A key is its bytes; the fixed-size arrays [[u8; N]] are lists whose length
    is part of the well-formedness of the structures that hold them.  Wiping
    of secrets on drop ([Zeroize]) is a memory effect and is not modelled. *)

From S2P Require Import Prelude Types.

Module SecurityLevel.

Inductive t := Level3 | Level5.

#[global] Instance t_eq_dec : EqDecision t.
Proof. solve_decision. Defined.

Definition default : t := Level3.

Definition mlkem_public_key_size (l : t) : Z :=
  match l with Level3 => 1184 | Level5 => 1568 end.
Definition mlkem_secret_key_size (l : t) : Z :=
  match l with Level3 => 2400 | Level5 => 3168 end.
Definition mlkem_ciphertext_size (l : t) : Z :=
  match l with Level3 => 1088 | Level5 => 1568 end.
Definition mldsa_public_key_size (l : t) : Z :=
  match l with Level3 => 1952 | Level5 => 2592 end.
Definition mldsa_secret_key_size (l : t) : Z :=
  match l with Level3 => 4032 | Level5 => 4896 end.
Definition mldsa_signature_size (l : t) : Z :=
  match l with Level3 => 3309 | Level5 => 4627 end.
Definition hybrid_public_key_size (l : t) : Z := 32 + mlkem_public_key_size l.
Definition hybrid_ciphertext_size (l : t) : Z := 32 + mlkem_ciphertext_size l.

Definition as_u8 (l : t) : Z := match l with Level3 => 3 | Level5 => 5 end.

Definition from_u8 (value : Z) : option t :=
  match value with
  | 3 => Some Level3
  | 5 => Some Level5
  | _ => None
  end.

(** [{:?}] *)
Definition debug (l : t) : string := match l with Level3 => "Level3" | Level5 => "Level5" end.

Lemma level_from_u8_as_u8 l : from_u8 (as_u8 l) = Some l.
Proof. by destruct l. Qed.

Lemma level_as_u8_from_u8 v l : from_u8 v = Some l -> as_u8 l = v.
Proof.
  unfold from_u8. intros H.
  repeat match type of H with
  | match ?p with _ => _ end = _ => destruct p; try discriminate H
  end; by injection H as <-.
Qed.

Lemma level_as_u8_u8 l : u8 (as_u8 l).
Proof. destruct l; by_decide. Qed.

Lemma sizes_pos l :
  0 < mlkem_public_key_size l <= 1568 /\ 0 < mlkem_ciphertext_size l <= 1568 /\
  0 < mldsa_public_key_size l <= 2592 /\ 0 < mldsa_signature_size l <= 4627.
Proof. destruct l; simpl; lia. Qed.

End SecurityLevel.

Module X25519PublicKey.
Definition SIZE : Z := 32.
Definition from_bytes (bytes : list Z) : list Z := bytes.
Definition as_bytes (k : list Z) : list Z := k.
End X25519PublicKey.

Module X25519SecretKey.
Definition SIZE : Z := 32.
Definition from_bytes (bytes : list Z) : list Z := bytes.
Definition as_bytes (k : list Z) : list Z := k.
End X25519SecretKey.

Module MlKemPublicKey.

Definition SIZE : Z := 1184.
Definition SIZE_1024 : Z := 1568.

Definition from_bytes (bytes : list Z) : result CryptoError.t (list Z) :=
  if negb (len bytes =? SIZE) && negb (len bytes =? SIZE_1024) then
    Err (CryptoError.InvalidKeyLength SIZE (len bytes))
  else Ok bytes.

Definition from_bytes_strict (bytes : list Z) (level : SecurityLevel.t)
    : result CryptoError.t (list Z) :=
  let expected := SecurityLevel.mlkem_public_key_size level in
  if negb (len bytes =? expected) then
    Err (CryptoError.InvalidKeyLength expected (len bytes))
  else Ok bytes.

Definition from_bytes_unchecked (bytes : list Z) : list Z := bytes.

Lemma from_bytes_strict_ok bytes level :
  len bytes = SecurityLevel.mlkem_public_key_size level ->
  from_bytes_strict bytes level = Ok bytes.
Proof. intros H. unfold from_bytes_strict. by rewrite H, Z.eqb_refl. Qed.

Lemma from_bytes_strict_inv bytes level k :
  from_bytes_strict bytes level = Ok k ->
  k = bytes /\ len bytes = SecurityLevel.mlkem_public_key_size level.
Proof. unfold from_bytes_strict. intros H. step_in H. injection H as <-. by b2p. Qed.

End MlKemPublicKey.

Module MlKemSecretKey.
Definition SIZE : Z := 2400.
Definition SIZE_1024 : Z := 3168.
Definition from_bytes (bytes : list Z) : list Z := bytes.
Definition as_bytes (k : list Z) : list Z := k.
End MlKemSecretKey.

Module SharedSecret.
Definition SIZE : Z := 32.
Definition from_bytes (bytes : list Z) : list Z := bytes.
Definition as_bytes (s : list Z) : list Z := s.
End SharedSecret.

Module HandshakeSecret.

Definition SIZE : Z := 64.

Definition combine {E} (x25519_secret mlkem_secret : list Z) : result E (list Z) :=
  let combined := replicate 64 0 in
  let? combined := copy_from_slice combined 0 32 (SharedSecret.as_bytes x25519_secret) in
  copy_from_slice combined 32 (len combined) (SharedSecret.as_bytes mlkem_secret).

Definition as_bytes (s : list Z) : list Z := s.

Lemma combine_eq {E} a b :
  len a = 32 -> len b = 32 -> combine (E:=E) a b = Ok (a ++ b).
Proof.
  intros Ha Hb. unfold combine, SharedSecret.as_bytes.
  rewrite copy_from_slice_start by (rewrite Ha; done). sbind.
  assert (length a = 32%nat) as -> by (unfold len in *; lia).
  rewrite (copy_from_slice_at a) by (rewrite ?len_app, ?Hb; done || rewrite Ha; done).
  rewrite drop_drop, drop_ge; [by rewrite app_nil_r|].
  rewrite length_replicate. unfold len in *. lia.
Qed.

End HandshakeSecret.
