(* ===== verification/Signature.v ===== *)
(** ML-DSA signatures: hpn-core/src/crypto/signature.rs.

    The scheme is the [pqcrypto_mldsa] crate ([mldsa65] at level 3, [mldsa87]
    at level 5), a class indexed by the level.  Random choices the crate draws
    are explicit [seed] arguments. *)

From S2P Require Import Prelude Types Keys.

Class MlDsa := {
  mldsa_keypair : SecurityLevel.t -> list Z -> list Z * list Z;
  mldsa_SecretKey_from_bytes : SecurityLevel.t -> list Z -> option (list Z);
  mldsa_PublicKey_from_bytes : SecurityLevel.t -> list Z -> option (list Z);
  mldsa_DetachedSignature_from_bytes : SecurityLevel.t -> list Z -> option (list Z);
  detached_sign : SecurityLevel.t -> list Z -> list Z -> list Z -> list Z;
  verify_detached_signature : SecurityLevel.t -> list Z -> list Z -> list Z -> bool;
}.

(** Documented behaviour: the parsers take exactly the sizes of the level and
    keep the bytes, and a signature made with a secret key verifies with its
    public key. *)
Class MlDsaLaws {M : MlDsa} : Prop := {
  mldsa_keypair_sizes l seed :
    let '(pk, sk) := mldsa_keypair l seed in
    len pk = SecurityLevel.mldsa_public_key_size l /\
    len sk = SecurityLevel.mldsa_secret_key_size l /\ bytes_ok pk;
  mldsa_sk_ok l b :
    len b = SecurityLevel.mldsa_secret_key_size l -> mldsa_SecretKey_from_bytes l b = Some b;
  mldsa_pk_ok l b :
    len b = SecurityLevel.mldsa_public_key_size l -> mldsa_PublicKey_from_bytes l b = Some b;
  mldsa_sig_ok l b :
    len b = SecurityLevel.mldsa_signature_size l ->
    mldsa_DetachedSignature_from_bytes l b = Some b;
  detached_sign_size l rnd m sk :
    len (detached_sign l rnd m sk) = SecurityLevel.mldsa_signature_size l /\
    bytes_ok (detached_sign l rnd m sk);
  verify_sign l seed rnd m :
    let '(pk, sk) := mldsa_keypair l seed in
    verify_detached_signature l (detached_sign l rnd m sk) m pk = true;
}.

Module MlDsaPublicKey.

Definition SIZE : Z := 1952.
Definition SIZE_87 : Z := 2592.

Definition size_for_level (level : SecurityLevel.t) : Z :=
  match level with
  | SecurityLevel.Level3 => SIZE
  | SecurityLevel.Level5 => SIZE_87
  end.

Definition from_bytes_owned (bytes : list Z) : list Z := bytes.

Definition from_bytes (bytes : list Z) : result CryptoError.t (list Z) :=
  if negb (len bytes =? SIZE) && negb (len bytes =? SIZE_87) then
    Err (CryptoError.InvalidKeyLength SIZE (len bytes))
  else Ok bytes.

End MlDsaPublicKey.

Module MlDsaSecretKey.

Definition SIZE : Z := 4032.
Definition SIZE_87 : Z := 4896.

Definition from_bytes_owned (bytes : list Z) : list Z := bytes.

Definition from_bytes (bytes : list Z) : result CryptoError.t (list Z) :=
  if negb (len bytes =? SIZE) && negb (len bytes =? SIZE_87) then
    Err (CryptoError.InvalidKeyLength SIZE (len bytes))
  else Ok bytes.

End MlDsaSecretKey.

Module MlDsaSignature.

Record t := mk { bytes : list Z; security_level : SecurityLevel.t }.

#[global] Instance t_eq_dec : EqDecision t.
Proof. solve_decision. Defined.

(** [PartialEq::eq]: level, length, then a constant-time comparison of the
    bytes. *)
Definition eq (s o : t) : bool :=
  bool_decide (security_level s = security_level o) &&
  (len (bytes s) =? len (bytes o)) && bool_decide (bytes s = bytes o).

Definition SIZE : Z := 3309.
Definition SIZE_87 : Z := 4627.

Definition size_for_level (level : SecurityLevel.t) : Z :=
  match level with
  | SecurityLevel.Level3 => SIZE
  | SecurityLevel.Level5 => SIZE_87
  end.

Definition from_bytes_owned (bytes : list Z) : option t :=
  if len bytes =? SIZE then Some (mk bytes SecurityLevel.Level3)
  else if len bytes =? SIZE_87 then Some (mk bytes SecurityLevel.Level5)
  else None.

Definition from_bytes_with_level (bytes : list Z) (security_level : SecurityLevel.t)
    : option t :=
  if negb (len bytes =? size_for_level security_level) then None
  else Some (mk bytes security_level).

Definition from_bytes (bytes : list Z) : option t :=
  if len bytes =? SIZE then Some (mk bytes SecurityLevel.Level3)
  else if len bytes =? SIZE_87 then Some (mk bytes SecurityLevel.Level5)
  else None.

Definition wf (s : t) : Prop :=
  bytes_ok (bytes s) /\ len (bytes s) = size_for_level (security_level s).

Lemma sig_size_for_level_spec l : size_for_level l = SecurityLevel.mldsa_signature_size l.
Proof. by destruct l. Qed.

Lemma sig_from_bytes_with_level_ok b l :
  len b = size_for_level l -> from_bytes_with_level b l = Some (mk b l).
Proof. intros H. unfold from_bytes_with_level. by rewrite H, Z.eqb_refl. Qed.

Lemma sig_from_bytes_with_level_inv b l s :
  from_bytes_with_level b l = Some s -> s = mk b l /\ len b = size_for_level l.
Proof.
  unfold from_bytes_with_level. destruct (len b =? size_for_level l) eqn:E; simpl; [|done].
  intros [= <-]. by b2p.
Qed.

End MlDsaSignature.

(** The free functions [sign] and [verify]. *)
Module signature.

Section WithMlDsa.
Context {M : MlDsa}.

Definition sign (rnd secret_key message : list Z) (security_level : SecurityLevel.t)
    : result CryptoError.t MlDsaSignature.t :=
  match security_level with
  | SecurityLevel.Level3 =>
      let? sk := ok_or CryptoError.SignatureGeneration
        (mldsa_SecretKey_from_bytes SecurityLevel.Level3 secret_key) in
      let sig := detached_sign SecurityLevel.Level3 rnd message sk in
      ok_or CryptoError.SignatureGeneration
        (MlDsaSignature.from_bytes_with_level sig SecurityLevel.Level3)
  | SecurityLevel.Level5 =>
      let? sk := ok_or CryptoError.SignatureGeneration
        (mldsa_SecretKey_from_bytes SecurityLevel.Level5 secret_key) in
      let sig := detached_sign SecurityLevel.Level5 rnd message sk in
      ok_or CryptoError.SignatureGeneration
        (MlDsaSignature.from_bytes_with_level sig SecurityLevel.Level5)
  end.

Definition verify (public_key message : list Z) (signature : MlDsaSignature.t)
    (security_level : SecurityLevel.t) : result CryptoError.t unit :=
  match security_level with
  | SecurityLevel.Level3 =>
      let? pk := ok_or CryptoError.SignatureVerification
        (mldsa_PublicKey_from_bytes SecurityLevel.Level3 public_key) in
      let? detached_sig := ok_or CryptoError.SignatureVerification
        (mldsa_DetachedSignature_from_bytes SecurityLevel.Level3
           (MlDsaSignature.bytes signature)) in
      if verify_detached_signature SecurityLevel.Level3 detached_sig message pk
      then Ok tt else Err CryptoError.SignatureVerification
  | SecurityLevel.Level5 =>
      let? pk := ok_or CryptoError.SignatureVerification
        (mldsa_PublicKey_from_bytes SecurityLevel.Level5 public_key) in
      let? detached_sig := ok_or CryptoError.SignatureVerification
        (mldsa_DetachedSignature_from_bytes SecurityLevel.Level5
           (MlDsaSignature.bytes signature)) in
      if verify_detached_signature SecurityLevel.Level5 detached_sig message pk
      then Ok tt else Err CryptoError.SignatureVerification
  end.

End WithMlDsa.

End signature.

Module MlDsaKeypair.

Record t := mk {
  public_key : list Z;
  secret_key : list Z;
  security_level : SecurityLevel.t;
}.

Section WithMlDsa.
Context {M : MlDsa}.

Definition generate_with_level (seed : list Z) (level : SecurityLevel.t) : t :=
  match level with
  | SecurityLevel.Level3 =>
      let '(pk, sk) := mldsa_keypair SecurityLevel.Level3 seed in
      mk (MlDsaPublicKey.from_bytes_owned pk) (MlDsaSecretKey.from_bytes_owned sk) level
  | SecurityLevel.Level5 =>
      let '(pk, sk) := mldsa_keypair SecurityLevel.Level5 seed in
      mk (MlDsaPublicKey.from_bytes_owned pk) (MlDsaSecretKey.from_bytes_owned sk) level
  end.

Definition generate (seed : list Z) : t := generate_with_level seed SecurityLevel.Level3.

Definition sign (kp : t) (rnd message : list Z) : result CryptoError.t MlDsaSignature.t :=
  match security_level kp with
  | SecurityLevel.Level3 =>
      let? sk := ok_or CryptoError.SignatureGeneration
        (mldsa_SecretKey_from_bytes SecurityLevel.Level3 (secret_key kp)) in
      let sig := detached_sign SecurityLevel.Level3 rnd message sk in
      ok_or CryptoError.SignatureGeneration
        (MlDsaSignature.from_bytes_with_level sig SecurityLevel.Level3)
  | SecurityLevel.Level5 =>
      let? sk := ok_or CryptoError.SignatureGeneration
        (mldsa_SecretKey_from_bytes SecurityLevel.Level5 (secret_key kp)) in
      let sig := detached_sign SecurityLevel.Level5 rnd message sk in
      ok_or CryptoError.SignatureGeneration
        (MlDsaSignature.from_bytes_with_level sig SecurityLevel.Level5)
  end.

Definition verify (kp : t) (message : list Z) (signature : MlDsaSignature.t)
    : result CryptoError.t unit :=
  signature.verify (public_key kp) message signature (security_level kp).

End WithMlDsa.

Section Lemmas.
Context {M : MlDsa} {L : MlDsaLaws}.

Lemma generate_wf seed level :
  let kp := generate_with_level seed level in
  security_level kp = level /\ bytes_ok (public_key kp) /\
  len (public_key kp) = SecurityLevel.mldsa_public_key_size level /\
  len (secret_key kp) = SecurityLevel.mldsa_secret_key_size level.
Proof.
  destruct level; simpl.
  - pose proof (mldsa_keypair_sizes SecurityLevel.Level3 seed) as H.
    destruct (mldsa_keypair SecurityLevel.Level3 seed). simpl. tauto.
  - pose proof (mldsa_keypair_sizes SecurityLevel.Level5 seed) as H.
    destruct (mldsa_keypair SecurityLevel.Level5 seed). simpl. tauto.
Qed.

(** Signing with a generated keypair succeeds with a well-formed signature the
    public key accepts. *)
Lemma sign_verifies seed level rnd message :
  let kp := generate_with_level seed level in
  exists s, sign kp rnd message = Ok s /\ MlDsaSignature.security_level s = level /\
    MlDsaSignature.wf s /\ signature.verify (public_key kp) message s level = Ok tt.
Proof.
  pose proof (mldsa_keypair_sizes level seed) as Hs.
  pose proof (verify_sign level seed rnd message) as Hv.
  destruct (mldsa_keypair level seed) as [pk sk] eqn:E.
  destruct Hs as (Hpk & Hsk & _).
  destruct (detached_sign_size level rnd message sk) as [Hl Hb].
  exists (MlDsaSignature.mk (detached_sign level rnd message sk) level).
  unfold generate_with_level, sign, signature.verify, MlDsaSignature.wf.
  rewrite MlDsaSignature.sig_size_for_level_spec.
  destruct level; rewrite E; simpl;
    unfold MlDsaSecretKey.from_bytes_owned, MlDsaPublicKey.from_bytes_owned;
    rewrite mldsa_sk_ok, mldsa_pk_ok, mldsa_sig_ok by done; simpl;
    rewrite MlDsaSignature.sig_from_bytes_with_level_ok by done; simpl; by rewrite Hv.
Qed.

End Lemmas.

End MlDsaKeypair.

(** * A concrete scheme for evaluation: the tag repeats a keyed checksum *)

Definition toy_fill (n : Z) (x : Z) : list Z := be_bytes 16 x ++ replicate (Z.to_nat (n - 16)) 0.

Definition toy_checksum (l : list Z) : Z := from_be l * 257 mod (2 ^ 128 - 159).

Definition toy_check_len (n : Z) (b : list Z) : option (list Z) :=
  if len b =? n then Some b else None.

#[export] Instance ToyMlDsa : MlDsa := {
  mldsa_keypair l seed :=
    (toy_fill (SecurityLevel.mldsa_public_key_size l) (toy_checksum seed),
     toy_fill (SecurityLevel.mldsa_secret_key_size l) (toy_checksum seed));
  mldsa_SecretKey_from_bytes l := toy_check_len (SecurityLevel.mldsa_secret_key_size l);
  mldsa_PublicKey_from_bytes l := toy_check_len (SecurityLevel.mldsa_public_key_size l);
  mldsa_DetachedSignature_from_bytes l := toy_check_len (SecurityLevel.mldsa_signature_size l);
  detached_sign l rnd m sk :=
    toy_fill (SecurityLevel.mldsa_signature_size l) (toy_checksum (take 16 sk ++ m));
  verify_detached_signature l sig m pk :=
    bool_decide (take 16 sig = be_bytes 16 (toy_checksum (take 16 pk ++ m)));
}.

Lemma toy_fill_len n x : 16 <= n -> len (toy_fill n x) = n.
Proof. intros. unfold toy_fill. rewrite len_app, len_be_bytes, len_replicate. lia. Qed.

Lemma toy_fill_ok n x : bytes_ok (toy_fill n x).
Proof. apply bytes_ok_app. split; [apply be_bytes_ok|]. by apply bytes_ok_replicate. Qed.

#[export] Instance ToyMlDsaLaws : MlDsaLaws.
Proof.
  split; intros;
    cbn [mldsa_keypair mldsa_SecretKey_from_bytes mldsa_PublicKey_from_bytes
         mldsa_DetachedSignature_from_bytes detached_sign verify_detached_signature ToyMlDsa].
  - split_and!; [apply toy_fill_len| apply toy_fill_len|apply toy_fill_ok]; destruct l; simpl; lia.
  - unfold toy_check_len. by rewrite H, Z.eqb_refl.
  - unfold toy_check_len. by rewrite H, Z.eqb_refl.
  - unfold toy_check_len. by rewrite H, Z.eqb_refl.
  - split; [apply toy_fill_len; destruct l; simpl; lia|apply toy_fill_ok].
  - apply bool_decide_true. unfold toy_fill at 1. rewrite take_app_length' by
      (by rewrite length_be_bytes).
    unfold toy_fill. by rewrite !take_app_length' by (by rewrite length_be_bytes).
Qed.
