(* ===== verification/Kem.v ===== *)
(** The hybrid KEM of hpn-core/src/crypto/kem.rs: X25519 together with
    ML-KEM-768 (level 3) or ML-KEM-1024 (level 5).

    The primitives are the [x25519_dalek] and [pqcrypto_mlkem] crates, a class
    indexed by the level; the random values they draw are arguments. *)

From S2P Require Import Prelude Types Codec Wire Keys Signature.

Class KemPrimitives := {
  x25519_public : list Z -> list Z;
  diffie_hellman : list Z -> list Z -> list Z;
  mlkem_keypair : SecurityLevel.t -> list Z -> list Z * list Z;
  mlkem_PublicKey_from_bytes : SecurityLevel.t -> list Z -> option (list Z);
  mlkem_SecretKey_from_bytes : SecurityLevel.t -> list Z -> option (list Z);
  mlkem_Ciphertext_from_bytes : SecurityLevel.t -> list Z -> option (list Z);
  mlkem_encapsulate : SecurityLevel.t -> list Z -> list Z -> list Z * list Z;
  mlkem_decapsulate : SecurityLevel.t -> list Z -> list Z -> list Z;
}.

(** Documented behaviour: sizes; Diffie-Hellman agreement, never all-zero
    between honestly generated keys; the parsers take exactly the sizes of the
    level; decapsulation returns what encapsulation to the matching public key
    produced. *)
Class KemLaws {K : KemPrimitives} : Prop := {
  x25519_public_ok a : len (x25519_public a) = 32 /\ bytes_ok (x25519_public a);
  diffie_hellman_len a b : len (diffie_hellman a b) = 32;
  diffie_hellman_comm a b :
    diffie_hellman a (x25519_public b) = diffie_hellman b (x25519_public a);
  diffie_hellman_honest a b :
    len a = 32 -> len b = 32 -> diffie_hellman a (x25519_public b) <> replicate 32 0;
  mlkem_keypair_sizes l seed :
    let '(pk, sk) := mlkem_keypair l seed in
    len pk = SecurityLevel.mlkem_public_key_size l /\
    len sk = SecurityLevel.mlkem_secret_key_size l /\ bytes_ok pk;
  mlkem_pk_ok l b :
    len b = SecurityLevel.mlkem_public_key_size l -> mlkem_PublicKey_from_bytes l b = Some b;
  mlkem_sk_ok l b :
    len b = SecurityLevel.mlkem_secret_key_size l -> mlkem_SecretKey_from_bytes l b = Some b;
  mlkem_ct_ok l b :
    len b = SecurityLevel.mlkem_ciphertext_size l -> mlkem_Ciphertext_from_bytes l b = Some b;
  mlkem_encapsulate_sizes l rnd pk :
    let '(ss, ct) := mlkem_encapsulate l rnd pk in
    len ss = 32 /\ len ct = SecurityLevel.mlkem_ciphertext_size l /\ bytes_ok ct;
  mlkem_decapsulate_size l ct sk : len (mlkem_decapsulate l ct sk) = 32;
  mlkem_decapsulate_encapsulate l seed rnd :
    let '(pk, sk) := mlkem_keypair l seed in
    let '(ss, ct) := mlkem_encapsulate l rnd pk in
    mlkem_decapsulate l ct sk = ss;
}.

Definition ML_KEM_768_PUBLIC_KEY_SIZE : Z := 1184.
Definition ML_KEM_1024_PUBLIC_KEY_SIZE : Z := 1568.
Definition X25519_PUBLIC_KEY_SIZE : Z := 32.

Module HybridPublicKey.

Record t := mk { x25519 : list Z; ml_kem : list Z; security_level : SecurityLevel.t }.

#[global] Instance t_eq_dec : EqDecision t.
Proof. solve_decision. Defined.

Definition SIZE : Z := X25519PublicKey.SIZE + MlKemPublicKey.SIZE.
Definition SIZE_LEVEL5 : Z := X25519PublicKey.SIZE + MlKemPublicKey.SIZE_1024.

Definition size_for_level (level : SecurityLevel.t) : Z :=
  match level with
  | SecurityLevel.Level3 => SIZE
  | SecurityLevel.Level5 => SIZE_LEVEL5
  end.

Definition to_bytes (k : t) : list Z :=
  [SecurityLevel.as_u8 (security_level k)] ++ x25519 k ++ ml_kem k.

Definition to_bytes_raw (k : t) : list Z := x25519 k ++ ml_kem k.

Definition from_bytes (bytes : list Z) : result CryptoError.t t :=
  if len bytes =? 0 then Err (CryptoError.InvalidKeyLength 1 0)
  else
    let? b0 := index bytes 0 in
    let? security_level := ok_or CryptoError.InvalidPublicKey (SecurityLevel.from_u8 b0) in
    let expected_size := 1 + size_for_level security_level in
    if len bytes <? expected_size then
      Err (CryptoError.InvalidKeyLength expected_size (len bytes))
    else
      let? x25519_bytes := range bytes 1 33 in
      let mlkem_end := 1 + 32 + SecurityLevel.mlkem_public_key_size security_level in
      let? ml_kem_bytes := range bytes 33 mlkem_end in
      let? ml_kem := MlKemPublicKey.from_bytes_strict ml_kem_bytes security_level in
      Ok (mk x25519_bytes ml_kem security_level).

Definition from_bytes_with_level (bytes : list Z) (security_level : SecurityLevel.t)
    : result CryptoError.t t :=
  let expected_size := size_for_level security_level in
  if len bytes <? expected_size then
    Err (CryptoError.InvalidKeyLength expected_size (len bytes))
  else
    let? x25519_bytes := range bytes 0 32 in
    let mlkem_end := 32 + SecurityLevel.mlkem_public_key_size security_level in
    let? ml_kem_bytes := range bytes 32 mlkem_end in
    let? ml_kem := MlKemPublicKey.from_bytes_strict ml_kem_bytes security_level in
    Ok (mk x25519_bytes ml_kem security_level).

Definition wf (k : t) : Prop :=
  bytes_ok (x25519 k) /\ bytes_ok (ml_kem k) /\ len (x25519 k) = 32 /\
  len (ml_kem k) = SecurityLevel.mlkem_public_key_size (security_level k).

#[global] Instance wf_dec k : Decision (wf k).
Proof. unfold wf. apply _. Defined.

Lemma pk_size_for_level_spec l : size_for_level l = 32 + SecurityLevel.mlkem_public_key_size l.
Proof. by destruct l. Qed.

Lemma pk_len_to_bytes_raw k : wf k -> len (to_bytes_raw k) = size_for_level (security_level k).
Proof.
  intros (_ & _ & Hx & Hm). unfold to_bytes_raw. by rewrite len_app, pk_size_for_level_spec, Hx, Hm.
Qed.

Lemma pk_from_bytes_with_level_raw k r :
  wf k -> from_bytes_with_level (to_bytes_raw k ++ r) (security_level k) = Ok k.
Proof.
  intros Hw. pose proof (pk_len_to_bytes_raw k Hw) as HL. destruct Hw as (_ & _ & Hx & Hm).
  unfold from_bytes_with_level. rewrite len_app, HL. pose proof (len_nonneg r). decide_ltb.
  pose proof (rest_at_start (to_bytes_raw k ++ r)) as R0.
  unfold to_bytes_raw at 2 in R0. rewrite <- app_assoc in R0.
  pose proof (rest_at_app _ _ _ _ R0) as R1. rewrite Hx in R1. simpl in R1.
  rewrite (range_rest_at _ _ _ _ _ R0) by lia. sbind.
  rewrite (range_rest_at _ _ _ _ _ R1) by lia. sbind.
  rewrite MlKemPublicKey.from_bytes_strict_ok by done. by destruct k.
Qed.

Lemma pk_from_bytes_with_level_inv bytes level k :
  bytes_ok bytes -> from_bytes_with_level bytes level = Ok k ->
  wf k /\ security_level k = level /\ exists r, bytes = to_bytes_raw k ++ r.
Proof.
  intros Hb H. unfold from_bytes_with_level in H. step_in H. b2p.
  rewrite pk_size_for_level_spec in Hb0.
  destruct (split_at 32 bytes) as (x & r0 & -> & Hx); [destruct level; simpl in *; lia|].
  assert (len x = 32) as Lx by (unfold len; lia). rewrite len_app, Lx in Hb0.
  destruct (split_at (Z.to_nat (SecurityLevel.mlkem_public_key_size level)) r0)
    as (m & r & -> & Hm); [destruct level; simpl in *; lia|].
  assert (len m = SecurityLevel.mlkem_public_key_size level) as Lm
    by (unfold len; destruct level; simpl in *; lia).
  pose proof (rest_at_start (x ++ m ++ r)) as R0. pose proof (rest_at_app _ _ _ _ R0) as R1.
  rewrite Lx in R1. simpl in R1.
  rewrite (range_rest_at _ _ _ _ _ R0) in H by lia. cbn [rbind] in H.
  rewrite (range_rest_at _ _ _ _ _ R1) in H by lia. cbn [rbind] in H.
  rewrite MlKemPublicKey.from_bytes_strict_ok in H by done. injection H as <-.
  apply bytes_ok_app in Hb as [? Hb]. apply bytes_ok_app in Hb as [? ?].
  split; [done|]. split; [done|]. exists r. unfold to_bytes_raw. simpl. by rewrite app_assoc.
Qed.

Lemma pk_from_bytes_with_level_no_panic bytes level : from_bytes_with_level bytes level <> Panic.
Proof.
  intros H. unfold from_bytes_with_level in H. rewrite pk_size_for_level_spec in H.
  pose proof (SecurityLevel.sizes_pos level).
  repeat (step_in H; b2p); try in_range.
  unfold MlKemPublicKey.from_bytes_strict in Hs1. by step_in Hs1.
Qed.

End HybridPublicKey.

Module HybridSecretKey.

Record t := mk { x25519 : list Z; ml_kem : list Z; security_level : SecurityLevel.t }.

Definition to_bytes (k : t) : list Z :=
  [SecurityLevel.as_u8 (security_level k)] ++ x25519 k ++ ml_kem k.

Definition from_bytes (bytes : list Z) : result CryptoError.t t :=
  if len bytes =? 0 then Err (CryptoError.InvalidKeyLength 1 0)
  else
    let? b0 := index bytes 0 in
    let? security_level := ok_or CryptoError.InvalidPublicKey (SecurityLevel.from_u8 b0) in
    let mlkem_sk_size :=
      match security_level with
      | SecurityLevel.Level3 => MlKemSecretKey.SIZE
      | SecurityLevel.Level5 => MlKemSecretKey.SIZE_1024
      end in
    let expected_size := 1 + 32 + mlkem_sk_size in
    if len bytes <? expected_size then
      Err (CryptoError.InvalidKeyLength expected_size (len bytes))
    else
      let? x25519_bytes := range bytes 1 33 in
      let mlkem_end := 33 + mlkem_sk_size in
      let? ml_kem := range bytes 33 mlkem_end in
      Ok (mk x25519_bytes (MlKemSecretKey.from_bytes ml_kem) security_level).

Definition wf (k : t) : Prop :=
  len (x25519 k) = 32 /\
  len (ml_kem k) = SecurityLevel.mlkem_secret_key_size (security_level k).

End HybridSecretKey.

Module HybridCiphertext.

Record t := mk { x25519_public : list Z; ml_kem_ct : list Z; security_level : SecurityLevel.t }.

#[global] Instance t_eq_dec : EqDecision t.
Proof. solve_decision. Defined.

Definition ML_KEM_CT_SIZE : Z := 1088.
Definition ML_KEM_CT_SIZE_1024 : Z := 1568.
Definition SIZE : Z := X25519PublicKey.SIZE + ML_KEM_CT_SIZE.
Definition SIZE_LEVEL5 : Z := X25519PublicKey.SIZE + ML_KEM_CT_SIZE_1024.

Definition size_for_level (level : SecurityLevel.t) : Z :=
  match level with
  | SecurityLevel.Level3 => SIZE
  | SecurityLevel.Level5 => SIZE_LEVEL5
  end.

Definition to_bytes (c : t) : list Z :=
  [SecurityLevel.as_u8 (security_level c)] ++ x25519_public c ++ ml_kem_ct c.

Definition to_bytes_raw (c : t) : list Z := x25519_public c ++ ml_kem_ct c.

Definition from_bytes (bytes : list Z) : result CryptoError.t t :=
  if len bytes =? 0 then Err (CryptoError.InvalidKeyLength 1 0)
  else
    let? b0 := index bytes 0 in
    let? security_level := ok_or CryptoError.InvalidPublicKey (SecurityLevel.from_u8 b0) in
    let expected_size := 1 + size_for_level security_level in
    if len bytes <? expected_size then
      Err (CryptoError.InvalidKeyLength expected_size (len bytes))
    else
      let? x25519_bytes := range bytes 1 33 in
      let ct_end := 1 + 32 + SecurityLevel.mlkem_ciphertext_size security_level in
      let? ml_kem_ct := range bytes 33 ct_end in
      Ok (mk x25519_bytes ml_kem_ct security_level).

Definition from_bytes_with_level (bytes : list Z) (security_level : SecurityLevel.t)
    : result CryptoError.t t :=
  let expected_size := size_for_level security_level in
  if len bytes <? expected_size then
    Err (CryptoError.InvalidKeyLength expected_size (len bytes))
  else
    let? x25519_bytes := range bytes 0 32 in
    let ct_end := 32 + SecurityLevel.mlkem_ciphertext_size security_level in
    let? ml_kem_ct := range bytes 32 ct_end in
    Ok (mk x25519_bytes ml_kem_ct security_level).

Definition wf (c : t) : Prop :=
  bytes_ok (x25519_public c) /\ bytes_ok (ml_kem_ct c) /\ len (x25519_public c) = 32 /\
  len (ml_kem_ct c) = SecurityLevel.mlkem_ciphertext_size (security_level c).

#[global] Instance wf_dec c : Decision (wf c).
Proof. unfold wf. apply _. Defined.

Lemma ct_size_for_level_spec l : size_for_level l = 32 + SecurityLevel.mlkem_ciphertext_size l.
Proof. by destruct l. Qed.

Lemma ct_len_to_bytes_raw c : wf c -> len (to_bytes_raw c) = size_for_level (security_level c).
Proof.
  intros (_ & _ & Hx & Hm). unfold to_bytes_raw. by rewrite len_app, ct_size_for_level_spec, Hx, Hm.
Qed.

Lemma ct_from_bytes_with_level_raw c r :
  wf c -> from_bytes_with_level (to_bytes_raw c ++ r) (security_level c) = Ok c.
Proof.
  intros Hw. pose proof (ct_len_to_bytes_raw c Hw) as HL. destruct Hw as (_ & _ & Hx & Hm).
  unfold from_bytes_with_level. rewrite len_app, HL. pose proof (len_nonneg r). decide_ltb.
  pose proof (rest_at_start (to_bytes_raw c ++ r)) as R0.
  unfold to_bytes_raw at 2 in R0. rewrite <- app_assoc in R0.
  pose proof (rest_at_app _ _ _ _ R0) as R1. rewrite Hx in R1. simpl in R1.
  rewrite (range_rest_at _ _ _ _ _ R0) by lia. sbind.
  rewrite (range_rest_at _ _ _ _ _ R1) by lia. sbind. by destruct c.
Qed.

Lemma ct_from_bytes_with_level_wf bytes level c :
  bytes_ok bytes -> from_bytes_with_level bytes level = Ok c ->
  wf c /\ security_level c = level.
Proof.
  intros Hb H. unfold from_bytes_with_level in H.
  pose proof (SecurityLevel.sizes_pos level).
  repeat (step_in H; b2p). injection H as <-.
  apply range_inv in Hs as (? & ? & ? & -> & ?). apply range_inv in Hs0 as (? & ? & ? & -> & ?).
  unfold wf; simpl. split_and!; auto with hpn; lia.
Qed.

Lemma ct_from_bytes_with_level_no_panic bytes level : from_bytes_with_level bytes level <> Panic.
Proof.
  intros H. unfold from_bytes_with_level in H. rewrite ct_size_for_level_spec in H.
  pose proof (SecurityLevel.sizes_pos level).
  repeat (step_in H; b2p); in_range.
Qed.

Lemma len_to_bytes_ct c : wf c -> 1121 <= len (to_bytes c) <= 1601.
Proof.
  intros (_ & _ & Hx & Hm). unfold to_bytes. autorewrite with len. rewrite Hx, Hm.
  destruct (security_level c); simpl; lia.
Qed.

Lemma ct_bytes c : wf c -> bytes_ok (to_bytes c).
Proof.
  intros (Hx & Hm & _). unfold to_bytes. rewrite !bytes_ok_app. split_and!; [|done|done].
  constructor; [apply SecurityLevel.level_as_u8_u8|constructor].
Qed.

(** The self-describing encoding, which starts with the level. *)
Lemma ct_from_bytes c r : wf c -> from_bytes (to_bytes c ++ r) = Ok c.
Proof.
  intros Hw. pose proof (len_to_bytes_ct c Hw) as HL. destruct Hw as (_ & _ & Hx & Hm).
  pose proof (len_nonneg r). unfold from_bytes. rewrite len_app. decide_ltb.
  pose proof (rest_at_start (to_bytes c ++ r)) as R.
  unfold to_bytes at 2 in R. rewrite <- !app_assoc in R. eat.
  rewrite SecurityLevel.level_from_u8_as_u8. sbind. rewrite ct_size_for_level_spec.
  unfold to_bytes at 1. autorewrite with len. rewrite Hx, Hm. decide_ltb. do 2 eat. by destruct c.
Qed.

Lemma ct_from_bytes_wf bytes c : bytes_ok bytes -> from_bytes bytes = Ok c -> wf c.
Proof.
  intros Hb H. unfold from_bytes in H. do 3 step_in H. pose proof (SecurityLevel.sizes_pos a0).
  repeat (step_in H; b2p). injection H as <-. access_facts.
  unfold wf; cbn [x25519_public ml_kem_ct security_level]. split_and!; done || lia.
Qed.

Lemma ct_from_bytes_no_panic bytes : bytes_ok bytes -> from_bytes bytes <> Panic.
Proof.
  intros Hb H. unfold from_bytes in H. step_in H. b2p. pose proof (len_nonneg bytes).
  step_in H; [|no_abort]. step_in H; [|no_abort]. rewrite ct_size_for_level_spec in H.
  pose proof (SecurityLevel.sizes_pos a0). repeat (step_in H; b2p); no_abort.
Qed.

End HybridCiphertext.

(** [slice.try_into()] to a 32-byte array *)
Definition try_into_32 {E} (e : E) (bytes : list Z) : result E (list Z) :=
  if len bytes =? 32 then Ok bytes else Err e.

Module HybridKem.

Section WithKem.
Context {K : KemPrimitives}.

Definition generate_keypair_with_level (x25519_rng mlkem_seed : list Z)
    (level : SecurityLevel.t)
    : result CryptoError.t (HybridSecretKey.t * HybridPublicKey.t) :=
  let x25519_secret := x25519_rng in
  let x25519_pub := x25519_public x25519_secret in
  let '(ml_kem_pk_bytes, ml_kem_sk_bytes) :=
    match level with
    | SecurityLevel.Level3 =>
        let '(pk, sk) := mlkem_keypair SecurityLevel.Level3 mlkem_seed in (pk, sk)
    | SecurityLevel.Level5 =>
        let '(pk, sk) := mlkem_keypair SecurityLevel.Level5 mlkem_seed in (pk, sk)
    end in
  let secret_key :=
    HybridSecretKey.mk (X25519SecretKey.from_bytes x25519_secret)
      (MlKemSecretKey.from_bytes ml_kem_sk_bytes) level in
  let? ml_kem := MlKemPublicKey.from_bytes_strict ml_kem_pk_bytes level in
  let public_key :=
    HybridPublicKey.mk (X25519PublicKey.from_bytes x25519_pub) ml_kem level in
  Ok (secret_key, public_key).

Definition generate_keypair (x25519_rng mlkem_seed : list Z)
    : result CryptoError.t (HybridSecretKey.t * HybridPublicKey.t) :=
  generate_keypair_with_level x25519_rng mlkem_seed SecurityLevel.Level3.

Definition encapsulate (x25519_rng mlkem_rng : list Z) (public_key : HybridPublicKey.t)
    : result CryptoError.t (list Z * HybridCiphertext.t) :=
  let level := HybridPublicKey.security_level public_key in
  let peer := HybridPublicKey.x25519 public_key in
  if negb (len peer =? X25519_PUBLIC_KEY_SIZE) then
    Err (CryptoError.InvalidKeyLength X25519_PUBLIC_KEY_SIZE (len peer))
  else
    let expected_mlkem_size :=
      match level with
      | SecurityLevel.Level3 => ML_KEM_768_PUBLIC_KEY_SIZE
      | SecurityLevel.Level5 => ML_KEM_1024_PUBLIC_KEY_SIZE
      end in
    if negb (len (HybridPublicKey.ml_kem public_key) =? expected_mlkem_size) then
      Err CryptoError.InvalidPublicKey
    else
      let x25519_ephemeral := x25519_rng in
      let x25519_ephemeral_public := x25519_public x25519_ephemeral in
      let? peer_x25519_bytes :=
        try_into_32 (CryptoError.InvalidKeyLength 32 (len peer)) peer in
      let x25519_shared := diffie_hellman x25519_ephemeral peer_x25519_bytes in
      if bool_decide (x25519_shared = replicate 32 0) then Err CryptoError.InvalidPublicKey
      else
        let? (ml_kem_ss_bytes, ml_kem_ct_bytes) :=
          match level with
          | SecurityLevel.Level3 =>
              let? ml_kem_pk := ok_or CryptoError.Encapsulation
                (mlkem_PublicKey_from_bytes SecurityLevel.Level3
                   (HybridPublicKey.ml_kem public_key)) in
              Ok (mlkem_encapsulate SecurityLevel.Level3 mlkem_rng ml_kem_pk)
          | SecurityLevel.Level5 =>
              let? ml_kem_pk := ok_or CryptoError.Encapsulation
                (mlkem_PublicKey_from_bytes SecurityLevel.Level5
                   (HybridPublicKey.ml_kem public_key)) in
              Ok (mlkem_encapsulate SecurityLevel.Level5 mlkem_rng ml_kem_pk)
          end in
        let x25519_secret := SharedSecret.from_bytes x25519_shared in
        let? first32 := range ml_kem_ss_bytes 0 32 in
        let? mlkem_secret := try_into_32 CryptoError.Encapsulation first32 in
        let? combined := HandshakeSecret.combine x25519_secret mlkem_secret in
        Ok (combined,
            HybridCiphertext.mk (X25519PublicKey.from_bytes x25519_ephemeral_public)
              ml_kem_ct_bytes level).

Definition decapsulate (secret_key : HybridSecretKey.t) (ciphertext : HybridCiphertext.t)
    : result CryptoError.t (list Z) :=
  if negb (bool_decide (HybridSecretKey.security_level secret_key =
                        HybridCiphertext.security_level ciphertext)) then
    Err CryptoError.Decapsulation
  else
    let level := HybridSecretKey.security_level secret_key in
    let our_x25519_secret := HybridSecretKey.x25519 secret_key in
    let theirs := HybridCiphertext.x25519_public ciphertext in
    let? their_x25519_bytes :=
      try_into_32 (CryptoError.InvalidKeyLength 32 (len theirs)) theirs in
    let x25519_shared := diffie_hellman our_x25519_secret their_x25519_bytes in
    if bool_decide (x25519_shared = replicate 32 0) then Err CryptoError.InvalidPublicKey
    else
      let? ml_kem_ss_bytes :=
        match level with
        | SecurityLevel.Level3 =>
            let? ml_kem_sk := ok_or CryptoError.Decapsulation
              (mlkem_SecretKey_from_bytes SecurityLevel.Level3
                 (HybridSecretKey.ml_kem secret_key)) in
            let? ml_kem_ct := ok_or CryptoError.Decapsulation
              (mlkem_Ciphertext_from_bytes SecurityLevel.Level3
                 (HybridCiphertext.ml_kem_ct ciphertext)) in
            Ok (mlkem_decapsulate SecurityLevel.Level3 ml_kem_ct ml_kem_sk)
        | SecurityLevel.Level5 =>
            let? ml_kem_sk := ok_or CryptoError.Decapsulation
              (mlkem_SecretKey_from_bytes SecurityLevel.Level5
                 (HybridSecretKey.ml_kem secret_key)) in
            let? ml_kem_ct := ok_or CryptoError.Decapsulation
              (mlkem_Ciphertext_from_bytes SecurityLevel.Level5
                 (HybridCiphertext.ml_kem_ct ciphertext)) in
            Ok (mlkem_decapsulate SecurityLevel.Level5 ml_kem_ct ml_kem_sk)
        end in
      let x25519_secret := SharedSecret.from_bytes x25519_shared in
      let? first32 := range ml_kem_ss_bytes 0 32 in
      let? mlkem_secret := try_into_32 CryptoError.Decapsulation first32 in
      HandshakeSecret.combine x25519_secret mlkem_secret.

Definition static_exchange (mlkem_rng : list Z) (our_secret : HybridSecretKey.t)
    (their_public : HybridPublicKey.t) : result CryptoError.t (list Z * HybridCiphertext.t) :=
  let level := HybridPublicKey.security_level their_public in
  let theirs := HybridPublicKey.x25519 their_public in
  if negb (len theirs =? X25519_PUBLIC_KEY_SIZE) then
    Err (CryptoError.InvalidKeyLength X25519_PUBLIC_KEY_SIZE (len theirs))
  else
    let expected_mlkem_size :=
      match level with
      | SecurityLevel.Level3 => ML_KEM_768_PUBLIC_KEY_SIZE
      | SecurityLevel.Level5 => ML_KEM_1024_PUBLIC_KEY_SIZE
      end in
    if negb (len (HybridPublicKey.ml_kem their_public) =? expected_mlkem_size) then
      Err CryptoError.InvalidPublicKey
    else
      let our_x25519_secret := HybridSecretKey.x25519 our_secret in
      let? their_x25519_bytes :=
        try_into_32 (CryptoError.InvalidKeyLength 32 (len theirs)) theirs in
      let x25519_shared := diffie_hellman our_x25519_secret their_x25519_bytes in
      if bool_decide (x25519_shared = replicate 32 0) then Err CryptoError.InvalidPublicKey
      else
        let our_x25519_public := x25519_public our_x25519_secret in
        let? (ml_kem_ss_bytes, ml_kem_ct_bytes) :=
          match level with
          | SecurityLevel.Level3 =>
              let? ml_kem_pk := ok_or CryptoError.Encapsulation
                (mlkem_PublicKey_from_bytes SecurityLevel.Level3
                   (HybridPublicKey.ml_kem their_public)) in
              Ok (mlkem_encapsulate SecurityLevel.Level3 mlkem_rng ml_kem_pk)
          | SecurityLevel.Level5 =>
              let? ml_kem_pk := ok_or CryptoError.Encapsulation
                (mlkem_PublicKey_from_bytes SecurityLevel.Level5
                   (HybridPublicKey.ml_kem their_public)) in
              Ok (mlkem_encapsulate SecurityLevel.Level5 mlkem_rng ml_kem_pk)
          end in
        let x25519_secret := SharedSecret.from_bytes x25519_shared in
        let? first32 := range ml_kem_ss_bytes 0 32 in
        let? mlkem_secret := try_into_32 CryptoError.Encapsulation first32 in
        let? combined := HandshakeSecret.combine x25519_secret mlkem_secret in
        Ok (combined,
            HybridCiphertext.mk (X25519PublicKey.from_bytes our_x25519_public)
              ml_kem_ct_bytes level).

End WithKem.

Section Lemmas.
Context {K : KemPrimitives} {L : KemLaws}.

Lemma generate_keypair_ok x seed level :
  let '(pk, sk) := mlkem_keypair level seed in
  generate_keypair_with_level x seed level =
    Ok (HybridSecretKey.mk x sk level, HybridPublicKey.mk (x25519_public x) pk level) /\
  HybridPublicKey.wf (HybridPublicKey.mk (x25519_public x) pk level).
Proof.
  pose proof (mlkem_keypair_sizes level seed) as Hs.
  destruct (mlkem_keypair level seed) as [pk sk] eqn:E. destruct Hs as (Hpk & Hsk & Hb).
  destruct (x25519_public_ok x). split; [|done].
  unfold generate_keypair_with_level.
  destruct level; rewrite E, MlKemPublicKey.from_bytes_strict_ok by done; done.
Qed.

Lemma first32_ok {E} (e : E) ss :
  len ss = 32 -> (let? b := range ss 0 32 in try_into_32 e b) = Ok ss.
Proof.
  intros H. rewrite range_ok by lia. sbind. unfold try_into_32, slice.
  rewrite drop_0, take_ge by (unfold len in *; lia). by rewrite H.
Qed.

(** What both encapsulating operations compute on a well-formed public key. *)
Lemma static_exchange_ok rnd (our : HybridSecretKey.t) (pk : HybridPublicKey.t) :
  HybridPublicKey.wf pk ->
  diffie_hellman (HybridSecretKey.x25519 our) (HybridPublicKey.x25519 pk) <> replicate 32 0 ->
  let l := HybridPublicKey.security_level pk in
  let '(ss, ct) := mlkem_encapsulate l rnd (HybridPublicKey.ml_kem pk) in
  static_exchange rnd our pk =
    Ok (diffie_hellman (HybridSecretKey.x25519 our) (HybridPublicKey.x25519 pk) ++ ss,
        HybridCiphertext.mk (x25519_public (HybridSecretKey.x25519 our)) ct l).
Proof.
  intros (_ & _ & Hx & Hm) Hz. cbv zeta.
  destruct pk as [px pm l]; cbn [HybridPublicKey.x25519 HybridPublicKey.ml_kem
    HybridPublicKey.security_level] in *.
  pose proof (mlkem_encapsulate_sizes l rnd pm) as Hs.
  destruct (mlkem_encapsulate l rnd pm) as [ss ct] eqn:E. destruct Hs as (Hss & _ & _).
  unfold static_exchange; cbn [HybridPublicKey.x25519 HybridPublicKey.ml_kem
    HybridPublicKey.security_level]. rewrite Hx, Hm. unfold try_into_32 at 1. rewrite Hx.
  pose proof (first32_ok CryptoError.Encapsulation ss Hss) as Hf.
  destruct l; simpl negb; cbv iota; simpl (_ =? _); cbv iota; sbind;
    rewrite bool_decide_false by done; rewrite mlkem_pk_ok by done; sbind; rewrite E; sbind;
    rewrite range_ok in * by lia; cbn [rbind] in Hf; sbind; rewrite Hf; sbind;
    rewrite HandshakeSecret.combine_eq by (done || apply diffie_hellman_len); done.
Qed.

Lemma encapsulate_static x rnd pk :
  encapsulate x rnd pk = static_exchange rnd (HybridSecretKey.mk x [] SecurityLevel.Level3) pk.
Proof. reflexivity. Qed.

Lemma decapsulate_ok x seed level their rnd :
  diffie_hellman x their <> replicate 32 0 -> len their = 32 ->
  let '(pk, sk) := mlkem_keypair level seed in
  let '(ss, ct) := mlkem_encapsulate level rnd pk in
  decapsulate (HybridSecretKey.mk x sk level) (HybridCiphertext.mk their ct level) =
    Ok (diffie_hellman x their ++ ss).
Proof.
  intros Hz Ht. pose proof (mlkem_keypair_sizes level seed) as Hk.
  pose proof (mlkem_decapsulate_encapsulate level seed rnd) as Hd.
  destruct (mlkem_keypair level seed) as [pk sk] eqn:Ek. destruct Hk as (_ & Hsk & _).
  pose proof (mlkem_encapsulate_sizes level rnd pk) as Hs.
  destruct (mlkem_encapsulate level rnd pk) as [ss ct]. destruct Hs as (Hss & Hct & _).
  unfold decapsulate; cbn [HybridSecretKey.x25519 HybridSecretKey.ml_kem
    HybridSecretKey.security_level HybridCiphertext.x25519_public HybridCiphertext.ml_kem_ct
    HybridCiphertext.security_level].
  rewrite bool_decide_true by done. unfold try_into_32 at 1. rewrite Ht.
  pose proof (first32_ok CryptoError.Decapsulation ss Hss) as Hf.
  destruct level; simpl negb; cbv iota; simpl (_ =? _); cbv iota; sbind;
    rewrite bool_decide_false by done; rewrite mlkem_sk_ok, mlkem_ct_ok by done; sbind;
    rewrite Hd, range_ok in * by lia; cbn [rbind] in Hf; sbind; rewrite Hf; sbind;
    rewrite HandshakeSecret.combine_eq by (done || apply diffie_hellman_len); done.
Qed.

(** The server's static exchange against a generated client key gives the
    secret the client recovers from the ciphertext. *)
Lemma static_exchange_agrees x seed level rnd (our : HybridSecretKey.t) sk pk :
  len x = 32 -> len (HybridSecretKey.x25519 our) = 32 ->
  generate_keypair_with_level x seed level = Ok (sk, pk) ->
  exists ss ct, static_exchange rnd our pk = Ok (ss, ct) /\ decapsulate sk ct = Ok ss /\
    HybridCiphertext.wf ct /\ HybridCiphertext.security_level ct = level /\ len ss = 64.
Proof.
  intros Hx Ho Hg. pose proof (generate_keypair_ok x seed level) as Hk.
  set (our_x := HybridSecretKey.x25519 our) in *.
  pose proof (decapsulate_ok x seed level (x25519_public our_x) rnd) as Hdec.
  destruct (mlkem_keypair level seed) as [mpk msk]. destruct Hk as [Hk Hwf].
  rewrite Hk in Hg. injection Hg as <- <-.
  pose proof (static_exchange_ok rnd our _ Hwf) as Hst.
  pose proof (mlkem_encapsulate_sizes level rnd mpk) as Hs.
  cbn [HybridPublicKey.x25519 HybridPublicKey.ml_kem HybridPublicKey.security_level] in Hst.
  destruct (mlkem_encapsulate level rnd mpk) as [ss ct]. destruct Hs as (Hss & Hct & Hcb).
  rewrite Hst by (by apply diffie_hellman_honest). destruct (x25519_public_ok our_x).
  do 2 eexists. split; [done|]. fold our_x.
  rewrite diffie_hellman_comm, Hdec by (done || by apply diffie_hellman_honest).
  split; [done|]. split; [done|]. split; [done|].
  by rewrite len_app, diffie_hellman_len, Hss.
Qed.

Lemma decapsulate_no_panic sk ct : decapsulate sk ct <> Panic.
Proof.
  intros Hd. unfold decapsulate in Hd. step_in Hd. step_in Hd; [|by unfold try_into_32 in Hs; step_in Hs].
  step_in Hd. step_call Hd as Em.
  - assert (len a0 = 32) as Ha.
    { destruct (HybridSecretKey.security_level sk); step_in Em; step_in Em; injection Em as <-;
        apply mlkem_decapsulate_size. }
    unfold try_into_32 in Hs. step_in Hs. injection Hs as <-.
    pose proof (first32_ok CryptoError.Decapsulation a0 Ha) as Hf.
    rewrite range_ok in * by lia. cbn [rbind] in *. rewrite Hf in Hd. cbn [rbind] in Hd.
    by rewrite HandshakeSecret.combine_eq in Hd by (done || apply diffie_hellman_len).
  - destruct (HybridSecretKey.security_level sk); repeat (step_in Em; try by apply ok_or_panic in Hs0);
      by repeat match goal with H : ok_or _ _ = Panic |- _ => apply ok_or_panic in H end.
Qed.

(** Encapsulating to a generated key gives the secret its owner recovers. *)
Lemma encapsulate_agrees x seed level x' rnd sk pk :
  len x = 32 -> len x' = 32 ->
  generate_keypair_with_level x seed level = Ok (sk, pk) ->
  exists ss ct, encapsulate x' rnd pk = Ok (ss, ct) /\ decapsulate sk ct = Ok ss /\
    HybridCiphertext.wf ct /\ HybridCiphertext.security_level ct = level /\ len ss = 64.
Proof.
  intros Hx Hx' Hg. rewrite encapsulate_static.
  by apply (static_exchange_agrees x seed level rnd
    (HybridSecretKey.mk x' [] SecurityLevel.Level3) sk pk).
Qed.

Lemma generate_keypair_inv x seed level sk pk :
  generate_keypair_with_level x seed level = Ok (sk, pk) ->
  HybridPublicKey.wf pk /\ HybridPublicKey.security_level pk = level.
Proof.
  intros Hg. pose proof (generate_keypair_ok x seed level) as Hk.
  destruct (mlkem_keypair level seed). destruct Hk as [Hk Hw]. rewrite Hk in Hg.
  by injection Hg as <- <-.
Qed.

Lemma generate_keypair_total x seed level :
  exists sk pk, generate_keypair_with_level x seed level = Ok (sk, pk).
Proof.
  pose proof (generate_keypair_ok x seed level) as Hk.
  destruct (mlkem_keypair level seed). destruct Hk as [Hk _]. eauto.
Qed.

(** * Properties *)

(** Both ends of the hybrid KEM agree.  For a generated keypair of either
    level, encapsulating with fresh randomness, or exchanging against a
    server's static secret, succeeds, and decapsulating the ciphertext with
    the secret key returns the same 64-byte secret. *)
Lemma hybrid_kem_agreement x seed level x' rnd (our : HybridSecretKey.t) sk pk :
  len x = 32 -> len x' = 32 -> len (HybridSecretKey.x25519 our) = 32 ->
  generate_keypair_with_level x seed level = Ok (sk, pk) ->
  (exists ss ct, encapsulate x' rnd pk = Ok (ss, ct) /\ decapsulate sk ct = Ok ss /\ len ss = 64) /\
  (exists ss ct, static_exchange rnd our pk = Ok (ss, ct) /\ decapsulate sk ct = Ok ss /\ len ss = 64).
Proof.
  intros Hx Hx' Ho Hg. split.
  - destruct (encapsulate_agrees x seed level x' rnd sk pk)
      as (ss & ct & ? & ? & _ & _ & ?); eauto.
  - destruct (static_exchange_agrees x seed level rnd our sk pk)
      as (ss & ct & ? & ? & _ & _ & ?); eauto.
Qed.

End Lemmas.

End HybridKem.

(** * Concrete primitives for evaluation: no secrecy *)

Definition toy_scalar (a : list Z) : Z := 1 + from_be a mod 2 ^ 64.

#[export] Instance ToyKem : KemPrimitives := {
  x25519_public a := be_bytes 32 (toy_scalar a);
  diffie_hellman a p := be_bytes 32 (toy_scalar a * (from_be p mod 2 ^ 66));
  mlkem_keypair l seed :=
    (toy_fill (SecurityLevel.mlkem_public_key_size l) (toy_checksum seed),
     toy_fill (SecurityLevel.mlkem_secret_key_size l) (toy_checksum seed));
  mlkem_PublicKey_from_bytes l := toy_check_len (SecurityLevel.mlkem_public_key_size l);
  mlkem_SecretKey_from_bytes l := toy_check_len (SecurityLevel.mlkem_secret_key_size l);
  mlkem_Ciphertext_from_bytes l := toy_check_len (SecurityLevel.mlkem_ciphertext_size l);
  mlkem_encapsulate l rnd pk :=
    (be_bytes 32 (toy_checksum (take 16 pk ++ rnd)),
     toy_fill (SecurityLevel.mlkem_ciphertext_size l) (toy_checksum (take 16 pk ++ rnd)));
  mlkem_decapsulate l ct sk := be_bytes 32 (from_be (take 16 ct));
}.

Lemma toy_checksum_u128 l : uint 128 (toy_checksum l).
Proof.
  unfold toy_checksum, uint. pose proof (Z.mod_pos_bound (from_be l * 257) (2 ^ 128 - 159)). lia.
Qed.

Lemma toy_scalar_bound a : 1 <= toy_scalar a <= 2 ^ 64.
Proof. unfold toy_scalar. pose proof (Z.mod_pos_bound (from_be a) (2 ^ 64)). lia. Qed.

Lemma toy_scalar_public a : from_be (be_bytes 32 (toy_scalar a)) mod 2 ^ 66 = toy_scalar a.
Proof.
  pose proof (toy_scalar_bound a). rewrite from_be_be_bytes; [|unfold uint; simpl; lia].
  apply Z.mod_small. lia.
Qed.

#[export] Instance ToyKemLaws : KemLaws.
Proof.
  split; intros;
    cbn [x25519_public diffie_hellman mlkem_keypair mlkem_PublicKey_from_bytes
      mlkem_SecretKey_from_bytes mlkem_Ciphertext_from_bytes mlkem_encapsulate
      mlkem_decapsulate ToyKem];
    try (unfold toy_check_len; rewrite H, Z.eqb_refl; done).
  - split; [by rewrite len_be_bytes|apply be_bytes_ok].
  - by rewrite len_be_bytes.
  - rewrite !toy_scalar_public. f_equal. lia.
  - rewrite toy_scalar_public. pose proof (toy_scalar_bound a). pose proof (toy_scalar_bound b).
    intros He. apply (f_equal from_be) in He. rewrite from_be_be_bytes in He.
    + change (from_be (replicate 32 0)) with 0 in He. nia.
    + unfold uint. change (2 ^ (8 * Z.of_nat 32)) with (2 ^ 128 * 2 ^ 128). nia.
  - split_and!; [apply toy_fill_len|apply toy_fill_len|apply toy_fill_ok]; destruct l; simpl; lia.
  - split_and!; [by rewrite len_be_bytes|apply toy_fill_len|apply toy_fill_ok];
      destruct l; simpl; lia.
  - by rewrite len_be_bytes.
  - f_equal. set (c := toy_checksum _). unfold toy_fill at 1.
    rewrite take_app_length' by (by rewrite length_be_bytes).
    apply from_be_be_bytes, toy_checksum_u128.
Qed.

