(* ===== verification/Kdf.v ===== *)
(** Key derivation: hpn-core/src/crypto/kdf.rs.

    HKDF is the [ring] crate; [hkdf_expand_fill] is [Prk::expand] to an output
    of the given length followed by [fill], which cannot fail on a buffer of
    that length. *)

From S2P Require Import Prelude Types Keys.

Inductive hkdf_algorithm := HKDF_SHA256 | HKDF_SHA512.

Class Hkdf := {
  Prk : Type;
  hkdf_extract : hkdf_algorithm -> list Z -> list Z -> Prk;
  hkdf_expand_fill : Prk -> list (list Z) -> Z -> option (list Z);
}.

(** Documented behaviour: outputs of up to 255 hash blocks (of at least 32
    bytes) are produced, with the length asked for. *)
Class HkdfLaws {H : Hkdf} : Prop := {
  hkdf_expand_ok prk info n :
    0 <= n <= 255 * 32 ->
    exists okm, hkdf_expand_fill prk info n = Some okm /\ len okm = n /\ bytes_ok okm;
}.

Definition HANDSHAKE_SALT : list Z := bytes_of_string "HPN-HYBRID-KEM-v1".
Definition TRAFFIC_KEY_INFO : list Z := bytes_of_string "HPN-TRAFFIC-KEYS-v1".
Definition SEND_KEY_INFO : list Z := bytes_of_string "send-key".
Definition RECV_KEY_INFO : list Z := bytes_of_string "recv-key".
Definition SEND_NONCE_PREFIX_INFO : list Z := bytes_of_string "send-nonce-prefix".
Definition RECV_NONCE_PREFIX_INFO : list Z := bytes_of_string "recv-nonce-prefix".

Module SessionKeys.

Record t := mk {
  send_key : list Z;
  recv_key : list Z;
  send_nonce_prefix : list Z;
  recv_nonce_prefix : list Z;
}.

#[global] Instance t_eq_dec : EqDecision t.
Proof. solve_decision. Defined.

Definition SIZE : Z := 32 + 32 + 4 + 4.

Definition swap (k : t) : t :=
  mk (recv_key k) (send_key k) (recv_nonce_prefix k) (send_nonce_prefix k).

Definition wf (k : t) : Prop :=
  len (send_key k) = 32 /\ len (recv_key k) = 32 /\
  len (send_nonce_prefix k) = 4 /\ len (recv_nonce_prefix k) = 4.

#[global] Instance wf_dec k : Decision (wf k).
Proof. unfold wf. apply _. Defined.

Lemma swap_swap k : swap (swap k) = k.
Proof. by destruct k. Qed.

Lemma swap_wf k : wf k -> wf (swap k).
Proof. unfold wf; simpl. tauto. Qed.

End SessionKeys.

Section WithHkdf.
Context {H : Hkdf}.

Definition derive_session_keys_with_context (handshake_secret : list Z)
    (session_id timestamp : Z) : result CryptoError.t SessionKeys.t :=
  let prk := hkdf_extract HKDF_SHA512 HANDSHAKE_SALT handshake_secret in
  let context := SessionId.to_bytes session_id ++ be_bytes 8 timestamp in
  let? send_key := ok_or CryptoError.KeyDerivation
    (hkdf_expand_fill prk [TRAFFIC_KEY_INFO; context; SEND_KEY_INFO] 32) in
  let? recv_key := ok_or CryptoError.KeyDerivation
    (hkdf_expand_fill prk [TRAFFIC_KEY_INFO; context; RECV_KEY_INFO] 32) in
  let? send_nonce_prefix := ok_or CryptoError.KeyDerivation
    (hkdf_expand_fill prk [TRAFFIC_KEY_INFO; context; SEND_NONCE_PREFIX_INFO] 4) in
  let? recv_nonce_prefix := ok_or CryptoError.KeyDerivation
    (hkdf_expand_fill prk [TRAFFIC_KEY_INFO; context; RECV_NONCE_PREFIX_INFO] 4) in
  Ok (SessionKeys.mk send_key recv_key send_nonce_prefix recv_nonce_prefix).

Definition derive_session_keys (handshake_secret : list Z) : result CryptoError.t SessionKeys.t :=
  let dummy_session_id := SessionId.from_bytes (replicate 8 0) in
  let dummy_timestamp := 0 in
  derive_session_keys_with_context handshake_secret dummy_session_id dummy_timestamp.

(** [output] is returned filled. *)
Definition derive_key (handshake_secret info output : list Z) : result CryptoError.t (list Z) :=
  let prk := hkdf_extract HKDF_SHA512 HANDSHAKE_SALT handshake_secret in
  ok_or CryptoError.KeyDerivation (hkdf_expand_fill prk [info] (len output)).

Definition hkdf_expand (ikm info output : list Z) : result CryptoError.t (list Z) :=
  let prk := hkdf_extract HKDF_SHA256 (bytes_of_string "HPN-IDENTITY-HIDING") ikm in
  ok_or CryptoError.KeyDerivation (hkdf_expand_fill prk [info] (len output)).

End WithHkdf.

Section Lemmas.
Context {H : Hkdf} {L : HkdfLaws}.

Lemma derive_session_keys_ok secret id ts :
  exists k, derive_session_keys_with_context secret id ts = Ok k /\ SessionKeys.wf k.
Proof.
  unfold derive_session_keys_with_context. set (prk := hkdf_extract _ _ _).
  set (ctx := SessionId.to_bytes id ++ _).
  destruct (hkdf_expand_ok prk [TRAFFIC_KEY_INFO; ctx; SEND_KEY_INFO] 32) as (a & -> & ? & _); [lia|].
  destruct (hkdf_expand_ok prk [TRAFFIC_KEY_INFO; ctx; RECV_KEY_INFO] 32) as (b & -> & ? & _); [lia|].
  destruct (hkdf_expand_ok prk [TRAFFIC_KEY_INFO; ctx; SEND_NONCE_PREFIX_INFO] 4)
    as (c & -> & ? & _); [lia|].
  destruct (hkdf_expand_ok prk [TRAFFIC_KEY_INFO; ctx; RECV_NONCE_PREFIX_INFO] 4)
    as (d & -> & ? & _); [lia|].
  sbind. eexists. split; [done|]. done.
Qed.

Lemma hkdf_expand_len ikm info output :
  len output <= 255 * 32 ->
  exists okm, hkdf_expand ikm info output = Ok okm /\ len okm = len output /\ bytes_ok okm.
Proof.
  intros Hl. unfold hkdf_expand. pose proof (len_nonneg output).
  destruct (hkdf_expand_ok (hkdf_extract HKDF_SHA256 (bytes_of_string "HPN-IDENTITY-HIDING") ikm)
    [info] (len output)) as (okm & -> & ? & ?); [lia|]. by exists okm.
Qed.

End Lemmas.

(** * A concrete derivation for evaluation *)

#[export] Instance ToyHkdf : Hkdf := {
  Prk := Z;
  hkdf_extract alg salt ikm :=
    from_be (match alg with HKDF_SHA256 => [1] | HKDF_SHA512 => [2] end ++ salt ++ ikm)
      mod (2 ^ 127 - 1);
  hkdf_expand_fill prk info n :=
    if (0 <=? n) && (n <=? 255 * 32) then
      Some (be_bytes (Z.to_nat n) ((prk * 65537 + from_be (concat info)) mod (2 ^ 127 - 1)))
    else None;
}.

#[export] Instance ToyHkdfLaws : HkdfLaws.
Proof.
  split. intros prk info n Hn. cbn [hkdf_expand_fill ToyHkdf].
  rewrite (proj2 (Z.leb_le 0 n)), (proj2 (Z.leb_le n (255 * 32))) by lia. simpl andb. cbv iota.
  eexists. split; [done|]. split; [|apply be_bytes_ok]. rewrite len_be_bytes. lia.
Qed.
