(* ===== verification/Pki.v ===== *)
(** Certificates: hpn-core/src/crypto/pki.rs.

    Names are byte strings with [utf8_valid]; a clock reading is [None] before
    the epoch, and a walk over several certificates reads the clock once for
    each. *)

From S2P Require Import Prelude Types Codec Wire Utf8 Keys Signature.

Definition CERT_VERSION : Z := 1.

Module CertificateType.

Inductive t := RootCA | Server | Client.

#[global] Instance t_eq_dec : EqDecision t.
Proof. solve_decision. Defined.

Definition to_u8 (ty : t) : Z := match ty with RootCA => 1 | Server => 2 | Client => 3 end.

Definition from_u8 (value : Z) : option t :=
  if value =? 1 then Some RootCA
  else if value =? 2 then Some Server
  else if value =? 3 then Some Client
  else None.

Lemma cert_type_roundtrip ty : from_u8 (to_u8 ty) = Some ty.
Proof. by destruct ty. Qed.

Lemma cert_type_inj ty ty' : to_u8 ty = to_u8 ty' -> ty = ty'.
Proof. by destruct ty, ty'. Qed.

End CertificateType.

Module CertificateFlags.

Record t := mk { can_sign : bool; server_auth : bool; client_auth : bool; revoked : bool }.

#[global] Instance t_eq_dec : EqDecision t.
Proof. solve_decision. Defined.

Definition default : t := mk false false false false.

Definition set_bit (b : bool) (n flags : Z) : Z :=
  if b then Z.lor flags (Z.shiftl 1 n) else flags.

Definition to_u16 (f : t) : Z :=
  set_bit (revoked f) 3 (set_bit (client_auth f) 2 (set_bit (server_auth f) 1
    (set_bit (can_sign f) 0 0))).

Definition from_u16 (value : Z) : t :=
  let bit n := negb (Z.land value (Z.shiftl 1 n) =? 0) in
  mk (bit 0) (bit 1) (bit 2) (bit 3).

Lemma flags_roundtrip f : from_u16 (to_u16 f) = f.
Proof. by destruct f as [[] [] [] []]. Qed.

Lemma flags_bound f : u16 (to_u16 f).
Proof. by destruct f as [[] [] [] []]. Qed.

Lemma flags_inj f f' : to_u16 f = to_u16 f' -> f = f'.
Proof. intros H. by rewrite <- (flags_roundtrip f), H, flags_roundtrip. Qed.

End CertificateFlags.

Module CertificateValidity.

Inductive t := Valid | ClockError | NotYetValid | Expired | Revoked.

#[global] Instance t_eq_dec : EqDecision t.
Proof. solve_decision. Defined.

End CertificateValidity.

Module CertificateError.

Inductive t :=
| InvalidFormat (s : string)
| InvalidVersion (v : Z)
| Expired
| NotYetValid
| Revoked
| SignatureInvalid
| Serialization (s : string)
| SigningFailed (e : CryptoError.t) (* kept as the error, not as its text *)
| ChainInvalid (s : string).

#[global] Instance t_eq_dec : EqDecision t.
Proof. solve_decision. Defined.

End CertificateError.

Module Certificate.

Record t := mk {
  version : Z;
  cert_type : CertificateType.t;
  flags : CertificateFlags.t;
  subject : list Z;
  issuer : list Z;
  not_before : Z;
  not_after : Z;
  public_key : list Z;
  signature : list Z;
  extensions : list Z;
}.

#[global] Instance t_eq_dec : EqDecision t.
Proof. solve_decision. Defined.

Definition validity_status (c : t) (now : option Z) : CertificateValidity.t :=
  if CertificateFlags.revoked (flags c) then CertificateValidity.Revoked
  else
    match now with
    | None => CertificateValidity.ClockError
    | Some now =>
        if now <? not_before c then CertificateValidity.NotYetValid
        else if not_after c <? now then CertificateValidity.Expired
        else CertificateValidity.Valid
    end.

Definition is_valid (c : t) (now : option Z) : bool :=
  bool_decide (validity_status c now = CertificateValidity.Valid).

Definition can_sign (c : t) (now : option Z) : bool :=
  CertificateFlags.can_sign (flags c) && is_valid c now.

(** [u16::try_from] of a length. *)
Definition u16_len (b : list Z) (e : string) : result CertificateError.t Z :=
  if U16_MAX <? len b then Err (CertificateError.Serialization e) else Ok (len b).

Definition to_be_signed (c : t) : result CertificateError.t (list Z) :=
  let data := [version c] ++ [CertificateType.to_u8 (cert_type c)]
    ++ be_bytes 2 (CertificateFlags.to_u16 (flags c)) in
  let? subject_len := u16_len (subject c) "subject exceeds u16 capacity" in
  let data := data ++ be_bytes 2 subject_len ++ subject c in
  let? issuer_len := u16_len (issuer c) "issuer exceeds u16 capacity" in
  let data := data ++ be_bytes 2 issuer_len ++ issuer c in
  let data := data ++ be_bytes 8 (not_before c) ++ be_bytes 8 (not_after c) in
  let data := data ++ [1] in
  let? pk_len := u16_len (public_key c) "public key exceeds u16 capacity" in
  let data := data ++ be_bytes 2 pk_len ++ public_key c in
  let? ext_len := u16_len (extensions c) "extensions exceed u16 capacity" in
  Ok (data ++ be_bytes 2 ext_len ++ extensions c).

Definition to_bytes (c : t) : result CertificateError.t (list Z) :=
  let? data := to_be_signed c in
  let? sig_len := u16_len (signature c) "signature exceeds u16 capacity" in
  Ok (data ++ [1] ++ be_bytes 2 sig_len ++ signature c).

(** A name or a value with its length before it, at [offset]; the bytes and
    the offset after them. *)
Definition read_field (data : list Z) (offset : Z) (truncated : string)
    : result CertificateError.t (list Z * Z) :=
  let? n := read_u16 data offset in
  let offset := offset + 2 in
  if len data <? offset + n then Err (CertificateError.InvalidFormat truncated)
  else
    let? b := range data offset (offset + n) in
    Ok (b, offset + n).

Definition utf8_name (b : list Z) (e : string) : result CertificateError.t (list Z) :=
  ok_or (CertificateError.InvalidFormat e) (from_utf8 b).

Definition from_bytes (data : list Z) : result CertificateError.t t :=
  if len data <? 20 then Err (CertificateError.InvalidFormat "certificate too short")
  else
    let? version := index data 0 in
    if negb (version =? CERT_VERSION) then Err (CertificateError.InvalidVersion version)
    else
      let? ty := index data 1 in
      let? cert_type :=
        ok_or (CertificateError.InvalidFormat "invalid cert type") (CertificateType.from_u8 ty) in
      let? fl := read_u16 data 2 in
      let flags := CertificateFlags.from_u16 fl in
      let? (subject, offset) := read_field data 4 "subject truncated" in
      let? subject := utf8_name subject "subject is not valid UTF-8" in
      let? (issuer, offset) := read_field data offset "issuer truncated" in
      let? issuer := utf8_name issuer "issuer is not valid UTF-8" in
      if len data <? offset + 16 then Err (CertificateError.InvalidFormat "timestamps truncated")
      else
        let? not_before := read_u64 data offset in
        let offset := offset + 8 in
        let? not_after := read_u64 data offset in
        let offset := offset + 8 in
        if len data <? offset + 3 then
          Err (CertificateError.InvalidFormat "public key header truncated")
        else
          let? (public_key, offset) := read_field data (offset + 1) "public key truncated" in
          if len data <? offset + 2 then
            Err (CertificateError.InvalidFormat "extensions header truncated")
          else
            let? (extensions, offset) := read_field data offset "extensions truncated" in
            if len data <? offset + 3 then
              Err (CertificateError.InvalidFormat "signature header truncated")
            else
              let? (signature, _) := read_field data (offset + 1) "signature truncated" in
              Ok (mk version cert_type flags subject issuer not_before not_after public_key
                    signature extensions).

Definition get_public_key (c : t) : result CertificateError.t (list Z) :=
  map_err (fun _ => CertificateError.InvalidFormat "invalid public key")
    (MlDsaPublicKey.from_bytes (public_key c)).

Section WithMlDsa.
Context {M : MlDsa}.

Definition verify (c : t) (ca_public_key : list Z) : result CertificateError.t bool :=
  let? tbs := to_be_signed c in
  let? security_level :=
    if len ca_public_key =? MlDsaPublicKey.SIZE then Ok SecurityLevel.Level3
    else if len ca_public_key =? MlDsaPublicKey.SIZE_87 then Ok SecurityLevel.Level5
    else
      Err (CertificateError.InvalidFormat
             ("invalid CA public key size: " ++ dec (len ca_public_key) ++ " (expected "
                ++ dec MlDsaPublicKey.SIZE ++ " or " ++ dec MlDsaPublicKey.SIZE_87 ++ ")")) in
  let? signature :=
    ok_or (CertificateError.InvalidFormat
             ("invalid signature size: " ++ dec (len (signature c)) ++ " (expected "
                ++ dec MlDsaSignature.SIZE ++ " or " ++ dec MlDsaSignature.SIZE_87 ++ ")"))
      (MlDsaSignature.from_bytes (signature c)) in
  match signature.verify ca_public_key tbs signature security_level with
  | Panic => Panic
  | r => Ok (is_ok r)
  end.

End WithMlDsa.

End Certificate.

Module CertificateBuilder.

Record t := mk {
  cert_type : CertificateType.t;
  flags : CertificateFlags.t;
  subject : list Z;
  issuer : list Z;
  validity_days : Z;
  public_key : option (list Z);
  extensions : list Z;
}.

Definition new : t := mk CertificateType.Client CertificateFlags.default [] [] 365 None [].

Definition with_cert_type (b : t) (cert_type : CertificateType.t) : t :=
  mk cert_type (flags b) (subject b) (issuer b) (validity_days b) (public_key b) (extensions b).

Definition with_subject (b : t) (subject : list Z) : t :=
  mk (cert_type b) (flags b) subject (issuer b) (validity_days b) (public_key b) (extensions b).

Definition with_issuer (b : t) (issuer : list Z) : t :=
  mk (cert_type b) (flags b) (subject b) issuer (validity_days b) (public_key b) (extensions b).

Definition with_validity_days (b : t) (days : Z) : t :=
  mk (cert_type b) (flags b) (subject b) (issuer b) days (public_key b) (extensions b).

Definition with_public_key (b : t) (pk : list Z) : t :=
  mk (cert_type b) (flags b) (subject b) (issuer b) (validity_days b) (Some pk) (extensions b).

Definition public_key_from_keypair (b : t) (keypair : MlDsaKeypair.t) : t :=
  with_public_key b (MlDsaKeypair.public_key keypair).

Definition with_flags (b : t) (flags : CertificateFlags.t) : t :=
  mk (cert_type b) flags (subject b) (issuer b) (validity_days b) (public_key b) (extensions b).

Definition can_sign (b : t) (value : bool) : t :=
  with_flags b (CertificateFlags.mk value (CertificateFlags.server_auth (flags b))
                  (CertificateFlags.client_auth (flags b)) (CertificateFlags.revoked (flags b))).

Definition server_auth (b : t) (value : bool) : t :=
  with_flags b (CertificateFlags.mk (CertificateFlags.can_sign (flags b)) value
                  (CertificateFlags.client_auth (flags b)) (CertificateFlags.revoked (flags b))).

Definition client_auth (b : t) (value : bool) : t :=
  with_flags b (CertificateFlags.mk (CertificateFlags.can_sign (flags b))
                  (CertificateFlags.server_auth (flags b)) value (CertificateFlags.revoked (flags b))).

(** The UTF-8 bytes of "HPN-CA". *)
Definition DEFAULT_ISSUER : list Z := [72; 80; 78; 45; 67; 65].

(** The certificate, up to its signature. *)
Definition certificate (b : t) (now not_after : Z) (public_key signature : list Z) : Certificate.t :=
  Certificate.mk CERT_VERSION (cert_type b) (flags b) (subject b)
    (if bool_decide (issuer b = []) then DEFAULT_ISSUER else issuer b)
    now not_after public_key signature (extensions b).

Section WithMlDsa.
Context {M : MlDsa}.

Definition build_and_sign (b : t) (now : option Z) (rnd : list Z) (signing_key : MlDsaKeypair.t)
    : result CertificateError.t Certificate.t :=
  let? public_key := ok_or (CertificateError.InvalidFormat "public key required") (public_key b) in
  if bool_decide (subject b = []) then Err (CertificateError.InvalidFormat "subject required")
  else
    let now := default 0 now in
    let validity := validity_days b * 24 * 60 * 60 in
    match checked_add 64 now validity with
    | None => Panic
    | Some not_after =>
        let cert := certificate b now not_after public_key in
        let? tbs := Certificate.to_be_signed (cert []) in
        let? signature :=
          map_err CertificateError.SigningFailed (MlDsaKeypair.sign signing_key rnd tbs) in
        Ok (cert (MlDsaSignature.bytes signature))
    end.

End WithMlDsa.

End CertificateBuilder.

Module CertificateStore.

Record t := mk {
  root_certs : list Certificate.t;
  server_certs : list Certificate.t;
  client_certs : list Certificate.t;
}.

Definition new : t := mk [] [] [].

Definition add_root_cert (s : t) (now : option Z) (cert : Certificate.t)
    : t * result CertificateError.t unit :=
  if negb (bool_decide (Certificate.cert_type cert = CertificateType.RootCA)) then
    (s, Err (CertificateError.InvalidFormat "not a root CA certificate"))
  else if negb (Certificate.is_valid cert now) then (s, Err CertificateError.Expired)
  else (mk (root_certs s ++ [cert]) (server_certs s) (client_certs s), Ok tt).

(** Whether the walk over the roots skips [root]. *)
Definition anchor (root cert : Certificate.t) (now : option Z) : bool :=
  bool_decide (Certificate.subject root = Certificate.issuer cert) &&
  bool_decide (Certificate.cert_type root = CertificateType.RootCA) &&
  CertificateFlags.can_sign (Certificate.flags root) && Certificate.is_valid root now.

Section WithMlDsa.
Context {M : MlDsa}.

(** The walk; [root_now i] is the clock when root [i] is considered. *)
Fixpoint walk (roots : list Certificate.t) (cert : Certificate.t) (root_now : nat -> option Z)
    : result CertificateError.t unit :=
  match roots with
  | [] => Err (CertificateError.ChainInvalid "no trusted CA found for issuer")
  | root :: roots =>
      let rest := walk roots cert (fun i => root_now (S i)) in
      if negb (anchor root cert (root_now O)) then rest
      else
        let? root_pk := Certificate.get_public_key root in
        let? ok := Certificate.verify cert root_pk in
        if ok then Ok tt else rest
  end.

(** [again]: the second reading, when the certificate was not valid. *)
Definition verify_certificate (s : t) (now again : option Z) (root_now : nat -> option Z)
    (cert : Certificate.t) : result CertificateError.t unit :=
  if negb (Certificate.is_valid cert now) then
    if CertificateFlags.revoked (Certificate.flags cert) then Err CertificateError.Revoked
    else if default 0 again <? Certificate.not_before cert then Err CertificateError.NotYetValid
    else Err CertificateError.Expired
  else walk (root_certs s) cert root_now.

Definition add_server_cert (s : t) (now again : option Z) (root_now : nat -> option Z)
    (cert : Certificate.t) : t * result CertificateError.t unit :=
  if negb (bool_decide (Certificate.cert_type cert = CertificateType.Server)) then
    (s, Err (CertificateError.InvalidFormat "not a server certificate"))
  else if negb (CertificateFlags.server_auth (Certificate.flags cert)) then
    (s, Err (CertificateError.InvalidFormat
               "server certificate missing the `server_auth` flag (FIX-023)"))
  else
    match verify_certificate s now again root_now cert with
    | Ok _ => (mk (root_certs s) (server_certs s ++ [cert]) (client_certs s), Ok tt)
    | e => (s, e)
    end.

Definition add_client_cert (s : t) (now again : option Z) (root_now : nat -> option Z)
    (cert : Certificate.t) : t * result CertificateError.t unit :=
  if negb (bool_decide (Certificate.cert_type cert = CertificateType.Client)) then
    (s, Err (CertificateError.InvalidFormat "not a client certificate"))
  else if negb (CertificateFlags.client_auth (Certificate.flags cert)) then
    (s, Err (CertificateError.InvalidFormat
               "client certificate missing the `client_auth` flag (FIX-023)"))
  else
    match verify_certificate s now again root_now cert with
    | Ok _ => (mk (root_certs s) (server_certs s) (client_certs s ++ [cert]), Ok tt)
    | e => (s, e)
    end.

End WithMlDsa.

(** [Iterator::find]; the clock is read for each certificate of the name. *)
Fixpoint find_cert (certs : list Certificate.t) (now : nat -> option Z) (subject : list Z)
    : option Certificate.t :=
  match certs with
  | [] => None
  | c :: certs =>
      if bool_decide (Certificate.subject c = subject) && Certificate.is_valid c (now O)
      then Some c else find_cert certs (fun i => now (S i)) subject
  end.

Definition find_server_cert (s : t) (now : nat -> option Z) (subject : list Z) : option Certificate.t :=
  find_cert (server_certs s) now subject.

Definition find_client_cert (s : t) (now : nat -> option Z) (subject : list Z) : option Certificate.t :=
  find_cert (client_certs s) now subject.

End CertificateStore.

(** * The format *)

Module CertificateFormat.
Import Certificate.

(** What fits into the length fields and the fixed-width fields. *)
Definition fits (b : list Z) : Prop := bytes_ok b /\ len b <= U16_MAX.

Definition name_ok (b : list Z) : Prop := fits b /\ utf8_valid b = true.

#[global] Instance fits_dec b : Decision (fits b).
Proof. unfold fits. apply _. Defined.

#[global] Instance name_ok_dec b : Decision (name_ok b).
Proof. unfold name_ok. apply _. Defined.

Definition body_ok (c : t) : Prop :=
  name_ok (subject c) /\ name_ok (issuer c) /\ u64 (not_before c) /\ u64 (not_after c) /\
  fits (public_key c) /\ fits (extensions c).

Definition wf (c : t) : Prop := version c = CERT_VERSION /\ body_ok c /\ fits (signature c).

#[global] Instance wf_dec c : Decision (wf c).
Proof. unfold wf, body_ok. apply _. Defined.

Definition field (b : list Z) : list Z := be_bytes 2 (len b) ++ b.

(** The signed part. *)
Definition tbs (c : t) : list Z :=
  [version c] ++ [CertificateType.to_u8 (cert_type c)]
  ++ be_bytes 2 (CertificateFlags.to_u16 (flags c)) ++ field (subject c) ++ field (issuer c)
  ++ be_bytes 8 (not_before c) ++ be_bytes 8 (not_after c) ++ [1] ++ field (public_key c)
  ++ field (extensions c).

Definition wire (c : t) : list Z := tbs c ++ [1] ++ field (signature c).

Lemma u16_len_ok b e : len b <= U16_MAX -> u16_len b e = Ok (len b).
Proof. intros H. unfold u16_len. by rewrite (proj2 (Z.ltb_ge _ _) H). Qed.

Lemma u16_len_inv b e n : u16_len b e = Ok n -> n = len b /\ len b <= U16_MAX.
Proof. unfold u16_len. intros H. step_in H. injection H as <-. b2p. done. Qed.

Lemma to_be_signed_ok c : body_ok c -> to_be_signed c = Ok (tbs c).
Proof.
  intros ([[_ ?] _] & [[_ ?] _] & _ & _ & [_ ?] & [_ ?]). unfold to_be_signed, tbs, field.
  rewrite !u16_len_ok by done. sbind. by rewrite <- !app_assoc.
Qed.

(** Whatever is signed is what [tbs] says, and fits. *)
Lemma to_be_signed_inv c b :
  to_be_signed c = Ok b ->
  b = tbs c /\ len (subject c) <= U16_MAX /\ len (issuer c) <= U16_MAX /\
  len (public_key c) <= U16_MAX /\ len (extensions c) <= U16_MAX.
Proof.
  unfold to_be_signed. intros H. repeat (step_call H as E; apply u16_len_inv in E as [-> ?]).
  injection H as <-. split; [|done]. unfold tbs, field. by rewrite <- !app_assoc.
Qed.

Lemma to_bytes_ok c : wf c -> to_bytes c = Ok (wire c).
Proof.
  intros (_ & Hb & [_ Hs]). unfold to_bytes. rewrite to_be_signed_ok by done. sbind.
  rewrite u16_len_ok by done. sbind. done.
Qed.

Lemma len_field b : len (field b) = 2 + len b.
Proof. unfold field. by rewrite len_app, len_be_bytes. Qed.

Lemma field_inj b b' r r' :
  len b <= U16_MAX -> len b' <= U16_MAX -> field b ++ r = field b' ++ r' -> b = b' /\ r = r'.
Proof.
  unfold field, U16_MAX. intros Hb Hb' H. rewrite <- !app_assoc in H.
  apply app_cut in H as [Hl H]; [|by rewrite !len_be_bytes].
  apply be_bytes_inj in Hl; [|pose proof (len_nonneg b); lens..|pose proof (len_nonneg b'); lens].
  by apply app_cut in H.
Qed.

Lemma read_field_at buf o a b r e :
  rest_at buf o (field b ++ r) -> a = o -> len b <= U16_MAX ->
  read_field buf a e = Ok (b, a + 2 + len b) /\ rest_at buf (a + 2 + len b) r.
Proof.
  intros R -> Hb. unfold field, U16_MAX in *. rewrite <- app_assoc in R.
  pose proof (rest_at_len _ _ _ R) as HL. autorewrite with len in HL.
  pose proof (len_nonneg b). pose proof (len_nonneg r). unfold read_field. eat. check_len.
  eat. split; [done|]. by rewrite len_be_bytes in R.
Qed.

Lemma read_field_inv buf o e b o' :
  bytes_ok buf -> read_field buf o e = Ok (b, o') ->
  fits b /\ 0 <= o /\ o' = o + 2 + len b /\ o' <= len buf.
Proof.
  unfold read_field, fits, U16_MAX. intros Hb H. repeat step_in H. injection H as <- <-. b2p.
  access_facts. unfold uint in *. split_and!; done || lia.
Qed.

Lemma read_field_no_panic buf o e :
  bytes_ok buf -> 0 <= o -> o + 2 <= len buf -> read_field buf o e <> Panic.
Proof. unfold read_field. intros Hb Ho Hl H. repeat (step_in H; b2p); no_abort. Qed.

Lemma read_field_panic buf o e :
  bytes_ok buf -> 0 <= o -> read_field buf o e = Panic <-> len buf < o + 2.
Proof.
  intros Hb Ho. split.
  - intros H. destruct (decide (o + 2 <= len buf)); [|lia]. by apply read_field_no_panic in H.
  - intros H. unfold read_field. by rewrite read_u16_range, range_out by lia.
Qed.

Lemma utf8_name_ok b e : name_ok b -> utf8_name b e = Ok b.
Proof. intros [_ H]. unfold utf8_name, from_utf8. by rewrite H. Qed.

Lemma utf8_name_inv b b' e : utf8_name b e = Ok b' -> b' = b /\ utf8_valid b = true.
Proof.
  unfold utf8_name, from_utf8. intros H. apply ok_or_ok in H. destruct (utf8_valid b); [|done].
  by injection H as <-.
Qed.

Lemma utf8_name_no_panic b e : utf8_name b e <> Panic.
Proof. unfold utf8_name. intros H. by apply ok_or_panic in H. Qed.

(** Read the next field at the cursor. *)
Ltac eat_field :=
  match goal with
  | R : rest_at ?buf ?o (field ?b ++ ?r) |- context [read_field ?buf ?a ?e] =>
      let H := fresh in
      destruct (read_field_at buf o a b r e R) as [H R']; [offsets|done|];
      rewrite H; clear H R; rename R' into R; sbind
  end.

Lemma certificate_roundtrip c r : wf c -> from_bytes (wire c ++ r) = Ok c.
Proof.
  intros (Hv & (Hs & Hi & Hb & Ha & [? ?] & [? ?]) & [? ?]). unfold wire, tbs.
  pose proof Hs as [[? ?] _]. pose proof Hi as [[? ?] _].
  rewrite <- !app_assoc. set (buf := _ ++ _). start_at buf. unfold buf at 2 in R. unfold buf at 2 in HL.
  autorewrite with len in HL. rewrite !len_field in HL.
  pose proof (len_nonneg r). pose proof (len_nonneg (subject c)). pose proof (len_nonneg (issuer c)).
  pose proof (len_nonneg (public_key c)). pose proof (len_nonneg (extensions c)).
  pose proof (len_nonneg (signature c)).
  unfold from_bytes. check_len. eat. rewrite Hv. change (CERT_VERSION =? CERT_VERSION) with true.
  cbn [negb]. cbv iota. eat. rewrite CertificateType.cert_type_roundtrip. sbind.
  pose proof (CertificateFlags.flags_bound (flags c)). eat. rewrite CertificateFlags.flags_roundtrip.
  eat_field. rewrite utf8_name_ok by done. sbind. eat_field. rewrite utf8_name_ok by done. sbind.
  check_len. do 2 eat. check_len. apply rest_at_app in R. eat_field. check_len. eat_field. check_len.
  apply rest_at_app in R. eat_field. destruct c. simpl in *. by subst.
Qed.

Lemma bytes_ok_field b : bytes_ok b -> bytes_ok (field b).
Proof. intros H. apply bytes_ok_app. auto with hpn. Qed.

Lemma certificate_bytes c : wf c -> bytes_ok (wire c).
Proof.
  intros (Hv & ([[? _] _] & [[? _] _] & _ & _ & [? _] & [? _]) & [? _]).
  assert (bytes_ok [1]) by by_decide.
  assert (bytes_ok [CertificateType.to_u8 (cert_type c)]) by (destruct (cert_type c); by_decide).
  unfold wire, tbs. rewrite Hv, !bytes_ok_app. split_and!; auto using bytes_ok_field with hpn.
Qed.

(** The part of the header that is read before the subject. *)
Lemma certificate_sound b c : bytes_ok b -> from_bytes b = Ok c -> wf c.
Proof.
  intros Hb H. unfold from_bytes in H. do 3 step_in H. b2p. do 3 step_in H.
  step_call H as Es. destruct a3 as [s o1]. step_call H as Eu. step_call H as Ei.
  destruct a4 as [i o2]. step_call H as Eu'. do 3 step_in H. step_in H.
  step_call H as Ep. destruct a7 as [pk o3]. step_in H. step_call H as Ee. destruct a7 as [ex o4].
  step_in H. step_call H as Eg. destruct a7 as [sg o5]. injection H as <-.
  apply utf8_name_inv in Eu as [-> ?], Eu' as [-> ?].
  apply read_field_inv in Es as [? _], Ei as [? _], Ep as [? _], Ee as [? _], Eg as [? _]; try done.
  access_facts. unfold wf, body_ok, name_ok. cbn [version subject issuer not_before not_after
    public_key extensions signature]. done.
Qed.

(** Input that ends inside the length of the issuer. *)
Definition cut_at_issuer (b : list Z) : Prop :=
  20 <= len b /\
  exists (ty : CertificateType.t) (f : Z) (s r : list Z),
    b = [CERT_VERSION] ++ [CertificateType.to_u8 ty] ++ be_bytes 2 f ++ field s ++ r /\
    u16 f /\ name_ok s /\ len r <= 1.

Lemma read_u16_split buf o x :
  bytes_ok buf -> read_u16 (E:=CertificateError.t) buf o = Ok x ->
  drop (Z.to_nat o) buf = be_bytes 2 x ++ drop (Z.to_nat (o + 2)) buf.
Proof.
  intros Hb H. rewrite read_u16_range in H. step_in H. injection H as <-.
  pose proof Hs as (? & Hl & _)%range_facts; [|done]. apply range_inv in Hs as (? & ? & ? & -> & _).
  rewrite be_bytes_from_be by (done || (unfold len in Hl; lia)). symmetry. apply slice_drop; lia.
Qed.

Lemma read_field_split buf o e b o' :
  bytes_ok buf -> read_field buf o e = Ok (b, o') ->
  drop (Z.to_nat o) buf = field b ++ drop (Z.to_nat o') buf.
Proof.
  intros Hb H. unfold read_field in H. step_in H. step_in H. step_in H. injection H as <- <-. b2p.
  pose proof Hs as [? ?]%read_u16_facts; [|done]. apply read_u16_split in Hs; [|done]. rewrite Hs.
  apply range_inv in Hs0 as (? & ? & ? & -> & Hl). unfold field. rewrite Hl, <- app_assoc.
  f_equal; [f_equal; lia|]. symmetry. apply slice_drop; lia.
Qed.

Lemma index_split_drop (buf : list Z) o x :
  index (E:=CertificateError.t) buf o = Ok x ->
  drop (Z.to_nat o) buf = [x] ++ drop (Z.to_nat (o + 1)) buf.
Proof.
  intros [? H]%index_inv. rewrite (drop_S _ _ _ H). simpl. do 2 f_equal. lia.
Qed.

Lemma cert_type_inv v ty : CertificateType.from_u8 v = Some ty -> v = CertificateType.to_u8 ty.
Proof.
  unfold CertificateType.from_u8. intros H. repeat (case_match; b2p; simplify_eq/=; try done).
Qed.

(** No field aborts once its length can be read. *)
Ltac field_no_abort :=
  match goal with
  | Hb : bytes_ok ?b, H : read_field ?b _ _ = Panic |- _ =>
      exfalso; apply (read_field_no_panic _ _ _ Hb) in H; done || lia
  | H : utf8_name _ _ = Panic |- _ => by apply utf8_name_no_panic in H
  | _ => no_abort
  end.

Lemma from_bytes_panic_cut b : bytes_ok b -> from_bytes b = Panic -> cut_at_issuer b.
Proof.
  intros Hb H. unfold from_bytes in H. do 3 (step_in H; b2p; try no_abort).
  do 3 (step_in H; try no_abort). step_call H as Es; [|field_no_abort].
  destruct a3 as [s o1]. step_call H as Eu; [|field_no_abort].
  apply utf8_name_inv in Eu as [-> ?]. pose proof Es as (? & ? & ? & ?)%read_field_inv; [|done].
  pose proof (len_nonneg s). step_call H as Ei.
  - exfalso. destruct a3 as [i o2]. apply read_field_inv in Ei as (? & ? & ? & ?); [|done].
    pose proof (len_nonneg i). step_call H as Eu'; [|field_no_abort].
    do 4 (step_in H; b2p; try field_no_abort). step_call H as Ep; [|field_no_abort].
    destruct a6 as [pk o3]. apply read_field_inv in Ep as (? & ? & ? & ?); [|done]. pose proof (len_nonneg pk).
    step_in H. b2p. step_call H as Ee; [|field_no_abort].
    destruct a6 as [ex o4]. apply read_field_inv in Ee as (? & ? & ? & ?); [|done]. pose proof (len_nonneg ex).
    step_in H. b2p. step_call H as Eg; [by destruct a6|field_no_abort].
  - split; [done|]. apply read_field_panic in Ei; [|done|lia]. subst a.
    exists a1, a2, s, (drop (Z.to_nat o1) b). split_and!; [|by apply read_u16_facts in Hs2 as [? _]|done|].
    + apply ok_or_ok, cert_type_inv in Hs1. subst a0.
      etransitivity; [exact (index_split_drop _ _ _ Hs)|f_equal].
      etransitivity; [exact (index_split_drop _ _ _ Hs0)|f_equal].
      etransitivity; [exact (read_u16_split _ _ _ Hb Hs2)|f_equal]. exact (read_field_split _ _ _ _ _ Hb Es).
    + rewrite len_drop by lia. lia.
Qed.

Lemma from_bytes_cut_panic b : bytes_ok b -> cut_at_issuer b -> from_bytes b = Panic.
Proof.
  intros Hb (Hl & ty & f & s & r & Hw & Hf & Hn & Hr). pose proof Hn as [[_ ?] _].
  start_at b. rewrite Hw in R at 2. rewrite Hw in HL at 2. autorewrite with len in HL.
  rewrite len_field in HL. pose proof (len_nonneg s). unfold from_bytes. check_len. eat.
  change (CERT_VERSION =? CERT_VERSION) with true. cbn [negb]. cbv iota. eat.
  rewrite CertificateType.cert_type_roundtrip. sbind. eat. eat_field. rewrite utf8_name_ok by done. sbind.
  by rewrite (proj2 (read_field_panic b (4 + 2 + len s) _ Hb ltac:(lia))) by lia.
Qed.

(** A signature is over the bytes of one certificate only. *)
Lemma tbs_inj c c' :
  len (subject c) <= U16_MAX -> len (issuer c) <= U16_MAX -> len (public_key c) <= U16_MAX ->
  len (extensions c) <= U16_MAX -> u64 (not_before c) -> u64 (not_after c) -> wf c' ->
  tbs c = tbs c' ->
  c' = mk (version c) (cert_type c) (flags c) (subject c) (issuer c) (not_before c) (not_after c)
         (public_key c) (signature c') (extensions c).
Proof.
  intros ? ? ? ? ? ? (_ & ([[_ ?] _] & [[_ ?] _] & ? & ? & [_ ?] & [_ ?]) & _) X. unfold tbs in X.
  apply app_cut in X as [Hv X]; [|done]. apply app_cut in X as [Ht X]; [|done].
  apply app_cut in X as [Hf X]; [|by rewrite !len_be_bytes].
  apply field_inj in X as [Hs X]; [|done..]. apply field_inj in X as [Hi X]; [|done..].
  apply app_cut in X as [Hb X]; [|by rewrite !len_be_bytes].
  apply app_cut in X as [Ha X]; [|by rewrite !len_be_bytes]. apply app_cut in X as [_ X]; [|done].
  apply field_inj in X as [Hp X]; [|done..]. rewrite <- (app_nil_r (field (extensions c))) in X.
  rewrite <- (app_nil_r (field (extensions c'))) in X. apply field_inj in X as [He _]; [|done..].
  injection Hv as Hv. injection Ht as Ht%CertificateType.cert_type_inj.
  apply be_bytes_inj in Hf; [|apply CertificateFlags.flags_bound..].
  apply CertificateFlags.flags_inj in Hf. apply be_bytes_inj in Hb; [|done..].
  apply be_bytes_inj in Ha; [|done..]. destruct c, c'. simpl in *. by subst.
Qed.

End CertificateFormat.

(** * Trust *)

Module Trust.
Import CertificateFormat.

Section Trust.
Context {M : MlDsa}.

(** The level a certificate authority's key is used at. *)
Definition level_of (pk : list Z) : option SecurityLevel.t :=
  if len pk =? MlDsaPublicKey.SIZE then Some SecurityLevel.Level3
  else if len pk =? MlDsaPublicKey.SIZE_87 then Some SecurityLevel.Level5
  else None.

(** The signature of [c] over its contents verifies under [pk]. *)
Definition signed_by (c : Certificate.t) (pk : list Z) : Prop :=
  exists level s,
    level_of pk = Some level /\ MlDsaSignature.from_bytes (Certificate.signature c) = Some s /\
    signature.verify pk (tbs c) s level = Ok tt.

Lemma verify_inv c pk b :
  Certificate.verify c pk = Ok b -> b = true <-> signed_by c pk.
Proof.
  unfold Certificate.verify, signed_by. intros H. step_call H as Et.
  apply to_be_signed_inv in Et as [-> _]. fold (level_of pk) in H.
  step_call H as El. step_call H as Eg. apply ok_or_ok in Eg.
  assert (level_of pk = Some a) as Hl.
  { unfold level_of. repeat case_match; congruence. }
  destruct (signature.verify pk (tbs c) a0 a) as [[]|e|] eqn:E; [..|done]; injection H as <-.
  - split; [|done]. intros _. by exists a, a0.
  - split; [done|]. intros (l & s & ? & ? & ?). congruence.
Qed.

Lemma signature_verify_no_panic pk m s l : signature.verify pk m s l <> Panic.
Proof.
  unfold signature.verify. intros H.
  destruct l; repeat (step_in H; access_facts).
Qed.

(** A certificate that can be checked at all: its signature has a size of the
    scheme and its contents fit the format. *)
Definition checkable (c : Certificate.t) : Prop :=
  wf c /\ MlDsaSignature.from_bytes (Certificate.signature c) <> None.

Lemma verify_checkable c pk :
  checkable c -> level_of pk <> None -> exists b, Certificate.verify c pk = Ok b.
Proof.
  intros [(_ & Hb & _) Hs] Hl. unfold Certificate.verify. rewrite to_be_signed_ok by done. sbind.
  unfold level_of in Hl. destruct (MlDsaSignature.from_bytes _) as [s|]; [|done].
  repeat (case_match; [|]); try done; sbind;
    match goal with |- context [signature.verify ?a ?b ?c ?d] =>
      pose proof (signature_verify_no_panic a b c d); destruct (signature.verify a b c d) end; eauto; done.
Qed.

Lemma get_public_key_ok root :
  level_of (Certificate.public_key root) <> None ->
  Certificate.get_public_key root = Ok (Certificate.public_key root).
Proof.
  unfold Certificate.get_public_key, MlDsaPublicKey.from_bytes, level_of. intros H.
  by repeat case_match.
Qed.

Lemma get_public_key_inv root pk :
  Certificate.get_public_key root = Ok pk ->
  pk = Certificate.public_key root /\ level_of pk <> None.
Proof.
  unfold Certificate.get_public_key, MlDsaPublicKey.from_bytes, level_of. intros H.
  apply map_err_ok in H. step_in H. injection H as <-. split; [done|]. by repeat case_match.
Qed.

(** A root that vouches for [c] at the time [now]. *)
Definition vouches (root c : Certificate.t) (now : option Z) : Prop :=
  CertificateStore.anchor root c now = true /\ signed_by c (Certificate.public_key root).

Lemma walk_sound roots c now :
  CertificateStore.walk roots c now = Ok tt ->
  exists i root, roots !! i = Some root /\ vouches root c (now i).
Proof.
  revert now. induction roots as [|root roots IH]; intros now H; simpl in H; [done|].
  destruct (CertificateStore.anchor root c (now O)) eqn:Ea; simpl in H.
  - step_call H as Ep. step_call H as Ev. apply get_public_key_inv in Ep as [-> _].
    destruct a0; [|by apply IH in H as (i & r & ? & ?); exists (S i), r].
    exists O, root. split; [done|]. split; [done|]. by apply (verify_inv _ _ _ Ev).
  - apply IH in H as (i & r & ? & ?). by exists (S i), r.
Qed.

Lemma walk_complete roots c now :
  checkable c ->
  (forall i root, roots !! i = Some root -> CertificateStore.anchor root c (now i) = true ->
     level_of (Certificate.public_key root) <> None) ->
  CertificateStore.walk roots c now =
    Err (CertificateError.ChainInvalid "no trusted CA found for issuer") \/
  CertificateStore.walk roots c now = Ok tt.
Proof.
  intros Hc. revert now. induction roots as [|root roots IH]; intros now Hk; simpl; [by left|].
  assert (forall i r, roots !! i = Some r -> CertificateStore.anchor r c (now (S i)) = true ->
    level_of (Certificate.public_key r) <> None) as Hk' by (intros i; apply (Hk (S i))).
  destruct (CertificateStore.anchor root c (now O)) eqn:Ea; simpl; [|by apply IH].
  pose proof (Hk O root eq_refl Ea) as Hl. rewrite get_public_key_ok by done. sbind.
  destruct (verify_checkable c _ Hc Hl) as [b ->]. sbind. destruct b; [by right|by apply IH].
Qed.

Lemma walk_vouched roots c now i root :
  checkable c ->
  (forall i root, roots !! i = Some root -> CertificateStore.anchor root c (now i) = true ->
     level_of (Certificate.public_key root) <> None) ->
  roots !! i = Some root -> vouches root c (now i) -> CertificateStore.walk roots c now = Ok tt.
Proof.
  intros Hc. revert now i. induction roots as [|r roots IH]; intros now i Hk Hi [Ha Hs]; [done|].
  simpl. pose proof (Hk i root Hi Ha) as Hl.
  assert (forall i r, roots !! i = Some r -> CertificateStore.anchor r c (now (S i)) = true ->
    level_of (Certificate.public_key r) <> None) as Hk' by (intros j; apply (Hk (S j))).
  destruct i as [|i].
  - injection Hi as ->. rewrite Ha. cbn [negb]. rewrite get_public_key_ok by done. sbind.
    destruct (verify_checkable c _ Hc Hl) as [b Hv]. rewrite Hv. sbind.
    by rewrite (proj2 (verify_inv _ _ _ Hv) Hs).
  - pose proof (IH (fun j => now (S j)) i Hk' Hi (conj Ha Hs)) as Hw.
    destruct (CertificateStore.anchor r c (now O)) eqn:Er; simpl; [|done].
    pose proof (Hk O r eq_refl Er) as Hr. rewrite get_public_key_ok by done. sbind.
    destruct (verify_checkable c _ Hc Hr) as [b ->]. sbind. by destruct b.
Qed.

Definition step (s s' : CertificateStore.t) : Prop :=
  exists now again root_now c,
    s' = fst (CertificateStore.add_root_cert s now c) \/
    s' = fst (CertificateStore.add_server_cert s now again root_now c) \/
    s' = fst (CertificateStore.add_client_cert s now again root_now c).

Definition vouched (s : CertificateStore.t) (c : Certificate.t) : Prop :=
  CertificateFlags.revoked (Certificate.flags c) = false /\
  exists root now, root ∈ CertificateStore.root_certs s /\ vouches root c now.

Definition trusted (s : CertificateStore.t) : Prop :=
  Forall (fun c => Certificate.cert_type c = CertificateType.RootCA) (CertificateStore.root_certs s) /\
  Forall (fun c => Certificate.cert_type c = CertificateType.Server /\
    CertificateFlags.server_auth (Certificate.flags c) = true /\ vouched s c)
    (CertificateStore.server_certs s) /\
  Forall (fun c => Certificate.cert_type c = CertificateType.Client /\
    CertificateFlags.client_auth (Certificate.flags c) = true /\ vouched s c)
    (CertificateStore.client_certs s).

Lemma verify_certificate_sound s now again root_now c :
  CertificateStore.verify_certificate s now again root_now c = Ok tt ->
  Certificate.is_valid c now = true /\ vouched s c /\
  exists i root, CertificateStore.root_certs s !! i = Some root /\ vouches root c (root_now i).
Proof.
  unfold CertificateStore.verify_certificate. intros H.
  destruct (Certificate.is_valid c now) eqn:Ev; [|by repeat case_match]. simpl in H.
  apply walk_sound in H as (i & root & Hi & Hv). split; [done|]. split; [|by eauto]. split.
  - unfold Certificate.is_valid, Certificate.validity_status in Ev. by destruct (CertificateFlags.revoked _).
  - exists root, (root_now i). split; [|done]. by eapply list_elem_of_lookup_2.
Qed.

(** Adding to the store keeps what was vouched for. *)
Lemma vouched_more s s' c :
  CertificateStore.root_certs s ⊆ CertificateStore.root_certs s' -> vouched s c -> vouched s' c.
Proof. intros Hr [? (root & now & ? & ?)]. split; [done|]. exists root, now. split; [by apply Hr|done]. Qed.

Lemma trusted_step s s' : step s s' -> trusted s -> trusted s'.
Proof.
  intros (now & again & root_now & c & H) (Hr & Hs & Hc).
  destruct H as [-> | [-> | ->]].
  - unfold CertificateStore.add_root_cert. repeat (case_match; [done|]). b2p. simpl.
    split_and!; [apply Forall_app; split; [done|by constructor]|..]; simpl;
      (eapply Forall_impl; [eassumption|]; simpl; intros x (? & ? & ?); split_and!; try done;
       eapply vouched_more; [|done]; simpl; set_solver).
  - unfold CertificateStore.add_server_cert. repeat (case_match; [done|]). b2p.
    destruct (CertificateStore.verify_certificate _ _ _ _ _) as [[]|e|] eqn:E; [|done..].
    apply verify_certificate_sound in E as (_ & Hv & _). simpl.
    split_and!; [done|apply Forall_app; split; [done|]|done]. by constructor.
  - unfold CertificateStore.add_client_cert. repeat (case_match; [done|]). b2p.
    destruct (CertificateStore.verify_certificate _ _ _ _ _) as [[]|e|] eqn:E; [|done..].
    apply verify_certificate_sound in E as (_ & Hv & _). simpl.
    split_and!; [done|done|apply Forall_app; split; [done|]]. by constructor.
Qed.

Lemma find_cert_sound certs now name c :
  CertificateStore.find_cert certs now name = Some c ->
  exists i, certs !! i = Some c /\ Certificate.subject c = name /\ Certificate.is_valid c (now i) = true.
Proof.
  revert now. induction certs as [|x certs IH]; intros now H; simpl in H; [done|].
  destruct (bool_decide _ && _) eqn:E.
  - b2p. injection H as ->. by exists O.
  - apply IH in H as (i & ? & ? & ?). by exists (S i).
Qed.

(** What [verify_certificate] answers for a certificate that can be checked,
    when no root of the issuer's name has a key of a wrong size. *)
Lemma chain_decides s now again root_now c :
  checkable c ->
  (forall i root, CertificateStore.root_certs s !! i = Some root ->
     CertificateStore.anchor root c (root_now i) = true ->
     level_of (Certificate.public_key root) <> None) ->
  CertificateStore.verify_certificate s now again root_now c =
    match Certificate.validity_status c now with
    | CertificateValidity.Valid => CertificateStore.walk (CertificateStore.root_certs s) c root_now
    | CertificateValidity.Revoked => Err CertificateError.Revoked
    | _ =>
        if default 0 again <? Certificate.not_before c then Err CertificateError.NotYetValid
        else Err CertificateError.Expired
    end /\
  (CertificateStore.walk (CertificateStore.root_certs s) c root_now = Ok tt <->
   exists i root, CertificateStore.root_certs s !! i = Some root /\ vouches root c (root_now i)).
Proof.
  intros Hc Hk. split.
  - unfold CertificateStore.verify_certificate, Certificate.is_valid, Certificate.validity_status.
    by repeat case_match.
  - split; [apply walk_sound|]. intros (i & root & ? & ?). by eapply walk_vouched.
Qed.

(** A root of the issuer's name whose key has no valid size ends the walk, so
    that a qualifying root behind it is not tried. *)
Lemma malformed_root_blocks root roots c now :
  CertificateStore.anchor root c (now O) = true -> level_of (Certificate.public_key root) = None ->
  CertificateStore.walk (root :: roots) c now =
    Err (CertificateError.InvalidFormat "invalid public key").
Proof.
  intros Ha Hl. simpl. rewrite Ha. simpl.
  unfold Certificate.get_public_key, MlDsaPublicKey.from_bytes, level_of in *. by repeat case_match.
Qed.

End Trust.

(** * Issuing *)

Section Issue.
Context {M : MlDsa} {L : MlDsaLaws}.
Import CertificateBuilder.

Definition buildable (b : CertificateBuilder.t) (now : Z) : Prop :=
  name_ok (subject b) /\ subject b <> [] /\ name_ok (issuer b) /\ fits (extensions b) /\ 0 <= now /\
  u32 (validity_days b) /\ now + validity_days b * 86400 <= U64_MAX /\
  match public_key b with Some pk => fits pk | None => False end.

Lemma generated_level_of seed level :
  level_of (MlDsaKeypair.public_key (MlDsaKeypair.generate_with_level seed level)) = Some level.
Proof.
  destruct (MlDsaKeypair.generate_wf seed level) as (_ & _ & Hl & _).
  unfold level_of. rewrite Hl. by destruct level.
Qed.

(** A builder with valid contents makes a certificate of these contents, valid
    for the chosen time, which verifies under the key that signed it. *)
Lemma build_and_sign_ok b now rnd seed level :
  buildable b now ->
  let key := MlDsaKeypair.generate_with_level seed level in
  exists c, build_and_sign b (Some now) rnd key = Ok c /\ checkable c /\
    signed_by c (MlDsaKeypair.public_key key) /\
    Certificate.cert_type c = cert_type b /\ Certificate.flags c = flags b /\
    Certificate.subject c = subject b /\
    Certificate.issuer c = (if bool_decide (issuer b = []) then DEFAULT_ISSUER else issuer b) /\
    Some (Certificate.public_key c) = public_key b /\
    Certificate.not_before c = now /\ Certificate.not_after c = now + validity_days b * 86400.
Proof.
  intros (Hs & Hne & Hi & He & Hn & Hd & Hu & Hp) key. unfold build_and_sign.
  destruct (public_key b) as [pk|]; [|done]. sbind. rewrite bool_decide_eq_false_2 by done.
  unfold checked_add. replace (validity_days b * 24 * 60 * 60) with (validity_days b * 86400) by lia.
  simpl (default 0 (Some now)). unfold U64_MAX, uint in *.
  rewrite (proj2 (Z.ltb_lt _ (2 ^ 64))) by lia.
  set (cert := certificate b now _ pk).
  assert (name_ok (if bool_decide (issuer b = []) then DEFAULT_ISSUER else issuer b)) as Hi'
    by (case_match; [by_decide|done]).
  assert (forall sig, body_ok (cert sig)) as Hb
    by (intros sig; unfold body_ok, cert, uint; simpl; split_and!; try done; lia).
  rewrite to_be_signed_ok by done. sbind.
  destruct (MlDsaKeypair.sign_verifies seed level rnd (tbs (cert []))) as (sg & Hsg & Hlv & [Hw Hsz] & Hv).
  fold key in Hsg, Hv. rewrite Hsg. sbind. eexists. split; [done|].
  assert (MlDsaSignature.from_bytes (MlDsaSignature.bytes sg) = Some sg) as Hf.
  { unfold MlDsaSignature.from_bytes. rewrite Hsz. destruct sg as [bs l]. simpl in *. subst l. by destruct level. }
  split_and!; try done.
  - split; [|simpl; by rewrite Hf]. split_and!; [done|done|]. split; [done|]. simpl. rewrite Hsz.
    by destruct (MlDsaSignature.security_level sg).
  - exists level, sg. split_and!; [apply generated_level_of|done|done].
Qed.

End Issue.
End Trust.

Import CertificateFormat Trust.

(** Certificates survive the wire, and a signature speaks for one
    certificate.  Every well-formed certificate is recovered from its encoding,
    also with bytes after it; what the decoder accepts is well formed; it
    aborts on exactly the inputs that end inside the length of the issuer; and
    two certificates with the same signed bytes differ at most in their
    signatures. *)
Lemma certificate_format :
  (forall c, wf c ->
     exists b, Certificate.to_bytes c = Ok b /\ bytes_ok b /\
       forall r, Certificate.from_bytes (b ++ r) = Ok c) /\
  (forall b c, bytes_ok b -> Certificate.from_bytes b = Ok c -> wf c) /\
  (forall b, bytes_ok b -> Certificate.from_bytes b = Panic <-> cut_at_issuer b) /\
  (forall c c' b, wf c -> wf c' ->
     Certificate.to_be_signed c = Ok b -> Certificate.to_be_signed c' = Ok b ->
     Certificate.to_bytes c' =
       Certificate.to_bytes
         (Certificate.mk (Certificate.version c) (Certificate.cert_type c) (Certificate.flags c)
            (Certificate.subject c) (Certificate.issuer c) (Certificate.not_before c)
            (Certificate.not_after c) (Certificate.public_key c) (Certificate.signature c')
            (Certificate.extensions c))).
Proof.
  split_and!.
  - intros c Hc. exists (wire c). split_and!; [by apply to_bytes_ok|by apply certificate_bytes|].
    intros r. by apply certificate_roundtrip.
  - apply certificate_sound.
  - intros b Hb. split; [by apply from_bytes_panic_cut|by apply from_bytes_cut_panic].
  - intros c c' b (_ & ([[_ ?] _] & [[_ ?] _] & ? & ? & [_ ?] & [_ ?]) & _) Hc' E E'.
    apply to_be_signed_inv in E as [-> _], E' as [Ht _]. f_equal. by apply tbs_inj.
Qed.

(** C27: the store answers only with certificates a root vouches for.  In every
    store built from the empty one by adding certificates, what a search for a
    server (client) name returns has this name, is valid at the time of the
    search, carries the flag for its use, is not revoked, and its contents are
    signed under the key of a root certificate in the store that may sign and
    whose name it gives as its issuer. *)
Theorem certificate_trust {M : MlDsa} s now name c :
  rtc step CertificateStore.new s ->
  CertificateStore.find_server_cert s now name = Some c \/
  CertificateStore.find_client_cert s now name = Some c ->
  Certificate.subject c = name /\
  (exists i t, now i = Some t /\ Certificate.not_before c <= t <= Certificate.not_after c) /\
  CertificateFlags.revoked (Certificate.flags c) = false /\
  (CertificateStore.find_server_cert s now name = Some c ->
   CertificateFlags.server_auth (Certificate.flags c) = true) /\
  (CertificateStore.find_client_cert s now name = Some c ->
   CertificateFlags.client_auth (Certificate.flags c) = true) /\
  exists root, root ∈ CertificateStore.root_certs s /\
    Certificate.cert_type root = CertificateType.RootCA /\
    CertificateFlags.can_sign (Certificate.flags root) = true /\
    Certificate.subject root = Certificate.issuer c /\ signed_by c (Certificate.public_key root).
Proof.
  intros Hr Hf.
  assert (trusted s) as (_ & Hs & Hc).
  { eapply (rtc_ind_r trusted) in Hr; [done| |].
    - by split_and!; constructor.
    - intros x y _ Hstep Ht. by eapply trusted_step. }
  assert (exists i, (CertificateStore.server_certs s !! i = Some c \/
            CertificateStore.client_certs s !! i = Some c) /\
          Certificate.subject c = name /\ Certificate.is_valid c (now i) = true) as (i & Hi & Hn & Hv).
  { destruct Hf as [Hf|Hf]; apply find_cert_sound in Hf as (i & ? & ? & ?); exists i; auto. }
  assert (vouched s c) as [Hrev (root & t & Hroot & [Ha Hsig])].
  { destruct Hi as [Hi|Hi]; [eapply Forall_lookup_1 in Hs as (_ & _ & ?)|eapply Forall_lookup_1 in Hc as (_ & _ & ?)];
      eauto. }
  split_and!; try done.
  - unfold Certificate.is_valid, Certificate.validity_status in Hv. rewrite Hrev in Hv.
    destruct (now i) as [t'|] eqn:Et; [|done]. exists i, t'. split; [done|].
    repeat (case_match; [done|]). b2p. lia.
  - intros (j & Hj & _)%find_cert_sound. by eapply Forall_lookup_1 in Hs as (_ & ? & _).
  - intros (j & Hj & _)%find_cert_sound. by eapply Forall_lookup_1 in Hc as (_ & ? & _).
  - exists root. unfold CertificateStore.anchor in Ha. b2p. done.
Qed.

Section Issued.
Context {M : MlDsa} {L : MlDsaLaws}.

(** The builders of a root and of a server certificate it signs. *)
Definition root_builder (ca : MlDsaKeypair.t) (name : list Z) (days : Z) : CertificateBuilder.t :=
  CertificateBuilder.can_sign
    (CertificateBuilder.public_key_from_keypair
       (CertificateBuilder.with_validity_days
          (CertificateBuilder.with_subject
             (CertificateBuilder.with_cert_type CertificateBuilder.new CertificateType.RootCA) name)
          days) ca) true.

Definition server_builder (server : MlDsaKeypair.t) (host name : list Z) (days : Z)
    : CertificateBuilder.t :=
  CertificateBuilder.server_auth
    (CertificateBuilder.public_key_from_keypair
       (CertificateBuilder.with_validity_days
          (CertificateBuilder.with_issuer
             (CertificateBuilder.with_subject
                (CertificateBuilder.with_cert_type CertificateBuilder.new CertificateType.Server) host)
             name) days) server) true.

Definition name_of (b : list Z) : Prop := name_ok b /\ b <> [].

Lemma generated_buildable seed level b now :
  name_of (CertificateBuilder.subject b) -> name_ok (CertificateBuilder.issuer b) ->
  CertificateBuilder.extensions b = [] -> 0 <= now -> u32 (CertificateBuilder.validity_days b) ->
  now + CertificateBuilder.validity_days b * 86400 <= U64_MAX ->
  CertificateBuilder.public_key b =
    Some (MlDsaKeypair.public_key (MlDsaKeypair.generate_with_level seed level)) ->
  buildable b now.
Proof.
  intros [? ?] ? He ? ? ? Hp. destruct (MlDsaKeypair.generate_wf seed level) as (_ & ? & Hl & _).
  unfold buildable. rewrite He, Hp. split_and!; try done; [by_decide|].
  split; [done|]. rewrite Hl. by destruct level.
Qed.

Lemma valid_between c t :
  CertificateFlags.revoked (Certificate.flags c) = false ->
  Certificate.not_before c <= t <= Certificate.not_after c -> Certificate.is_valid c (Some t) = true.
Proof.
  intros Hr Ht. unfold Certificate.is_valid, Certificate.validity_status. rewrite Hr.
  rewrite (proj2 (Z.ltb_ge _ _)), (proj2 (Z.ltb_ge _ _)) by lia. done.
Qed.

(** A server certificate issued under a root is accepted.  For a root and a
    server certificate made with the builder, the certificate is recovered
    from the wire, the store accepts the root and then the certificate, and
    the server is found under its name, as long as each clock reading falls
    into the lifetime of the certificate it is taken for. *)
Lemma issued_certificate_accepted seed level seed' level' name host days days' t0 t1 rnd rnd'
    at_root at_leaf at_walk at_find again :
  name_of name -> name_of host -> u32 days -> u32 days' -> 0 <= t0 -> 0 <= t1 ->
  t0 + days * 86400 <= U64_MAX -> t1 + days' * 86400 <= U64_MAX ->
  Forall (fun t => t0 <= t <= t0 + days * 86400) [at_root; at_walk] ->
  Forall (fun t => t1 <= t <= t1 + days' * 86400) [at_leaf; at_find] ->
  let ca := MlDsaKeypair.generate_with_level seed level in
  let server := MlDsaKeypair.generate_with_level seed' level' in
  exists root leaf bytes s1 s2,
    CertificateBuilder.build_and_sign (root_builder ca name days) (Some t0) rnd ca = Ok root /\
    CertificateBuilder.build_and_sign (server_builder server host name days') (Some t1) rnd' ca = Ok leaf /\
    Certificate.to_bytes leaf = Ok bytes /\ Certificate.from_bytes bytes = Ok leaf /\
    CertificateStore.add_root_cert CertificateStore.new (Some at_root) root = (s1, Ok tt) /\
    CertificateStore.add_server_cert s1 (Some at_leaf) again (fun _ => Some at_walk) leaf = (s2, Ok tt) /\
    CertificateStore.find_server_cert s2 (fun _ => Some at_find) host = Some leaf.
Proof.
  intros Hn Hh Hd Hd' H0 H1 Hu Hu' [Ta [Tw _]%Forall_cons]%Forall_cons [Tl [Tf _]%Forall_cons]%Forall_cons
    ca server. pose proof Hn as [Hn1 Hn2].
  destruct (build_and_sign_ok (root_builder ca name days) t0 rnd seed level) as
    (root & Er & _ & _ & Rt & Rf & Rs & _ & Rp & Rb & Ra).
  { eapply (generated_buildable seed level); try done. by_decide. }
  destruct (build_and_sign_ok (server_builder server host name days') t1 rnd' seed level) as
    (leaf & El & Hc & Hsig & Lt & Lf & Ls & Li & _ & Lb & La).
  { by eapply (generated_buildable seed' level'). }
  pose proof Hc as [Hwf _]. injection Rp as Rp. simpl in *. rewrite bool_decide_eq_false_2 in Li by done.
  assert (Certificate.is_valid root (Some at_root) = true) as V1 by (apply valid_between; [by rewrite Rf|lia]).
  assert (Certificate.is_valid root (Some at_walk) = true) as V2 by (apply valid_between; [by rewrite Rf|lia]).
  assert (Certificate.is_valid leaf (Some at_leaf) = true) as V3 by (apply valid_between; [by rewrite Lf|lia]).
  assert (Certificate.is_valid leaf (Some at_find) = true) as V4 by (apply valid_between; [by rewrite Lf|lia]).
  exists root, leaf, (wire leaf), (CertificateStore.mk [root] [] []), (CertificateStore.mk [root] [leaf] []).
  split_and!; [done|done|by apply to_bytes_ok| | | |].
  - rewrite <- (app_nil_r (wire leaf)). by apply certificate_roundtrip.
  - unfold CertificateStore.add_root_cert. by rewrite Rt, V1.
  - unfold CertificateStore.add_server_cert, CertificateStore.verify_certificate. rewrite Lt, Lf, V3.
    cbn [negb CertificateStore.root_certs CertificateFlags.server_auth bool_decide].
    rewrite (walk_vouched _ _ _ O root Hc); [done| |done|].
    + intros [|] r [= <-] _. rewrite Rp. unfold ca. by rewrite generated_level_of.
    + split; [|by rewrite Rp]. unfold CertificateStore.anchor. by rewrite Rs, Li, Rt, Rf, V2, bool_decide_eq_true_2.
  - unfold CertificateStore.find_server_cert. simpl. by rewrite Ls, V4, bool_decide_eq_true_2.
Qed.

End Issued.

Definition example_ca : MlDsaKeypair.t := MlDsaKeypair.generate_with_level [1] SecurityLevel.Level5.

Definition example_issue (b : CertificateBuilder.t) : Certificate.t :=
  match CertificateBuilder.build_and_sign b (Some 1000) [] example_ca with
  | Ok c => c
  | _ => CertificateBuilder.certificate b 0 0 [] []
  end.

Definition example_leaf : Certificate.t :=
  example_issue
    (server_builder (MlDsaKeypair.generate_with_level [2] SecurityLevel.Level3) [118; 112; 110] [67; 65] 30).

Definition example_store : CertificateStore.t :=
  fst (CertificateStore.add_server_cert
         (fst (CertificateStore.add_root_cert CertificateStore.new (Some 2000)
                 (example_issue (root_builder example_ca [67; 65] 3650))))
         (Some 2000) None (fun _ => Some 2000) example_leaf).

Lemma certificate_trust_witness :
  CertificateStore.find_server_cert example_store (fun _ => Some 3000) [118; 112; 110] =
    Some example_leaf /\
  exists root, root ∈ CertificateStore.root_certs example_store /\
    Certificate.cert_type root = CertificateType.RootCA /\
    CertificateFlags.can_sign (Certificate.flags root) = true /\
    Certificate.subject root = Certificate.issuer example_leaf /\
    signed_by example_leaf (Certificate.public_key root).
Proof.
  assert (CertificateStore.find_server_cert example_store (fun _ => Some 3000) [118; 112; 110] =
    Some example_leaf) as Hf by (vm_compute; reflexivity).
  split; [exact Hf|].
  destruct (certificate_trust example_store (fun _ => Some 3000) [118; 112; 110] example_leaf)
    as (_ & _ & _ & _ & _ & H); [|by left|exact H].
  eapply rtc_l; [|eapply rtc_once].
  - exists (Some 2000), None, (fun _ => None), (example_issue (root_builder example_ca [67; 65] 3650)).
    left. reflexivity.
  - exists (Some 2000), None, (fun _ => Some 2000), example_leaf. right. left. reflexivity.
Defined.
