(* ===== verification/Envelope.v ===== *)
(** The authenticated envelope of the file the macOS application hands to its
    tunnel extension (hpn-core/src/provider_envelope.rs), over the interfaces
    for HMAC and HKDF. *)

From S2P Require Import Prelude Types Codec Wire Digest Kdf.

Module EnvelopeError.

Inductive t :=
| TooShort (needed actual : Z)
| BadMagic
| BadVersion (version : Z)
| TooLarge (actual max : Z)
| BadKeyLength (expected actual : Z)
| BadHmac.

End EnvelopeError.

Module provider_envelope.

Definition MAGIC : list Z := bytes_of_string "HPNX".
Definition VERSION : Z := 1.
Definition INFO : list Z := bytes_of_string "HPN-PROVIDER-CONFIG-V1".
Definition MAX_PAYLOAD_LEN : Z := 64 * 1024.
Definition HEADER_SIZE : Z := 4 + 1 + 3 + 32 + 4.
Definition TAG_LEN : Z := 32.
Definition MASTER_KEY_LEN : Z := 32.

Section WithRing.
Context {D : RingDigest} {H : Hkdf}.

Definition derive_subkey (master_key : list Z) : result EnvelopeError.t (list Z) :=
  if negb (len master_key =? MASTER_KEY_LEN) then Err (EnvelopeError.BadKeyLength MASTER_KEY_LEN (len master_key))
  else
    let prk := hkdf_extract HKDF_SHA256 [] master_key in
    ok_or EnvelopeError.BadHmac (hkdf_expand_fill prk [INFO] 32).

(** [json.len() as u32] *)
Definition build_mac_input (json : list Z) : list Z :=
  MAGIC ++ [VERSION] ++ [0; 0; 0] ++ be_bytes 4 (as_uint 32 (len json)) ++ json.

Definition wrap (master_key json : list Z) : result EnvelopeError.t (list Z) :=
  if MAX_PAYLOAD_LEN <? len json then Err (EnvelopeError.TooLarge (len json) MAX_PAYLOAD_LEN)
  else
    let? key := derive_subkey master_key in
    let mac_input := build_mac_input json in
    let tag := hmac_sign key mac_input in
    let? head := range mac_input 0 8 in
    let? rest := range mac_input 8 (len mac_input) in
    Ok (head ++ tag ++ rest).

Definition unwrap_payload (master_key envelope : list Z) : result EnvelopeError.t (list Z) :=
  if len envelope <? HEADER_SIZE then Err (EnvelopeError.TooShort HEADER_SIZE (len envelope))
  else
    let? magic := range envelope 0 4 in
    if negb (bool_decide (magic = MAGIC)) then Err EnvelopeError.BadMagic
    else
      let? version := index envelope 4 in
      if negb (version =? VERSION) then Err (EnvelopeError.BadVersion version)
      else
        let? r1 := index envelope 5 in
        let? r2 := index envelope 6 in
        let? r3 := index envelope 7 in
        if negb (r1 =? 0) || negb (r2 =? 0) || negb (r3 =? 0) then Err (EnvelopeError.BadVersion version)
        else
          let? tag := range envelope 8 (8 + TAG_LEN) in
          let json_len_offset := 8 + TAG_LEN in
          let? b0 := index envelope json_len_offset in
          let? b1 := index envelope (json_len_offset + 1) in
          let? b2 := index envelope (json_len_offset + 2) in
          let? b3 := index envelope (json_len_offset + 3) in
          let json_len := from_be [b0; b1; b2; b3] in
          if MAX_PAYLOAD_LEN <? json_len then Err (EnvelopeError.TooLarge json_len MAX_PAYLOAD_LEN)
          else
            let payload_offset := json_len_offset + 4 in
            if len envelope <? payload_offset + json_len then
              Err (EnvelopeError.TooShort (payload_offset + json_len) (len envelope))
            else
              let? json := range envelope payload_offset (payload_offset + json_len) in
              let mac_input := build_mac_input json in
              let? key := derive_subkey master_key in
              if hmac_verify key mac_input tag then Ok json else Err EnvelopeError.BadHmac.

End WithRing.

(** * Properties *)

Section Properties.
Context {D : RingDigest} {DL : RingDigestLaws} {H : Hkdf} {HL : HkdfLaws}.

Lemma subkey_ok master : len master = MASTER_KEY_LEN -> exists key, derive_subkey master = Ok key.
Proof.
  intros Hl. unfold derive_subkey. rewrite Hl, Z.eqb_refl. simpl.
  destruct (hkdf_expand_ok (hkdf_extract HKDF_SHA256 [] master) [INFO] 32) as (okm & -> & _); [lia|]. by exists okm.
Qed.

(** The envelope of a payload, field by field. *)
Lemma wrap_fields master key json :
  derive_subkey master = Ok key -> len json <= MAX_PAYLOAD_LEN ->
  wrap master json =
    Ok (MAGIC ++ [VERSION; 0; 0; 0] ++ hmac_sign key (build_mac_input json) ++ be_bytes 4 (len json) ++ json).
Proof.
  intros Hk Hl. unfold wrap. rewrite (proj2 (Z.ltb_ge _ _)) by lia. rewrite Hk. cbn [rbind].
  pose proof (len_nonneg json). unfold MAX_PAYLOAD_LEN in Hl.
  assert (as_uint 32 (len json) = len json) as Hu by (unfold as_uint; rewrite Z.mod_small; lia).
  set (head := MAGIC ++ [VERSION; 0; 0; 0]). set (rest := be_bytes 4 (len json) ++ json).
  assert (build_mac_input json = head ++ rest) as E.
  { unfold build_mac_input, head, rest. rewrite Hu. by rewrite <- !app_assoc. }
  rewrite E. rewrite (range_rest_at _ 0 head rest) by (apply rest_at_start || done). cbn [rbind].
  rewrite (range_rest_at_end _ 8 rest) by (by exists head). cbn [rbind]. unfold head. by rewrite <- app_assoc.
Qed.

(** Unwrapping a buffer cut at the field boundaries. *)
Lemma unwrap_fields master m v r1 r2 r3 tag b0 b1 b2 b3 rest :
  len m = 4 -> len tag = 32 -> len master = MASTER_KEY_LEN ->
  let json_len := from_be [b0; b1; b2; b3] in 0 <= json_len ->
  unwrap_payload master (m ++ [v; r1; r2; r3] ++ tag ++ [b0; b1; b2; b3] ++ rest) =
    if negb (bool_decide (m = MAGIC)) then Err EnvelopeError.BadMagic
    else if negb (v =? VERSION) || (negb (r1 =? 0) || negb (r2 =? 0) || negb (r3 =? 0)) then Err (EnvelopeError.BadVersion v)
    else if MAX_PAYLOAD_LEN <? json_len then Err (EnvelopeError.TooLarge json_len MAX_PAYLOAD_LEN)
    else if len rest <? json_len then Err (EnvelopeError.TooShort (44 + json_len) (44 + len rest))
    else
      let? key := derive_subkey master in
      if bool_decide (tag = hmac_sign key (build_mac_input (take (Z.to_nat json_len) rest)))
      then Ok (take (Z.to_nat json_len) rest) else Err EnvelopeError.BadHmac.
Proof.
  intros Lm Lt Lk json_len Hj. set (buf := m ++ _).
  pose proof (rest_at_start buf) as R0. unfold buf at 2 in R0.
  pose proof (rest_at_app _ _ _ _ R0) as R4. rewrite Lm in R4. simpl in R4.
  pose proof (rest_at_cons _ _ _ _ R4) as R5. pose proof (rest_at_cons _ _ _ _ R5) as R6.
  pose proof (rest_at_cons _ _ _ _ R6) as R7. pose proof (rest_at_cons _ _ _ _ R7) as R8. simpl in R5, R6, R7, R8.
  pose proof (rest_at_app _ _ _ _ R8) as R40. rewrite Lt in R40. simpl in R40.
  pose proof (rest_at_cons _ _ _ _ R40) as R41. pose proof (rest_at_cons _ _ _ _ R41) as R42.
  pose proof (rest_at_cons _ _ _ _ R42) as R43. pose proof (rest_at_cons _ _ _ _ R43) as R44. simpl in R41, R42, R43, R44.
  assert (len buf = 44 + len rest) as Lbuf by (apply (rest_at_len _ _ _ R44)). pose proof (len_nonneg rest).
  unfold unwrap_payload. rewrite Lbuf. unfold HEADER_SIZE, TAG_LEN. decide_ltb.
  rewrite (range_rest_at _ _ _ _ _ R0) by lia. cbn [rbind]. destruct (negb (bool_decide (m = MAGIC))); [done|].
  rewrite (index_rest_at _ _ _ _ R4). cbn [rbind]. destruct (negb (v =? VERSION)); [done|].
  rewrite (index_rest_at _ _ _ _ R5), (index_rest_at _ _ _ _ R6), (index_rest_at _ _ _ _ R7). cbn [rbind orb].
  destruct (_ || _); [done|]. rewrite (range_rest_at _ _ _ _ _ R8) by lia. cbn [rbind]. change (8 + 32) with 40.
  change (40 + 1) with 41. change (40 + 2) with 42. change (40 + 3) with 43. change (40 + 4) with 44.
  rewrite (index_rest_at _ _ _ _ R40), (index_rest_at _ _ _ _ R41), (index_rest_at _ _ _ _ R42),
    (index_rest_at _ _ _ _ R43). cbn [rbind]. fold json_len. destruct (MAX_PAYLOAD_LEN <? json_len); [done|].
  destruct (len rest <? json_len) eqn:El; b2p.
  { by rewrite (proj2 (Z.ltb_lt (44 + len rest) (44 + json_len))) by lia. }
  rewrite (proj2 (Z.ltb_ge (44 + len rest) (44 + json_len))) by lia.
  rewrite <- (take_drop (Z.to_nat json_len) rest) in R44.
  rewrite (range_rest_at _ _ _ _ _ R44); [|rewrite len_take; lia]. cbn [rbind].
  destruct (subkey_ok master Lk) as [key ->]. cbn [rbind]. by rewrite hmac_verify_spec; case_bool_decide.
Qed.

Lemma envelope_fields (envelope : list Z) :
  HEADER_SIZE <= len envelope ->
  exists m v r1 r2 r3 tag b0 b1 b2 b3 rest,
    envelope = m ++ [v; r1; r2; r3] ++ tag ++ [b0; b1; b2; b3] ++ rest /\ len m = 4 /\ len tag = 32.
Proof.
  intros Hl. unfold HEADER_SIZE in Hl.
  destruct (split_at 4 envelope) as (m & x & -> & Hm); [unfold len in *; lia|]. rewrite len_app in Hl.
  destruct x as [|v [|r1 [|r2 [|r3 x]]]]; try (unfold len in *; simpl in *; lia).
  assert (36 <= len x) as Hx by (unfold len in *; simpl in *; lia).
  destruct (split_at 32 x) as (tag & y & -> & Ht); [unfold len in *; lia|]. rewrite len_app in Hx.
  destruct y as [|b0 [|b1 [|b2 [|b3 rest]]]]; try (unfold len in *; simpl in *; lia).
  exists m, v, r1, r2, r3, tag, b0, b1, b2, b3, rest. split; [done|]. unfold len. lia.
Qed.

(** What is unwrapped was wrapped under the same key. *)
Lemma unwrap_inv master key envelope json :
  len master = MASTER_KEY_LEN -> derive_subkey master = Ok key -> bytes_ok envelope ->
  unwrap_payload master envelope = Ok json ->
  exists wrapped rest, wrap master json = Ok wrapped /\ envelope = wrapped ++ rest.
Proof.
  intros Lk Hkey Hb.
  intros Hu. destruct (Z.lt_ge_cases (len envelope) HEADER_SIZE) as [Hs|Hs].
  { unfold unwrap_payload in Hu. by rewrite (proj2 (Z.ltb_lt _ _) Hs) in Hu. }
  destruct (envelope_fields envelope Hs) as (m & v & r1 & r2 & r3 & tag & b0 & b1 & b2 & b3 & rest & -> & Lm & Lt).
  assert (bytes_ok [b0; b1; b2; b3]) as Hbl by (repeat (apply bytes_ok_app in Hb as [? Hb]; try done)).
  pose proof (from_be_bound 4 [b0; b1; b2; b3] Hbl eq_refl) as Hj. unfold uint in Hj.
  rewrite unwrap_fields in Hu by (done || lia). destruct (bool_decide (m = MAGIC)) eqn:Em; [|done]. simpl in Hu.
  destruct (_ || _) eqn:Ev; [done|]. rewrite !orb_false_iff, !negb_false_iff, !Z.eqb_eq in Ev.
  destruct Ev as (-> & [-> ->] & ->). apply bool_decide_eq_true in Em. subst m.
  set (n := from_be [b0; b1; b2; b3]) in *. destruct (MAX_PAYLOAD_LEN <? n) eqn:E1; [done|].
  destruct (len rest <? n) eqn:E2; [done|]. b2p. rewrite Hkey in Hu. cbn [rbind] in Hu.
  case_bool_decide as Et; [|done]. injection Hu as <-. subst tag.
  assert (len (take (Z.to_nat n) rest) = n) as Ln by (rewrite len_take; lia).
  exists (MAGIC ++ [VERSION; 0; 0; 0] ++ hmac_sign key (build_mac_input (take (Z.to_nat n) rest)) ++ be_bytes 4 n ++ take (Z.to_nat n) rest),
    (drop (Z.to_nat n) rest). split; [by rewrite (wrap_fields master key), Ln by (done || lia)|].
  assert (be_bytes 4 n = [b0; b1; b2; b3]) as -> by (by apply be_bytes_from_be).
  rewrite <- !app_assoc. by rewrite take_drop.
Qed.

Lemma unwrap_wrapped master key wrapped rest json :
  len master = MASTER_KEY_LEN -> derive_subkey master = Ok key -> wrap master json = Ok wrapped ->
  unwrap_payload master (wrapped ++ rest) = Ok json.
Proof.
  intros Lk Hkey Hw. assert (forall j, len (hmac_sign key j) = 32) as Ltag by (intros j; apply hmac_size).
  assert (len json <= MAX_PAYLOAD_LEN) as Hl.
  { unfold wrap in Hw. destruct (MAX_PAYLOAD_LEN <? len json) eqn:E; [done|]. b2p. done. }
  rewrite (wrap_fields master key json Hkey Hl) in Hw.
  set (e := MAGIC ++ _) in Hw. assert (wrapped = e) as -> by congruence. subst e. clear Hw. pose proof (len_nonneg json).
  unfold MAX_PAYLOAD_LEN in Hl.
  pose proof (length_be_bytes 4 (len json)) as L4. destruct (be_bytes 4 (len json)) as [|b0 [|b1 [|b2 [|b3 [|]]]]] eqn:Eb; try done.
  assert (from_be [b0; b1; b2; b3] = len json) as Ej by (rewrite <- Eb; apply from_be_be_bytes; unfold uint; lia).
  rewrite <- !app_assoc. rewrite unwrap_fields by (done || lia). rewrite Ej.
  rewrite bool_decide_true by done. change (negb true) with false. cbv iota.
  change (negb (VERSION =? VERSION) || (negb (0 =? 0) || negb (0 =? 0) || negb (0 =? 0))) with false. cbv iota.
  unfold MAX_PAYLOAD_LEN. rewrite (proj2 (Z.ltb_ge _ _)) by lia. rewrite len_app.
  pose proof (len_nonneg rest). rewrite (proj2 (Z.ltb_ge _ _)) by lia.
  rewrite take_app_length' by (unfold len; lia). rewrite Hkey. cbn [rbind]. by rewrite bool_decide_true.
Qed.

(** C39: the envelope of the provider configuration.  Wrapping a payload of at
    most 64 KiB succeeds, and unwrapping returns a payload exactly if the bytes
    are what wrapping it under the same key gives, followed by anything; it
    never aborts. *)
Theorem envelope_authentic master envelope json :
  len master = MASTER_KEY_LEN -> bytes_ok envelope ->
  (unwrap_payload master envelope = Ok json <->
   exists wrapped rest, wrap master json = Ok wrapped /\ envelope = wrapped ++ rest) /\
  (len json <= MAX_PAYLOAD_LEN -> exists wrapped, wrap master json = Ok wrapped /\ len wrapped = HEADER_SIZE + len json) /\
  unwrap_payload master envelope <> Panic.
Proof.
  intros Lk Hb. destruct (subkey_ok master Lk) as [key Hkey].
  assert (forall j, len (hmac_sign key j) = 32) as Ltag by (intros j; apply hmac_size).
  split_and!.
  - split; [by eapply unwrap_inv|]. intros (w & rest & Hw & ->). by eapply unwrap_wrapped.
  - intros Hl. eexists. split; [by apply wrap_fields|]. rewrite !len_app, Ltag, len_be_bytes. unfold HEADER_SIZE.
    change (len MAGIC) with 4. change (len [VERSION; 0; 0; 0]) with 4. lia.
  - intros Hu. destruct (Z.lt_ge_cases (len envelope) HEADER_SIZE) as [Hs|Hs].
    { unfold unwrap_payload in Hu. by rewrite (proj2 (Z.ltb_lt _ _) Hs) in Hu. }
    destruct (envelope_fields envelope Hs) as (m & v & r1 & r2 & r3 & tag & b0 & b1 & b2 & b3 & rest & -> & Lm & Lt).
    assert (bytes_ok [b0; b1; b2; b3]) as Hbl by (repeat (apply bytes_ok_app in Hb as [? Hb]; try done)).
    pose proof (from_be_bound 4 [b0; b1; b2; b3] Hbl eq_refl) as Hj. unfold uint in Hj.
    rewrite unwrap_fields in Hu by (done || lia). rewrite Hkey in Hu. cbn [rbind] in Hu. by repeat case_match.
Qed.

End Properties.
End provider_envelope.

(** * Examples *)

Definition example_master : list Z := replicate 32 66.

Example example_unwrapped :
  (let? e := provider_envelope.wrap example_master [123; 125] in provider_envelope.unwrap_payload example_master e) =
    Ok [123; 125].
Proof. vm_compute. reflexivity. Qed.

Example trailing_bytes_accepted :
  (let? e := provider_envelope.wrap example_master [123; 125] in
   provider_envelope.unwrap_payload example_master (e ++ [1; 2; 3])) = Ok [123; 125].
Proof. vm_compute. reflexivity. Qed.

Lemma envelope_authentic_witness :
  exists wrapped, provider_envelope.wrap example_master [123; 125] = Ok wrapped /\ len wrapped = 46.
Proof.
  destruct (provider_envelope.envelope_authentic example_master [] [123; 125]) as (_ & Hw & _); [reflexivity|by constructor|].
  destruct Hw as (w & Hw & Hl); [vm_compute; discriminate|]. by exists w.
Defined.
