(* ===== verification/Session.v ===== *)
(** A VPN session: hpn-core/src/protocol/session.rs ([AtomicInstant],
    [Session]).

    Instants and durations are nanoseconds; the clock reading of a call is its
    argument [now].  An operation returns the session it leaves together with
    its outcome, so what an error path changes is visible.  Each operation is
    run to completion; the interleaving of [next_send_counter] between threads
    is the step relation of [SendCounter]. *)

From S2P Require Import Prelude Types Header ReplayWindow Aead Keys Kdf.

Definition NANOS_PER_MILLI : Z := 1000000.

Module AtomicInstant.

Record t := mk { millis : Z; epoch : Z }.

Definition new (now : Z) : t := mk 0 now.

(** [self.epoch.elapsed().as_millis() as u64]; [elapsed] saturates at zero. *)
Definition elapsed_millis (a : t) (now : Z) : Z :=
  as_uint 64 (saturating_sub now (epoch a) / NANOS_PER_MILLI).

Definition touch (a : t) (now : Z) : t := mk (elapsed_millis a now) (epoch a).

Definition elapsed (a : t) (now : Z) : Z :=
  saturating_sub (elapsed_millis a now) (millis a) * NANOS_PER_MILLI.

End AtomicInstant.

Module SessionState.

Inductive t := Handshaking | Active | Rekeying | Closed.

#[global] Instance t_eq_dec : EqDecision t.
Proof. solve_decision. Defined.

End SessionState.

Module Session.

Section WithRing.
Context {R : RingAead}.

Record t := mk {
  session_id : Z;
  key_id : Z;
  state : SessionState.t;
  keys : SessionKeys.t;
  send_key : LessSafeKey;
  recv_key : LessSafeKey;
  send_counter : Z;
  recv_window : AntiReplayWindow.t;
  last_activity : AtomicInstant.t;
  created_at : Z;
  bytes_sent : Z;
  bytes_received : Z;
}.

Definition new (now id : Z) (k : SessionKeys.t) : result CryptoError.t t :=
  let? send := PrecomputedKey.new (SessionKeys.send_key k) in
  let? recv := PrecomputedKey.new (SessionKeys.recv_key k) in
  let last := AtomicInstant.touch (AtomicInstant.new now) now in
  Ok (mk id KeyId.initial SessionState.Active k send recv 0 AntiReplayWindow.new last now 0 0).

Definition is_active (s : t) : bool :=
  match state s with SessionState.Active => true | _ => false end.

(** Field updates. *)
Definition set_send_counter (s : t) (c : Z) : t :=
  mk (session_id s) (key_id s) (state s) (keys s) (send_key s) (recv_key s) c
     (recv_window s) (last_activity s) (created_at s) (bytes_sent s) (bytes_received s).
Definition set_recv_window (s : t) (w : AntiReplayWindow.t) : t :=
  mk (session_id s) (key_id s) (state s) (keys s) (send_key s) (recv_key s) (send_counter s)
     w (last_activity s) (created_at s) (bytes_sent s) (bytes_received s).

(** One pass of the compare-and-swap loop with no other thread in between. *)
Definition next_send_counter (s : t) : t * result SessionError.t Z :=
  let current := send_counter s in
  if Counter.MAX_SAFE <=? current then (s, Err SessionError.CounterExhausted)
  else (set_send_counter s (current + 1), Ok current).

Definition is_valid_counter (s : t) (counter : Z) : bool :=
  AntiReplayWindow.check (recv_window s) counter.

Definition update_recv_counter (s : t) (counter : Z) : t * bool :=
  let '(w, ok) := AntiReplayWindow.check_and_update (recv_window s) counter in
  (set_recv_window s w, ok).

Definition touch (s : t) (now : Z) : t :=
  mk (session_id s) (key_id s) (state s) (keys s) (send_key s) (recv_key s) (send_counter s)
     (recv_window s) (AtomicInstant.touch (last_activity s) now) (created_at s) (bytes_sent s)
     (bytes_received s).

Definition idle_duration (s : t) (now : Z) : Z := AtomicInstant.elapsed (last_activity s) now.

Definition age (s : t) (now : Z) : Z := saturating_sub now (created_at s).

Definition is_timed_out (s : t) (now timeout : Z) : bool := timeout <? idle_duration s now.

Definition add_bytes_sent (s : t) (bytes : Z) : t :=
  mk (session_id s) (key_id s) (state s) (keys s) (send_key s) (recv_key s) (send_counter s)
     (recv_window s) (last_activity s) (created_at s) (wrapping_add 64 (bytes_sent s) bytes)
     (bytes_received s).

Definition add_bytes_received (s : t) (bytes : Z) : t :=
  mk (session_id s) (key_id s) (state s) (keys s) (send_key s) (recv_key s) (send_counter s)
     (recv_window s) (last_activity s) (created_at s) (bytes_sent s)
     (wrapping_add 64 (bytes_received s) bytes).

Definition needs_rekey (s : t) (now max_bytes max_duration : Z) : bool :=
  let total_bytes := saturating_add 64 (bytes_sent s) (bytes_received s) in
  (max_bytes <=? total_bytes) || (max_duration <=? age s now).

Definition update_keys (s : t) (new_keys : SessionKeys.t) : t * result CryptoError.t unit :=
  match PrecomputedKey.new (SessionKeys.send_key new_keys) with
  | Err e => (s, Err e)
  | Panic => (s, Panic)
  | Ok send =>
      let s :=
        mk (session_id s) (key_id s) (state s) (keys s) send (recv_key s) (send_counter s)
           (recv_window s) (last_activity s) (created_at s) (bytes_sent s) (bytes_received s) in
      match PrecomputedKey.new (SessionKeys.recv_key new_keys) with
      | Err e => (s, Err e)
      | Panic => (s, Panic)
      | Ok recv =>
          (mk (session_id s) (KeyId.next (key_id s)) (state s) new_keys (send_key s) recv 0
              (AntiReplayWindow.reset (recv_window s)) (last_activity s) (created_at s) 0 0,
           Ok tt)
      end
  end.

Definition close (s : t) : t :=
  mk (session_id s) (key_id s) SessionState.Closed (keys s) (send_key s) (recv_key s)
     (send_counter s) (recv_window s) (last_activity s) (created_at s) (bytes_sent s)
     (bytes_received s).

Definition encrypt_packet (s : t) (msg_type : MessageType.t) (payload output : list Z)
    : t * result CryptoError.t (list Z * Z) :=
  let '(s, counter) := next_send_counter s in
  let sealed :=
    let? counter := map_err (fun _ => CryptoError.Encryption) counter in
    let header := PacketHeader.new msg_type (session_id s) (key_id s) counter in
    let header_size := PacketHeader.encoded_size header in
    let total_size := header_size + len payload + TAG_SIZE in
    if len output <? total_size then
      Err (CryptoError.BufferTooSmall total_size (len output))
    else
      let? head := range output 0 header_size in
      let? (head, _) :=
        map_err (fun _ => CryptoError.Encryption) (PacketHeader.encode header head) in
      let? output := copy_from_slice output 0 header_size head in
      let? head := range output 0 header_size in
      let? aad := copy_from_slice (replicate 32 0) 0 header_size head in
      let? nonce := build_nonce (SessionKeys.send_nonce_prefix (keys s)) counter in
      let? output := copy_from_slice output header_size (header_size + len payload) payload in
      let? aad := range aad 0 header_size in
      let? body := range output header_size total_size in
      let? (body, ciphertext_len) :=
        PrecomputedKey.encrypt_in_place (send_key s) nonce aad body (len payload) in
      let? output := copy_from_slice output header_size total_size body in
      Ok (output, header_size + ciphertext_len) in
  match sealed with
  | Ok (output, n) => (add_bytes_sent s n, Ok (output, n))
  | Err e => (s, Err e)
  | Panic => (s, Panic)
  end.

Definition decrypt_packet (s : t) (now : Z) (packet output : list Z)
    : t * result ProtocolError.t (list Z * PacketHeader.t * Z) :=
  let opened :=
    if len packet <? HEADER_SIZE + TAG_SIZE then
      Err (ProtocolError.PacketTooShort (HEADER_SIZE + TAG_SIZE) (len packet))
    else
      let? header := PacketHeader.decode packet in
      let header_size := PacketHeader.encoded_size header in
      if negb (PacketHeader.session_id header =? session_id s) then
        Err (ProtocolError.HandshakeFailed "session ID mismatch")
      else if negb (PacketHeader.key_id header =? key_id s) then
        Err (ProtocolError.HandshakeFailed
          ("key ID mismatch: expected " ++ dec (key_id s) ++ ", got "
             ++ dec (PacketHeader.key_id header)))
      else
        let? ciphertext := range packet header_size (len packet) in
        if len output <? len ciphertext then
          Err (ProtocolError.PacketTooShort (len ciphertext) (len output))
        else
          let ct_len := len ciphertext in
          let? output := copy_from_slice output 0 ct_len ciphertext in
          let? nonce :=
            build_nonce (SessionKeys.recv_nonce_prefix (keys s)) (PacketHeader.counter header) in
          let? aad := range packet 0 header_size in
          let? body := range output 0 ct_len in
          let? (body, decrypted_len) :=
            map_err (fun _ => ProtocolError.HandshakeFailed "decryption failed")
              (PrecomputedKey.decrypt_in_place (recv_key s) nonce aad body) in
          let? output := copy_from_slice output 0 ct_len body in
          Ok (output, header, decrypted_len) in
  match opened with
  | Err e => (s, Err e)
  | Panic => (s, Panic)
  | Ok (output, header, decrypted_len) =>
      let '(s, fresh) := update_recv_counter s (PacketHeader.counter header) in
      if negb fresh then
        (s, Err (ProtocolError.ReplayDetected (PacketHeader.counter header)))
      else
        (touch (add_bytes_received s (len packet)) now, Ok (output, header, decrypted_len))
  end.

(** * Well-formed sessions *)

Definition wf (s : t) : Prop :=
  u64 (session_id s) /\ u32 (key_id s) /\ SessionKeys.wf (keys s) /\
  0 <= send_counter s <= Counter.MAX_SAFE /\
  exists a, AntiReplayWindow.refines (recv_window s) a.

End WithRing.

Ltac sfields :=
  cbn [session_id key_id state keys send_key recv_key send_counter recv_window last_activity
       created_at bytes_sent bytes_received set_send_counter set_recv_window add_bytes_sent
       add_bytes_received touch fst snd].

Section Lemmas.
Context {R : RingAead} {L : RingAeadLaws}.

(** The packet a session emits: header, ciphertext, tag. *)
Definition sealed_packet (key : LessSafeKey) (prefix : list Z) (h : PacketHeader.t)
    (payload packet : list Z) : Prop :=
  exists n c tag,
    try_assume_unique_for_key (prefix ++ be_bytes 8 (PacketHeader.counter h)) = Some n /\
    seal_in_place_separate_tag key n (PacketHeader.wire h) payload = Some (c, tag) /\
    packet = PacketHeader.wire h ++ c ++ tag.

Lemma data_header_wf mt id kid c :
  u64 id -> u32 kid -> u64 c -> PacketHeader.wf (PacketHeader.new mt id kid c).
Proof. intros. unfold PacketHeader.wf; simpl. split_and!; try done. Qed.

Lemma max_safe_u64 c : 0 <= c < Counter.MAX_SAFE -> u64 c.
Proof. unfold Counter.MAX_SAFE, uint. change (Z.shiftl 1 60) with (2 ^ 60). lia. Qed.

Lemma next_send_counter_ok s :
  send_counter s < Counter.MAX_SAFE ->
  next_send_counter s = (set_send_counter s (send_counter s + 1), Ok (send_counter s)).
Proof. intros. unfold next_send_counter. cbv zeta. by decide_ltb. Qed.

Lemma encrypt_packet_ok s mt payload output :
  wf s -> send_counter s < Counter.MAX_SAFE -> bytes_ok payload -> len payload <= MAX_SEAL ->
  HEADER_SIZE + len payload + TAG_SIZE <= len output ->
  let h := PacketHeader.new mt (session_id s) (key_id s) (send_counter s) in
  let n := HEADER_SIZE + (len payload + TAG_SIZE) in
  exists packet rest,
    sealed_packet (send_key s) (SessionKeys.send_nonce_prefix (keys s)) h payload packet /\
    len packet = n /\ bytes_ok packet /\
    encrypt_packet s mt payload output =
      (add_bytes_sent (set_send_counter s (send_counter s + 1)) n, Ok (packet ++ rest, n)).
Proof.
  intros (Hid & Hkid & (_ & _ & Hpre & _) & Hc & _) Hlt Hb Hm Hlen h n.
  unfold HEADER_SIZE, TAG_SIZE in *. pose proof (len_nonneg payload).
  destruct (split_at 24 output) as (o0 & r0 & -> & H0); [lia|].
  assert (len o0 = 24) as L0 by (unfold len; lia). rewrite len_app, L0 in Hlen.
  destruct (split_at (length payload + 16) r0) as (o1 & o2 & -> & H1); [unfold len in *; lia|].
  assert (len o1 = len payload + 16) as L1 by (unfold len; lia).
  assert (PacketHeader.encoded_size h = 24) as He by done.
  assert (len (PacketHeader.wire h) = 24) as Lw by (by rewrite PacketHeader.len_wire).
  set (r1 := drop (length payload) o1).
  assert (len r1 = 16) as Lr1 by (unfold r1; rewrite len_drop_nat; unfold len in *; lia).
  set (nonce := SessionKeys.send_nonce_prefix (keys s) ++ be_bytes 8 (send_counter s)).
  destruct (encrypt_in_place_ok (send_key s) nonce (PacketHeader.wire h) payload r1 Hb Hm)
    as (nn & c & tag & Hn & Henc & Hseal & Lc & Lt & Bc & Bt).
  { unfold nonce. by rewrite len_app, len_be_bytes, Hpre. }
  { unfold TAG_SIZE. lia. }
  unfold TAG_SIZE in Lt, Henc. rewrite (drop_ge r1) in Henc by (unfold len in Lr1; lia).
  rewrite app_nil_r in Henc.
  exists (PacketHeader.wire h ++ c ++ tag), o2. split_and!.
  - by exists nn, c, tag.
  - rewrite !len_app. lia.
  - rewrite !bytes_ok_app. split_and!; try done. apply PacketHeader.bytes_ok_wire.
    apply data_header_wf; try done. apply max_safe_u64. lia.
  - unfold encrypt_packet. rewrite next_send_counter_ok by lia. sbind.
    cbn [session_id key_id keys send_key set_send_counter]. fold h. rewrite He.
    rewrite !len_app, L0, L1. unfold TAG_SIZE. len_pos. decide_ltb.
    rewrite (range_rest_at _ 0 o0 (o1 ++ o2)) by (apply rest_at_start || lia). sbind.
    rewrite PacketHeader.encode_wire by lia. sbind.
    assert (length (PacketHeader.wire h) = 24%nat) as Hlw by (unfold len in Lw; lia).
    rewrite (drop_ge o0), app_nil_r by lia. rewrite copy_prefix' by lia. sbind.
    rewrite (range_rest_at _ 0 (PacketHeader.wire h) (o1 ++ o2)) by (apply rest_at_start || lia).
    sbind. rewrite copy_from_slice_start by (rewrite Lw; done). sbind.
    rewrite build_nonce_eq by done. fold nonce. sbind.
    rewrite (copy_from_slice_at (PacketHeader.wire h)) by (rewrite ?len_app; lia). sbind.
    rewrite drop_app_le by lia. fold r1.
    rewrite (range_rest_at _ 0 (PacketHeader.wire h) (drop (length (PacketHeader.wire h)) (replicate 32 0)))
      by (apply rest_at_start || lia). sbind.
    rewrite (range_rest_at _ 24 (payload ++ r1) o2).
    2:{ exists (PacketHeader.wire h). by rewrite <- !app_assoc. }
    2:{ rewrite len_app. lia. }
    sbind. rewrite Henc. sbind.
    replace ((PacketHeader.wire h ++ payload) ++ r1 ++ o2)
      with (PacketHeader.wire h ++ ((payload ++ r1) ++ o2)) by (by rewrite <- !app_assoc).
    rewrite (copy_from_slice_at (PacketHeader.wire h)) by (rewrite ?len_app; lia).
    sbind. rewrite drop_app_length' by (rewrite !length_app; unfold len in *; lia).
    unfold n. by rewrite <- !app_assoc.
Qed.

(** The part of [decrypt_packet] before the window, on a sealed packet. *)
Lemma decrypt_packet_sealed s now h payload packet output :
  wf s -> PacketHeader.wf h -> PacketHeader.normalise h = h ->
  PacketHeader.session_id h = session_id s -> PacketHeader.key_id h = key_id s ->
  bytes_ok payload -> len payload <= MAX_SEAL ->
  sealed_packet (recv_key s) (SessionKeys.recv_nonce_prefix (keys s)) h payload packet ->
  len payload + TAG_SIZE <= len output ->
  exists rest,
    decrypt_packet s now packet output =
      let '(s', fresh) := update_recv_counter s (PacketHeader.counter h) in
      if negb fresh then (s', Err (ProtocolError.ReplayDetected (PacketHeader.counter h)))
      else (touch (add_bytes_received s' (len packet)) now, Ok (payload ++ rest, h, len payload)).
Proof.
  intros (_ & _ & (_ & _ & _ & Hpre) & _) Hh Hn Hid Hkid Hb Hm (n & c & tag & Hnonce & Hseal & ->) Ho.
  destruct (seal_ok (recv_key s) n (PacketHeader.wire h) payload Hb Hm)
    as (c' & tag' & Hs' & Lc & Lt & _ & _).
  rewrite Hseal in Hs'. injection Hs' as <- <-.
  destruct (decrypt_in_place_sealed _ _ _ _ _ _ _ Hb Hnonce Hseal Hm) as (rest & Hdec & Lr).
  unfold TAG_SIZE in *. pose proof (len_nonneg payload).
  assert (len (c ++ tag) = len payload + 16) as Lct by (rewrite len_app; lia).
  destruct (split_at (length (c ++ tag)) output) as (o1 & o2 & -> & H1); [unfold len in *; lia|].
  assert (len o1 = len (c ++ tag)) as L1 by (unfold len; lia).
  exists (rest ++ o2). unfold decrypt_packet.
  pose proof (PacketHeader.len_wire h) as Lw.
  assert (24 <= PacketHeader.encoded_size h) by
    (unfold PacketHeader.encoded_size, HEADER_SIZE, HEADER_SIZE_WITH_TIMESTAMP; destruct (PacketHeader.timestamp h); lia).
  rewrite (len_app (PacketHeader.wire h)), Lw, Lct. unfold HEADER_SIZE, TAG_SIZE.
  rewrite (proj2 (Z.ltb_ge _ _)) by lia.
  rewrite PacketHeader.decode_wire, Hn by done. sbind. rewrite Hid, Hkid, !Z.eqb_refl. simpl negb. cbv iota.
  rewrite (range_rest_at _ (PacketHeader.encoded_size h) (c ++ tag) []) by
    (first [lia | exists (PacketHeader.wire h); by rewrite app_nil_r]).
  sbind. rewrite Lct. rewrite (len_app o1), L1. len_pos. decide_ltb.
  rewrite copy_prefix' by lia. sbind. rewrite build_nonce_eq by done. sbind.
  rewrite (range_rest_at _ 0 (PacketHeader.wire h) (c ++ tag)) by (apply rest_at_start || lia). sbind.
  rewrite (range_rest_at _ 0 (c ++ tag) o2) by (apply rest_at_start || lia). sbind.
  rewrite Hdec. sbind. rewrite copy_prefix' by (rewrite ?len_app in *; lia). sbind.
  rewrite <- app_assoc. done.
Qed.

(** Nothing but an accepted packet changes the session. *)
Lemma decrypt_packet_refused s now packet output :
  ~ is_ok (snd (decrypt_packet s now packet output)) ->
  fst (decrypt_packet s now packet output) = s.
Proof.
  unfold decrypt_packet. cbv zeta.
  match goal with |- context [match ?o with _ => _ end] => destruct o as [[[out h] m]|e|] end;
    simpl; try done.
  unfold update_recv_counter.
  pose proof (AntiReplayWindow.check_and_update_refused (recv_window s) (PacketHeader.counter h)) as Hr.
  destruct (AntiReplayWindow.check_and_update _ _) as [w ok]. simpl in *.
  destruct ok; simpl; [done|]. intros _. rewrite Hr by done. by destruct s.
Qed.

Lemma decrypt_packet_inv s now packet output s' out' h m :
  wf s -> bytes_ok packet ->
  decrypt_packet s now packet output = (s', Ok (out', h, m)) ->
  PacketHeader.wf h /\ PacketHeader.normalise h = h /\
  PacketHeader.session_id h = session_id s /\ PacketHeader.key_id h = key_id s /\
  m = len packet - PacketHeader.encoded_size h - TAG_SIZE /\
  (0 <= m <= len out' /\ bytes_ok (slice out' 0 m)) /\
  sealed_packet (recv_key s) (SessionKeys.recv_nonce_prefix (keys s)) h (slice out' 0 m) packet /\
  exists w, AntiReplayWindow.check_and_update (recv_window s) (PacketHeader.counter h) = (w, true) /\
    s' = touch (add_bytes_received (set_recv_window s w) (len packet)) now.
Proof.
  intros (_ & _ & (_ & _ & _ & Hpre) & _) Hb H. unfold decrypt_packet in H. cbv zeta in H.
  match type of H with context [match ?o with _ => _ end] =>
    destruct o as [[[out hh] mm]|e|] eqn:Hop end; [|discriminate H|discriminate H].
  unfold update_recv_counter in H.
  destruct (AntiReplayWindow.check_and_update _ _) as [w ok] eqn:Hcu.
  destruct ok; simpl in H; [|discriminate H]. injection H as <- <- <- <-.
  step_in Hop. destruct (PacketHeader.decode packet) as [hd|e|] eqn:Hd; simpl in Hop; try discriminate Hop.
  destruct (PacketHeader.decode_inv _ _ Hb Hd) as (Hwf & Hnorm & r & ->).
  pose proof (PacketHeader.len_wire hd) as Lw. pose proof (len_nonneg r).
  do 2 step_in Hop. b2p.
  assert (rest_at (PacketHeader.wire hd ++ r) (PacketHeader.encoded_size hd) r) as Rr
    by (by exists (PacketHeader.wire hd)).
  rewrite (range_rest_at_end _ _ _ Rr) in Hop. cbn [rbind] in Hop. step_in Hop. b2p.
  destruct (split_at (length r) output) as (o1 & o2 & -> & H1); [unfold len in *; lia|].
  assert (len o1 = len r) as L1 by (unfold len; lia).
  rewrite copy_prefix' in Hop by done. cbn [rbind] in Hop.
  rewrite build_nonce_eq in Hop by done. cbn [rbind] in Hop.
  rewrite (range_rest_at _ 0 (PacketHeader.wire hd) r _ (rest_at_start _)) in Hop by lia.
  cbn [rbind] in Hop.
  rewrite (range_rest_at _ 0 r o2 _ (rest_at_start _)) in Hop by lia. cbn [rbind] in Hop.
  destruct (PrecomputedKey.decrypt_in_place _ _ _ r) as [[body k]|e|] eqn:Hdec;
    simpl in Hop; try discriminate Hop.
  apply bytes_ok_app in Hb as [_ Hbr].
  destruct (decrypt_in_place_inv _ _ _ _ _ _ Hbr Hdec)
    as (Hk & Hk0 & Lb & n & c & tag & Hnonce & Hseal & ->).
  pose proof (decrypt_in_place_bytes _ _ _ _ _ _ Hbr Hdec) as Hbb.
  rewrite copy_prefix' in Hop by lia. simpl in Hop. injection Hop as <- <- <-.
  pose proof (len_nonneg o2). unfold TAG_SIZE in Hk.
  split_and!; try done; try (rewrite !len_app in *; unfold TAG_SIZE; lia).
  - unfold slice. rewrite drop_0, take_app_le by (unfold len in *; lia).
    by apply Forall_take.
  - exists n, c, tag. split; [done|]. split; [|done]. rewrite <- Hseal. f_equal.
    assert (k <= len body) by (unfold TAG_SIZE in *; lia).
    unfold slice. rewrite !drop_0, take_app_le; [done|]. unfold len in *. lia.
  - by exists w.
Qed.

(** * Invariant *)

Lemma update_recv_counter_wf s c : wf s -> 0 <= c -> wf (fst (update_recv_counter s c)).
Proof.
  intros (? & ? & ? & ? & a & Ha) Hc. unfold update_recv_counter.
  destruct (AntiReplayWindow.refines_step _ _ _ Ha Hc) as [Hr _].
  destruct (AntiReplayWindow.check_and_update (recv_window s) c) as [w ok].
  unfold wf; sfields. split_and!; try done; try lia. by eexists.
Qed.

Lemma encrypt_packet_wf s mt payload output :
  wf s -> wf (fst (encrypt_packet s mt payload output)).
Proof.
  intros Hw. unfold encrypt_packet.
  assert (wf (fst (next_send_counter s))) as Hw'.
  { destruct Hw as (? & ? & ? & ? & ?). unfold next_send_counter. cbv zeta.
    destruct (Counter.MAX_SAFE <=? send_counter s) eqn:E; b2p; unfold wf; sfields;
      split_and!; try done; lia. }
  destruct (next_send_counter s) as [s1 c]. cbv zeta.
  match goal with |- context [match ?o with _ => _ end] => destruct o as [[out n]|e|] end; done.
Qed.

Lemma decrypt_packet_wf s now packet output :
  wf s -> bytes_ok packet -> wf (fst (decrypt_packet s now packet output)).
Proof.
  intros Hw Hb. destruct (decrypt_packet s now packet output) as [s' [[[out h] m]|e|]] eqn:Hd.
  - destruct (decrypt_packet_inv _ _ _ _ _ _ _ _ Hw Hb Hd) as (Hh & _ & _ & _ & _ & _ & _ & w & Hcu & ->).
    pose proof (update_recv_counter_wf s (PacketHeader.counter h) Hw) as Hu.
    unfold update_recv_counter in Hu. rewrite Hcu in Hu.
    destruct Hh as (_ & _ & _ & _ & _ & _ & Hc & _). apply Hu. unfold uint in Hc. lia.
  - pose proof (decrypt_packet_refused s now packet output) as Hr. rewrite Hd in *.
    simpl in *. by rewrite Hr by tauto.
  - pose proof (decrypt_packet_refused s now packet output) as Hr. rewrite Hd in *.
    simpl in *. by rewrite Hr by tauto.
Qed.

Lemma update_keys_wf s k : wf s -> SessionKeys.wf k -> wf (fst (update_keys s k)).
Proof.
  intros Hw Hk'. unfold update_keys.
  destruct (PrecomputedKey.new (SessionKeys.send_key k)); try done.
  destruct Hw as (Hi & Hk & Hks & Hc & sp & Ha).
  destruct (PrecomputedKey.new (SessionKeys.recv_key k)); unfold wf; sfields;
    split_and!; try done; try lia; try (by eexists).
  - apply KeyId.next_u32.
  - exists AntiReplayWindow.spec_new. by eapply AntiReplayWindow.refines_reset.
Qed.

Lemma new_ok now id k :
  u64 id -> SessionKeys.wf k ->
  exists s, new now id k = Ok s /\ wf s /\ send_counter s = 0 /\ keys s = k /\
    session_id s = id /\ key_id s = 0 /\ recv_window s = AntiReplayWindow.new /\
    LessSafeKey_new (SessionKeys.send_key k) = Some (send_key s) /\
    LessSafeKey_new (SessionKeys.recv_key k) = Some (recv_key s).
Proof.
  intros Hid Hk. pose proof Hk as (Hs & Hr & Hp & Hq).
  destruct (LessSafeKey_new_32 _ Hs) as [ks Hks]. destruct (LessSafeKey_new_32 _ Hr) as [kr Hkr].
  unfold new, PrecomputedKey.new. rewrite Hks, Hkr. sbind. eexists. split; [done|].
  split; [|done]. unfold wf; sfields. split_and!; try done; try lia.
  exists AntiReplayWindow.spec_new. apply AntiReplayWindow.refines_new.
Qed.

(** Two sessions of one connection, in the direction from [s] to [r]. *)
Definition linked (s r : t) : Prop :=
  session_id r = session_id s /\ key_id r = key_id s /\ recv_key r = send_key s /\
  SessionKeys.recv_nonce_prefix (keys r) = SessionKeys.send_nonce_prefix (keys s).

Lemma new_linked now now' id k s r :
  u64 id -> SessionKeys.wf k ->
  new now id k = Ok s -> new now' id (SessionKeys.swap k) = Ok r -> linked s r /\ linked r s.
Proof.
  intros Hid Hk Hs Hr.
  destruct (new_ok now id k Hid Hk) as (s0 & Hs0 & _ & _ & K1 & I1 & E1 & _ & S1 & R1).
  destruct (new_ok now' id (SessionKeys.swap k) Hid (SessionKeys.swap_wf k Hk))
    as (r0 & Hr0 & _ & _ & K2 & I2 & E2 & _ & S2 & R2).
  rewrite Hs in Hs0. rewrite Hr in Hr0. injection Hs0 as <-. injection Hr0 as <-.
  simpl in S2, R2. unfold linked. rewrite K1, K2, I1, I2, E1, E2. simpl.
  rewrite S1 in R2. rewrite R1 in S2. by injection R2 as ->; injection S2 as ->.
Qed.

(** Feeding a session a sequence of packets (with the clock and output buffer
    of each call): the counters it lets through. *)
Fixpoint received (s : t) (inputs : list (Z * list Z * list Z)) : list Z :=
  match inputs with
  | [] => []
  | (now, packet, output) :: inputs =>
      let '(s, r) := decrypt_packet s now packet output in
      match r with
      | Ok (_, h, _) => PacketHeader.counter h :: received s inputs
      | _ => received s inputs
      end
  end.

Lemma new_wf now id k s : u64 id -> SessionKeys.wf k -> new now id k = Ok s -> wf s.
Proof.
  intros Hid Hk Hn. destruct (new_ok now id k Hid Hk) as (s0 & Hn0 & Hw & _).
  rewrite Hn in Hn0. by injection Hn0 as ->.
Qed.

(** Both ends taking up the keys of a rekey, each its own side, stay linked
    and start their counters again. *)
Lemma update_keys_linked s r k :
  wf s -> wf r -> linked s r -> SessionKeys.wf k ->
  exists s' r', update_keys s k = (s', Ok tt) /\ update_keys r (SessionKeys.swap k) = (r', Ok tt) /\
    wf s' /\ wf r' /\ linked s' r' /\ linked r' s' /\ send_counter s' = 0 /\ send_counter r' = 0.
Proof.
  intros Hs Hr (Li & Lk & _) Hk. pose proof Hk as (Hks & Hkr & _).
  destruct (LessSafeKey_new_32 _ Hks) as [ks Eks]. destruct (LessSafeKey_new_32 _ Hkr) as [kr Ekr].
  pose proof (update_keys_wf s k Hs Hk) as Ws.
  pose proof (update_keys_wf r (SessionKeys.swap k) Hr (SessionKeys.swap_wf k Hk)) as Wr.
  unfold update_keys, PrecomputedKey.new in *. simpl in Wr. simpl. rewrite Eks, Ekr in *.
  do 2 eexists. split; [done|]. split; [done|]. split; [done|]. split; [done|].
  unfold linked; simpl. by rewrite Li, Lk.
Qed.

Lemma received_fresh s a inputs :
  wf s -> AntiReplayWindow.refines (recv_window s) a ->
  Forall (fun i => bytes_ok (snd (fst i))) inputs ->
  NoDup (received s inputs) /\
  forall c, c ∈ AntiReplayWindow.seen a -> c ∉ received s inputs.
Proof.
  intros Hw Ha Hin. revert s a Hw Ha.
  induction Hin as [|[[now packet] output] inputs Hb _ IH]; intros s a Hw Ha; simpl.
  { split; [constructor|]. intros. apply not_elem_of_nil. }
  simpl in Hb. pose proof (decrypt_packet_wf s now packet output Hw Hb) as Hw'.
  pose proof (decrypt_packet_refused s now packet output) as Href.
  destruct (decrypt_packet s now packet output) as [s' [[[out h] m]|e|]] eqn:Hd; simpl in *;
    [|rewrite Href in * by tauto; by apply IH|rewrite Href in * by tauto; by apply IH].
  destruct (decrypt_packet_inv _ _ _ _ _ _ _ _ Hw Hb Hd) as (Hh & _ & _ & _ & _ & _ & _ & w & Hcu & ->).
  assert (0 <= PacketHeader.counter h) as Hc
    by (destruct Hh as (_ & _ & _ & _ & _ & _ & Hc & _); unfold uint in Hc; lia).
  destruct (AntiReplayWindow.refines_step _ _ _ Ha Hc) as [Hr Hok]. rewrite Hcu in Hr, Hok.
  unfold AntiReplayWindow.spec_step in Hr, Hok.
  destruct (AntiReplayWindow.spec_accepts a (PacketHeader.counter h)) eqn:E; [|discriminate Hok].
  specialize (IH _ _ Hw' Hr) as [Hnd Hfr]. simpl in Hfr. split.
  - constructor; [|done]. apply Hfr. set_solver.
  - intros c Hin'. rewrite not_elem_of_cons. split; [|apply Hfr; set_solver].
    intros ->. by apply (AntiReplayWindow.spec_accepts_fresh _ _ _ _ Ha E).
Qed.

Lemma decrypt_in_place_no_panic key nonce aad buf :
  bytes_ok buf -> PrecomputedKey.decrypt_in_place key nonce aad buf <> Panic.
Proof.
  intros Hb H. unfold PrecomputedKey.decrypt_in_place, open_slice in H. step_in H.
  destruct (try_assume_unique_for_key nonce) as [n|]; simpl in H; [|discriminate H].
  rewrite (range_rest_at_end buf 0 buf (rest_at_start buf)) in H. simpl in H.
  destruct (open_in_place key n aad buf) as [b' [k|]] eqn:Ho; simpl in H; [|discriminate H].
  destruct (seal_open _ _ _ _ _ _ Hb Ho) as (_ & Hl & _).
  rewrite <- (app_nil_r buf) in H at 1. by rewrite copy_prefix in H.
Qed.

Lemma decrypt_packet_no_panic s now packet output :
  wf s -> bytes_ok packet -> snd (decrypt_packet s now packet output) <> Panic.
Proof.
  intros (_ & _ & (_ & _ & _ & Hpre) & _) Hb. unfold decrypt_packet. cbv zeta.
  match goal with |- context [match ?o with _ => _ end] =>
    assert (o <> Panic) as Hop; [|destruct o as [[[out h] m]|e|]; try done] end.
  2:{ destruct (update_recv_counter s _) as [s' []]; done. }
  intros Hop. step_in Hop. step_in Hop; [|by apply PacketHeader.decode_no_panic in Hs].
  destruct (PacketHeader.decode_inv _ _ Hb Hs) as (_ & _ & r & ->).
  pose proof (PacketHeader.len_wire a) as Lw. do 2 step_in Hop. b2p.
  assert (rest_at (PacketHeader.wire a ++ r) (PacketHeader.encoded_size a) r) as Rr
    by (by exists (PacketHeader.wire a)).
  rewrite (range_rest_at_end _ _ _ Rr) in Hop. cbn [rbind] in Hop. step_in Hop. b2p.
  destruct (split_at (length r) output) as (o1 & o2 & -> & H1); [unfold len in *; lia|].
  assert (len o1 = len r) as L1 by (unfold len; lia).
  rewrite copy_prefix' in Hop by done. cbn [rbind] in Hop.
  rewrite build_nonce_eq in Hop by done. cbn [rbind] in Hop.
  rewrite (range_rest_at _ 0 (PacketHeader.wire a) r _ (rest_at_start _)) in Hop by lia.
  cbn [rbind] in Hop.
  rewrite (range_rest_at _ 0 r o2 _ (rest_at_start _)) in Hop by lia. cbn [rbind] in Hop.
  apply bytes_ok_app in Hb as [_ Hbr].
  destruct (PrecomputedKey.decrypt_in_place _ _ _ r) as [[body k]|e|] eqn:Hdec;
    simpl in Hop; try discriminate Hop.
  - destruct (decrypt_in_place_inv _ _ _ _ _ _ Hbr Hdec) as (_ & _ & Lb & _).
    by rewrite copy_prefix' in Hop by lia.
  - by apply decrypt_in_place_no_panic in Hdec.
Qed.

Lemma is_valid_counter_update s c :
  is_valid_counter s c = snd (update_recv_counter s c).
Proof.
  unfold is_valid_counter, update_recv_counter.
  rewrite <- AntiReplayWindow.check_and_update_check.
  by destruct (AntiReplayWindow.check_and_update _ _).
Qed.

(** After an accepted counter, the same counter is refused. *)
Lemma update_recv_counter_twice s c s' :
  wf s -> 0 <= c -> update_recv_counter s c = (s', true) ->
  update_recv_counter s' c = (s', false).
Proof.
  intros (_ & _ & _ & _ & a & Ha) Hc H. unfold update_recv_counter in *.
  destruct (AntiReplayWindow.refines_step _ _ _ Ha Hc) as [Hr Hok].
  destruct (AntiReplayWindow.check_and_update (recv_window s) c) as [w ok].
  injection H as <- ->. simpl in *. unfold AntiReplayWindow.spec_step in Hr, Hok.
  destruct (AntiReplayWindow.spec_accepts a c); [|discriminate Hok]. simpl in Hr.
  destruct (AntiReplayWindow.refines_step _ _ _ Hr Hc) as [_ Hok'].
  pose proof (AntiReplayWindow.check_and_update_refused w c) as Href.
  destruct (AntiReplayWindow.check_and_update w c) as [w' ok']. simpl in *.
  unfold AntiReplayWindow.spec_step in Hok'.
  destruct (AntiReplayWindow.spec_accepts _ c) eqn:E; simpl in Hok'; subst ok'.
  - eapply AntiReplayWindow.spec_accepts_fresh; [exact Hr|exact E|]. simpl. set_solver.
  - by rewrite Href by done.
Qed.

(** An accepted packet is refused from then on. *)
Lemma decrypt_packet_twice s now packet output s' x now' output' :
  wf s -> bytes_ok packet -> decrypt_packet s now packet output = (s', Ok x) ->
  exists e, decrypt_packet s' now' packet output' = (s', Err e).
Proof.
  intros Hw Hb Hd. destruct x as [[out h] m].
  pose proof (decrypt_packet_wf s now packet output Hw Hb) as Hw'. rewrite Hd in Hw'. simpl in Hw'.
  destruct (decrypt_packet_inv _ _ _ _ _ _ _ _ Hw Hb Hd)
    as (Hh & Hn & _ & _ & _ & _ & (n & c & tag & _ & _ & Hp) & w & Hcu & Hs').
  pose proof (decrypt_packet_refused s' now' packet output') as Hr.
  pose proof (decrypt_packet_no_panic s' now' packet output' Hw' Hb) as Hnp.
  destruct (decrypt_packet s' now' packet output') as [s2 [[[out2 h2] m2]|e|]] eqn:Hd2;
    simpl in Hr, Hnp; [|rewrite Hr by tauto; by exists e|done].
  destruct (decrypt_packet_inv _ _ _ _ _ _ _ _ Hw' Hb Hd2)
    as (Hh2 & Hn2 & _ & _ & _ & _ & (n2 & c2 & tag2 & _ & _ & Hp2) & w2 & Hcu2 & _).
  assert (h2 = h) as ->.
  { pose proof (PacketHeader.decode_wire h (c ++ tag) Hh) as D1.
    pose proof (PacketHeader.decode_wire h2 (c2 ++ tag2) Hh2) as D2.
    rewrite <- Hp in D1. rewrite <- Hp2 in D2. congruence. }
  pose proof (update_recv_counter_twice s (PacketHeader.counter h) (set_recv_window s w) Hw) as Ht.
  unfold update_recv_counter in Ht. rewrite Hcu in Ht. subst s'. sfields.
  assert (0 <= PacketHeader.counter h) as Hc by (destruct Hh as (_ & _ & _ & _ & _ & _ & [? _] & _); lia).
  specialize (Ht Hc eq_refl). cbn [recv_window touch add_bytes_received set_recv_window] in *.
  rewrite Hcu2 in Ht. discriminate Ht.
Qed.

(** * Properties *)

(** C7: what one end of a session encrypts, the other end decrypts: the packet
    carries the payload, the receiver learns the header the sender built, and
    presenting the same packet again is refused as a replay and changes
    nothing. *)
Theorem session_roundtrip s r mt payload out out2 out3 now now' :
  wf s -> wf r -> linked s r -> send_counter s < Counter.MAX_SAFE ->
  is_valid_counter r (send_counter s) = true ->
  bytes_ok payload -> len payload <= MAX_SEAL ->
  HEADER_SIZE + len payload + TAG_SIZE <= len out ->
  len payload + TAG_SIZE <= len out2 -> len payload + TAG_SIZE <= len out3 ->
  let h := PacketHeader.new mt (session_id s) (key_id s) (send_counter s) in
  exists s' packet rest r' rest2,
    encrypt_packet s mt payload out = (s', Ok (packet ++ rest, len packet)) /\
    send_counter s' = send_counter s + 1 /\
    decrypt_packet r now packet out2 = (r', Ok (payload ++ rest2, h, len payload)) /\
    decrypt_packet r' now' packet out3 =
      (r', Err (ProtocolError.ReplayDetected (send_counter s))).
Proof.
  intros Hs Hr (Li & Lk & Lr & Lp) Hc Hv Hb Hm Ho Ho2 Ho3 h.
  destruct (encrypt_packet_ok s mt payload out Hs Hc Hb Hm Ho)
    as (packet & rest & Hseal & Hlen & Hpb & Henc). fold h in Hseal.
  rewrite <- Lr, <- Lp in Hseal.
  assert (PacketHeader.wf h) as Hh.
  { destruct Hs as (? & ? & _ & ? & _). apply data_header_wf; try done. apply max_safe_u64. lia. }
  assert (0 <= send_counter s) as Hc0 by (destruct Hs as (_ & _ & _ & ? & _); lia).
  destruct (decrypt_packet_sealed r now h payload packet out2) as (rest2 & Hdec); try done.
  change (PacketHeader.counter h) with (send_counter s) in Hdec.
  rewrite is_valid_counter_update in Hv.
  destruct (update_recv_counter r (send_counter s)) as [r1 ok] eqn:Hu. simpl in Hv. subst ok.
  pose proof (update_recv_counter_twice _ _ _ Hr Hc0 Hu) as Hu'.
  pose proof (decrypt_packet_wf r now packet out2 Hr Hpb) as Hr'. rewrite Hdec in Hr'.
  simpl negb in *. cbv iota in *. cbn [fst] in Hr'.
  exists (add_bytes_sent (set_send_counter s (send_counter s + 1))
            (HEADER_SIZE + (len payload + TAG_SIZE))), packet, rest,
    (touch (add_bytes_received r1 (len packet)) now), rest2.
  split; [by rewrite Henc, Hlen|]. split; [done|]. split; [exact Hdec|].
  unfold update_recv_counter in Hu, Hu'.
  destruct (AntiReplayWindow.check_and_update (recv_window r) (send_counter s)) as [w ok].
  injection Hu as <- ->.
  destruct (decrypt_packet_sealed (touch (add_bytes_received (set_recv_window r w) (len packet)) now)
    now' h payload packet out3) as (rest3 & ->); try done.
  change (PacketHeader.counter h) with (send_counter s). unfold update_recv_counter. sfields.
  cbn [recv_window set_recv_window] in Hu'.
  destruct (AntiReplayWindow.check_and_update w (send_counter s)) as [w' ok'].
  injection Hu' as Hw' ->. simpl in Hw'. by rewrite Hw'.
Qed.

(** C8: the receiver accepts only authentic packets: if [decrypt_packet]
    returns a payload, the packet is byte for byte a well-formed header of this
    session and key followed by that payload sealed, with the header as
    associated data and the header's counter as nonce, under the session's
    receive key. *)
Theorem decrypt_only_sealed s now packet output s' out' h m :
  wf s -> bytes_ok packet ->
  decrypt_packet s now packet output = (s', Ok (out', h, m)) ->
  PacketHeader.wf h /\ PacketHeader.session_id h = session_id s /\
  PacketHeader.key_id h = key_id s /\ is_valid_counter s (PacketHeader.counter h) = true /\
  sealed_packet (recv_key s) (SessionKeys.recv_nonce_prefix (keys s)) h (slice out' 0 m) packet.
Proof.
  intros Hw Hb Hd.
  destruct (decrypt_packet_inv _ _ _ _ _ _ _ _ Hw Hb Hd)
    as (Hh & _ & Hi & Hk & _ & _ & Hs & w & Hcu & _).
  split_and!; try done. rewrite is_valid_counter_update. unfold update_recv_counter. by rewrite Hcu.
Qed.

(** ** Both ends of a connection *)

(** The state after a packet was accepted, and after one was sent. *)
Definition took (s s' : t) (n : Z) : Prop :=
  exists bytes now, s' = touch (add_bytes_received (fst (update_recv_counter s n)) bytes) now /\
    snd (update_recv_counter s n) = true.

Definition gave (s s' : t) : Prop :=
  exists bytes, s' = add_bytes_sent (set_send_counter s (send_counter s + 1)) bytes.

(** [r] accepts every counter [s] has not used yet. *)
Definition ahead (s r : t) : Prop := forall n, send_counter s <= n -> is_valid_counter r n = true.

Definition in_step (s r : t) : Prop :=
  wf s /\ wf r /\ linked s r /\ linked r s /\ ahead s r /\ ahead r s.

Lemma in_step_sym s r : in_step s r -> in_step r s.
Proof. unfold in_step. tauto. Qed.

Lemma in_step_valid s r : in_step s r -> is_valid_counter r (send_counter s) = true.
Proof. intros (_ & _ & _ & _ & Ha & _). by apply Ha. Qed.

Lemma took_valid s s' n m :
  wf s -> 0 <= n < m -> took s s' n -> is_valid_counter s m = true -> is_valid_counter s' m = true.
Proof.
  intros (_ & _ & _ & _ & sp & Hsp) Hn (bytes & now & -> & Hok) Hm.
  unfold is_valid_counter, update_recv_counter in *.
  pose proof (AntiReplayWindow.refines_step (recv_window s) sp n Hsp ltac:(lia)) as [Hr Hb].
  destruct (AntiReplayWindow.check_and_update (recv_window s) n) as [w ok]. simpl in *. subst ok.
  rewrite (AntiReplayWindow.check_accepts _ _ m Hsp) in Hm by lia.
  unfold AntiReplayWindow.spec_step in *. destruct (AntiReplayWindow.spec_accepts sp n); [|done]. simpl in *.
  rewrite (AntiReplayWindow.check_accepts _ _ m Hr) by lia.
  unfold AntiReplayWindow.spec_accepts in *. cbn [AntiReplayWindow.hi AntiReplayWindow.seen].
  apply orb_true_iff in Hm as [Hm|[Hm Hs]%andb_true_iff].
  - b2p. by rewrite (proj2 (Z.ltb_lt _ _)) by lia.
  - destruct (Z.max (AntiReplayWindow.hi sp) n <? m) eqn:E; [done|]. b2p.
    rewrite (proj2 (Z.ltb_lt _ _)) by lia. rewrite bool_decide_false; [done|].
    intros [->%elem_of_singleton|Hin]%elem_of_union; [lia|done].
Qed.

(** One packet sent and accepted. *)
Lemma in_step_transfer s r s' r' :
  in_step s r -> send_counter s < Counter.MAX_SAFE -> gave s s' -> took r r' (send_counter s) ->
  in_step s' r' /\ send_counter s' = send_counter s + 1 /\ send_counter r' = send_counter r.
Proof.
  intros (Ws & Wr & Ls & Lr & As & Ar) Hc (bytes & ->) Ht. pose proof Ws as (_ & _ & _ & Hs & _).
  assert (ahead (add_bytes_sent (set_send_counter s (send_counter s + 1)) bytes) r') as Ha.
  { intros n Hn. simpl in Hn. eapply took_valid; [exact Wr| |exact Ht|apply As]; lia. }
  destruct Ht as (bytes' & now & -> & Hok). unfold update_recv_counter in *.
  destruct (AntiReplayWindow.check_and_update (recv_window r) (send_counter s)) as [w ok] eqn:E. simpl in Hok. subst ok.
  split; [|done]. split_and!; try done.
  - destruct Ws as (? & ? & ? & ? & ?). unfold wf; simpl. split_and!; try done; lia.
  - destruct Wr as (? & ? & ? & ? & sp & Hsp). unfold wf; simpl. do 4 (split; [done|]).
    eexists. pose proof (AntiReplayWindow.refines_step (recv_window r) sp (send_counter s) Hsp ltac:(lia)) as [Hr _].
    by rewrite E in Hr.
Qed.

Lemma new_in_step now now' id k s r :
  u64 id -> SessionKeys.wf k -> new now id k = Ok s -> new now' id (SessionKeys.swap k) = Ok r ->
  in_step s r /\ send_counter s = 0 /\ send_counter r = 0 /\ session_id s = id.
Proof.
  intros Hid Hk Hs Hr. destruct (new_linked _ _ _ _ _ _ Hid Hk Hs Hr) as [Ls Lr].
  destruct (new_ok now id k Hid Hk) as (x & Hx & Wx & Cx & _ & Ix & _ & Rx & _).
  destruct (new_ok now' id _ Hid (SessionKeys.swap_wf _ Hk)) as (y & Hy & Wy & Cy & _ & _ & _ & Ry & _).
  rewrite Hs in Hx. rewrite Hr in Hy. injection Hx as <-. injection Hy as <-.
  assert (forall n, 0 <= n -> AntiReplayWindow.check AntiReplayWindow.new n = true) as Hw.
  { intros n Hn. rewrite (AntiReplayWindow.check_accepts _ _ n AntiReplayWindow.refines_new Hn).
    unfold AntiReplayWindow.spec_accepts, REPLAY_WINDOW_SIZE. simpl. destruct (0 <? n) eqn:E; [done|]. b2p.
    by replace n with 0 by lia. }
  split; [|done]. unfold in_step, ahead, is_valid_counter. rewrite Rx, Ry, Cx, Cy. by split_and!.
Qed.

(** A packet that is refused, for whatever reason, leaves the session
    unchanged: forged or damaged packets cannot consume replay-window space,
    move counters or refresh activity.  And no input aborts the receiver. *)
Lemma decrypt_refused_unchanged s now packet output :
  wf s -> bytes_ok packet ->
  match decrypt_packet s now packet output with
  | (_, Ok _) => True
  | (s', Err _) => s' = s
  | (_, Panic) => False
  end.
Proof.
  intros Hw Hb. pose proof (decrypt_packet_refused s now packet output) as Hr.
  pose proof (decrypt_packet_no_panic s now packet output Hw Hb) as Hp.
  destruct (decrypt_packet s now packet output) as [s' [x|e|]]; simpl in *; [done| |done].
  apply Hr. tauto.
Qed.

(** Over any sequence of packets, forged, reordered or repeated, a session
    lets no counter through twice. *)
Lemma session_never_replays s inputs :
  wf s -> Forall (fun i => bytes_ok (snd (fst i))) inputs -> NoDup (received s inputs).
Proof.
  intros Hw Hin. pose proof Hw as (_ & _ & _ & _ & a & Ha).
  by apply (received_fresh s a inputs).
Qed.

(** The session invariant (field widths, key sizes, a send counter that
    never passes [MAX_SAFE], a window that represents a set of counters) holds
    of a new session and is kept by every operation, whatever its outcome. *)
Lemma session_invariant :
  (forall now id k s, u64 id -> SessionKeys.wf k -> new now id k = Ok s -> wf s) /\
  (forall s mt payload output, wf s -> wf (fst (encrypt_packet s mt payload output))) /\
  (forall s now packet output,
     wf s -> bytes_ok packet -> wf (fst (decrypt_packet s now packet output))) /\
  (forall s k, wf s -> SessionKeys.wf k -> wf (fst (update_keys s k))) /\
  (forall s now, wf s -> wf (touch s now) /\ wf (close s)).
Proof.
  split_and!.
  - intros. by eapply new_wf.
  - intros. by apply encrypt_packet_wf.
  - intros. by apply decrypt_packet_wf.
  - intros. by apply update_keys_wf.
  - done.
Qed.

End Lemmas.

End Session.

(** * Witnesses with the concrete cipher *)

Definition example_keys : SessionKeys.t :=
  SessionKeys.mk (replicate 32 1) (replicate 32 2) [1; 2; 3; 4] [5; 6; 7; 8].

Lemma example_keys_wf : SessionKeys.wf example_keys.
Proof. by_decide. Qed.

Lemma session_roundtrip_witness :
  exists s r s' packet rest r' rest2,
    Session.new 0 7 example_keys = Ok s /\ Session.new 5 7 (SessionKeys.swap example_keys) = Ok r /\
    Session.encrypt_packet s MessageType.Data [104; 105] (replicate 50 0) =
      (s', Ok (packet ++ rest, len packet)) /\
    Session.decrypt_packet r 9 packet (replicate 20 0) =
      (r', Ok ([104; 105] ++ rest2, PacketHeader.new MessageType.Data 7 0 0, 2)) /\
    Session.decrypt_packet r' 10 packet (replicate 20 0) = (r', Err (ProtocolError.ReplayDetected 0)).
Proof.
  destruct (Session.new_ok 0 7 example_keys ltac:(by_decide) example_keys_wf)
    as (s & Hs & Ws & Cs & _ & Is & Es & _).
  destruct (Session.new_ok 5 7 (SessionKeys.swap example_keys) ltac:(by_decide)
    (SessionKeys.swap_wf _ example_keys_wf)) as (r & Hr & Wr & _ & _ & _ & _ & Vr & _).
  destruct (Session.session_roundtrip s r MessageType.Data [104; 105] (replicate 50 0)
    (replicate 20 0) (replicate 20 0) 9 10) as (s' & packet & rest & r' & rest2 & He & _ & Hd & Hd').
  - exact Ws.
  - exact Wr.
  - apply (Session.new_linked 0 5 7 example_keys s r ltac:(by_decide) example_keys_wf Hs Hr).
  - rewrite Cs. vm_compute. reflexivity.
  - unfold Session.is_valid_counter. rewrite Vr, Cs. vm_compute. reflexivity.
  - by_decide.
  - vm_compute. discriminate.
  - vm_compute. discriminate.
  - vm_compute. discriminate.
  - vm_compute. discriminate.
  - rewrite Is, Es, Cs in *. exists s, r, s', packet, rest, r', rest2. split_and!; assumption.
Defined.

Definition example_session : Session.t :=
  Session.mk 7 0 SessionState.Active (SessionKeys.swap example_keys) (replicate 32 2)
    (replicate 32 1) 0 AntiReplayWindow.new (AtomicInstant.mk 0 5) 5 0 0.

Definition example_packet : list Z :=
  let h := PacketHeader.new MessageType.Data 7 0 4 in
  PacketHeader.wire h ++ [104; 105]
    ++ toy_tag (replicate 32 1) ([1; 2; 3; 4] ++ be_bytes 8 4) (PacketHeader.wire h) [104; 105].

Lemma example_session_wf : Session.wf example_session.
Proof.
  unfold Session.wf. split; [by_decide|]. split; [by_decide|]. split; [by_decide|].
  split; [split; vm_compute; discriminate|].
  exists AntiReplayWindow.spec_new. apply AntiReplayWindow.refines_new.
Qed.

Lemma decrypt_only_sealed_witness :
  exists s' out' h,
    Session.decrypt_packet example_session 9 example_packet (replicate 30 0) = (s', Ok (out', h, 2)) /\
    Session.sealed_packet (replicate 32 1) [1; 2; 3; 4] h (slice out' 0 2) example_packet.
Proof.
  assert (match snd (Session.decrypt_packet example_session 9 example_packet (replicate 30 0)) with
          | Ok (_, _, m) => m | _ => 0 end = 2) as Hm by (vm_compute; reflexivity).
  destruct (Session.decrypt_packet example_session 9 example_packet (replicate 30 0))
    as [s' [[[out' h] m]|e|]] eqn:E; [|discriminate Hm|discriminate Hm].
  simpl in Hm. subst m.
  exists s', out', h. split; [reflexivity|].
  apply (Session.decrypt_only_sealed example_session 9 example_packet (replicate 30 0) s' out' h 2).
  - apply example_session_wf.
  - by_decide.
  - exact E.
Defined.

Lemma session_never_replays_witness :
  NoDup (Session.received example_session
    [(9, example_packet, replicate 30 0); (10, example_packet, replicate 30 0)]).
Proof.
  apply Session.session_never_replays; [apply example_session_wf|].
  repeat constructor; by_decide.
Defined.

(** * Concurrent senders

    Several threads call [Session::next_send_counter] on one atomic counter.
    A thread loads the counter, checks it, and tries the compare-and-swap; a
    failed swap starts over.  [issued] records the counters handed out, in the
    order of the successful swaps. *)
Module SendCounter.

Inductive pc :=
  | Start
  | Loaded (current : Z)
  | Returned (r : result SessionError.t Z).

Record cfg := mk { counter : Z; threads : list pc; issued : list Z }.

Inductive step : cfg -> cfg -> Prop :=
  | step_load c ts iss i :
      ts !! i = Some Start ->
      step (mk c ts iss) (mk c (<[i := Loaded c]> ts) iss)
  | step_exhausted c ts iss i current :
      ts !! i = Some (Loaded current) -> Counter.MAX_SAFE <= current ->
      step (mk c ts iss)
           (mk c (<[i := Returned (Err SessionError.CounterExhausted)]> ts) iss)
  | step_swap ts iss i current :
      ts !! i = Some (Loaded current) -> current < Counter.MAX_SAFE ->
      step (mk current ts iss)
           (mk (current + 1) (<[i := Returned (Ok current)]> ts) (iss ++ [current]))
  | step_retry c ts iss i current :
      ts !! i = Some (Loaded current) -> current < Counter.MAX_SAFE -> c <> current ->
      step (mk c ts iss) (mk c (<[i := Start]> ts) iss)
  | step_call c ts iss i r :
      ts !! i = Some (Returned r) ->
      step (mk c ts iss) (mk c (<[i := Start]> ts) iss).

Definition init (n : nat) : cfg := mk 0 (replicate n Start) [].

Definition inv (x : cfg) : Prop :=
  0 <= counter x <= Counter.MAX_SAFE /\ issued x = seqZ 0 (counter x) /\
  (forall i c, threads x !! i = Some (Returned (Ok c)) -> c ∈ issued x).

Lemma inv_init n : inv (init n).
Proof.
  unfold inv, init; simpl. split_and!; [lia|unfold Counter.MAX_SAFE; by vm_compute|done|].
  intros i c Hi. apply lookup_replicate in Hi as [? _]. done.
Qed.

Lemma lookup_insert_pc (ts : list pc) i j p q :
  <[i := p]> ts !! j = Some q -> q = p \/ ts !! j = Some q.
Proof.
  intros H. apply list_lookup_insert_Some in H as [(_ & <- & _)|[_ H]]; [by left|by right].
Qed.

Lemma inv_step x y : inv x -> step x y -> inv y.
Proof.
  intros (Hc & Hi & Hr) Hs. inversion Hs; subst; simpl in *; unfold inv; simpl.
  - split_and!; try lia; try done. intros j d [Hj|Hj]%lookup_insert_pc; [discriminate Hj|eauto].
  - split_and!; try lia; try done. intros j d [Hj|Hj]%lookup_insert_pc; [discriminate Hj|eauto].
  - split_and!; try lia.
    + rewrite seqZ_app, <- Hi by lia. done.
    + intros j d [Hj|Hj]%lookup_insert_pc.
      * injection Hj as <-. apply elem_of_app. right. by apply list_elem_of_singleton.
      * apply elem_of_app. left. by eapply Hr.
  - split_and!; try lia; try done. intros j d [Hj|Hj]%lookup_insert_pc; [discriminate Hj|eauto].
  - split_and!; try lia; try done. intros j d [Hj|Hj]%lookup_insert_pc; [discriminate Hj|eauto].
Qed.

Lemma inv_reachable n x : rtc step (init n) x -> inv x.
Proof.
  intros H. remember (init n) as x0. assert (inv x0) as H0 by (subst; apply inv_init).
  clear Heqx0. induction H; eauto using inv_step.
Qed.

(** * Properties *)

(** C29: however the threads interleave, the counters handed out are
    0, 1, 2, ... in the order of the successful swaps, without a gap or a
    repetition, and never reach [MAX_SAFE]; every counter a call returned is
    one of them. *)
Theorem send_counters_unique n x :
  rtc step (init n) x ->
  issued x = seqZ 0 (counter x) /\ NoDup (issued x) /\
  (forall c, c ∈ issued x -> 0 <= c < Counter.MAX_SAFE) /\
  (forall i c, threads x !! i = Some (Returned (Ok c)) -> c ∈ issued x).
Proof.
  intros H. destruct (inv_reachable n x H) as (Hc & Hi & Hr). rewrite Hi in *.
  split_and!; [done|apply NoDup_seqZ| |done].
  intros c Hin%elem_of_seqZ. lia.
Qed.

Lemma send_counters_unique_witness :
  let x := mk 2 [Returned (Ok 1); Start] [0; 1] in
  rtc step (init 2) x /\ issued x = seqZ 0 2.
Proof.
  intros x. assert (rtc step (init 2) x) as H.
  { eapply rtc_l; [apply (step_load 0 _ [] 1); reflexivity|].
    eapply rtc_l; [apply (step_load 0 _ [] 0); reflexivity|].
    eapply rtc_l; [apply (step_swap _ [] 0 0); [reflexivity|by vm_compute]|].
    eapply rtc_l; [apply (step_retry 1 _ [0] 1 0); [reflexivity|by vm_compute|done]|].
    eapply rtc_l; [apply (step_call 1 _ [0] 0 (Ok 0)); reflexivity|].
    eapply rtc_l; [apply (step_load 1 _ [0] 0); reflexivity|].
    eapply rtc_l; [apply (step_swap _ [0] 0 1); [reflexivity|by vm_compute]|].
    apply rtc_refl. }
  split; [exact H|]. destruct (send_counters_unique 2 x H) as (Hi & _). exact Hi.
Defined.

End SendCounter.
