(* ===== verification/Fragment.v ===== *)
(** Handshake fragments: the wire format and the splitter of
    hpn-core/src/protocol/fragment.rs. *)

From S2P Require Import Prelude Types.

Definition FRAGMENT_HEADER_SIZE : Z := 1 + 4 + 2 + 2 + 2.
Definition MAX_FRAGMENT_PAYLOAD : Z := 1165.
Definition MAX_FRAGMENTS_PER_HANDSHAKE : Z := 32.
Definition FRAGMENTATION_THRESHOLD : Z := 1176.

Module HandshakeFragment.

Record t := mk {
  inner_msg_type : MessageType.t;
  frag_id : Z;
  frag_index : Z;
  frag_total : Z;
  payload : list Z;
}.

#[global] Instance t_eq_dec : EqDecision t.
Proof. solve_decision. Defined.

Definition MAX_ENCODED_SIZE : Z := FRAGMENT_HEADER_SIZE + MAX_FRAGMENT_PAYLOAD.

Definition to_bytes (f : t) : list Z :=
  [MessageType.as_u8 (inner_msg_type f)] ++ be_bytes 4 (frag_id f)
  ++ be_bytes 2 (frag_index f) ++ be_bytes 2 (frag_total f)
  ++ be_bytes 2 (as_uint 16 (len (payload f))) ++ payload f.

Definition is_valid_inner_type (ty : MessageType.t) : bool :=
  match ty with
  | MessageType.HandshakeInit
  | MessageType.EncryptedHandshakeInit
  | MessageType.HandshakeResponse => true
  | _ => false
  end.

Definition from_bytes (bytes : list Z) : result ProtocolError.t t :=
  if len bytes <? FRAGMENT_HEADER_SIZE then
    Err (ProtocolError.PacketTooShort FRAGMENT_HEADER_SIZE (len bytes))
  else
    let? b0 := index bytes 0 in
    let? inner_msg_type :=
      ok_or (ProtocolError.InvalidData
               ("unknown inner_msg_type byte " ++ dec b0 ++ " in HandshakeFragment"))
        (MessageType.from_u8 b0) in
    if negb (is_valid_inner_type inner_msg_type) then
      Err (ProtocolError.InvalidData
             ("inner_msg_type " ++ MessageType.debug inner_msg_type
                ++ " is not a valid fragmentable handshake message"))
    else
      let? s := range bytes 1 5 in
      let frag_id := from_be s in
      let? s := range bytes 5 7 in
      let frag_index := from_be s in
      let? s := range bytes 7 9 in
      let frag_total := from_be s in
      let? s := range bytes 9 11 in
      let payload_len := from_be s in
      if (frag_total =? 0) || (MAX_FRAGMENTS_PER_HANDSHAKE <? frag_total) then
        Err (ProtocolError.InvalidData
               ("frag_total " ++ dec frag_total ++ " out of range (1..="
                  ++ dec MAX_FRAGMENTS_PER_HANDSHAKE ++ ")"))
      else if frag_total <=? frag_index then
        Err (ProtocolError.InvalidData
               ("frag_index " ++ dec frag_index ++ " >= frag_total " ++ dec frag_total))
      else
        let payload_start := FRAGMENT_HEADER_SIZE in
        let payload_end := payload_start + payload_len in
        if MAX_FRAGMENT_PAYLOAD <? payload_len then
          Err (ProtocolError.InvalidData
                 ("payload_len " ++ dec payload_len ++ " exceeds MAX_FRAGMENT_PAYLOAD "
                    ++ dec MAX_FRAGMENT_PAYLOAD))
        else if len bytes <? payload_end then
          Err (ProtocolError.PacketTooShort payload_end (len bytes))
        else
          let? payload := range bytes payload_start payload_end in
          Ok (mk inner_msg_type frag_id frag_index frag_total payload).

(** The fragments that exist on the wire. *)
Definition wf (f : t) : Prop :=
  is_valid_inner_type (inner_msg_type f) = true /\ u32 (frag_id f) /\
  0 <= frag_index f < frag_total f /\ frag_total f <= MAX_FRAGMENTS_PER_HANDSHAKE /\
  len (payload f) <= MAX_FRAGMENT_PAYLOAD /\ bytes_ok (payload f).

#[global] Instance wf_dec f : Decision (wf f).
Proof. unfold wf. apply _. Defined.

(** Decoding a buffer cut at the field boundaries. *)
Lemma from_bytes_fields ty id idx total plen r mt :
  MessageType.from_u8 ty = Some mt -> is_valid_inner_type mt = true ->
  length id = 4%nat -> length idx = 2%nat -> length total = 2%nat -> length plen = 2%nat ->
  1 <= from_be total <= MAX_FRAGMENTS_PER_HANDSHAKE -> from_be idx < from_be total ->
  0 <= from_be plen <= MAX_FRAGMENT_PAYLOAD -> from_be plen <= len r ->
  from_bytes ([ty] ++ id ++ idx ++ total ++ plen ++ r) =
    Ok (mk mt (from_be id) (from_be idx) (from_be total) (take (Z.to_nat (from_be plen)) r)).
Proof.
  intros Hmt Hv Hid Hidx Htot Hpl Ht Hi Hp Hr. set (buf := [ty] ++ _).
  assert (len id = 4 /\ len idx = 2 /\ len total = 2 /\ len plen = 2) as (L1 & L2 & L3 & L4)
    by (unfold len; lia).
  pose proof (rest_at_start buf) as R0. unfold buf at 2 in R0. simpl in R0.
  pose proof (rest_at_cons _ _ _ _ R0) as R1.
  pose proof (rest_at_app _ _ _ _ R1) as R2. pose proof (rest_at_app _ _ _ _ R2) as R3.
  pose proof (rest_at_app _ _ _ _ R3) as R4. pose proof (rest_at_app _ _ _ _ R4) as R5.
  rewrite L1, L2, L3, L4 in R5. rewrite L1, L2, L3 in R4. rewrite L1, L2 in R3. rewrite L1 in R2.
  simpl in R1, R2, R3, R4, R5. pose proof (rest_at_len _ _ _ R5) as HL.
  unfold from_bytes, FRAGMENT_HEADER_SIZE in *. rewrite HL. len_pos. simpl (1 + 4 + 2 + 2 + 2).
  decide_ltb. rewrite (index_rest_at _ _ _ _ R0). sbind. rewrite Hmt. sbind. rewrite Hv.
  simpl negb. cbv iota.
  rewrite (range_rest_at _ _ _ _ _ R1) by lia. sbind.
  rewrite (range_rest_at _ _ _ _ _ R2) by lia. sbind.
  rewrite (range_rest_at _ _ _ _ _ R3) by lia. sbind.
  rewrite (range_rest_at _ _ _ _ _ R4) by lia. sbind.
  repeat decide_ltb. simpl orb. cbv iota.
  rewrite <- (take_drop (Z.to_nat (from_be plen)) r) in R5.
  rewrite (range_rest_at _ _ _ _ _ R5); [done|]. rewrite len_take; lia.
Qed.

Lemma from_bytes_to_bytes f r : wf f -> from_bytes (to_bytes f ++ r) = Ok f.
Proof.
  intros (Hv & Hid & Hi & Ht & Hp & Hb). unfold to_bytes. rewrite <- !app_assoc.
  unfold MAX_FRAGMENT_PAYLOAD, MAX_FRAGMENTS_PER_HANDSHAKE in *. len_pos.
  assert (as_uint 16 (len (payload f)) = len (payload f)) as Hl
    by (pose proof (len_nonneg (payload f)); apply Z.mod_small; lia).
  pose proof (len_nonneg (payload f)).
  rewrite Hl, (from_bytes_fields _ _ _ _ _ _ (inner_msg_type f));
    rewrite ?length_be_bytes, ?from_be_be_bytes_2, ?len_app by (unfold uint; lia);
    rewrite ?MessageType.from_u8_as_u8; try done;
    unfold MAX_FRAGMENT_PAYLOAD, MAX_FRAGMENTS_PER_HANDSHAKE; len_pos; try lia.
  rewrite from_be_be_bytes_4 by done. rewrite take_app_length' by (unfold len; lia).
  by destruct f.
Qed.

Lemma from_bytes_inv bytes f :
  bytes_ok bytes -> from_bytes bytes = Ok f ->
  wf f /\ exists r, bytes = to_bytes f ++ r.
Proof.
  intros Hb H. unfold from_bytes in H. do 2 step_in H. b2p.
  destruct (MessageType.from_u8 a) as [mt|] eqn:Hmt; simpl in H; [|discriminate H].
  step_in H. b2p. repeat (step_in H; b2p).
  apply index_inv in Hs as [_ Hs].
  apply range_inv in Hs0 as (_ & _ & _ & -> & Ls0). apply range_inv in Hs1 as (_ & _ & _ & -> & Ls1).
  apply range_inv in Hs2 as (_ & _ & _ & -> & Ls2). apply range_inv in Hs3 as (_ & _ & _ & -> & Ls3).
  pose proof (from_be_bound 4 (slice bytes 1 5)) as B0.
  pose proof (from_be_bound 2 (slice bytes 5 7)) as B1.
  pose proof (from_be_bound 2 (slice bytes 7 9)) as B2.
  pose proof (from_be_bound 2 (slice bytes 9 11)) as B3.
  unfold len in Ls0, Ls1, Ls2, Ls3.
  specialize (B0 ltac:(auto with hpn) ltac:(lia)). specialize (B1 ltac:(auto with hpn) ltac:(lia)).
  specialize (B2 ltac:(auto with hpn) ltac:(lia)). specialize (B3 ltac:(auto with hpn) ltac:(lia)).
  unfold uint in B0, B1, B2, B3.
  apply range_inv in Hs4 as (_ & _ & He & -> & Lp). simpl in Lp. injection H as <-.
  replace (FRAGMENT_HEADER_SIZE + from_be (slice bytes 9 11) - FRAGMENT_HEADER_SIZE)
    with (from_be (slice bytes 9 11)) in Lp by lia.
  split.
  - unfold wf; cbn [inner_msg_type frag_id frag_index frag_total payload].
    split_and!; try done; try lia; auto with hpn.
  - unfold to_bytes; cbn [inner_msg_type frag_id frag_index frag_total payload].
    exists (drop (Z.to_nat (11 + from_be (slice bytes 9 11))) bytes).
    rewrite Lp. unfold as_uint. rewrite Z.mod_small by lia.
    rewrite !be_bytes_from_be by (auto with hpn || lia).
    apply MessageType.as_u8_from_u8 in Hmt. rewrite Hmt.
    rewrite <- (slice_one bytes 0 a) by (done || lia).
    unfold FRAGMENT_HEADER_SIZE. simpl (1 + 4 + 2 + 2 + 2). simpl (0 + 1).
    rewrite <- !app_assoc. rewrite !slice_drop by lia. done.
Qed.

Lemma from_bytes_no_panic bytes : bytes_ok bytes -> from_bytes bytes <> Panic.
Proof.
  intros Hb H. unfold from_bytes, FRAGMENT_HEADER_SIZE in H. simpl (1 + 4 + 2 + 2 + 2) in H.
  repeat (step_in H; b2p); try in_range.
  apply range_inv in Hs4 as (_ & _ & _ & -> & Ls).
  pose proof (from_be_bound 2 (slice bytes 9 11)) as B. unfold len in Ls.
  specialize (B ltac:(auto with hpn) ltac:(lia)). unfold uint in B. in_range.
Qed.

End HandshakeFragment.

(** * The splitter *)

Module FragmentError.

Inductive t :=
  | InvalidInnerType (ty : MessageType.t)
  | PayloadTooLarge (payload_len required_fragments : Z)
  | EmptyPayload.

#[global] Instance t_eq_dec : EqDecision t.
Proof. solve_decision. Defined.

End FragmentError.

(** [slice.chunks(n)]: pieces of [n] elements, the last one shorter.  A piece
    is never empty, so [length l] rounds are enough. *)
Fixpoint chunks_fuel {A} (fuel : nat) (n : nat) (l : list A) : list (list A) :=
  match fuel, l with
  | O, _ | _, [] => []
  | S fuel, _ => take n l :: chunks_fuel fuel n (drop n l)
  end.

Definition chunks {A} (n : nat) (l : list A) : list (list A) := chunks_fuel (length l) n l.

Definition div_ceil (a b : Z) : Z := (a + b - 1) / b.

Definition split_payload (inner_msg_type : MessageType.t) (frag_id : Z) (payload : list Z)
    : result FragmentError.t (list HandshakeFragment.t) :=
  if negb (HandshakeFragment.is_valid_inner_type inner_msg_type) then
    Err (FragmentError.InvalidInnerType inner_msg_type)
  else if len payload =? 0 then Err FragmentError.EmptyPayload
  else
    let required := div_ceil (len payload) MAX_FRAGMENT_PAYLOAD in
    if MAX_FRAGMENTS_PER_HANDSHAKE <? required then
      Err (FragmentError.PayloadTooLarge (len payload) required)
    else
      let frag_total := as_uint 16 required in
      Ok (imap (fun index chunk =>
            HandshakeFragment.mk inner_msg_type frag_id (as_uint 16 (Z.of_nat index))
              frag_total chunk)
          (chunks (Z.to_nat MAX_FRAGMENT_PAYLOAD) payload)).

Definition build_handshake_fragments (inner_msg_type : MessageType.t) (frag_id : Z)
    (payload : list Z) : result FragmentError.t (list (list Z)) :=
  let? fragments := split_payload inner_msg_type frag_id payload in
  Ok (map HandshakeFragment.to_bytes fragments).

(** * Lemmas on the splitter *)

Lemma chunks_fuel_concat {A} fuel n (l : list A) :
  (0 < n)%nat -> (length l <= fuel)%nat -> concat (chunks_fuel fuel n l) = l.
Proof.
  intros Hn. revert l. induction fuel as [|fuel IH]; intros l Hf.
  - destruct l; [done|simpl in Hf; lia].
  - destruct l as [|x l]; [done|].
    change (chunks_fuel (S fuel) n (x :: l))
      with (take n (x :: l) :: chunks_fuel fuel n (drop n (x :: l))).
    cbn [concat]. rewrite IH, take_drop; [done|]. rewrite length_drop. simpl in *. lia.
Qed.

Lemma chunks_fuel_bound {A} fuel n (l : list A) :
  (0 < n)%nat -> Forall (fun c => (0 < length c <= n)%nat) (chunks_fuel fuel n l).
Proof.
  intros Hn. revert l. induction fuel as [|fuel IH]; intros l; [constructor|].
  destruct l as [|x l]; [constructor|].
  change (chunks_fuel (S fuel) n (x :: l))
    with (take n (x :: l) :: chunks_fuel fuel n (drop n (x :: l))).
  constructor; [|apply IH]. rewrite length_take. simpl. lia.
Qed.

Lemma div_ceil_drop (a b : Z) :
  0 < b -> 0 < a -> div_ceil a b = 1 + div_ceil (Z.max 0 (a - b)) b.
Proof.
  intros Hb Ha. unfold div_ceil. destruct (Z.le_gt_cases a b).
  - rewrite Z.max_l by lia. rewrite (Z.div_small (0 + b - 1)) by lia.
    rewrite <- (Z.div_unique (a + b - 1) b 1 (a - 1)); lia.
  - rewrite Z.max_r by lia. replace (a + b - 1) with ((a - b + b - 1) + 1 * b) by lia.
    rewrite Z.div_add by lia. lia.
Qed.

Lemma chunks_fuel_length {A} fuel n (l : list A) :
  (0 < n)%nat -> (length l <= fuel)%nat ->
  len (chunks_fuel fuel n l) = div_ceil (len l) (Z.of_nat n).
Proof.
  intros Hn. revert l. induction fuel as [|fuel IH]; intros l Hf.
  { destruct l; [|simpl in Hf; lia]. symmetry. apply Z.div_small. unfold len. simpl length. lia. }
  destruct l as [|x l]; [symmetry; apply Z.div_small; unfold len; simpl length; lia|].
  change (chunks_fuel (S fuel) n (x :: l))
    with (take n (x :: l) :: chunks_fuel fuel n (drop n (x :: l))).
  rewrite len_cons, IH by (rewrite length_drop; simpl in *; lia).
  rewrite (div_ceil_drop (len (x :: l))) by (rewrite ?len_cons; len_pos; lia).
  do 2 f_equal. unfold len. rewrite length_drop. lia.
Qed.

(** What a split produces: at most 32 well-formed fragments, numbered in
    order, carrying the payload between them. *)
Lemma split_payload_spec ty id payload :
  HandshakeFragment.is_valid_inner_type ty = true -> u32 id -> bytes_ok payload ->
  0 < len payload <= MAX_FRAGMENTS_PER_HANDSHAKE * MAX_FRAGMENT_PAYLOAD ->
  exists fs, split_payload ty id payload = Ok fs /\
    Forall HandshakeFragment.wf fs /\
    concat (map HandshakeFragment.payload fs) = payload /\
    (forall i f, fs !! i = Some f ->
       HandshakeFragment.inner_msg_type f = ty /\ HandshakeFragment.frag_id f = id /\
       HandshakeFragment.frag_index f = Z.of_nat i /\ HandshakeFragment.frag_total f = len fs).
Proof.
  intros Hty Hid Hb Hl. unfold split_payload, MAX_FRAGMENTS_PER_HANDSHAKE, MAX_FRAGMENT_PAYLOAD in *.
  rewrite Hty. simpl negb. cbv iota. rewrite (proj2 (Z.eqb_neq _ _)) by lia.
  set (cs := chunks (Z.to_nat 1165) payload).
  assert (len cs = div_ceil (len payload) 1165) as Lc
    by (apply (chunks_fuel_length (length payload) 1165); lia).
  assert (1 <= div_ceil (len payload) 1165 <= 32) as Hreq.
  { unfold div_ceil. split; [apply Z.div_le_lower_bound; lia|].
    apply Z.lt_succ_r, Z.div_lt_upper_bound; lia. }
  rewrite (proj2 (Z.ltb_ge _ _)) by lia. cbv zeta.
  unfold as_uint at 2. rewrite (Z.mod_small (div_ceil _ _)) by lia. rewrite <- Lc.
  assert (concat cs = payload) as Hcat by (apply chunks_fuel_concat; lia).
  assert (Forall (fun c => (0 < length c <= 1165)%nat) cs) as Hcs by (apply chunks_fuel_bound; lia).
  clearbody cs. eexists. split; [done|].
  assert (forall i f, imap (fun index chunk =>
      HandshakeFragment.mk ty id (as_uint 16 (Z.of_nat index)) (len cs) chunk) cs !! i = Some f ->
    exists c, cs !! i = Some c /\ f = HandshakeFragment.mk ty id (Z.of_nat i) (len cs) c) as Hi.
  { intros i f. rewrite list_lookup_imap. destruct (cs !! i) as [c|] eqn:Ec; [|done].
    intros [= <-]. exists c. split; [done|]. f_equal. apply lookup_lt_Some in Ec.
    unfold len in *. apply Z.mod_small. lia. }
  split_and!.
  - apply Forall_lookup. intros i f (c & Hc & ->)%Hi. apply lookup_lt_Some in Hc as Hlt.
    rewrite Forall_lookup in Hcs. specialize (Hcs _ _ Hc).
    unfold HandshakeFragment.wf, MAX_FRAGMENTS_PER_HANDSHAKE, MAX_FRAGMENT_PAYLOAD; simpl.
    split_and!; try done; try (unfold len in *; lia).
    subst payload. clear -Hb Hc. revert i Hc. induction cs as [|c' cs IH]; intros i Hc; [done|].
    simpl in Hb. apply bytes_ok_app in Hb as [? ?]. destruct i; simpl in Hc; [congruence|eauto].
  - transitivity (concat cs); [|done]. f_equal. clear. generalize (len cs) as n. intros n.
    apply list_eq. intros i. rewrite list_lookup_fmap, list_lookup_imap.
    by destruct (cs !! i).
  - intros i f (c & Hc & ->)%Hi. simpl. split_and!; try done.
    unfold len. by rewrite length_imap.
Qed.

Lemma split_payload_inv ty id payload fs :
  u32 id -> bytes_ok payload -> split_payload ty id payload = Ok fs ->
  HandshakeFragment.is_valid_inner_type ty = true /\
  0 < len payload <= MAX_FRAGMENTS_PER_HANDSHAKE * MAX_FRAGMENT_PAYLOAD /\
  Forall HandshakeFragment.wf fs /\
  concat (map HandshakeFragment.payload fs) = payload /\
  (forall i f, fs !! i = Some f ->
     HandshakeFragment.inner_msg_type f = ty /\ HandshakeFragment.frag_id f = id /\
     HandshakeFragment.frag_index f = Z.of_nat i /\ HandshakeFragment.frag_total f = len fs).
Proof.
  intros Hid Hb H. pose proof H as H'. unfold split_payload in H. do 2 step_in H. cbv zeta in H.
  step_in H. b2p.
  assert (0 < len payload <= MAX_FRAGMENTS_PER_HANDSHAKE * MAX_FRAGMENT_PAYLOAD) as Hl.
  { pose proof (len_nonneg payload). split; [lia|].
    unfold div_ceil, MAX_FRAGMENTS_PER_HANDSHAKE, MAX_FRAGMENT_PAYLOAD in *.
    pose proof (Z.mul_div_le (len payload + 1165 - 1) 1165).
    pose proof (Z.mod_pos_bound (len payload + 1165 - 1) 1165).
    pose proof (Z.div_mod (len payload + 1165 - 1) 1165). lia. }
  destruct (split_payload_spec ty id payload) as (fs' & Hs & Hrest); try done.
  rewrite H' in Hs. injection Hs as <-. done.
Qed.

(** * Properties *)

(** The fragment codec: every well-formed fragment survives encoding and
    decoding, also with bytes after it; and whatever the decoder accepts is a
    well-formed fragment whose encoding starts the input. *)
Lemma fragment_codec :
  (forall f r, HandshakeFragment.wf f ->
     HandshakeFragment.from_bytes (HandshakeFragment.to_bytes f ++ r) = Ok f) /\
  (forall bytes, bytes_ok bytes ->
     match HandshakeFragment.from_bytes bytes with
     | Ok f => HandshakeFragment.wf f /\ exists r, bytes = HandshakeFragment.to_bytes f ++ r
     | Err _ => True
     | Panic => False
     end).
Proof.
  split; [apply HandshakeFragment.from_bytes_to_bytes|].
  intros bytes Hb. destruct (HandshakeFragment.from_bytes bytes) as [f|e|] eqn:E; [|done|].
  - by apply HandshakeFragment.from_bytes_inv.
  - by apply HandshakeFragment.from_bytes_no_panic in E.
Qed.
