(* ===== verification/Reassembly.v ===== *)
(** The bounded reassembly buffer of hpn-core/src/protocol/fragment.rs.

    Entries are keyed by the sender's address (a type [A]) and the fragment
    id; instants are nanoseconds and [now] is the reading [insert] takes.
    [insert] aborts where the code would ([expect] and indexing), so that the
    absence of aborts is a theorem. *)

From S2P Require Import Prelude Types Fragment.

Definition NANOS_PER_SEC : Z := 1000000000.

Module ReassemblerConfig.

Record t := mk {
  max_entries : Z;
  max_total_bytes : Z;
  max_entry_bytes : Z;
  max_fragments_per_entry : Z;
  ttl : Z;
}.

Definition server_default : t :=
  mk 1024 (16 * 1024 * 1024) (64 * 1024) MAX_FRAGMENTS_PER_HANDSHAKE (5 * NANOS_PER_SEC).

Definition client_default : t :=
  mk 4 (256 * 1024) (64 * 1024) MAX_FRAGMENTS_PER_HANDSHAKE (5 * NANOS_PER_SEC).

End ReassemblerConfig.

Module ReassemblerStats.

Record t := mk {
  fragments_inserted : Z;
  fragments_dropped : Z;
  fragments_duplicate : Z;
  entries_completed : Z;
  entries_evicted : Z;
  entries_expired : Z;
  entries_rejected : Z;
}.

Definition default : t := mk 0 0 0 0 0 0 0.

Definition bump (x : Z) : Z := saturating_add 64 x 1.

Definition inserted (s : t) : t :=
  mk (bump (fragments_inserted s)) (fragments_dropped s) (fragments_duplicate s)
     (entries_completed s) (entries_evicted s) (entries_expired s) (entries_rejected s).
Definition dropped (s : t) : t :=
  mk (fragments_inserted s) (bump (fragments_dropped s)) (fragments_duplicate s)
     (entries_completed s) (entries_evicted s) (entries_expired s) (entries_rejected s).
Definition duplicate (s : t) : t :=
  mk (fragments_inserted s) (fragments_dropped s) (bump (fragments_duplicate s))
     (entries_completed s) (entries_evicted s) (entries_expired s) (entries_rejected s).
Definition completed (s : t) : t :=
  mk (fragments_inserted s) (fragments_dropped s) (fragments_duplicate s)
     (bump (entries_completed s)) (entries_evicted s) (entries_expired s) (entries_rejected s).
Definition evicted (s : t) : t :=
  mk (fragments_inserted s) (fragments_dropped s) (fragments_duplicate s)
     (entries_completed s) (bump (entries_evicted s)) (entries_expired s) (entries_rejected s).
Definition expired (s : t) : t :=
  mk (fragments_inserted s) (fragments_dropped s) (fragments_duplicate s)
     (entries_completed s) (entries_evicted s) (bump (entries_expired s)) (entries_rejected s).
Definition rejected (s : t) : t :=
  mk (fragments_inserted s) (fragments_dropped s) (fragments_duplicate s)
     (entries_completed s) (entries_evicted s) (entries_expired s) (bump (entries_rejected s)).

End ReassemblerStats.

Module Entry.

Record t := mk {
  inner_msg_type : MessageType.t;
  frag_total : Z;
  chunks : list (option (list Z));
  received_count : Z;
  total_bytes : Z;
  first_seen : Z;
}.

End Entry.

Fixpoint collect_chunks (chunks : list (option (list Z))) : result Empty_set (list Z) :=
  match chunks with
  | [] => Ok []
  | None :: _ => Panic
  | Some chunk :: chunks =>
      let? rest := collect_chunks chunks in
      Ok (chunk ++ rest)
  end.

Definition reassemble (entry : Entry.t) : result Empty_set (MessageType.t * list Z) :=
  let? out := collect_chunks (Entry.chunks entry) in
  Ok (Entry.inner_msg_type entry, out).

Module Reassembly.

Section Buffer.
Context {A : Type} `{Countable A} {I : HashIter (A * Z) Entry.t}.

Record t := mk {
  config : ReassemblerConfig.t;
  entries : gmap (A * Z) Entry.t;
  total_bytes : Z;
  stats : ReassemblerStats.t;
}.

Definition new (config : ReassemblerConfig.t) : t := mk config ∅ 0 ReassemblerStats.default.

Definition len_entries (s : t) : Z := Z.of_nat (size (entries s)).

Definition is_empty (s : t) : bool := len_entries s =? 0.

Definition contains (s : t) (source : A) (frag_id : Z) : bool :=
  bool_decide (is_Some (entries s !! (source, frag_id))).

Definition debit_bytes (s : t) (bytes : Z) : t :=
  mk (config s) (entries s) (saturating_sub (total_bytes s) bytes) (stats s).

Definition set_entries (s : t) (m : gmap (A * Z) Entry.t) : t :=
  mk (config s) m (total_bytes s) (stats s).

Definition set_stats (s : t) (st : ReassemblerStats.t) : t :=
  mk (config s) (entries s) (total_bytes s) st.

Definition credit_bytes (s : t) (bytes : Z) : t :=
  mk (config s) (entries s) (total_bytes s + bytes) (stats s).

Definition is_expired (ttl now : Z) (e : Entry.t) : bool :=
  ttl <? saturating_sub now (Entry.first_seen e).

(** [retain] walks the map once, keeping the live entries and accounting for
    the others. *)
Definition purge_expired (s : t) (now : Z) : t :=
  if is_empty s then s
  else
    let ttl := ReassemblerConfig.ttl (config s) in
    if negb (existsb (fun '(_, e) => is_expired ttl now e) (hash_iter (entries s))) then s
    else
      let '(total, st) :=
        foldl (fun '(total, st) '(_, e) =>
          if is_expired ttl now e then
            (saturating_sub total (Entry.total_bytes e), ReassemblerStats.expired st)
          else (total, st)) (total_bytes s, stats s) (hash_iter (entries s)) in
      mk (config s) (filter (fun '(_, e) => negb (is_expired ttl now e) = true) (entries s)) total st.

Definition oldest_key (s : t) : option (A * Z) :=
  option_map fst (min_by_key (fun '(_, e) => Entry.first_seen e) (hash_iter (entries s))).

(** The eviction loop; every round removes an entry, so the number of entries
    bounds the rounds. *)
Fixpoint enforce_caps_loop (fuel : nat) (s : t) : t :=
  match fuel with
  | O => s
  | S fuel =>
      if (ReassemblerConfig.max_entries (config s) <=? len_entries s)
         || (ReassemblerConfig.max_total_bytes (config s) <=? total_bytes s) then
        match oldest_key s with
        | None => s
        | Some oldest =>
            let s' :=
              match entries s !! oldest with
              | Some entry =>
                  let s := set_entries s (delete oldest (entries s)) in
                  let s := debit_bytes s (Entry.total_bytes entry) in
                  set_stats s (ReassemblerStats.evicted (stats s))
              | None => s
              end in
            enforce_caps_loop fuel s'
        end
      else s
  end.

Definition enforce_caps_for_new_entry (s : t) : t :=
  enforce_caps_loop (size (entries s)) s.

(** Removing an entry and releasing its bytes. *)
Definition drop_entry (s : t) (key : A * Z) (bytes : Z) : t :=
  debit_bytes (set_entries s (delete key (entries s))) bytes.

Definition insert (s : t) (now : Z) (source : A) (fragment : HandshakeFragment.t)
    : t * result Empty_set (option (MessageType.t * list Z)) :=
  let s := purge_expired s now in
  let key := (source, HandshakeFragment.frag_id fragment) in
  let frag_total := HandshakeFragment.frag_total fragment in
  let declared_bytes := Z.min (frag_total * MAX_FRAGMENT_PAYLOAD) U64_MAX in
  if (frag_total =? 0)
     || (MAX_FRAGMENTS_PER_HANDSHAKE <? frag_total)
     || (ReassemblerConfig.max_fragments_per_entry (config s) <? frag_total)
     || (ReassemblerConfig.max_entry_bytes (config s) <? declared_bytes) then
    (set_stats s (ReassemblerStats.rejected (stats s)), Ok None)
  else
    let index := HandshakeFragment.frag_index fragment in
    let payload := HandshakeFragment.payload fragment in
    let chunk_len := len payload in
    match entries s !! key with
    | Some entry =>
        if negb (Entry.frag_total entry =? frag_total)
           || negb (bool_decide
                (Entry.inner_msg_type entry = HandshakeFragment.inner_msg_type fragment)) then
          let s := drop_entry s key (Entry.total_bytes entry) in
          (set_stats s (ReassemblerStats.dropped (stats s)), Ok None)
        else
          match Entry.chunks entry !! Z.to_nat index with
          | None => (s, Panic)
          | Some (Some _) => (set_stats s (ReassemblerStats.duplicate (stats s)), Ok None)
          | Some None =>
              if ReassemblerConfig.max_entry_bytes (config s)
                   <? saturating_add 64 (Entry.total_bytes entry) chunk_len then
                let s := drop_entry s key (Entry.total_bytes entry) in
                (set_stats s (ReassemblerStats.dropped (stats s)), Ok None)
              else
                let entry :=
                  Entry.mk (Entry.inner_msg_type entry) (Entry.frag_total entry)
                    (<[Z.to_nat index := Some payload]> (Entry.chunks entry))
                    (Entry.received_count entry + 1) (Entry.total_bytes entry + chunk_len)
                    (Entry.first_seen entry) in
                let s := set_entries s (<[key := entry]> (entries s)) in
                let s := credit_bytes s chunk_len in
                let s := set_stats s (ReassemblerStats.inserted (stats s)) in
                if Entry.received_count entry =? Entry.frag_total entry then
                  let s := drop_entry s key (Entry.total_bytes entry) in
                  let s := set_stats s (ReassemblerStats.completed (stats s)) in
                  (s, let? out := reassemble entry in Ok (Some out))
                else (s, Ok None)
          end
    | None =>
        let s := enforce_caps_for_new_entry s in
        let chunks := replicate (Z.to_nat frag_total) None in
        match store (E:=Empty_set) chunks index (Some payload) with
        | Err _ | Panic => (s, Panic)
        | Ok chunks =>
            let entry :=
              Entry.mk (HandshakeFragment.inner_msg_type fragment) frag_total chunks 1
                chunk_len now in
            let s := credit_bytes s chunk_len in
            let s := set_stats s (ReassemblerStats.inserted (stats s)) in
            if Entry.received_count entry =? Entry.frag_total entry then
              let s := debit_bytes s (Entry.total_bytes entry) in
              let s := set_stats s (ReassemblerStats.completed (stats s)) in
              (s, let? out := reassemble entry in Ok (Some out))
            else (set_entries s (<[key := entry]> (entries s)), Ok None)
        end
    end.

(** * Invariant

    [history] lists the fragments inserted so far with their source.  Each
    entry's counters agree with its slots, it is not complete, and every slot
    that is filled holds the payload of a fragment of the history with the
    entry's source, id, type, total and that index. *)

Definition filled (o : option (list Z)) : Z := match o with Some _ => 1 | None => 0 end.
Definition chunk_bytes (o : option (list Z)) : Z := match o with Some c => len c | None => 0 end.

Definition from_history (history : list (A * HandshakeFragment.t)) (key : A * Z)
    (e : Entry.t) (i : nat) (p : list Z) : Prop :=
  exists f, (fst key, f) ∈ history /\ HandshakeFragment.frag_id f = snd key /\
    HandshakeFragment.frag_index f = Z.of_nat i /\
    HandshakeFragment.frag_total f = Entry.frag_total e /\
    HandshakeFragment.inner_msg_type f = Entry.inner_msg_type e /\
    HandshakeFragment.payload f = p.

Definition chunks_ok (history : list (A * HandshakeFragment.t)) (key : A * Z)
    (e : Entry.t) : Prop :=
  Z.of_nat (length (Entry.chunks e)) = Entry.frag_total e /\
  1 <= Entry.frag_total e <= MAX_FRAGMENTS_PER_HANDSHAKE /\
  Entry.received_count e = zsum filled (Entry.chunks e) /\
  Entry.total_bytes e = zsum chunk_bytes (Entry.chunks e) /\
  (forall i p, Entry.chunks e !! i = Some (Some p) ->
     from_history history key e i p /\ len p <= MAX_FRAGMENT_PAYLOAD).

Definition entry_ok (history : list (A * HandshakeFragment.t)) (cfg : ReassemblerConfig.t)
    (key : A * Z) (e : Entry.t) : Prop :=
  chunks_ok history key e /\ Entry.received_count e < Entry.frag_total e /\
  Entry.total_bytes e <= ReassemblerConfig.max_entry_bytes cfg.

Definition inv (history : list (A * HandshakeFragment.t)) (s : t) : Prop :=
  (forall key e, entries s !! key = Some e -> entry_ok history (config s) key e) /\
  total_bytes s = map_sum Entry.total_bytes (entries s).

Lemma chunk_bytes_nonneg o : 0 <= chunk_bytes o.
Proof. destruct o; simpl; [apply len_nonneg|lia]. Qed.

Lemma entry_bytes_nonneg history cfg key e : entry_ok history cfg key e -> 0 <= Entry.total_bytes e.
Proof.
  intros ((_ & _ & _ & -> & _) & _). apply zsum_nonneg. intros. apply chunk_bytes_nonneg.
Qed.

Lemma chunks_ok_mono h h' key e : h ⊆ h' -> chunks_ok h key e -> chunks_ok h' key e.
Proof.
  intros Hh (? & ? & ? & ? & Hp). split_and!; try done; try lia.
  intros i p Hi. destruct (Hp i p Hi) as [(f & Hin & Hf) ?]. split; [|done].
  exists f. split; [by apply Hh|done].
Qed.

Lemma inv_mono h h' s : h ⊆ h' -> inv h s -> inv h' s.
Proof.
  intros Hh [He Ht]. split; [|done]. intros key e Hk. destruct (He key e Hk) as (Hc & ? & ?).
  split_and!; try done. by eapply chunks_ok_mono.
Qed.

Lemma inv_new h cfg : inv h (new cfg).
Proof. split; [intros key e Hk; simpl in Hk; by rewrite lookup_empty in Hk|]. simpl. by rewrite map_sum_empty. Qed.

Lemma inv_stats h s st : inv h s -> inv h (set_stats s st).
Proof. done. Qed.

Lemma total_nonneg h s : inv h s -> 0 <= total_bytes s.
Proof.
  intros [He ->]. rewrite map_sum_list. apply zsum_nonneg. intros [k e] Hin. simpl.
  apply elem_of_map_to_list in Hin. by eapply entry_bytes_nonneg, He.
Qed.

Lemma map_sum_entries h s key e :
  inv h s -> entries s !! key = Some e ->
  0 <= Entry.total_bytes e <= total_bytes s /\ 0 <= total_bytes s - Entry.total_bytes e.
Proof.
  intros [He Ht] Hk. pose proof (entry_bytes_nonneg _ _ _ _ (He _ _ Hk)).
  assert (0 <= map_sum Entry.total_bytes (delete key (entries s))).
  { rewrite map_sum_list. apply zsum_nonneg. intros [k' e'] Hin. simpl.
    apply elem_of_map_to_list in Hin. apply lookup_delete_Some in Hin as [_ Hin].
    by eapply entry_bytes_nonneg, He. }
  rewrite (map_sum_delete _ _ _ _ Hk) in *. lia.
Qed.

Lemma inv_drop h s key e :
  inv h s -> entries s !! key = Some e -> inv h (drop_entry s key (Entry.total_bytes e)).
Proof.
  intros Hinv Hk. pose proof (map_sum_entries _ _ _ _ Hinv Hk). destruct Hinv as [He Ht]. split.
  - intros k' e' Hk'. simpl in Hk'. apply lookup_delete_Some in Hk' as [_ Hk']. by apply He.
  - simpl. rewrite (map_sum_delete _ _ _ _ Hk). unfold saturating_sub. lia.
Qed.

(** The accounting of [retain]. *)
Lemma purge_fold ttl now l total st :
  (forall x, x ∈ l -> 0 <= Entry.total_bytes (snd x)) ->
  zsum (fun '(_, e) => if is_expired ttl now e then Entry.total_bytes e else 0) l <= total ->
  fst (foldl (fun '(total, st) '((_, e) : A * Z * Entry.t) =>
    if is_expired ttl now e then
      (saturating_sub total (Entry.total_bytes e), ReassemblerStats.expired st)
    else (total, st)) (total, st) l) =
  total - zsum (fun '(_, e) => if is_expired ttl now e then Entry.total_bytes e else 0) l.
Proof.
  revert total st. induction l as [|[k e] l IH]; intros total st Hnn Hle; simpl in *; [lia|].
  assert (0 <= Entry.total_bytes e) by (apply (Hnn (k, e)), elem_of_cons; by left).
  assert (forall x, x ∈ l -> 0 <= Entry.total_bytes (snd x)) as Hnn'
    by (intros x Hx; apply Hnn, elem_of_cons; by right).
  assert (0 <= zsum (fun '(_, e) => if is_expired ttl now e then Entry.total_bytes e else 0) l).
  { apply zsum_nonneg. intros [k' e'] Hx. destruct (is_expired ttl now e'); [|lia].
    by apply (Hnn' (k', e')). }
  destruct (is_expired ttl now e).
  - rewrite IH by (try done; unfold saturating_sub; lia). unfold saturating_sub. lia.
  - rewrite IH by (try done; lia). lia.
Qed.

Lemma inv_purge h s now : inv h s -> inv h (purge_expired s now).
Proof.
  intros Hinv. unfold purge_expired. destruct (is_empty s); [done|].
  destruct (negb _); [done|]. destruct Hinv as [He Ht].
  set (ttl := ReassemblerConfig.ttl (config s)).
  pose proof (purge_fold ttl now (hash_iter (entries s)) (total_bytes s) (stats s)) as Hf.
  destruct (foldl _ _ _) as [total st]. simpl in Hf.
  assert (zsum (fun '(_, e) => if is_expired ttl now e then Entry.total_bytes e else 0)
    (hash_iter (entries s)) =
    map_sum (fun e => if is_expired ttl now e then Entry.total_bytes e else 0) (entries s)) as Hz.
  { rewrite (zsum_perm _ _ _ (hash_iter_perm (entries s))), map_sum_list.
    induction (map_to_list (entries s)) as [|[k e] l IH]; simpl; [done|]. by rewrite IH. }
  rewrite Hz in Hf.
  assert (map_sum Entry.total_bytes (entries s) =
    map_sum (fun e => if is_expired ttl now e then Entry.total_bytes e else 0) (entries s) +
    map_sum (fun e => if negb (is_expired ttl now e) then Entry.total_bytes e else 0) (entries s)) as Hsplit.
  { rewrite <- map_sum_add. apply map_sum_ext. intros k e _. destruct (is_expired ttl now e); simpl; lia. }
  assert (forall x, x ∈ hash_iter (entries s) -> 0 <= Entry.total_bytes (snd x)) as Hnn.
  { intros [k e] Hin. rewrite hash_iter_perm in Hin. apply elem_of_map_to_list in Hin.
    simpl. by eapply entry_bytes_nonneg, He. }
  assert (0 <= map_sum (fun e => if negb (is_expired ttl now e) then Entry.total_bytes e else 0)
    (entries s)).
  { rewrite map_sum_list. apply zsum_nonneg. intros [k e] Hin. simpl.
    apply elem_of_map_to_list in Hin. destruct (negb _); [|lia]. by eapply entry_bytes_nonneg, He. }
  specialize (Hf Hnn ltac:(lia)). split.
  - simpl. intros key e Hk. apply map_lookup_filter_Some in Hk as [Hk _]. by apply He.
  - simpl. rewrite Hf.
    rewrite (map_sum_filter _ (fun v => negb (is_expired ttl now v))). lia.
Qed.

Lemma oldest_key_spec s :
  match oldest_key s with
  | None => entries s = ∅
  | Some key => exists e, entries s !! key = Some e /\
      forall key' e', entries s !! key' = Some e' -> Entry.first_seen e <= Entry.first_seen e'
  end.
Proof.
  unfold oldest_key.
  pose proof (min_by_key_spec (fun '((_, e) : A * Z * Entry.t) => Entry.first_seen e)
    (hash_iter (entries s))) as Hm.
  destruct (min_by_key _ _) as [[key e]|]; simpl.
  - destruct Hm as [Hin Hall]. rewrite hash_iter_perm, elem_of_map_to_list in Hin.
    exists e. split; [done|]. intros key' e' Hk'.
    apply (Hall (key', e')). by rewrite hash_iter_perm, elem_of_map_to_list.
  - apply map_to_list_empty_iff. pose proof (hash_iter_perm (entries s)) as Hp.
    rewrite Hm in Hp. symmetry in Hp. by apply Permutation_nil_r in Hp.
Qed.

(** The eviction loop keeps the invariant, only removes entries, and ends
    with room for one more entry (when a single entry is allowed at all). *)
Lemma enforce_caps_loop_spec h fuel s :
  inv h s -> (size (entries s) <= fuel)%nat ->
  let s' := enforce_caps_loop fuel s in
  inv h s' /\ config s' = config s /\ entries s' ⊆ entries s /\
  (entries s' = ∅ \/
   (len_entries s' < ReassemblerConfig.max_entries (config s) /\
    total_bytes s' < ReassemblerConfig.max_total_bytes (config s))).
Proof.
  revert s. induction fuel as [|fuel IH]; intros s Hinv Hf; simpl.
  { split_and!; try done. left. apply map_size_empty_inv. lia. }
  destruct ((_ <=? _) || (_ <=? _)) eqn:E.
  - pose proof (oldest_key_spec s) as Ho. destruct (oldest_key s) as [key|].
    + destruct Ho as (e & Hk & _). rewrite Hk.
      set (s' := set_stats _ _).
      assert (inv h s') as Hinv' by (apply (inv_drop h s key e Hinv Hk)).
      assert (size (entries s') <= fuel)%nat.
      { simpl. rewrite map_size_delete_Some by done. lia. }
      destruct (IH s' Hinv') as (Hi & Hc & Hsub & Hend); [done|].
      split_and!; try done. etrans; [exact Hsub|]. apply delete_subseteq.
    + split_and!; try done. by left.
  - b2p. split_and!; try done. right. split; lia.
Qed.

Lemma enforce_caps_spec h s :
  inv h s ->
  let s' := enforce_caps_for_new_entry s in
  inv h s' /\ config s' = config s /\ entries s' ⊆ entries s /\
  (entries s' = ∅ \/
   (len_entries s' < ReassemblerConfig.max_entries (config s) /\
    total_bytes s' < ReassemblerConfig.max_total_bytes (config s))).
Proof. intros Hinv. by apply enforce_caps_loop_spec. Qed.

(** Completed entries. *)
Lemma zsum_filled_le cs : zsum filled cs <= Z.of_nat (length cs).
Proof. induction cs as [|[c|] cs IH]; simpl zsum; simpl length; lia. Qed.

Lemma collect_filled cs :
  zsum filled cs = Z.of_nat (length cs) ->
  exists ps, cs = map Some ps /\ collect_chunks cs = Ok (concat ps).
Proof.
  induction cs as [|[c|] cs IH]; intros Hs.
  - by exists [].
  - simpl zsum in Hs. simpl length in Hs. destruct IH as (ps & -> & Hc); [lia|].
    exists (c :: ps). simpl. by rewrite Hc.
  - simpl zsum in Hs. simpl length in Hs. pose proof (zsum_filled_le cs). lia.
Qed.

(** Fragments of one source and id that together make a message. *)
Definition fragments_of (history : list (A * HandshakeFragment.t)) (source : A) (id : Z)
    (ty : MessageType.t) (fs : list HandshakeFragment.t) : Prop :=
  0 < len fs /\
  forall i f, fs !! i = Some f ->
    (source, f) ∈ history /\ HandshakeFragment.frag_id f = id /\
    HandshakeFragment.frag_index f = Z.of_nat i /\
    HandshakeFragment.frag_total f = len fs /\ HandshakeFragment.inner_msg_type f = ty.

Lemma reassemble_ok h key e :
  chunks_ok h key e -> Entry.received_count e = Entry.frag_total e ->
  exists fs, reassemble e =
      Ok (Entry.inner_msg_type e, concat (map HandshakeFragment.payload fs)) /\
    fragments_of h (fst key) (snd key) (Entry.inner_msg_type e) fs.
Proof.
  intros (Hl & Ht & Hr & _ & Hp) Hc. unfold reassemble.
  destruct (collect_filled (Entry.chunks e)) as (ps & Hps & ->); [lia|].
  assert (exists fs, map HandshakeFragment.payload fs = ps /\
    forall i f, fs !! i = Some f -> (fst key, f) ∈ h /\ HandshakeFragment.frag_id f = snd key /\
      HandshakeFragment.frag_index f = Z.of_nat i /\
      HandshakeFragment.frag_total f = Entry.frag_total e /\
      HandshakeFragment.inner_msg_type f = Entry.inner_msg_type e) as (fs & Hfs & Hall).
  { clear Hl Hr Hc Ht. rewrite Hps in Hp. clear Hps.
    assert (forall i p, ps !! i = Some p -> from_history h key e i p) as Hp'.
    { intros i p Hi. apply Hp. by rewrite list_lookup_fmap, Hi. }
    clear Hp. induction ps as [|p ps IH] using rev_ind; [by exists []|].
    destruct IH as (fs & Hfs & Hall).
    { intros i q Hi. apply Hp'. by apply lookup_app_l_Some. }
    destruct (Hp' (length ps) p) as (f & Hin & Hid & Hix & Htot & Hty & Hpay).
    { by apply list_lookup_middle. }
    exists (fs ++ [f]). split; [by rewrite map_app, Hfs; simpl; rewrite Hpay|].
    intros i g Hg. apply lookup_app_Some in Hg as [Hg|[Hge Hg]]; [by apply Hall|].
    assert (length fs = length ps) as Hlen by (rewrite <- Hfs; by rewrite length_map).
    apply list_lookup_singleton_Some in Hg as [Hi <-].
    split_and!; try done. rewrite Hix. f_equal. lia. }
  assert (len fs = Entry.frag_total e) as Hlf
    by (unfold len; rewrite <- Hl, Hps, length_map, <- Hfs, length_map; done).
  exists fs. simpl. rewrite Hfs. split; [done|]. split; [lia|]. intros i f Hi.
  destruct (Hall i f Hi) as (? & ? & ? & Htot & ?). split_and!; try done.
  by rewrite Hlf.
Qed.

Lemma chunk_bytes_bound h key e :
  chunks_ok h key e -> zsum chunk_bytes (Entry.chunks e) <= MAX_FRAGMENT_PAYLOAD * Entry.frag_total e.
Proof.
  intros (<- & _ & _ & _ & Hp).
  assert (forall i p, Entry.chunks e !! i = Some (Some p) -> len p <= MAX_FRAGMENT_PAYLOAD) as Hb
    by (intros i p Hi; by apply (Hp i p)).
  clear Hp. induction (Entry.chunks e) as [|o cs IH]; simpl zsum; simpl length; [lia|].
  assert (chunk_bytes o <= MAX_FRAGMENT_PAYLOAD).
  { destruct o as [p|]; simpl; [by apply (Hb 0%nat)|done]. }
  assert (zsum chunk_bytes cs <= MAX_FRAGMENT_PAYLOAD * Z.of_nat (length cs)).
  { apply IH. intros i p Hi. by apply (Hb (S i)). }
  unfold MAX_FRAGMENT_PAYLOAD in *. lia.
Qed.

(** Filling one slot of an entry with a consistent fragment. *)
Definition fill (e : Entry.t) (f : HandshakeFragment.t) : Entry.t :=
  Entry.mk (Entry.inner_msg_type e) (Entry.frag_total e)
    (<[Z.to_nat (HandshakeFragment.frag_index f) := Some (HandshakeFragment.payload f)]>
       (Entry.chunks e))
    (Entry.received_count e + 1) (Entry.total_bytes e + len (HandshakeFragment.payload f))
    (Entry.first_seen e).

Lemma fill_ok h source e f :
  HandshakeFragment.wf f -> (source, f) ∈ h ->
  chunks_ok h (source, HandshakeFragment.frag_id f) e ->
  Entry.frag_total e = HandshakeFragment.frag_total f ->
  Entry.inner_msg_type e = HandshakeFragment.inner_msg_type f ->
  Entry.chunks e !! Z.to_nat (HandshakeFragment.frag_index f) = Some None ->
  chunks_ok h (source, HandshakeFragment.frag_id f) (fill e f).
Proof.
  intros (_ & _ & Hi & _ & Hpl & _) Hin (Hl & Ht & Hr & Hb & Hp) Htot Hty Hslot.
  unfold chunks_ok, fill; simpl. rewrite length_insert.
  rewrite !(zsum_replace _ _ _ _ _ Hslot). simpl. split_and!; try lia.
  intros i p Hip. apply list_lookup_insert_Some in Hip as [(<- & Heq & _)|[_ Hip]].
  - injection Heq as <-. split; [|done]. exists f. simpl. split_and!; try done. lia.
  - destruct (Hp i p Hip) as [(g & Hg) ?]. split; [|done]. by exists g.
Qed.

Lemma new_entry_ok h source f now :
  HandshakeFragment.wf f -> (source, f) ∈ h ->
  let chunks := <[Z.to_nat (HandshakeFragment.frag_index f) := Some (HandshakeFragment.payload f)]>
    (replicate (Z.to_nat (HandshakeFragment.frag_total f)) None) in
  chunks_ok h (source, HandshakeFragment.frag_id f)
    (Entry.mk (HandshakeFragment.inner_msg_type f) (HandshakeFragment.frag_total f) chunks 1
       (len (HandshakeFragment.payload f)) now).
Proof.
  intros Hw Hin. pose proof Hw as (_ & _ & Hi & Ht & _).
  pose (e := Entry.mk (HandshakeFragment.inner_msg_type f) (HandshakeFragment.frag_total f)
    (replicate (Z.to_nat (HandshakeFragment.frag_total f)) None) 0 0 now).
  apply (fill_ok h source e f); try done.
  - unfold chunks_ok, e; simpl. rewrite length_replicate, !zsum_replicate by done.
    split_and!; try lia. intros i p Hip. by apply lookup_replicate in Hip as [? _].
  - unfold e; simpl. apply lookup_replicate. split; [done|lia].
Qed.

Definition bounded (s : t) : Prop :=
  len_entries s <= Z.max 1 (ReassemblerConfig.max_entries (config s)).

Lemma bounded_sub s s' :
  entries s' ⊆ entries s -> config s' = config s -> bounded s -> bounded s'.
Proof.
  unfold bounded, len_entries. intros Hs -> Hb. apply map_subseteq_size in Hs. lia.
Qed.

Lemma purge_sub s now :
  entries (purge_expired s now) ⊆ entries s /\ config (purge_expired s now) = config s.
Proof.
  unfold purge_expired. destruct (is_empty s); [done|]. destruct (negb _); [done|].
  destruct (foldl _ _ _) as [total st]. simpl. split; [apply map_filter_subseteq|done].
Qed.

(** The outcome of [insert] allowed in a state reached with [history]. *)
Definition outcome_ok (history : list (A * HandshakeFragment.t)) (source : A) (id : Z)
    (r : result Empty_set (option (MessageType.t * list Z))) : Prop :=
  match r with
  | Ok None => True
  | Ok (Some (ty, bytes)) =>
      exists fs, bytes = concat (map HandshakeFragment.payload fs) /\
        fragments_of history source id ty fs
  | Err _ => False
  | Panic => False
  end.

Definition good (history : list (A * HandshakeFragment.t)) (s : t) : Prop :=
  inv history s /\ bounded s.

Lemma outcome_reassemble h source id e :
  chunks_ok h (source, id) e -> Entry.received_count e = Entry.frag_total e ->
  outcome_ok h source id (let? out := reassemble e in Ok (Some out)).
Proof.
  intros Hc Hr. destruct (reassemble_ok _ _ _ Hc Hr) as (fs & -> & Hfs). simpl. by exists fs.
Qed.

(** Inserting into an entry that exists. *)
Lemma inv_update h s key e e' :
  inv h s -> entries s !! key = Some e ->
  (Entry.received_count e' < Entry.frag_total e' -> entry_ok h (config s) key e') ->
  0 <= Entry.total_bytes e' ->
  let s' := credit_bytes (set_entries s (<[key := e']> (entries s)))
              (Entry.total_bytes e' - Entry.total_bytes e) in
  (Entry.received_count e' < Entry.frag_total e' -> inv h s') /\
  inv h (drop_entry s' key (Entry.total_bytes e')).
Proof.
  intros Hinv Hk He' Hnn. pose proof (map_sum_entries _ _ _ _ Hinv Hk) as [_ Hb].
  destruct Hinv as [He Ht]. split.
  - intros Hlt. split; simpl.
    + intros k2 e2 Hk2. apply lookup_insert_Some in Hk2 as [[<- <-]|[_ Hk2]]; [by apply He'|by apply He].
    + rewrite (map_sum_replace _ _ _ _ _ Hk). lia.
  - split; simpl.
    + intros k2 e2 Hk2. rewrite delete_insert_eq in Hk2.
      apply lookup_delete_Some in Hk2 as [_ Hk2]. by apply He.
    + rewrite delete_insert_eq, (map_sum_delete _ _ _ _ Hk). unfold saturating_sub. lia.
Qed.

Lemma good_stats h s st : good h s -> good h (set_stats s st).
Proof. done. Qed.

Lemma good_drop h s key e :
  good h s -> entries s !! key = Some e -> good h (drop_entry s key (Entry.total_bytes e)).
Proof.
  intros [Hi Hb] Hk. split; [by apply inv_drop|].
  apply (bounded_sub s); [apply delete_subseteq|done|exact Hb].
Qed.

Lemma good_purge h s now : good h s -> good h (purge_expired s now).
Proof.
  intros [Hi Hb]. destruct (purge_sub s now) as [Hs Hc].
  split; [by apply inv_purge|by apply (bounded_sub s)].
Qed.

(** A fragment for an entry that exists and has its slot free. *)
Lemma good_fill h s source f e :
  HandshakeFragment.wf f -> (source, f) ∈ h -> good h s ->
  let key := (source, HandshakeFragment.frag_id f) in
  entries s !! key = Some e ->
  Entry.frag_total e = HandshakeFragment.frag_total f ->
  Entry.inner_msg_type e = HandshakeFragment.inner_msg_type f ->
  Entry.chunks e !! Z.to_nat (HandshakeFragment.frag_index f) = Some None ->
  Entry.total_bytes e + len (HandshakeFragment.payload f)
    <= ReassemblerConfig.max_entry_bytes (config s) ->
  let s' := credit_bytes (set_entries s (<[key := fill e f]> (entries s)))
              (len (HandshakeFragment.payload f)) in
  chunks_ok h key (fill e f) /\
  (Entry.received_count e + 1 <> Entry.frag_total e -> good h s') /\
  good h (drop_entry s' key (Entry.total_bytes (fill e f))).
Proof.
  intros Hw Hin [Hinv Hb] key Hk Htot Hty Hslot Hmax s'.
  pose proof Hinv as [He _]. destruct (He _ _ Hk) as (Hc & Hlt & _).
  pose proof (entry_bytes_nonneg _ _ _ _ (He _ _ Hk)) as Hnn.
  pose proof (fill_ok h source e f Hw Hin Hc Htot Hty Hslot) as Hc'.
  destruct (inv_update h s key e (fill e f) Hinv Hk) as [H1 H2].
  { intros ?. split_and!; done. }
  { simpl. len_pos. pose proof (len_nonneg (HandshakeFragment.payload f)). lia. }
  assert (Entry.total_bytes (fill e f) - Entry.total_bytes e = len (HandshakeFragment.payload f))
    as Hd by (simpl; lia). rewrite Hd in *. fold s' in H1, H2.
  assert (bounded s') as Hb'.
  { unfold bounded, len_entries in *. simpl. rewrite map_size_insert_Some by done. done. }
  split; [done|]. split.
  - intros Hne. split; [|done]. apply H1. simpl. lia.
  - split; [done|]. apply (bounded_sub s'); [apply delete_subseteq|done|exact Hb'].
Qed.

(** A fragment that opens an entry. *)
Lemma good_open h s source f now :
  HandshakeFragment.wf f -> (source, f) ∈ h -> inv h s ->
  let key := (source, HandshakeFragment.frag_id f) in
  entries s !! key = None ->
  (entries s = ∅ \/ len_entries s < ReassemblerConfig.max_entries (config s)) ->
  len (HandshakeFragment.payload f) <= ReassemblerConfig.max_entry_bytes (config s) ->
  1 < HandshakeFragment.frag_total f ->
  let chunks := <[Z.to_nat (HandshakeFragment.frag_index f) := Some (HandshakeFragment.payload f)]>
    (replicate (Z.to_nat (HandshakeFragment.frag_total f)) None) in
  good h (credit_bytes (set_entries s (<[key :=
    Entry.mk (HandshakeFragment.inner_msg_type f) (HandshakeFragment.frag_total f) chunks 1
      (len (HandshakeFragment.payload f)) now]> (entries s))) (len (HandshakeFragment.payload f))).
Proof.
  intros Hw Hin Hinv key Hk Hroom Hmax H1 chunks.
  pose proof (new_entry_ok h source f now Hw Hin) as Hc. fold chunks in Hc.
  destruct Hinv as [He Ht]. split; [split|].
  - simpl. intros k2 e2 Hk2. apply lookup_insert_Some in Hk2 as [[<- <-]|[_ Hk2]]; [|by apply He].
    split_and!; simpl; try done.
  - simpl. rewrite map_sum_insert by done. simpl. lia.
  - unfold bounded, len_entries in *. simpl. rewrite map_size_insert_None by done.
    destruct Hroom as [->|?]; [rewrite map_size_empty; lia|lia].
Qed.

Lemma store_ok {E B} (l : list B) i x :
  0 <= i < len l -> store (E:=E) l i x = Ok (<[Z.to_nat i := x]> l).
Proof. intros. unfold store. by repeat decide_ltb. Qed.

Lemma insert_spec h s now source f :
  HandshakeFragment.wf f -> good h s ->
  let '(s', r) := insert s now source f in
  good (h ++ [(source, f)]) s' /\ config s' = config s /\
  outcome_ok (h ++ [(source, f)]) source (HandshakeFragment.frag_id f) r.
Proof.
  intros Hw Hgood. set (h' := h ++ [(source, f)]).
  assert ((source, f) ∈ h') as Hin by (apply elem_of_app; right; by apply list_elem_of_singleton).
  assert (good h' (purge_expired s now)) as Hg.
  { destruct (good_purge _ _ now Hgood) as [Hi Hb]. split; [|done].
    eapply inv_mono; [|exact Hi]. intros x Hx. apply elem_of_app. by left. }
  destruct (purge_sub s now) as [_ Hcfg]. unfold insert. rewrite <- Hcfg.
  set (s1 := purge_expired s now) in *. clearbody s1. cbv zeta.
  pose proof Hw as (_ & _ & Hi & Ht & Hpl & _).
  unfold MAX_FRAGMENTS_PER_HANDSHAKE, MAX_FRAGMENT_PAYLOAD in *.
  destruct (_ || _ || _ || _) eqn:Ebad; [by split|]. b2p. rewrite Z.min_l in * by (unfold U64_MAX; lia).
  destruct (entries s1 !! _) as [e|] eqn:Hk.
  - destruct (negb _ || negb _) eqn:Econs.
    { split_and!; try done. by apply good_stats, good_drop. }
    b2p. pose proof Hg as [[He _] _].
    destruct (He _ _ Hk) as (Hc & Hlt & _). pose proof (chunk_bytes_bound _ _ _ Hc) as Hbb.
    pose proof Hc as (Hlen & Htt & _ & Hby & _).
    destruct (Entry.chunks e !! _) as [[c|]|] eqn:Hslot; [by split|
      |apply lookup_ge_None in Hslot; exfalso; lia].
    destruct (_ <? saturating_add _ _ _) eqn:Esat.
    { split_and!; try done. by apply good_stats, good_drop. }
    b2p. unfold saturating_add, MAX_FRAGMENT_PAYLOAD in *.
    rewrite Z.min_l in Esat by lia.
    destruct (good_fill h' s1 source f e Hw Hin Hg Hk) as (Hc' & Hnc & Hco); try done.
    cbn [Entry.received_count Entry.frag_total Entry.total_bytes].
    destruct (_ + 1 =? _) eqn:Edone; b2p.
    + split_and!; [by apply good_stats|done|]. by apply outcome_reassemble.
    + split_and!; [apply good_stats, Hnc; lia|done|done].
  - pose proof Hg as [Hinv _].
    destruct (enforce_caps_spec h' s1 Hinv) as (Hi2 & Hc2 & Hsub & Hroom).
    set (s2 := enforce_caps_for_new_entry s1) in *. clearbody s2.
    rewrite store_ok by (rewrite len_replicate; lia).
    pose proof (new_entry_ok h' source f now Hw Hin) as Hc.
    cbn [Entry.received_count Entry.frag_total Entry.total_bytes].
    destruct (1 =? _) eqn:Edone; b2p.
    + split_and!; [|by rewrite <- Hc2|by apply outcome_reassemble].
      apply good_stats. pose proof (total_nonneg _ _ Hi2). assert (good h' s2) as [[He2 Ht2] Hb2].
      { split; [done|]. apply (bounded_sub s1); [exact Hsub|done|by apply Hg]. }
      split; [split|]; simpl; [done|unfold saturating_sub; len_pos; lia|done].
    + split_and!; [|by rewrite <- Hc2|done].
      apply (good_open h' s2 source f now Hw Hin Hi2).
      * eapply lookup_weaken_None; [exact Hk|exact Hsub].
      * rewrite Hc2. destruct Hroom as [?|[? _]]; [by left|by right].
      * rewrite Hc2. lia.
      * lia.
Qed.

(** * Completing a message

    The fragments [fs] of one message arrive in some order; [p] are those that
    arrived. *)

Definition message (ty : MessageType.t) (id : Z) (fs : list HandshakeFragment.t) : Prop :=
  Forall HandshakeFragment.wf fs /\
  forall i f, fs !! i = Some f ->
    HandshakeFragment.inner_msg_type f = ty /\ HandshakeFragment.frag_id f = id /\
    HandshakeFragment.frag_index f = Z.of_nat i /\ HandshakeFragment.frag_total f = len fs.

Definition fits (cfg : ReassemblerConfig.t) (n : Z) : Prop :=
  n <= ReassemblerConfig.max_fragments_per_entry cfg /\
  n * MAX_FRAGMENT_PAYLOAD <= ReassemblerConfig.max_entry_bytes cfg.

Definition partial (fs p : list HandshakeFragment.t) : list (option (list Z)) :=
  map (fun f => if bool_decide (f ∈ p) then Some (HandshakeFragment.payload f) else None) fs.

Definition payload_bytes (p : list HandshakeFragment.t) : Z :=
  zsum (fun f => len (HandshakeFragment.payload f)) p.

Definition progress (ty : MessageType.t) (fs p : list HandshakeFragment.t) (t0 : Z) : Entry.t :=
  Entry.mk ty (len fs) (partial fs p) (len p) (payload_bytes p) t0.

Lemma message_index ty id fs f :
  message ty id fs -> f ∈ fs ->
  fs !! Z.to_nat (HandshakeFragment.frag_index f) = Some f /\ HandshakeFragment.wf f /\
  HandshakeFragment.inner_msg_type f = ty /\ HandshakeFragment.frag_id f = id /\
  HandshakeFragment.frag_total f = len fs.
Proof.
  intros [Hwf Hm] Hin. pose proof Hin as Hin'. apply list_elem_of_lookup in Hin' as [i Hi].
  destruct (Hm i f Hi) as (? & ? & -> & ?). rewrite Nat2Z.id. split_and!; try done.
  by eapply Forall_lookup in Hi.
Qed.

Lemma partial_insert ty id fs p f :
  message ty id fs -> f ∈ fs ->
  <[Z.to_nat (HandshakeFragment.frag_index f) := Some (HandshakeFragment.payload f)]> (partial fs p)
  = partial fs (p ++ [f]).
Proof.
  intros Hm Hf. destruct (message_index _ _ _ _ Hm Hf) as (Hi & _).
  apply list_eq. intros j. unfold partial. rewrite !list_lookup_fmap.
  destruct (decide (j = Z.to_nat (HandshakeFragment.frag_index f))) as [->|Hj].
  - rewrite list_lookup_insert_eq by (rewrite length_map; by apply lookup_lt_Some in Hi).
    rewrite Hi. simpl. rewrite bool_decide_true; [done|].
    apply elem_of_app. right. by apply list_elem_of_singleton.
  - rewrite list_lookup_insert_ne, list_lookup_fmap by done.
    destruct (fs !! j) as [g|] eqn:Hg; [|done]. simpl.
    assert (g <> f) by (intros ->; destruct Hm as [_ Hm]; apply Hm in Hg as (_ & _ & Hx & _); lia).
    rewrite (bool_decide_ext (g ∈ p) (g ∈ p ++ [f])); [done|].
    rewrite elem_of_app, list_elem_of_singleton. tauto.
Qed.

Lemma partial_slot ty id fs p f :
  message ty id fs -> f ∈ fs -> f ∉ p ->
  partial fs p !! Z.to_nat (HandshakeFragment.frag_index f) = Some None.
Proof.
  intros Hm Hf Hp. destruct (message_index _ _ _ _ Hm Hf) as (Hi & _).
  unfold partial. rewrite list_lookup_fmap, Hi. simpl. by rewrite bool_decide_false.
Qed.

Lemma partial_all fs p :
  (forall f, f ∈ fs -> f ∈ p) ->
  collect_chunks (partial fs p) = Ok (concat (map HandshakeFragment.payload fs)).
Proof.
  induction fs as [|f fs IH]; intros Hall; [done|]. simpl.
  rewrite bool_decide_true by (apply Hall, elem_of_cons; by left). simpl.
  rewrite IH; [done|]. intros g Hg. apply Hall, elem_of_cons. by right.
Qed.

Lemma payload_bytes_bound fs :
  Forall HandshakeFragment.wf fs -> 0 <= payload_bytes fs <= MAX_FRAGMENT_PAYLOAD * len fs.
Proof.
  induction 1 as [|f fs (_ & _ & _ & _ & Hp & _) _ IH]; [done|].
  unfold payload_bytes in *. simpl zsum. rewrite len_cons.
  pose proof (len_nonneg (HandshakeFragment.payload f)). unfold MAX_FRAGMENT_PAYLOAD in *. lia.
Qed.

Lemma purge_lookup s now key e :
  entries s !! key = Some e -> is_expired (ReassemblerConfig.ttl (config s)) now e = false ->
  entries (purge_expired s now) !! key = Some e.
Proof.
  intros Hk He. unfold purge_expired. destruct (is_empty s); [done|]. destruct (negb _); [done|].
  destruct (foldl _ _ _). simpl. apply map_lookup_filter_Some. by rewrite He.
Qed.

Lemma purge_lookup_none s now key :
  entries s !! key = None -> entries (purge_expired s now) !! key = None.
Proof. intros Hk. eapply lookup_weaken_None; [exact Hk|]. apply purge_sub. Qed.

(** What the call returns when [p] is complete or not. *)
Definition step_result (ty : MessageType.t) (fs p : list HandshakeFragment.t)
    : result Empty_set (option (MessageType.t * list Z)) :=
  if len p =? len fs then Ok (Some (ty, concat (map HandshakeFragment.payload fs))) else Ok None.

Definition in_progress (s : t) (source : A) (ty : MessageType.t) (id : Z)
    (fs p : list HandshakeFragment.t) (t0 : Z) : Prop :=
  entries s !! (source, id) =
    if decide (len p = 0 \/ len p = len fs) then None else Some (progress ty fs p t0).

Lemma in_all ty id fs p :
  message ty id fs -> NoDup p -> (forall f, f ∈ p -> f ∈ fs) -> len p = len fs ->
  forall f, f ∈ fs -> f ∈ p.
Proof.
  intros Hm Hnd Hsub Hl.
  assert (p ⊆+ fs) as Hsm by (by apply NoDup_submseteq).
  assert (p ≡ₚ fs) as Hperm by (apply submseteq_length_Permutation; [done|unfold len in Hl; lia]).
  intros f Hf. by rewrite Hperm.
Qed.

Lemma partial_none fs : replicate (length fs) None = partial fs [].
Proof. induction fs as [|f fs IH]; [done|]. simpl. by rewrite IH. Qed.

Lemma enforce_sub s : entries (enforce_caps_for_new_entry s) ⊆ entries s /\
  config (enforce_caps_for_new_entry s) = config s.
Proof.
  unfold enforce_caps_for_new_entry. generalize (size (entries s)) as fuel. intros fuel.
  revert s. induction fuel as [|fuel IH]; intros s; simpl; [done|].
  destruct (_ || _); [|done]. destruct (oldest_key s) as [key|]; [|done].
  destruct (entries s !! key) as [e|]; [|apply IH].
  destruct (IH (set_stats (debit_bytes (set_entries s (delete key (entries s))) (Entry.total_bytes e))
    (ReassemblerStats.evicted (stats (debit_bytes (set_entries s (delete key (entries s)))
      (Entry.total_bytes e)))))) as [Hs Hc].
  split; [|done]. etrans; [exact Hs|]. apply delete_subseteq.
Qed.

(** The counters of refused fragments. *)
Definition refusals (s : t) : Z * Z * Z :=
  (ReassemblerStats.fragments_dropped (stats s), ReassemblerStats.fragments_duplicate (stats s),
   ReassemblerStats.entries_rejected (stats s)).

Lemma purge_refusals s now : refusals (purge_expired s now) = refusals s.
Proof.
  unfold purge_expired. destruct (is_empty s); [done|]. destruct (negb _); [done|].
  match goal with |- context [foldl ?g ?x ?l] =>
    assert (forall a b, foldl g x l = (a, b) ->
      (ReassemblerStats.fragments_dropped b, ReassemblerStats.fragments_duplicate b,
       ReassemblerStats.entries_rejected b) = refusals s) as Hf end; [|by destruct (foldl _ _ _) as [a st]; apply (Hf a st)].
  assert (refusals s = (ReassemblerStats.fragments_dropped (stats s),
    ReassemblerStats.fragments_duplicate (stats s), ReassemblerStats.entries_rejected (stats s))) as -> by done.
  generalize (total_bytes s), (stats s).
  induction (hash_iter (entries s)) as [|[k e] l IH]; intros tb st a b; cbn [foldl]; [by intros [= <- <-]|].
  destruct (is_expired _ now e); [|apply IH]. intros ->%IH. done.
Qed.

Lemma enforce_refusals s : refusals (enforce_caps_for_new_entry s) = refusals s.
Proof.
  unfold enforce_caps_for_new_entry. generalize (size (entries s)) as fuel. intros fuel.
  revert s. induction fuel as [|fuel IH]; intros s; simpl; [done|].
  destruct (_ || _); [|done]. destruct (oldest_key s) as [key|]; [|done].
  destruct (entries s !! key) as [e|]; [|apply IH]. by rewrite IH.
Qed.

(** Whether the limits on a single message let a fragment in. *)
Definition within_limits (cfg : ReassemblerConfig.t) (f : HandshakeFragment.t) : Prop :=
  0 < HandshakeFragment.frag_total f <= MAX_FRAGMENTS_PER_HANDSHAKE /\
  fits cfg (HandshakeFragment.frag_total f).

(** What [insert] returns once the slots of [e] are up to date. *)
Definition finished (e : Entry.t) : result Empty_set (option (MessageType.t * list Z)) :=
  if Entry.received_count e =? Entry.frag_total e then let? out := reassemble e in Ok (Some out) else Ok None.

Lemma insert_opened s now source f chunks :
  let key := (source, HandshakeFragment.frag_id f) in
  let e := Entry.mk (HandshakeFragment.inner_msg_type f) (HandshakeFragment.frag_total f) chunks 1
             (len (HandshakeFragment.payload f)) now in
  within_limits (config s) f -> entries s !! key = None ->
  store (E:=Empty_set) (replicate (Z.to_nat (HandshakeFragment.frag_total f)) None)
    (HandshakeFragment.frag_index f) (Some (HandshakeFragment.payload f)) = Ok chunks ->
  exists s', insert s now source f = (s', finished e) /\
    entries s' !! key = (if 1 =? HandshakeFragment.frag_total f then None else Some e) /\
    config s' = config s /\ refusals s' = refusals s.
Proof.
  intros key e [Ht [Hf1 Hf2]] Hn Hs. destruct (purge_sub s now) as [Hps Hpc].
  pose proof (purge_refusals s now) as Hpr. unfold insert. set (s1 := purge_expired s now) in *.
  unfold MAX_FRAGMENTS_PER_HANDSHAKE, MAX_FRAGMENT_PAYLOAD in *. rewrite Hpc. cbv zeta.
  rewrite Z.min_l by (unfold U64_MAX; lia).
  rewrite (proj2 (Z.eqb_neq _ _)) by lia. repeat (rewrite (proj2 (Z.ltb_ge _ _)) by lia). simpl orb.
  assert (entries s1 !! key = None) as E by (eapply lookup_weaken_None; [exact Hn|done]).
  fold key. rewrite E. destruct (enforce_sub s1) as [Hes Hec]. pose proof (enforce_refusals s1) as Her.
  set (s2 := enforce_caps_for_new_entry s1) in *. rewrite Hs. unfold finished. subst e.
  cbn [Entry.received_count Entry.frag_total Entry.total_bytes].
  destruct (1 =? HandshakeFragment.frag_total f); (eexists; split; [reflexivity|]);
    (split; [|split; [cbn; congruence|rewrite <- Hpr, <- Her; done]]).
  - cbn. eapply lookup_weaken_None; [exact E|done].
  - cbn. apply lookup_insert_eq.
Qed.

Lemma insert_filled s now source f e :
  let key := (source, HandshakeFragment.frag_id f) in
  let e' := Entry.mk (Entry.inner_msg_type e) (Entry.frag_total e)
              (<[Z.to_nat (HandshakeFragment.frag_index f) := Some (HandshakeFragment.payload f)]>
                 (Entry.chunks e))
              (Entry.received_count e + 1) (Entry.total_bytes e + len (HandshakeFragment.payload f))
              (Entry.first_seen e) in
  within_limits (config s) f -> entries s !! key = Some e ->
  is_expired (ReassemblerConfig.ttl (config s)) now e = false ->
  Entry.frag_total e = HandshakeFragment.frag_total f ->
  Entry.inner_msg_type e = HandshakeFragment.inner_msg_type f ->
  Entry.chunks e !! Z.to_nat (HandshakeFragment.frag_index f) = Some None ->
  Entry.total_bytes e + len (HandshakeFragment.payload f)
    <= Z.min (ReassemblerConfig.max_entry_bytes (config s)) U64_MAX ->
  exists s', insert s now source f = (s', finished e') /\
    entries s' !! key =
      (if Entry.received_count e + 1 =? Entry.frag_total e then None else Some e') /\
    config s' = config s /\ refusals s' = refusals s.
Proof.
  intros key e' [Ht [Hf1 Hf2]] Hk He Htot Hty Hc Hb. destruct (purge_sub s now) as [Hps Hpc].
  pose proof (purge_refusals s now) as Hpr. pose proof (purge_lookup s now key e Hk He) as E.
  unfold insert. set (s1 := purge_expired s now) in *.
  unfold MAX_FRAGMENTS_PER_HANDSHAKE, MAX_FRAGMENT_PAYLOAD in *. rewrite Hpc. cbv zeta.
  rewrite Z.min_l by (unfold U64_MAX; lia).
  rewrite (proj2 (Z.eqb_neq _ _)) by lia. repeat (rewrite (proj2 (Z.ltb_ge _ _)) by lia). simpl orb.
  fold key. rewrite E, (proj2 (Z.eqb_eq _ _) Htot), bool_decide_true by done. simpl orb. cbv iota. rewrite Hc.
  unfold saturating_add. unfold U64_MAX in Hb. rewrite Z.min_l by lia.
  rewrite (proj2 (Z.ltb_ge _ _)) by lia. unfold finished. subst e'.
  cbn [Entry.received_count Entry.frag_total Entry.total_bytes].
  destruct (_ =? _); (eexists; split; [reflexivity|]);
    (split; [|split; [cbn; congruence|rewrite <- Hpr; done]]).
  - cbn. apply lookup_delete_eq.
  - cbn. apply lookup_insert_eq.
Qed.

Lemma insert_progress s source ty id fs p f t0 now :
  message ty id fs -> fits (config s) (len fs) ->
  NoDup (p ++ [f]) -> (forall g, g ∈ p ++ [f] -> g ∈ fs) ->
  in_progress s source ty id fs p t0 ->
  (0 < len p -> saturating_sub now t0 <= ReassemblerConfig.ttl (config s)) ->
  exists s', insert s now source f = (s', step_result ty fs (p ++ [f])) /\
    in_progress s' source ty id fs (p ++ [f]) (if len p =? 0 then now else t0) /\
    config s' = config s /\ refusals s' = refusals s.
Proof.
  intros Hm Hfit Hnd Hsub Hip Htime.
  assert (f ∈ fs) as Hf by (apply Hsub, elem_of_app; right; by apply list_elem_of_singleton).
  destruct (message_index _ _ _ _ Hm Hf) as (Hidx & Hw & Hty & Hid & Htot).
  pose proof Hw as (_ & _ & Hi & Ht & Hpl & _).
  pose proof Hnd as (Hndp & Hdis & _)%NoDup_app.
  assert (f ∉ p) as Hfp by (intros Hx; apply (Hdis f Hx); by apply list_elem_of_singleton).
  assert (p ++ [f] ⊆+ fs) as Hs%submseteq_length by (by apply NoDup_submseteq).
  assert (len p + 1 <= len fs) as Hlen by (rewrite length_app in Hs; simpl in Hs; unfold len; lia).
  pose proof (len_nonneg p) as Hp0. pose proof (len_nonneg (HandshakeFragment.payload f)) as Hl0.
  assert (within_limits (config s) f) as Hlim by (split; [lia|by rewrite Htot]).
  assert (forall t1, finished (progress ty fs (p ++ [f]) t1) = step_result ty fs (p ++ [f])) as Hres.
  { intros t1. unfold finished, step_result, reassemble. cbn [progress Entry.received_count Entry.frag_total
      Entry.chunks Entry.inner_msg_type]. destruct (len (p ++ [f]) =? len fs) eqn:E; b2p; [|done].
    by rewrite partial_all by (by apply (in_all ty id fs (p ++ [f]) Hm)). }
  unfold in_progress in *. rewrite len_app. change (len [f]) with 1.
  rewrite <- Hid in Hip |- *. destruct (decide (len p = 0)) as [Hz|Hnz].
  - rewrite decide_True in Hip by lia. apply len_zero_nil in Hz. subst p. simpl app in *.
    destruct (insert_opened s now source f (partial fs [f]) Hlim Hip) as (s' & -> & He & Hc & Hr).
    { rewrite Htot. replace (Z.to_nat (len fs)) with (length fs) by (unfold len; lia).
      rewrite partial_none, store_ok by (unfold partial, len; rewrite length_map; unfold len in *; lia).
      by rewrite (partial_insert ty id). }
    rewrite Hty, Htot in *. assert (progress ty fs [f] now =
      Entry.mk ty (len fs) (partial fs [f]) 1 (len (HandshakeFragment.payload f)) now) as Hprog
      by (unfold progress, payload_bytes; simpl; f_equal; lia).
    rewrite <- Hprog in *. exists s'. rewrite Hres. split; [done|]. split; [|done]. rewrite He.
    change (len [] + 1) with 1. simpl (_ =? 0). cbv iota.
    destruct (1 =? len fs) eqn:E; b2p; [by rewrite decide_True by lia|by rewrite decide_False by lia].
  - rewrite decide_False in Hip by lia. rewrite (proj2 (Z.eqb_neq (len p) 0)) by done.
    destruct (insert_filled s now source f _ Hlim Hip) as (s' & -> & He & Hc & Hr);
      cbn [progress Entry.frag_total Entry.inner_msg_type Entry.chunks Entry.total_bytes
           Entry.received_count Entry.first_seen] in *; try done.
    { unfold is_expired; simpl. apply Z.ltb_ge, Htime. lia. }
    { by apply (partial_slot ty id). }
    { assert (Forall HandshakeFragment.wf p) as Hwp.
      { apply Forall_forall. intros g Hg. destruct Hm as [Hwf _]. rewrite Forall_forall in Hwf.
        apply Hwf, Hsub, elem_of_app. by left. }
      pose proof (payload_bytes_bound p Hwp). destruct Hfit as [_ Hfit].
      unfold MAX_FRAGMENT_PAYLOAD, MAX_FRAGMENTS_PER_HANDSHAKE, U64_MAX in *. lia. }
    assert (Entry.mk ty (len fs) (partial fs (p ++ [f])) (len p + 1)
      (payload_bytes p + len (HandshakeFragment.payload f)) t0 = progress ty fs (p ++ [f]) t0) as Hprog.
    { unfold progress, payload_bytes. rewrite zsum_app, len_app. simpl. f_equal. lia. }
    rewrite (partial_insert ty id), Hprog in * by done. exists s'. rewrite Hres. split; [done|]. split; [|done].
    rewrite He. destruct (len p + 1 =? len fs) eqn:E; b2p;
      [by rewrite decide_True by lia|by rewrite decide_False by lia].
Qed.

(** Inserting a sequence of fragments (with their arrival times) from one
    source. *)
Fixpoint insert_all (s : t) (source : A) (l : list (Z * HandshakeFragment.t))
    : t * list (result Empty_set (option (MessageType.t * list Z))) :=
  match l with
  | [] => (s, [])
  | (now, f) :: l =>
      let '(s, r) := insert s now source f in
      let '(s, rs) := insert_all s source l in
      (s, r :: rs)
  end.

Lemma insert_all_progress ty id fs source l : forall s p t0,
  message ty id fs -> fits (config s) (len fs) ->
  p ++ map snd l ≡ₚ fs -> NoDup fs ->
  in_progress s source ty id fs p t0 -> 0 < len p ->
  Forall (fun x => saturating_sub (fst x) t0 <= ReassemblerConfig.ttl (config s)) l ->
  l <> [] ->
  exists s', insert_all s source l =
      (s', replicate (length l - 1) (Ok None) ++
           [Ok (Some (ty, concat (map HandshakeFragment.payload fs)))]) /\
    entries s' !! (source, id) = None.
Proof.
  induction l as [|[now f] l IH]; intros s p t0 Hm Hfit Hperm Hnd Hip Hp Htime Hne; [done|].
  apply Forall_cons in Htime as [Ht Htime]. simpl in Ht.
  assert (NoDup (p ++ f :: map snd l)) as Hnd' by (by rewrite Hperm).
  destruct (insert_progress s source ty id fs p f t0 now) as (s1 & Hins & Hip1 & Hcfg & Href); try done.
  { change (f :: map snd l) with ([f] ++ map snd l) in Hnd'. rewrite app_assoc in Hnd'.
    by apply NoDup_app in Hnd' as [? _]. }
  { intros g Hg. rewrite <- Hperm. simpl. apply elem_of_app in Hg as [Hg|Hg];
      apply elem_of_app; [by left|]. apply list_elem_of_singleton in Hg as ->.
    right. apply elem_of_cons. by left. }
  rewrite (proj2 (Z.eqb_neq _ _)) in Hip1 by lia. simpl. rewrite Hins.
  assert (len p + 1 + len l = len fs) as Hlen.
  { apply Permutation_length in Hperm. rewrite length_app in Hperm. simpl in Hperm.
    rewrite length_map in Hperm. unfold len. lia. }
  unfold step_result. rewrite len_app. change (len [f]) with 1.
  destruct l as [|x l].
  - change (len []) with 0 in Hlen. rewrite (proj2 (Z.eqb_eq _ _)) by lia. simpl.
    eexists. split; [done|]. unfold in_progress in Hip1. rewrite decide_True in Hip1; [done|].
    right. rewrite len_app. change (len [f]) with 1. lia.
  - rewrite len_cons in Hlen. pose proof (len_nonneg l). rewrite (proj2 (Z.eqb_neq _ _)) by lia.
    destruct (IH s1 (p ++ [f]) t0) as (s' & Hall & Hnone); try done.
    + by rewrite Hcfg.
    + by rewrite <- app_assoc.
    + rewrite len_app. change (len [f]) with 1. lia.
    + by rewrite Hcfg.
    + rewrite Hall. exists s'. split; [|done]. simpl. by rewrite Nat.sub_0_r.
Qed.

Lemma message_nodup ty id fs : message ty id fs -> NoDup fs.
Proof.
  intros [_ Hm]. apply NoDup_alt. intros i j f Hi Hj.
  apply Hm in Hi as (_ & _ & Hi & _). apply Hm in Hj as (_ & _ & Hj & _). lia.
Qed.

(** States reached from an empty buffer, with the fragments inserted. *)
Inductive reachable (cfg : ReassemblerConfig.t) : list (A * HandshakeFragment.t) -> t -> Prop :=
  | reach_new : reachable cfg [] (new cfg)
  | reach_insert h s now source f s' r :
      reachable cfg h s -> HandshakeFragment.wf f -> insert s now source f = (s', r) ->
      reachable cfg (h ++ [(source, f)]) s'.

Lemma reachable_good cfg h s : reachable cfg h s -> good h s /\ config s = cfg.
Proof.
  induction 1 as [|h s now source f s' r _ [Hg Hc] Hw Hi].
  - split; [split; [apply inv_new|]|done]. unfold bounded, len_entries; simpl.
    rewrite map_size_empty. lia.
  - pose proof (insert_spec h s now source f Hw Hg) as Hs. rewrite Hi in Hs.
    destruct Hs as (? & ? & _). split; [done|congruence].
Qed.

(** * Properties *)

(** A message split into fragments is reassembled, in whatever order its
    fragments arrive (from one source, within the time to live, into a buffer
    configured for that many fragments): every call but the last returns
    nothing, the last returns the message, and no entry is left behind.  Other
    reassemblies may be in progress in the buffer. *)
Lemma reassembly_complete s source ty id payload fs l :
  u32 id -> bytes_ok payload -> split_payload ty id payload = Ok fs ->
  map snd l ≡ₚ fs ->
  Forall (fun x => saturating_sub (fst x) (fst (hd (0, HandshakeFragment.mk ty 0 0 0 []) l))
                     <= ReassemblerConfig.ttl (config s)) l ->
  fits (config s) (len fs) -> entries s !! (source, id) = None ->
  exists s', insert_all s source l =
      (s', replicate (length l - 1) (Ok None) ++ [Ok (Some (ty, payload))]) /\
    entries s' !! (source, id) = None.
Proof.
  intros Hid Hb Hsplit Hperm Htime Hfit Hnone.
  destruct (split_payload_inv ty id payload fs Hid Hb Hsplit) as (_ & Hl & Hwf & Hcat & Hm).
  assert (message ty id fs) as Hmsg by (by split). rewrite <- Hcat.
  pose proof (message_nodup _ _ _ Hmsg) as Hnd.
  assert (0 < len fs) as Hfs.
  { destruct fs; [simpl in Hcat; subst; unfold len in Hl; simpl in Hl; lia|]. rewrite len_cons. len_pos. lia. }
  destruct l as [|[now f] l]; [apply Permutation_nil_l in Hperm; subst; unfold len in Hfs; simpl in Hfs; lia|].
  simpl hd in Htime. apply Forall_cons in Htime as [_ Htime]. simpl fst in Htime.
  simpl in Hperm.
  destruct (insert_progress s source ty id fs [] f 0 now) as (s1 & Hins & Hip & Hcfg & _); try done.
  { apply NoDup_singleton. }
  { intros g Hg. rewrite <- Hperm. apply list_elem_of_singleton in Hg as ->. apply elem_of_cons. by left. }
  simpl (if _ =? _ then _ else _) in Hip. simpl. rewrite Hins.
  assert (1 + len l = len fs) as Hlen.
  { apply Permutation_length in Hperm. simpl in Hperm. rewrite length_map in Hperm. unfold len. lia. }
  unfold step_result. simpl app. change (len [f]) with 1.
  destruct l as [|x l].
  - change (len []) with 0 in Hlen. rewrite (proj2 (Z.eqb_eq _ _)) by lia. simpl.
    eexists. split; [done|]. unfold in_progress in Hip. rewrite decide_True in Hip; [done|].
    right. simpl app. change (len [f]) with 1. lia.
  - rewrite len_cons in Hlen. pose proof (len_nonneg l). rewrite (proj2 (Z.eqb_neq _ _)) by lia.
    destruct (insert_all_progress ty id fs source (x :: l) s1 [f] now) as (s' & Hall & Hn); try done;
      try (by rewrite Hcfg).
    rewrite Hall. exists s'. split; [|done]. simpl. by rewrite Nat.sub_0_r.
Qed.

(** Reassembly never mixes messages.  In any state reached by inserting
    decoded fragments from any sources in any order, inserting one more does
    not abort, and if it returns a message, that message is the concatenation
    of fragments 0, 1, ..., n-1, at least one, that all came from the same source with the
    same id, type and total n. *)
Lemma reassembly_provenance cfg h s now source f :
  reachable cfg h s -> HandshakeFragment.wf f ->
  outcome_ok (h ++ [(source, f)]) source (HandshakeFragment.frag_id f)
    (snd (insert s now source f)).
Proof.
  intros Hr Hw. destruct (reachable_good _ _ _ Hr) as [Hg _].
  pose proof (insert_spec h s now source f Hw Hg) as Hs.
  destruct (insert s now source f) as [s' r]. apply Hs.
Qed.

(** The buffer's resource bounds.  In every reachable state the byte
    counter is exactly the bytes held, at most [max_entries] entries are
    held (one, if none is allowed), and no entry holds more than
    [max_entry_bytes] or 32 full fragments; so the bytes held are bounded by
    entries times the entry bound. *)
Lemma reassembly_bounds cfg h s :
  reachable cfg h s ->
  total_bytes s = map_sum Entry.total_bytes (entries s) /\
  len_entries s <= Z.max 1 (ReassemblerConfig.max_entries cfg) /\
  (forall key e, entries s !! key = Some e ->
     Entry.total_bytes e <= ReassemblerConfig.max_entry_bytes cfg /\
     Entry.total_bytes e <= MAX_FRAGMENTS_PER_HANDSHAKE * MAX_FRAGMENT_PAYLOAD) /\
  total_bytes s <= MAX_FRAGMENTS_PER_HANDSHAKE * MAX_FRAGMENT_PAYLOAD
                     * Z.max 1 (ReassemblerConfig.max_entries cfg).
Proof.
  intros Hr. destruct (reachable_good _ _ _ Hr) as [[[He Ht] Hb] Hc]. unfold bounded in Hb.
  rewrite Hc in *.
  assert (forall key e, entries s !! key = Some e ->
    Entry.total_bytes e <= ReassemblerConfig.max_entry_bytes cfg /\
    Entry.total_bytes e <= MAX_FRAGMENTS_PER_HANDSHAKE * MAX_FRAGMENT_PAYLOAD) as Hent.
  { intros key e Hk. destruct (He _ _ Hk) as (Hck & _ & ?). split; [done|].
    pose proof (chunk_bytes_bound _ _ _ Hck). destruct Hck as (_ & ? & _ & -> & _).
    unfold MAX_FRAGMENTS_PER_HANDSHAKE, MAX_FRAGMENT_PAYLOAD in *. lia. }
  split_and!; try done. rewrite Ht. unfold len_entries in Hb.
  pose proof (map_sum_le Entry.total_bytes (entries s)
    (MAX_FRAGMENTS_PER_HANDSHAKE * MAX_FRAGMENT_PAYLOAD)) as Hsum.
  specialize (Hsum ltac:(intros k v Hk; by apply (Hent k v))).
  unfold MAX_FRAGMENTS_PER_HANDSHAKE, MAX_FRAGMENT_PAYLOAD in *. nia.
Qed.

End Buffer.

End Reassembly.

(** * Witnesses, with numbers as addresses *)

Definition example_payload : list Z := replicate 1170 7.

Definition example_fragments : list HandshakeFragment.t :=
  match split_payload MessageType.HandshakeInit 9 example_payload with
  | Ok fs => fs
  | _ => []
  end.

Lemma reassembly_complete_witness :
  let server := Reassembly.new (A:=Z) ReassemblerConfig.server_default in
  match example_fragments with
  | [f0; f1] =>
      snd (Reassembly.insert_all server 77 [(5, f1); (8, f0)]) =
        [Ok None; Ok (Some (MessageType.HandshakeInit, example_payload))]
  | _ => False
  end.
Proof.
  intros server. remember example_fragments as fs eqn:Hfs.
  assert (split_payload MessageType.HandshakeInit 9 example_payload = Ok fs) as Hsplit
    by (subst fs; vm_compute; reflexivity).
  destruct fs as [|f0 [|f1 [|f2 fs]]]; [vm_compute in Hfs; discriminate Hfs
    |vm_compute in Hfs; discriminate Hfs| |vm_compute in Hfs; discriminate Hfs].
  destruct (Reassembly.reassembly_complete server 77 MessageType.HandshakeInit 9 example_payload
    [f0; f1] [(5, f1); (8, f0)]) as (s' & Hall & _).
  - by_decide.
  - by_decide.
  - exact Hsplit.
  - apply Permutation_swap.
  - repeat constructor; vm_compute; discriminate.
  - split; vm_compute; discriminate.
  - reflexivity.
  - rewrite Hall. reflexivity.
Defined.

Definition example_fragment (id i : Z) : HandshakeFragment.t :=
  HandshakeFragment.mk MessageType.HandshakeInit id i 4 (replicate 1165 0).

(** A buffer that may hold 2000 bytes in total. *)
Definition small_config : ReassemblerConfig.t :=
  ReassemblerConfig.mk 8 2000 65536 32 (5 * NANOS_PER_SEC).

Definition small_1 : Reassembly.t (A:=Z) :=
  fst (Reassembly.insert (Reassembly.new small_config) 1 77 (example_fragment 1 0)).
Definition small_2 : Reassembly.t (A:=Z) :=
  fst (Reassembly.insert small_1 2 77 (example_fragment 1 1)).
Definition small_state : Reassembly.t (A:=Z) :=
  fst (Reassembly.insert small_2 3 77 (example_fragment 1 2)).

Lemma small_state_reachable :
  Reassembly.reachable small_config
    [(77, example_fragment 1 0); (77, example_fragment 1 1); (77, example_fragment 1 2)] small_state.
Proof.
  eapply (Reassembly.reach_insert _ [(77, example_fragment 1 0); (77, example_fragment 1 1)]
    small_2 3 77 (example_fragment 1 2) _ _); [|by_decide|apply surjective_pairing].
  eapply (Reassembly.reach_insert _ [(77, example_fragment 1 0)]
    small_1 2 77 (example_fragment 1 1) _ _); [|by_decide|apply surjective_pairing].
  eapply (Reassembly.reach_insert _ [] _ 1 77 (example_fragment 1 0) _ _ (Reassembly.reach_new _));
    [by_decide|apply surjective_pairing].
Qed.

Lemma reassembly_bounds_witness :
  Reassembly.total_bytes small_state = map_sum Entry.total_bytes (Reassembly.entries small_state).
Proof.
  apply (Reassembly.reassembly_bounds small_config
    [(77, example_fragment 1 0); (77, example_fragment 1 1); (77, example_fragment 1 2)] small_state).
  apply small_state_reachable.
Defined.

(** [max_total_bytes] only limits opening a new entry: entries that exist may
    grow past it. *)
Lemma total_bytes_may_exceed_cap :
  exists h s, Reassembly.reachable (A:=Z) small_config h s /\
    ReassemblerConfig.max_total_bytes small_config < Reassembly.total_bytes s.
Proof.
  do 2 eexists. split; [apply small_state_reachable|]. vm_compute. reflexivity.
Qed.
