(* ===== verification/Tunnel.v ===== *)
(** The tunnel configuration, data and keep-alive messages of
    hpn-core/src/protocol/messages.rs.

    Addresses are byte arrays of 4 or 16 bytes; their lengths are part of the
    well-formedness of a configuration. *)

From S2P Require Import Prelude Types Codec Wire Net.

Definition MAX_DNS_SERVERS : Z := 8.

Module TunnelConfig.

Record t := mk {
  client_ipv4 : list Z;
  netmask_ipv4 : list Z;
  gateway_ipv4 : list Z;
  dns_ipv4 : list (list Z);
  client_ipv6 : option (list Z);
  prefix_len_ipv6 : option Z;
  gateway_ipv6 : option (list Z);
  dns_ipv6 : list (list Z);
  mtu : Z;
}.

#[global] Instance t_eq_dec : EqDecision t.
Proof. solve_decision. Defined.

Definition ipv4_bytes (c : t) : list Z :=
  client_ipv4 c ++ netmask_ipv4 c ++ gateway_ipv4 c
  ++ [as_uint 8 (len (dns_ipv4 c))] ++ concat (dns_ipv4 c).

Definition ipv6_bytes (c : t) : list Z :=
  match client_ipv6 c with
  | Some client_ipv6 =>
      [1] ++ client_ipv6
      ++ [match prefix_len_ipv6 c with Some p => p | None => 64 end]
      ++ match gateway_ipv6 c with Some g => g | None => replicate 16 0 end
      ++ [as_uint 8 (len (dns_ipv6 c))] ++ concat (dns_ipv6 c)
  | None => [0]
  end.

Definition to_bytes (c : t) : list Z :=
  ipv4_bytes c ++ ipv6_bytes c ++ be_bytes 2 (mtu c).

(** The loop [for _ in 0..n] that copies [n] addresses of [size] bytes. *)
Fixpoint read_addresses (n : nat) (size : Z) (bytes : list Z) (offset : Z)
    : result ProtocolError.t (list (list Z) * Z) :=
  match n with
  | O => Ok ([], offset)
  | S n =>
      let? dns := range bytes offset (offset + size) in
      let? (rest, offset) := read_addresses n size bytes (offset + size) in
      Ok (dns :: rest, offset)
  end.

(** The IPv6 section after its flag, from [offset] on. *)
Definition from_bytes_ipv6 (bytes : list Z) (offset : Z)
    : result ProtocolError.t (list Z * Z * list Z * list (list Z) * Z) :=
  if len bytes <? offset + 16 + 1 + 16 + 1 + 2 then
    Err (ProtocolError.PacketTooShort (offset + 16 + 1 + 16 + 1 + 2) (len bytes))
  else
    let? client_ipv6 := range bytes offset (offset + 16) in
    let offset := offset + 16 in
    let? prefix_len := index bytes offset in
    let offset := offset + 1 in
    let? gateway_ipv6 := range bytes offset (offset + 16) in
    let offset := offset + 16 in
    let? dns6_count := index bytes offset in
    let offset := offset + 1 in
    if MAX_DNS_SERVERS <? dns6_count then
      Err (ProtocolError.InvalidData
             ("too many IPv6 DNS servers: " ++ dec dns6_count ++ " (max "
                ++ dec MAX_DNS_SERVERS ++ ")"))
    else if len bytes <? offset + dns6_count * 16 + 2 then
      Err (ProtocolError.PacketTooShort (offset + dns6_count * 16 + 2) (len bytes))
    else
      let? (dns_ipv6, offset) := read_addresses (Z.to_nat dns6_count) 16 bytes offset in
      Ok (client_ipv6, prefix_len, gateway_ipv6, dns_ipv6, offset).

Definition from_bytes (bytes : list Z) : result ProtocolError.t t :=
  if len bytes <? 16 then Err (ProtocolError.PacketTooShort 16 (len bytes))
  else
    let? client_ipv4 := range bytes 0 4 in
    let? netmask_ipv4 := range bytes 4 8 in
    let? gateway_ipv4 := range bytes 8 12 in
    let? dns_count := index bytes 12 in
    let offset := 13 in
    if MAX_DNS_SERVERS <? dns_count then
      Err (ProtocolError.InvalidData
             ("too many IPv4 DNS servers: " ++ dec dns_count ++ " (max "
                ++ dec MAX_DNS_SERVERS ++ ")"))
    else if len bytes <? offset + dns_count * 4 + 1 + 2 then
      Err (ProtocolError.PacketTooShort (offset + dns_count * 4 + 1 + 2) (len bytes))
    else
      let? (dns_ipv4, offset) := read_addresses (Z.to_nat dns_count) 4 bytes offset in
      let? has_ipv6 := index bytes offset in
      let offset := offset + 1 in
      let? (client_ipv6, prefix_len_ipv6, gateway_ipv6, dns_ipv6, offset) :=
        if negb (has_ipv6 =? 0) then
          let? (c, p, g, d, offset) := from_bytes_ipv6 bytes offset in
          Ok (Some c, Some p, Some g, d, offset)
        else Ok (None, None, None, [], offset) in
      if len bytes <? offset + 2 then
        Err (ProtocolError.PacketTooShort (offset + 2) (len bytes))
      else
        let? mtu := read_u16 bytes offset in
        Ok (mk client_ipv4 netmask_ipv4 gateway_ipv4 dns_ipv4 client_ipv6 prefix_len_ipv6
              gateway_ipv6 dns_ipv6 mtu).

Definition default : t :=
  mk [10; 99; 0; 2] [255; 255; 255; 0] [10; 99; 0; 1] [[10; 99; 0; 1]] None None None [] 1420.

Definition has_ipv6 (c : t) : bool := match client_ipv6 c with Some _ => true | None => false end.

(** Eight groups of hexadecimal digits, without the [::] abbreviation. *)
Definition format_ipv6 (addr : list Z) : string := join ":" (map hex (Ipv6Addr.segments addr)).

Definition client_ipv6_str (c : t) : option string := option_map format_ipv6 (client_ipv6 c).

Definition gateway_ipv6_str (c : t) : option string := option_map format_ipv6 (gateway_ipv6 c).

(** An address of [n] bytes. *)
Definition address (n : Z) (a : list Z) : Prop := bytes_ok a /\ len a = n.

#[global] Instance address_dec n a : Decision (address n a).
Proof. unfold address. apply _. Defined.

Definition ipv6_wf (c : t) : Prop :=
  match client_ipv6 c, prefix_len_ipv6 c, gateway_ipv6 c with
  | Some a, Some p, Some g =>
      address 16 a /\ u8 p /\ address 16 g /\ Forall (address 16) (dns_ipv6 c) /\
      len (dns_ipv6 c) <= MAX_DNS_SERVERS
  | None, None, None => dns_ipv6 c = []
  | _, _, _ => False
  end.

#[global] Instance ipv6_wf_dec c : Decision (ipv6_wf c).
Proof. unfold ipv6_wf. repeat case_match; apply _. Defined.

(** The configurations that exist on the wire: either all IPv6 fields or none,
    and at most [MAX_DNS_SERVERS] servers of each family. *)
Definition wf (c : t) : Prop :=
  address 4 (client_ipv4 c) /\ address 4 (netmask_ipv4 c) /\ address 4 (gateway_ipv4 c) /\
  Forall (address 4) (dns_ipv4 c) /\ len (dns_ipv4 c) <= MAX_DNS_SERVERS /\
  ipv6_wf c /\ u16 (mtu c).

#[global] Instance wf_dec c : Decision (wf c).
Proof. unfold wf. apply _. Defined.

Lemma read_addresses_at l n buf o b r :
  Forall (address n) l -> rest_at buf o (concat l ++ r) -> b = o ->
  exists o', read_addresses (length l) n buf b = Ok (l, o') /\
    rest_at buf o' r /\ o' = o + n * len l.
Proof.
  intros Hl R ->. revert o R. induction Hl as [|a l [_ Ha] _ IH]; intros o R.
  { exists o. rewrite len_nil. split_and!; [done|done|lia]. }
  cbn [concat length read_addresses] in *. rewrite <- app_assoc in R. rewrite len_cons.
  eat. rewrite Ha in R. destruct (IH _ R) as (o' & Ho & R' & ->).
  rewrite Ho. sbind. eexists. split_and!; [done|done|lia].
Qed.

Lemma read_addresses_ok n size bytes o l o' :
  bytes_ok bytes -> 0 <= size -> read_addresses n size bytes o = Ok (l, o') ->
  Forall (address size) l /\ len l = Z.of_nat n /\ o' = o + size * Z.of_nat n.
Proof.
  intros Hb Hz. revert o l. induction n as [|n IH]; intros o l H; simpl in H.
  { injection H as <- <-. split_and!; [constructor|done|lia]. }
  step_in H. step_in H. destruct a0 as [rest o0]. injection H as <- <-.
  apply IH in Hs0 as (? & ? & ->). access_facts. rewrite len_cons.
  split_and!; [|lia|lia]. constructor; [|done]. split; [done|lia].
Qed.

Lemma read_addresses_no_panic n size bytes o :
  0 <= o -> 0 <= size -> o + size * Z.of_nat n <= len bytes ->
  read_addresses n size bytes o <> Panic.
Proof.
  revert o. induction n as [|n IH]; intros o Ho Hz Hn H; simpl in H; [done|].
  assert (0 <= size * Z.of_nat n) by (apply Z.mul_nonneg_nonneg; lia).
  rewrite Nat2Z.inj_succ, Z.mul_succ_r in Hn.
  step_in H; [|in_range]. step_in H; [destruct a0; discriminate H|].
  apply (IH (o + size)); [lia|lia|lia|done].
Qed.

(** Lengths of the variable sections. *)
Lemma len_concat n l : Forall (address n) l -> len (concat l) = n * len l.
Proof.
  induction 1 as [|a l [_ Ha] _ IH]; [change (0 = n * 0); lia|].
  cbn [concat]. rewrite len_app, len_cons, IH. lia.
Qed.

Lemma bytes_ok_concat n l : Forall (address n) l -> bytes_ok (concat l).
Proof.
  induction 1 as [|a l [Ha _] _ IH]; [constructor|]. cbn [concat]. by apply bytes_ok_app.
Qed.

Lemma from_bytes_ipv6_at a p g l buf o b r :
  address 16 a -> address 16 g -> Forall (address 16) l -> len l <= MAX_DNS_SERVERS ->
  2 <= len r ->
  rest_at buf o (a ++ [p] ++ g ++ [as_uint 8 (len l)] ++ concat l ++ r) -> b = o ->
  exists o', from_bytes_ipv6 buf b = Ok (a, p, g, l, o') /\ rest_at buf o' r.
Proof.
  intros [_ Ha] [_ Hg] Hl Hn Hr R ->. unfold MAX_DNS_SERVERS in *.
  pose proof (len_nonneg l). pose proof (rest_at_len _ _ _ R) as HL.
  assert (as_uint 8 (len l) = len l) as Hu by (apply Z.mod_small; lia). rewrite Hu in *.
  autorewrite with len in HL. rewrite Ha, Hg, (len_concat 16 l Hl) in HL.
  unfold from_bytes_ipv6, MAX_DNS_SERVERS. check_len. do 4 eat. do 2 check_len.
  destruct (read_addresses_at l 16 buf _ (o + 16 + 1 + 16 + 1) r Hl R) as (o' & Ho & R' & ->);
    [offsets|].
  rewrite to_nat_len, Ho. sbind. eauto.
Qed.

Lemma tunnel_roundtrip c r : wf c -> from_bytes (to_bytes c ++ r) = Ok c.
Proof.
  intros ([_ H1] & [_ H2] & [_ H3] & H4 & H5 & H6 & H7). unfold to_bytes, ipv4_bytes.
  pose proof (len_nonneg (dns_ipv4 c)). unfold MAX_DNS_SERVERS in *.
  assert (as_uint 8 (len (dns_ipv4 c)) = len (dns_ipv4 c)) as Hu by (apply Z.mod_small; lia).
  rewrite Hu. rewrite <- !app_assoc. set (buf := _ ++ _). start_at buf.
  unfold buf at 2 in R. unfold buf at 2 in HL.
  autorewrite with len in HL. rewrite H1, H2, H3, (len_concat 4 _ H4) in HL.
  assert (1 <= len (ipv6_bytes c)) by
    (unfold ipv6_bytes; destruct (client_ipv6 c); autorewrite with len; len_pos; lia).
  pose proof (len_nonneg r). unfold from_bytes, MAX_DNS_SERVERS. check_len. do 4 eat. do 2 check_len.
  destruct (read_addresses_at (dns_ipv4 c) 4 buf _ 13 _ H4 R) as (o' & Ho & R' & _); [offsets|].
  rewrite to_nat_len, Ho. sbind. clear R. rename R' into R.
  destruct c as [c4 n4 g4 d4 c6 p6 g6 d6 m]. unfold ipv6_wf, ipv6_bytes in *.
  cbn [client_ipv4 netmask_ipv4 gateway_ipv4 dns_ipv4 client_ipv6 prefix_len_ipv6 gateway_ipv6
       dns_ipv6 mtu] in *.
  destruct c6 as [c6|], p6 as [p6|], g6 as [g6|]; try contradiction.
  - destruct H6 as (A6 & _ & G6 & D6 & L6). rewrite <- !app_assoc in R. eat.
    cbn [Z.eqb negb]. cbv iota.
    destruct (from_bytes_ipv6_at c6 p6 g6 d6 buf _ (o' + 1) (be_bytes 2 m ++ r) A6 G6 D6 L6
      ltac:(offsets) R ltac:(offsets)) as (o'' & -> & R'). sbind.
    pose proof (rest_at_len _ _ _ R') as HL'. autorewrite with len in HL'. check_len. clear R.
    by eat.
  - subst d6. eat. cbn [Z.eqb negb]. cbv iota. sbind.
    pose proof (rest_at_len _ _ _ R) as HL'. autorewrite with len in HL'. check_len. by eat.
Qed.

Lemma tunnel_bytes c : wf c -> bytes_ok (to_bytes c).
Proof.
  intros ([H1 _] & [H2 _] & [H3 _] & H4 & H5 & H6 & _). unfold to_bytes, ipv4_bytes, ipv6_bytes.
  assert (forall x, bytes_ok [as_uint 8 x]) as Hu.
  { intros x. constructor; [|constructor]. unfold uint, as_uint. apply Z.mod_pos_bound. lia. }
  unfold ipv6_wf in H6. apply bytes_ok_concat in H4.
  destruct (client_ipv6 c), (prefix_len_ipv6 c), (gateway_ipv6 c); try contradiction.
  - destruct H6 as ([? _] & ? & [? _] & D6 & _). apply bytes_ok_concat in D6.
    rewrite !bytes_ok_app. split_and!; auto with hpn; by constructor.
  - rewrite !bytes_ok_app. split_and!; auto with hpn. by_decide.
Qed.

Lemma from_bytes_ipv6_sound b o a p g l o' :
  bytes_ok b -> from_bytes_ipv6 b o = Ok (a, p, g, l, o') ->
  address 16 a /\ u8 p /\ address 16 g /\ Forall (address 16) l /\ len l <= MAX_DNS_SERVERS /\
  o <= o'.
Proof.
  intros Hb H. unfold from_bytes_ipv6 in H. repeat (step_in H; b2p).
  destruct a4 as [l' o'']. injection H as <- <- <- <- <-.
  apply read_addresses_ok in Hs3 as (? & ? & ->); [|done|lia]. access_facts.
  unfold uint in *. split_and!; try done; try lia; split; done || lia.
Qed.

Lemma tunnel_sound b c : bytes_ok b -> from_bytes b = Ok c -> wf c.
Proof.
  intros Hb H. unfold from_bytes in H. do 7 (step_in H; b2p).
  step_in H. destruct a3 as [d4 o]. cbn [rbind] in H. step_in H. step_in H.
  destruct a4 as [[[[c6 p6] g6] d6] o']. cbn [rbind] in H. step_in H. step_in H. injection H as <-.
  apply read_addresses_ok in Hs3 as (? & ? & ->); [|done|lia].
  assert (ipv6_wf (mk a a0 a1 d4 c6 p6 g6 d6 a4)) as H6.
  { destruct (negb (a3 =? 0)).
    - step_in Hs5. destruct a5 as [[[[c p] g] d] o'']. injection Hs5 as <- <- <- <- <-.
      by apply from_bytes_ipv6_sound in Hs3 as (? & ? & ? & ? & ? & _).
    - injection Hs5 as <- <- <- <- <-. done. }
  access_facts. unfold wf; cbn [client_ipv4 netmask_ipv4 gateway_ipv4 dns_ipv4 mtu].
  unfold uint in *. split_and!; try done; try lia; split; done || lia.
Qed.

Lemma from_bytes_ipv6_no_panic b o : bytes_ok b -> 0 <= o -> from_bytes_ipv6 b o <> Panic.
Proof.
  intros Hb Ho H. unfold from_bytes_ipv6 in H. repeat (step_in H; b2p); try no_abort.
  - by destruct a3.
  - access_facts. unfold uint in *. by apply read_addresses_no_panic in Hs3; lia.
Qed.

Lemma tunnel_total b : bytes_ok b -> from_bytes b <> Panic.
Proof.
  intros Hb H. unfold from_bytes in H. do 7 (step_in H; b2p; try no_abort).
  step_in H; [|by apply read_addresses_no_panic in Hs3; access_facts; unfold uint in *; lia].
  destruct a3 as [d4 o]. cbn [rbind] in H.
  apply read_addresses_ok in Hs3 as (_ & _ & ->); [|done|lia].
  step_in H; [|no_abort]. access_facts. unfold uint in *.
  step_call H as E6.
  - destruct a4 as [[[[c6 p6] g6] d6] o']. cbn [rbind] in H. step_in H. b2p.
    assert (0 <= o').
    { destruct (negb (a3 =? 0)).
      - step_call E6 as E6'. destruct a4 as [[[[c p] g] d] o'']. injection E6 as _ _ _ _ <-.
        apply from_bytes_ipv6_sound in E6' as (_ & _ & _ & _ & _ & ?); [lia|done].
      - injection E6 as _ _ _ _ <-. lia. }
    step_in H. no_abort.
  - destruct (negb (a3 =? 0)); [|done]. step_call E6 as E6'; [by destruct a4 as [[[[? ?] ?] ?] ?]|].
    by apply from_bytes_ipv6_no_panic in E6'; [|done|lia].
Qed.

#[global] Instance tunnel_codec_laws : Codec wf to_bytes from_bytes.
Proof. split; auto using tunnel_roundtrip, tunnel_bytes, tunnel_total. apply tunnel_sound. Qed.

Lemma len_to_bytes c : wf c -> 16 <= len (to_bytes c) <= 210.
Proof.
  intros ([_ H1] & [_ H2] & [_ H3] & H4 & H5 & H6 & _). unfold to_bytes, ipv4_bytes, ipv6_bytes.
  autorewrite with len. rewrite H1, H2, H3, (len_concat 4) by done.
  pose proof (len_nonneg (dns_ipv4 c)). unfold MAX_DNS_SERVERS, ipv6_wf in *.
  destruct (client_ipv6 c), (prefix_len_ipv6 c), (gateway_ipv6 c); try contradiction;
    [destruct H6 as ([_ A] & _ & [_ G] & D & ?)|]; autorewrite with len.
  - rewrite A, G, (len_concat 16) by done. pose proof (len_nonneg (dns_ipv6 c)).
    unfold MAX_DNS_SERVERS in *. lia.
  - lia.
Qed.

End TunnelConfig.

Module DataMessage.

Record t := mk { ciphertext : list Z }.

Definition new (ciphertext : list Z) : t := mk ciphertext.

End DataMessage.

Module KeepaliveMessage.

Record t := mk { sequence : Z }.

Definition SIZE : Z := 4.

Definition to_bytes (m : t) : list Z := be_bytes 4 (sequence m).

Definition from_bytes (bytes : list Z) : result ProtocolError.t t :=
  if len bytes <? SIZE then Err (ProtocolError.PacketTooShort SIZE (len bytes))
  else
    let? sequence := read_u32 bytes 0 in
    Ok (mk sequence).

Definition wf (m : t) : Prop := u32 (sequence m).

#[global] Instance keepalive_codec_laws : Codec wf to_bytes from_bytes.
Proof.
  split; unfold wf, to_bytes, from_bytes, SIZE.
  - intros [s] r Hs. cbn [sequence] in *. start_at (be_bytes 4 s ++ r). rewrite len_app, len_be_bytes.
    pose proof (len_nonneg r). check_len. by eat.
  - auto with hpn.
  - intros b [s] Hb H. repeat (step_in H; b2p). injection H as <-. by access_facts.
  - intros b Hb H. repeat (step_in H; b2p). no_abort.
Qed.

End KeepaliveMessage.

Module KeepaliveReplyMessage.

Record t := mk { sequence : Z; server_timestamp : Z }.

Definition SIZE : Z := 12.

(** Two writes into a zeroed array. *)
Definition to_bytes_result {E} (m : t) : result E (list Z) :=
  let bytes := replicate (Z.to_nat SIZE) 0 in
  let? bytes := copy_from_slice bytes 0 4 (be_bytes 4 (sequence m)) in
  copy_from_slice bytes 4 12 (be_bytes 8 (server_timestamp m)).

Definition to_bytes (m : t) : list Z :=
  be_bytes 4 (sequence m) ++ be_bytes 8 (server_timestamp m).

Definition from_bytes (bytes : list Z) : result ProtocolError.t t :=
  if len bytes <? SIZE then Err (ProtocolError.PacketTooShort SIZE (len bytes))
  else
    let? sequence := read_u32 bytes 0 in
    let? server_timestamp := read_u64 bytes 4 in
    Ok (mk sequence server_timestamp).

Definition wf (m : t) : Prop := u32 (sequence m) /\ u64 (server_timestamp m).

Lemma to_bytes_result_ok {E} m : to_bytes_result (E:=E) m = Ok (to_bytes m).
Proof.
  unfold to_bytes_result, to_bytes. rewrite copy_from_slice_start by done. sbind.
  by rewrite copy_from_slice_at by done.
Qed.

#[global] Instance keepalive_reply_codec_laws : Codec wf to_bytes from_bytes.
Proof.
  split; unfold wf, to_bytes, from_bytes, SIZE.
  - intros [s ts] r [Hs Ht]. cbn [sequence server_timestamp] in *. rewrite <- app_assoc.
    start_at (be_bytes 4 s ++ be_bytes 8 ts ++ r). rewrite !len_app, !len_be_bytes.
    pose proof (len_nonneg r). check_len. by do 2 eat.
  - intros m _. apply bytes_ok_app. auto with hpn.
  - intros b [s ts] Hb H. repeat (step_in H; b2p). injection H as <- <-. by access_facts.
  - intros b Hb H. repeat (step_in H; b2p); no_abort.
Qed.

End KeepaliveReplyMessage.
