(* ===== verification/Control.v ===== *)
(** Control messages and the signed rebind acknowledgment of
    hpn-core/src/protocol/messages.rs.

    The wall clock is an argument: [Some secs] is the time since the Unix
    epoch in seconds, [None] a clock set before it. *)

From S2P Require Import Prelude Types Codec Wire Utf8 Net Keys Signature.

Definition MAX_CONTROL_MESSAGE_LEN : Z := 1024.
Definition MAX_REBIND_ACK_AGE_SECS : Z := 300.
Definition MAX_REBIND_ACK_FUTURE_SKEW_SECS : Z := 60.
Definition REBIND_ACK_TRANSCRIPT_DOMAIN : list Z := bytes_of_string "HPN-REBIND-ACK-V1".

Module SignedRebindAckPayload.

Record t := mk {
  security_level : SecurityLevel.t;
  timestamp : Z;
  endpoint : SocketAddr.t;
  signature : MlDsaSignature.t;
}.

#[global] Instance t_eq_dec : EqDecision t.
Proof. solve_decision. Defined.

(** Family and IP address, as both the transcript and the encoding have it. *)
Definition ip_bytes (ip : IpAddr.t) : list Z :=
  match ip with
  | IpAddr.V4 octets => [4] ++ octets
  | IpAddr.V6 octets => [6] ++ octets
  end.

Definition build_transcript (session_id timestamp : Z) (endpoint : SocketAddr.t) : list Z :=
  REBIND_ACK_TRANSCRIPT_DOMAIN ++ SessionId.to_bytes session_id ++ be_bytes 8 timestamp
  ++ ip_bytes (SocketAddr.ip endpoint) ++ be_bytes 2 (SocketAddr.port endpoint).

Section WithMlDsa.
Context {M : MlDsa}.

Definition sign (rnd : list Z) (now : option Z) (keypair : MlDsaKeypair.t) (session_id : Z)
    (endpoint : SocketAddr.t) : result ProtocolError.t t :=
  let? timestamp := ok_or
    (ProtocolError.HandshakeFailed "rebind-ack signing failed: system clock before UNIX_EPOCH")
    now in
  let transcript := build_transcript session_id timestamp endpoint in
  let? signature := map_err
    (fun e => ProtocolError.HandshakeFailed
                ("rebind-ack signing failed: " ++ CryptoError.debug e))
    (MlDsaKeypair.sign keypair rnd transcript) in
  Ok (mk (MlDsaKeypair.security_level keypair) timestamp endpoint signature).

Definition verify (now : option Z) (p : t) (server_static_pk : list Z) (expected_session_id : Z)
    : result ProtocolError.t unit :=
  let now := match now with Some s => s | None => U64_MAX end in
  let? _ :=
    if now <? timestamp p then
      if MAX_REBIND_ACK_FUTURE_SKEW_SECS <? saturating_sub (timestamp p) now then
        Err (ProtocolError.InvalidData
               ("rebind-ack timestamp " ++ dec (timestamp p) ++ " is "
                  ++ dec (saturating_sub (timestamp p) now) ++ " s in the future (max "
                  ++ dec MAX_REBIND_ACK_FUTURE_SKEW_SECS ++ " s)"))
      else Ok tt
    else if MAX_REBIND_ACK_AGE_SECS <? saturating_sub now (timestamp p) then
      Err (ProtocolError.InvalidData
             ("rebind-ack timestamp " ++ dec (timestamp p) ++ " is "
                ++ dec (saturating_sub now (timestamp p)) ++ " s old (max "
                ++ dec MAX_REBIND_ACK_AGE_SECS ++ " s)"))
    else Ok tt in
  let transcript := build_transcript expected_session_id (timestamp p) (endpoint p) in
  map_err
    (fun e => ProtocolError.HandshakeFailed
                ("rebind-ack signature verification failed: " ++ CryptoError.debug e))
    (signature.verify server_static_pk transcript (signature p) (security_level p)).

End WithMlDsa.

Definition to_bytes (p : t) : list Z :=
  [SecurityLevel.as_u8 (security_level p)] ++ be_bytes 8 (timestamp p)
  ++ ip_bytes (SocketAddr.ip (endpoint p)) ++ be_bytes 2 (SocketAddr.port (endpoint p))
  ++ MlDsaSignature.bytes (signature p).

Definition MIN_PAYLOAD_SIZE : Z := 1 + 8 + 1 + 4 + 2 + MlDsaSignature.SIZE.

(** The endpoint after the family byte, and the offset behind it. *)
Definition read_endpoint (bytes : list Z) (family offset : Z)
    : result ProtocolError.t (SocketAddr.t * Z) :=
  if family =? 4 then
    if len bytes <? offset + 4 + 2 then
      Err (ProtocolError.PacketTooShort (offset + 4 + 2) (len bytes))
    else
      let? ip := range bytes offset (offset + 4) in
      let? port := read_u16 bytes (offset + 4) in
      Ok (SocketAddr.new (IpAddr.V4 ip) port, offset + 4 + 2)
  else if family =? 6 then
    if len bytes <? offset + 16 + 2 then
      Err (ProtocolError.PacketTooShort (offset + 16 + 2) (len bytes))
    else
      let? ip := range bytes offset (offset + 16) in
      let? port := read_u16 bytes (offset + 16) in
      Ok (SocketAddr.new (IpAddr.V6 ip) port, offset + 16 + 2)
  else
    Err (ProtocolError.InvalidData ("invalid address family in rebind-ack: " ++ dec family)).

Definition from_bytes (bytes : list Z) : result ProtocolError.t t :=
  if len bytes <? MIN_PAYLOAD_SIZE then
    Err (ProtocolError.PacketTooShort MIN_PAYLOAD_SIZE (len bytes))
  else
    let? b0 := index bytes 0 in
    let? security_level := ok_or
      (ProtocolError.InvalidData ("invalid security level in rebind-ack: " ++ dec b0))
      (SecurityLevel.from_u8 b0) in
    let? timestamp := read_u64 bytes 1 in
    let? family := index bytes 9 in
    let? (endpoint, offset) := read_endpoint bytes family 10 in
    let expected_sig_size := MlDsaSignature.size_for_level security_level in
    if len bytes <? offset + expected_sig_size then
      Err (ProtocolError.PacketTooShort (offset + expected_sig_size) (len bytes))
    else
      let? s := range bytes offset (offset + expected_sig_size) in
      let? signature := ok_or
        (ProtocolError.HandshakeFailed
           ("rebind-ack signature size mismatch for level "
              ++ SecurityLevel.debug security_level))
        (MlDsaSignature.from_bytes_with_level s security_level) in
      Ok (mk security_level timestamp endpoint signature).

(** The endpoints that survive encoding: no flow label and no scope. *)
Definition plain (a : SocketAddr.t) : Prop :=
  match a with
  | SocketAddr.V4 _ _ => True
  | SocketAddr.V6 _ _ flowinfo scope_id => flowinfo = 0 /\ scope_id = 0
  end.

Definition wf (p : t) : Prop :=
  u64 (timestamp p) /\ SocketAddr.wf (endpoint p) /\ plain (endpoint p) /\
  MlDsaSignature.wf (signature p) /\
  MlDsaSignature.security_level (signature p) = security_level p.

(** [read_endpoint] inverts the encoding of an endpoint. *)
Lemma read_endpoint_at a buf o b c r :
  SocketAddr.wf a -> plain a ->
  rest_at buf o (ip_bytes (SocketAddr.ip a) ++ be_bytes 2 (SocketAddr.port a) ++ r) ->
  b = o -> c = o + 1 ->
  exists family o',
    index (E:=ProtocolError.t) buf b = Ok family /\
    read_endpoint buf family c = Ok (a, o') /\ rest_at buf o' r.
Proof.
  intros [Hi Hp] Hpl R -> ->. pose proof (rest_at_len _ _ _ R) as HL. pose proof (len_nonneg r).
  destruct a as [i p|i p f s]; cbn [SocketAddr.ip SocketAddr.port IpAddr.wf ip_bytes] in *;
    destruct Hi as [_ Hi]; rewrite <- app_assoc in R; autorewrite with len in HL;
    rewrite (index_at _ _ o _ _ R) by done; apply rest_at_app in R.
  - do 2 eexists. split; [done|]. unfold read_endpoint. simpl (_ =? _). cbv iota. check_len.
    do 2 eat. split; [done|]. replace (o + 1 + 4 + 2) with (o + len [4] + len i + len (be_bytes 2 p));
      [done|offsets].
  - destruct Hpl as [-> ->].
    do 2 eexists. split; [done|]. unfold read_endpoint. simpl (_ =? _). cbv iota. check_len.
    do 2 eat. split; [done|]. replace (o + 1 + 16 + 2) with (o + len [6] + len i + len (be_bytes 2 p));
      [done|offsets].
Qed.

Lemma len_ip_bytes a : IpAddr.wf a -> 5 <= len (ip_bytes a) <= 17.
Proof. destruct a; intros [_ H]; cbn [ip_bytes]; autorewrite with len; lia. Qed.

Lemma rebind_roundtrip p r : wf p -> from_bytes (to_bytes p ++ r) = Ok p.
Proof.
  intros (Ht & He & Hpl & [_ Hs] & Hl). destruct p as [l ts ep [sb sl]].
  cbn [security_level timestamp endpoint signature MlDsaSignature.bytes
       MlDsaSignature.security_level] in *. subst sl.
  unfold to_bytes; cbn [security_level timestamp endpoint signature MlDsaSignature.bytes].
  rewrite <- !app_assoc. set (buf := _ ++ _). start_at buf. unfold buf at 2 in R.
  unfold buf at 2 in HL. autorewrite with len in HL.
  pose proof (len_ip_bytes _ (proj1 He)). pose proof (len_nonneg r).
  assert (3309 <= len sb) by (rewrite Hs; by destruct l).
  unfold from_bytes. change MIN_PAYLOAD_SIZE with 3325. check_len. eat.
  rewrite SecurityLevel.level_from_u8_as_u8. sbind. eat.
  destruct (read_endpoint_at ep buf _ 9 10 _ He Hpl R) as (family & o & -> & Hr & R');
    [offsets|offsets|]. sbind. rewrite Hr. sbind. clear R. rename R' into R.
  pose proof (rest_at_len _ _ _ R) as HL'. autorewrite with len in HL'. check_len. eat.
  rewrite MlDsaSignature.sig_from_bytes_with_level_ok by done. done.
Qed.

Lemma bytes_ok_ip a : IpAddr.wf a -> bytes_ok (ip_bytes a).
Proof.
  destruct a; intros [H _]; cbn [ip_bytes]; apply bytes_ok_app; (split; [by_decide|done]).
Qed.

Lemma rebind_bytes p : wf p -> bytes_ok (to_bytes p).
Proof.
  intros (_ & [He _] & _ & [Hs _] & _). unfold to_bytes. rewrite !bytes_ok_app.
  split_and!; auto with hpn; [|by apply bytes_ok_ip].
  constructor; [apply SecurityLevel.level_as_u8_u8|constructor].
Qed.

Lemma read_endpoint_sound b family o a o' :
  bytes_ok b -> read_endpoint b family o = Ok (a, o') -> SocketAddr.wf a /\ plain a /\ o <= o'.
Proof.
  intros Hb H. unfold read_endpoint in H.
  repeat (step_in H; b2p); injection H as <- <-; access_facts;
    unfold SocketAddr.wf; cbn [SocketAddr.new SocketAddr.ip SocketAddr.port IpAddr.wf plain];
    split_and!; done || lia.
Qed.

Lemma rebind_sound b p : bytes_ok b -> from_bytes b = Ok p -> wf p.
Proof.
  intros Hb H. unfold from_bytes in H. do 4 (step_in H; b2p). step_in H. step_in H.
  destruct a3 as [ep o]. cbn [rbind] in H. do 3 (step_in H; b2p). injection H as <-.
  apply read_endpoint_sound in Hs3 as (? & ? & _); [|done]. access_facts.
  apply MlDsaSignature.sig_from_bytes_with_level_inv in Hs5 as [-> ?].
  unfold wf; cbn [security_level timestamp endpoint signature].
  split_and!; done.
Qed.

Lemma rebind_total b : bytes_ok b -> from_bytes b <> Panic.
Proof.
  intros Hb H. unfold from_bytes in H. change MIN_PAYLOAD_SIZE with 3325 in H.
  do 4 (step_in H; b2p; try no_abort). step_in H; [|no_abort]. step_in H.
  - destruct a3 as [ep o]. cbn [rbind] in H. apply read_endpoint_sound in Hs3 as (_ & _ & ?); [|done].
    pose proof (SecurityLevel.sizes_pos a0). rewrite MlDsaSignature.sig_size_for_level_spec in H.
    repeat (step_in H; b2p); no_abort.
  - unfold read_endpoint in Hs3. repeat (step_in Hs3; b2p); no_abort.
Qed.

#[global] Instance rebind_codec_laws : Codec wf to_bytes from_bytes.
Proof. split; auto using rebind_roundtrip, rebind_bytes, rebind_total. apply rebind_sound. Qed.

End SignedRebindAckPayload.

Module ControlMessage.

Record t := mk {
  control_type : ControlType.t;
  error_code : option Z;
  message : option (list Z);
  signed_payload : option SignedRebindAckPayload.t;
}.

#[global] Instance t_eq_dec : EqDecision t.
Proof. solve_decision. Defined.

Definition error (code : Z) (message : list Z) : t :=
  mk ControlType.Error (Some code) (Some message) None.

Definition close : t := mk ControlType.Close None None None.

Definition rebind_ack_signed (signed_payload : SignedRebindAckPayload.t) : t :=
  mk ControlType.RebindAck None None (Some signed_payload).

(** The three blocks after the type byte. *)
Definition error_block (error_code : option Z) : list Z :=
  match error_code with
  | Some code => be_bytes 2 code
  | None => be_bytes 2 0
  end.

Definition message_block (message : option (list Z)) : list Z :=
  match message with
  | Some msg_bytes =>
      let bounded_len := Z.min (len msg_bytes) MAX_CONTROL_MESSAGE_LEN in
      let msg_len := as_uint 16 bounded_len in
      be_bytes 2 msg_len ++ slice msg_bytes 0 bounded_len
  | None => be_bytes 2 0
  end.

Definition signed_block (signed_payload : option SignedRebindAckPayload.t) : list Z :=
  match signed_payload with
  | Some sig_payload =>
      let sig_bytes := SignedRebindAckPayload.to_bytes sig_payload in
      let sig_len_u16 := if len sig_bytes <=? U16_MAX then len sig_bytes else U16_MAX in
      be_bytes 2 sig_len_u16 ++ slice sig_bytes 0 sig_len_u16
  | None => []
  end.

Definition to_bytes (m : t) : list Z :=
  [ControlType.as_u8 (control_type m)] ++ error_block (error_code m)
  ++ message_block (message m) ++ signed_block (signed_payload m).

(** The optional trailing block. *)
Definition read_signed_payload (bytes : list Z) (signed_payload_offset : Z)
    : result ProtocolError.t (option SignedRebindAckPayload.t) :=
  if signed_payload_offset + 2 <=? len bytes then
    let? sig_len := read_u16 bytes signed_payload_offset in
    if sig_len =? 0 then Ok None
    else if len bytes <? signed_payload_offset + 2 + sig_len then
      Err (ProtocolError.PacketTooShort (signed_payload_offset + 2 + sig_len) (len bytes))
    else
      let? sig_block :=
        range bytes (signed_payload_offset + 2) (signed_payload_offset + 2 + sig_len) in
      let? p := SignedRebindAckPayload.from_bytes sig_block in
      Ok (Some p)
  else Ok None.

Definition from_bytes (bytes : list Z) : result ProtocolError.t t :=
  if len bytes <? 5 then Err (ProtocolError.PacketTooShort 5 (len bytes))
  else
    let? b0 := index bytes 0 in
    let? control_type := ok_or ProtocolError.InvalidHeader (ControlType.from_u8 b0) in
    let? error_code := read_u16 bytes 1 in
    let error_code := if 0 <? error_code then Some error_code else None in
    let? msg_len := read_u16 bytes 3 in
    if MAX_CONTROL_MESSAGE_LEN <? msg_len then
      Err (ProtocolError.InvalidData
             ("control message too long: " ++ dec msg_len ++ " bytes (max "
                ++ dec MAX_CONTROL_MESSAGE_LEN ++ ")"))
    else if (0 <? msg_len) && (len bytes <? 5 + msg_len) then
      Err (ProtocolError.PacketTooShort (5 + msg_len) (len bytes))
    else
      let? message :=
        if 0 <? msg_len then
          let? s := range bytes 5 (5 + msg_len) in
          Ok (Some (from_utf8_lossy s))
        else Ok None in
      let? signed_payload := read_signed_payload bytes (5 + msg_len) in
      Ok (mk control_type error_code message signed_payload).

(** What the decoder produces: a text is not empty, valid UTF-8 and, a
    replacement character being three bytes, at most [3 * MAX_CONTROL_MESSAGE_LEN] long. *)
Definition decoded (m : t) : Prop :=
  match error_code m with Some c => u16 c /\ c <> 0 | None => True end /\
  match message m with
  | Some s => bytes_ok s /\ utf8_valid s = true /\ 1 <= len s <= 3 * MAX_CONTROL_MESSAGE_LEN
  | None => True
  end /\
  match signed_payload m with Some p => SignedRebindAckPayload.wf p | None => True end.

(** What survives the wire: a text of at most [MAX_CONTROL_MESSAGE_LEN] bytes. *)
Definition wf (m : t) : Prop :=
  decoded m /\
  match message m with Some s => len s <= MAX_CONTROL_MESSAGE_LEN | None => True end.

(** The text of the message in [b] is not UTF-8: the decoder replaced parts
    of it. *)
Definition repaired (b : list Z) (m : t) : Prop :=
  exists raw, 1 <= len raw <= MAX_CONTROL_MESSAGE_LEN /\ slice b 5 (5 + len raw) = raw /\
    utf8_valid raw = false /\ message m = Some (from_utf8_lossy raw).

Lemma len_signed p :
  SignedRebindAckPayload.wf p -> 1 <= len (SignedRebindAckPayload.to_bytes p) <= 5000.
Proof.
  intros (_ & [Hi _] & _ & [_ Hs] & _). unfold SignedRebindAckPayload.to_bytes.
  autorewrite with len. rewrite Hs. apply SignedRebindAckPayload.len_ip_bytes in Hi.
  destruct (MlDsaSignature.security_level _); simpl;
    unfold MlDsaSignature.SIZE, MlDsaSignature.SIZE_87; lia.
Qed.

Lemma read_signed_block o buf a b :
  match o with Some p => SignedRebindAckPayload.wf p | None => True end ->
  rest_at buf a (signed_block o) -> b = a -> read_signed_payload buf b = Ok o.
Proof.
  intros Hp R ->. pose proof (rest_at_len _ _ _ R) as HL. unfold read_signed_payload.
  destruct o as [p|]; cbn [signed_block] in *; [|rewrite len_nil in HL; by check_len].
  pose proof (len_signed p Hp) as Hl. set (sb := SignedRebindAckPayload.to_bytes p) in *.
  unfold U16_MAX in *. rewrite (proj2 (Z.leb_le (len sb) 65535)), slice_all in * by lia.
  autorewrite with len in HL. check_len. eat. do 2 check_len.
  rewrite <- (app_nil_r sb) in R. eat.
  rewrite <- (app_nil_r sb). unfold sb. by rewrite SignedRebindAckPayload.rebind_roundtrip.
Qed.

(** The length and text fields of the message. *)
Lemma message_block_eq m :
  wf m -> exists s, message_block (message m) = be_bytes 2 (len s) ++ s /\
    message m = (if 0 <? len s then Some s else None) /\
    utf8_valid s = true /\ len s <= MAX_CONTROL_MESSAGE_LEN.
Proof.
  intros [(_ & Hm & _) Hl]. unfold MAX_CONTROL_MESSAGE_LEN in *.
  destruct (message m) as [s|]; [|by exists []].
  destruct Hm as (_ & Hu & Hl1). exists s. unfold message_block, MAX_CONTROL_MESSAGE_LEN.
  rewrite Z.min_l, slice_all by lia. unfold as_uint. rewrite Z.mod_small by lia.
  split_and!; [done| |done|lia]. by check_len.
Qed.

Lemma error_block_eq m :
  decoded m -> exists c, error_block (error_code m) = be_bytes 2 c /\ u16 c /\
    error_code m = (if 0 <? c then Some c else None).
Proof.
  intros (He & _). destruct (error_code m) as [c|]; [|by exists 0].
  destruct He as [He ?]. exists c. split_and!; [done|done|]. unfold uint in He. by check_len.
Qed.

Lemma control_roundtrip m : wf m -> from_bytes (to_bytes m) = Ok m.
Proof.
  intros Hm. destruct (message_block_eq m Hm) as (s & Es & Em & Hu & Hl).
  destruct Hm as [Hd _]. destruct (error_block_eq m Hd) as (c & Ec & Hc & Ee).
  destruct Hd as (_ & _ & Hp). destruct m as [ty ec msg sp].
  cbn [control_type error_code message signed_payload] in *.
  unfold to_bytes; cbn [control_type error_code message signed_payload]. rewrite Es, Ec.
  rewrite <- !app_assoc. set (buf := _ ++ _). start_at buf.
  unfold buf at 2 in R. unfold buf at 2 in HL. autorewrite with len in HL.
  pose proof (len_nonneg s). pose proof (len_nonneg (signed_block sp)).
  unfold MAX_CONTROL_MESSAGE_LEN in *. unfold from_bytes, MAX_CONTROL_MESSAGE_LEN.
  check_len. eat. rewrite ControlType.control_from_u8_as_u8. sbind. do 2 eat. check_len.
  rewrite (proj2 (Z.ltb_ge (len buf) (5 + len s))), andb_false_r by lia.
  subst msg ec. destruct (0 <? len s) eqn:E; b2p.
  - eat. rewrite from_utf8_lossy_id by done. by rewrite (read_signed_block _ _ _ _ Hp R) by offsets.
  - sbind. assert (s = []) as -> by (apply len_zero_nil; lia).
    by rewrite (read_signed_block _ _ _ _ Hp R) by offsets.
Qed.

Lemma control_bytes m : wf m -> bytes_ok (to_bytes m).
Proof.
  intros [(_ & Hm & Hp) _]. unfold to_bytes. rewrite !bytes_ok_app. split_and!.
  - constructor; [apply ControlType.control_as_u8_u8|constructor].
  - unfold error_block. destruct (error_code m); auto with hpn.
  - unfold message_block. destruct (message m); [|auto with hpn].
    apply bytes_ok_app. destruct Hm. auto with hpn.
  - unfold signed_block. destruct (signed_payload m); [|constructor].
    apply SignedRebindAckPayload.rebind_bytes in Hp. apply bytes_ok_app. auto with hpn.
Qed.

Lemma read_signed_payload_sound b o x :
  bytes_ok b -> read_signed_payload b o = Ok x ->
  match x with Some p => SignedRebindAckPayload.wf p | None => True end.
Proof.
  intros Hb H. unfold read_signed_payload in H. step_in H; [|by injection H as <-].
  step_in H. step_in H; [by injection H as <-|]. do 3 (step_in H). injection H as <-.
  access_facts. by eapply codec_sound in Hs1.
Qed.

Lemma control_sound b m : bytes_ok b -> from_bytes b = Ok m -> decoded m /\ (wf m \/ repaired b m).
Proof.
  intros Hb H. unfold from_bytes in H. do 7 (step_in H; b2p). step_call H as Em.
  step_in H. injection H as <-. unfold wf, decoded; cbn [error_code message signed_payload].
  apply read_signed_payload_sound in Hs3; [|done]. unfold MAX_CONTROL_MESSAGE_LEN in *.
  assert (len b < 5 + a2 -> a2 <= 0) as Hlen.
  { apply andb_false_iff in Hb2. destruct Hb2; b2p; lia. }
  assert (match (if 0 <? a1 then Some a1 else None) with Some c => u16 c /\ c <> 0 | None => True end) as Hc.
  { access_facts. destruct (0 <? a1) eqn:E; b2p; [|done]. split; [done|lia]. }
  destruct (0 <? a2) eqn:E2; b2p; [|injection Em as <-; by split; [|left]]. step_in Em. injection Em as <-.
  pose proof Hs4 as (_ & _ & _ & Hraw & _)%range_inv.
  access_facts. destruct (from_utf8_lossy_spec a5) as (? & ? & ?); [done|].
  pose proof (from_utf8_lossy_nonempty a5 ltac:(lia)). split; [split_and!; done || lia|].
  destruct (utf8_valid a5) eqn:Hu; [left; rewrite from_utf8_lossy_id in * by done; split_and!; done || lia|].
  right. exists a5. unfold MAX_CONTROL_MESSAGE_LEN. split_and!; [lia|lia| |done|done].
  rewrite Hraw at 2. f_equal. lia.
Qed.

Lemma control_total b : bytes_ok b -> from_bytes b <> Panic.
Proof.
  intros Hb H. unfold from_bytes in H. do 7 (step_in H; b2p; try no_abort).
  assert (len b < 5 + a2 -> a2 <= 0) as Hlen.
  { apply andb_false_iff in Hb2. destruct Hb2; b2p; lia. }
  step_call H as Em.
  - step_in H. unfold read_signed_payload in Hs3.
    step_in Hs3. b2p. step_in Hs3; [|no_abort]. step_in Hs3. step_in Hs3. b2p.
    step_in Hs3; [|no_abort]. step_call Hs3 as Ep. access_facts. by apply codec_total in Ep.
  - destruct (0 <? a2) eqn:E; b2p; [|done]. step_in Em. no_abort.
Qed.

End ControlMessage.

(** * Properties *)

Lemma ip_bytes_inj a b x y :
  IpAddr.wf a -> IpAddr.wf b ->
  SignedRebindAckPayload.ip_bytes a ++ x = SignedRebindAckPayload.ip_bytes b ++ y ->
  a = b /\ x = y.
Proof.
  destruct a as [a|a], b as [b|b]; intros [_ Ha] [_ Hb] H; simpl in H; try discriminate H;
    injection H as H; apply app_cut in H as [-> ->]; [done|lia|done|lia].
Qed.

(** The signed transcript determines the session, the time and the endpoint. *)
Lemma build_transcript_inj s1 t1 e1 s2 t2 e2 :
  u64 s1 -> u64 t1 -> SocketAddr.wf e1 -> u64 s2 -> u64 t2 -> SocketAddr.wf e2 ->
  SignedRebindAckPayload.build_transcript s1 t1 e1 =
    SignedRebindAckPayload.build_transcript s2 t2 e2 ->
  s1 = s2 /\ t1 = t2 /\ SocketAddr.ip e1 = SocketAddr.ip e2 /\
  SocketAddr.port e1 = SocketAddr.port e2.
Proof.
  intros Hs1 Ht1 [He1 Hp1] Hs2 Ht2 [He2 Hp2] H.
  unfold SignedRebindAckPayload.build_transcript, SessionId.to_bytes in H.
  apply app_cut in H as [_ H]; [|done].
  apply app_cut in H as [Hs H]; [|by rewrite !len_be_bytes].
  apply app_cut in H as [Ht H]; [|by rewrite !len_be_bytes].
  apply ip_bytes_inj in H as [Hi Hp]; [|done|done].
  apply be_bytes_inj in Hs, Ht, Hp; done.
Qed.

Section RebindAck.
Context {M : MlDsa} {L : MlDsaLaws}.

Lemma verify_spec now p pk sid :
  SignedRebindAckPayload.verify (Some now) p pk sid = Ok tt <->
  (SignedRebindAckPayload.timestamp p <= now + 60 /\ now <= SignedRebindAckPayload.timestamp p + 300) /\
  signature.verify pk
    (SignedRebindAckPayload.build_transcript sid (SignedRebindAckPayload.timestamp p)
       (SignedRebindAckPayload.endpoint p))
    (SignedRebindAckPayload.signature p) (SignedRebindAckPayload.security_level p) = Ok tt.
Proof.
  unfold SignedRebindAckPayload.verify, MAX_REBIND_ACK_FUTURE_SKEW_SECS, MAX_REBIND_ACK_AGE_SECS,
    saturating_sub.
  set (ts := SignedRebindAckPayload.timestamp p). set (v := signature.verify _ _ _ _).
  assert (forall f : CryptoError.t -> ProtocolError.t, map_err f v = Ok tt <-> v = Ok tt) as Hv.
  { intros f. split; [apply map_err_ok|]. by intros ->. }
  destruct (now <? ts) eqn:E; b2p.
  - destruct (60 <? Z.max 0 (ts - now)) eqn:E2; b2p; sbind; rewrite ?Hv; split; intros H;
      [discriminate H|lia|split; [lia|done]|apply H].
  - destruct (300 <? Z.max 0 (now - ts)) eqn:E2; b2p; sbind; rewrite ?Hv; split; intros H;
      [discriminate H|lia|split; [lia|done]|apply H].
Qed.

(** A rebind acknowledgment a server signs with a generated key survives
    the wire inside a control message, and the client that checks it against
    the server's key and its own session accepts it exactly while its clock is
    at most 60 seconds behind and 300 seconds ahead of the signing time. *)
Lemma rebind_ack_accepted seed level rnd ts sid ep :
  u64 ts -> SocketAddr.wf ep -> SignedRebindAckPayload.plain ep ->
  let kp := MlDsaKeypair.generate_with_level seed level in
  exists p,
    SignedRebindAckPayload.sign rnd (Some ts) kp sid ep = Ok p /\
    ControlMessage.from_bytes (ControlMessage.to_bytes (ControlMessage.rebind_ack_signed p))
      = Ok (ControlMessage.rebind_ack_signed p) /\
    forall now,
      SignedRebindAckPayload.verify (Some now) p (MlDsaKeypair.public_key kp) sid = Ok tt <->
      ts <= now + 60 /\ now <= ts + 300.
Proof.
  intros Ht He Hp kp.
  destruct (MlDsaKeypair.sign_verifies seed level rnd
    (SignedRebindAckPayload.build_transcript sid ts ep)) as (s & Hs & Hl & Hw & Hv).
  pose proof (MlDsaKeypair.generate_wf seed level) as (Hk & _). fold kp in Hs, Hv, Hk.
  exists (SignedRebindAckPayload.mk level ts ep s). unfold SignedRebindAckPayload.sign. sbind.
  rewrite Hs, Hk. sbind. split; [done|]. split.
  - by apply ControlMessage.control_roundtrip.
  - intros now. rewrite verify_spec. simpl. tauto.
Qed.

(** What the client accepts is fresh and carries a signature of the
    server's key on a transcript that no other session, time or endpoint has:
    an acknowledgment recorded in another session, or for another endpoint, is
    not accepted unless the server signed it for this one. *)
Lemma rebind_ack_bound now p pk sid :
  SignedRebindAckPayload.wf p -> u64 sid ->
  SignedRebindAckPayload.verify (Some now) p pk sid = Ok tt ->
  let ts := SignedRebindAckPayload.timestamp p in
  ts <= now + 60 /\ now <= ts + 300 /\
  exists transcript,
    signature.verify pk transcript (SignedRebindAckPayload.signature p)
      (SignedRebindAckPayload.security_level p) = Ok tt /\
    forall sid' ts' ep',
      u64 sid' -> u64 ts' -> SocketAddr.wf ep' ->
      transcript = SignedRebindAckPayload.build_transcript sid' ts' ep' <->
      sid' = sid /\ ts' = ts /\
      SocketAddr.ip ep' = SocketAddr.ip (SignedRebindAckPayload.endpoint p) /\
      SocketAddr.port ep' = SocketAddr.port (SignedRebindAckPayload.endpoint p).
Proof.
  intros (Ht & He & _) Hsid Hv ts. apply verify_spec in Hv as [[? ?] Hv].
  split; [done|]. split; [done|]. eexists. split; [exact Hv|].
  intros sid' ts' ep' Hs' Ht' He'. split.
  - intros Hx. apply build_transcript_inj in Hx as (? & ? & ? & ?); [|done..]. by split_and!.
  - intros (-> & -> & Hi & Hp). unfold SignedRebindAckPayload.build_transcript. by rewrite Hi, Hp.
Qed.

End RebindAck.

(** The control message codec: a message with a non-zero error code, a
    non-empty text of at most 1024 bytes and a well-formed signed payload (each
    optional) survives encoding and decoding; on arbitrary bytes the decoder
    never aborts, and it produces such a message unless the text was not UTF-8,
    which it repairs (to valid UTF-8 of at most three times the length). *)
Lemma control_message_codec :
  (forall m, ControlMessage.wf m -> ControlMessage.from_bytes (ControlMessage.to_bytes m) = Ok m) /\
  (forall b, bytes_ok b ->
     match ControlMessage.from_bytes b with
     | Ok m => ControlMessage.decoded m /\ (ControlMessage.wf m \/ ControlMessage.repaired b m)
     | Err _ => True
     | Panic => False
     end).
Proof.
  split; [apply ControlMessage.control_roundtrip|]. intros b Hb.
  destruct (ControlMessage.from_bytes b) eqn:E; [|done|].
  - by eapply ControlMessage.control_sound.
  - by apply ControlMessage.control_total in E.
Qed.

(** * Witnesses *)

Definition example_endpoint : SocketAddr.t := SocketAddr.V4 [192; 0; 2; 7] 51820.

Definition example_ack : SignedRebindAckPayload.t :=
  let kp := MlDsaKeypair.generate_with_level [1; 2] SecurityLevel.Level3 in
  match SignedRebindAckPayload.sign [5] (Some 1000) kp 9 example_endpoint with
  | Ok p => p
  | _ => SignedRebindAckPayload.mk SecurityLevel.Level3 0 example_endpoint
           (MlDsaSignature.mk [] SecurityLevel.Level3)
  end.

