(* ===== verification/Init.v ===== *)
(** Handshake initiation: [EncryptedCredentials], [HandshakeInit] and
    [EncryptedHandshakeInit] of hpn-core/src/protocol/messages.rs.

    Strings are their UTF-8 bytes.  The values the key encapsulation and
    [client_random] draw are arguments. *)

From S2P Require Import Prelude Types Codec Wire Utf8 Digest Aead Keys Signature Kem Kdf.

Definition MAX_USERNAME_LEN : Z := 64.
Definition MAX_PASSWORD_LEN : Z := 256.

(** * Sealing to the server's KEM key

    The steps [encrypt] and [decrypt] of both messages share: the nonce from
    the ciphertext, the buffer that is sealed and truncated, and the buffer
    that is opened in place. *)

Section Sealing.
Context {R : RingAead} {D : RingDigest}.

Definition kem_nonce {E} (ciphertext : HybridCiphertext.t) : result E (list Z) :=
  let nonce := replicate (Z.to_nat NONCE_SIZE) 0 in
  let nonce_material := sha256 (HybridCiphertext.to_bytes ciphertext) in
  let? s := range nonce_material 0 NONCE_SIZE in
  copy_from_slice nonce 0 NONCE_SIZE s.

Definition seal_vec (key nonce aad plaintext : list Z) : result CryptoError.t (list Z) :=
  let payload := replicate (Z.to_nat (len plaintext + TAG_SIZE)) 0 in
  let? payload := copy_from_slice payload 0 (len plaintext) plaintext in
  let? (payload, encrypted_len) :=
    aead.encrypt_in_place key nonce aad payload (len plaintext) in
  Ok (take (Z.to_nat encrypted_len) payload).

Definition open_vec (key nonce aad payload : list Z) : result CryptoError.t (list Z) :=
  let? (decrypted, n) := aead.decrypt_in_place key nonce aad payload in
  range decrypted 0 n.

End Sealing.

(** A fixed-size array [[0u8; 32]] to fill. *)
Definition zero_key : list Z := replicate 32 0.

Section SealingLemmas.
Context {R : RingAead} {RL : RingAeadLaws} {D : RingDigest} {DL : RingDigestLaws}.
Context {H : Hkdf} {HL : HkdfLaws}.

Lemma kem_nonce_ok {E} ct :
  exists nonce, kem_nonce (E:=E) ct = Ok nonce /\ len nonce = NONCE_SIZE.
Proof.
  unfold kem_nonce, NONCE_SIZE. set (h := sha256 _).
  assert (len h = 32) as Hh by apply sha256_size.
  rewrite range_ok by lia. sbind. assert (len (slice h 0 12) = 12) as Hs by (rewrite len_slice; lia).
  rewrite copy_from_slice_start by (rewrite Hs; done). eexists. split; [done|].
  rewrite len_app, Hs, len_drop_nat; rewrite len_replicate; unfold len in Hs; lia.
Qed.

Lemma derived_key_ok secret domain :
  exists key, hkdf_expand secret domain zero_key = Ok key /\ len key = KEY_SIZE.
Proof.
  destruct (hkdf_expand_len secret domain zero_key) as (key & -> & Hk & _); [done|].
  by exists key.
Qed.

Lemma seal_vec_ok key nonce aad p :
  bytes_ok p -> len p <= MAX_SEAL -> len key = KEY_SIZE -> len nonce = NONCE_SIZE ->
  exists sealed, seal_vec key nonce aad p = Ok sealed /\ bytes_ok sealed /\
    len sealed = len p + TAG_SIZE /\ open_vec key nonce aad sealed = Ok p.
Proof.
  intros Hb Hp Hk Hn. pose proof (len_nonneg p). unfold seal_vec, TAG_SIZE.
  rewrite Z2Nat.inj_add, to_nat_len, replicate_add by lia.
  rewrite copy_prefix' by (done || by rewrite len_replicate; unfold len). sbind.
  destruct (LessSafeKey_new_32 key Hk) as [k Hk'].
  destruct (encrypt_in_place_ok k nonce aad p (replicate (Z.to_nat 16) 0) Hb Hp Hn)
    as (n & c & tag & Hn' & He & Hs & Hc & Ht & Hcb & Htb); [by rewrite len_replicate|].
  destruct (decrypt_in_place_sealed k nonce n aad p c tag Hb Hn' Hs Hp) as (rest & Hd & Hr).
  unfold PrecomputedKey.encrypt_in_place, PrecomputedKey.decrypt_in_place, TAG_SIZE in *.
  unfold aead.encrypt_in_place, TAG_SIZE. rewrite len_app, len_replicate in *.
  repeat decide_ltb. rewrite (proj2 (Z.ltb_ge _ _)) in He by lia.
  rewrite Hk'. sbind. rewrite He. sbind. exists (c ++ tag). split_and!.
  - f_equal. apply take_app_length'. rewrite length_app. unfold len in *. lia.
  - by apply bytes_ok_app.
  - rewrite len_app. lia.
  - unfold open_vec, aead.decrypt_in_place, TAG_SIZE. rewrite len_app in *.
    rewrite (proj2 (Z.ltb_ge _ _)) in * by lia. rewrite Hk'. sbind. rewrite Hd. sbind.
    by rewrite (range_rest_at _ 0 p rest _ (rest_at_start _)) by lia.
Qed.

(** What opens was sealed under the same key, nonce and associated data. *)
Lemma open_vec_inv key nonce aad buf p :
  bytes_ok buf -> open_vec key nonce aad buf = Ok p ->
  exists k n c tag, LessSafeKey_new key = Some k /\ try_assume_unique_for_key nonce = Some n /\
    seal_in_place_separate_tag k n aad p = Some (c, tag) /\ buf = c ++ tag.
Proof.
  intros Hb Ho. unfold open_vec, aead.decrypt_in_place in Ho. step_in Ho.
  destruct a as [b' m]. step_in Hs. step_in Hs. apply ok_or_ok in Hs0.
  assert (PrecomputedKey.decrypt_in_place a nonce aad buf = Ok (b', m)) as Hd.
  { unfold PrecomputedKey.decrypt_in_place. by rewrite Hb0. }
  apply decrypt_in_place_inv in Hd as (_ & ? & ? & n & c & tag & Hn & Hse & ->); [|done].
  apply range_inv in Ho as (_ & _ & _ & -> & _). by exists a, n, c, tag.
Qed.

End SealingLemmas.

Module DecryptedCredentials.

Record t := mk { username : list Z; password : list Z }.

#[global] Instance t_eq_dec : EqDecision t.
Proof. solve_decision. Defined.

End DecryptedCredentials.

Module EncryptedCredentials.

Record t := mk { ciphertext : HybridCiphertext.t; encrypted_payload : list Z }.

#[global] Instance t_eq_dec : EqDecision t.
Proof. solve_decision. Defined.

Definition DOMAIN_SEPARATOR : list Z := bytes_of_string "HPN-CREDENTIALS-V1".

(** [iter().position(|&b| b == 0)] *)
Fixpoint position_zero (l : list Z) : option Z :=
  match l with
  | [] => None
  | b :: r => if b =? 0 then Some 0 else option_map (Z.add 1) (position_zero r)
  end.

Section Crypto.
Context {R : RingAead} {D : RingDigest} {K : KemPrimitives} {H : Hkdf}.

Definition failed (what : string) (e : CryptoError.t) : ProtocolError.t :=
  ProtocolError.HandshakeFailed (what ++ ": " ++ CryptoError.debug e).

Definition encrypt (x25519_rng mlkem_rng username password : list Z)
    (server_kem_pk : HybridPublicKey.t) : result ProtocolError.t t :=
  if MAX_USERNAME_LEN <? len username then
    Err (ProtocolError.InvalidData
           ("username too long: " ++ dec (len username) ++ " (max " ++ dec MAX_USERNAME_LEN ++ ")"))
  else if MAX_PASSWORD_LEN <? len password then
    Err (ProtocolError.InvalidData
           ("password too long: " ++ dec (len password) ++ " (max " ++ dec MAX_PASSWORD_LEN ++ ")"))
  else
    let? (shared_secret, ciphertext) := map_err (failed "credential encapsulation failed")
      (HybridKem.encapsulate x25519_rng mlkem_rng server_kem_pk) in
    let? encryption_key := map_err (failed "credential key derivation failed")
      (hkdf_expand (HandshakeSecret.as_bytes shared_secret) DOMAIN_SEPARATOR zero_key) in
    let plaintext := username ++ [0] ++ password in
    let? nonce := kem_nonce ciphertext in
    let ct_bytes := HybridCiphertext.to_bytes ciphertext in
    let? encrypted_payload := map_err (failed "credential encryption failed")
      (seal_vec encryption_key nonce ct_bytes plaintext) in
    Ok (mk ciphertext encrypted_payload).

Definition decrypt (c : t) (server_kem_sk : HybridSecretKey.t)
    : result ProtocolError.t DecryptedCredentials.t :=
  let? shared_secret := map_err (failed "credential decapsulation failed")
    (HybridKem.decapsulate server_kem_sk (ciphertext c)) in
  let? decryption_key := map_err (failed "credential key derivation failed")
    (hkdf_expand (HandshakeSecret.as_bytes shared_secret) DOMAIN_SEPARATOR zero_key) in
  let? nonce := kem_nonce (ciphertext c) in
  let ct_bytes := HybridCiphertext.to_bytes (ciphertext c) in
  let? plaintext := map_err (failed "credential decryption failed")
    (open_vec decryption_key nonce ct_bytes (encrypted_payload c)) in
  let? null_pos := ok_or
    (ProtocolError.HandshakeFailed "invalid credential format: missing separator")
    (position_zero plaintext) in
  let? username_bytes := range plaintext 0 null_pos in
  let? password_bytes := range plaintext (null_pos + 1) (len plaintext) in
  let? username := ok_or
    (ProtocolError.HandshakeFailed "invalid credential format: bad username")
    (from_utf8 username_bytes) in
  let? password := ok_or
    (ProtocolError.HandshakeFailed "invalid credential format: bad password")
    (from_utf8 password_bytes) in
  if (MAX_USERNAME_LEN <? len username) || (MAX_PASSWORD_LEN <? len password) then
    Err (ProtocolError.HandshakeFailed "invalid credential format: fields too long")
  else Ok (DecryptedCredentials.mk username password).

End Crypto.

Definition to_bytes (c : t) : list Z :=
  let ct_bytes := HybridCiphertext.to_bytes (ciphertext c) in
  be_bytes 2 (as_uint 16 (len ct_bytes)) ++ ct_bytes
  ++ be_bytes 2 (as_uint 16 (len (encrypted_payload c))) ++ encrypted_payload c.

Definition MAX_CREDENTIALS_CIPHERTEXT_LEN : Z := 2048.
Definition MAX_CREDENTIALS_PAYLOAD_LEN : Z := 4096.

(** The security level argument is not used. *)
Definition from_bytes (bytes : list Z) (_security_level : SecurityLevel.t)
    : result ProtocolError.t t :=
  if len bytes <? 4 then Err (ProtocolError.PacketTooShort 4 (len bytes))
  else
    let offset := 0 in
    let? ct_len := read_u16 bytes offset in
    let offset := offset + 2 in
    if MAX_CREDENTIALS_CIPHERTEXT_LEN <? ct_len then
      Err (ProtocolError.HandshakeFailed
             ("credentials ciphertext_len " ++ dec ct_len ++ " exceeds maximum "
                ++ dec MAX_CREDENTIALS_CIPHERTEXT_LEN))
    else if len bytes <? offset + ct_len + 2 then
      Err (ProtocolError.PacketTooShort (offset + ct_len + 2) (len bytes))
    else
      let? s := range bytes offset (offset + ct_len) in
      let? ciphertext := map_err
        (fun e => ProtocolError.HandshakeFailed
                    ("invalid credential ciphertext: " ++ CryptoError.debug e))
        (HybridCiphertext.from_bytes s) in
      let offset := offset + ct_len in
      let? payload_len := read_u16 bytes offset in
      let offset := offset + 2 in
      if MAX_CREDENTIALS_PAYLOAD_LEN <? payload_len then
        Err (ProtocolError.HandshakeFailed
               ("credentials payload_len " ++ dec payload_len ++ " exceeds maximum "
                  ++ dec MAX_CREDENTIALS_PAYLOAD_LEN))
      else if len bytes <? offset + payload_len then
        Err (ProtocolError.PacketTooShort (offset + payload_len) (len bytes))
      else
        let? encrypted_payload := range bytes offset (offset + payload_len) in
        Ok (mk ciphertext encrypted_payload).

Definition wf (c : t) : Prop :=
  HybridCiphertext.wf (ciphertext c) /\ bytes_ok (encrypted_payload c) /\
  len (encrypted_payload c) <= MAX_CREDENTIALS_PAYLOAD_LEN.

#[global] Instance wf_dec c : Decision (wf c).
Proof. unfold wf. apply _. Defined.

#[global] Instance credentials_codec_laws level : Codec wf to_bytes (fun b => from_bytes b level).
Proof.
  split; unfold wf, MAX_CREDENTIALS_PAYLOAD_LEN.
  - intros [ct pl] r (Hc & _ & Hl). cbn [ciphertext encrypted_payload] in *.
    unfold to_bytes; cbn [ciphertext encrypted_payload].
    pose proof (HybridCiphertext.len_to_bytes_ct ct Hc). pose proof (len_nonneg pl).
    unfold as_uint. rewrite !Z.mod_small by lia. rewrite <- !app_assoc.
    set (cb := HybridCiphertext.to_bytes ct) in *. set (buf := be_bytes 2 (len cb) ++ _).
    start_at buf. unfold buf at 2 in R. unfold buf at 2 in HL. autorewrite with len in HL.
    pose proof (len_nonneg r). unfold from_bytes, MAX_CREDENTIALS_CIPHERTEXT_LEN,
      MAX_CREDENTIALS_PAYLOAD_LEN. check_len. eat. do 2 check_len. eat.
    rewrite <- (app_nil_r cb) at 1. unfold cb at 1. rewrite HybridCiphertext.ct_from_bytes by done.
    sbind. eat. do 2 check_len. by eat.
  - intros c (Hc & Hp & _). unfold to_bytes. rewrite !bytes_ok_app.
    split_and!; auto using HybridCiphertext.ct_bytes with hpn.
  - intros b c Hb H. unfold from_bytes, MAX_CREDENTIALS_PAYLOAD_LEN in H.
    repeat (step_in H; b2p). injection H as <-. access_facts. cbn [ciphertext encrypted_payload].
    split_and!; [by eapply HybridCiphertext.ct_from_bytes_wf; [|eassumption]|done|lia].
  - intros b Hb H. unfold from_bytes in H. do 6 (step_in H; b2p; try no_abort).
    + repeat (step_in H; b2p); no_abort.
    + access_facts.
      match goal with
      | E : HybridCiphertext.from_bytes _ = Panic |- _ =>
          by apply HybridCiphertext.ct_from_bytes_no_panic in E
      end.
Qed.

Section Lemmas.
Context {R : RingAead} {RL : RingAeadLaws} {D : RingDigest} {DL : RingDigestLaws}.
Context {K : KemPrimitives} {KL : KemLaws} {H : Hkdf} {HL : HkdfLaws}.

Lemma position_zero_app u p :
  Forall (fun b => b <> 0) u -> position_zero (u ++ [0] ++ p) = Some (len u).
Proof.
  induction 1 as [|b u Hb _ IH]; [done|]. cbn [app position_zero] in *.
  rewrite (proj2 (Z.eqb_neq b 0)) by done. rewrite IH. cbn [option_map]. by rewrite len_cons.
Qed.

(** Encryption to a generated key succeeds; what its owner recovers is the
    plaintext split at its first zero byte. *)
Lemma credentials_encrypt_ok x seed level x' rnd sk pk username password :
  len x = 32 -> len x' = 32 ->
  HybridKem.generate_keypair_with_level x seed level = Ok (sk, pk) ->
  bytes_ok username -> bytes_ok password ->
  len username <= MAX_USERNAME_LEN -> len password <= MAX_PASSWORD_LEN ->
  exists c, encrypt x' rnd username password pk = Ok c /\ wf c /\
    forall u p, username ++ [0] ++ password = u ++ [0] ++ p -> Forall (fun b => b <> 0) u ->
      utf8_valid u = true -> utf8_valid p = true ->
      len u <= MAX_USERNAME_LEN -> len p <= MAX_PASSWORD_LEN ->
      decrypt c sk = Ok (DecryptedCredentials.mk u p).
Proof.
  intros Hx Hx' Hg Hub Hpb Hu Hp. unfold encrypt. do 2 decide_ltb.
  destruct (HybridKem.encapsulate_agrees x seed level x' rnd sk pk Hx Hx' Hg)
    as (ss & ct & -> & Hd & Hct & _ & _). sbind.
  destruct (derived_key_ok (HandshakeSecret.as_bytes ss) DOMAIN_SEPARATOR) as (key & Hk & Lk).
  rewrite Hk. sbind. destruct (kem_nonce_ok (E:=ProtocolError.t) ct) as (nonce & Hn & Ln).
  rewrite Hn. sbind. unfold MAX_USERNAME_LEN, MAX_PASSWORD_LEN in *.
  destruct (seal_vec_ok key nonce (HybridCiphertext.to_bytes ct) (username ++ [0] ++ password))
    as (sealed & -> & Sb & Sl & So); [| |done|done|].
  { rewrite !bytes_ok_app. split_and!; [done|by_decide|done]. }
  { autorewrite with len. unfold MAX_SEAL. lia. }
  sbind. eexists. split; [done|]. split.
  { split_and!; [done|done|]. cbn [encrypted_payload]. rewrite Sl. autorewrite with len.
    unfold MAX_CREDENTIALS_PAYLOAD_LEN, TAG_SIZE. lia. }
  intros u p Hs Hnz Vu Vp Lu Lp. unfold decrypt; cbn [ciphertext encrypted_payload].
  rewrite Hd. sbind. rewrite Hk. sbind. rewrite Hn. sbind. rewrite So. sbind. rewrite Hs.
  rewrite position_zero_app by done. sbind.
  rewrite (range_rest_at _ _ _ _ _ (rest_at_start _)) by lia. sbind.
  rewrite (range_rest_at_end _ (len u + 1) p) by (exists (u ++ [0]); by rewrite <- app_assoc, len_app).
  sbind. unfold from_utf8. rewrite Vu, Vp. sbind. unfold MAX_USERNAME_LEN, MAX_PASSWORD_LEN.
  do 2 decide_ltb. done.
Qed.

End Lemmas.

End EncryptedCredentials.

Module HandshakeInit.

Record t := mk {
  client_ephemeral_pk : HybridPublicKey.t;
  client_random : list Z;
  security_level : SecurityLevel.t;
  credentials : option EncryptedCredentials.t;
}.

#[global] Instance t_eq_dec : EqDecision t.
Proof. solve_decision. Defined.

(** [random] is what [thread_rng().fill_bytes] writes. *)
Definition with_security_level (random : list Z) (client_ephemeral_pk : HybridPublicKey.t)
    (security_level : SecurityLevel.t) : t :=
  mk client_ephemeral_pk random security_level None.

Definition new (random : list Z) (client_ephemeral_pk : HybridPublicKey.t) : t :=
  with_security_level random client_ephemeral_pk SecurityLevel.default.

Section Crypto.
Context {R : RingAead} {D : RingDigest} {K : KemPrimitives} {H : Hkdf}.

Definition with_credentials (random x25519_rng mlkem_rng : list Z)
    (client_ephemeral_pk : HybridPublicKey.t) (security_level : SecurityLevel.t)
    (username password : list Z) (server_kem_pk : HybridPublicKey.t)
    : result ProtocolError.t t :=
  let? credentials :=
    EncryptedCredentials.encrypt x25519_rng mlkem_rng username password server_kem_pk in
  Ok (mk client_ephemeral_pk random security_level (Some credentials)).

Definition add_credentials (i : t) (x25519_rng mlkem_rng username password : list Z)
    (server_kem_pk : HybridPublicKey.t) : result ProtocolError.t t :=
  let? credentials :=
    EncryptedCredentials.encrypt x25519_rng mlkem_rng username password server_kem_pk in
  Ok (mk (client_ephemeral_pk i) (client_random i) (security_level i) (Some credentials)).

End Crypto.

Definition has_credentials (i : t) : bool :=
  match credentials i with Some _ => true | None => false end.

(** The credentials flag and data. *)
Definition credentials_block (credentials : option EncryptedCredentials.t) : list Z :=
  match credentials with
  | Some c => [1] ++ EncryptedCredentials.to_bytes c
  | None => [0]
  end.

Definition to_bytes (i : t) : list Z :=
  [SecurityLevel.as_u8 (security_level i)]
  ++ HybridPublicKey.to_bytes_raw (client_ephemeral_pk i) ++ client_random i
  ++ credentials_block (credentials i).

Definition invalid_pk (_ : CryptoError.t) : ProtocolError.t :=
  ProtocolError.HandshakeFailed "invalid public key".

Definition from_bytes (bytes : list Z) : result ProtocolError.t t :=
  if len bytes =? 0 then Err (ProtocolError.PacketTooShort 1 0)
  else
    let? b0 := index bytes 0 in
    let? security_level := ok_or
      (ProtocolError.HandshakeFailed ("invalid security level: " ++ dec b0))
      (SecurityLevel.from_u8 b0) in
    let pk_size := SecurityLevel.hybrid_public_key_size security_level in
    let min_size := 1 + pk_size + 32 + 1 in
    if len bytes <? min_size then
      let legacy_size := 1 + pk_size + 32 in
      if legacy_size <=? len bytes then
        let? s := range bytes 1 (pk_size + 1) in
        let? client_ephemeral_pk :=
          map_err invalid_pk (HybridPublicKey.from_bytes_with_level s security_level) in
        let? client_random := range bytes (1 + pk_size) legacy_size in
        Ok (mk client_ephemeral_pk client_random security_level None)
      else Err (ProtocolError.PacketTooShort min_size (len bytes))
    else
      let? s := range bytes 1 (pk_size + 1) in
      let? client_ephemeral_pk :=
        map_err invalid_pk (HybridPublicKey.from_bytes_with_level s security_level) in
      let? client_random := range bytes (1 + pk_size) (1 + pk_size + 32) in
      let? flag := index bytes (1 + pk_size + 32) in
      let? credentials :=
        if negb (flag =? 0) then
          let creds_offset := 1 + pk_size + 32 + 1 in
          if len bytes <=? creds_offset then
            Err (ProtocolError.PacketTooShort (creds_offset + 1) (len bytes))
          else
            let? s := range bytes creds_offset (len bytes) in
            let? c := EncryptedCredentials.from_bytes s security_level in
            Ok (Some c)
        else Ok None in
      Ok (mk client_ephemeral_pk client_random security_level credentials).

Definition wf (i : t) : Prop :=
  HybridPublicKey.wf (client_ephemeral_pk i) /\
  HybridPublicKey.security_level (client_ephemeral_pk i) = security_level i /\
  bytes_ok (client_random i) /\ len (client_random i) = 32 /\
  match credentials i with Some c => EncryptedCredentials.wf c | None => True end.

Lemma size_eq l : SecurityLevel.hybrid_public_key_size l = HybridPublicKey.size_for_level l.
Proof. by destruct l. Qed.

Lemma init_roundtrip i r : wf i -> from_bytes (to_bytes i ++ r) = Ok i.
Proof.
  intros (Hpk & Hl & _ & Hr & Hc). destruct i as [pk rnd l cr].
  cbn [client_ephemeral_pk client_random security_level credentials] in *.
  unfold to_bytes; cbn [client_ephemeral_pk client_random security_level credentials].
  pose proof (HybridPublicKey.pk_len_to_bytes_raw pk Hpk) as Lp. rewrite Hl, <- size_eq in Lp.
  rewrite <- !app_assoc. set (buf := _ ++ _). start_at buf.
  unfold buf at 2 in R. unfold buf at 2 in HL. autorewrite with len in HL.
  rewrite Lp, Hr in HL.
  assert (1 <= len (credentials_block cr)) as Ht
    by (destruct cr; cbn [credentials_block]; autorewrite with len; len_pos; lia).
  pose proof (len_nonneg r). pose proof (SecurityLevel.sizes_pos l).
  assert (0 < SecurityLevel.hybrid_public_key_size l) by (by destruct l).
  unfold from_bytes. check_len. eat. rewrite SecurityLevel.level_from_u8_as_u8. sbind.
  check_len. rewrite <- Hl in *. eat. rewrite <- (app_nil_r (HybridPublicKey.to_bytes_raw pk)).
  rewrite HybridPublicKey.pk_from_bytes_with_level_raw by done. sbind. eat.
  destruct cr as [c|]; cbn [credentials_block] in *; [rewrite <- app_assoc in R|]; eat;
    cbn [Z.eqb negb]; cbv iota.
  - assert (4 <= len (EncryptedCredentials.to_bytes c)).
    { unfold EncryptedCredentials.to_bytes. autorewrite with len. len_pos. lia. }
    autorewrite with len in HL. check_len. eat.
    by rewrite (codec_roundtrip (dec:=fun b => EncryptedCredentials.from_bytes b _)).
  - done.
Qed.

Lemma init_bytes i : wf i -> bytes_ok (to_bytes i).
Proof.
  intros ((Hx & Hm & _) & _ & Hb & _ & Hc). unfold to_bytes, HybridPublicKey.to_bytes_raw.
  rewrite !bytes_ok_app. split_and!; try done.
  - constructor; [apply SecurityLevel.level_as_u8_u8|constructor].
  - destruct (credentials i); cbn [credentials_block]; [|by_decide]. apply bytes_ok_app. split; [by_decide|].
    by apply (codec_bytes (dec:=fun b => EncryptedCredentials.from_bytes b (security_level i))).
Qed.

(** The credentials block, in the decoder's terms. *)
Lemma init_sound b i : bytes_ok b -> from_bytes b = Ok i -> wf i.
Proof.
  intros Hb H. unfold from_bytes in H. do 3 step_in H. step_in H.
  - do 4 (step_in H; b2p). injection H as <-. access_facts.
    apply HybridPublicKey.pk_from_bytes_with_level_inv in Hs2 as (? & ? & _); [|done].
    unfold wf; cbn [client_ephemeral_pk client_random security_level credentials].
    split_and!; done || lia.
  - do 4 (step_in H; b2p). step_call H as Ec. injection H as <-. access_facts.
    apply HybridPublicKey.pk_from_bytes_with_level_inv in Hs2 as (? & ? & _); [|done].
    unfold wf; cbn [client_ephemeral_pk client_random security_level credentials].
    split_and!; try (done || lia).
    destruct (negb (a4 =? 0)); [|by injection Ec as <-]. step_in Ec. step_in Ec.
    step_call Ec as Ed. injection Ec as <-. access_facts.
    by apply (codec_sound (dec:=fun b => EncryptedCredentials.from_bytes b a0)) in Ed.
Qed.

Lemma init_total b : bytes_ok b -> from_bytes b <> Panic.
Proof.
  intros Hb H. unfold from_bytes in H. step_in H. b2p. pose proof (len_nonneg b).
  step_in H; [|no_abort]. step_in H; [|no_abort].
  assert (0 < SecurityLevel.hybrid_public_key_size a0) by (by destruct a0).
  step_in H; b2p; [step_in H; b2p|]; (step_in H; [|no_abort]); (step_in H;
    [|access_facts; by apply HybridPublicKey.pk_from_bytes_with_level_no_panic in Hs2]).
  - step_in H. no_abort.
  - step_in H; [|no_abort]. step_in H; [|no_abort]. step_call H as Ec.
    destruct (negb (a4 =? 0)); [|done]. step_in Ec. b2p. step_in Ec; [|no_abort].
    step_call Ec as Ed. access_facts.
    by apply (codec_total (dec:=fun b => EncryptedCredentials.from_bytes b a0)) in Ed.
Qed.

#[global] Instance init_codec_laws : Codec wf to_bytes from_bytes.
Proof. split; auto using init_roundtrip, init_bytes, init_total. apply init_sound. Qed.

End HandshakeInit.

Module EncryptedHandshakeInit.

Record t := mk {
  security_level : SecurityLevel.t;
  encapsulation_ciphertext : HybridCiphertext.t;
  encrypted_payload : list Z;
}.

#[global] Instance t_eq_dec : EqDecision t.
Proof. solve_decision. Defined.

Definition DOMAIN_SEPARATOR : list Z := bytes_of_string "HPN-IDENTITY-HIDING-V1".

Definition failed (what : string) (e : CryptoError.t) : ProtocolError.t :=
  ProtocolError.HandshakeFailed ("identity hiding " ++ what ++ " failed: " ++ CryptoError.debug e).

(** The associated data: level and ciphertext. *)
Definition aad (security_level : SecurityLevel.t) (ciphertext : HybridCiphertext.t) : list Z :=
  [SecurityLevel.as_u8 security_level] ++ HybridCiphertext.to_bytes ciphertext.

Section Crypto.
Context {R : RingAead} {D : RingDigest} {K : KemPrimitives} {H : Hkdf}.

Definition encrypt (x25519_rng mlkem_rng : list Z) (inner : HandshakeInit.t)
    (server_kem_pk : HybridPublicKey.t) : result ProtocolError.t t :=
  let? (handshake_secret, ciphertext) := map_err (failed "encapsulation")
    (HybridKem.encapsulate x25519_rng mlkem_rng server_kem_pk) in
  let? encryption_key := map_err (failed "key derivation")
    (hkdf_expand (HandshakeSecret.as_bytes handshake_secret) DOMAIN_SEPARATOR zero_key) in
  let inner_bytes := HandshakeInit.to_bytes inner in
  let? nonce := kem_nonce ciphertext in
  let? encrypted_payload := map_err (failed "encryption")
    (seal_vec encryption_key nonce (aad (HandshakeInit.security_level inner) ciphertext)
       inner_bytes) in
  Ok (mk (HandshakeInit.security_level inner) ciphertext encrypted_payload).

Definition decrypt (e : t) (server_kem_sk : HybridSecretKey.t)
    : result ProtocolError.t HandshakeInit.t :=
  let? handshake_secret := map_err (failed "decapsulation")
    (HybridKem.decapsulate server_kem_sk (encapsulation_ciphertext e)) in
  let? encryption_key := map_err (failed "key derivation")
    (hkdf_expand (HandshakeSecret.as_bytes handshake_secret) DOMAIN_SEPARATOR zero_key) in
  let? nonce := kem_nonce (encapsulation_ciphertext e) in
  let? decrypted := map_err (failed "decryption")
    (open_vec encryption_key nonce (aad (security_level e) (encapsulation_ciphertext e))
       (encrypted_payload e)) in
  HandshakeInit.from_bytes decrypted.

End Crypto.

Definition to_bytes (e : t) : list Z :=
  let ct_bytes := HybridCiphertext.to_bytes (encapsulation_ciphertext e) in
  let ct_len := Z.min (len ct_bytes) U16_MAX in
  [SecurityLevel.as_u8 (security_level e)] ++ be_bytes 2 (as_uint 16 ct_len)
  ++ slice ct_bytes 0 ct_len ++ encrypted_payload e.

Definition MAX_HYBRID_CIPHERTEXT_LEN : Z := 2048.

Definition from_bytes (bytes : list Z) : result ProtocolError.t t :=
  if len bytes <? 3 then Err (ProtocolError.PacketTooShort 3 (len bytes))
  else
    let? b0 := index bytes 0 in
    let? security_level := ok_or
      (ProtocolError.HandshakeFailed ("invalid security level: " ++ dec b0))
      (SecurityLevel.from_u8 b0) in
    let? ct_len := read_u16 bytes 1 in
    if MAX_HYBRID_CIPHERTEXT_LEN <? ct_len then
      Err (ProtocolError.HandshakeFailed
             ("ciphertext_len " ++ dec ct_len ++ " exceeds maximum "
                ++ dec MAX_HYBRID_CIPHERTEXT_LEN))
    else if len bytes <? 3 + ct_len then
      Err (ProtocolError.PacketTooShort (3 + ct_len) (len bytes))
    else
      let? s := range bytes 3 (3 + ct_len) in
      let? encapsulation_ciphertext := map_err
        (fun _ => ProtocolError.HandshakeFailed "invalid encapsulation ciphertext")
        (HybridCiphertext.from_bytes s) in
      let? encrypted_payload := range bytes (3 + ct_len) (len bytes) in
      if len encrypted_payload <? TAG_SIZE then
        Err (ProtocolError.PacketTooShort TAG_SIZE (len encrypted_payload))
      else Ok (mk security_level encapsulation_ciphertext encrypted_payload).

Definition wf (e : t) : Prop :=
  HybridCiphertext.wf (encapsulation_ciphertext e) /\
  bytes_ok (encrypted_payload e) /\ TAG_SIZE <= len (encrypted_payload e).

(** The payload takes the rest of the packet, so nothing may follow. *)
Lemma encrypted_init_roundtrip e : wf e -> from_bytes (to_bytes e) = Ok e.
Proof.
  intros (Hc & _ & Hp). destruct e as [l ct pl].
  cbn [security_level encapsulation_ciphertext encrypted_payload] in *.
  unfold to_bytes; cbn [security_level encapsulation_ciphertext encrypted_payload].
  pose proof (HybridCiphertext.len_to_bytes_ct ct Hc).
  set (cb := HybridCiphertext.to_bytes ct) in *. unfold U16_MAX, TAG_SIZE in *.
  rewrite Z.min_l by lia. unfold as_uint. rewrite Z.mod_small by lia. rewrite slice_all.
  set (buf := _ ++ _). start_at buf. unfold buf at 2 in R. unfold buf at 2 in HL.
  autorewrite with len in HL. unfold from_bytes, MAX_HYBRID_CIPHERTEXT_LEN, TAG_SIZE.
  check_len. eat. rewrite SecurityLevel.level_from_u8_as_u8. sbind. eat. do 2 check_len. eat.
  rewrite <- (app_nil_r cb) at 1. unfold cb at 1. rewrite HybridCiphertext.ct_from_bytes by done.
  sbind. eat. by check_len.
Qed.

Lemma encrypted_init_sound b e : bytes_ok b -> from_bytes b = Ok e -> wf e.
Proof.
  intros Hb H. unfold from_bytes in H. repeat (step_in H; b2p). injection H as <-. access_facts.
  unfold wf, TAG_SIZE in *. cbn [encrypted_payload encapsulation_ciphertext].
  split_and!; [|done|lia]. by eapply HybridCiphertext.ct_from_bytes_wf; [|eassumption].
Qed.

Lemma encrypted_init_total b : bytes_ok b -> from_bytes b <> Panic.
Proof.
  intros Hb H. unfold from_bytes in H. do 7 (step_in H; b2p; try no_abort).
  step_call H as Ec; [|access_facts; by apply HybridCiphertext.ct_from_bytes_no_panic in Ec].
  repeat (step_in H; b2p); no_abort.
Qed.

Section Lemmas.
Context {R : RingAead} {RL : RingAeadLaws} {D : RingDigest} {DL : RingDigestLaws}.
Context {K : KemPrimitives} {KL : KemLaws} {H : Hkdf} {HL : HkdfLaws}.

Lemma len_init i : HandshakeInit.wf i -> 1250 <= len (HandshakeInit.to_bytes i) <= 10000.
Proof.
  intros (Hpk & _ & _ & Hr & Hc). unfold HandshakeInit.to_bytes. autorewrite with len.
  rewrite (HybridPublicKey.pk_len_to_bytes_raw _ Hpk), Hr, HybridPublicKey.pk_size_for_level_spec.
  assert (1184 <= SecurityLevel.mlkem_public_key_size (HybridPublicKey.security_level
    (HandshakeInit.client_ephemeral_pk i)) <= 1568) by (by destruct (HybridPublicKey.security_level _)).
  destruct (HandshakeInit.credentials i) as [c|]; cbn [HandshakeInit.credentials_block];
    autorewrite with len; [|lia].
  destruct Hc as (Hct & _ & Hl). apply HybridCiphertext.len_to_bytes_ct in Hct.
  unfold EncryptedCredentials.to_bytes, EncryptedCredentials.MAX_CREDENTIALS_PAYLOAD_LEN in *.
  autorewrite with len. pose proof (len_nonneg (EncryptedCredentials.encrypted_payload c)). lia.
Qed.

(** Hiding an initiation for the owner of a generated key. *)
Lemma hidden_encrypt_ok x seed level x' rnd sk pk i :
  len x = 32 -> len x' = 32 ->
  HybridKem.generate_keypair_with_level x seed level = Ok (sk, pk) -> HandshakeInit.wf i ->
  exists e, encrypt x' rnd i pk = Ok e /\ wf e /\ decrypt e sk = Ok i /\
    security_level e = HandshakeInit.security_level i /\
    len (encrypted_payload e) = len (HandshakeInit.to_bytes i) + TAG_SIZE.
Proof.
  intros Hx Hx' Hg Hi. unfold encrypt.
  destruct (HybridKem.encapsulate_agrees x seed level x' rnd sk pk Hx Hx' Hg)
    as (ss & ct & -> & Hd & Hct & _ & _). sbind.
  destruct (derived_key_ok (HandshakeSecret.as_bytes ss) DOMAIN_SEPARATOR) as (key & Hk & Lk).
  rewrite Hk. sbind. destruct (kem_nonce_ok (E:=ProtocolError.t) ct) as (nonce & Hn & Ln).
  rewrite Hn. sbind. pose proof (len_init i Hi).
  destruct (seal_vec_ok key nonce (aad (HandshakeInit.security_level i) ct)
    (HandshakeInit.to_bytes i)) as (sealed & -> & Sb & Sl & So); [| |done|done|].
  { by apply HandshakeInit.init_bytes. }
  { unfold MAX_SEAL. lia. }
  sbind. eexists. split; [done|]. split.
  { split_and!; [done|done|]. cbn [encrypted_payload]. unfold TAG_SIZE in *. lia. }
  split; [|split; [done|cbn [encrypted_payload]; lia]].
  unfold decrypt; cbn [security_level encapsulation_ciphertext encrypted_payload].
  rewrite Hd. sbind. rewrite Hk. sbind. rewrite Hn. sbind. rewrite So. sbind.
  rewrite <- (app_nil_r (HandshakeInit.to_bytes i)). by apply HandshakeInit.init_roundtrip.
Qed.

End Lemmas.

End EncryptedHandshakeInit.

(** * Properties *)

(** The format without the credentials flag. *)
Lemma legacy_accepted i :
  HandshakeInit.wf i -> HandshakeInit.credentials i = None ->
  HandshakeInit.from_bytes
    ([SecurityLevel.as_u8 (HandshakeInit.security_level i)]
     ++ HybridPublicKey.to_bytes_raw (HandshakeInit.client_ephemeral_pk i)
     ++ HandshakeInit.client_random i) = Ok i.
Proof.
  intros (Hpk & Hl & _ & Hr & _) Hc. destruct i as [pk rnd l cr].
  cbn [HandshakeInit.client_ephemeral_pk HandshakeInit.client_random
       HandshakeInit.security_level HandshakeInit.credentials] in *. subst cr.
  pose proof (HybridPublicKey.pk_len_to_bytes_raw pk Hpk) as Lp.
  rewrite Hl, <- HandshakeInit.size_eq in Lp. set (buf := _ ++ _). start_at buf.
  unfold buf at 2 in R. unfold buf at 2 in HL. autorewrite with len in HL. rewrite Lp, Hr in HL.
  assert (0 < SecurityLevel.hybrid_public_key_size l) by (by destruct l).
  unfold HandshakeInit.from_bytes. check_len. eat. rewrite SecurityLevel.level_from_u8_as_u8. sbind.
  do 2 check_len. rewrite <- Hl in *. eat. rewrite <- (app_nil_r (HybridPublicKey.to_bytes_raw pk)).
  rewrite HybridPublicKey.pk_from_bytes_with_level_raw by done. sbind.
  rewrite <- (app_nil_r rnd) in R. by eat.
Qed.

Section Secrecy.
Context {R : RingAead} {RL : RingAeadLaws} {D : RingDigest} {DL : RingDigestLaws}.
Context {K : KemPrimitives} {KL : KemLaws} {H : Hkdf} {HL : HkdfLaws}.

(** Identity hiding round trips: an initiation hidden with the public key
    of a generated server keypair of either level can be encrypted, survives
    the wire, and is recovered by the server's secret key. *)
Lemma identity_hiding_roundtrip x seed level x' rnd sk pk i :
  len x = 32 -> len x' = 32 ->
  HybridKem.generate_keypair_with_level x seed level = Ok (sk, pk) -> HandshakeInit.wf i ->
  exists e,
    EncryptedHandshakeInit.encrypt x' rnd i pk = Ok e /\
    EncryptedHandshakeInit.from_bytes (EncryptedHandshakeInit.to_bytes e) = Ok e /\
    EncryptedHandshakeInit.decrypt e sk = Ok i.
Proof.
  intros Hx Hx' Hg Hi.
  destruct (EncryptedHandshakeInit.hidden_encrypt_ok x seed level x' rnd sk pk i) as (e & He & Hw & Hd & _);
    [done..|].
  exists e. split; [done|]. split; [by apply EncryptedHandshakeInit.encrypted_init_roundtrip|done].
Qed.

(** What a server recovers from a hidden initiation is bound to it: it was
    sealed, under the key derived from this very ciphertext, with the level
    and the ciphertext as associated data; changing either makes decryption
    fail unless the sender sealed the message again. *)
Lemma identity_hiding_bound e sk i :
  EncryptedHandshakeInit.wf e -> EncryptedHandshakeInit.decrypt e sk = Ok i ->
  exists secret key k nonce n inner_bytes c tag,
    HybridKem.decapsulate sk (EncryptedHandshakeInit.encapsulation_ciphertext e) = Ok secret /\
    hkdf_expand secret EncryptedHandshakeInit.DOMAIN_SEPARATOR zero_key = Ok key /\
    LessSafeKey_new key = Some k /\
    kem_nonce (E:=ProtocolError.t) (EncryptedHandshakeInit.encapsulation_ciphertext e) = Ok nonce /\
    try_assume_unique_for_key nonce = Some n /\
    seal_in_place_separate_tag k n
      ([SecurityLevel.as_u8 (EncryptedHandshakeInit.security_level e)]
       ++ HybridCiphertext.to_bytes (EncryptedHandshakeInit.encapsulation_ciphertext e))
      inner_bytes = Some (c, tag) /\
    EncryptedHandshakeInit.encrypted_payload e = c ++ tag /\
    HandshakeInit.from_bytes inner_bytes = Ok i.
Proof.
  intros (_ & Hb & _) Hd. unfold EncryptedHandshakeInit.decrypt in Hd.
  step_call Hd as E1. step_call Hd as E2. step_call Hd as E3. step_call Hd as E4.
  apply map_err_ok in E1, E2, E4. apply open_vec_inv in E4 as (k & n & c & tag & ? & ? & ? & ?); [|done].
  exists a, a0, k, a1, n, a2, c, tag. by split_and!.
Qed.

(** Encrypted credentials round trip: a user name without a zero byte and a
    password, both UTF-8 and within their limits, can be encrypted for a
    generated server keypair, survive the wire, and are recovered exactly. *)
Lemma credentials_roundtrip x seed level x' rnd sk pk username password l :
  len x = 32 -> len x' = 32 ->
  HybridKem.generate_keypair_with_level x seed level = Ok (sk, pk) ->
  bytes_ok username -> bytes_ok password ->
  utf8_valid username = true -> utf8_valid password = true ->
  len username <= MAX_USERNAME_LEN -> len password <= MAX_PASSWORD_LEN ->
  Forall (fun b => b <> 0) username ->
  exists c,
    EncryptedCredentials.encrypt x' rnd username password pk = Ok c /\
    EncryptedCredentials.from_bytes (EncryptedCredentials.to_bytes c) l = Ok c /\
    EncryptedCredentials.decrypt c sk = Ok (DecryptedCredentials.mk username password).
Proof.
  intros Hx Hx' Hg Hub Hpb Vu Vp Lu Lp Hnz.
  destruct (EncryptedCredentials.credentials_encrypt_ok x seed level x' rnd sk pk username password)
    as (c & He & Hw & Hd); [done..|].
  exists c. split; [done|]. split; [|by apply Hd].
  by apply (codec_roundtrip (dec:=fun b => EncryptedCredentials.from_bytes b l) c []) in Hw;
    rewrite app_nil_r in Hw.
Qed.

(** What a client encrypts for the server arrives.  For a generated server
    keypair of either level, an initiation hidden with its public key, and a
    user name without a zero byte with a password, both UTF-8 and within their
    limits, can be encrypted, survive the wire, and are recovered exactly with
    the secret key. *)
Lemma encrypted_for_server x seed level x' rnd sk pk :
  len x = 32 -> len x' = 32 ->
  HybridKem.generate_keypair_with_level x seed level = Ok (sk, pk) ->
  (forall i, HandshakeInit.wf i ->
     exists e,
       EncryptedHandshakeInit.encrypt x' rnd i pk = Ok e /\
       EncryptedHandshakeInit.from_bytes (EncryptedHandshakeInit.to_bytes e) = Ok e /\
       EncryptedHandshakeInit.decrypt e sk = Ok i) /\
  (forall username password l,
     bytes_ok username -> bytes_ok password ->
     utf8_valid username = true -> utf8_valid password = true ->
     len username <= MAX_USERNAME_LEN -> len password <= MAX_PASSWORD_LEN ->
     Forall (fun b => b <> 0) username ->
     exists c,
       EncryptedCredentials.encrypt x' rnd username password pk = Ok c /\
       EncryptedCredentials.from_bytes (EncryptedCredentials.to_bytes c) l = Ok c /\
       EncryptedCredentials.decrypt c sk = Ok (DecryptedCredentials.mk username password)).
Proof.
  intros Hx Hx' Hg. split.
  - intros i. by apply (identity_hiding_roundtrip x seed level).
  - intros username password l. by apply (credentials_roundtrip x seed level).
Qed.

(** The separator is not escaped: a user name with a zero byte is accepted and
    comes back cut at it, the rest in front of the password. *)
Lemma credentials_zero_byte x seed level x' rnd sk pk u v password :
  len x = 32 -> len x' = 32 ->
  HybridKem.generate_keypair_with_level x seed level = Ok (sk, pk) ->
  bytes_ok u -> bytes_ok v -> bytes_ok password ->
  utf8_valid u = true -> utf8_valid (v ++ [0] ++ password) = true ->
  len (u ++ [0] ++ v) <= MAX_USERNAME_LEN -> len (v ++ [0] ++ password) <= MAX_PASSWORD_LEN ->
  Forall (fun b => b <> 0) u ->
  exists c,
    EncryptedCredentials.encrypt x' rnd (u ++ [0] ++ v) password pk = Ok c /\
    EncryptedCredentials.decrypt c sk =
      Ok (DecryptedCredentials.mk u (v ++ [0] ++ password)).
Proof.
  intros Hx Hx' Hg Hub Hvb Hpb Vu Vp Lu Lp Hnz. autorewrite with len in Lu, Lp.
  pose proof (len_nonneg u). pose proof (len_nonneg v).
  destruct (EncryptedCredentials.credentials_encrypt_ok x seed level x' rnd sk pk (u ++ [0] ++ v) password)
    as (c & He & Hw & Hd); [done|done|done| |done| | |].
  - rewrite !bytes_ok_app. split_and!; [done|by_decide|done].
  - autorewrite with len. lia.
  - lia.
  - exists c. split; [done|]. apply Hd; try done; [by rewrite <- !app_assoc|lia|].
    autorewrite with len. lia.
Qed.

End Secrecy.

(** * Witnesses *)

Definition example_init : HandshakeInit.t :=
  HandshakeInit.with_security_level (replicate 32 9)
    (HybridPublicKey.mk (replicate 32 4) (replicate 1184 5) SecurityLevel.Level3)
    SecurityLevel.Level3.

Lemma example_init_wf : HandshakeInit.wf example_init.
Proof. unfold HandshakeInit.wf. split_and!; by_decide || done. Qed.

