(* ===== verification/Response.v ===== *)
(** The handshake response and the rekey messages of
    hpn-core/src/protocol/messages.rs. *)

From S2P Require Import Prelude Types Codec Wire Tunnel Keys Signature Kem.

Module HandshakeResponse.

Record t := mk {
  session_id : Z;
  server_ciphertext : HybridCiphertext.t;
  server_static_pk : list Z;
  signature : MlDsaSignature.t;
  server_random : list Z;
  config : TunnelConfig.t;
  key_confirmation : list Z;
  kdf_timestamp : Z;
}.

Definition session_id_from_bytes (bytes : list Z) : result ProtocolError.t Z :=
  if len bytes <? 8 then Err (ProtocolError.PacketTooShort 8 (len bytes))
  else
    let? session_id_bytes := range bytes 0 8 in
    Ok (SessionId.from_bytes session_id_bytes).

Definition to_bytes (r : t) : list Z :=
  let config_bytes := TunnelConfig.to_bytes (config r) in
  let config_len := Z.min (len config_bytes) U32_MAX in
  SessionId.to_bytes (session_id r)
  ++ HybridCiphertext.to_bytes_raw (server_ciphertext r)
  ++ server_static_pk r ++ MlDsaSignature.bytes (signature r) ++ server_random r
  ++ be_bytes 4 (as_uint 32 config_len) ++ slice config_bytes 0 config_len
  ++ key_confirmation r ++ be_bytes 8 (kdf_timestamp r).

Definition MAX_CONFIG_LEN : Z := 4096.

Definition failed {A} (what : string) (_ : A) : ProtocolError.t := ProtocolError.HandshakeFailed what.

(** [if bytes.len() < end { return Err(..) }], then the slice. *)
Definition checked_range (bytes : list Z) (a b : Z) : result ProtocolError.t (list Z) :=
  if len bytes <? b then Err (ProtocolError.PacketTooShort b (len bytes))
  else range bytes a b.

Definition from_bytes_with_level (bytes : list Z) (level : SecurityLevel.t)
    : result ProtocolError.t t :=
  let ct_size := HybridCiphertext.size_for_level level in
  let pk_size := MlDsaPublicKey.size_for_level level in
  let sig_size := MlDsaSignature.size_for_level level in
  let offset := 0 in
  let? session_id_bytes := checked_range bytes offset (offset + 8) in
  let session_id := SessionId.from_bytes session_id_bytes in
  let offset := offset + 8 in
  let? s := checked_range bytes offset (offset + ct_size) in
  let? server_ciphertext := map_err (failed "invalid ciphertext")
    (HybridCiphertext.from_bytes_with_level s level) in
  let offset := offset + ct_size in
  let? s := checked_range bytes offset (offset + pk_size) in
  let? server_static_pk := map_err (failed "invalid server public key")
    (MlDsaPublicKey.from_bytes s) in
  let offset := offset + pk_size in
  let? s := checked_range bytes offset (offset + sig_size) in
  let? signature := ok_or
    (ProtocolError.HandshakeFailed
       ("signature size mismatch for level " ++ SecurityLevel.debug level))
    (MlDsaSignature.from_bytes_with_level s level) in
  let offset := offset + sig_size in
  let? server_random := checked_range bytes offset (offset + 32) in
  let offset := offset + 32 in
  if len bytes <? offset + 4 then Err (ProtocolError.PacketTooShort (offset + 4) (len bytes))
  else
    let? config_len := read_u32 bytes offset in
    let offset := offset + 4 in
    if MAX_CONFIG_LEN <? config_len then
      Err (ProtocolError.HandshakeFailed
             ("config_len " ++ dec config_len ++ " exceeds maximum " ++ dec MAX_CONFIG_LEN))
    else
      let? s := checked_range bytes offset (offset + config_len) in
      let? config := TunnelConfig.from_bytes s in
      let offset := offset + config_len in
      let? key_confirmation := checked_range bytes offset (offset + 32) in
      let offset := offset + 32 in
      if len bytes <? offset + 8 then Err (ProtocolError.PacketTooShort (offset + 8) (len bytes))
      else
        let? kdf_timestamp := read_u64 bytes offset in
        Ok (mk session_id server_ciphertext server_static_pk signature server_random config
              key_confirmation kdf_timestamp).

Definition from_bytes (bytes : list Z) : result ProtocolError.t t :=
  from_bytes_with_level bytes SecurityLevel.Level3.

(** A response of a session at [level]. *)
Definition wf (level : SecurityLevel.t) (r : t) : Prop :=
  u64 (session_id r) /\
  HybridCiphertext.wf (server_ciphertext r) /\
  HybridCiphertext.security_level (server_ciphertext r) = level /\
  bytes_ok (server_static_pk r) /\
  len (server_static_pk r) = MlDsaPublicKey.size_for_level level /\
  MlDsaSignature.wf (signature r) /\ MlDsaSignature.security_level (signature r) = level /\
  bytes_ok (server_random r) /\ len (server_random r) = 32 /\ TunnelConfig.wf (config r) /\
  bytes_ok (key_confirmation r) /\ len (key_confirmation r) = 32 /\ u64 (kdf_timestamp r).

Lemma checked_range_at buf o a b s r :
  rest_at buf o (s ++ r) -> a = o -> b = o + len s -> checked_range buf a b = Ok s.
Proof.
  intros R -> ->. unfold checked_range. pose proof (rest_at_len _ _ _ R) as HL.
  rewrite len_app in HL. pose proof (len_nonneg r). decide_ltb. by eapply range_rest_at.
Qed.

Lemma checked_range_facts b x y s :
  bytes_ok b -> checked_range b x y = Ok s -> bytes_ok s /\ len s = y - x /\ 0 <= x <= y /\ y <= len b.
Proof. intros Hb H. unfold checked_range in H. step_in H. by eapply range_facts. Qed.

Lemma checked_range_panic b x y : checked_range b x y = Panic -> 0 <= x <= y -> False.
Proof. intros H ?. unfold checked_range in H. step_in H. b2p. in_range. Qed.

(** [eat] for checked slices. *)
Ltac eat_checked :=
  match goal with
  | R : rest_at ?buf ?o (?s ++ ?r) |- context [checked_range ?buf ?a ?b] =>
      rewrite (checked_range_at buf o a b s r R) by offsets; apply rest_at_app in R; sbind
  end.

Lemma pk_size_ok level pk :
  len pk = MlDsaPublicKey.size_for_level level -> MlDsaPublicKey.from_bytes pk = Ok pk.
Proof. intros H. unfold MlDsaPublicKey.from_bytes. rewrite H. by destruct level. Qed.

Lemma response_roundtrip level m r :
  wf level m -> from_bytes_with_level (to_bytes m ++ r) level = Ok m.
Proof.
  intros (Hsid & Hct & Hctl & _ & Hpk & [_ Hsig] & Hsigl & _ & Hrnd & Hcfg & _ & Hkc & Hts).
  destruct m as [sid ct pk [sb sl] rnd cfg kc ts].
  cbn [session_id server_ciphertext server_static_pk signature server_random config
       key_confirmation kdf_timestamp MlDsaSignature.bytes MlDsaSignature.security_level] in *.
  subst sl. pose proof (HybridCiphertext.ct_len_to_bytes_raw ct Hct) as Lct. rewrite Hctl in Lct.
  unfold to_bytes; cbn [session_id server_ciphertext server_static_pk signature server_random config
       key_confirmation kdf_timestamp MlDsaSignature.bytes].
  pose proof (TunnelConfig.len_to_bytes cfg Hcfg) as Lcf.
  set (cb := TunnelConfig.to_bytes cfg) in *. unfold U32_MAX.
  rewrite Z.min_l by lia. unfold as_uint. rewrite Z.mod_small by lia. rewrite slice_all.
  unfold SessionId.to_bytes. rewrite <- !app_assoc. set (buf := _ ++ _). start_at buf.
  unfold buf at 2 in R. unfold buf at 2 in HL. autorewrite with len in HL.
  pose proof (len_nonneg r). pose proof (SecurityLevel.sizes_pos level).
  unfold from_bytes_with_level, MAX_CONFIG_LEN. do 2 eat_checked.
  rewrite <- Hctl, <- (app_nil_r (HybridCiphertext.to_bytes_raw ct)).
  rewrite HybridCiphertext.ct_from_bytes_with_level_raw by done. sbind. rewrite Hctl.
  eat_checked. rewrite (pk_size_ok level) by done. sbind. eat_checked.
  rewrite MlDsaSignature.sig_from_bytes_with_level_ok by done. sbind. eat_checked.
  check_len. eat. check_len. eat_checked. rewrite <- (app_nil_r cb) at 1. unfold cb at 1.
  rewrite TunnelConfig.tunnel_roundtrip by done. sbind. eat_checked. check_len. eat.
  unfold SessionId.from_bytes. by rewrite from_be_be_bytes_8.
Qed.

Lemma response_bytes level m : wf level m -> bytes_ok (to_bytes m).
Proof.
  intros (_ & (Hx & Hm & _) & _ & Hpk & _ & [Hs _] & _ & Hr & _ & Hc & Hk & _ & _).
  unfold to_bytes, HybridCiphertext.to_bytes_raw, SessionId.to_bytes.
  apply TunnelConfig.tunnel_bytes in Hc.
  rewrite !bytes_ok_app. split_and!; auto with hpn.
Qed.

(** Facts and aborts of checked slices, besides those of plain accesses. *)
Ltac checked_facts :=
  access_facts;
  repeat match goal with
  | Hb : bytes_ok ?b, H : checked_range ?b _ _ = Ok _ |- _ =>
      apply (checked_range_facts _ _ _ _ Hb) in H as (? & ? & ? & ?)
  end.

Ltac checked_abort :=
  checked_facts;
  match goal with
  | H : checked_range _ _ _ = Panic |- _ => exfalso; apply (checked_range_panic _ _ _ H); lia
  end.

Lemma response_sound level b m :
  bytes_ok b -> from_bytes_with_level b level = Ok m -> wf level m.
Proof.
  intros Hb H. unfold from_bytes_with_level in H.
  step_call H as E1. step_call H as E2. step_call H as E3. step_call H as E4. step_call H as E5.
  step_call H as E6. step_call H as E7. step_call H as E8. step_in H. step_call H as E9. step_in H.
  step_call H as E10. step_call H as E11. step_call H as E12. step_in H. step_call H as E13.
  injection H as <-. checked_facts.
  apply HybridCiphertext.ct_from_bytes_with_level_wf in E3 as [? ?]; [|done].
  apply MlDsaSignature.sig_from_bytes_with_level_inv in E7 as [-> ?].
  unfold MlDsaPublicKey.from_bytes in E5. step_in E5. injection E5 as <-.
  apply TunnelConfig.tunnel_sound in E11; [|done].
  unfold wf, SessionId.from_bytes; cbn [session_id server_ciphertext server_static_pk signature
    server_random config key_confirmation kdf_timestamp MlDsaSignature.security_level].
  split_and!; try (done || lia). by apply (from_be_uint 8); [|lia].
Qed.

Lemma response_total level b : bytes_ok b -> from_bytes_with_level b level <> Panic.
Proof.
  intros Hb H. unfold from_bytes_with_level in H.
  assert (0 < HybridCiphertext.size_for_level level /\ 0 < MlDsaPublicKey.size_for_level level /\
          0 < MlDsaSignature.size_for_level level) as (? & ? & ?) by (by destruct level).
  step_call H as E1; [|checked_abort]. step_call H as E2; [|checked_abort].
  step_call H as E3; [|by apply map_err_panic, HybridCiphertext.ct_from_bytes_with_level_no_panic in E3].
  step_call H as E4; [|checked_abort].
  step_call H as E5;
    [|apply map_err_panic in E5; unfold MlDsaPublicKey.from_bytes in E5; by step_in E5].
  step_call H as E6; [|checked_abort]. step_call H as E7; [|by apply ok_or_panic in E7].
  step_call H as E8; [|checked_abort]. step_in H. b2p. step_call H as E9; [|no_abort].
  step_in H. b2p. pose proof (read_u32_facts _ _ _ Hb E9) as (Hu & _). unfold uint in Hu.
  step_call H as E10; [|checked_abort].
  step_call H as E11; [|checked_facts; by apply TunnelConfig.tunnel_total in E11].
  step_call H as E12; [|checked_abort]. step_in H. b2p. step_call H as E13. no_abort.
Qed.

#[global] Instance response_codec_laws level :
  Codec (wf level) to_bytes (fun b => from_bytes_with_level b level).
Proof.
  split; auto using response_roundtrip, response_total.
  - apply response_bytes.
  - apply response_sound.
Qed.

(** What the relay reads without decoding is the session id of the response. *)
Lemma session_id_prefix level m r :
  wf level m -> session_id_from_bytes (to_bytes m ++ r) = Ok (session_id m).
Proof.
  intros (Hsid & _). unfold to_bytes. rewrite <- app_assoc. start_at
    (SessionId.to_bytes (session_id m) ++ [] : list Z).
  unfold session_id_from_bytes, SessionId.to_bytes. rewrite len_app, len_be_bytes. len_pos.
  check_len. rewrite (range_rest_at _ _ _ _ _ (rest_at_start _)) by (by rewrite len_be_bytes). sbind.
  unfold SessionId.from_bytes. by rewrite from_be_be_bytes_8.
Qed.

End HandshakeResponse.

Module RekeyMessage.

Record t := mk { client_ephemeral_pk : HybridPublicKey.t; client_random : list Z }.

#[global] Instance t_eq_dec : EqDecision t.
Proof. solve_decision. Defined.

Definition new (random : list Z) (client_ephemeral_pk : HybridPublicKey.t) : t :=
  mk client_ephemeral_pk random.

Definition to_bytes (m : t) : list Z :=
  [SecurityLevel.as_u8 (HybridPublicKey.security_level (client_ephemeral_pk m))]
  ++ HybridPublicKey.to_bytes_raw (client_ephemeral_pk m) ++ client_random m.

Definition from_bytes (bytes : list Z) : result ProtocolError.t t :=
  if len bytes =? 0 then Err (ProtocolError.PacketTooShort 1 0)
  else
    let? b0 := index bytes 0 in
    let '(level, offset) :=
      match SecurityLevel.from_u8 b0 with
      | Some level => (level, 1)
      | None => (SecurityLevel.Level3, 0)
      end in
    let pk_size := HybridPublicKey.size_for_level level in
    let min_size := offset + pk_size + 32 in
    if len bytes <? min_size then Err (ProtocolError.PacketTooShort min_size (len bytes))
    else
      let? s := range bytes offset (offset + pk_size) in
      let? client_ephemeral_pk := map_err
        (fun _ => ProtocolError.HandshakeFailed "invalid public key")
        (HybridPublicKey.from_bytes_with_level s level) in
      let? client_random := range bytes (offset + pk_size) min_size in
      Ok (mk client_ephemeral_pk client_random).

Definition wf (m : t) : Prop :=
  HybridPublicKey.wf (client_ephemeral_pk m) /\
  bytes_ok (client_random m) /\ len (client_random m) = 32.

#[global] Instance rekey_codec_laws : Codec wf to_bytes from_bytes.
Proof.
  split.
  - intros [pk rnd] r (Hpk & _ & Hr). unfold to_bytes; cbn [client_ephemeral_pk client_random] in *.
    pose proof (HybridPublicKey.pk_len_to_bytes_raw pk Hpk) as Lp. rewrite <- !app_assoc.
    set (buf := _ ++ _). start_at buf. unfold buf at 2 in R. unfold buf at 2 in HL.
    autorewrite with len in HL. rewrite Lp in HL. pose proof (len_nonneg r).
    assert (0 < HybridPublicKey.size_for_level (HybridPublicKey.security_level pk))
      by (by destruct (HybridPublicKey.security_level pk)).
    unfold from_bytes. check_len. eat. rewrite SecurityLevel.level_from_u8_as_u8. check_len. eat.
    rewrite <- (app_nil_r (HybridPublicKey.to_bytes_raw pk)).
    rewrite HybridPublicKey.pk_from_bytes_with_level_raw by done. sbind. by eat.
  - intros m ((Hx & Hm & _) & Hr & _). unfold to_bytes, HybridPublicKey.to_bytes_raw.
    rewrite !bytes_ok_app. split_and!; try done.
    constructor; [apply SecurityLevel.level_as_u8_u8|constructor].
  - intros b m Hb H. unfold from_bytes in H. do 2 step_in H.
    destruct (SecurityLevel.from_u8 a); repeat (step_in H; b2p); injection H as <-; access_facts;
      apply HybridPublicKey.pk_from_bytes_with_level_inv in Hs1 as (? & _ & _); try done;
      unfold wf; cbn [client_ephemeral_pk client_random]; split_and!; done || lia.
  - intros b Hb H. unfold from_bytes in H. pose proof (len_nonneg b). step_in H. b2p.
    step_in H; [|no_abort].
    assert (forall l, 0 < HybridPublicKey.size_for_level l) as Hz by (by intros []).
    destruct (match SecurityLevel.from_u8 a with Some _ => _ | None => _ end) as [l o] eqn:El.
    assert (0 <= o) by (destruct (SecurityLevel.from_u8 a); injection El as <- <-; lia).
    pose proof (Hz l). step_in H. b2p. step_in H; [|no_abort]. step_call H as E2.
    + step_in H. no_abort.
    + by apply map_err_panic, HybridPublicKey.pk_from_bytes_with_level_no_panic in E2.
Qed.

End RekeyMessage.

Module RekeyResponse.

Record t := mk {
  server_ciphertext : HybridCiphertext.t;
  signature : MlDsaSignature.t;
  server_random : list Z;
  new_key_id : Z;
  key_confirmation : list Z;
  kdf_timestamp : Z;
  session_id : Z;
}.

Definition to_bytes (r : t) : list Z :=
  HybridCiphertext.to_bytes_raw (server_ciphertext r) ++ MlDsaSignature.bytes (signature r)
  ++ server_random r ++ be_bytes 4 (new_key_id r) ++ key_confirmation r
  ++ be_bytes 8 (kdf_timestamp r) ++ SessionId.to_bytes (session_id r).

Definition from_bytes_with_level (bytes : list Z) (level : SecurityLevel.t)
    : result ProtocolError.t t :=
  let ct_size := HybridCiphertext.size_for_level level in
  let sig_size := MlDsaSignature.size_for_level level in
  let min_size := ct_size + sig_size + 32 + 4 + 32 + 8 + 8 in
  if len bytes <? min_size then Err (ProtocolError.PacketTooShort min_size (len bytes))
  else
    let offset := 0 in
    let? s := range bytes offset (offset + ct_size) in
    let? server_ciphertext := map_err
      (fun _ => ProtocolError.HandshakeFailed "invalid ciphertext")
      (HybridCiphertext.from_bytes_with_level s level) in
    let offset := offset + ct_size in
    let? s := range bytes offset (offset + sig_size) in
    let? signature := ok_or
      (ProtocolError.HandshakeFailed
         ("rekey signature size mismatch for level " ++ SecurityLevel.debug level))
      (MlDsaSignature.from_bytes_with_level s level) in
    let offset := offset + sig_size in
    let? server_random := range bytes offset (offset + 32) in
    let offset := offset + 32 in
    let? new_key_id := read_u32 bytes offset in
    let offset := offset + 4 in
    let? key_confirmation := range bytes offset (offset + 32) in
    let offset := offset + 32 in
    let? kdf_timestamp := read_u64 bytes offset in
    let offset := offset + 8 in
    let? session_id_bytes := range bytes offset (offset + 8) in
    let session_id := SessionId.from_bytes session_id_bytes in
    Ok (mk server_ciphertext signature server_random new_key_id key_confirmation kdf_timestamp
          session_id).

Definition from_bytes (bytes : list Z) : result ProtocolError.t t :=
  from_bytes_with_level bytes SecurityLevel.Level3.

Definition wf (level : SecurityLevel.t) (r : t) : Prop :=
  HybridCiphertext.wf (server_ciphertext r) /\
  HybridCiphertext.security_level (server_ciphertext r) = level /\
  MlDsaSignature.wf (signature r) /\ MlDsaSignature.security_level (signature r) = level /\
  bytes_ok (server_random r) /\ len (server_random r) = 32 /\ u32 (new_key_id r) /\
  bytes_ok (key_confirmation r) /\ len (key_confirmation r) = 32 /\
  u64 (kdf_timestamp r) /\ u64 (session_id r).

#[global] Instance rekey_response_codec_laws level :
  Codec (wf level) to_bytes (fun b => from_bytes_with_level b level).
Proof.
  assert (0 < HybridCiphertext.size_for_level level /\ 0 < MlDsaSignature.size_for_level level)
    as [Hz1 Hz2] by (by destruct level).
  split.
  - intros [ct [sb sl] rnd kid kc ts sid] r
      (Hct & Hctl & [_ Hsig] & Hsigl & _ & Hrnd & Hkid & _ & Hkc & Hts & Hsid).
    cbn [server_ciphertext signature server_random new_key_id key_confirmation kdf_timestamp
         session_id MlDsaSignature.bytes MlDsaSignature.security_level] in *. subst sl.
    pose proof (HybridCiphertext.ct_len_to_bytes_raw ct Hct) as Lct. rewrite Hctl in Lct.
    unfold to_bytes, SessionId.to_bytes; cbn [server_ciphertext signature server_random new_key_id
      key_confirmation kdf_timestamp session_id MlDsaSignature.bytes]. rewrite <- !app_assoc.
    set (buf := _ ++ _). start_at buf. unfold buf at 2 in R. unfold buf at 2 in HL.
    autorewrite with len in HL. pose proof (len_nonneg r).
    unfold from_bytes_with_level. check_len. eat.
    rewrite <- Hctl, <- (app_nil_r (HybridCiphertext.to_bytes_raw ct)).
    rewrite HybridCiphertext.ct_from_bytes_with_level_raw by done. sbind. rewrite Hctl. eat.
    rewrite MlDsaSignature.sig_from_bytes_with_level_ok by done. sbind. do 5 eat.
    unfold SessionId.from_bytes. by rewrite from_be_be_bytes_8.
  - intros m ((Hx & Hm & _) & _ & [Hs _] & _ & Hr & _ & _ & Hk & _).
    unfold to_bytes, HybridCiphertext.to_bytes_raw, SessionId.to_bytes.
    rewrite !bytes_ok_app. split_and!; auto with hpn.
  - intros b m Hb H. unfold from_bytes_with_level in H. step_in H. b2p. step_call H as E1.
    step_call H as E2. step_call H as E3. step_call H as E4. repeat step_in H. injection H as <-.
    access_facts. apply HybridCiphertext.ct_from_bytes_with_level_wf in E2 as [? ?]; [|done].
    apply MlDsaSignature.sig_from_bytes_with_level_inv in E4 as [-> ?].
    unfold wf, SessionId.from_bytes; cbn [server_ciphertext signature server_random new_key_id
      key_confirmation kdf_timestamp session_id MlDsaSignature.security_level].
    split_and!; try (done || lia). by apply (from_be_uint 8); [|lia].
  - intros b Hb H. unfold from_bytes_with_level in H. step_in H. b2p. step_in H; [|no_abort].
    step_call H as E2; [|by apply map_err_panic, HybridCiphertext.ct_from_bytes_with_level_no_panic in E2].
    repeat (step_in H; [|no_abort]). step_in H. no_abort.
Qed.

End RekeyResponse.

(** * Properties *)

(** A rekey request of the format without a level byte whose key happens to
    start with the number of a level is taken for the new format and refused. *)
Lemma rekey_legacy_ambiguous pk random x :
  HybridPublicKey.wf pk -> HybridPublicKey.security_level pk = SecurityLevel.Level3 ->
  len random = 32 -> HybridPublicKey.x25519 pk = 3 :: x ->
  RekeyMessage.from_bytes (HybridPublicKey.to_bytes_raw pk ++ random) =
    Err (ProtocolError.PacketTooShort 1249 1248).
Proof.
  intros Hpk Hl Hr Hx. pose proof (HybridPublicKey.pk_len_to_bytes_raw pk Hpk) as Lp.
  rewrite Hl in Lp. change (HybridPublicKey.size_for_level SecurityLevel.Level3) with 1216 in Lp.
  assert (len (HybridPublicKey.to_bytes_raw pk ++ random) = 1248) as HL by (rewrite len_app; lia).
  unfold RekeyMessage.from_bytes. rewrite HL. simpl (1248 =? 0). cbv iota.
  unfold HybridPublicKey.to_bytes_raw in *. rewrite Hx in *. reflexivity.
Qed.
