(* ===== verification/Cookie.v ===== *)
(** Cookie challenge messages of hpn-core/src/protocol/messages.rs: the
    request, the reply with its proof of work, and their codecs.

    The wall clock is an argument as in [Control].  A time in seconds is far
    below [u64::MAX], so the sums with small constants are exact. *)

From S2P Require Import Prelude Types Codec Wire Net Digest Keys Kem Init.
From S2P Require Import Fragment Tunnel Control Response.

Definition DEFAULT_COOKIE_MAX_AGE_SECS : Z := 60.

(** SHA-256 of the textual address, cut to 16 bytes. *)
Definition addr_hash {E} {D : RingDigest} (client_addr : SocketAddr.t) : result E (list Z) :=
  let addr_str := SocketAddr.to_string client_addr in
  let hash := sha256 (bytes_of_string addr_str) in
  let? s := range hash 0 16 in
  copy_from_slice (replicate 16 0) 0 16 s.

Module CookieRequest.

Record t := mk {
  challenge : list Z;
  difficulty : Z;
  server_addr_hash : list Z;
  timestamp : Z;
}.

#[global] Instance t_eq_dec : EqDecision t.
Proof. solve_decision. Defined.

Definition SIZE : Z := 32 + 1 + 16 + 8.

Definition new {E} {D : RingDigest} (random : list Z) (now : option Z) (difficulty : Z)
    (client_addr : SocketAddr.t) : result E t :=
  let? server_addr_hash := addr_hash client_addr in
  let timestamp := match now with Some s => s | None => 0 end in
  Ok (mk random difficulty server_addr_hash timestamp).

Definition is_expired (now : option Z) (r : t) (max_age_secs : Z) : bool :=
  let now := match now with Some s => s | None => 0 end in
  if now + 5 <? timestamp r then true
  else max_age_secs <? saturating_sub now (timestamp r).

Definition is_expired_default (now : option Z) (r : t) : bool :=
  is_expired now r DEFAULT_COOKIE_MAX_AGE_SECS.

Definition to_bytes (r : t) : list Z :=
  challenge r ++ [difficulty r] ++ server_addr_hash r ++ be_bytes 8 (timestamp r).

Definition from_bytes (bytes : list Z) : result ProtocolError.t t :=
  if len bytes <? SIZE then Err (ProtocolError.PacketTooShort SIZE (len bytes))
  else
    let? challenge := range bytes 0 32 in
    let? difficulty := index bytes 32 in
    let? server_addr_hash := range bytes 33 49 in
    let? timestamp := read_u64 bytes 49 in
    Ok (mk challenge difficulty server_addr_hash timestamp).

Definition wf (r : t) : Prop :=
  bytes_ok (challenge r) /\ len (challenge r) = 32 /\ u8 (difficulty r) /\
  bytes_ok (server_addr_hash r) /\ len (server_addr_hash r) = 16 /\ u64 (timestamp r).

#[global] Instance cookie_request_codec_laws : Codec wf to_bytes from_bytes.
Proof.
  split.
  - intros [ch d h ts] r (_ & Hc & Hd & _ & Hh & Ht). unfold to_bytes;
      cbn [challenge difficulty server_addr_hash timestamp] in *. rewrite <- !app_assoc.
    set (buf := _ ++ _). start_at buf. unfold buf at 2 in R. unfold buf at 2 in HL.
    autorewrite with len in HL. pose proof (len_nonneg r).
    unfold from_bytes. change SIZE with 57. check_len. by do 4 eat.
  - intros m (Hc & _ & Hd & Hh & _). unfold to_bytes. rewrite !bytes_ok_app.
    split_and!; auto with hpn. by constructor.
  - intros b m Hb H. unfold from_bytes in H. repeat (step_in H; b2p). injection H as <-.
    access_facts. unfold wf; cbn [challenge difficulty server_addr_hash timestamp].
    split_and!; done || lia.
  - intros b Hb H. unfold from_bytes in H. change SIZE with 57 in H.
    repeat (step_in H; b2p); no_abort.
Qed.

(** The cookie is usable from five seconds before its creation until
    [max_age_secs] after it. *)
Lemma is_expired_spec now r max_age :
  is_expired (Some now) r max_age = false <->
  timestamp r <= now + 5 /\ saturating_sub now (timestamp r) <= max_age.
Proof.
  unfold is_expired. destruct (now + 5 <? timestamp r) eqn:E; b2p.
  - split; [done|lia].
  - rewrite Z.ltb_ge. intuition lia.
Qed.

End CookieRequest.

Module CookieReply.

Record t := mk {
  challenge : list Z;
  solution_nonce : Z;
  handshake_init : HandshakeInit.t;
}.

(** [u8::leading_zeros] *)
Definition leading_zeros8 (b : Z) : Z := if b =? 0 then 8 else 7 - Z.log2 b.

(** The loop over the hash bytes, which stops at the first non-zero one. *)
Fixpoint leading_zeros (hash_bytes : list Z) : Z :=
  match hash_bytes with
  | [] => 0
  | byte :: rest =>
      let byte_zeros := leading_zeros8 byte in
      if byte_zeros <? 8 then byte_zeros else byte_zeros + leading_zeros rest
  end.

Section Pow.
Context {D : RingDigest}.

(** The zeros of SHA-256 of the challenge and a nonce. *)
Definition pow_zeros (challenge : list Z) (nonce : Z) : Z :=
  leading_zeros (sha256 (challenge ++ be_bytes 8 nonce)).

(** The first [k] of [start .. start + n) with [f k], the loop
    [for nonce in 0..n] with its early return. *)
Fixpoint first_nonce (f : Z -> bool) (n : positive) (start : Z) : option Z :=
  match n with
  | xH => if f start then Some start else None
  | xO m =>
      match first_nonce f m start with
      | Some k => Some k
      | None => first_nonce f m (start + Z.pos m)
      end
  | xI m =>
      if f start then Some start
      else
        match first_nonce f m (start + 1) with
        | Some k => Some k
        | None => first_nonce f m (start + 1 + Z.pos m)
        end
  end.

Definition MAX_POW_ITERATIONS : positive := 67108864.

Definition solve (challenge : list Z) (difficulty : Z) (handshake_init : HandshakeInit.t)
    : result ProtocolError.t t :=
  if (difficulty =? 0) || (32 <? difficulty) then
    Err (ProtocolError.HandshakeFailed
           ("invalid puzzle difficulty: " ++ dec difficulty ++ " (must be 1-32)"))
  else
    match first_nonce (fun nonce => difficulty <=? pow_zeros challenge nonce)
            MAX_POW_ITERATIONS 0 with
    | Some nonce => Ok (mk challenge nonce handshake_init)
    | None =>
        Err (ProtocolError.HandshakeFailed "puzzle too difficult (exceeded MAX_POW_ITERATIONS)")
    end.

Definition verify (r : t) (difficulty : Z) : bool :=
  difficulty <=? pow_zeros (challenge r) (solution_nonce r).

End Pow.

Definition to_bytes (r : t) : list Z :=
  challenge r ++ be_bytes 8 (solution_nonce r) ++ HandshakeInit.to_bytes (handshake_init r).

Definition MIN_SIZE : Z := 32 + 8.

Definition from_bytes (bytes : list Z) : result ProtocolError.t t :=
  if len bytes <? MIN_SIZE then Err (ProtocolError.PacketTooShort MIN_SIZE (len bytes))
  else
    let? challenge := range bytes 0 32 in
    let? solution_nonce := read_u64 bytes 32 in
    let? s := range bytes 40 (len bytes) in
    let? handshake_init := HandshakeInit.from_bytes s in
    Ok (mk challenge solution_nonce handshake_init).

Definition wf (r : t) : Prop :=
  bytes_ok (challenge r) /\ len (challenge r) = 32 /\ u64 (solution_nonce r) /\
  HandshakeInit.wf (handshake_init r).

#[global] Instance cookie_reply_codec_laws : Codec wf to_bytes from_bytes.
Proof.
  split.
  - intros [ch n i] r (_ & Hc & Hn & Hi). unfold to_bytes;
      cbn [challenge solution_nonce handshake_init] in *. rewrite <- !app_assoc.
    set (buf := _ ++ _). start_at buf. unfold buf at 2 in R. unfold buf at 2 in HL.
    autorewrite with len in HL. pose proof (len_nonneg (HandshakeInit.to_bytes i ++ r)) as Hz.
    rewrite len_app in Hz. unfold from_bytes. change MIN_SIZE with 40. check_len. do 2 eat.
    rewrite (range_at_end _ _ _ _ R) by offsets. sbind. by rewrite HandshakeInit.init_roundtrip.
  - intros m (Hc & _ & _ & Hi). apply HandshakeInit.init_bytes in Hi. unfold to_bytes.
    rewrite !bytes_ok_app. auto with hpn.
  - intros b m Hb H. unfold from_bytes in H. repeat (step_in H; b2p). injection H as <-.
    access_facts. unfold wf; cbn [challenge solution_nonce handshake_init].
    split_and!; try (done || lia). by eapply HandshakeInit.init_sound; [|eassumption].
  - intros b Hb H. unfold from_bytes in H. change MIN_SIZE with 40 in H.
    do 4 (step_in H; b2p; try no_abort). step_call H as Ei. access_facts.
    by apply HandshakeInit.init_total in Ei.
Qed.

Lemma first_nonce_spec f n start :
  match first_nonce f n start with
  | Some k => start <= k < start + Z.pos n /\ f k = true /\ forall j, start <= j < k -> f j = false
  | None => forall j, start <= j < start + Z.pos n -> f j = false
  end.
Proof.
  revert start. induction n as [m IH|m IH|]; intros start; cbn [first_nonce].
  - destruct (f start) eqn:E; [split_and!; [lia|lia|done|lia]|].
    pose proof (IH (start + 1)) as H1. pose proof (IH (start + 1 + Z.pos m)) as H2.
    destruct (first_nonce f m (start + 1)) as [k|].
    { destruct H1 as (? & ? & Hj). split_and!; [lia|lia|done|]. intros j ?.
      destruct (decide (j = start)) as [->|]; [done|apply Hj; lia]. }
    assert (forall j, start <= j < start + 1 + Z.pos m -> f j = false) as H3.
    { intros j ?. destruct (decide (j = start)) as [->|]; [done|apply H1; lia]. }
    destruct (first_nonce f m (start + 1 + Z.pos m)) as [k|].
    + destruct H2 as (? & ? & Hj). split_and!; [lia|lia|done|]. intros j ?.
      destruct (decide (j < start + 1 + Z.pos m)); [apply H3; lia|apply Hj; lia].
    + intros j ?. destruct (decide (j < start + 1 + Z.pos m)); [apply H3; lia|apply H2; lia].
  - pose proof (IH start) as H1. pose proof (IH (start + Z.pos m)) as H2.
    destruct (first_nonce f m start) as [k|].
    { destruct H1 as (? & ? & Hj). split_and!; [lia|lia|done|done]. }
    destruct (first_nonce f m (start + Z.pos m)) as [k|].
    + destruct H2 as (? & ? & Hj). split_and!; [lia|lia|done|]. intros j ?.
      destruct (decide (j < start + Z.pos m)); [apply H1; lia|apply Hj; lia].
    + intros j ?. destruct (decide (j < start + Z.pos m)); [apply H1; lia|apply H2; lia].
  - destruct (f start) eqn:E; [split_and!; [lia|lia|done|lia]|].
    intros j ?. by replace j with start by lia.
Qed.

Lemma leading_zeros_nonneg l : bytes_ok l -> 0 <= leading_zeros l.
Proof.
  induction 1 as [|b l Hb _ IH]; [done|]. cbn [leading_zeros]. unfold leading_zeros8.
  destruct (b =? 0) eqn:E; b2p; [simpl; lia|]. pose proof (Z.log2_lt_pow2 b 8). unfold uint in Hb.
  destruct (_ <? 8); lia.
Qed.

Lemma from_be_cons b l : from_be (b :: l) = b * 2 ^ (8 * len l) + from_be l.
Proof.
  unfold from_be. simpl rev.
  assert (forall k x, from_le (k ++ [x]) = from_le k + x * 2 ^ (8 * len k)) as Happ.
  { intros k x. induction k as [|y k IH]; [change (x + 256 * 0 = 0 + x * 1); lia|].
    change (from_le ((y :: k) ++ [x])) with (y + 256 * from_le (k ++ [x])).
    change (from_le (y :: k)) with (y + 256 * from_le k). rewrite IH, len_cons.
    replace (8 * (1 + len k)) with (8 + 8 * len k) by lia.
    rewrite Z.pow_add_r by (pose proof (len_nonneg k); lia). change (2 ^ 8) with 256. lia. }
  rewrite Happ. unfold len. rewrite length_rev. lia.
Qed.

(** A first byte that is not zero decides the comparison. *)
Lemma first_byte_bound b x n d :
  0 < b < 256 -> 0 <= x < 2 ^ (8 * n) -> 0 <= n -> 0 <= d <= 8 * (1 + n) ->
  d <= 7 - Z.log2 b <-> b * 2 ^ (8 * n) + x < 2 ^ (8 * (1 + n) - d).
Proof.
  intros Hb Hx Hn Hd. pose proof (Z.log2_nonneg b).
  destruct (decide (d <= 7)) as [Hd7|Hd7].
  - replace (8 * (1 + n) - d) with ((8 - d) + 8 * n) by lia. rewrite Z.pow_add_r by lia.
    set (M := 2 ^ (8 * n)) in *. pose proof (Z.log2_lt_pow2 b (8 - d)) as Hlog.
    assert (d <= 7 - Z.log2 b <-> b < 2 ^ (8 - d)) as -> by (rewrite (Hlog ltac:(lia)); lia).
    set (P := 2 ^ (8 - d)) in *. split; intros; nia.
  - split; [lia|]. intros Hlt.
    assert (2 ^ (8 * (1 + n) - d) <= 2 ^ (8 * n)) by (apply Z.pow_le_mono_r; lia). nia.
Qed.

(** The zeros counted are the leading zero bits of the hash read as a number:
    the puzzle of difficulty [d] asks for a hash below [2 ^ (256 - d)]. *)
Lemma leading_zeros_spec l d :
  bytes_ok l -> 0 <= d <= 8 * len l ->
  d <= leading_zeros l <-> from_be l < 2 ^ (8 * len l - d).
Proof.
  intros Hl. revert d. induction Hl as [|b l Hb Hl IH]; intros d Hd.
  { change (len []) with 0 in *. assert (d = 0) as -> by lia. by compute. }
  rewrite from_be_cons, len_cons in *. cbn [leading_zeros]. unfold leading_zeros8.
  pose proof (len_nonneg l) as Hn. pose proof (leading_zeros_nonneg l Hl).
  assert (0 <= from_be l < 2 ^ (8 * len l)) as Hx.
  { pose proof (from_be_bound (length l) l Hl eq_refl). unfold uint, len in *. lia. }
  unfold uint in Hb. destruct (b =? 0) eqn:E; b2p.
  - subst b. change (8 <? 8) with false. cbv iota. rewrite Z.mul_0_l, Z.add_0_l.
    destruct (decide (d <= 8)) as [Hd8|Hd8].
    + assert (2 ^ (8 * len l) <= 2 ^ (8 * (1 + len l) - d)) by (apply Z.pow_le_mono_r; lia). lia.
    + replace (8 * (1 + len l) - d) with (8 * len l - (d - 8)) by lia. rewrite <- IH by lia. lia.
  - assert (Z.log2 b < 8) by (apply Z.log2_lt_pow2; lia). pose proof (Z.log2_nonneg b).
    rewrite (proj2 (Z.ltb_lt (7 - Z.log2 b) 8)) by lia. apply first_byte_bound; lia.
Qed.

End CookieReply.

(** * Properties *)

(** C30: the codecs of the initiation (with and without encrypted
    credentials), the response, the rekey request and response at either level,
    the handshake fragment, the control message, the tunnel configuration in
    both address families, and the cookie request and reply: every well-formed message
    survives encoding and decoding, the decoder never aborts and accepts only
    well-formed messages.  There are two exceptions.  The fragment decoder
    ignores whatever follows the declared payload, so the bytes it accepts are
    the encoding of a well-formed fragment and a rest.  And the control message
    decoder repairs a text that is not UTF-8, to UTF-8 of up to three times the
    length, which may be too long to encode.  An initiation in the format of old clients, without
    the flag for credentials, decodes to the same initiation; the session id
    a relay reads from the first bytes of a response is the one of the
    response; and an encoded configuration stays within the bound the
    response decoder puts on it. *)
Theorem message_codecs :
  Codec HandshakeInit.wf HandshakeInit.to_bytes HandshakeInit.from_bytes /\
  (forall level,
    Codec (HandshakeResponse.wf level) HandshakeResponse.to_bytes
      (fun b => HandshakeResponse.from_bytes_with_level b level) /\
    Codec (RekeyResponse.wf level) RekeyResponse.to_bytes
      (fun b => RekeyResponse.from_bytes_with_level b level)) /\
  Codec RekeyMessage.wf RekeyMessage.to_bytes RekeyMessage.from_bytes /\
  Codec TunnelConfig.wf TunnelConfig.to_bytes TunnelConfig.from_bytes /\
  Codec CookieRequest.wf CookieRequest.to_bytes CookieRequest.from_bytes /\
  Codec CookieReply.wf CookieReply.to_bytes CookieReply.from_bytes /\
  ((forall f r, HandshakeFragment.wf f ->
      HandshakeFragment.from_bytes (HandshakeFragment.to_bytes f ++ r) = Ok f) /\
   (forall bytes, bytes_ok bytes ->
      match HandshakeFragment.from_bytes bytes with
      | Ok f => HandshakeFragment.wf f /\ exists r, bytes = HandshakeFragment.to_bytes f ++ r
      | Err _ => True
      | Panic => False
      end)) /\
  ((forall m, ControlMessage.wf m -> ControlMessage.from_bytes (ControlMessage.to_bytes m) = Ok m) /\
   (forall b, bytes_ok b ->
      match ControlMessage.from_bytes b with
      | Ok m => ControlMessage.decoded m /\ (ControlMessage.wf m \/ ControlMessage.repaired b m)
      | Err _ => True
      | Panic => False
      end)) /\
  (forall i, HandshakeInit.wf i -> HandshakeInit.credentials i = None ->
    HandshakeInit.from_bytes
      ([SecurityLevel.as_u8 (HandshakeInit.security_level i)]
       ++ HybridPublicKey.to_bytes_raw (HandshakeInit.client_ephemeral_pk i)
       ++ HandshakeInit.client_random i) = Ok i) /\
  (forall level m r, HandshakeResponse.wf level m ->
    HandshakeResponse.session_id_from_bytes (HandshakeResponse.to_bytes m ++ r) =
      Ok (HandshakeResponse.session_id m)) /\
  (forall c, TunnelConfig.wf c -> len (TunnelConfig.to_bytes c) <= HandshakeResponse.MAX_CONFIG_LEN).
Proof.
  split; [apply HandshakeInit.init_codec_laws|].
  split; [split; [apply HandshakeResponse.response_codec_laws|apply RekeyResponse.rekey_response_codec_laws]|].
  split; [apply RekeyMessage.rekey_codec_laws|]. split; [apply TunnelConfig.tunnel_codec_laws|].
  split; [apply CookieRequest.cookie_request_codec_laws|].
  split; [apply CookieReply.cookie_reply_codec_laws|]. split; [exact fragment_codec|].
  split; [exact control_message_codec|]. split; [apply legacy_accepted|].
  split; [intros level m r; apply HandshakeResponse.session_id_prefix|].
  intros c Hc. pose proof (TunnelConfig.len_to_bytes c Hc). unfold HandshakeResponse.MAX_CONFIG_LEN. lia.
Qed.

(** The proof of work: for a difficulty from 1 to 32 the client finds the
    first nonce below 2^26 for which the hash of challenge and nonce is, as a
    number, below 2^(256 - difficulty), if there is one, the server's check
    accepts exactly such nonces, and the client gives up only when there is
    none. *)
Lemma proof_of_work {D : RingDigest} {L : RingDigestLaws} challenge difficulty init :
  1 <= difficulty <= 32 ->
  let solves nonce := from_be (sha256 (challenge ++ be_bytes 8 nonce)) < 2 ^ (256 - difficulty) in
  (forall r, CookieReply.verify r difficulty = true <->
     from_be (sha256 (CookieReply.challenge r ++ be_bytes 8 (CookieReply.solution_nonce r)))
       < 2 ^ (256 - difficulty)) /\
  match CookieReply.solve challenge difficulty init with
  | Ok r =>
      CookieReply.challenge r = challenge /\ CookieReply.handshake_init r = init /\
      0 <= CookieReply.solution_nonce r < 2 ^ 26 /\ solves (CookieReply.solution_nonce r) /\
      forall nonce, 0 <= nonce < CookieReply.solution_nonce r -> ~ solves nonce
  | Err _ => forall nonce, 0 <= nonce < 2 ^ 26 -> ~ solves nonce
  | Panic => False
  end.
Proof.
  intros Hd solves.
  assert (forall c n, (difficulty <=? CookieReply.pow_zeros c n) = true <->
            from_be (sha256 (c ++ be_bytes 8 n)) < 2 ^ (256 - difficulty)) as Hz.
  { intros c n. rewrite Z.leb_le. destruct (sha256_size (c ++ be_bytes 8 n)) as [Hl Hb].
    unfold CookieReply.pow_zeros. rewrite CookieReply.leading_zeros_spec by (done || lia).
    by rewrite Hl. }
  split; [intros r; apply Hz|]. unfold CookieReply.solve. do 2 decide_ltb. cbn [orb]. cbv iota.
  pose proof (CookieReply.first_nonce_spec (fun n => difficulty <=? CookieReply.pow_zeros challenge n)
    CookieReply.MAX_POW_ITERATIONS 0) as Hs.
  change (0 + Z.pos CookieReply.MAX_POW_ITERATIONS) with (2 ^ 26) in Hs.
  destruct (CookieReply.first_nonce _ _ _) as [k|].
  - destruct Hs as (Hk & Hf & Hj). cbn [CookieReply.challenge CookieReply.handshake_init
      CookieReply.solution_nonce].
    split; [done|]. split; [done|]. split; [lia|]. split; [exact (proj1 (Hz challenge k) Hf)|].
    intros n Hn Hc. apply (proj2 (Hz challenge n)) in Hc. by rewrite Hj in Hc by lia.
  - intros n Hn Hc. apply (proj2 (Hz challenge n)) in Hc. by rewrite Hs in Hc by lia.
Qed.

