(* ===== verification/Handshake.v ===== *)
(** The handshake of hpn-core/src/protocol/handshake.rs: client, server and
    rekeying.

    An operation on [&mut self] returns the handler it leaves, also when it
    fails.  Random values and clock readings are arguments: [now] is the wall
    clock as in [Control], [instant] a reading of the monotonic clock in
    nanoseconds.  The cookie secrets of the server are behind a mutex; each
    operation on them is one step. *)

From S2P Require Import Prelude Types Codec Wire Net Digest Tunnel Keys Signature Kem Kdf Aead Init.
From S2P Require Import Response Cookie.

(** * Transcripts and key confirmation *)

Definition build_transcript (protocol_version : Z) (session_id : option Z)
    (client_random server_random : list Z) (ciphertext : HybridCiphertext.t)
    (config : TunnelConfig.t) : list Z :=
  let ct_bytes := HybridCiphertext.to_bytes ciphertext in
  let config_bytes := TunnelConfig.to_bytes config in
  [protocol_version]
  ++ match session_id with Some sid => le_bytes 8 sid | None => [] end
  ++ client_random ++ server_random ++ ct_bytes
  ++ be_bytes 4 (as_uint 32 (len config_bytes)) ++ config_bytes.

Definition build_transcript_legacy_no_config (protocol_version : Z) (session_id : option Z)
    (client_random server_random : list Z) (ciphertext : HybridCiphertext.t) : list Z :=
  let ct_bytes := HybridCiphertext.to_bytes ciphertext in
  [protocol_version]
  ++ match session_id with Some sid => le_bytes 8 sid | None => [] end
  ++ client_random ++ server_random ++ ct_bytes.

Definition build_rekey_transcript (session_id : Z) (client_random server_random : list Z)
    (ciphertext : HybridCiphertext.t) : list Z :=
  bytes_of_string "HPN-REKEY-V1" ++ [PROTOCOL_VERSION] ++ SessionId.to_bytes session_id
  ++ client_random ++ server_random ++ HybridCiphertext.to_bytes ciphertext.

Section Confirmation.
Context {D : RingDigest}.

Definition compute_key_confirmation (send_key transcript : list Z) : list Z :=
  hmac_sign send_key transcript.

Definition verify_key_confirmation (recv_key transcript mac : list Z)
    : result ProtocolError.t unit :=
  if hmac_verify recv_key transcript mac then Ok tt
  else Err (ProtocolError.HandshakeFailed "key confirmation MAC verification failed").

End Confirmation.

Definition failed_with {A} (reason : string) (_ : A) : ProtocolError.t :=
  ProtocolError.HandshakeFailed reason.

(** * The client *)

Module HandshakeState.

Inductive t :=
  | Idle | AwaitingResponse | SolvingCookie | AwaitingResponseAfterCookie | Established
  | Failed (reason : string).

#[global] Instance t_eq_dec : EqDecision t.
Proof. solve_decision. Defined.

End HandshakeState.

Module ClientHandshake.

Record t := mk {
  state : HandshakeState.t;
  client_keypair : option (HybridSecretKey.t * HybridPublicKey.t);
  client_random : option (list Z);
  expected_server_pk : option (list Z);
  server_kem_pk : option HybridPublicKey.t;
  session_id : option Z;
  session_keys : option SessionKeys.t;
  tunnel_config : option TunnelConfig.t;
  security_level : SecurityLevel.t;
}.

Definition with_security_level (security_level : SecurityLevel.t) : t :=
  mk HandshakeState.Idle None None None None None None None security_level.

Definition new : t := with_security_level SecurityLevel.default.

Definition with_server_pk_and_level (server_pk : list Z) (security_level : SecurityLevel.t) : t :=
  mk HandshakeState.Idle None None (Some server_pk) None None None None security_level.

Definition with_server_pk (server_pk : list Z) : t :=
  with_server_pk_and_level server_pk SecurityLevel.default.

Definition with_identity_hiding (server_signing_pk : list Z) (server_kem_pk : HybridPublicKey.t)
    (security_level : SecurityLevel.t) : t :=
  mk HandshakeState.Idle None None (Some server_signing_pk) (Some server_kem_pk) None None None
    security_level.

Definition set_server_kem_pk (c : t) (kem_pk : HybridPublicKey.t) : t :=
  mk (state c) (client_keypair c) (client_random c) (expected_server_pk c) (Some kem_pk)
    (session_id c) (session_keys c) (tunnel_config c) (security_level c).

Definition identity_hiding_enabled (c : t) : bool :=
  match server_kem_pk c with Some _ => true | None => false end.

Definition is_established (c : t) : bool :=
  match state c with HandshakeState.Established => true | _ => false end.

Definition set_state (c : t) (s : HandshakeState.t) : t :=
  mk s (client_keypair c) (client_random c) (expected_server_pk c) (server_kem_pk c)
    (session_id c) (session_keys c) (tunnel_config c) (security_level c).

(** [self.state = Failed(reason); return Err(e)] *)
Definition fail {A} (c : t) (reason : string) (e : ProtocolError.t)
    : t * result ProtocolError.t A :=
  (set_state c (HandshakeState.Failed reason), Err e).

Section Crypto.
Context {R : RingAead} {D : RingDigest} {M : MlDsa} {K : KemPrimitives} {H : Hkdf}.

Definition create_init (x25519_rng mlkem_seed random : list Z) (c : t)
    : t * result CryptoError.t HandshakeInit.t :=
  if negb (bool_decide (state c = HandshakeState.Idle)) then (c, Err CryptoError.KeyGeneration)
  else
    match HybridKem.generate_keypair_with_level x25519_rng mlkem_seed (security_level c) with
    | Ok (sk, pk) =>
        let init := HandshakeInit.with_security_level random pk (security_level c) in
        (mk HandshakeState.AwaitingResponse (Some (sk, pk)) (Some (HandshakeInit.client_random init))
           (expected_server_pk c) (server_kem_pk c) (session_id c) (session_keys c)
           (tunnel_config c) (security_level c),
         Ok init)
    | Err e => (c, Err e)
    | Panic => (c, Panic)
    end.

Definition create_encrypted_init (x25519_rng mlkem_seed random enc_x25519_rng enc_mlkem_rng : list Z)
    (c : t) : t * result ProtocolError.t EncryptedHandshakeInit.t :=
  match server_kem_pk c with
  | None =>
      (c, Err (ProtocolError.HandshakeFailed "server KEM public key not set for identity hiding"))
  | Some server_kem_pk =>
      let '(c, inner_init) := create_init x25519_rng mlkem_seed random c in
      (c,
       let? inner_init := map_err
         (fun e => ProtocolError.HandshakeFailed
                     ("failed to create handshake init: " ++ CryptoError.debug e)) inner_init in
       EncryptedHandshakeInit.encrypt enc_x25519_rng enc_mlkem_rng inner_init server_kem_pk)
  end.

(** The key size the level asks for. *)
Definition expected_pk_size (level : SecurityLevel.t) : Z :=
  match level with
  | SecurityLevel.Level3 => MlDsaPublicKey.SIZE
  | SecurityLevel.Level5 => MlDsaPublicKey.SIZE_87
  end.

(** The pinned key, if any, differs from the one in the response. *)
Definition pin_mismatch (c : t) (server_static_pk : list Z) : bool :=
  match expected_server_pk c with
  | Some expected_pk => negb (bool_decide (expected_pk = server_static_pk))
  | None => false
  end.

(** The part of [process_response] after the signature was verified. *)
Definition finish_response (c : t) (client_sk : HybridSecretKey.t) (transcript : list Z)
    (response : HandshakeResponse.t)
    : t * result ProtocolError.t (Z * SessionKeys.t * TunnelConfig.t) :=
  match HybridKem.decapsulate client_sk (HandshakeResponse.server_ciphertext response) with
  | Panic => (c, Panic)
  | Err _ =>
      fail c "decapsulation failed" (ProtocolError.HandshakeFailed "decapsulation failed")
  | Ok handshake_secret =>
      match derive_session_keys_with_context handshake_secret
              (HandshakeResponse.session_id response) (HandshakeResponse.kdf_timestamp response) with
      | Panic => (c, Panic)
      | Err _ =>
          fail c "key derivation failed" (ProtocolError.HandshakeFailed "key derivation failed")
      | Ok session_keys =>
          match verify_key_confirmation (SessionKeys.recv_key session_keys) transcript
                  (HandshakeResponse.key_confirmation response) with
          | Panic => (c, Panic)
          | Err e => fail c "key confirmation failed" e
          | Ok _ =>
              (mk HandshakeState.Established (client_keypair c) (client_random c)
                 (expected_server_pk c) (server_kem_pk c)
                 (Some (HandshakeResponse.session_id response)) (Some session_keys)
                 (Some (HandshakeResponse.config response)) (security_level c),
               Ok (HandshakeResponse.session_id response, session_keys,
                   HandshakeResponse.config response))
          end
      end
  end.

Definition process_response (c : t) (response : HandshakeResponse.t)
    : t * result ProtocolError.t (Z * SessionKeys.t * TunnelConfig.t) :=
  if negb (bool_decide (state c = HandshakeState.AwaitingResponse)) &&
     negb (bool_decide (state c = HandshakeState.AwaitingResponseAfterCookie)) then
    fail c "invalid state" ProtocolError.InvalidStateTransition
  else
    match client_keypair c, client_random c with
    | None, _ | _, None => (c, Err ProtocolError.InvalidStateTransition)
    | Some (client_sk, _), Some client_random =>
        let server_static_pk := HandshakeResponse.server_static_pk response in
        if pin_mismatch c server_static_pk then
          fail c "server key mismatch" (ProtocolError.HandshakeFailed "server public key mismatch")
        else if negb (len server_static_pk =? expected_pk_size (security_level c)) then
          fail c "server security level mismatch"
            (ProtocolError.HandshakeFailed
               ("server public key size mismatch: expected "
                  ++ dec (expected_pk_size (security_level c)) ++ " bytes for "
                  ++ SecurityLevel.debug (security_level c) ++ ", got "
                  ++ dec (len server_static_pk)
                  ++ ". Server may not support this security level."))
        else
          let transcript :=
            build_transcript PROTOCOL_VERSION (Some (HandshakeResponse.session_id response))
              client_random (HandshakeResponse.server_random response)
              (HandshakeResponse.server_ciphertext response) (HandshakeResponse.config response) in
          if negb (is_ok (signature.verify server_static_pk transcript
                            (HandshakeResponse.signature response) (security_level c))) then
            let legacy_transcript :=
              build_transcript_legacy_no_config PROTOCOL_VERSION
                (Some (HandshakeResponse.session_id response)) client_random
                (HandshakeResponse.server_random response)
                (HandshakeResponse.server_ciphertext response) in
            let legacy_match :=
              is_ok (signature.verify server_static_pk legacy_transcript
                       (HandshakeResponse.signature response) (security_level c)) in
            fail c "signature verification failed"
              (ProtocolError.HandshakeFailed
                 (if legacy_match then
                    "signature verification failed: server appears to use legacy handshake transcript (missing config binding); update server binary"
                  else "signature verification failed"))
          else finish_response c client_sk transcript response
    end.

Definition take_session_keys (c : t) : t * option SessionKeys.t :=
  (mk (state c) (client_keypair c) (client_random c) (expected_server_pk c) (server_kem_pk c)
     (session_id c) None (tunnel_config c) (security_level c),
   session_keys c).

Definition solve_cookie_challenge (c : t) (challenge : CookieRequest.t)
    : t * result ProtocolError.t CookieReply.t :=
  if negb (bool_decide (state c = HandshakeState.AwaitingResponse)) then
    (c, Err (ProtocolError.HandshakeFailed "unexpected cookie challenge"))
  else
    let c := set_state c HandshakeState.SolvingCookie in
    match client_keypair c, client_random c with
    | None, _ | _, None =>
        (c, Err (ProtocolError.HandshakeFailed "missing client keypair or random"))
    | Some (_, pk), Some client_random =>
        let handshake_init :=
          HandshakeInit.mk pk client_random (HybridPublicKey.security_level pk) None in
        match CookieReply.solve (CookieRequest.challenge challenge)
                (CookieRequest.difficulty challenge) handshake_init with
        | Ok reply => (set_state c HandshakeState.AwaitingResponseAfterCookie, Ok reply)
        | Err e => (c, Err e)
        | Panic => (c, Panic)
        end
    end.

End Crypto.

End ClientHandshake.

(** * The server *)

Module CookieSecrets.

Record t := mk {
  current : list Z;
  previous : option (list Z);
  last_rotation : Z;
}.

End CookieSecrets.

(** 600 seconds in nanoseconds. *)
Definition COOKIE_SECRET_ROTATION : Z := 600 * 1000000000.

Module ServerHandshake.

Record t := mk {
  server_keypair : MlDsaKeypair.t;
  server_kem_keypair : option (HybridSecretKey.t * HybridPublicKey.t);
  cookie_difficulty : Z;
  cookie_secrets : CookieSecrets.t;
}.

(** [fresh] is what [generate_cookie_secret] draws. *)
Definition initial_cookie_secrets (fresh : list Z) (instant : Z) : CookieSecrets.t :=
  CookieSecrets.mk fresh None instant.

Definition new (fresh : list Z) (instant : Z) (server_keypair : MlDsaKeypair.t) : t :=
  mk server_keypair None 0 (initial_cookie_secrets fresh instant).

Definition with_identity_hiding (fresh : list Z) (instant : Z) (server_keypair : MlDsaKeypair.t)
    (kem_keypair : HybridSecretKey.t * HybridPublicKey.t) : t :=
  mk server_keypair (Some kem_keypair) 0 (initial_cookie_secrets fresh instant).

Definition with_cookie_protection (fresh : list Z) (instant : Z) (server_keypair : MlDsaKeypair.t)
    (difficulty : Z) : t :=
  mk server_keypair None difficulty (initial_cookie_secrets fresh instant).

Definition with_identity_hiding_and_cookie (fresh : list Z) (instant : Z)
    (server_keypair : MlDsaKeypair.t) (kem_keypair : HybridSecretKey.t * HybridPublicKey.t)
    (difficulty : Z) : t :=
  mk server_keypair (Some kem_keypair) difficulty (initial_cookie_secrets fresh instant).

Definition set_kem_keypair (s : t) (kem_keypair : HybridSecretKey.t * HybridPublicKey.t) : t :=
  mk (server_keypair s) (Some kem_keypair) (cookie_difficulty s) (cookie_secrets s).

Definition set_cookie_difficulty (s : t) (difficulty : Z) : t :=
  mk (server_keypair s) (server_kem_keypair s) difficulty (cookie_secrets s).

Definition identity_hiding_supported (s : t) : bool :=
  match server_kem_keypair s with Some _ => true | None => false end.

Definition kem_public_key (s : t) : option HybridPublicKey.t := option_map snd (server_kem_keypair s).

Definition public_key (s : t) : list Z := MlDsaKeypair.public_key (server_keypair s).

(** [elapsed] and the new [last_rotation] are two clock readings, [instant]
    and [instant']. *)
Definition maybe_rotate_cookie_secret (s : t) (instant instant' : Z) (fresh : list Z) : t :=
  let secrets := cookie_secrets s in
  if COOKIE_SECRET_ROTATION <=? saturating_sub instant (CookieSecrets.last_rotation secrets) then
    mk (server_keypair s) (server_kem_keypair s) (cookie_difficulty s)
      (CookieSecrets.mk fresh (Some (CookieSecrets.current secrets)) instant')
  else s.

Section Crypto.
Context {R : RingAead} {D : RingDigest} {M : MlDsa} {K : KemPrimitives} {H : Hkdf}.

Definition compute_cookie_hmac_with {E} (secret nonce : list Z) (timestamp : Z)
    (addr_hash : list Z) (difficulty : Z) : result E (list Z) :=
  let data := nonce ++ be_bytes 8 timestamp ++ addr_hash ++ [difficulty] in
  let tag := hmac_sign secret data in
  let? s := range tag 0 16 in
  copy_from_slice (replicate 16 0) 0 16 s.

Definition compute_cookie_hmac {E} (s : t) (nonce : list Z) (timestamp : Z)
    (addr_hash : list Z) (difficulty : Z) : result E (list Z) :=
  compute_cookie_hmac_with (CookieSecrets.current (cookie_secrets s)) nonce timestamp addr_hash
    difficulty.

(** [random] is the challenge [CookieRequest::new] draws. *)
Definition create_cookie_request (s : t) (instant instant' : Z) (fresh random : list Z)
    (now : option Z) (client_addr : SocketAddr.t) : t * result ProtocolError.t CookieRequest.t :=
  let s := maybe_rotate_cookie_secret s instant instant' fresh in
  (s,
   let? request := CookieRequest.new random now (cookie_difficulty s) client_addr in
   let? nonce := range (CookieRequest.challenge request) 0 8 in
   let? challenge := copy_from_slice (CookieRequest.challenge request) 8 16
     (be_bytes 8 (CookieRequest.timestamp request)) in
   let? hmac_tag := compute_cookie_hmac s nonce (CookieRequest.timestamp request)
     (CookieRequest.server_addr_hash request) (CookieRequest.difficulty request) in
   let? challenge := copy_from_slice challenge 16 32 hmac_tag in
   Ok (CookieRequest.mk challenge (CookieRequest.difficulty request)
         (CookieRequest.server_addr_hash request) (CookieRequest.timestamp request))).

Definition verify_cookie_reply (s : t) (instant instant' : Z) (fresh : list Z) (now : option Z)
    (reply : CookieReply.t) (client_addr : SocketAddr.t) : t * result ProtocolError.t unit :=
  let s := maybe_rotate_cookie_secret s instant instant' fresh in
  (s,
   let? nonce := range (CookieReply.challenge reply) 0 8 in
   let? ts := range (CookieReply.challenge reply) 8 16 in
   let timestamp := from_be ts in
   let? received_tag := range (CookieReply.challenge reply) 16 32 in
   let? addr_hash := addr_hash client_addr in
   let? current_tag :=
     compute_cookie_hmac_with (CookieSecrets.current (cookie_secrets s)) nonce timestamp addr_hash
       (cookie_difficulty s) in
   let? previous_tag :=
     match CookieSecrets.previous (cookie_secrets s) with
     | Some prev =>
         let? tag :=
           compute_cookie_hmac_with prev nonce timestamp addr_hash (cookie_difficulty s) in
         Ok (Some tag)
     | None => Ok None
     end in
   let matches_current := bool_decide (received_tag = current_tag) in
   let matches_previous :=
     match previous_tag with Some tag => bool_decide (received_tag = tag) | None => false end in
   if negb matches_current && negb matches_previous then
     Err (ProtocolError.HandshakeFailed
            "invalid cookie: HMAC verification failed (forged or wrong client)")
   else
     let now := match now with Some s => s | None => 0 end in
     if now + 5 <? timestamp then
       Err (ProtocolError.HandshakeFailed "invalid cookie: timestamp in the future")
     else if DEFAULT_COOKIE_MAX_AGE_SECS <? saturating_sub now timestamp then
       Err (ProtocolError.HandshakeFailed "invalid cookie: challenge expired")
     else if negb (CookieReply.verify reply (cookie_difficulty s)) then
       Err (ProtocolError.HandshakeFailed "invalid cookie solution")
     else Ok tt).

Definition process_init (s : t) (server_random x25519_rng mlkem_rng sign_rng : list Z)
    (now : option Z) (init : HandshakeInit.t) (session_id : Z) (config : TunnelConfig.t)
    : result ProtocolError.t (HandshakeResponse.t * SessionKeys.t) :=
  let? (handshake_secret, ciphertext) := map_err (failed_with "key exchange failed")
    (HybridKem.encapsulate x25519_rng mlkem_rng (HandshakeInit.client_ephemeral_pk init)) in
  let transcript :=
    build_transcript PROTOCOL_VERSION (Some session_id) (HandshakeInit.client_random init)
      server_random ciphertext config in
  let? signature := map_err (failed_with "signing failed")
    (MlDsaKeypair.sign (server_keypair s) sign_rng transcript) in
  let timestamp := match now with Some s => s | None => 0 end in
  let? session_keys := map_err (failed_with "key derivation failed")
    (derive_session_keys_with_context handshake_secret session_id timestamp) in
  let server_keys := SessionKeys.swap session_keys in
  let key_confirmation :=
    compute_key_confirmation (SessionKeys.send_key server_keys) transcript in
  Ok (HandshakeResponse.mk session_id ciphertext (MlDsaKeypair.public_key (server_keypair s))
        signature server_random config key_confirmation timestamp,
      server_keys).

Definition process_encrypted_init (s : t) (server_random x25519_rng mlkem_rng sign_rng : list Z)
    (now : option Z) (encrypted_init : EncryptedHandshakeInit.t) (session_id : Z)
    (config : TunnelConfig.t) : result ProtocolError.t (HandshakeResponse.t * SessionKeys.t) :=
  let? kem_keypair := ok_or
    (ProtocolError.HandshakeFailed "server KEM keypair not configured for identity hiding")
    (server_kem_keypair s) in
  let? inner_init := EncryptedHandshakeInit.decrypt encrypted_init (fst kem_keypair) in
  process_init s server_random x25519_rng mlkem_rng sign_rng now inner_init session_id config.

Definition process_rekey (s : t) (server_random x25519_rng mlkem_rng sign_rng : list Z)
    (now : option Z) (rekey : RekeyMessage.t) (current_key_id session_id : Z)
    : result ProtocolError.t (RekeyResponse.t * SessionKeys.t) :=
  let? (handshake_secret, ciphertext) := map_err (failed_with "key encapsulation failed")
    (HybridKem.encapsulate x25519_rng mlkem_rng (RekeyMessage.client_ephemeral_pk rekey)) in
  let transcript :=
    build_rekey_transcript session_id (RekeyMessage.client_random rekey) server_random ciphertext in
  let? signature := map_err (failed_with "signing failed")
    (MlDsaKeypair.sign (server_keypair s) sign_rng transcript) in
  let timestamp := match now with Some s => s | None => 0 end in
  let? session_keys := map_err (failed_with "key derivation failed")
    (derive_session_keys_with_context handshake_secret session_id timestamp) in
  let server_keys := SessionKeys.swap session_keys in
  let key_confirmation :=
    compute_key_confirmation (SessionKeys.send_key server_keys) transcript in
  let new_key_id := KeyId.next current_key_id in
  Ok (RekeyResponse.mk ciphertext signature server_random new_key_id key_confirmation timestamp
        session_id,
      server_keys).

End Crypto.

End ServerHandshake.

(** * Rekeying, and responses whose configuration changed *)

Module ClientRekey.

Record t := mk {
  client_keypair : option (HybridSecretKey.t * HybridPublicKey.t);
  client_random : option (list Z);
  server_pk : list Z;
  security_level : SecurityLevel.t;
  session_id : Z;
}.

Definition with_security_level (server_pk : list Z) (session_id : Z)
    (security_level : SecurityLevel.t) : t :=
  mk None None server_pk security_level session_id.

Definition new (server_pk : list Z) (session_id : Z) : t :=
  with_security_level server_pk session_id SecurityLevel.default.

Section Crypto.
Context {D : RingDigest} {M : MlDsa} {K : KemPrimitives} {H : Hkdf}.

Definition create_request (x25519_rng mlkem_seed random : list Z) (c : t)
    : t * result CryptoError.t RekeyMessage.t :=
  match HybridKem.generate_keypair_with_level x25519_rng mlkem_seed (security_level c) with
  | Ok (sk, pk) =>
      let rekey := RekeyMessage.new random pk in
      (mk (Some (sk, pk)) (Some (RekeyMessage.client_random rekey)) (server_pk c)
         (security_level c) (session_id c),
       Ok rekey)
  | Err e => (c, Err e)
  | Panic => (c, Panic)
  end.

(** [take] empties the keypair first, then the random. *)
Definition process_response (c : t) (response : RekeyResponse.t)
    : t * result ProtocolError.t SessionKeys.t :=
  match client_keypair c with
  | None => (c, Err ProtocolError.InvalidStateTransition)
  | Some (client_sk, _) =>
      let c1 := mk None (client_random c) (server_pk c) (security_level c) (session_id c) in
      match client_random c with
      | None => (c1, Err ProtocolError.InvalidStateTransition)
      | Some client_random =>
          let c2 := mk None None (server_pk c) (security_level c) (session_id c) in
          let transcript :=
            build_rekey_transcript (session_id c) client_random
              (RekeyResponse.server_random response) (RekeyResponse.server_ciphertext response) in
          (c2,
           let? _ := map_err (failed_with "rekey signature verification failed")
             (signature.verify (server_pk c) transcript (RekeyResponse.signature response)
                (security_level c)) in
           let? handshake_secret := map_err (failed_with "rekey decapsulation failed")
             (HybridKem.decapsulate client_sk (RekeyResponse.server_ciphertext response)) in
           let? session_keys := map_err (failed_with "key derivation failed")
             (derive_session_keys_with_context handshake_secret
                (RekeyResponse.session_id response) (RekeyResponse.kdf_timestamp response)) in
           let? _ := map_err (failed_with "rekey key confirmation failed")
             (verify_key_confirmation (SessionKeys.recv_key session_keys) transcript
                (RekeyResponse.key_confirmation response)) in
           Ok session_keys)
      end
  end.

End Crypto.

End ClientRekey.

Section Refresh.
Context {D : RingDigest} {M : MlDsa}.

Definition refresh_handshake_response_auth (sign_rng : list Z) (response : HandshakeResponse.t)
    (client_random : list Z) (security_level : SecurityLevel.t) (server_keypair : MlDsaKeypair.t)
    (server_send_key : list Z) : HandshakeResponse.t * result ProtocolError.t unit :=
  let transcript :=
    build_transcript PROTOCOL_VERSION (Some (HandshakeResponse.session_id response)) client_random
      (HandshakeResponse.server_random response) (HandshakeResponse.server_ciphertext response)
      (HandshakeResponse.config response) in
  match map_err (failed_with (A:=CryptoError.t) "failed to sign handshake transcript")
          (signature.sign sign_rng (MlDsaKeypair.secret_key server_keypair) transcript
             security_level) with
  | Ok signature =>
      (HandshakeResponse.mk (HandshakeResponse.session_id response)
         (HandshakeResponse.server_ciphertext response)
         (HandshakeResponse.server_static_pk response) signature
         (HandshakeResponse.server_random response) (HandshakeResponse.config response)
         (compute_key_confirmation server_send_key transcript)
         (HandshakeResponse.kdf_timestamp response),
       Ok tt)
  | Err e => (response, Err e)
  | Panic => (response, Panic)
  end.

End Refresh.
