(* ===== verification/Agreement.v ===== *)
(** What the two ends of the handshake agree on, and what the client has
    established when it accepts a response. *)

From S2P Require Import Prelude Types Codec Wire Net Digest Tunnel Keys Signature Kem Kdf Aead Init.
From S2P Require Import Response Cookie Handshake Session.

(** * Transcripts determine what they bind *)

Lemma le_bytes_inj x y : u64 x -> u64 y -> le_bytes 8 x = le_bytes 8 y -> x = y.
Proof.
  intros Hx Hy H. apply (be_bytes_inj 8); [done|done|]. unfold be_bytes. by rewrite H.
Qed.

Lemma ct_to_bytes_inj a b x y :
  HybridCiphertext.wf a -> HybridCiphertext.wf b ->
  HybridCiphertext.to_bytes a ++ x = HybridCiphertext.to_bytes b ++ y -> a = b /\ x = y.
Proof.
  intros Ha Hb H. pose proof (HybridCiphertext.ct_from_bytes a x Ha) as Ea.
  rewrite H, HybridCiphertext.ct_from_bytes in Ea by done. injection Ea as ->.
  split; [done|]. by apply app_inv_head in H.
Qed.

Lemma transcript_inj v sid cr sr ct cfg v' sid' cr' sr' ct' cfg' :
  u64 sid -> u64 sid' -> len cr = 32 -> len cr' = 32 -> len sr = 32 -> len sr' = 32 ->
  HybridCiphertext.wf ct -> HybridCiphertext.wf ct' ->
  TunnelConfig.wf cfg -> TunnelConfig.wf cfg' ->
  build_transcript v (Some sid) cr sr ct cfg = build_transcript v' (Some sid') cr' sr' ct' cfg' ->
  v = v' /\ sid = sid' /\ cr = cr' /\ sr = sr' /\ ct = ct' /\ cfg = cfg'.
Proof.
  intros Hs Hs' Lc Lc' Lr Lr' Hct Hct' Hcfg Hcfg' H. unfold build_transcript in H.
  apply app_cut in H as [Ev H]; [|done]. injection Ev as ->.
  apply app_cut in H as [Es H]; [|by rewrite !len_le_bytes].
  apply app_cut in H as [-> H]; [|lia]. apply app_cut in H as [-> H]; [|lia].
  apply ct_to_bytes_inj in H as [-> H]; [|done|done].
  apply app_cut in H as [_ H]; [|by rewrite !len_be_bytes].
  apply le_bytes_inj in Es; [|done|done].
  split_and!; try done. by eapply (codec_inj (wf:=TunnelConfig.wf)).
Qed.

Lemma rekey_transcript_inj sid cr sr ct sid' cr' sr' ct' :
  u64 sid -> u64 sid' -> len cr = 32 -> len cr' = 32 -> len sr = 32 -> len sr' = 32 ->
  HybridCiphertext.wf ct -> HybridCiphertext.wf ct' ->
  build_rekey_transcript sid cr sr ct = build_rekey_transcript sid' cr' sr' ct' ->
  sid = sid' /\ cr = cr' /\ sr = sr' /\ ct = ct'.
Proof.
  intros Hs Hs' Lc Lc' Lr Lr' Hct Hct' H. unfold build_rekey_transcript, SessionId.to_bytes in H.
  apply app_cut in H as [_ H]; [|done]. apply app_cut in H as [_ H]; [|done].
  apply app_cut in H as [Es H]; [|by rewrite !len_be_bytes].
  apply app_cut in H as [-> H]; [|lia]. apply app_cut in H as [-> H]; [|lia].
  apply (f_equal (fun l => l ++ [])) in H. apply ct_to_bytes_inj in H as [-> _]; [|done|done]. apply be_bytes_inj in Es; done.
Qed.

Section Handshake.
Context {R : RingAead} {RL : RingAeadLaws} {D : RingDigest} {DL : RingDigestLaws}.
Context {M : MlDsa} {ML : MlDsaLaws} {K : KemPrimitives} {KL : KemLaws} {H : Hkdf} {HL : HkdfLaws}.

(** * The server's answer to a generated client key *)

Lemma verify_confirmation_ok key transcript :
  verify_key_confirmation key transcript (compute_key_confirmation key transcript) = Ok tt.
Proof.
  unfold verify_key_confirmation, compute_key_confirmation. rewrite hmac_verify_spec.
  by rewrite bool_decide_true.
Qed.

(** What a response must satisfy for the client that holds [sk] and [cr]. *)
Definition answers (level : SecurityLevel.t) (sk : HybridSecretKey.t) (cr : list Z) (sid : Z)
    (cfg : TunnelConfig.t) (keys : SessionKeys.t) (m : HandshakeResponse.t) : Prop :=
  HandshakeResponse.wf level m /\ HandshakeResponse.session_id m = sid /\
  HandshakeResponse.config m = cfg /\ SessionKeys.wf keys /\
  (exists ss,
     HybridKem.decapsulate sk (HandshakeResponse.server_ciphertext m) = Ok ss /\
     derive_session_keys_with_context ss sid (HandshakeResponse.kdf_timestamp m) = Ok keys) /\
  let transcript :=
    build_transcript PROTOCOL_VERSION (Some sid) cr (HandshakeResponse.server_random m)
      (HandshakeResponse.server_ciphertext m) cfg in
  signature.verify (HandshakeResponse.server_static_pk m) transcript
    (HandshakeResponse.signature m) level = Ok tt /\
  HandshakeResponse.key_confirmation m =
    compute_key_confirmation (SessionKeys.recv_key keys) transcript.

(** The part of this that the configuration and its signature do not touch. *)
Definition answered (level : SecurityLevel.t) (sk : HybridSecretKey.t) (sid : Z) (keys : SessionKeys.t)
    (pk : list Z) (m : HandshakeResponse.t) : Prop :=
  u64 sid /\ HandshakeResponse.session_id m = sid /\
  HybridCiphertext.wf (HandshakeResponse.server_ciphertext m) /\
  HybridCiphertext.security_level (HandshakeResponse.server_ciphertext m) = level /\
  HandshakeResponse.server_static_pk m = pk /\ bytes_ok pk /\
  len pk = MlDsaPublicKey.size_for_level level /\
  bytes_ok (HandshakeResponse.server_random m) /\ len (HandshakeResponse.server_random m) = 32 /\
  u64 (HandshakeResponse.kdf_timestamp m) /\ SessionKeys.wf keys /\
  exists ss,
    HybridKem.decapsulate sk (HandshakeResponse.server_ciphertext m) = Ok ss /\
    derive_session_keys_with_context ss sid (HandshakeResponse.kdf_timestamp m) = Ok keys.

(** A transcript of such a response signed with the server's key. *)
Lemma answered_answers level sk cr sid keys seedS sg m sig cfg :
  let kp := MlDsaKeypair.generate_with_level seedS level in
  let tr := build_transcript PROTOCOL_VERSION (Some sid) cr (HandshakeResponse.server_random m)
              (HandshakeResponse.server_ciphertext m) cfg in
  answered level sk sid keys (MlDsaKeypair.public_key kp) m -> TunnelConfig.wf cfg ->
  MlDsaKeypair.sign kp sg tr = Ok sig ->
  answers level sk cr sid cfg keys
    (HandshakeResponse.mk sid (HandshakeResponse.server_ciphertext m) (MlDsaKeypair.public_key kp) sig
       (HandshakeResponse.server_random m) cfg
       (compute_key_confirmation (SessionKeys.recv_key keys) tr) (HandshakeResponse.kdf_timestamp m)).
Proof.
  intros kp tr (Hsid & _ & Hct & Hctl & _ & Hpb & Hpl & Hsb & Hsl & Hts & Hk & Hss) Hcfg Hsign.
  destruct (MlDsaKeypair.sign_verifies seedS level sg tr) as (sig' & Hs & Hsigl & Hsw & Hv).
  fold kp in Hs. rewrite Hsign in Hs. injection Hs as <-.
  destruct (hmac_size (SessionKeys.recv_key keys) tr) as [Hml Hmb].
  unfold answers, HandshakeResponse.wf; cbn [HandshakeResponse.session_id
    HandshakeResponse.server_ciphertext HandshakeResponse.server_static_pk
    HandshakeResponse.signature HandshakeResponse.server_random HandshakeResponse.config
    HandshakeResponse.key_confirmation HandshakeResponse.kdf_timestamp].
  by split_and!.
Qed.

Lemma process_init_core (s : ServerHandshake.t) seedS level x seed sk pk init sr x' m' sg ts sid cfg :
  let kp := MlDsaKeypair.generate_with_level seedS level in
  ServerHandshake.server_keypair s = kp ->
  HybridKem.generate_keypair_with_level x seed level = Ok (sk, pk) ->
  HandshakeInit.client_ephemeral_pk init = pk ->
  len x = 32 -> len x' = 32 -> bytes_ok sr -> len sr = 32 -> u64 ts -> u64 sid ->
  exists m keys,
    ServerHandshake.process_init s sr x' m' sg (Some ts) init sid cfg = Ok (m, SessionKeys.swap keys) /\
    HandshakeResponse.config m = cfg /\
    answered level sk sid keys (MlDsaKeypair.public_key kp) m /\
    (TunnelConfig.wf cfg -> answers level sk (HandshakeInit.client_random init) sid cfg keys m).
Proof.
  intros kp Hkp Hg Hpk Hx Hx' Hsb Hsr Hts Hsid. unfold ServerHandshake.process_init. rewrite Hpk.
  destruct (HybridKem.encapsulate_agrees x seed level x' m' sk pk Hx Hx' Hg)
    as (ss & ct & -> & Hd & Hct & Hctl & _). sbind.
  set (tr := build_transcript _ _ _ _ _ _). rewrite Hkp.
  destruct (MlDsaKeypair.sign_verifies seedS level sg tr) as (sig & Hsig & _). fold kp in Hsig. rewrite Hsig. sbind.
  destruct (derive_session_keys_ok ss sid ts) as (keys & Hk & Hkw). rewrite Hk. sbind.
  destruct (MlDsaKeypair.generate_wf seedS level) as (_ & Hpb & Hpl & _).
  set (m := HandshakeResponse.mk _ _ _ _ _ _ _ _).
  assert (answered level sk sid keys (MlDsaKeypair.public_key kp) m) as Hans.
  { unfold answered. cbn [m HandshakeResponse.session_id HandshakeResponse.server_ciphertext
      HandshakeResponse.server_static_pk HandshakeResponse.server_random HandshakeResponse.kdf_timestamp].
    split_and!; first [done | by exists ss | by destruct level]. }
  exists m, keys. split_and!; try done. intros Hcfg. by eapply answered_answers.
Qed.

Lemma process_init_answers (s : ServerHandshake.t) seedS level x seed sk pk init sr x' m' sg ts sid cfg :
  ServerHandshake.server_keypair s = MlDsaKeypair.generate_with_level seedS level ->
  HybridKem.generate_keypair_with_level x seed level = Ok (sk, pk) ->
  HandshakeInit.client_ephemeral_pk init = pk ->
  len x = 32 -> len x' = 32 -> bytes_ok sr -> len sr = 32 -> u64 ts -> u64 sid ->
  TunnelConfig.wf cfg ->
  exists m keys,
    ServerHandshake.process_init s sr x' m' sg (Some ts) init sid cfg = Ok (m, SessionKeys.swap keys) /\
    HandshakeResponse.server_static_pk m = ServerHandshake.public_key s /\
    answers level sk (HandshakeInit.client_random init) sid cfg keys m.
Proof.
  intros Hkp Hg Hpk Hx Hx' Hsb Hsr Hts Hsid Hcfg.
  destruct (process_init_core s seedS level x seed sk pk init sr x' m' sg ts sid cfg)
    as (m & keys & Hm & _ & Hans & Ha); try done.
  exists m, keys. split_and!; [done| |by apply Ha].
  destruct Hans as (_ & _ & _ & _ & -> & _). unfold ServerHandshake.public_key. by rewrite Hkp.
Qed.

(** A client waiting for an answer accepts such a response. *)
Lemma process_response_answers (c : ClientHandshake.t) level sk pk cr sid cfg keys m :
  ClientHandshake.state c = HandshakeState.AwaitingResponse \/
    ClientHandshake.state c = HandshakeState.AwaitingResponseAfterCookie ->
  ClientHandshake.client_keypair c = Some (sk, pk) -> ClientHandshake.client_random c = Some cr ->
  ClientHandshake.security_level c = level ->
  ClientHandshake.expected_server_pk c = None \/
    ClientHandshake.expected_server_pk c = Some (HandshakeResponse.server_static_pk m) ->
  answers level sk cr sid cfg keys m ->
  exists c', ClientHandshake.process_response c m = (c', Ok (sid, keys, cfg)) /\
    ClientHandshake.state c' = HandshakeState.Established /\
    ClientHandshake.session_id c' = Some sid /\ ClientHandshake.session_keys c' = Some keys /\
    ClientHandshake.tunnel_config c' = Some cfg.
Proof.
  intros Hst Hkp Hcr Hl Hpin (Hw & Hsid & Hcfg & _ & (ss & Hd & Hk) & Hv & Hm).
  unfold ClientHandshake.process_response. rewrite Hkp, Hcr, Hl.
  replace (negb _ && negb _) with false
    by (destruct Hst as [-> | ->]; by repeat case_bool_decide).
  replace (ClientHandshake.pin_mismatch c _) with false.
  2: { unfold ClientHandshake.pin_mismatch. destruct Hpin as [-> | ->]; [done|].
       by rewrite bool_decide_true. }
  destruct Hw as (_ & _ & _ & _ & Hpk & _). rewrite Hpk.
  replace (_ =? _) with true by (by destruct level). cbn [negb]. cbv iota.
  rewrite Hsid, Hcfg, Hv. cbn [is_ok negb]. cbv iota.
  unfold ClientHandshake.finish_response. rewrite Hd, Hsid, Hk, Hm, verify_confirmation_ok, Hcfg.
  eexists. split; [done|]. done.
Qed.

Lemma create_init_ok (c : ClientHandshake.t) x seed rnd :
  ClientHandshake.state c = HandshakeState.Idle -> bytes_ok rnd -> len rnd = 32 ->
  let level := ClientHandshake.security_level c in
  exists sk pk c1 init,
    HybridKem.generate_keypair_with_level x seed level = Ok (sk, pk) /\
    ClientHandshake.create_init x seed rnd c = (c1, Ok init) /\ HandshakeInit.wf init /\
    HandshakeInit.client_ephemeral_pk init = pk /\ HandshakeInit.client_random init = rnd /\
    ClientHandshake.state c1 = HandshakeState.AwaitingResponse /\
    ClientHandshake.client_keypair c1 = Some (sk, pk) /\ ClientHandshake.client_random c1 = Some rnd /\
    ClientHandshake.security_level c1 = level /\
    ClientHandshake.expected_server_pk c1 = ClientHandshake.expected_server_pk c.
Proof.
  intros Hst Hb Hl level. destruct (HybridKem.generate_keypair_total x seed level) as (sk & pk & Hg).
  destruct (HybridKem.generate_keypair_inv _ _ _ _ _ Hg) as [Hw Hpl].
  unfold ClientHandshake.create_init. rewrite Hst, bool_decide_true by done. cbn [negb]. cbv iota.
  fold level. rewrite Hg. do 4 eexists. split; [done|]. split; [done|]. split; [|done].
  by split_and!.
Qed.

(** Sessions opened with the two sides of a key set. *)
Lemma sessions_linked sid keys now now' :
  u64 sid -> SessionKeys.wf keys ->
  exists sc ss, Session.new now sid keys = Ok sc /\ Session.new now' sid (SessionKeys.swap keys) = Ok ss /\
    Session.linked sc ss /\ Session.linked ss sc.
Proof.
  intros Hs Hk. destruct (Session.new_ok now sid keys Hs Hk) as (sc & Hc & _).
  destruct (Session.new_ok now' sid _ Hs (SessionKeys.swap_wf _ Hk)) as (ss & Hss & _).
  exists sc, ss. split; [done|]. split; [done|]. by eapply Session.new_linked.
Qed.

(** C5: the handshake: a fresh client of either level and a server whose
    signing key is of that level and is the pinned one, if the client pins
    one, complete the handshake over the wire.  The client ends established
    with the session id, the configuration and the mirror image of the
    server's keys, and the sessions opened with the two key sets decrypt each
    other's packets. *)
Theorem handshake_agreement (c : ClientHandshake.t) (s : ServerHandshake.t)
    seedS x seed rnd sr x' m' sg ts sid cfg now now' :
  let level := ClientHandshake.security_level c in
  ClientHandshake.state c = HandshakeState.Idle ->
  ServerHandshake.server_keypair s = MlDsaKeypair.generate_with_level seedS level ->
  ClientHandshake.expected_server_pk c = None \/
    ClientHandshake.expected_server_pk c = Some (ServerHandshake.public_key s) ->
  len x = 32 -> len x' = 32 -> bytes_ok rnd -> len rnd = 32 -> bytes_ok sr -> len sr = 32 ->
  u64 ts -> u64 sid -> TunnelConfig.wf cfg ->
  exists c1 init m server_keys c2 client_keys sc ss,
    ClientHandshake.create_init x seed rnd c = (c1, Ok init) /\
    HandshakeInit.from_bytes (HandshakeInit.to_bytes init) = Ok init /\
    ServerHandshake.process_init s sr x' m' sg (Some ts) init sid cfg = Ok (m, server_keys) /\
    HandshakeResponse.from_bytes_with_level (HandshakeResponse.to_bytes m) level = Ok m /\
    ClientHandshake.process_response c1 m = (c2, Ok (sid, client_keys, cfg)) /\
    ClientHandshake.state c2 = HandshakeState.Established /\
    client_keys = SessionKeys.swap server_keys /\
    Session.new now sid client_keys = Ok sc /\ Session.new now' sid server_keys = Ok ss /\
    Session.linked sc ss /\ Session.linked ss sc.
Proof.
  intros level Hst Hkp Hpin Hx Hx' Hrb Hrl Hsb Hsl Hts Hsid Hcfg.
  destruct (create_init_ok c x seed rnd Hst Hrb Hrl)
    as (sk & pk & c1 & init & Hg & Hc & Hi & Hpk & Hcr & Hst1 & Hkp1 & Hr1 & Hl1 & Hp1).
  destruct (process_init_answers s seedS level x seed sk pk init sr x' m' sg ts sid cfg)
    as (m & keys & Hm & Hspk & Ha); [done..|]. rewrite Hcr in Ha. pose proof Ha as (Hw & _ & _ & Hk & _).
  destruct (process_response_answers c1 level sk pk rnd sid cfg keys m) as (c2 & Hr & He & _);
    [by left|done..|by rewrite Hp1, Hspk|done|].
  destruct (sessions_linked sid keys now now' Hsid Hk) as (sc & ss & Hsc & Hss & L1 & L2).
  exists c1, init, m, (SessionKeys.swap keys), c2, keys, sc, ss. rewrite SessionKeys.swap_swap.
  split_and!; try done.
  - rewrite <- (app_nil_r (_ init)). by apply HandshakeInit.init_roundtrip.
  - rewrite <- (app_nil_r (_ m)). by apply HandshakeResponse.response_roundtrip.
Qed.

(** The handshake with identity hiding: a client that encrypts its
    initiation for the server's KEM key, of either level, reaches the same
    agreement through the server's decryption of it. *)
Lemma hidden_handshake_agreement (c : ClientHandshake.t) (s : ServerHandshake.t)
    seedS kx kseed klevel ksk kpk x seed rnd ex em sr x' m' sg ts sid cfg :
  let level := ClientHandshake.security_level c in
  ClientHandshake.state c = HandshakeState.Idle ->
  ServerHandshake.server_keypair s = MlDsaKeypair.generate_with_level seedS level ->
  HybridKem.generate_keypair_with_level kx kseed klevel = Ok (ksk, kpk) ->
  ServerHandshake.server_kem_keypair s = Some (ksk, kpk) ->
  ClientHandshake.server_kem_pk c = Some kpk ->
  ClientHandshake.expected_server_pk c = Some (ServerHandshake.public_key s) ->
  len kx = 32 -> len ex = 32 -> len x = 32 -> len x' = 32 ->
  bytes_ok rnd -> len rnd = 32 -> bytes_ok sr -> len sr = 32 ->
  u64 ts -> u64 sid -> TunnelConfig.wf cfg ->
  exists c1 e m server_keys c2,
    ClientHandshake.create_encrypted_init x seed rnd ex em c = (c1, Ok e) /\
    EncryptedHandshakeInit.from_bytes (EncryptedHandshakeInit.to_bytes e) = Ok e /\
    ServerHandshake.process_encrypted_init s sr x' m' sg (Some ts) e sid cfg = Ok (m, server_keys) /\
    ClientHandshake.process_response c1 m = (c2, Ok (sid, SessionKeys.swap server_keys, cfg)) /\
    ClientHandshake.state c2 = HandshakeState.Established.
Proof.
  intros level Hst Hkp Hkg Hskem Hckem Hpin Hkx Hex Hx Hx' Hrb Hrl Hsb Hsl Hts Hsid Hcfg.
  destruct (create_init_ok c x seed rnd Hst Hrb Hrl)
    as (sk & pk & c1 & init & Hg & Hc & Hi & Hpk & Hcr & Hst1 & Hkp1 & Hr1 & Hl1 & Hp1).
  destruct (EncryptedHandshakeInit.hidden_encrypt_ok kx kseed klevel ex em ksk kpk init)
    as (e & He & Hew & Hd & _); [done..|].
  destruct (process_init_answers s seedS level x seed sk pk init sr x' m' sg ts sid cfg)
    as (m & keys & Hm & Hspk & Ha); [done..|]. rewrite Hcr in Ha.
  destruct (process_response_answers c1 level sk pk rnd sid cfg keys m) as (c2 & Hr & Hes & _);
    [by left|done..|right; by rewrite Hp1, Hspk|done|].
  exists c1, e, m, (SessionKeys.swap keys), c2. rewrite SessionKeys.swap_swap.
  split_and!; try done.
  - unfold ClientHandshake.create_encrypted_init. rewrite Hckem, Hc. sbind. by rewrite He.
  - by apply EncryptedHandshakeInit.encrypted_init_roundtrip.
  - unfold ServerHandshake.process_encrypted_init. rewrite Hskem. sbind. by rewrite Hd.
Qed.

(** * What an accepted response proves *)

Lemma finish_response_ok (c : ClientHandshake.t) sk transcript m c' sid keys cfg :
  ClientHandshake.finish_response c sk transcript m = (c', Ok (sid, keys, cfg)) ->
  ClientHandshake.state c' = HandshakeState.Established /\
  sid = HandshakeResponse.session_id m /\ cfg = HandshakeResponse.config m /\
  (exists ss,
     HybridKem.decapsulate sk (HandshakeResponse.server_ciphertext m) = Ok ss /\
     derive_session_keys_with_context ss sid (HandshakeResponse.kdf_timestamp m) = Ok keys) /\
  HandshakeResponse.key_confirmation m =
    compute_key_confirmation (SessionKeys.recv_key keys) transcript.
Proof.
  unfold ClientHandshake.finish_response, ClientHandshake.fail.
  destruct (HybridKem.decapsulate sk _) as [ss|e|] eqn:Ed; [|done|done].
  destruct (derive_session_keys_with_context ss _ _) as [k|e|] eqn:Ek; [|done|done].
  unfold verify_key_confirmation. rewrite hmac_verify_spec.
  destruct (bool_decide (HandshakeResponse.key_confirmation m = _)) eqn:Em; [|done].
  b2p. intros [= <- <- <- <-]. split_and!; try done. by exists ss.
Qed.

Lemma process_response_ok (c : ClientHandshake.t) m c' sid keys cfg :
  ClientHandshake.process_response c m = (c', Ok (sid, keys, cfg)) ->
  (ClientHandshake.state c = HandshakeState.AwaitingResponse \/
     ClientHandshake.state c = HandshakeState.AwaitingResponseAfterCookie) /\
  exists sk pk cr,
    ClientHandshake.client_keypair c = Some (sk, pk) /\ ClientHandshake.client_random c = Some cr /\
    ClientHandshake.pin_mismatch c (HandshakeResponse.server_static_pk m) = false /\
    let transcript :=
      build_transcript PROTOCOL_VERSION (Some (HandshakeResponse.session_id m)) cr
        (HandshakeResponse.server_random m) (HandshakeResponse.server_ciphertext m)
        (HandshakeResponse.config m) in
    signature.verify (HandshakeResponse.server_static_pk m) transcript
      (HandshakeResponse.signature m) (ClientHandshake.security_level c) = Ok tt /\
    ClientHandshake.finish_response c sk transcript m = (c', Ok (sid, keys, cfg)).
Proof.
  unfold ClientHandshake.process_response, ClientHandshake.fail. intros Hp.
  destruct (negb _ && negb _) eqn:Est; [discriminate Hp|].
  destruct (ClientHandshake.client_keypair c) as [[sk pk]|]; [|discriminate Hp].
  destruct (ClientHandshake.client_random c) as [cr|]; [|discriminate Hp].
  destruct (ClientHandshake.pin_mismatch c _) eqn:Epin; [discriminate Hp|].
  destruct (negb (_ =? _)); [discriminate Hp|].
  destruct (signature.verify _ (build_transcript _ _ _ _ _ _) _ _) as [[]|e|] eqn:Ev;
    [|discriminate Hp|discriminate Hp].
  split; [apply andb_false_iff in Est as [?|?]; b2p; auto|]. by exists sk, pk, cr.
Qed.

(** C9: what the client accepts is authentic: a response is accepted only by a
    client that waits for one, with the pinned key if there is one, with a
    signature of that key on a transcript that binds the protocol version, the
    session id, this client's random, the server's random, the ciphertext and
    the configuration (no other values have the same transcript), with keys
    derived from what this client's ephemeral key recovers, and with the
    confirmation of those keys. *)
Theorem response_authentic (c : ClientHandshake.t) m c' sid keys cfg :
  HandshakeResponse.wf (ClientHandshake.security_level c) m ->
  (forall cr, ClientHandshake.client_random c = Some cr -> len cr = 32) ->
  ClientHandshake.process_response c m = (c', Ok (sid, keys, cfg)) ->
  (ClientHandshake.state c = HandshakeState.AwaitingResponse \/
     ClientHandshake.state c = HandshakeState.AwaitingResponseAfterCookie) /\
  ClientHandshake.state c' = HandshakeState.Established /\
  (forall pk, ClientHandshake.expected_server_pk c = Some pk ->
     HandshakeResponse.server_static_pk m = pk) /\
  exists sk pk cr ss transcript,
    ClientHandshake.client_keypair c = Some (sk, pk) /\ ClientHandshake.client_random c = Some cr /\
    HybridKem.decapsulate sk (HandshakeResponse.server_ciphertext m) = Ok ss /\
    derive_session_keys_with_context ss sid (HandshakeResponse.kdf_timestamp m) = Ok keys /\
    HandshakeResponse.key_confirmation m = hmac_sign (SessionKeys.recv_key keys) transcript /\
    signature.verify (HandshakeResponse.server_static_pk m) transcript
      (HandshakeResponse.signature m) (ClientHandshake.security_level c) = Ok tt /\
    forall v' sid' cr' sr' ct' cfg',
      u64 sid' -> len cr' = 32 -> len sr' = 32 -> HybridCiphertext.wf ct' -> TunnelConfig.wf cfg' ->
      transcript = build_transcript v' (Some sid') cr' sr' ct' cfg' <->
      v' = PROTOCOL_VERSION /\ sid' = sid /\ cr' = cr /\
      sr' = HandshakeResponse.server_random m /\
      ct' = HandshakeResponse.server_ciphertext m /\ cfg' = cfg.
Proof.
  intros (Wsid & Wct & _ & _ & _ & _ & _ & _ & Wsr & Wcfg & _) Hlen Hp.
  apply process_response_ok in Hp as (Hst & sk & pk & cr & Hkp & Hcr & Hpin & Hv & Hf).
  apply finish_response_ok in Hf as (Hes & -> & -> & (ss & Hd & Hk) & Hm).
  split; [done|]. split; [done|]. split.
  { intros pk' He. unfold ClientHandshake.pin_mismatch in Hpin. rewrite He in Hpin. by b2p. }
  do 5 eexists. do 6 (split; [done|]). intros v' sid' cr' sr' ct' cfg' Hs' Hc' Hr' Hct' Hcfg'.
  split.
  - intros Heq. pose proof (Hlen _ Hcr).
    apply transcript_inj in Heq as (? & ? & ? & ? & ? & ?); [by split_and!|done..].
  - by intros (-> & -> & -> & -> & -> & ->).
Qed.

(** * Rekeying *)

(** C10: rekeying: for a client that holds the server's key, the server's answer
    to its request is accepted, over the wire, and gives the mirror image of
    the server's new keys and the next key id; two linked sessions that take
    up these keys are linked again with their counters at zero; and the
    request cannot be answered twice. *)
Theorem rekey_agreement (s : ServerHandshake.t) seedS level x seed rnd sr x' m' sg ts kid sid sc ss :
  let c := ClientRekey.with_security_level (ServerHandshake.public_key s) sid level in
  ServerHandshake.server_keypair s = MlDsaKeypair.generate_with_level seedS level ->
  len x = 32 -> len x' = 32 -> bytes_ok rnd -> len rnd = 32 -> bytes_ok sr -> len sr = 32 ->
  u64 ts -> u64 sid -> Session.wf sc -> Session.wf ss -> Session.linked sc ss ->
  exists c1 req m server_keys c2 client_keys sc' ss',
    ClientRekey.create_request x seed rnd c = (c1, Ok req) /\
    RekeyMessage.from_bytes (RekeyMessage.to_bytes req) = Ok req /\
    ServerHandshake.process_rekey s sr x' m' sg (Some ts) req kid sid = Ok (m, server_keys) /\
    RekeyResponse.from_bytes_with_level (RekeyResponse.to_bytes m) level = Ok m /\
    RekeyResponse.new_key_id m = KeyId.next kid /\
    ClientRekey.process_response c1 m = (c2, Ok client_keys) /\
    client_keys = SessionKeys.swap server_keys /\
    Session.update_keys sc client_keys = (sc', Ok tt) /\
    Session.update_keys ss server_keys = (ss', Ok tt) /\
    Session.linked sc' ss' /\ Session.linked ss' sc' /\
    Session.send_counter sc' = 0 /\ Session.send_counter ss' = 0 /\
    forall m2, ClientRekey.process_response c2 m2 = (c2, Err ProtocolError.InvalidStateTransition).
Proof.
  intros c Hkp Hx Hx' Hrb Hrl Hsb Hsl Hts Hsid Wsc Wss Hlink.
  destruct (HybridKem.generate_keypair_total x seed level) as (sk & pk & Hg).
  destruct (HybridKem.generate_keypair_inv _ _ _ _ _ Hg) as [Hpw _].
  destruct (HybridKem.encapsulate_agrees x seed level x' m' sk pk Hx Hx' Hg)
    as (secret & ct & Henc & Hd & Hct & Hctl & _).
  set (tr := build_rekey_transcript sid rnd sr ct).
  destruct (MlDsaKeypair.sign_verifies seedS level sg tr) as (sig & Hs & Hsigl & Hsw & Hv).
  destruct (derive_session_keys_ok secret sid ts) as (keys & Hk & Hkw).
  destruct (hmac_size (SessionKeys.recv_key keys) tr) as [Hml Hmb].
  destruct (Session.update_keys_linked sc ss keys Wsc Wss Hlink Hkw)
    as (sc' & ss' & Hu1 & Hu2 & _ & _ & L1 & L2 & C1 & C2).
  set (m := RekeyResponse.mk ct sig sr (KeyId.next kid) (hmac_sign (SessionKeys.recv_key keys) tr) ts sid).
  assert (RekeyResponse.wf level m) as Hw.
  { split_and!; try done. apply KeyId.next_u32. }
  exists (ClientRekey.mk (Some (sk, pk)) (Some rnd) (ServerHandshake.public_key s) level sid),
    (RekeyMessage.mk pk rnd), m, (SessionKeys.swap keys),
    (ClientRekey.mk None None (ServerHandshake.public_key s) level sid), keys, sc', ss'.
  rewrite SessionKeys.swap_swap. split_and!; try done.
  - unfold ClientRekey.create_request, c, ClientRekey.with_security_level.
    cbn [ClientRekey.security_level]. by rewrite Hg.
  - rewrite <- (app_nil_r (_ (RekeyMessage.mk _ _))). by apply codec_roundtrip.
  - unfold ServerHandshake.process_rekey. cbn [RekeyMessage.client_ephemeral_pk
      RekeyMessage.client_random]. rewrite Henc. sbind. fold tr. rewrite Hkp, Hs. sbind.
    rewrite Hk. done.
  - rewrite <- (app_nil_r (_ m)).
    by apply (codec_roundtrip (dec:=fun b => RekeyResponse.from_bytes_with_level b level)).
  - unfold ClientRekey.process_response. cbn [ClientRekey.client_keypair ClientRekey.client_random
      ClientRekey.server_pk ClientRekey.security_level ClientRekey.session_id
      RekeyResponse.server_random RekeyResponse.server_ciphertext RekeyResponse.signature m].
    fold tr. unfold ServerHandshake.public_key. rewrite Hkp, Hv. sbind. rewrite Hd. sbind.
    cbn [RekeyResponse.session_id RekeyResponse.kdf_timestamp RekeyResponse.key_confirmation m].
    rewrite Hk. sbind. by rewrite verify_confirmation_ok.
Qed.

(** * A response whose configuration was changed afterwards *)

Definition with_config (m : HandshakeResponse.t) (cfg : TunnelConfig.t) : HandshakeResponse.t :=
  HandshakeResponse.mk (HandshakeResponse.session_id m) (HandshakeResponse.server_ciphertext m)
    (HandshakeResponse.server_static_pk m) (HandshakeResponse.signature m)
    (HandshakeResponse.server_random m) cfg (HandshakeResponse.key_confirmation m)
    (HandshakeResponse.kdf_timestamp m).

Lemma sign_free seed level rnd tr :
  let kp := MlDsaKeypair.generate_with_level seed level in
  signature.sign rnd (MlDsaKeypair.secret_key kp) tr level = MlDsaKeypair.sign kp rnd tr.
Proof.
  intros kp. destruct (MlDsaKeypair.generate_wf seed level) as (Hl & _). fold kp in Hl.
  unfold signature.sign, MlDsaKeypair.sign. rewrite Hl. by destruct level.
Qed.

(** A response whose tunnel configuration the server replaces after answering
    is valid again, with the new configuration and the same keys, once its
    signature and confirmation were refreshed. *)
Lemma refreshed_response_answers seedS level sk cr sid keys sg m cfg :
  let kp := MlDsaKeypair.generate_with_level seedS level in
  answered level sk sid keys (MlDsaKeypair.public_key kp) m -> TunnelConfig.wf cfg ->
  exists m2,
    refresh_handshake_response_auth sg (with_config m cfg) cr level kp (SessionKeys.recv_key keys) =
      (m2, Ok tt) /\
    HandshakeResponse.server_static_pk m2 = MlDsaKeypair.public_key kp /\
    answers level sk cr sid cfg keys m2.
Proof.
  intros kp Ha Hcfg. pose proof Ha as (_ & Es & _ & _ & Ep & _).
  set (tr := build_transcript PROTOCOL_VERSION (Some sid) cr (HandshakeResponse.server_random m)
    (HandshakeResponse.server_ciphertext m) cfg).
  destruct (MlDsaKeypair.sign_verifies seedS level sg tr) as (sig & Hs & _).
  eexists. split; [|split; [|by eapply answered_answers]; done].
  unfold refresh_handshake_response_auth, with_config. cbn [HandshakeResponse.session_id
    HandshakeResponse.server_random HandshakeResponse.server_ciphertext HandshakeResponse.config
    HandshakeResponse.server_static_pk HandshakeResponse.kdf_timestamp].
  rewrite Es. fold tr. unfold kp. rewrite sign_free, Hs. sbind. by rewrite Ep.
Qed.

End Handshake.

(** * Witnesses *)

Definition example_server : ServerHandshake.t :=
  ServerHandshake.new (replicate 32 6) 0 (MlDsaKeypair.generate_with_level [8] SecurityLevel.Level3).

Definition example_client : ClientHandshake.t :=
  ClientHandshake.with_server_pk (ServerHandshake.public_key example_server).

Lemma handshake_agreement_witness :
  exists c1 init m server_keys c2,
    ClientHandshake.create_init (replicate 32 1) [2] (replicate 32 3) example_client = (c1, Ok init) /\
    ServerHandshake.process_init example_server (replicate 32 4) (replicate 32 5) [6] [7] (Some 1000)
      init 42 TunnelConfig.default = Ok (m, server_keys) /\
    ClientHandshake.process_response c1 m =
      (c2, Ok (42, SessionKeys.swap server_keys, TunnelConfig.default)).
Proof.
  destruct (handshake_agreement example_client example_server [8] (replicate 32 1) [2] (replicate 32 3)
    (replicate 32 4) (replicate 32 5) [6] [7] 1000 42 TunnelConfig.default 0 0)
    as (c1 & init & m & server_keys & c2 & client_keys & sc & ss & Hc & _ & Hm & _ & Hr & _ & -> & _);
    [reflexivity|reflexivity|right; reflexivity|reflexivity|reflexivity|by_decide|reflexivity
    |by_decide|reflexivity|by_decide|by_decide|by_decide|].
  exists c1, init, m, server_keys, c2. split; [exact Hc|]. split; [exact Hm|exact Hr].
Defined.

Lemma response_authentic_witness :
  exists c1 m c2 server_keys,
    ClientHandshake.process_response c1 m =
      (c2, Ok (42, SessionKeys.swap server_keys, TunnelConfig.default)) /\
    ClientHandshake.state c2 = HandshakeState.Established /\
    HandshakeResponse.server_static_pk m = ServerHandshake.public_key example_server.
Proof.
  destruct (create_init_ok example_client (replicate 32 1) [2] (replicate 32 3))
    as (sk & pk & c1 & init & Hg & Hc & Hi & Hpk & Hcr & Hst & Hkp & Hr1 & Hl & Hp);
    [reflexivity|by_decide|reflexivity|].
  destruct (process_init_answers example_server [8] SecurityLevel.Level3 (replicate 32 1) [2] sk pk
    init (replicate 32 4) (replicate 32 5) [6] [7] 1000 42 TunnelConfig.default)
    as (m & keys & Hm & Hspk & Ha);
    [reflexivity|exact Hg|exact Hpk|reflexivity|reflexivity|by_decide|reflexivity|by_decide
    |by_decide|by_decide|].
  rewrite Hcr in Ha.
  destruct (process_response_answers c1 SecurityLevel.Level3 sk pk (replicate 32 3) 42
    TunnelConfig.default keys m) as (c2 & Hr & He & _);
    [left; exact Hst|exact Hkp|exact Hr1|exact Hl|right; rewrite Hp, Hspk; reflexivity|exact Ha|].
  destruct (response_authentic c1 m c2 42 keys TunnelConfig.default) as (_ & Hes & Hpin & _).
  - rewrite Hl. apply Ha.
  - intros cr E. rewrite Hr1 in E. injection E as <-. reflexivity.
  - exact Hr.
  - exists c1, m, c2, (SessionKeys.swap keys). rewrite SessionKeys.swap_swap.
    split; [exact Hr|]. split; [exact Hes|]. apply Hpin. rewrite Hp. reflexivity.
Defined.

Lemma rekey_agreement_witness :
  exists c1 req m server_keys c2,
    ClientRekey.create_request (replicate 32 1) [2] (replicate 32 3)
      (ClientRekey.with_security_level (ServerHandshake.public_key example_server) 7
         SecurityLevel.Level3) = (c1, Ok req) /\
    ServerHandshake.process_rekey example_server (replicate 32 4) (replicate 32 5) [6] [7] (Some 1000)
      req 0 7 = Ok (m, server_keys) /\
    ClientRekey.process_response c1 m = (c2, Ok (SessionKeys.swap server_keys)).
Proof.
  destruct (sessions_linked 7 example_keys 0 5 ltac:(by_decide) example_keys_wf)
    as (sc & ss & Hsc & Hss & L & _).
  destruct (rekey_agreement example_server [8] SecurityLevel.Level3 (replicate 32 1) [2]
    (replicate 32 3) (replicate 32 4) (replicate 32 5) [6] [7] 1000 0 7 sc ss)
    as (c1 & req & m & server_keys & c2 & client_keys & sc' & ss' & Hc & _ & Hm & _ & _ & Hr & -> & _);
    [reflexivity|reflexivity|reflexivity|by_decide|reflexivity|by_decide|reflexivity|by_decide
    |by_decide| | |exact L|].
  - apply (Session.new_wf 0 7 example_keys sc); [by_decide|apply example_keys_wf|exact Hsc].
  - apply (Session.new_wf 5 7 (SessionKeys.swap example_keys) ss);
      [by_decide|apply SessionKeys.swap_wf, example_keys_wf|exact Hss].
  - exists c1, req, m, server_keys, c2. split; [exact Hc|]. split; [exact Hm|exact Hr].
Defined.

