(* ===== verification/CookieServer.v ===== *)
(** The server's stateless cookies (handshake.rs): what it issues it accepts
    within the validity window, across the rotation of its secret, and it
    accepts nothing else. *)

From S2P Require Import Prelude Types Codec Wire Net Digest Tunnel Keys Signature Kem Kdf Aead Init.
From S2P Require Import Response Cookie Handshake.

(** * Rotation *)

(** Time passes and cookie operations rotate the secret: [run s T s' T'] when
    the server in state [s] after instant [T] can be in state [s'] after
    instant [T'].  Issuing and verifying cookies change the server exactly by
    [maybe_rotate_cookie_secret]. *)
Inductive run : ServerHandshake.t -> Z -> ServerHandshake.t -> Z -> Prop :=
  | run_refl s T T' : T <= T' -> run s T s T'
  | run_step s T s' T' instant instant' fresh :
      run s T s' T' -> T' <= instant <= instant' ->
      run s T (ServerHandshake.maybe_rotate_cookie_secret s' instant instant' fresh) instant'.

(** The server still knows secret [k], which was current at instant [T0]. *)
Definition knows (k : list Z) (T0 : Z) (s : ServerHandshake.t) : Prop :=
  let secrets := ServerHandshake.cookie_secrets s in
  CookieSecrets.current secrets = k \/
  (CookieSecrets.previous secrets = Some k /\ T0 <= CookieSecrets.last_rotation secrets).

Lemma rotate_knows k T0 s instant instant' fresh :
  knows k T0 s -> T0 <= instant' -> instant < T0 + COOKIE_SECRET_ROTATION ->
  knows k T0 (ServerHandshake.maybe_rotate_cookie_secret s instant instant' fresh).
Proof.
  unfold knows, ServerHandshake.maybe_rotate_cookie_secret, saturating_sub. intros Hk HT HI.
  destruct (COOKIE_SECRET_ROTATION <=? _) eqn:E; [|done]. b2p. simpl.
  destruct Hk as [<-|[_ Hl]]; [by right|]. unfold COOKIE_SECRET_ROTATION in *. lia.
Qed.

Lemma rotate_difficulty s instant instant' fresh :
  ServerHandshake.cookie_difficulty
    (ServerHandshake.maybe_rotate_cookie_secret s instant instant' fresh) =
  ServerHandshake.cookie_difficulty s.
Proof. unfold ServerHandshake.maybe_rotate_cookie_secret. by destruct (_ <=? _). Qed.

Lemma run_mono s T s' T' : run s T s' T' -> T <= T'.
Proof. induction 1; lia. Qed.

Lemma run_knows k T0 s T s' T' :
  run s T s' T' -> knows k T0 s -> T0 <= T -> T' < T0 + COOKIE_SECRET_ROTATION -> knows k T0 s'.
Proof.
  induction 1 as [|s T s' T' instant instant' fresh Hr IH Hi]; intros Hk HT HI; [done|].
  pose proof (run_mono _ _ _ _ Hr). apply rotate_knows; [apply IH; lia || done|lia|lia].
Qed.

Lemma run_difficulty s T s' T' :
  run s T s' T' -> ServerHandshake.cookie_difficulty s' = ServerHandshake.cookie_difficulty s.
Proof. induction 1; [done|]. by rewrite rotate_difficulty. Qed.

Section Cookies.
Context {D : RingDigest} {DL : RingDigestLaws}.

(** * The challenge the server issues *)

(** The first [n] bytes of a 32-byte digest, through a zeroed array. *)
Lemma digest_prefix {E} h :
  len h = 32 ->
  (let? s := range (E:=E) h 0 16 in copy_from_slice (replicate 16 0) 0 16 s) = Ok (take 16 h) /\
  len (take 16 h) = 16.
Proof.
  intros Hh. assert (len (take 16 h) = 16) as Ht by (apply (len_take 16); lia).
  split; [|done]. rewrite range_ok by lia. sbind. unfold slice. rewrite drop_0.
  change (Z.to_nat (16 - 0)) with 16%nat.
  rewrite copy_from_slice_start by (rewrite Ht; done). f_equal.
  rewrite drop_ge; [apply app_nil_r|]. unfold len in Ht. rewrite length_replicate. lia.
Qed.

Definition addr_tag (a : SocketAddr.t) : list Z :=
  take 16 (sha256 (bytes_of_string (SocketAddr.to_string a))).

(** The tag of a challenge under a secret. *)
Definition cookie_tag (secret nonce : list Z) (ts : Z) (a : SocketAddr.t) (difficulty : Z) : list Z :=
  take 16 (hmac_sign secret (nonce ++ be_bytes 8 ts ++ addr_tag a ++ [difficulty])).

(** The challenge for [nonce], [ts], address and difficulty under a secret. *)
Definition cookie_for (secret nonce : list Z) (ts : Z) (a : SocketAddr.t) (difficulty : Z) : list Z :=
  nonce ++ be_bytes 8 ts ++ cookie_tag secret nonce ts a difficulty.

Lemma addr_hash_ok {E} a : addr_hash (E:=E) a = Ok (addr_tag a) /\ len (addr_tag a) = 16.
Proof. apply digest_prefix, sha256_size. Qed.

Lemma cookie_hmac_ok {E} secret nonce ts a difficulty :
  ServerHandshake.compute_cookie_hmac_with (E:=E) secret nonce ts (addr_tag a) difficulty
    = Ok (cookie_tag secret nonce ts a difficulty) /\
  len (cookie_tag secret nonce ts a difficulty) = 16.
Proof. apply digest_prefix, hmac_size. Qed.

Lemma create_cookie_request_ok s instant instant' fresh random ts a :
  len random = 32 ->
  let s' := ServerHandshake.maybe_rotate_cookie_secret s instant instant' fresh in
  let secret := CookieSecrets.current (ServerHandshake.cookie_secrets s') in
  let difficulty := ServerHandshake.cookie_difficulty s in
  ServerHandshake.create_cookie_request s instant instant' fresh random (Some ts) a =
    (s', Ok (CookieRequest.mk (cookie_for secret (take 8 random) ts a difficulty) difficulty
               (addr_tag a) ts)).
Proof.
  intros Hr s' secret difficulty. unfold ServerHandshake.create_cookie_request. fold s'. f_equal.
  unfold CookieRequest.new. rewrite (proj1 (addr_hash_ok a)). sbind.
  cbn [CookieRequest.challenge CookieRequest.timestamp CookieRequest.server_addr_hash
       CookieRequest.difficulty].
  assert (ServerHandshake.cookie_difficulty s' = difficulty) as -> by apply rotate_difficulty.
  destruct (split_at 8 random) as (n & r & -> & Hn); [lia|]. rewrite len_app in Hr.
  assert (len n = 8) as Ln by (unfold len; lia).
  rewrite (range_rest_at _ _ _ _ _ (rest_at_start _)) by lia. sbind.
  rewrite copy_from_slice_at by (rewrite ?len_be_bytes; lia). sbind.
  unfold ServerHandshake.compute_cookie_hmac. fold secret.
  destruct (cookie_hmac_ok (E:=ProtocolError.t) secret n ts a difficulty) as [-> Lt]. sbind.
  rewrite length_be_bytes.
  rewrite copy_from_slice_at.
  - sbind. rewrite take_app_length' by done. rewrite drop_drop, drop_ge.
    + rewrite app_nil_r. unfold cookie_for. by rewrite <- app_assoc.
    + unfold len in *. lia.
  - rewrite len_app, len_be_bytes. lia.
  - lia.
  - rewrite len_drop_nat; lia.
Qed.

Lemma cookie_for_len secret nonce ts a difficulty :
  len nonce = 8 -> len (cookie_for secret nonce ts a difficulty) = 32.
Proof.
  intros Hn. unfold cookie_for. rewrite !len_app, len_be_bytes, Hn.
  by rewrite (proj2 (cookie_hmac_ok (E:=ProtocolError.t) _ _ _ _ _)).
Qed.

(** * What the server accepts *)

Definition known (s : ServerHandshake.t) (secret : list Z) : Prop :=
  CookieSecrets.current (ServerHandshake.cookie_secrets s) = secret \/
  CookieSecrets.previous (ServerHandshake.cookie_secrets s) = Some secret.

Lemma knows_known k T0 s : knows k T0 s -> known s k.
Proof. unfold knows, known. tauto. Qed.

(** The tag check, both secrets. *)
Lemma tag_check s nonce ts a difficulty tag :
  exists current_tag previous_tag,
    ServerHandshake.compute_cookie_hmac_with (E:=ProtocolError.t)
      (CookieSecrets.current (ServerHandshake.cookie_secrets s)) nonce ts (addr_tag a) difficulty
      = Ok current_tag /\
    match CookieSecrets.previous (ServerHandshake.cookie_secrets s) with
    | Some prev =>
        let? tag := ServerHandshake.compute_cookie_hmac_with (E:=ProtocolError.t) prev nonce ts
                      (addr_tag a) difficulty in
        Ok (Some tag)
    | None => Ok None
    end = Ok previous_tag /\
    (negb (bool_decide (tag = current_tag)) &&
     negb match previous_tag with Some t => bool_decide (tag = t) | None => false end = false <->
     exists secret, known s secret /\ tag = cookie_tag secret nonce ts a difficulty).
Proof.
  unfold known. set (cur := CookieSecrets.current _).
  exists (cookie_tag cur nonce ts a difficulty).
  destruct (CookieSecrets.previous (ServerHandshake.cookie_secrets s)) as [prev|].
  - exists (Some (cookie_tag prev nonce ts a difficulty)).
    rewrite !(proj1 (cookie_hmac_ok (E:=ProtocolError.t) _ _ _ _ _)). split; [done|]. split; [done|].
    rewrite andb_false_iff, !negb_false_iff, !bool_decide_eq_true. split.
    + intros [->| ->]; [exists cur|exists prev]; split; auto.
    + intros (secret & [<-|[= <-]] & ->); auto.
  - exists None. rewrite (proj1 (cookie_hmac_ok (E:=ProtocolError.t) _ _ _ _ _)).
    split; [done|]. split; [done|].
    rewrite andb_true_r, negb_false_iff, bool_decide_eq_true. split.
    + intros ->. exists cur. auto.
    + intros (secret & [<-|?] & ->); done.
Qed.

(** The fields of a challenge determine it. *)
Lemma cookie_for_eq secret nonce ts a difficulty n tb tag :
  len n = 8 -> length tb = 8%nat -> bytes_ok tb -> len nonce = 8 -> u64 ts ->
  n ++ tb ++ tag = cookie_for secret nonce ts a difficulty <->
  nonce = n /\ ts = from_be tb /\ tag = cookie_tag secret n (from_be tb) a difficulty.
Proof.
  intros Ln Lt Hb Hnl Hts. unfold cookie_for. split.
  - intros Heq. apply app_cut in Heq as [<- Heq]; [|lia].
    apply app_cut in Heq as [-> ->]; [|rewrite len_be_bytes; unfold len; lia].
    by rewrite from_be_be_bytes_8.
  - intros (-> & -> & ->). by rewrite (be_bytes_from_be 8 tb).
Qed.

Lemma verify_cookie_reply_iff s instant instant' fresh u reply a :
  bytes_ok (CookieReply.challenge reply) -> len (CookieReply.challenge reply) = 32 ->
  let s' := ServerHandshake.maybe_rotate_cookie_secret s instant instant' fresh in
  let difficulty := ServerHandshake.cookie_difficulty s in
  snd (ServerHandshake.verify_cookie_reply s instant instant' fresh (Some u) reply a) = Ok tt <->
  exists secret nonce ts,
    known s' secret /\ len nonce = 8 /\ u64 ts /\
    CookieReply.challenge reply = cookie_for secret nonce ts a difficulty /\
    ts <= u + 5 /\ u - ts <= 60 /\ CookieReply.verify reply difficulty = true.
Proof.
  intros Hb Hl s' difficulty. unfold ServerHandshake.verify_cookie_reply. fold s'. cbn [snd].
  assert (ServerHandshake.cookie_difficulty s' = difficulty) as -> by apply rotate_difficulty.
  destruct (split_at 8 (CookieReply.challenge reply)) as (n & r0 & E & Hn); [lia|].
  rewrite E, len_app in Hl. assert (len n = 8) as Ln by (unfold len; lia).
  destruct (split_at 8 r0) as (tb & tag & -> & Htb); [lia|]. rewrite len_app in Hl.
  assert (len tb = 8) as Lt by (unfold len; lia).
  rewrite E in Hb. apply bytes_ok_app in Hb as [_ Hb]. apply bytes_ok_app in Hb as [Hb _].
  pose proof (from_be_uint 8 tb Hb Lt) as Hu.
  rewrite E. pose proof (rest_at_start (n ++ tb ++ tag)) as R. rewrite <- (app_nil_r tag) in R at 2.
  rewrite (range_at _ _ 0 8 _ _ R) by lia. apply rest_at_app in R. sbind.
  rewrite (range_at _ _ 8 16 _ _ R) by lia. apply rest_at_app in R. sbind.
  rewrite (range_at _ _ 16 32 _ _ R) by lia. sbind. rewrite (proj1 (addr_hash_ok a)). sbind.
  destruct (tag_check s' n (from_be tb) a difficulty tag) as (ct & pt & -> & Hp & Hcheck).
  sbind. rewrite Hp. sbind. unfold DEFAULT_COOKIE_MAX_AGE_SECS, saturating_sub.
  assert (forall secret nonce ts, len nonce = 8 -> u64 ts ->
    n ++ tb ++ tag = cookie_for secret nonce ts a difficulty <->
    nonce = n /\ ts = from_be tb /\ tag = cookie_tag secret n (from_be tb) a difficulty) as Hinj
    by (intros; by apply cookie_for_eq).
  destruct (negb _ && negb _) eqn:Ec.
  { split; [done|]. intros (secret & nonce & ts & Hk & Hnl & Hts & Heq & _).
    apply Hinj in Heq as (-> & -> & Htag); [|done|done].
    enough (true = false) by done. apply Hcheck. by exists secret. }
  destruct (proj1 Hcheck eq_refl) as (secret & Hk & Htag).
  destruct (u + 5 <? from_be tb) eqn:E1; b2p.
  { split; [done|]. intros (secret' & nonce & ts & _ & Hnl & Hts & Heq & ? & _).
    apply Hinj in Heq as (_ & -> & _); [lia|done|done]. }
  destruct (60 <? Z.max 0 (u - from_be tb)) eqn:E2; b2p.
  { split; [done|]. intros (secret' & nonce & ts & _ & Hnl & Hts & Heq & _ & ? & _).
    apply Hinj in Heq as (_ & -> & _); [lia|done|done]. }
  destruct (CookieReply.verify reply difficulty) eqn:Ev; cbn [negb]; cbv iota.
  - split; [intros _|done]. exists secret, n, (from_be tb).
    split; [done|]. split; [done|]. split; [done|]. split; [by apply Hinj|]. split; [lia|]. split; [lia|done].
  - split; [done|]. by intros (? & ? & ? & _ & _ & _ & _ & _ & _ & ?).
Qed.

(** C16: the server accepts the cookies it issued: a client that solves the
    challenge of a request gets its reply accepted from the same address,
    whatever cookie operations happened in between, for as long as less than
    the rotation interval passed on the server's clock, at most 60 seconds
    passed since the time in the cookie, and that time is at most 5 seconds
    ahead; at most one rotation of the secret can lie in between. *)
Theorem cookie_accepted s t0 t0' fresh0 random u0 a s1 request init reply s2 T t1 t1' fresh1 u1 :
  len random = 32 -> bytes_ok random -> u64 u0 ->
  ServerHandshake.create_cookie_request s t0 t0' fresh0 random (Some u0) a = (s1, Ok request) ->
  CookieReply.solve (CookieRequest.challenge request) (CookieRequest.difficulty request) init = Ok reply ->
  run s1 t0' s2 T -> T <= t1 <= t1' -> t1 < t0' + COOKIE_SECRET_ROTATION ->
  u0 <= u1 + 5 -> u1 - u0 <= 60 ->
  snd (ServerHandshake.verify_cookie_reply s2 t1 t1' fresh1 (Some u1) reply a) = Ok tt.
Proof.
  intros Hr Hrb Hu Hc Hs Hrun HT HI Hf Ho.
  rewrite (create_cookie_request_ok s t0 t0' fresh0 random u0 a Hr) in Hc.
  set (s1' := ServerHandshake.maybe_rotate_cookie_secret s t0 t0' fresh0) in *.
  injection Hc as <- <-. cbn [CookieRequest.challenge CookieRequest.difficulty] in Hs.
  set (k := CookieSecrets.current (ServerHandshake.cookie_secrets s1')) in *.
  set (d := ServerHandshake.cookie_difficulty s) in *.
  assert (len (take 8 random) = 8) as Ln by (apply (len_take 8); lia).
  assert (CookieReply.challenge reply = cookie_for k (take 8 random) u0 a d /\
          CookieReply.verify reply d = true) as [Hch Hv].
  { unfold CookieReply.solve in Hs. destruct (_ || _); [discriminate Hs|].
    pose proof (CookieReply.first_nonce_spec (fun n => d <=? CookieReply.pow_zeros
      (cookie_for k (take 8 random) u0 a d) n) CookieReply.MAX_POW_ITERATIONS 0) as Hsp.
    destruct (CookieReply.first_nonce _ _ _) as [n|]; [|discriminate Hs]. injection Hs as <-.
    split; [done|apply Hsp]. }
  assert (ServerHandshake.cookie_difficulty s2 = d) as Hd.
  { rewrite (run_difficulty _ _ _ _ Hrun). apply rotate_difficulty. }
  apply verify_cookie_reply_iff.
  - rewrite Hch. unfold cookie_for, cookie_tag. rewrite !bytes_ok_app.
    split_and!; auto with hpn; apply Forall_take; [done|apply hmac_size].
  - rewrite Hch. by apply cookie_for_len.
  - rewrite Hd. exists k, (take 8 random), u0. split_and!; try done; try lia.
    apply (knows_known _ t0'). pose proof (run_mono _ _ _ _ Hrun).
    apply rotate_knows; [|lia|lia]. eapply run_knows; [done|by left|lia|lia].
Qed.

(** The parts of a challenge. *)
Lemma challenge_parts c secret nonce ts a difficulty :
  bytes_ok c -> len c = 32 -> len nonce = 8 -> u64 ts ->
  c = cookie_for secret nonce ts a difficulty <->
  nonce = slice c 0 8 /\ ts = from_be (slice c 8 16) /\ slice c 16 32 = cookie_tag secret nonce ts a difficulty.
Proof.
  intros Hb Hl Hn Hts.
  assert (c = slice c 0 8 ++ slice c 8 16 ++ slice c 16 32) as Ec.
  { rewrite slice_app, slice_app by lia. rewrite <- Hl. symmetry. apply slice_all. }
  pose proof (cookie_for_eq secret nonce ts a difficulty (slice c 0 8) (slice c 8 16) (slice c 16 32)) as Hi.
  rewrite <- Ec in Hi. rewrite Hi; try done.
  - split; intros (-> & -> & ->); done.
  - rewrite len_slice; lia.
  - pose proof (len_slice c 8 16 ltac:(lia) ltac:(lia) ltac:(lia)) as H. unfold len in H. lia.
  - by apply bytes_ok_slice.
Qed.

(** A server that has not to rotate its secret issues the challenge. *)
Lemma issues issuer t t' fresh random ts a :
  t < CookieSecrets.last_rotation (ServerHandshake.cookie_secrets issuer) + COOKIE_SECRET_ROTATION ->
  len random = 32 ->
  exists request,
    ServerHandshake.create_cookie_request issuer t t' fresh random (Some ts) a = (issuer, Ok request) /\
    CookieRequest.challenge request =
      cookie_for (CookieSecrets.current (ServerHandshake.cookie_secrets issuer)) (take 8 random) ts a
        (ServerHandshake.cookie_difficulty issuer).
Proof.
  intros Ht Hr. rewrite (create_cookie_request_ok issuer t t' fresh random ts a Hr).
  assert (ServerHandshake.maybe_rotate_cookie_secret issuer t t' fresh = issuer) as ->.
  { unfold ServerHandshake.maybe_rotate_cookie_secret, saturating_sub.
    rewrite (proj2 (Z.leb_gt _ _)); [done|]. unfold COOKIE_SECRET_ROTATION in *. lia. }
  by eexists.
Qed.

(** C17: the server accepts exactly its own cookies.  Read the challenge of a
    reply as a nonce, a time and a tag.  The server accepts the reply if and
    only if the tag is the one its current or its previous secret gives to this
    nonce and time, the address of the sender and the difficulty in force, the
    time is at most 60 seconds in the past and 5 in the future, and the reply
    solves the puzzle; and a challenge with this tag is the one that a server
    holding the secret issues to this address at this time, when it draws this
    nonce. *)
Theorem cookie_genuine s instant instant' fresh u reply a :
  bytes_ok (CookieReply.challenge reply) -> len (CookieReply.challenge reply) = 32 ->
  let '(s', r) := ServerHandshake.verify_cookie_reply s instant instant' fresh (Some u) reply a in
  let challenge := CookieReply.challenge reply in
  let nonce := slice challenge 0 8 in
  let ts := from_be (slice challenge 8 16) in
  let tagged secret := slice challenge 16 32 = cookie_tag secret nonce ts a (ServerHandshake.cookie_difficulty s') in
  (r = Ok tt <->
   (exists secret, known s' secret /\ tagged secret) /\ ts <= u + 5 /\ u - ts <= 60 /\
   CookieReply.verify reply (ServerHandshake.cookie_difficulty s') = true) /\
  (forall issuer t t' random,
     tagged (CookieSecrets.current (ServerHandshake.cookie_secrets issuer)) ->
     ServerHandshake.cookie_difficulty issuer = ServerHandshake.cookie_difficulty s' ->
     t < CookieSecrets.last_rotation (ServerHandshake.cookie_secrets issuer) + COOKIE_SECRET_ROTATION ->
     len random = 32 -> take 8 random = nonce ->
     exists request,
       ServerHandshake.create_cookie_request issuer t t' fresh random (Some ts) a = (issuer, Ok request) /\
       CookieRequest.challenge request = challenge).
Proof.
  intros Hb Hl.
  pose proof (verify_cookie_reply_iff s instant instant' fresh u reply a Hb Hl) as Hiff. cbv zeta in Hiff.
  destruct (ServerHandshake.verify_cookie_reply s instant instant' fresh (Some u) reply a)
    as [s' r] eqn:E. cbn [snd] in Hiff. intros challenge nonce ts tagged.
  assert (s' = ServerHandshake.maybe_rotate_cookie_secret s instant instant' fresh) as ->.
  { unfold ServerHandshake.verify_cookie_reply in E. by injection E as <- _. }
  subst tagged. cbv beta. rewrite rotate_difficulty in *. change (bytes_ok challenge) in Hb. change (len challenge = 32) in Hl.
  assert (len nonce = 8) as Hn by (unfold nonce; rewrite len_slice; lia).
  assert (u64 ts) as Hts by (apply (from_be_uint 8); [by apply bytes_ok_slice|rewrite len_slice; lia]).
  split.
  - rewrite Hiff. split.
    + intros (secret & nonce' & ts' & Hk & Hn' & Hts' & Hc & Hf & Ho & Hv).
      apply challenge_parts in Hc as (-> & -> & Ht); [|done..]. split_and!; try done. by exists secret.
    + intros ((secret & Hk & Ht) & Hf & Ho & Hv). exists secret, nonce, ts. split_and!; try done.
      by apply challenge_parts.
  - intros issuer t t' random Ht Hd Hrot Hr Hnr.
    destruct (issues issuer t t' fresh random ts a Hrot Hr) as (request & Hreq & Hc). exists request. split; [done|].
    rewrite Hc, Hnr, Hd. symmetry. by apply challenge_parts.
Qed.

End Cookies.

(** * Examples *)

Definition example_cookie_server : ServerHandshake.t :=
  ServerHandshake.with_cookie_protection (replicate 32 5) 0
    (MlDsaKeypair.mk [1] [2] SecurityLevel.Level3) 2.

Definition example_addr : SocketAddr.t := SocketAddr.V4 [192; 0; 2; 1] 40000.

(** A cookie issued at second 590 is presented 40 seconds later, after the
    secret has rotated at second 601. *)
Lemma cookie_accepted_witness :
  exists s1 request reply,
    ServerHandshake.create_cookie_request example_cookie_server (590 * 10 ^ 9) (590 * 10 ^ 9)
      (replicate 32 6) (replicate 32 9) (Some 1000) example_addr = (s1, Ok request) /\
    CookieReply.solve (CookieRequest.challenge request) (CookieRequest.difficulty request) example_init
      = Ok reply /\
    snd (ServerHandshake.verify_cookie_reply
           (ServerHandshake.maybe_rotate_cookie_secret s1 (601 * 10 ^ 9) (601 * 10 ^ 9) (replicate 32 7))
           (630 * 10 ^ 9) (630 * 10 ^ 9) (replicate 32 8) (Some 1040) reply example_addr) = Ok tt.
Proof.
  set (r := ServerHandshake.create_cookie_request _ _ _ _ _ _ _).
  assert (match r with
          | (_, Ok request) => is_ok (CookieReply.solve (CookieRequest.challenge request)
                                 (CookieRequest.difficulty request) example_init)
          | _ => false
          end = true) as Hok by (vm_compute; reflexivity).
  destruct r as [s1 [request|e|]] eqn:Hr; [|discriminate Hok|discriminate Hok].
  destruct (CookieReply.solve _ _ _) as [reply|e|] eqn:Hs; [|discriminate Hok|discriminate Hok].
  exists s1, request, reply. split; [reflexivity|]. split; [exact Hs|].
  apply (cookie_accepted example_cookie_server (590 * 10 ^ 9) (590 * 10 ^ 9) (replicate 32 6)
    (replicate 32 9) 1000 example_addr s1 request example_init reply _ (601 * 10 ^ 9));
    [reflexivity|by_decide|by_decide|exact Hr|exact Hs| |lia|unfold COOKIE_SECRET_ROTATION; lia|lia|lia].
  eapply run_step; [apply run_refl; reflexivity|lia].
Defined.

Lemma cookie_genuine_witness :
  exists s' reply,
    ServerHandshake.verify_cookie_reply example_cookie_server (100 * 10 ^ 9) (100 * 10 ^ 9)
      (replicate 32 6) (Some 1000) reply example_addr = (s', Ok tt) /\
    (exists secret, known s' secret) /\
    CookieReply.verify reply (ServerHandshake.cookie_difficulty s') = true.
Proof.
  set (challenge := cookie_for (replicate 32 5) (replicate 8 9) 1000 example_addr 2).
  assert (match CookieReply.solve challenge 2 example_init with
          | Ok reply =>
              is_ok (snd (ServerHandshake.verify_cookie_reply example_cookie_server (100 * 10 ^ 9)
                (100 * 10 ^ 9) (replicate 32 6) (Some 1000) reply example_addr)) &&
              bool_decide (bytes_ok (CookieReply.challenge reply)) &&
              (len (CookieReply.challenge reply) =? 32)
          | _ => false
          end = true) as Hok by (vm_compute; reflexivity).
  destruct (CookieReply.solve challenge 2 example_init) as [reply|e|];
    [|discriminate Hok|discriminate Hok].
  apply andb_prop in Hok as [Hok Hl]. apply andb_prop in Hok as [Hok Hb].
  pose proof (cookie_genuine example_cookie_server (100 * 10 ^ 9) (100 * 10 ^ 9) (replicate 32 6)
    1000 reply example_addr (bool_decide_eq_true_1 _ Hb) (proj1 (Z.eqb_eq _ _) Hl)) as H.
  destruct (ServerHandshake.verify_cookie_reply _ _ _ _ _ _ _) as [s' [[]|e|]] eqn:E;
    [|discriminate Hok|discriminate Hok].
  destruct H as [H _]. destruct (proj1 H eq_refl) as ((secret & Hk & _) & _ & _ & Hv).
  exists s', reply. split; [exact E|]. split; [by exists secret|exact Hv].
Defined.
