(* ===== verification/ClientMachine.v ===== *)
(** The client's side of the handshake as a state machine
    (hpn-core/src/protocol/handshake.rs): whatever order its methods are
    called in, with whatever messages. *)

From S2P Require Import Prelude Types Aead Digest Keys Signature Kem Kdf Tunnel Init Response Cookie Handshake.
From S2P Require Import Agreement.
Import ClientHandshake.

Section Machine.
Context {R : RingAead} {D : RingDigest} {M : MlDsa} {K : KemPrimitives} {KL : KemLaws} {H : Hkdf}.

Lemma derive_no_panic s id t : derive_session_keys_with_context s id t <> Panic.
Proof.
  unfold derive_session_keys_with_context. cbv zeta.
  do 4 (destruct (hkdf_expand_fill _ _ _); [simpl|done]). done.
Qed.

(** What the callers of a handshake got out of it. *)
Record tally := mk_tally { inits : Z; accepted : Z; taken : Z }.

Inductive step : t * tally -> t * tally -> Prop :=
  | step_init c k x seed random :
      let r := create_init x seed random c in
      step (c, k) (fst r, mk_tally (inits k + Z.b2z (is_ok (snd r))) (accepted k) (taken k))
  | step_hidden c k x seed random x' rnd :
      let r := create_encrypted_init x seed random x' rnd c in
      step (c, k) (fst r, mk_tally (inits k + Z.b2z (bool_decide (state (fst r) <> state c))) (accepted k) (taken k))
  | step_response c k m :
      let r := process_response c m in
      step (c, k) (fst r, mk_tally (inits k) (accepted k + Z.b2z (is_ok (snd r))) (taken k))
  | step_cookie c k q : step (c, k) (fst (solve_cookie_challenge c q), k)
  | step_take c k :
      let r := take_session_keys c in
      step (c, k) (fst r, mk_tally (inits k) (accepted k)
                            (taken k + Z.b2z (match snd r with Some _ => true | None => false end)))
  | step_kem c k pk : step (c, k) (set_server_kem_pk c pk, k).

(** A fresh handshake, of any of the constructors. *)
Definition fresh (c : t) : Prop :=
  state c = HandshakeState.Idle /\ client_keypair c = None /\ client_random c = None /\
  session_id c = None /\ session_keys c = None /\ tunnel_config c = None.

Definition waiting (c : t) : Prop :=
  state c = HandshakeState.AwaitingResponse \/ state c = HandshakeState.SolvingCookie \/
  state c = HandshakeState.AwaitingResponseAfterCookie.

Definition keys_left (c : t) : Z := match session_keys c with Some _ => 1 | None => 0 end.

Record machine (c0 c : t) (k : tally) : Prop := {
  m_level : security_level c = security_level c0;
  m_pin : expected_server_pk c = expected_server_pk c0;
  m_idle : state c = HandshakeState.Idle -> inits k = 0 /\ client_keypair c = None /\ client_random c = None;
  m_waiting : waiting c ->
    inits k = 1 /\ accepted k = 0 /\
    exists sk pk cr, client_keypair c = Some (sk, pk) /\ client_random c = Some cr;
  m_established : state c = HandshakeState.Established ->
    accepted k = 1 /\ session_id c <> None /\ tunnel_config c <> None;
  m_order : 0 <= taken k /\ accepted k <= inits k <= 1;
  m_keys : taken k + keys_left c = accepted k;
}.

Lemma machine_fresh c : fresh c -> machine c c (mk_tally 0 0 0).
Proof.
  intros (Hs & Hk & Hr & _ & Hn & _). split; try done; simpl.
  - intros [E|[E|E]]; congruence.
  - congruence.
  - unfold keys_left. by rewrite Hn.
Qed.

(** A response is accepted, or the handshake fails or stays as it is. *)
Lemma response_cases c m :
  let '(c', r) := process_response c m in
  match r with
  | Ok (sid, keys, cfg) =>
      waiting c /\ c' = mk HandshakeState.Established (client_keypair c) (client_random c)
                          (expected_server_pk c) (server_kem_pk c) (Some sid) (Some keys) (Some cfg)
                          (security_level c)
  | Err _ => c' = c \/ exists reason, c' = set_state c (HandshakeState.Failed reason)
  | Panic => False
  end.
Proof.
  unfold process_response. destruct (negb _ && negb _) eqn:E; [right; by eexists|].
  assert (waiting c) as Hw.
  { unfold waiting. apply andb_false_iff in E as [E|E]; apply negb_false_iff, bool_decide_eq_true in E; tauto. }
  destruct (client_keypair c) as [[sk pk]|] eqn:Ekp, (client_random c) as [cr|] eqn:Ecr; try (by left).
  cbv zeta. destruct (pin_mismatch _ _); [right; by eexists|]. destruct (negb (len _ =? _)); [right; by eexists|].
  destruct (negb (is_ok _)); [right; by eexists|]. unfold finish_response.
  destruct (HybridKem.decapsulate _ _) as [hs|e|] eqn:Ed; [|right; by eexists|by apply HybridKem.decapsulate_no_panic in Ed].
  destruct (derive_session_keys_with_context _ _ _) as [ks|e|] eqn:Ek;
    [|right; by eexists|by apply derive_no_panic in Ek].
  unfold verify_key_confirmation. destruct (hmac_verify _ _ _); [|right; by eexists].
  simpl. by rewrite Ekp, Ecr.
Qed.

Lemma set_failed_machine c0 c k reason :
  machine c0 c k -> machine c0 (set_state c (HandshakeState.Failed reason)) k.
Proof. intros []. split; try done. intros [?|[?|?]]; done. Qed.

Lemma init_cases c x seed random :
  let '(c', r) := create_init x seed random c in
  (is_ok r = false /\ c' = c) \/
  (is_ok r = true /\ state c = HandshakeState.Idle /\ state c' = HandshakeState.AwaitingResponse /\
   exists kp cr, c' = mk HandshakeState.AwaitingResponse (Some kp) (Some cr) (expected_server_pk c)
     (server_kem_pk c) (session_id c) (session_keys c) (tunnel_config c) (security_level c)).
Proof.
  unfold create_init. destruct (bool_decide _) eqn:E; simpl; [|by left]. apply bool_decide_eq_true in E.
  destruct (HybridKem.generate_keypair_with_level _ _ _) as [[sk pk]|e|]; [|by left|by left].
  right. split_and!; try done. by do 2 eexists.
Qed.

Lemma opened_machine c0 c k kp cr :
  machine c0 c k -> state c = HandshakeState.Idle ->
  machine c0 (mk HandshakeState.AwaitingResponse (Some kp) (Some cr) (expected_server_pk c)
    (server_kem_pk c) (session_id c) (session_keys c) (tunnel_config c) (security_level c))
    (mk_tally (inits k + 1) (accepted k) (taken k)).
Proof.
  intros [Hl Hp Hi Hw He Ho Hk] Hs. destruct (Hi Hs) as (H0 & _). split; try done; simpl; try lia.
  intros _. split; [lia|]. assert (0 <= keys_left c) by (unfold keys_left; destruct (session_keys c); lia).
  split; [lia|]. destruct kp. by do 3 eexists.
Qed.

Lemma cookie_cases c q :
  let c' := fst (solve_cookie_challenge c q) in
  c' = c \/ (waiting c /\ (c' = set_state c HandshakeState.SolvingCookie \/
                           c' = set_state c HandshakeState.AwaitingResponseAfterCookie)).
Proof.
  unfold solve_cookie_challenge. destruct (bool_decide _) eqn:E; simpl; [|by left].
  apply bool_decide_eq_true in E. right. split; [by left|].
  destruct (client_keypair c) as [[sk pk]|], (client_random c) as [cr|]; simpl; try (by left).
  destruct (CookieReply.solve _ _ _); simpl; [by right|by left|by left].
Qed.

Lemma machine_step c0 x y : machine c0 (fst x) (snd x) -> step x y -> machine c0 (fst y) (snd y).
Proof.
  intros Hm Hs. destruct Hs as [c k x seed random r|c k x seed random x' rnd r|c k m r|c k q|c k r|c k pk];
    try subst r; cbn [fst snd] in *; pose proof Hm as [Hl Hp Hi Hw He Ho Hk].
  - pose proof (init_cases c x seed random) as Hc. destruct (create_init x seed random c) as [c' r]. simpl.
    destruct Hc as [(-> & ->)|(-> & E & _ & kp & cr & ->)]; simpl; [rewrite Z.add_0_r; by destruct k|].
    by apply opened_machine.
  - unfold create_encrypted_init. destruct (server_kem_pk c) as [pk|] eqn:Epk.
    + pose proof (init_cases c x seed random) as Hc. destruct (create_init x seed random c) as [c' r]. simpl.
      destruct Hc as [(_ & ->)|(_ & E & E' & kp & cr & ->)].
      * rewrite bool_decide_false by (intros Hx; by apply Hx). simpl. rewrite Z.add_0_r. by destruct k.
      * rewrite bool_decide_true by (simpl; rewrite E; done). by apply opened_machine.
    + simpl. rewrite bool_decide_false by (intros Hx; by apply Hx). simpl. rewrite Z.add_0_r. by destruct k.
  - pose proof (response_cases c m) as Hc. destruct (process_response c m) as [c' r]. simpl.
    destruct r as [[[sid keys] cfg]|e|]; simpl; [| |done].
    + destruct Hc as [Hwait ->]. destruct (Hw Hwait) as (H1 & H2 & _).
      assert (0 <= keys_left c) by (unfold keys_left; destruct (session_keys c); lia).
      split; simpl; try done; try lia; try (intros [?|[?|?]]; done).
      * intros _. split; [lia|done].
      * unfold keys_left at 1; simpl. lia.
    + rewrite Z.add_0_r. destruct k. destruct Hc as [->|[reason ->]]; [done|by apply set_failed_machine].
  - pose proof (cookie_cases c q) as [->|[Hwait [->| ->]]]; [done|..];
      (split; try done; intros _; by apply Hw).
  - simpl. split; simpl; try done; unfold keys_left in *; simpl in *; destruct (session_keys c); simpl; lia.
  - split; done.
Qed.

(** Whatever order the methods of a client's handshake are called in, and
    whatever messages arrive, it sends one initiation at most, accepts one
    response at most and only after it, and hands out one set of session keys
    at most and only after that; the keys not yet handed out are there; the
    pinned key and the level never change; while it waits it has its key pair
    and its random value; and no response aborts it. *)
Lemma client_machine c0 c k :
  fresh c0 -> rtc step (c0, mk_tally 0 0 0) (c, k) ->
  machine c0 c k /\ taken k <= accepted k <= inits k /\ inits k <= 1 /\
  (forall m, snd (process_response c m) <> Panic) /\
  (forall m, is_ok (snd (process_response c m)) = true -> accepted k = 0 /\ inits k = 1).
Proof.
  intros Hf Hr. assert (machine c0 c k) as Hm.
  { apply machine_fresh in Hf. revert Hf. remember (c0, mk_tally 0 0 0) as x. remember (c, k) as y.
    intros Hf. assert (machine c0 (fst x) (snd x)) as Hx by (by subst). clear Heqx Hf.
    revert Heqy Hx. induction Hr as [x|x y z Hxy _ IH]; intros -> Hx; [done|].
    apply IH; [done|]. by eapply machine_step. }
  split; [done|]. destruct Hm as [Hl Hp Hi Hw He Ho Hk].
  assert (0 <= keys_left c) by (unfold keys_left; destruct (session_keys c); lia).
  split; [lia|]. split; [lia|]. split.
  - intros m E. pose proof (response_cases c m) as Hc. destruct (process_response c m) as [c' r]. simpl in E. by subst r.
  - intros m E. pose proof (response_cases c m) as Hc. destruct (process_response c m) as [c' r]. simpl in E.
    destruct r as [[[sid keys] cfg]|e|]; [|done|done]. destruct Hc as [Hwait _]. by destruct (Hw Hwait) as (? & ? & _).
Qed.

End Machine.

(** * Examples *)

Lemma client_machine_witness :
  let c := fst (create_init (replicate 32 1) [2] (replicate 32 3) example_client) in
  rtc step (example_client, mk_tally 0 0 0) (c, mk_tally 1 0 0) /\
  expected_server_pk c = Some (ServerHandshake.public_key example_server).
Proof.
  intros c.
  assert (rtc step (example_client, mk_tally 0 0 0) (c, mk_tally 1 0 0)) as Hr.
  { apply rtc_once.
    assert (is_ok (snd (create_init (replicate 32 1) [2] (replicate 32 3) example_client)) = true) as Hok
      by (vm_compute; reflexivity).
    pose proof (step_init example_client (mk_tally 0 0 0) (replicate 32 1) [2] (replicate 32 3)) as Hs.
    cbv zeta in Hs. rewrite Hok in Hs. exact Hs. }
  split; [exact Hr|].
  destruct (client_machine example_client c (mk_tally 1 0 0)) as (Hm & _);
    [repeat split; reflexivity|exact Hr|].
  rewrite (m_pin _ _ _ Hm). reflexivity.
Defined.
