(* ===== verification/HandshakeReplay.v ===== *)
(** The server's cache of recent handshake randoms
    (hpn-server/src/handshake_replay.rs).

    The lock makes what an operation does to the table atomic; the clock is read
    just before it is taken, and the reading is an argument.  Histories have
    their readings in order, as if the lock were taken with the reading.
    Instants are nanoseconds, and [Instant::duration_since] is zero for an
    instant in the future. *)

From S2P Require Import Prelude.

Module HandshakeReplayCache.

Definition DEFAULT_TTL : Z := 60 * 1000000000.
Definition DEFAULT_MAX_ENTRIES : Z := 262144.

Record t := mk {
  entries : gmap (list Z) Z;
  ttl : Z;
  max_entries : Z;
}.

Definition with_params (ttl max_entries : Z) : t := mk ∅ ttl max_entries.

Definition new : t := with_params DEFAULT_TTL DEFAULT_MAX_ENTRIES.

(** [now.duration_since(seen) < ttl] *)
Definition live (ttl now seen : Z) : bool := saturating_sub now seen <? ttl.

Definition hard_cap (c : t) : Z := saturating_add 64 (max_entries c) (max_entries c / 10).

(** The clock read and the entries locked in one step. *)
Definition check_and_insert (c : t) (now : Z) (client_random : list Z) : t * bool :=
  let entries :=
    if max_entries c <=? Z.of_nat (size (entries c)) then
      filter (fun kv => live (ttl c) now (snd kv) = true) (entries c)
    else entries c in
  let c := mk entries (ttl c) (max_entries c) in
  if match entries !! client_random with Some seen => live (ttl c) now seen | None => false end then
    (c, false)
  else if (hard_cap c <=? Z.of_nat (size entries)) && bool_decide (entries !! client_random = None) then
    (c, false)
  else (mk (<[client_random := now]> entries) (ttl c) (max_entries c), true).

Definition len_entries (c : t) : Z := Z.of_nat (size (entries c)).

Definition is_empty (c : t) : bool := len_entries c =? 0.

Definition clear (c : t) : t := mk ∅ (ttl c) (max_entries c).

(** * What a cache has accepted

    [reachable ttl max c h T]: a cache with these parameters is in state [c]
    at instant [T] when [h] are the randoms it accepted since it was last
    cleared, each with its instant, the latest first. *)
Inductive reachable (ttl max : Z) : t -> list (Z * list Z) -> Z -> Prop :=
  | reachable_new T : reachable ttl max (with_params ttl max) [] T
  | reachable_accept c h T now r c' :
      reachable ttl max c h T -> T <= now -> check_and_insert c now r = (c', true) ->
      reachable ttl max c' ((now, r) :: h) now
  | reachable_refuse c h T now r c' :
      reachable ttl max c h T -> T <= now -> check_and_insert c now r = (c', false) ->
      reachable ttl max c' h now
  | reachable_clear c h T : reachable ttl max c h T -> reachable ttl max (clear c) [] T.

(** The randoms of [h] accepted less than [ttl] ago. *)
Definition recent (ttl now : Z) (h : list (Z * list Z)) : gset (list Z) :=
  list_to_set (snd <$> filter (fun e => now - fst e < ttl) h).

(** The cache holds the recent randoms, possibly with older ones. *)
Record tracks (ttl max : Z) (c : t) (h : list (Z * list Z)) (T : Z) : Prop := {
  tracks_ttl : HandshakeReplayCache.ttl c = ttl;
  tracks_max : max_entries c = max;
  tracks_past seen r : (seen, r) ∈ h -> seen <= T;
  tracks_sound r seen : entries c !! r = Some seen -> (seen, r) ∈ h;
  tracks_complete seen r : (seen, r) ∈ h -> T - seen < ttl -> entries c !! r = Some seen;
  tracks_size : Z.of_nat (size (entries c)) <= hard_cap c;
}.

Lemma hard_cap_ge c : 0 <= max_entries c < 2 ^ 64 -> max_entries c <= hard_cap c.
Proof.
  intros Hm. unfold hard_cap, saturating_add.
  pose proof (Z.div_pos (max_entries c) 10). lia.
Qed.

Lemma live_past ttl now seen : seen <= now -> live ttl now seen = true <-> now - seen < ttl.
Proof. intros. unfold live, saturating_sub. rewrite Z.ltb_lt. lia. Qed.

Lemma tracks_later ttl max c h T T' : tracks ttl max c h T -> T <= T' -> tracks ttl max c h T'.
Proof.
  intros [] HT. split; try done.
  - intros seen r Hin. specialize (tracks_past0 _ _ Hin). lia.
  - intros seen r Hin Hl. apply tracks_complete0; [done|lia].
Qed.

(** Dropping the entries that are not live loses nothing. *)
Lemma tracks_sweep ttl max c h now :
  tracks ttl max c h now ->
  tracks ttl max (mk (filter (fun kv => live ttl now (snd kv) = true) (entries c)) ttl max) h now.
Proof.
  intros []. split; try done; simpl.
  - intros r seen [Hs _]%map_lookup_filter_Some. by apply tracks_sound0.
  - intros seen r Hin Hl. apply map_lookup_filter_Some. split; [by apply tracks_complete0|].
    apply live_past; [by eapply tracks_past0|done].
  - unfold hard_cap in *. simpl. rewrite tracks_max0 in tracks_size0.
    pose proof (map_size_filter (fun kv => live ttl now (snd kv) = true) (entries c)). lia.
Qed.

(** The recent randoms are the keys of the live entries. *)
Lemma recent_live ttl max c h now :
  tracks ttl max c h now ->
  recent ttl now h = dom (filter (fun kv => live ttl now (snd kv) = true) (entries c)).
Proof.
  intros []. apply set_eq. intros r. unfold recent.
  rewrite elem_of_list_to_set, list_elem_of_fmap, elem_of_dom. split.
  - intros ([seen r'] & -> & Hin). apply list_elem_of_filter in Hin as [Hl Hin]. simpl in *.
    exists seen. apply map_lookup_filter_Some. split; [by apply tracks_complete0|].
    apply live_past; [by eapply tracks_past0|done].
  - intros [seen [Hs Hl]%map_lookup_filter_Some]. apply tracks_sound0 in Hs.
    exists (seen, r). split; [done|]. apply list_elem_of_filter. split; [|done].
    apply live_past; [by eapply tracks_past0|done].
Qed.

(** The entries an operation works on: swept when the cache is full.  Either
    way they are full only with recent randoms. *)
Lemma swept ttl max c h now :
  tracks ttl max c h now -> 0 <= max < 2 ^ 64 ->
  let es := if max <=? Z.of_nat (size (entries c))
            then filter (fun kv => live ttl now (snd kv) = true) (entries c) else entries c in
  tracks ttl max (mk es ttl max) h now /\
  (hard_cap c <= Z.of_nat (size (recent ttl now h)) <-> hard_cap c <= Z.of_nat (size es)) /\
  (hard_cap c <= Z.of_nat (size es) -> forall r seen, es !! r = Some seen -> live ttl now seen = true).
Proof.
  intros Ht Hm es. pose proof (hard_cap_ge c) as Hc. rewrite (tracks_max _ _ _ _ _ Ht) in Hc.
  pose proof (recent_live _ _ _ _ _ Ht) as Hr. unfold es.
  destruct (max <=? Z.of_nat (size (entries c))) eqn:E; b2p.
  - split; [by apply tracks_sweep|]. rewrite Hr, size_dom. split; [done|].
    by intros _ r seen [_ Hl]%map_lookup_filter_Some.
  - split; [|rewrite Hr, size_dom; pose proof (map_size_filter
      (fun kv => live ttl now (snd kv) = true) (entries c)); split; lia].
    destruct Ht as [<- <- ? ? ? ?]. by destruct c.
Qed.

Lemma tracks_insert ttl max c h now r :
  tracks ttl max c h now -> (forall seen, (seen, r) ∈ h -> ttl <= now - seen) ->
  Z.of_nat (size (<[r := now]> (entries c))) <= hard_cap c ->
  tracks ttl max (mk (<[r := now]> (entries c)) ttl max) ((now, r) :: h) now.
Proof.
  intros [] Hr Hs. split; try done; simpl.
  - intros seen r'. rewrite elem_of_cons. intros [[= -> ->]|Hin]; [lia|by eapply tracks_past0].
  - intros r' seen. rewrite lookup_insert_Some, elem_of_cons.
    intros [[-> ->]|[_ ?]]; [by left|right; by apply tracks_sound0].
  - intros seen r'. rewrite elem_of_cons. intros [[= -> ->]|Hin] Hl; [apply lookup_insert_eq|].
    rewrite lookup_insert_ne; [by apply tracks_complete0|]. intros ->. specialize (Hr _ Hin). lia.
  - unfold hard_cap in *. simpl. by rewrite tracks_max0 in Hs.
Qed.

(** The decision of the cache and the invariant. *)
Lemma check_and_insert_spec ttl max c h now r :
  tracks ttl max c h now -> 0 <= max < 2 ^ 64 ->
  let '(c', ok) := check_and_insert c now r in
  (ok = true <-> (forall seen, (seen, r) ∈ h -> ttl <= now - seen) /\
                 Z.of_nat (size (recent ttl now h)) < hard_cap c) /\
  tracks ttl max c' (if ok then (now, r) :: h else h) now.
Proof.
  intros Ht Hm. destruct (swept _ _ _ _ _ Ht Hm) as (Ht1 & Hfull & Hlive).
  unfold check_and_insert. rewrite (tracks_ttl _ _ _ _ _ Ht), (tracks_max _ _ _ _ _ Ht).
  set (es := if max <=? _ then _ else _) in *. cbn zeta in *.
  change (hard_cap (mk es ttl max)) with (saturating_add 64 max (max / 10)).
  assert (hard_cap c = saturating_add 64 max (max / 10)) as Hc
    by (unfold hard_cap; by rewrite (tracks_max _ _ _ _ _ Ht)).
  rewrite Hc in *. cbn [HandshakeReplayCache.ttl].
  assert (match es !! r with Some seen => live ttl now seen | None => false end = true <->
          exists seen, (seen, r) ∈ h /\ now - seen < ttl) as Hseen.
  { split.
    - destruct (es !! r) as [seen|] eqn:E; [|done]. intros Hl.
      pose proof (tracks_sound _ _ _ _ _ Ht1 r seen E) as Hin. exists seen. split; [done|].
      apply live_past; [by eapply (tracks_past _ _ _ _ _ Ht)|done].
    - intros (seen & Hin & Hl). pose proof (tracks_complete _ _ _ _ _ Ht1 _ _ Hin Hl) as E.
      simpl in E. rewrite E. apply live_past; [by eapply (tracks_past _ _ _ _ _ Ht)|done]. }
  destruct (match es !! r with Some _ => _ | None => _ end) eqn:Em.
  { split; [|done]. destruct (proj1 Hseen eq_refl) as (seen & Hin & Hl).
    split; [done|]. intros [Hold _]. specialize (Hold _ Hin). lia. }
  assert (forall seen, (seen, r) ∈ h -> ttl <= now - seen) as Hold.
  { intros seen Hin. destruct (decide (now - seen < ttl)); [|lia].
    enough (false = true) by done. apply Hseen. by exists seen. }
  destruct ((_ <=? _) && _) eqn:Ef.
  { apply andb_true_iff in Ef as [Ef _]. b2p. split; [|done]. split; [done|]. lia. }
  apply andb_false_iff in Ef. split.
  - split; [|done]. intros _. split; [done|].
    destruct Ef as [Ef|Ef]; b2p; [lia|].
    destruct (es !! r) as [seen|] eqn:E; [|done].
    apply Z.lt_nge. intros Hge. apply Hfull in Hge. by rewrite (Hlive Hge _ _ E) in Em.
  - apply (tracks_insert _ _ _ _ _ _ Ht1 Hold). simpl. unfold hard_cap. simpl.
    pose proof (tracks_size _ _ _ _ _ Ht1) as Hsz. unfold hard_cap in Hsz. simpl in Hsz.
    destruct (es !! r) as [seen|] eqn:E; [rewrite map_size_insert_Some; [done|by eexists]|].
    rewrite map_size_insert_None by done. destruct Ef as [Ef|Ef]; b2p; [lia|done].
Qed.

Lemma reachable_tracks ttl max c h T :
  0 <= max < 2 ^ 64 -> reachable ttl max c h T -> tracks ttl max c h T.
Proof.
  intros Hm. induction 1 as [T|c h T now r c' Hr IH HT E|c h T now r c' Hr IH HT E|c h T Hr IH].
  - split; try done; simpl; [by intros ? ? ?%not_elem_of_nil|by intros ? ? ?%not_elem_of_nil|].
    pose proof (hard_cap_ge (with_params ttl max) Hm). simpl in *. rewrite map_size_empty. lia.
  - apply (tracks_later _ _ _ _ _ now) in IH; [|done].
    pose proof (check_and_insert_spec ttl max c h now r IH Hm) as Hs. rewrite E in Hs. apply Hs.
  - apply (tracks_later _ _ _ _ _ now) in IH; [|done].
    pose proof (check_and_insert_spec ttl max c h now r IH Hm) as Hs. rewrite E in Hs. apply Hs.
  - destruct IH. split; try done; simpl; [by intros ? ? ?%not_elem_of_nil|by intros ? ? ?%not_elem_of_nil|].
    pose proof (hard_cap_ge c) as Hc. unfold hard_cap in *. simpl. rewrite map_size_empty. lia.
Qed.

(** C20: the handshake replay cache, in every state it can reach with a clock
    that does not run backwards: a random is accepted exactly when it was not
    accepted within the time to live and fewer than 110% of the configured
    number of randoms were; sweeping is invisible, in particular no random is
    accepted twice within the time to live; and the cache never holds more
    than 110% of the configured number of entries. *)
Theorem replay_cache_decides ttl max c h T now r :
  0 <= max < 2 ^ 64 -> reachable ttl max c h T -> T <= now ->
  (snd (check_and_insert c now r) = true <->
     (forall seen, (seen, r) ∈ h -> ttl <= now - seen) /\
     Z.of_nat (size (recent ttl now h)) < saturating_add 64 max (max / 10)) /\
  len_entries (fst (check_and_insert c now r)) <= saturating_add 64 max (max / 10).
Proof.
  intros Hm Hr HT. pose proof (tracks_later _ _ _ _ _ _ (reachable_tracks _ _ _ _ _ Hm Hr) HT) as Ht.
  pose proof (check_and_insert_spec ttl max c h now r Ht Hm) as Hs.
  destruct (check_and_insert c now r) as [c' ok]. destruct Hs as [Hs Ht'].
  unfold hard_cap in Hs. rewrite (tracks_max _ _ _ _ _ Ht) in Hs.
  split; [exact Hs|]. pose proof (tracks_size _ _ _ _ _ Ht') as Hsz.
  unfold hard_cap in Hsz. by rewrite (tracks_max _ _ _ _ _ Ht') in Hsz.
Qed.

(** A cache for ten randoms that has accepted one: the same random is refused
    ten seconds later. *)
Lemma replay_cache_decides_witness :
  exists c, reachable DEFAULT_TTL 10 c [(5, [7])] 5 /\
    snd (check_and_insert c (10 * 1000000000) [7]) = false /\
    snd (check_and_insert c (10 * 1000000000) [8]) = true.
Proof.
  set (c := fst (check_and_insert (with_params DEFAULT_TTL 10) 5 [7])).
  assert (reachable DEFAULT_TTL 10 c [(5, [7])] 5) as Hr.
  { eapply (reachable_accept _ _ (with_params DEFAULT_TTL 10) [] 5);
      [apply reachable_new|lia|vm_compute; reflexivity]. }
  exists c. split; [exact Hr|]. split; [vm_compute; reflexivity|].
  apply (replay_cache_decides DEFAULT_TTL 10 c [(5, [7])] 5 (10 * 1000000000) [8] ltac:(lia) Hr ltac:(lia)).
  split; [|vm_compute; reflexivity].
  intros seen Hin. apply list_elem_of_singleton in Hin. discriminate Hin.
Defined.

End HandshakeReplayCache.
