(* ===== verification/RateLimit.v ===== *)
(** The handshake rate limiter (hpn-server/src/rate_limit.rs): a counter per
    address and fixed window, with a bounded table.

    Clock readings are arguments; [allow] reads the clock again when it cleans
    up.  [allow] locks the table twice, to clean up and to count, and reads the
    clock before either, so that calls of several threads may count in another
    order than that of their readings.  Here a call is one step, and the
    readings of a history are in order. *)

From S2P Require Import Prelude Net.

(** IPv6 addresses share a bucket per /64 prefix. *)
Definition rate_limit_key (addr : IpAddr.t) : IpAddr.t :=
  match addr with
  | IpAddr.V4 _ => addr
  | IpAddr.V6 v6 =>
      let segments := Ipv6Addr.segments v6 in
      IpAddr.V6 (concat (map (be_bytes 2) (take 4 segments ++ [0; 0; 0; 0])))
  end.

Definition DEFAULT_MAX_HANDSHAKES_PER_MINUTE : Z := 5.
Definition RATE_LIMIT_WINDOW : Z := 60 * 1000000000.
Definition CLEANUP_INTERVAL : Z := 300 * 1000000000.
Definition DEFAULT_MAX_TRACKED_IPS : Z := 100000.

Module RateLimitEntry.
Record t := mk { count : Z; window_start : Z }.
End RateLimitEntry.

Module HandshakeRateLimiter.
Import RateLimitEntry (count, window_start).

Record t := mk {
  requests : gmap IpAddr.t RateLimitEntry.t;
  max_per_window : Z;
  window : Z;
  last_cleanup : Z;
  max_tracked_ips : Z;
}.

Definition with_limits (now max_per_minute max_tracked_ips : Z) : t :=
  mk ∅ max_per_minute RATE_LIMIT_WINDOW now max_tracked_ips.

Definition with_limit (now max_per_minute : Z) : t :=
  with_limits now max_per_minute DEFAULT_MAX_TRACKED_IPS.

Definition new (now : Z) : t := with_limit now DEFAULT_MAX_HANDSHAKES_PER_MINUTE.

Definition set_requests (c : t) (requests : gmap IpAddr.t RateLimitEntry.t) : t :=
  mk requests (max_per_window c) (window c) (last_cleanup c) (max_tracked_ips c).

Definition cleanup (c : t) (now : Z) : t :=
  set_requests c
    (filter (fun kv => (saturating_sub now (window_start (snd kv)) <=? window c) = true) (requests c)).

Definition maybe_cleanup (c : t) (now now' : Z) : t :=
  if CLEANUP_INTERVAL <? saturating_sub now (last_cleanup c) then
    cleanup (mk (requests c) (max_per_window c) (window c) now (max_tracked_ips c)) now'
  else c.

(** Cleaning up and counting in one step. *)
Definition allow (c : t) (now now' : Z) (addr : IpAddr.t) : t * bool :=
  let key := rate_limit_key addr in
  let c := maybe_cleanup c now now' in
  if bool_decide (requests c !! key = None) &&
     (max_tracked_ips c <=? Z.of_nat (size (requests c))) then (c, false)
  else
    let entry := default (RateLimitEntry.mk 0 now) (requests c !! key) in
    let put e := set_requests c (<[key := e]> (requests c)) in
    if window c <? saturating_sub now (window_start entry) then
      (put (RateLimitEntry.mk 1 now), true)
    else if max_per_window c <=? count entry then (put entry, false)
    else (put (RateLimitEntry.mk (count entry + 1) (window_start entry)), true).

Definition check (c : t) (now : Z) (addr : IpAddr.t) : bool :=
  match requests c !! rate_limit_key addr with
  | None => true
  | Some entry =>
      if window c <? saturating_sub now (window_start entry) then true
      else count entry <? max_per_window c
  end.

Definition get_count (c : t) (now : Z) (addr : IpAddr.t) : Z :=
  match requests c !! rate_limit_key addr with
  | None => 0
  | Some entry =>
      if window c <? saturating_sub now (window_start entry) then 0 else count entry
  end.

Definition tracked_ips (c : t) : Z := Z.of_nat (size (requests c)).

Definition reset (c : t) (addr : IpAddr.t) : t :=
  set_requests c (delete (rate_limit_key addr) (requests c)).

Definition clear (c : t) : t := set_requests c ∅.

(** * The history of a limiter

    [reachable limit cap delay c h T]: a limiter of [limit] requests per window
    and [cap] tracked addresses is in state [c] at instant [T], and [h] are the
    requests it allowed, latest first, each with its instant and its bucket;
    resetting a bucket forgets its requests.  At most [delay] passes between
    the two clock readings of a request. *)
Inductive reachable (limit cap delay : Z) : t -> list (Z * IpAddr.t) -> Z -> Prop :=
  | reachable_new T : reachable limit cap delay (with_limits T limit cap) [] T
  | reachable_allow c h T now now' a :
      reachable limit cap delay c h T -> T <= now <= now' -> now' <= now + delay ->
      reachable limit cap delay (fst (allow c now now' a))
        (if snd (allow c now now' a) then (now, rate_limit_key a) :: h else h) now'
  | reachable_cleanup c h T now :
      reachable limit cap delay c h T -> T <= now -> reachable limit cap delay (cleanup c now) h now
  | reachable_reset c h T a :
      reachable limit cap delay c h T ->
      reachable limit cap delay (reset c a) (filter (fun e => snd e <> rate_limit_key a) h) T
  | reachable_clear c h T :
      reachable limit cap delay c h T -> reachable limit cap delay (clear c) [] T.

(** The instants of [h] in bucket [k]. *)
Definition times (k : IpAddr.t) (h : list (Z * IpAddr.t)) : list Z :=
  fst <$> filter (fun e => snd e = k) h.

(** How many instants of [l] lie in an interval, bounds included. *)
Definition within (a b : Z) (l : list Z) : Z := len (filter (fun t => a <= t <= b) l).

(** [counted limit w g s n l]: the instants [l] fill windows of length [w]
    that start more than [g] apart with at most [limit] each; the last window
    starts at [s] and holds [n]. *)
Inductive counted (limit w g : Z) : Z -> Z -> list Z -> Prop :=
  | counted_first s : counted limit w g s 1 [s]
  | counted_again s n l x :
      counted limit w g s n l -> s <= x <= s + w -> n < limit ->
      counted limit w g s (n + 1) (x :: l)
  | counted_next s n l x :
      counted limit w g s n l -> s + g < x -> (forall y, y ∈ l -> y <= x) ->
      counted limit w g x 1 (x :: l).

Lemma within_app a b l k : within a b (l ++ k) = within a b l + within a b k.
Proof. unfold within. by rewrite filter_app, len_app. Qed.

Lemma within_cons a b x l :
  within a b (x :: l) = (if decide (a <= x <= b) then 1 else 0) + within a b l.
Proof. unfold within. rewrite filter_cons. by destruct (decide _); rewrite ?len_cons. Qed.

Lemma within_le a b l : within a b l <= len l.
Proof. induction l as [|x l IH]; [done|]. rewrite within_cons, len_cons. destruct (decide _); lia. Qed.

Lemma within_none a b l : (forall x, x ∈ l -> ~ a <= x <= b) -> within a b l = 0.
Proof.
  induction l as [|x l IH]; intros Hn; [done|]. rewrite within_cons, IH.
  - specialize (Hn x ltac:(left)). by destruct (decide _).
  - intros y Hy. apply Hn. by right.
Qed.

Lemma within_all a b l : (forall x, x ∈ l -> a <= x <= b) -> within a b l = len l.
Proof.
  induction l as [|x l IH]; intros Hn; [done|]. rewrite within_cons, len_cons, IH.
  - specialize (Hn x ltac:(left)). by destruct (decide _).
  - intros y Hy. apply Hn. by right.
Qed.

Lemma within_sub a b a' b' l :
  (forall x, x ∈ l -> a <= x <= b -> a' <= x <= b') -> within a b l <= within a' b' l.
Proof.
  induction l as [|x l IH]; intros Hs; [done|]. rewrite !within_cons.
  assert (within a b l <= within a' b' l).
  { apply IH. intros y Hy. apply Hs. by right. }
  specialize (Hs x ltac:(left)). repeat destruct (decide _); lia.
Qed.

(** The instants of the last window come first and are at most [limit], those
    less than [g] before it are at most [limit] more, and any interval of
    length [g] holds at most twice the limit. *)
Lemma counted_bounds limit w g s n l :
  1 <= limit -> 0 <= g -> counted limit w g s n l ->
  1 <= n <= limit /\
  (exists l1 l2, l = l1 ++ l2 /\ len l1 = n /\ (forall x, x ∈ l1 -> s <= x) /\
     (forall x, x ∈ l2 -> x <= s) /\ within (s - g) s l2 <= limit) /\
  forall a, within a (a + g) l <= 2 * limit.
Proof.
  intros Hl Hg. induction 1 as [s|s n l x Hc IH Hx Hn|s n l x Hc IH Hx Hp].
  - split; [lia|]. split.
    + exists [s], []. split; [done|]. split; [done|]. split; [intros x ->%list_elem_of_singleton; lia|].
      split; [by intros x ?%not_elem_of_nil|]. change (0 <= limit). lia.
    + intros a. pose proof (within_le a (a + g) [s]). change (len [s]) with 1 in *. lia.
  - destruct IH as (Hn1 & (l1 & l2 & -> & Hl1 & H1 & H2 & Hw2) & Ha). split; [lia|]. split.
    + exists (x :: l1), l2. split; [done|]. split; [rewrite len_cons; lia|].
      split; [intros y [->|?]%elem_of_cons; [lia|by apply H1]|by split].
    + intros a. rewrite within_cons. destruct (decide (a <= x <= a + g)); [|apply Ha].
      rewrite within_app. pose proof (within_le a (a + g) l1).
      enough (within a (a + g) l2 <= within (s - g) s l2) by lia.
      apply within_sub. intros y Hy. specialize (H2 y Hy). lia.
  - destruct IH as (Hn1 & (l1 & l2 & -> & Hl1 & H1 & H2 & Hw2) & Ha). split; [lia|].
    assert (forall a b, s < a -> within a b (l1 ++ l2) <= n) as Hlt.
    { intros a b Hsa. rewrite within_app, (within_none a b l2); [pose proof (within_le a b l1); lia|].
      intros y Hy. specialize (H2 y Hy). lia. }
    split.
    + exists [x], (l1 ++ l2). split; [done|]. split; [done|].
      split; [intros y ->%list_elem_of_singleton; lia|]. split; [done|].
      specialize (Hlt (x - g) x). lia.
    + intros a. rewrite within_cons. destruct (decide (a <= x <= a + g)); [|apply Ha].
      specialize (Hlt a (a + g)). lia.
Qed.

(** * The invariant *)

(** The state of one bucket for the instants it allowed, all up to [P]:
    nothing, or the last window, possibly forgotten once it is over, before
    [Q]. *)
Definition bucket_ok (limit w g P Q : Z) (e : option RateLimitEntry.t) (l : list Z) : Prop :=
  (l = [] /\ e = None) \/
  exists s n, counted limit w g s n l /\ s <= P /\ (forall x, x ∈ l -> x <= P) /\
    (e = Some (RateLimitEntry.mk n s) \/ (e = None /\ s + w < Q)).

Lemma bucket_later limit w g P Q P' Q' e l :
  P <= P' -> Q <= Q' -> bucket_ok limit w g P Q e l -> bucket_ok limit w g P' Q' e l.
Proof.
  intros HP HQ [?|(s & n & Hc & Hs & Hp & He)]; [by left|]. right. exists s, n. split; [done|].
  split; [lia|]. split; [intros x Hx; specialize (Hp x Hx); lia|].
  destruct He as [?|[? ?]]; [by left|right; split; [done|lia]].
Qed.

Lemma bucket_counted limit w g P Q s n l :
  counted limit w g s n l -> s <= P -> (forall x, x ∈ l -> x <= P) ->
  bucket_ok limit w g P Q (Some (RateLimitEntry.mk n s)) l.
Proof. intros. right. exists s, n. split; [done|]. split; [done|]. split; [done|by left]. Qed.

Lemma past_cons P now (l : list Z) :
  P <= now -> (forall x, x ∈ l -> x <= P) -> forall x, x ∈ now :: l -> x <= now.
Proof. intros HT Hp x [->|Hx]%elem_of_cons; [lia|]. specialize (Hp x Hx). lia. Qed.

(** One request on a bucket: [allow] after its check of the capacity. *)
Lemma bucket_allow limit w g P Q Q' e l now :
  1 <= limit -> 0 <= g <= w -> P <= now -> Q <= now + (w - g) -> bucket_ok limit w g P Q e l ->
  let entry := default (RateLimitEntry.mk 0 now) e in
  let '(entry', ok) :=
    if w <? saturating_sub now (window_start entry) then (RateLimitEntry.mk 1 now, true)
    else if limit <=? count entry then (entry, false)
    else (RateLimitEntry.mk (count entry + 1) (window_start entry), true) in
  bucket_ok limit w g now Q' (Some entry') (if ok then now :: l else l) /\
  (within (now - w) now l < limit -> ok = true).
Proof.
  intros Hl Hg HP HQ He. unfold saturating_sub. cbv zeta.
  destruct He as [[-> ->]|(s & n & Hc & Hs & Hp & [->|[-> Hold]])]; cbn [default from_option id count window_start].
  - rewrite (proj2 (Z.ltb_ge _ _)), (proj2 (Z.leb_gt _ _)) by lia. cbv iota beta. split; [|done].
    apply bucket_counted; [constructor|lia|by intros x ->%list_elem_of_singleton].
  - destruct (counted_bounds limit w g s n l Hl) as (Hn & (l1 & l2 & El & Hl1 & H1 & _) & _); [lia|done|].
    destruct (w <? Z.max 0 (now - s)) eqn:E1; b2p; cbv iota beta.
    { split; [|done]. apply bucket_counted; [|lia|by apply (past_cons P)].
      apply (counted_next _ _ _ s n); [done|lia|]. intros y Hy. specialize (Hp y Hy). lia. }
    destruct (limit <=? n) eqn:E2; b2p; cbv iota beta.
    + split; [apply bucket_counted; [done|lia|intros x Hx; specialize (Hp x Hx); lia]|].
      rewrite El, within_app, (within_all _ _ l1); [pose proof (len_nonneg
        (filter (fun x => now - w <= x <= now) l2)); unfold within; lia|].
      intros x Hx. specialize (H1 x Hx). specialize (Hp x). rewrite El, elem_of_app in Hp.
      specialize (Hp (or_introl Hx)). lia.
    + split; [|done]. apply bucket_counted; [|lia|by apply (past_cons P)].
      apply counted_again; [done|lia|lia].
  - rewrite (proj2 (Z.ltb_ge _ _)), (proj2 (Z.leb_gt _ _)) by lia. cbv iota beta. split; [|done].
    apply bucket_counted; [|lia|by apply (past_cons P)].
    apply (counted_next _ _ _ s n); [done|lia|]. intros y Hy. specialize (Hp y Hy). lia.
Qed.

Record ok (limit cap delay : Z) (c : t) (h : list (Z * IpAddr.t)) (P Q : Z) : Prop := {
  ok_limit : max_per_window c = limit;
  ok_window : window c = RATE_LIMIT_WINDOW;
  ok_cap : max_tracked_ips c = cap;
  ok_size : tracked_ips c <= cap;
  ok_bucket k :
    bucket_ok limit RATE_LIMIT_WINDOW (RATE_LIMIT_WINDOW - delay) P Q (requests c !! k) (times k h);
}.

Lemma ok_later limit cap delay c h P Q P' Q' :
  P <= P' -> Q <= Q' -> ok limit cap delay c h P Q -> ok limit cap delay c h P' Q'.
Proof. intros HP HQ []. split; try done. intros k. by apply (bucket_later _ _ _ P Q). Qed.

Lemma cleanup_ok limit cap delay c h P Q now :
  Q <= now -> ok limit cap delay c h P Q -> ok limit cap delay (cleanup c now) h P now.
Proof.
  intros HQ []. split; try done.
  - unfold tracked_ips in *. simpl. pose proof (map_size_filter
      (fun kv => (saturating_sub now (window_start (snd kv)) <=? window c) = true) (requests c)). lia.
  - intros k. specialize (ok_bucket0 k). simpl.
    destruct ok_bucket0 as [[Hl He]|(s & n & Hc & Hs & Hp & He)].
    { left. split; [done|]. apply map_lookup_filter_None. by left. }
    right. exists s, n. split; [done|]. split; [lia|]. split; [done|].
    destruct He as [He|[He ?]].
    + destruct (saturating_sub now s <=? window c) eqn:E.
      * left. by apply map_lookup_filter_Some.
      * right. split.
        -- apply map_lookup_filter_None. right. rewrite He. intros x [= <-]. simpl. by rewrite E.
        -- unfold saturating_sub in E. b2p. rewrite ok_window0 in E. unfold RATE_LIMIT_WINDOW in *. lia.
    + right. split; [|lia]. apply map_lookup_filter_None. by left.
Qed.

Lemma maybe_cleanup_ok limit cap delay c h T now now' :
  T <= now <= now' -> ok limit cap delay c h T T ->
  ok limit cap delay (maybe_cleanup c now now') h now now'.
Proof.
  intros HT Hok. unfold maybe_cleanup. destruct (_ <? _).
  - apply (cleanup_ok _ _ _ _ _ _ now); [lia|].
    apply (ok_later _ _ _ _ _ T T); [lia|lia|]. by destruct Hok.
  - apply (ok_later _ _ _ _ _ T T); [lia|lia|done].
Qed.

Lemma maybe_cleanup_requests c now now' k :
  requests c !! k = None -> requests (maybe_cleanup c now now') !! k = None.
Proof.
  intros Hk. unfold maybe_cleanup. destruct (_ <? _); [|done]. simpl.
  apply map_lookup_filter_None. by left.
Qed.

Lemma times_cons k x k' h :
  times k ((x, k') :: h) = if decide (k' = k) then x :: times k h else times k h.
Proof. unfold times. rewrite filter_cons. simpl. by destruct (decide _). Qed.

Lemma times_forget k k' h :
  times k (filter (fun e => snd e <> k') h) = if decide (k' = k) then [] else times k h.
Proof.
  induction h as [|[x k1] h IH]; [by destruct (decide _)|]. rewrite filter_cons, times_cons. simpl.
  destruct (decide (k1 <> k')) as [Hn|Hn]; [|apply dec_stable in Hn as ->].
  - rewrite times_cons, IH. repeat destruct (decide _); congruence.
  - rewrite IH. by destruct (decide (k' = k)).
Qed.

(** A bucket that is not tracked after a cleanup leaves room for it. *)
Lemma maybe_cleanup_room c now now' k cap :
  tracked_ips c <= cap -> requests (maybe_cleanup c now now') !! k = None ->
  is_Some (requests c !! k) \/ tracked_ips c < cap ->
  tracked_ips (maybe_cleanup c now now') < cap.
Proof.
  unfold maybe_cleanup, tracked_ips. destruct (_ <? _); [simpl|intros Hs Hk [[e He]|?]; [|done]; congruence].
  set (m := filter _ _). intros Hs Hk Hr.
  assert (size m <= size (requests c))%nat by apply map_size_filter.
  destruct Hr as [[e He]|?]; [|lia].
  assert (m ⊆ delete k (requests c)) as Hsub.
  { apply map_subseteq_spec. intros i x Hx. rewrite lookup_delete_ne; [|congruence].
    by apply map_lookup_filter_Some in Hx as [? _]. }
  apply map_subseteq_size in Hsub. rewrite map_size_delete_Some in Hsub by (by eexists).
  assert (size (requests c) <> 0%nat) by (intros Hz%map_size_empty_iff; rewrite Hz in He; done). lia.
Qed.

(** Writing back the entry of a bucket. *)
Lemma put_ok limit cap delay c h now now' k e (b : bool) :
  now <= now' -> ok limit cap delay c h now now' ->
  is_Some (requests c !! k) \/ tracked_ips c < cap ->
  bucket_ok limit RATE_LIMIT_WINDOW (RATE_LIMIT_WINDOW - delay) now now' (Some e)
    (if b then now :: times k h else times k h) ->
  ok limit cap delay (set_requests c (<[k := e]> (requests c)))
    (if b then (now, k) :: h else h) now' now'.
Proof.
  intros HT [Hlim Hwin Hcap Hsz Hb] Hroom He. split; try done.
  - unfold tracked_ips in *. simpl.
    destruct (requests c !! k) as [e'|] eqn:Ek; [rewrite map_size_insert_Some; [done|by eexists]|].
    rewrite map_size_insert_None by done. destruct Hroom as [[? ?]|?]; [done|lia].
  - intros k'. simpl. apply (bucket_later _ _ _ now now'); [lia|lia|].
    destruct (decide (k = k')) as [<-|Hne].
    + rewrite lookup_insert_eq. destruct b; [|done]. rewrite times_cons. by rewrite decide_True.
    + rewrite lookup_insert_ne by done. destruct b; [|done]. rewrite times_cons.
      by rewrite decide_False.
Qed.

Lemma allow_ok limit cap delay c h T now now' a :
  1 <= limit -> 0 <= delay <= RATE_LIMIT_WINDOW -> T <= now <= now' -> now' <= now + delay ->
  ok limit cap delay c h T T ->
  ok limit cap delay (fst (allow c now now' a))
    (if snd (allow c now now' a) then (now, rate_limit_key a) :: h else h) now' now' /\
  (within (now - RATE_LIMIT_WINDOW) now (times (rate_limit_key a) h) < limit ->
   is_Some (requests c !! rate_limit_key a) \/ tracked_ips c < cap ->
   snd (allow c now now' a) = true).
Proof.
  intros Hl Hd HT Hn Hok. pose proof (maybe_cleanup_ok _ _ _ _ _ _ _ _ HT Hok) as Hc.
  pose proof (maybe_cleanup_room c now now' (rate_limit_key a) cap (ok_size _ _ _ _ _ _ _ Hok)) as Hroom.
  unfold allow. set (k := rate_limit_key a) in *. set (c1 := maybe_cleanup c now now') in *.
  pose proof Hc as [Hlim Hwin Hcap Hsz Hb]. rewrite Hlim, Hwin, Hcap.
  destruct (bool_decide (requests c1 !! k = None) && (cap <=? Z.of_nat (size (requests c1)))) eqn:Ef.
  { apply andb_true_iff in Ef as [Ef1 Ef2]. b2p. cbn [fst snd]. split.
    - apply (ok_later _ _ _ _ _ now now'); [lia|lia|done].
    - intros _ Hr. specialize (Hroom Ef1 Hr). unfold tracked_ips in Hroom. lia. }
  pose proof (bucket_allow limit RATE_LIMIT_WINDOW (RATE_LIMIT_WINDOW - delay) now now' now'
    (requests c1 !! k) (times k h) now Hl ltac:(lia) ltac:(lia) ltac:(lia) (Hb k)) as Hstep.
  assert (is_Some (requests c1 !! k) \/ tracked_ips c1 < cap) as Hin.
  { apply andb_false_iff in Ef as [Ef|Ef]; b2p; [|right; unfold tracked_ips; lia].
    left. destruct (requests c1 !! k); [by eexists|done]. }
  cbv zeta in Hstep. set (entry := default _ (requests c1 !! k)) in *.
  pose proof (fun e b => put_ok limit cap delay c1 h now now' k e b ltac:(lia) Hc Hin) as Hput.
  destruct (RATE_LIMIT_WINDOW <? _); [|destruct (limit <=? _)]; cbn [fst snd];
    destruct Hstep as [Hs1 Hs2].
  - split; [by apply (Hput _ true)|done].
  - split; [by apply (Hput _ false)|]. intros Hw _. by apply Hs2.
  - split; [by apply (Hput _ true)|done].
Qed.

Lemma reachable_ok limit cap delay c h T :
  1 <= limit -> 0 <= cap -> 0 <= delay <= RATE_LIMIT_WINDOW ->
  reachable limit cap delay c h T -> ok limit cap delay c h T T.
Proof.
  intros Hl Hc Hd.
  induction 1 as [T|c h T now now' a Hr IH HT Hn|c h T now Hr IH HT|c h T a Hr IH|c h T Hr IH].
  - split; try done. intros k. by left.
  - by apply (allow_ok limit cap delay c h T).
  - apply (ok_later _ _ _ _ _ T now); [lia|lia|]. by apply (cleanup_ok _ _ _ _ _ _ T).
  - destruct IH as [Hlim Hwin Hcap Hsz Hb]. split; try done.
    + unfold tracked_ips in *. simpl. pose proof (map_subseteq_size _ _
        (delete_subseteq (requests c) (rate_limit_key a))). lia.
    + intros k. simpl. rewrite times_forget.
      destruct (decide (rate_limit_key a = k)) as [->|Hne]; [left; by rewrite lookup_delete_eq|].
      rewrite lookup_delete_ne by done. apply Hb.
  - destruct IH as [Hlim Hwin Hcap Hsz Hb]. split; try done. intros k. by left.
Qed.

(** C21: the rate limiter, in every state it can reach with a clock that does
    not run backwards: no bucket (IPv4 address or IPv6 /64 prefix) gets more
    than twice the limit within any interval of the length of a window, less
    the time a request may take between its clock readings; no more than the
    configured number of buckets is tracked; and a bucket that got less than
    the limit in the last window is served if it is tracked or there is room. *)
Theorem rate_limit_enforced limit cap delay c h T :
  1 <= limit -> 0 <= cap -> 0 <= delay <= RATE_LIMIT_WINDOW ->
  reachable limit cap delay c h T ->
  (forall k a, within a (a + (RATE_LIMIT_WINDOW - delay)) (times k h) <= 2 * limit) /\
  tracked_ips c <= cap /\
  forall now now' addr,
    T <= now <= now' -> now' <= now + delay ->
    within (now - RATE_LIMIT_WINDOW) now (times (rate_limit_key addr) h) < limit ->
    is_Some (requests c !! rate_limit_key addr) \/ tracked_ips c < cap ->
    snd (allow c now now' addr) = true.
Proof.
  intros Hl Hc Hd Hr. pose proof (reachable_ok _ _ _ _ _ _ Hl Hc Hd Hr) as Hok. split; [|split].
  - intros k a. destruct (ok_bucket _ _ _ _ _ _ _ Hok k) as [[-> _]|(s & n & Hcnt & _)].
    + change (0 <= 2 * limit). lia.
    + by apply (counted_bounds limit RATE_LIMIT_WINDOW _ s n); [|lia|].
  - by apply (ok_size _ _ _ _ _ _ _ Hok).
  - intros now now' addr HT Hn. by apply (allow_ok limit cap delay c h T).
Qed.

Definition example_v6 (host : Z) : IpAddr.t :=
  IpAddr.V6 [32; 1; 13; 184; 0; 0; 0; 7; 0; 0; 0; 0; 0; 0; 0; host].

(** Two hosts of one prefix share a bucket; after one request each, a limiter
    of three per minute serves the prefix once more. *)
Lemma rate_limit_enforced_witness :
  exists c h,
    reachable 3 10 0 c h 2 /\ rate_limit_key (example_v6 1) = rate_limit_key (example_v6 2) /\
    times (rate_limit_key (example_v6 1)) h = [2; 1] /\
    snd (allow c 3 3 (example_v6 5)) = true.
Proof.
  set (c1 := fst (allow (with_limits 0 3 10) 1 1 (example_v6 1))).
  set (c2 := fst (allow c1 2 2 (example_v6 2))).
  set (h := [(2, rate_limit_key (example_v6 2)); (1, rate_limit_key (example_v6 1))]).
  assert (reachable 3 10 0 c2 h 2) as Hr.
  { refine (reachable_allow 3 10 0 c1 [(1, rate_limit_key (example_v6 1))] 1 2 2 (example_v6 2) _ _ _);
      [|lia|lia].
    refine (reachable_allow 3 10 0 (with_limits 0 3 10) [] 0 1 1 (example_v6 1) _ _ _);
      [apply reachable_new|lia|lia]. }
  exists c2, h. split; [exact Hr|]. split; [vm_compute; reflexivity|]. split; [vm_compute; reflexivity|].
  apply (rate_limit_enforced 3 10 0 c2 h 2);
    [lia|lia|unfold RATE_LIMIT_WINDOW; lia|exact Hr|lia|lia|vm_compute; reflexivity|].
  right. vm_compute. reflexivity.
Defined.

(** The window is fixed, not sliding: with a limit of two, three requests are
    served within a nanosecond at the end of a window. *)
Lemma fixed_window_burst :
  let a := example_v6 1 in
  let c := with_limits 0 2 10 in
  let '(c, r1) := allow c 0 0 a in
  let '(c, r2) := allow c RATE_LIMIT_WINDOW RATE_LIMIT_WINDOW a in
  let '(c, r3) := allow c (RATE_LIMIT_WINDOW + 1) (RATE_LIMIT_WINDOW + 1) a in
  let '(c, r4) := allow c (RATE_LIMIT_WINDOW + 1) (RATE_LIMIT_WINDOW + 1) a in
  [r1; r2; r3; r4] = [true; true; true; true].
Proof. vm_compute. reflexivity. Qed.

(** A limit of zero does not refuse everything: the first request of a window
    that follows an expired one is served without a check. *)
Lemma zero_limit_serves :
  let a := example_v6 1 in
  let '(c, r1) := allow (with_limits 0 0 10) 0 0 a in
  let '(_, r2) := allow c (RATE_LIMIT_WINDOW + 1) (RATE_LIMIT_WINDOW + 1) a in
  (r1, r2) = (false, true).
Proof. vm_compute. reflexivity. Qed.

End HandshakeRateLimiter.

Lemma segments_prefix a b l : Ipv6Addr.segments (a :: b :: l) = from_be [a; b] :: Ipv6Addr.segments l.
Proof. done. Qed.

(** The bucket of an IPv6 address is its first eight bytes. *)
Lemma rate_limit_key_v6 o :
  IpAddr.wf (IpAddr.V6 o) -> rate_limit_key (IpAddr.V6 o) = IpAddr.V6 (take 8 o ++ replicate 8 0).
Proof.
  intros [Hb Hl]. unfold rate_limit_key. f_equal.
  assert (forall a b, u8 a -> u8 b -> be_bytes 2 (from_be [a; b]) = [a; b]) as Hpair.
  { intros a b Ha Hb'. apply (be_bytes_from_be 2 [a; b]); [apply Forall_cons; split; [done|apply Forall_cons; split; [done|constructor]]|done]. }
  do 8 (destruct o as [|? o]; [discriminate Hl|]). rewrite !segments_prefix.
  repeat (apply Forall_cons in Hb as [? Hb]).
  cbn [take map concat app]. rewrite !Hpair by done. done.
Qed.
