(* ===== verification/AuthLockout.v ===== *)
(** The authentication lockout tracker (hpn-server/src/auth_lockout.rs): three
    independent throttles, per user name and address, per address, and per
    user name, in tables of bounded size.

    User names are byte strings.  The wall clock is an argument, [None] when
    it is before the epoch; the lock makes every operation atomic. *)

From S2P Require Import Prelude Net.

Module LockoutKind.

Inductive t := Tuple | Ip | UsernameSpread.

#[global] Instance t_eq_dec : EqDecision t.
Proof. solve_decision. Defined.

Definition as_str (k : t) : string :=
  match k with
  | Tuple => "tuple"
  | Ip => "ip"
  | UsernameSpread => "username_spread"
  end.

End LockoutKind.

Module LockoutPolicy.

Record t := mk {
  tuple_max_attempts : Z;
  tuple_lockout_secs : Z;
  ip_max_attempts : Z;
  ip_ban_secs : Z;
  username_min_attempts : Z;
  username_spread_min_ips : Z;
  username_window_secs : Z;
  username_lock_secs : Z;
  max_entries : Z;
}.

Definition production : t := mk 10 3600 100 3600 20 5 (24 * 3600) 3600 100000.

End LockoutPolicy.

(** The trait: an entry knows when it was last used. *)
Class HasLastAccess (V : Type) := last_access : V -> Z.

Module TupleEntry.

Record t := mk { failed_attempts : Z; locked_until : Z; accessed : Z }.

Definition default : t := mk 0 0 0.

#[global] Instance has_last_access : HasLastAccess t := accessed.

(** One failed attempt; whether it locks. *)
Definition fail (policy : LockoutPolicy.t) (now : Z) (e : t) : t * bool :=
  let failed_attempts := saturating_add 32 (failed_attempts e) 1 in
  if (LockoutPolicy.tuple_max_attempts policy <=? failed_attempts) && (locked_until e <=? now) then
    (mk 0 (saturating_add 64 now (LockoutPolicy.tuple_lockout_secs policy)) now, true)
  else (mk failed_attempts (locked_until e) now, false).

End TupleEntry.

Module IpEntry.

Record t := mk { failed_attempts_hour : Z; window_start : Z; banned_until : Z; accessed : Z }.

Definition default : t := mk 0 0 0 0.

#[global] Instance has_last_access : HasLastAccess t := accessed.

Definition fail (policy : LockoutPolicy.t) (now : Z) (e : t) : t * bool :=
  let '(window_start, failed_attempts_hour) :=
    if 3600 <? saturating_sub now (window_start e) then (now, 0)
    else (window_start e, failed_attempts_hour e) in
  let failed_attempts_hour := saturating_add 32 failed_attempts_hour 1 in
  if (LockoutPolicy.ip_max_attempts policy <=? failed_attempts_hour) && (banned_until e <=? now) then
    (mk 0 window_start (saturating_add 64 now (LockoutPolicy.ip_ban_secs policy)) now, true)
  else (mk failed_attempts_hour window_start (banned_until e) now, false).

End IpEntry.

Module UsernameEntry.

Record t := mk {
  ips : gset IpAddr.t;
  total_attempts_window : Z;
  window_start : Z;
  locked_until : Z;
  accessed : Z;
}.

Definition default : t := mk ∅ 0 0 0 0.

#[global] Instance has_last_access : HasLastAccess t := accessed.

Definition fail (policy : LockoutPolicy.t) (now : Z) (ip : IpAddr.t) (e : t) : t * bool :=
  let '(window_start, total_attempts_window, ips) :=
    if LockoutPolicy.username_window_secs policy <? saturating_sub now (window_start e) then (now, 0, ∅)
    else (window_start e, total_attempts_window e, ips e) in
  let total_attempts_window := saturating_add 32 total_attempts_window 1 in
  let ips := {[ip]} ∪ ips in
  if (LockoutPolicy.username_min_attempts policy <=? total_attempts_window) &&
     (LockoutPolicy.username_spread_min_ips policy <=? as_uint 32 (Z.of_nat (size ips))) &&
     (locked_until e <=? now) then
    (mk ∅ 0 window_start (saturating_add 64 now (LockoutPolicy.username_lock_secs policy)) now, true)
  else (mk ips total_attempts_window window_start (locked_until e) now, false).

End UsernameEntry.

Module LockoutMetricsSnapshot.

Record t := mk { tuple_lockouts : Z; ip_bans : Z; username_locks : Z }.

Definition default : t := mk 0 0 0.

End LockoutMetricsSnapshot.

(** The first of the entries with the least [last_access] goes when the map is
    full; the order of the entries is that of the hash map. *)
Definition evict_if_full {K V} `{Countable K} {I : HashIter K V} {L : HasLastAccess V}
    (map : gmap K V) (cap : Z) : gmap K V :=
  if Z.of_nat (size map) <? cap then map
  else
    let '(oldest_key, _) :=
      foldl (fun '(oldest_key, oldest_ts) '(k, v) =>
        if last_access v <? oldest_ts then (Some k, last_access v) else (oldest_key, oldest_ts))
        (None, U64_MAX) (hash_iter map) in
    match oldest_key with
    | Some k => delete k map
    | None => map
    end.

(** * Eviction *)

Section Evict.
Context {K V : Type} `{Countable K} {I : HashIter K V} {L : HasLastAccess V}.

Lemma evict_scan (l : list (K * V)) key ts key' ts' :
  foldl (fun '(oldest_key, oldest_ts) '(k, v) =>
    if last_access v <? oldest_ts then (Some k, last_access v) else (oldest_key, oldest_ts))
    (key, ts) l = (key', ts') ->
  (key' = key /\ forall kv, kv ∈ l -> ts <= last_access (snd kv)) \/
  exists k v, key' = Some k /\ (k, v) ∈ l.
Proof.
  revert key ts. induction l as [|[k v] l IH]; intros key ts Hf; simpl in Hf.
  { injection Hf as <- <-. left. split; [done|]. by intros kv ?%not_elem_of_nil. }
  destruct (last_access v <? ts) eqn:E; b2p; apply IH in Hf as [[-> Hall]|(k' & v' & -> & Hin)].
  - right. exists k, v. split; [done|left].
  - right. exists k', v'. split; [done|by right].
  - left. split; [done|]. intros kv [->|Hin]%elem_of_cons; [done|by apply Hall].
  - right. exists k', v'. split; [done|by right].
Qed.

(** Eviction removes nothing from a map with room, and otherwise the entry of
    one key, if any was used before the end of time. *)
Lemma evict_spec (m : gmap K V) cap :
  (Z.of_nat (size m) < cap -> evict_if_full m cap = m) /\
  evict_if_full m cap ⊆ m /\
  ((forall k v, m !! k = Some v -> last_access v < U64_MAX) ->
   cap <= Z.of_nat (size m) -> m <> ∅ -> Z.of_nat (size (evict_if_full m cap)) = Z.of_nat (size m) - 1).
Proof.
  unfold evict_if_full. destruct (_ <? cap) eqn:E; b2p; [split; [done|]; split; [done|lia]|].
  split; [lia|]. destruct (foldl _ _ _) as [key ts] eqn:Ef.
  apply evict_scan in Ef as [[-> Hall]|(k & v & -> & Hin)].
  - split; [done|]. intros Hlt _ Hne. exfalso.
    destruct (map_choose m Hne) as (k & v & Hk). specialize (Hlt _ _ Hk).
    specialize (Hall (k, v)). rewrite hash_iter_perm, elem_of_map_to_list in Hall.
    specialize (Hall Hk). simpl in Hall. lia.
  - rewrite hash_iter_perm, elem_of_map_to_list in Hin. split; [apply delete_subseteq|].
    intros _ _ Hne. rewrite map_size_delete_Some by (by eexists).
    assert (size m <> 0%nat) by (by intros Hz%map_size_empty_iff). lia.
Qed.

(** Making room and writing one entry keeps a map within its capacity. *)
Lemma evict_insert_size (m : gmap K V) cap k v :
  (forall k v, m !! k = Some v -> last_access v < U64_MAX) -> Z.of_nat (size m) <= Z.max 1 cap ->
  Z.of_nat (size (<[k := v]> (evict_if_full m cap))) <= Z.max 1 cap.
Proof.
  intros Hlt Hs. destruct (evict_spec m cap) as (Hroom & _ & Hfull).
  assert (size (<[k := v]> (evict_if_full m cap)) <= S (size (evict_if_full m cap)))%nat
    by (rewrite map_size_insert; destruct (_ !! _); simpl; lia).
  destruct (decide (Z.of_nat (size m) < cap)) as [Hc|Hc]; [rewrite (Hroom Hc) in *; lia|].
  destruct (decide (m = ∅)) as [->|Hne].
  - pose proof (map_subseteq_size _ _ (proj1 (proj2 (evict_spec ∅ cap)))) as He.
    rewrite map_size_empty in He. lia.
  - specialize (Hfull Hlt ltac:(lia) Hne). lia.
Qed.

(** The default entry or the one of the map before eviction. *)
Lemma evict_lookup (P : V -> Prop) (m : gmap K V) cap k d :
  P d -> (forall v, m !! k = Some v -> P v) -> P (default d (evict_if_full m cap !! k)).
Proof.
  intros Hd Hm. destruct (evict_if_full m cap !! k) as [v|] eqn:E; [|done]. apply Hm.
  by apply (lookup_weaken _ _ _ _ E), evict_spec.
Qed.

End Evict.

Definition now_secs (clock : option Z) : Z := default 0 clock.

Module AuthLockoutTracker.

Record t := mk {
  tuples : gmap (list Z * IpAddr.t) TupleEntry.t;
  ips : gmap IpAddr.t IpEntry.t;
  usernames : gmap (list Z) UsernameEntry.t;
  policy : LockoutPolicy.t;
  metrics : LockoutMetricsSnapshot.t;
}.

Definition new (policy : LockoutPolicy.t) : t := mk ∅ ∅ ∅ policy LockoutMetricsSnapshot.default.

Definition with_production_defaults : t := new LockoutPolicy.production.

Definition check_lockout (s : t) (clock : option Z) (username : list Z) (ip : IpAddr.t)
    : option LockoutKind.t :=
  let now := now_secs clock in
  if match ips s !! ip with Some e => now <? IpEntry.banned_until e | None => false end then
    Some LockoutKind.Ip
  else if match tuples s !! (username, ip) with
          | Some e => now <? TupleEntry.locked_until e | None => false end then
    Some LockoutKind.Tuple
  else if match usernames s !! username with
          | Some e => now <? UsernameEntry.locked_until e | None => false end then
    Some LockoutKind.UsernameSpread
  else None.

Definition record_success (s : t) (username : list Z) (ip : IpAddr.t) : t :=
  mk (delete (username, ip) (tuples s)) (ips s) (usernames s) (policy s) (metrics s).

Section Order.
Context {I1 : HashIter (list Z * IpAddr.t) TupleEntry.t} {I2 : HashIter IpAddr.t IpEntry.t}
  {I3 : HashIter (list Z) UsernameEntry.t}.

Definition record_failure (s : t) (clock : option Z) (username : list Z) (ip : IpAddr.t)
    : t * option LockoutKind.t :=
  let now := now_secs clock in
  let cap := LockoutPolicy.max_entries (policy s) in
  let m := metrics s in
  let tuples := evict_if_full (tuples s) cap in
  let '(tuple, locked) :=
    TupleEntry.fail (policy s) now (default TupleEntry.default (tuples !! (username, ip))) in
  let tuples := <[(username, ip) := tuple]> tuples in
  let fired := if locked then Some LockoutKind.Tuple else None in
  let ips := evict_if_full (ips s) cap in
  let '(ip_entry, banned) :=
    IpEntry.fail (policy s) now (default IpEntry.default (ips !! ip)) in
  let ips := <[ip := ip_entry]> ips in
  let fired := if banned && bool_decide (fired = None) then Some LockoutKind.Ip else fired in
  let usernames := evict_if_full (usernames s) cap in
  let '(user_entry, spread) :=
    UsernameEntry.fail (policy s) now ip (default UsernameEntry.default (usernames !! username)) in
  let usernames := <[username := user_entry]> usernames in
  let fired := if spread && bool_decide (fired = None) then Some LockoutKind.UsernameSpread else fired in
  let bump (b : bool) n := if b then wrapping_add 64 n 1 else n in
  (mk tuples ips usernames (policy s)
     (LockoutMetricsSnapshot.mk (bump locked (LockoutMetricsSnapshot.tuple_lockouts m))
        (bump banned (LockoutMetricsSnapshot.ip_bans m))
        (bump spread (LockoutMetricsSnapshot.username_locks m))),
   fired).

End Order.

Definition metrics_snapshot (s : t) : LockoutMetricsSnapshot.t := metrics s.

End AuthLockoutTracker.

(** * Histories *)

Inductive event :=
  | Failure (now : Z) (username : list Z) (ip : IpAddr.t)
  | Success (username : list Z) (ip : IpAddr.t).

(** The instants of the failures of a pair since its last success, latest
    first. *)
Fixpoint tuple_failures (u : list Z) (ip : IpAddr.t) (es : list event) : list Z :=
  match es with
  | [] => []
  | Failure now u' ip' :: es =>
      if decide ((u', ip') = (u, ip)) then now :: tuple_failures u ip es else tuple_failures u ip es
  | Success u' ip' :: es => if decide ((u', ip') = (u, ip)) then [] else tuple_failures u ip es
  end.

(** The failures from an address, and those for a user name. *)
Fixpoint ip_failures (ip : IpAddr.t) (es : list event) : list (Z * IpAddr.t) :=
  match es with
  | [] => []
  | Failure now _ ip' :: es =>
      if decide (ip' = ip) then (now, ip') :: ip_failures ip es else ip_failures ip es
  | Success _ _ :: es => ip_failures ip es
  end.

Fixpoint user_failures (u : list Z) (es : list event) : list (Z * IpAddr.t) :=
  match es with
  | [] => []
  | Failure now u' ip :: es =>
      if decide (u' = u) then (now, ip) :: user_failures u es else user_failures u es
  | Success _ _ :: es => user_failures u es
  end.

(** Among the attempts [l], [m] consecutive ones within [w] seconds come from
    [k] distinct addresses. *)
Definition burst (m k w : Z) (l : list (Z * IpAddr.t)) : Prop :=
  exists l1 l2 l3 start, l = l1 ++ l2 ++ l3 /\ m <= len l2 /\
    k <= Z.of_nat (size (list_to_set (snd <$> l2) : gset IpAddr.t)) /\
    Forall (fun a => start <= fst a <= start + w) l2.

(** The latest [n] of [l] at least lie within [w] of [start] and come from the
    addresses [s] at least. *)
Definition recent_attempts (n w start : Z) (s : gset IpAddr.t) (l : list (Z * IpAddr.t)) : Prop :=
  exists l1 l2, l = l1 ++ l2 /\ n <= len l1 /\ s ⊆ list_to_set (snd <$> l1) /\
    Forall (fun a => start <= fst a <= start + w) l1.

Lemma burst_cons m k w a l : burst m k w l -> burst m k w (a :: l).
Proof. intros (l1 & l2 & l3 & start & -> & H). by exists (a :: l1), l2, l3, start. Qed.

Lemma recent_burst n w start s l m k :
  recent_attempts n w start s l -> m <= n -> k <= Z.of_nat (size s) -> burst m k w l.
Proof.
  intros (l1 & l2 & -> & Hn & Hs & Hw) Hm Hk. exists [], l1, l2, start.
  split; [done|]. split; [lia|]. split; [|done]. pose proof (subseteq_size _ _ Hs). lia.
Qed.

Lemma recent_cons n w start s l now ip :
  recent_attempts n w start s l -> start <= now <= start + w ->
  recent_attempts (saturating_add 32 n 1) w start ({[ip]} ∪ s) ((now, ip) :: l).
Proof.
  intros (l1 & l2 & -> & Hn & Hs & Hw) Hnow. exists ((now, ip) :: l1), l2. split; [done|].
  split; [rewrite len_cons; unfold saturating_add; lia|]. split; [|by constructor].
  rewrite fmap_cons, list_to_set_cons. by apply union_mono_l.
Qed.

Lemma recent_zero w start l : recent_attempts 0 w start ∅ l.
Proof. exists [], l. split; [done|]. split; [done|]. split; [set_solver|constructor]. Qed.

Lemma recent_weaken n w start s s' l :
  recent_attempts n w start s l -> s' ⊆ s -> recent_attempts n w start s' l.
Proof. intros (l1 & l2 & -> & Hn & Hs & Hw) Hsub. exists l1, l2. split_and!; [done..|set_solver|done]. Qed.

(** * Every lock has a cause

    What an entry remembers happened: its counter counts attempts of the
    current window, and a lock was set by enough attempts. *)

Definition tuple_just (p : LockoutPolicy.t) (T : Z) (l : list Z) (e : TupleEntry.t) : Prop :=
  0 <= TupleEntry.failed_attempts e <= len l /\ TupleEntry.accessed e < U64_MAX /\
  (0 < TupleEntry.locked_until e -> LockoutPolicy.tuple_max_attempts p <= len l).

Definition ip_just (p : LockoutPolicy.t) (T : Z) (l : list (Z * IpAddr.t)) (e : IpEntry.t) : Prop :=
  IpEntry.window_start e <= T /\ IpEntry.accessed e < U64_MAX /\
  recent_attempts (IpEntry.failed_attempts_hour e) 3600 (IpEntry.window_start e) ∅ l /\
  (0 < IpEntry.banned_until e -> burst (LockoutPolicy.ip_max_attempts p) 0 3600 l).

Definition user_just (p : LockoutPolicy.t) (T : Z) (l : list (Z * IpAddr.t)) (e : UsernameEntry.t)
    : Prop :=
  UsernameEntry.window_start e <= T /\ UsernameEntry.accessed e < U64_MAX /\
  recent_attempts (UsernameEntry.total_attempts_window e) (LockoutPolicy.username_window_secs p)
    (UsernameEntry.window_start e) (UsernameEntry.ips e) l /\
  (0 < UsernameEntry.locked_until e ->
   burst (LockoutPolicy.username_min_attempts p) (LockoutPolicy.username_spread_min_ips p)
     (LockoutPolicy.username_window_secs p) l).

Lemma tuple_fail_just p T now l e :
  now < U64_MAX -> tuple_just p T l e -> tuple_just p now (now :: l) (fst (TupleEntry.fail p now e)).
Proof.
  intros Hn (Hc & Ha & Hl). unfold TupleEntry.fail, tuple_just. pose proof (len_nonneg l).
  rewrite len_cons. unfold saturating_add.
  destruct (_ && _) eqn:E; [apply andb_true_iff in E as [E1 E2]; b2p|]; simpl.
  - split; [lia|]. split; [lia|]. intros _. lia.
  - split; [lia|]. split; [lia|]. intros Hk. specialize (Hl Hk). lia.
Qed.

Lemma ip_fail_just p T now l ip e :
  T <= now < U64_MAX -> ip_just p T l e ->
  ip_just p now ((now, ip) :: l) (fst (IpEntry.fail p now e)).
Proof.
  intros Hn (Hw & Ha & Hr & Hb). unfold IpEntry.fail, saturating_sub.
  destruct (if 3600 <? _ then _ else _) as [start n] eqn:E.
  assert (start <= now <= start + 3600 /\ recent_attempts n 3600 start ∅ l) as [Hs Hr'].
  { destruct (3600 <? _) eqn:E1; injection E as <- <-; b2p; [split; [lia|apply recent_zero]|].
    split; [lia|done]. }
  pose proof (recent_cons _ _ _ _ _ now ip Hr' Hs) as Hr2. rewrite union_empty_r_L in Hr2.
  destruct (_ && _) eqn:E2; [apply andb_true_iff in E2 as [E2 _]; b2p|]; unfold ip_just; simpl.
  - split; [lia|]. split; [lia|]. split; [apply recent_zero|]. intros _.
    apply (recent_burst _ _ _ _ _ _ _ Hr2); lia.
  - split; [lia|]. split; [lia|]. split; [by apply (recent_weaken _ _ _ {[ip]})|].
    intros Hk. by apply burst_cons, Hb.
Qed.

Lemma user_fail_just p T now l ip e :
  T <= now < U64_MAX -> 0 <= LockoutPolicy.username_window_secs p -> user_just p T l e ->
  user_just p now ((now, ip) :: l) (fst (UsernameEntry.fail p now ip e)).
Proof.
  intros Hn Hp (Hw & Ha & Hr & Hb). unfold UsernameEntry.fail, saturating_sub.
  destruct (if _ <? _ then _ else _) as [[start n] s] eqn:E.
  assert (start <= now <= start + LockoutPolicy.username_window_secs p /\
    recent_attempts n (LockoutPolicy.username_window_secs p) start s l) as [Hs Hr'].
  { destruct (_ <? _) eqn:E1; injection E as <- <- <-; b2p; [split; [lia|apply recent_zero]|].
    split; [lia|done]. }
  pose proof (recent_cons _ _ _ _ _ now ip Hr' Hs) as Hr2.
  destruct (_ && _) eqn:E2; [apply andb_true_iff in E2 as [E2 _]; apply andb_true_iff in E2 as [E2 E3]; b2p|];
    unfold user_just; simpl.
  - split; [lia|]. split; [lia|]. split; [apply recent_zero|]. intros _.
    apply (recent_burst _ _ _ _ _ _ _ Hr2); [lia|].
    unfold as_uint in E3. pose proof (Z.mod_le (Z.of_nat (size ({[ip]} ∪ s))) (2 ^ 32)). lia.
  - split; [lia|]. split; [lia|]. split; [done|]. intros Hk. by apply burst_cons, Hb.
Qed.

Section Tracker.
Context {I1 : HashIter (list Z * IpAddr.t) TupleEntry.t} {I2 : HashIter IpAddr.t IpEntry.t}
  {I3 : HashIter (list Z) UsernameEntry.t}.
Import AuthLockoutTracker.

(** A tracker of policy [p] after the events [es], latest first, at second
    [T] of a wall clock that does not run backwards. *)
Inductive reachable (p : LockoutPolicy.t) : AuthLockoutTracker.t -> list event -> Z -> Prop :=
  | reachable_new : reachable p (new p) [] 0
  | reachable_failure s es T clock u ip :
      reachable p s es T -> T <= now_secs clock < U64_MAX ->
      reachable p (fst (record_failure s clock u ip)) (Failure (now_secs clock) u ip :: es)
        (now_secs clock)
  | reachable_success s es T u ip :
      reachable p s es T -> reachable p (record_success s u ip) (Success u ip :: es) T.

(** What [record_failure] does to the three tables. *)
Lemma record_failure_tables s clock u ip :
  let now := now_secs clock in
  let cap := LockoutPolicy.max_entries (policy s) in
  let s' := fst (record_failure s clock u ip) in
  policy s' = policy s /\
  tuples s' = <[(u, ip) := fst (TupleEntry.fail (policy s) now
    (default TupleEntry.default (evict_if_full (tuples s) cap !! (u, ip))))]>
    (evict_if_full (tuples s) cap) /\
  ips s' = <[ip := fst (IpEntry.fail (policy s) now
    (default IpEntry.default (evict_if_full (ips s) cap !! ip)))]> (evict_if_full (ips s) cap) /\
  usernames s' = <[u := fst (UsernameEntry.fail (policy s) now ip
    (default UsernameEntry.default (evict_if_full (usernames s) cap !! u)))]>
    (evict_if_full (usernames s) cap).
Proof.
  unfold record_failure. cbv zeta.
  destruct (TupleEntry.fail _ _ _), (IpEntry.fail _ _ _), (UsernameEntry.fail _ _ _ _). done.
Qed.

Record justified (p : LockoutPolicy.t) (s : AuthLockoutTracker.t) (es : list event) (T : Z) : Prop := {
  j_policy : policy s = p;
  j_tuple u ip e : tuples s !! (u, ip) = Some e -> tuple_just p T (tuple_failures u ip es) e;
  j_ip ip e : ips s !! ip = Some e -> ip_just p T (ip_failures ip es) e;
  j_user u e : usernames s !! u = Some e -> user_just p T (user_failures u es) e;
  j_sizes :
    Z.of_nat (size (tuples s)) <= Z.max 1 (LockoutPolicy.max_entries p) /\
    Z.of_nat (size (ips s)) <= Z.max 1 (LockoutPolicy.max_entries p) /\
    Z.of_nat (size (usernames s)) <= Z.max 1 (LockoutPolicy.max_entries p);
}.

Lemma failure_justified p s es T clock u ip :
  0 <= LockoutPolicy.username_window_secs p -> T <= now_secs clock < U64_MAX -> 0 <= T ->
  justified p s es T ->
  justified p (fst (record_failure s clock u ip)) (Failure (now_secs clock) u ip :: es)
    (now_secs clock).
Proof.
  intros Hp Hn HT [<- Jt Ji Ju (S1 & S2 & S3)].
  destruct (record_failure_tables s clock u ip) as (Ep & Et & Ei & Eu). cbv zeta in *.
  set (now := now_secs clock) in *. set (cap := LockoutPolicy.max_entries (policy s)) in *.
  set (s' := fst (record_failure s clock u ip)) in *.
  split; [done|rewrite Et|rewrite Ei|rewrite Eu|rewrite Et, Ei, Eu; split_and!].
  - intros u' ip' e. rewrite lookup_insert_Some. simpl. intros [[E <-]|[Hne He]].
    + rewrite decide_True by done. injection E as <- <-. apply (tuple_fail_just _ T); [lia|].
      apply evict_lookup; [unfold tuple_just; simpl; pose proof (len_nonneg (tuple_failures u ip es)); lia|].
      apply Jt.
    + rewrite decide_False by done. apply (Jt u' ip').
      by apply (lookup_weaken _ _ _ _ He), evict_spec.
  - intros ip' e. rewrite lookup_insert_Some. simpl. intros [[<- <-]|[Hne He]].
    + rewrite decide_True by done. apply (ip_fail_just _ T); [lia|].
      apply evict_lookup; [|apply Ji]. split; [done|]. split; [done|].
      split; [apply recent_zero|done].
    + rewrite decide_False by done. destruct (Ji ip' e) as (Hw & Hrest);
        [by apply (lookup_weaken _ _ _ _ He), evict_spec|]. split; [lia|done].
  - intros u' e. rewrite lookup_insert_Some. simpl. intros [[<- <-]|[Hne He]].
    + rewrite decide_True by done. apply (user_fail_just _ T); [lia|done|].
      apply evict_lookup; [|apply Ju]. split; [done|]. split; [done|].
      split; [apply recent_zero|done].
    + rewrite decide_False by done. destruct (Ju u' e) as (Hw & Hrest);
        [by apply (lookup_weaken _ _ _ _ He), evict_spec|]. split; [lia|done].
  - apply evict_insert_size; [|done]. intros [u1 ip1] e He. apply (Jt u1 ip1 e He).
  - apply evict_insert_size; [|done]. intros ip1 e He. apply (Ji ip1 e He).
  - apply evict_insert_size; [|done]. intros u1 e He. apply (Ju u1 e He).
Qed.

Lemma success_justified p s es T u ip :
  justified p s es T -> justified p (record_success s u ip) (Success u ip :: es) T.
Proof.
  intros [<- Jt Ji Ju (S1 & S2 & S3)]. split; [done| |done|done|split_and!; try done].
  - simpl. intros u' ip' e [Hne He]%lookup_delete_Some. rewrite decide_False by done. by apply Jt.
  - simpl. pose proof (map_subseteq_size _ _ (delete_subseteq (tuples s) (u, ip))). lia.
Qed.

Lemma reachable_justified p s es T :
  0 <= LockoutPolicy.username_window_secs p -> reachable p s es T -> 0 <= T /\ justified p s es T.
Proof.
  intros Hp. induction 1 as [|s es T clock u ip Hr [HT IH] Hn|s es T u ip Hr [HT IH]].
  - split; [done|]. split; try done. simpl. rewrite !map_size_empty. lia.
  - split; [lia|]. by apply (failure_justified p s es T).
  - split; [done|]. by apply success_justified.
Qed.

(** Every lockout has its cause, whatever was evicted: a pair is locked
    only after the configured number of failures of that pair since its last
    success, an address is banned only after that many failures from it within
    an hour, and a user name is locked for everybody only after enough failures
    from enough distinct addresses within the window; and the tables stay
    within their capacity. *)
Lemma lockout_justified p s es T clock u ip :
  0 <= LockoutPolicy.username_window_secs p -> reachable p s es T -> 0 <= now_secs clock ->
  match check_lockout s clock u ip with
  | Some LockoutKind.Tuple =>
      LockoutPolicy.tuple_max_attempts p <= len (tuple_failures u ip es)
  | Some LockoutKind.Ip =>
      burst (LockoutPolicy.ip_max_attempts p) 0 3600 (ip_failures ip es)
  | Some LockoutKind.UsernameSpread =>
      burst (LockoutPolicy.username_min_attempts p) (LockoutPolicy.username_spread_min_ips p)
        (LockoutPolicy.username_window_secs p) (user_failures u es)
  | None => True
  end /\
  Z.of_nat (size (tuples s)) <= Z.max 1 (LockoutPolicy.max_entries p) /\
  Z.of_nat (size (ips s)) <= Z.max 1 (LockoutPolicy.max_entries p) /\
  Z.of_nat (size (usernames s)) <= Z.max 1 (LockoutPolicy.max_entries p).
Proof.
  intros Hp Hr Hn. destruct (reachable_justified p s es T Hp Hr) as [_ [_ Jt Ji Ju Js]].
  split; [|done]. unfold check_lockout.
  destruct (ips s !! ip) as [e|] eqn:E1; [destruct (_ <? _) eqn:L1; b2p; [apply (Ji _ _ E1); lia|]|];
    (destruct (tuples s !! (u, ip)) as [e2|] eqn:E2;
      [destruct (_ <? _) eqn:L2; b2p; [apply (Jt _ _ _ E2); lia|]|]);
    (destruct (usernames s !! u) as [e3|] eqn:E3;
      [destruct (_ <? _) eqn:L3; b2p; [apply (Ju _ _ E3); lia|]|]); done.
Qed.

(** * Locks are enforced *)

(** With room in the tables, the entry of a pair counts its failures until
    they reach the limit, and stays locked from then on for the lock time. *)
Definition tuple_exact (p : LockoutPolicy.t) (l : list Z) (e : TupleEntry.t) : Prop :=
  let m := LockoutPolicy.tuple_max_attempts p in
  (len l < m -> TupleEntry.failed_attempts e = len l /\ TupleEntry.locked_until e = 0) /\
  (forall t, m <= len l -> l !! (Z.to_nat (len l - m)) = Some t ->
     saturating_add 64 t (LockoutPolicy.tuple_lockout_secs p) <= TupleEntry.locked_until e).

(** The first [m] failures from an address, if they come within an hour, lead
    to a ban from the last of them on. *)
Definition ip_exact (p : LockoutPolicy.t) (l : list (Z * IpAddr.t)) (e : IpEntry.t) : Prop :=
  let m := LockoutPolicy.ip_max_attempts p in
  forall t0, last (fst <$> l) = Some t0 -> 3600 < t0 ->
  (len l < m -> Forall (fun a => t0 <= fst a <= t0 + 3600) l ->
     IpEntry.failed_attempts_hour e = len l /\ IpEntry.window_start e = t0 /\
     IpEntry.banned_until e = 0) /\
  (forall t, m <= len l -> Forall (fun a => t0 <= fst a <= t0 + 3600) (drop (Z.to_nat (len l - m)) l) ->
     (fst <$> l) !! (Z.to_nat (len l - m)) = Some t ->
     saturating_add 64 t (LockoutPolicy.ip_ban_secs p) <= IpEntry.banned_until e).

Lemma saturating_add_ge now secs : 0 <= secs -> now <= U64_MAX -> now <= saturating_add 64 now secs.
Proof. unfold saturating_add, U64_MAX. lia. Qed.

Lemma tuple_fail_exact p now l e :
  1 <= LockoutPolicy.tuple_max_attempts p < 2 ^ 32 -> 0 <= LockoutPolicy.tuple_lockout_secs p ->
  0 <= now < U64_MAX -> tuple_exact p l e -> tuple_exact p (now :: l) (fst (TupleEntry.fail p now e)).
Proof.
  intros Hm Hs Hn [H1 H2]. unfold TupleEntry.fail, tuple_exact. cbv zeta. rewrite len_cons.
  set (m := LockoutPolicy.tuple_max_attempts p) in *. pose proof (len_nonneg l) as Hl.
  pose proof (saturating_add_ge now _ Hs ltac:(lia)) as Hge.
  assert (forall t, m <= len l -> (now :: l) !! Z.to_nat (1 + len l - m) = Some t ->
    l !! Z.to_nat (len l - m) = Some t) as Hshift.
  { intros t Hml. by replace (Z.to_nat (1 + len l - m)) with (S (Z.to_nat (len l - m))) by lia. }
  destruct ((m <=? _) && _) eqn:E; [apply andb_true_iff in E as [E1 E2]|apply andb_false_iff in E];
    cbn [fst TupleEntry.failed_attempts TupleEntry.locked_until]; split.
  - intros Hlt. destruct H1 as [Hf _]; [lia|]. b2p. unfold saturating_add in E1. lia.
  - intros t Hml Ht. destruct (decide (m <= len l)) as [Hle|Hgt].
    + specialize (H2 t Hle (Hshift t Hle Ht)). b2p. lia.
    + replace (Z.to_nat (1 + len l - m)) with 0%nat in Ht by lia. injection Ht as <-. lia.
  - intros Hlt. destruct H1 as [Hf Hk]; [lia|]. split; [|done]. unfold saturating_add. lia.
  - intros t Hml Ht. destruct (decide (m <= len l)) as [Hle|Hgt].
    + apply (H2 t Hle (Hshift t Hle Ht)).
    + destruct H1 as [Hf Hk]; [lia|]. unfold saturating_add in E. destruct E as [E|E]; b2p; lia.
Qed.

Lemma ip_fail_banned p now e :
  0 <= LockoutPolicy.ip_ban_secs p -> now < U64_MAX ->
  IpEntry.banned_until e <= IpEntry.banned_until (fst (IpEntry.fail p now e)).
Proof.
  intros Hs Hn. pose proof (saturating_add_ge now _ Hs ltac:(lia)) as Hge. unfold IpEntry.fail.
  destruct (if 3600 <? _ then _ else _) as [start n].
  destruct (_ && _) eqn:E; [apply andb_true_iff in E as [_ E]; b2p|]; simpl; lia.
Qed.

(** The next failure of the hour, when [n] were counted. *)
Lemma ip_fail_count p now e t0 n :
  1 <= LockoutPolicy.ip_max_attempts p < 2 ^ 32 -> 3600 < t0 -> t0 <= now <= t0 + 3600 ->
  0 <= n < LockoutPolicy.ip_max_attempts p -> IpEntry.banned_until e = 0 ->
  (e = IpEntry.default /\ n = 0 /\ t0 = now) \/
    (IpEntry.failed_attempts_hour e = n /\ IpEntry.window_start e = t0) ->
  fst (IpEntry.fail p now e) =
    if LockoutPolicy.ip_max_attempts p <=? n + 1
    then IpEntry.mk 0 t0 (saturating_add 64 now (LockoutPolicy.ip_ban_secs p)) now
    else IpEntry.mk (n + 1) t0 0 now.
Proof.
  intros Hm Ht0 Hn Hc Hb He. unfold IpEntry.fail, saturating_sub.
  assert ((if 3600 <? Z.max 0 (now - IpEntry.window_start e) then (now, 0)
           else (IpEntry.window_start e, IpEntry.failed_attempts_hour e)) = (t0, n)) as ->.
  { destruct He as [(-> & -> & ->)|[<- <-]].
    - simpl. by rewrite (proj2 (Z.ltb_lt _ _)) by lia.
    - by rewrite (proj2 (Z.ltb_ge _ _)) by lia. }
  replace (saturating_add 32 n 1) with (n + 1) by (unfold saturating_add; lia).
  rewrite Hb, (proj2 (Z.leb_le 0 now)) by lia. rewrite andb_true_r. by destruct (_ <=? _).
Qed.

Lemma ip_fail_exact p now ip l e :
  1 <= LockoutPolicy.ip_max_attempts p < 2 ^ 32 -> 0 <= LockoutPolicy.ip_ban_secs p ->
  0 <= now < U64_MAX -> (l = [] -> e = IpEntry.default) -> ip_exact p l e ->
  ip_exact p ((now, ip) :: l) (fst (IpEntry.fail p now e)).
Proof.
  intros Hm Hs Hn H0 He t0 Ht0 Hlt0. rewrite len_cons.
  set (m := LockoutPolicy.ip_max_attempts p) in *. pose proof (len_nonneg l) as Hl.
  assert (len l < m -> Forall (fun a => t0 <= fst a <= t0 + 3600) ((now, ip) :: l) ->
    fst (IpEntry.fail p now e) =
      if m <=? len l + 1 then IpEntry.mk 0 t0 (saturating_add 64 now (LockoutPolicy.ip_ban_secs p)) now
      else IpEntry.mk (len l + 1) t0 0 now) as Hcount.
  { intros Hlt [Hnow Hall]%Forall_cons. simpl in Hnow.
    destruct l as [|a l]; [simpl in Ht0; injection Ht0 as <-|].
    - rewrite (H0 eq_refl). apply ip_fail_count; [done|done|done|lia|done|by left].
    - destruct (He t0) as [Hex _]; [exact Ht0|done|]. destruct (Hex Hlt Hall) as (Hf & Hw & Hb).
      apply ip_fail_count; [done|done|done|lia|done|by right]. }
  split.
  - intros Hlt Hall. rewrite Hcount, (proj2 (Z.leb_gt _ _)); [|lia|lia|done].
    simpl. split; [lia|done].
  - intros t Hml Hall Ht. destruct (decide (m <= len l)) as [Hle|Hgt].
    + replace (Z.to_nat (1 + len l - m)) with (S (Z.to_nat (len l - m))) in * by lia.
      simpl in Hall, Ht. destruct (He t0) as [_ Hex].
      { rewrite <- Ht0. destruct l as [|a l]; [|done]. change (len []) with 0 in *. lia. }
      { done. }
      specialize (Hex t Hle Hall Ht). pose proof (ip_fail_banned p now e Hs ltac:(lia)). lia.
    + replace (Z.to_nat (1 + len l - m)) with 0%nat in * by lia. simpl in Ht. injection Ht as <-.
      rewrite Hcount, (proj2 (Z.leb_le _ _)); [simpl; lia|lia|lia|]. exact Hall.
Qed.

(** The failures [l] for a user name are enough, and from addresses enough, to
    lock it. *)
Definition spread (p : LockoutPolicy.t) (l : list (Z * IpAddr.t)) : Prop :=
  LockoutPolicy.username_min_attempts p <= len l /\
  LockoutPolicy.username_spread_min_ips p <= Z.of_nat (size (list_to_set (snd <$> l) : gset IpAddr.t)).

(** The first failures for a user name, if they come within the window, lead to
    a lock from the one on that makes them enough. *)
Definition user_exact (p : LockoutPolicy.t) (l : list (Z * IpAddr.t)) (e : UsernameEntry.t) : Prop :=
  let w := LockoutPolicy.username_window_secs p in
  forall t0, last (fst <$> l) = Some t0 -> w < t0 ->
  (~ spread p l -> Forall (fun a => t0 <= fst a <= t0 + w) l ->
     UsernameEntry.total_attempts_window e = len l /\ UsernameEntry.ips e = list_to_set (snd <$> l) /\
     UsernameEntry.window_start e = t0 /\ UsernameEntry.locked_until e = 0) /\
  (forall l1 t ip l2, l = l1 ++ (t, ip) :: l2 -> Forall (fun a => t0 <= fst a <= t0 + w) ((t, ip) :: l2) ->
     spread p ((t, ip) :: l2) -> ~ spread p l2 ->
     saturating_add 64 t (LockoutPolicy.username_lock_secs p) <= UsernameEntry.locked_until e).

Lemma spread_cons p a l : spread p l -> spread p (a :: l).
Proof.
  intros [H1 H2]. split; [rewrite len_cons; lia|]. rewrite fmap_cons, list_to_set_cons.
  pose proof (subseteq_size (list_to_set (snd <$> l) : gset IpAddr.t) ({[snd a]} ∪ list_to_set (snd <$> l)) ltac:(set_solver)). lia.
Qed.

Lemma addresses_size (l : list (Z * IpAddr.t)) : Z.of_nat (size (list_to_set (snd <$> l) : gset IpAddr.t)) <= len l.
Proof.
  induction l as [|a l IH]; [by rewrite fmap_nil, list_to_set_nil, size_empty|].
  rewrite fmap_cons, list_to_set_cons, len_cons.
  pose proof (size_union_alt ({[snd a]} : gset IpAddr.t) (list_to_set (snd <$> l))) as E. rewrite E, size_singleton.
  pose proof (subseteq_size ((list_to_set (snd <$> l) : gset IpAddr.t) ∖ {[snd a]}) (list_to_set (snd <$> l)) ltac:(set_solver)). lia.
Qed.

Lemma user_fail_locked p now ip e :
  0 <= LockoutPolicy.username_lock_secs p -> now < U64_MAX ->
  UsernameEntry.locked_until e <= UsernameEntry.locked_until (fst (UsernameEntry.fail p now ip e)).
Proof.
  intros Hs Hn. pose proof (saturating_add_ge now _ Hs ltac:(lia)) as Hge. unfold UsernameEntry.fail.
  destruct (if _ <? _ then _ else _) as [[start n] s].
  destruct (_ && _) eqn:E; [apply andb_true_iff in E as [_ E]; b2p|]; simpl; lia.
Qed.

(** The next failure of the window. *)
Lemma user_fail_count p now ip l e t0 (l' := (now, ip) :: l) :
  0 <= LockoutPolicy.username_window_secs p < t0 -> t0 <= now <= t0 + LockoutPolicy.username_window_secs p ->
  len l' < 2 ^ 32 -> UsernameEntry.locked_until e = 0 ->
  (e = UsernameEntry.default /\ l = [] /\ t0 = now) \/
    (UsernameEntry.total_attempts_window e = len l /\ UsernameEntry.ips e = list_to_set (snd <$> l) /\
     UsernameEntry.window_start e = t0) ->
  (spread p l' -> UsernameEntry.locked_until (fst (UsernameEntry.fail p now ip e)) =
     saturating_add 64 now (LockoutPolicy.username_lock_secs p)) /\
  (~ spread p l' -> fst (UsernameEntry.fail p now ip e) = UsernameEntry.mk (list_to_set (snd <$> l')) (len l') t0 0 now).
Proof.
  intros Hw Hn Hlen Hlock He. unfold UsernameEntry.fail, saturating_sub. subst l'. rewrite len_cons in *.
  assert ((if LockoutPolicy.username_window_secs p <? Z.max 0 (now - UsernameEntry.window_start e) then (now, 0, ∅)
    else (UsernameEntry.window_start e, UsernameEntry.total_attempts_window e, UsernameEntry.ips e)) =
    (t0, len l, list_to_set (snd <$> l))) as ->.
  { destruct He as [(-> & -> & ->)|(<- & <- & <-)].
    - cbn [UsernameEntry.window_start UsernameEntry.default]. by rewrite (proj2 (Z.ltb_lt _ _)) by lia.
    - by rewrite (proj2 (Z.ltb_ge _ _)) by lia. }
  pose proof (addresses_size ((now, ip) :: l)) as Hsz. rewrite len_cons in Hsz.
  unfold spread. rewrite len_cons, Hlock. rewrite fmap_cons, list_to_set_cons in *. cbn [snd] in *.
  set (ips := {[ip]} ∪ list_to_set (snd <$> l)) in *. pose proof (len_nonneg l).
  replace (saturating_add 32 (len l) 1) with (1 + len l) by (unfold saturating_add; lia).
  replace (as_uint 32 (Z.of_nat (size ips))) with (Z.of_nat (size ips)) by (unfold as_uint; rewrite Z.mod_small; lia).
  rewrite (proj2 (Z.leb_le 0 now)), andb_true_r by lia.
  destruct (_ && _) eqn:E; [apply andb_true_iff in E as [E1 E2]|apply andb_false_iff in E]; b2p; simpl.
  - split; [done|]. intros Hno. destruct Hno. by split.
  - split; [|done]. intros [H1 H2]. destruct E; b2p; lia.
Qed.

Lemma user_fail_exact p now ip l e :
  0 <= LockoutPolicy.username_window_secs p -> 0 <= LockoutPolicy.username_lock_secs p ->
  0 <= now < U64_MAX -> len l + 1 < 2 ^ 32 -> (l = [] -> e = UsernameEntry.default) -> user_exact p l e ->
  user_exact p ((now, ip) :: l) (fst (UsernameEntry.fail p now ip e)).
Proof.
  intros Hw Hs Hn Hlen H0 He t0 Ht0 Hlt.
  assert (~ spread p l -> Forall (fun a => t0 <= fst a <= t0 + LockoutPolicy.username_window_secs p) ((now, ip) :: l) ->
    (spread p ((now, ip) :: l) -> UsernameEntry.locked_until (fst (UsernameEntry.fail p now ip e)) =
       saturating_add 64 now (LockoutPolicy.username_lock_secs p)) /\
    (~ spread p ((now, ip) :: l) -> fst (UsernameEntry.fail p now ip e) =
       UsernameEntry.mk (list_to_set (snd <$> (now, ip) :: l)) (len ((now, ip) :: l)) t0 0 now)) as Hcount.
  { intros Hno [Hnow Hall]%Forall_cons. cbn [fst] in Hnow. destruct l as [|a l]; [simpl in Ht0; injection Ht0 as <-|].
    - rewrite (H0 eq_refl). apply user_fail_count; [done|done|done|done|by left].
    - destruct (He t0) as [Hex _]; [exact Ht0|done|]. destruct (Hex Hno Hall) as (H1 & H2 & H3 & H4).
      apply user_fail_count; [done|done|rewrite len_cons; lia|done|by right]. }
  split.
  - intros Hno Hall. destruct Hcount as [_ ->]; try done. intros Hy. by apply Hno, spread_cons.
  - intros l1 t ip' l2 E Hall Hy Hno. destruct l1 as [|a l1].
    + injection E as -> -> <-. destruct Hcount as [-> _]; done || lia.
    + injection E as <- ->. destruct (He t0) as [_ Hex]; [|done|].
      { rewrite <- Ht0. rewrite !fmap_cons, fmap_app, fmap_cons. by destruct (fst <$> l1). }
      specialize (Hex l1 t ip' l2 eq_refl Hall Hy Hno).
      pose proof (user_fail_locked p now ip e Hs ltac:(lia)). lia.
Qed.

(** Without evictions the tables hold what the failures say. *)
Record exact (p : LockoutPolicy.t) (s : AuthLockoutTracker.t) (es : list event) : Prop := {
  x_policy : policy s = p;
  x_tuple u ip :
    tuple_exact p (tuple_failures u ip es) (default TupleEntry.default (tuples s !! (u, ip)));
  x_ip ip :
    (ip_failures ip es = [] -> default IpEntry.default (ips s !! ip) = IpEntry.default) /\
    ip_exact p (ip_failures ip es) (default IpEntry.default (ips s !! ip));
  x_user u :
    (user_failures u es = [] -> default UsernameEntry.default (usernames s !! u) = UsernameEntry.default) /\
    (len es < 2 ^ 32 -> user_exact p (user_failures u es) (default UsernameEntry.default (usernames s !! u)));
  x_sizes : (size (tuples s) <= length es)%nat /\ (size (ips s) <= length es)%nat /\
    (size (usernames s) <= length es)%nat;
}.

Definition policy_ok (p : LockoutPolicy.t) : Prop :=
  1 <= LockoutPolicy.tuple_max_attempts p < 2 ^ 32 /\ 0 <= LockoutPolicy.tuple_lockout_secs p /\
  1 <= LockoutPolicy.ip_max_attempts p < 2 ^ 32 /\ 0 <= LockoutPolicy.ip_ban_secs p /\
  0 <= LockoutPolicy.username_window_secs p /\ 0 <= LockoutPolicy.username_lock_secs p.

Lemma exact_default p l : policy_ok p -> l = [] -> tuple_exact p l TupleEntry.default.
Proof.
  intros (Hm & _) ->. split; [done|]. change (len []) with 0. lia.
Qed.

Lemma user_failures_len u es : len (user_failures u es) <= len es.
Proof.
  induction es as [|[now u' ip|u' ip] es IH]; [done| |]; simpl; rewrite ?len_cons; [destruct (decide _)|];
    rewrite ?len_cons; lia.
Qed.

Lemma reachable_exact p s es T :
  policy_ok p -> reachable p s es T -> len es <= LockoutPolicy.max_entries p -> 0 <= T /\ exact p s es.
Proof.
  intros Hp. induction 1 as [|s es T clock u ip Hr IH Hn|s es T u ip Hr IH]; intros Hlen.
  - split; [done|]. split; [done| | | |done].
    + intros u ip. by apply exact_default.
    + intros ip. split; [done|]. intros t0. done.
    + intros u. split; [done|]. intros _ t0. done.
  - rewrite len_cons in Hlen. destruct IH as [HT [<- Xt Xi Xu (S1 & S2 & S3)]]; [lia|]. split; [lia|].
    destruct (record_failure_tables s clock u ip) as (Ep & Et & Ei & Eu). cbv zeta in *.
    rewrite (proj1 (evict_spec _ _)) in Et by (unfold len in *; lia).
    rewrite (proj1 (evict_spec _ _)) in Ei by (unfold len in *; lia).
    rewrite (proj1 (evict_spec _ _)) in Eu by (unfold len in *; lia).
    destruct Hp as (Hp1 & Hp2 & Hp3 & Hp4 & Hp5 & Hp6).
    split; [done|rewrite Et|rewrite Ei|rewrite Eu|rewrite Et, Ei, Eu; simpl].
    + intros u' ip'. simpl. destruct (decide ((u, ip) = (u', ip'))) as [E|Hne].
      * injection E as <- <-. rewrite lookup_insert_eq. apply tuple_fail_exact; [done|done|lia|apply Xt].
      * rewrite lookup_insert_ne by done. apply Xt.
    + intros ip'. simpl. destruct (decide (ip = ip')) as [<-|Hne].
      * rewrite lookup_insert_eq. split; [done|]. destruct (Xi ip) as [X0 X1].
        apply ip_fail_exact; [done|done|lia|done|done].
      * rewrite lookup_insert_ne by done. apply Xi.
    + intros u'. simpl. rewrite len_cons. destruct (decide (u = u')) as [<-|Hne].
      * rewrite lookup_insert_eq. split; [done|]. intros Hl. destruct (Xu u) as [X0 X1].
        pose proof (user_failures_len u es). apply user_fail_exact; [done|done|lia|lia|done|apply X1; lia].
      * rewrite lookup_insert_ne by done. destruct (Xu u') as [X0 X1]. split; [done|]. intros Hl. apply X1. lia.
    + split_and!; (etransitivity; [apply size_insert_le|lia]).
  - rewrite len_cons in Hlen. destruct IH as [HT [<- Xt Xi Xu (S1 & S2 & S3)]]; [lia|]. split; [done|].
    split; [done| |done| |].
    + intros u' ip'. simpl. destruct (decide ((u, ip) = (u', ip'))) as [E|Hne].
      * injection E as <- <-. rewrite lookup_delete_eq. by apply exact_default.
      * rewrite lookup_delete_ne by done. apply Xt.
    + intros u'. simpl. rewrite len_cons. destruct (Xu u') as [X0 X1]. split; [done|]. intros Hl. apply X1. lia.
    + simpl. pose proof (map_subseteq_size _ _ (delete_subseteq (tuples s) (u, ip))). lia.
Qed.

(** C22: the throttles are enforced, as long as the tables have room for all the
    events, and on a wall clock that does not run backwards.  From the failure
    of a pair on that reaches the limit (since its last success), attempts of
    the pair are refused for the whole of the lock time, whatever else happens.
    So are all attempts from an address, from the failure on that reaches its
    limit within an hour of its first one, if that came later than an hour into
    the epoch.  And so are all attempts for a user name, from whatever address,
    from the failure on that makes the failures for it within the window of the
    first one enough, and from addresses enough, to lock it, if the first came
    later than one window into the epoch and there were fewer than 2^32
    events. *)
Theorem lockout_enforced p s es T clock u ip :
  policy_ok p -> reachable p s es T -> len es <= LockoutPolicy.max_entries p ->
  let now := now_secs clock in
  0 <= now ->
  (forall t, let l := tuple_failures u ip es in let m := LockoutPolicy.tuple_max_attempts p in
     m <= len l -> l !! Z.to_nat (len l - m) = Some t ->
     now < saturating_add 64 t (LockoutPolicy.tuple_lockout_secs p) ->
     check_lockout s clock u ip <> None) /\
  (forall t t0, let l := ip_failures ip es in let m := LockoutPolicy.ip_max_attempts p in
     m <= len l -> last (fst <$> l) = Some t0 -> 3600 < t0 ->
     Forall (fun a => t0 <= fst a <= t0 + 3600) (drop (Z.to_nat (len l - m)) l) ->
     (fst <$> l) !! Z.to_nat (len l - m) = Some t ->
     now < saturating_add 64 t (LockoutPolicy.ip_ban_secs p) ->
     check_lockout s clock u ip = Some LockoutKind.Ip) /\
  (forall t0 later t ip' earlier, let w := LockoutPolicy.username_window_secs p in
     len es < 2 ^ 32 -> user_failures u es = later ++ (t, ip') :: earlier ->
     last (fst <$> user_failures u es) = Some t0 -> w < t0 ->
     Forall (fun a => t0 <= fst a <= t0 + w) ((t, ip') :: earlier) ->
     spread p ((t, ip') :: earlier) -> ~ spread p earlier ->
     now < saturating_add 64 t (LockoutPolicy.username_lock_secs p) ->
     check_lockout s clock u ip <> None).
Proof.
  intros Hp Hr Hlen now H0. destruct (reachable_exact p s es T Hp Hr Hlen) as [_ [_ Xt Xi Xu _]].
  unfold now, check_lockout. cbv zeta. split_and!.
  - intros t Hm Ht Hnow. destruct (Xt u ip) as [_ Xt']. specialize (Xt' t Hm Ht).
    destruct (match ips s !! ip with Some _ => _ | None => _ end); [done|].
    destruct (tuples s !! (u, ip)) as [e|]; simpl in Xt'; [by rewrite (proj2 (Z.ltb_lt _ _)) by lia|lia].
  - intros t t0 Hm Hlast Ht0 Hall Ht Hnow. destruct (Xi ip) as [_ Xi'].
    destruct (Xi' t0 Hlast Ht0) as [_ Xi'']. specialize (Xi'' t Hm Hall Ht).
    destruct (ips s !! ip) as [e|]; simpl in Xi''; [by rewrite (proj2 (Z.ltb_lt _ _)) by lia|lia].
  - intros t0 later t ip' earlier Hes E Hlast Ht0 Hall Hy Hno Hnow. destruct (Xu u) as [_ Xu'].
    destruct (Xu' Hes t0 Hlast Ht0) as [_ Xu'']. specialize (Xu'' later t ip' earlier E Hall Hy Hno).
    destruct (match ips s !! ip with Some _ => _ | None => _ end); [done|].
    destruct (match tuples s !! (u, ip) with Some _ => _ | None => _ end); [done|].
    destruct (usernames s !! u) as [e|]; simpl in Xu''; [by rewrite (proj2 (Z.ltb_lt _ _)) by lia|lia].
Qed.

End Tracker.

(** * Examples *)

Definition example_policy : LockoutPolicy.t := LockoutPolicy.mk 2 3600 3 3600 4 2 86400 3600 100.

Definition example_ip (n : Z) : IpAddr.t := IpAddr.V4 [203; 0; 113; n].

(** Two failures of a pair and one of another user from the same address. *)
Definition example_events : list event :=
  [Failure 5002 [98] (example_ip 1); Failure 5001 [97] (example_ip 1); Failure 5000 [97] (example_ip 1)].

Definition example_tracker : AuthLockoutTracker.t :=
  let s := AuthLockoutTracker.new example_policy in
  let s := fst (AuthLockoutTracker.record_failure s (Some 5000) [97] (example_ip 1)) in
  let s := fst (AuthLockoutTracker.record_failure s (Some 5001) [97] (example_ip 1)) in
  fst (AuthLockoutTracker.record_failure s (Some 5002) [98] (example_ip 1)).

Lemma example_reachable : reachable example_policy example_tracker example_events 5002.
Proof.
  apply (reachable_failure example_policy _ _ 5001 (Some 5002)); [|unfold U64_MAX; simpl; lia].
  apply (reachable_failure example_policy _ _ 5000 (Some 5001)); [|unfold U64_MAX; simpl; lia].
  apply (reachable_failure example_policy _ _ 0 (Some 5000)); [|unfold U64_MAX; simpl; lia].
  apply reachable_new.
Qed.

Lemma lockout_justified_witness :
  AuthLockoutTracker.check_lockout example_tracker (Some 6000) [99] (example_ip 1) =
    Some LockoutKind.Ip /\
  burst 3 0 3600 (ip_failures (example_ip 1) example_events).
Proof.
  pose proof (lockout_justified example_policy example_tracker example_events 5002 (Some 6000) [99]
    (example_ip 1) ltac:(simpl; lia) example_reachable ltac:(simpl; lia)) as [H _].
  assert (AuthLockoutTracker.check_lockout example_tracker (Some 6000) [99] (example_ip 1) =
    Some LockoutKind.Ip) as E by (vm_compute; reflexivity).
  rewrite E in H. split; [exact E|exact H].
Defined.

(** Four failures for one user name from two addresses. *)
Definition spread_events : list event :=
  [Failure 90003 [97] (example_ip 2); Failure 90002 [97] (example_ip 2);
   Failure 90001 [97] (example_ip 1); Failure 90000 [97] (example_ip 1)].

Definition spread_tracker : AuthLockoutTracker.t :=
  let fail s now ip := fst (AuthLockoutTracker.record_failure s (Some now) [97] (example_ip ip)) in
  fail (fail (fail (fail (AuthLockoutTracker.new example_policy) 90000 1) 90001 1) 90002 2) 90003 2.

Lemma spread_reachable : reachable example_policy spread_tracker spread_events 90003.
Proof.
  apply (reachable_failure example_policy _ _ 90002 (Some 90003)); [|unfold U64_MAX; simpl; lia].
  apply (reachable_failure example_policy _ _ 90001 (Some 90002)); [|unfold U64_MAX; simpl; lia].
  apply (reachable_failure example_policy _ _ 90000 (Some 90001)); [|unfold U64_MAX; simpl; lia].
  apply (reachable_failure example_policy _ _ 0 (Some 90000)); [|unfold U64_MAX; simpl; lia].
  apply reachable_new.
Qed.

Lemma lockout_enforced_witness :
  AuthLockoutTracker.check_lockout example_tracker (Some 8600) [97] (example_ip 1) <> None /\
  AuthLockoutTracker.check_lockout example_tracker (Some 8601) [97] (example_ip 1) = Some LockoutKind.Ip /\
  AuthLockoutTracker.check_lockout spread_tracker (Some 93602) [97] (example_ip 3) <> None.
Proof.
  split; [|split].
  - apply (proj1 (lockout_enforced example_policy example_tracker example_events 5002 (Some 8600) [97]
      (example_ip 1) ltac:(by_decide) example_reachable ltac:(by_decide) ltac:(simpl; lia)) 5001);
      by_decide.
  - apply (proj1 (proj2 (lockout_enforced example_policy example_tracker example_events 5002 (Some 8601) [97]
      (example_ip 1) ltac:(by_decide) example_reachable ltac:(by_decide) ltac:(simpl; lia))) 5002 5000);
      by_decide.
  - apply (proj2 (proj2 (lockout_enforced example_policy spread_tracker spread_events 90003 (Some 93602) [97]
      (example_ip 3) ltac:(by_decide) spread_reachable ltac:(by_decide) ltac:(simpl; lia))) 90000 [] 90003
      (example_ip 2) [(90002, example_ip 2); (90001, example_ip 1); (90000, example_ip 1)]);
      first [by_decide|reflexivity|vm_compute; intuition discriminate].
Defined.

(** The failures of a pair are counted without a time limit: with a limit of
    two, failures a year apart lock it. *)
Lemma tuple_window_unbounded :
  let s := AuthLockoutTracker.new example_policy in
  let s := fst (AuthLockoutTracker.record_failure s (Some 5000) [97] (example_ip 1)) in
  snd (AuthLockoutTracker.record_failure s (Some (5000 + 365 * 86400)) [97] (example_ip 1)) =
    Some LockoutKind.Tuple.
Proof. vm_compute. reflexivity. Qed.
