(* ===== verification/AddressPool.v ===== *)
(** The tunnel address allocators (hpn-server/src/session_manager.rs), and the
    contract the session manager relies on.

    Addresses are byte lists.  A shift or subtraction that overflows aborts. *)

From S2P Require Import Prelude Wire.

(** * The contract of an address pool

    [pool_uses p U]: the addresses [U] are handed out.  A pool hands out only
    addresses that are not in use, refuses only when its whole capacity is in
    use, and takes back what it handed out. *)
Class AddressPool (P A : Type) `{Countable A} := {
  pool_allocate : P -> P * option A;
  pool_release : P -> A -> P;
  pool_uses : P -> gset A -> Prop;
  pool_capacity : P -> Z;
}.

Class AddressPoolLaws (P A : Type) `{Countable A} {AP : AddressPool P A} : Prop := {
  pool_allocate_spec p U :
    pool_uses p U ->
    let '(p', r) := pool_allocate p in
    pool_capacity p' = pool_capacity p /\
    match r with
    | Some a => (a ∉ U) /\ pool_uses p' ({[a]} ∪ U)
    | None => Z.of_nat (size U) = pool_capacity p /\ pool_uses p' U
    end;
  pool_release_spec p U a :
    pool_uses p U -> a ∈ U ->
    pool_capacity (pool_release p a) = pool_capacity p /\ pool_uses (pool_release p a) (U ∖ {[a]});
}.

(** * IPv4 *)

Module IpAllocator.

Record t := mk {
  base : list Z;
  prefix : Z;
  next_offset : Z;
  released : gset Z;
  max_offset : Z;
}.

Definition new {E} (base : list Z) (prefix : Z) : result E t :=
  if 32 <? prefix then Panic
  else
    let host_bits := 32 - prefix in
    if 32 <=? host_bits then Panic
    else
      let max_offset := saturating_sub (Z.shiftl 1 host_bits) 2 in
      Ok (mk base prefix 2 ∅ max_offset).

Definition offset_to_ip (a : t) (offset : Z) : list Z :=
  let base_u32 := from_be (base a) in
  let ip_u32 := wrapping_add 32 base_u32 offset in
  be_bytes 4 ip_u32.

Definition ip_to_offset (a : t) (ip : list Z) : option Z :=
  let base_u32 := from_be (base a) in
  let ip_u32 := from_be ip in
  checked_sub ip_u32 base_u32.

Definition allocate {I : SetIter Z} (a : t) : t * option (list Z) :=
  match set_iter (released a) with
  | offset :: _ =>
      (mk (base a) (prefix a) (next_offset a) (released a ∖ {[offset]}) (max_offset a),
       Some (offset_to_ip a offset))
  | [] =>
      if next_offset a <=? max_offset a then
        let ip := offset_to_ip a (next_offset a) in
        (mk (base a) (prefix a) (next_offset a + 1) (released a) (max_offset a), Some ip)
      else (a, None)
  end.

Definition release (a : t) (ip : list Z) : t :=
  match ip_to_offset a ip with
  | Some offset =>
      if (2 <=? offset) && (offset <=? max_offset a) then
        mk (base a) (prefix a) (next_offset a) ({[offset]} ∪ released a) (max_offset a)
      else a
  | None => a
  end.

Definition available (a : t) : Z :=
  let allocated := next_offset a - 2 in
  let released := as_uint 32 (Z.of_nat (size (released a))) in
  saturating_sub (max_offset a) allocated + released.

Definition netmask {E} (a : t) : result E (list Z) :=
  if 32 <? prefix a then Panic
  else if 32 <=? 32 - prefix a then Panic
  else
    let mask := Z.lxor (Z.shiftl 1 (32 - prefix a) - 1) U32_MAX in
    Ok (be_bytes 4 mask).

End IpAllocator.

(** * IPv6 *)

Module Ipv6Allocator.

Record t := mk {
  base : list Z;
  prefix : Z;
  next_offset : Z;
  released : gset Z;
  max_offset : Z;
}.

Definition new {E} (base : list Z) (prefix : Z) : result E t :=
  if 128 <? prefix then Panic
  else
    let host_bits := Z.min (128 - prefix) 63 in
    let max_offset :=
      if 63 <=? host_bits then U64_MAX - 2 else saturating_sub (Z.shiftl 1 host_bits) 2 in
    Ok (mk base prefix 2 ∅ max_offset).

(** The low half of an address as a number. *)
Definition low (ip : list Z) : Z := from_be (slice ip 8 16).

Definition offset_to_ip (a : t) (offset : Z) : option (list Z) :=
  let base_low := low (base a) in
  match checked_add 64 base_low offset with
  | None => None
  | Some new_low => Some (slice (base a) 0 8 ++ be_bytes 8 new_low)
  end.

Definition ip_to_offset (a : t) (ip : list Z) : option Z :=
  if negb (bool_decide (slice ip 0 8 = slice (base a) 0 8)) then None
  else checked_sub (low ip) (low (base a)).

Definition allocate {I : SetIter Z} (a : t) : t * option (list Z) :=
  match set_iter (released a) with
  | offset :: _ =>
      (mk (base a) (prefix a) (next_offset a) (released a ∖ {[offset]}) (max_offset a),
       offset_to_ip a offset)
  | [] =>
      if next_offset a <=? max_offset a then
        match offset_to_ip a (next_offset a) with
        | None => (a, None)
        | Some ip =>
            (mk (base a) (prefix a) (next_offset a + 1) (released a) (max_offset a), Some ip)
        end
      else (a, None)
  end.

Definition release (a : t) (ip : list Z) : t :=
  match ip_to_offset a ip with
  | Some offset =>
      if (2 <=? offset) && (offset <=? max_offset a) then
        mk (base a) (prefix a) (next_offset a) ({[offset]} ∪ released a) (max_offset a)
      else a
  | None => a
  end.

End Ipv6Allocator.

(** * Offsets in use

    Offsets from 2 up to [next] are either released or in use. *)
Definition offsets_ok (next top : Z) (rel used : gset Z) : Prop :=
  2 <= next <= Z.max 1 top + 1 /\ rel ## used /\ forall o, o ∈ rel ∪ used <-> 2 <= o < next.

Lemma interval_size (X : gset Z) a b :
  a <= b -> (forall o, o ∈ X <-> a <= o < b) -> Z.of_nat (size X) = b - a.
Proof.
  intros Hab HX. assert (X = list_to_set (seqZ a (b - a))) as ->.
  { apply set_eq. intros o. rewrite HX, elem_of_list_to_set, elem_of_seqZ. lia. }
  rewrite size_list_to_set by apply NoDup_seqZ. rewrite length_seqZ. lia.
Qed.

Lemma offsets_new top : offsets_ok 2 top ∅ ∅.
Proof. split; [lia|]. split; [set_solver|]. intros o. split; [set_solver|lia]. Qed.

Lemma offsets_bound next top rel used o : offsets_ok next top rel used -> o ∈ used -> 2 <= o <= top.
Proof. intros (Hn & _ & Hin) Ho. assert (2 <= o < next) by (apply Hin; set_solver). lia. Qed.

Lemma offsets_reuse next top rel used o :
  offsets_ok next top rel used -> o ∈ rel ->
  (o ∉ used) /\ 2 <= o <= top /\ offsets_ok next top (rel ∖ {[o]}) ({[o]} ∪ used).
Proof.
  intros (Hn & Hd & Hin) Ho. assert (2 <= o < next) by (apply Hin; set_solver).
  split; [set_solver|]. split; [lia|]. split; [done|]. split; [set_solver|].
  intros o'. rewrite <- Hin. destruct (decide (o' = o)) as [->|]; set_solver.
Qed.

Lemma offsets_next next top rel used :
  offsets_ok next top rel used -> next <= top ->
  (next ∉ used) /\ 2 <= next <= top /\ offsets_ok (next + 1) top rel ({[next]} ∪ used).
Proof.
  intros (Hn & Hd & Hin) Ht.
  assert (next ∉ rel ∪ used) as Hnew by (rewrite Hin; lia).
  split; [set_solver|]. split; [lia|]. split; [lia|]. split; [set_solver|].
  intros o. destruct (decide (o = next)) as [->|Hne]; [split; [lia|set_solver]|].
  transitivity (o ∈ rel ∪ used); [clear -Hne; set_solver|]. rewrite Hin. lia.
Qed.

Lemma offsets_release next top rel used o :
  offsets_ok next top rel used -> o ∈ used -> offsets_ok next top ({[o]} ∪ rel) (used ∖ {[o]}).
Proof.
  intros (Hn & Hd & Hin) Ho. split; [done|]. split; [set_solver|].
  intros o'. rewrite <- Hin. destruct (decide (o' = o)) as [->|]; set_solver.
Qed.

Lemma offsets_full next top used :
  offsets_ok next top ∅ used -> top < next -> Z.of_nat (size used) = Z.max 0 (top - 1).
Proof.
  intros (Hn & _ & Hin) Ht. rewrite (interval_size used 2 next); [lia|lia|].
  intros o. rewrite <- Hin. set_solver.
Qed.

Lemma set_iter_nil {I : SetIter Z} (s : gset Z) : set_iter s = [] -> s = ∅.
Proof.
  intros E. apply set_eq. intros x. rewrite <- elem_of_set_iter, E. set_solver.
Qed.

(** Removing an offset in use removes its address. *)
Lemma set_map_remove (f : Z -> list Z) (used : gset Z) o :
  (forall o', o' ∈ used -> f o' = f o -> o' = o) ->
  set_map f (used ∖ {[o]}) = (set_map f used ∖ {[f o]} : gset (list Z)).
Proof.
  intros Hinj. apply set_eq. intros x. rewrite elem_of_difference, !elem_of_map, elem_of_singleton.
  split.
  - intros (o' & -> & [Ho' Hne]%elem_of_difference). split; [by exists o'|].
    intros E. apply Hne, elem_of_singleton. by apply Hinj.
  - intros [(o' & -> & Ho') Hne]. exists o'. split; [done|]. set_solver.
Qed.

Lemma fresh_address (f : Z -> list Z) (used : gset Z) o :
  (forall o', o' ∈ used -> f o' = f o -> o' = o) -> o ∉ used -> f o ∉ (set_map f used : gset (list Z)).
Proof. intros Hinj Ho (o' & E & Ho')%elem_of_map. apply Ho. by rewrite <- (Hinj o' Ho'). Qed.

Lemma size_set_map (f : Z -> list Z) (used : gset Z) :
  (forall o o', o ∈ used -> o' ∈ used -> f o = f o' -> o = o') ->
  size (set_map f used : gset (list Z)) = size used.
Proof.
  induction used as [|o used Ho IH] using set_ind_L; intros Hinj; [by rewrite set_map_empty|].
  rewrite set_map_union_L, set_map_singleton_L, !size_union, !size_singleton, IH.
  - done.
  - intros. apply Hinj; set_solver.
  - set_solver.
  - intros x Hx%elem_of_singleton (o' & -> & Ho')%elem_of_map. apply Ho.
    rewrite (Hinj o o'); [done|set_solver|set_solver|done].
Qed.

(** * The IPv4 allocator meets the contract *)

Section Pools.
Context {I : SetIter Z}.

(** The subnet does not reach past the last address. *)
Definition ipv4_wf (a : IpAllocator.t) : Prop :=
  bytes_ok (IpAllocator.base a) /\ len (IpAllocator.base a) = 4 /\ 0 <= IpAllocator.max_offset a /\
  from_be (IpAllocator.base a) + IpAllocator.max_offset a < 2 ^ 32 /\ 1 <= IpAllocator.prefix a <= 32.

#[export] Instance ipv4_pool : AddressPool IpAllocator.t (list Z) := {
  pool_allocate := IpAllocator.allocate;
  pool_release := IpAllocator.release;
  pool_uses a U :=
    ipv4_wf a /\
    exists used, offsets_ok (IpAllocator.next_offset a) (IpAllocator.max_offset a)
                   (IpAllocator.released a) used /\
                 U = set_map (IpAllocator.offset_to_ip a) used;
  pool_capacity a := Z.max 0 (IpAllocator.max_offset a - 1);
}.

Lemma ipv4_to_offset a o :
  ipv4_wf a -> 2 <= o <= IpAllocator.max_offset a ->
  IpAllocator.ip_to_offset a (IpAllocator.offset_to_ip a o) = Some o.
Proof.
  intros (Hb & Hl & Hm & Hw) Ho. unfold IpAllocator.ip_to_offset, IpAllocator.offset_to_ip, wrapping_add.
  pose proof (from_be_uint 4 _ Hb Hl) as Hu. unfold uint in Hu.
  rewrite Z.mod_small by lia. rewrite from_be_be_bytes_4 by (unfold uint; lia).
  unfold checked_sub. rewrite (proj2 (Z.leb_le _ _)) by lia. f_equal. lia.
Qed.

Lemma ipv4_inj a o o' :
  ipv4_wf a -> 2 <= o <= IpAllocator.max_offset a -> 2 <= o' <= IpAllocator.max_offset a ->
  IpAllocator.offset_to_ip a o = IpAllocator.offset_to_ip a o' -> o = o'.
Proof.
  intros Hw Ho Ho' E. apply (f_equal (IpAllocator.ip_to_offset a)) in E.
  rewrite !ipv4_to_offset in E by done. congruence.
Qed.

#[export] Instance ipv4_pool_laws : AddressPoolLaws IpAllocator.t (list Z).
Proof.
  split.
  - intros a U [Hw (used & Hok & ->)]. cbn [pool_allocate pool_capacity pool_uses ipv4_pool].
    unfold IpAllocator.allocate. destruct (set_iter (IpAllocator.released a)) as [|o l] eqn:E.
    + apply set_iter_nil in E. destruct (_ <=? _) eqn:En; b2p.
      * destruct (offsets_next _ _ _ _ Hok En) as (Hnew & Hb & Hok'). split; [done|]. split.
        -- apply fresh_address; [|done]. intros o' Ho' E'. apply ipv4_inj in E'; by eauto using offsets_bound.
        -- split; [done|]. eexists. split; [exact Hok'|]. by rewrite set_map_union_L, set_map_singleton_L.
      * split; [done|]. split; [|split; [done|by exists used]].
        rewrite size_set_map; [|intros ????; apply ipv4_inj; by eauto using offsets_bound].
        rewrite E in Hok. by eapply offsets_full.
    + assert (o ∈ IpAllocator.released a) as Hin by (apply elem_of_set_iter; rewrite E; left).
      destruct (offsets_reuse _ _ _ _ _ Hok Hin) as (Hnew & Hb & Hok'). split; [done|]. split.
      * apply fresh_address; [|done]. intros o' Ho' E'. apply ipv4_inj in E'; by eauto using offsets_bound.
      * split; [done|]. eexists. split; [exact Hok'|]. by rewrite set_map_union_L, set_map_singleton_L.
  - intros a U ip [Hw (used & Hok & ->)] (o & -> & Ho)%elem_of_map.
    cbn [pool_release pool_capacity pool_uses ipv4_pool]. unfold IpAllocator.release.
    pose proof (offsets_bound _ _ _ _ _ Hok Ho) as Hb. rewrite ipv4_to_offset by done.
    rewrite !(proj2 (Z.leb_le _ _)) by lia. split; [done|]. split; [done|].
    exists (used ∖ {[o]}). split; [by apply offsets_release|].
    symmetry. apply set_map_remove. intros o' Ho' E. apply ipv4_inj in E; by eauto using offsets_bound.
Qed.

(** * The IPv6 allocator meets the contract *)

Definition ipv6_wf (a : Ipv6Allocator.t) : Prop :=
  bytes_ok (Ipv6Allocator.base a) /\ len (Ipv6Allocator.base a) = 16 /\ 0 <= Ipv6Allocator.max_offset a /\
  0 <= Ipv6Allocator.prefix a <= 128.

(** The last offset that neither passes the limit nor the low half. *)
Definition ipv6_top (a : Ipv6Allocator.t) : Z :=
  Z.min (Ipv6Allocator.max_offset a) (U64_MAX - Ipv6Allocator.low (Ipv6Allocator.base a)).

(** The address at an offset in range. *)
Definition ipv6_at (a : Ipv6Allocator.t) (o : Z) : list Z :=
  slice (Ipv6Allocator.base a) 0 8 ++ be_bytes 8 (Ipv6Allocator.low (Ipv6Allocator.base a) + o).

#[export] Instance ipv6_pool : AddressPool Ipv6Allocator.t (list Z) := {
  pool_allocate := Ipv6Allocator.allocate;
  pool_release := Ipv6Allocator.release;
  pool_uses a U :=
    ipv6_wf a /\
    exists used, offsets_ok (Ipv6Allocator.next_offset a) (ipv6_top a)
                   (Ipv6Allocator.released a) used /\
                 U = set_map (ipv6_at a) used;
  pool_capacity a := Z.max 0 (ipv6_top a - 1);
}.

Lemma ipv6_low a : ipv6_wf a -> u64 (Ipv6Allocator.low (Ipv6Allocator.base a)).
Proof.
  intros (Hb & Hl & _). apply (from_be_uint 8); [by apply bytes_ok_slice|rewrite len_slice; lia].
Qed.

Lemma ipv6_offset_to_ip a o :
  0 <= o -> Ipv6Allocator.offset_to_ip a o =
    if o <=? U64_MAX - Ipv6Allocator.low (Ipv6Allocator.base a) then Some (ipv6_at a o) else None.
Proof.
  intros Ho. unfold Ipv6Allocator.offset_to_ip, checked_add, U64_MAX.
  destruct (_ <? _) eqn:E1, (_ <=? _) eqn:E2; b2p; try done; lia.
Qed.

Lemma ipv6_to_offset a o :
  ipv6_wf a -> 2 <= o <= ipv6_top a -> Ipv6Allocator.ip_to_offset a (ipv6_at a o) = Some o.
Proof.
  intros Hw Ho. pose proof (ipv6_low a Hw) as Hu. destruct Hw as (Hb & Hl & _).
  unfold Ipv6Allocator.ip_to_offset, ipv6_at, ipv6_top, U64_MAX, uint in *.
  set (lo := Ipv6Allocator.low (Ipv6Allocator.base a)) in *.
  set (hi := slice (Ipv6Allocator.base a) 0 8). assert (len hi = 8) as Hh by (unfold hi; rewrite len_slice; lia).
  pose proof (rest_at_start (hi ++ be_bytes 8 (lo + o))) as R.
  rewrite (slice_rest_at _ 0 hi (be_bytes 8 (lo + o)) 8 R) by lia. rewrite bool_decide_true by done. simpl.
  apply rest_at_app in R. replace (0 + len hi) with 8 in R by lia.
  rewrite <- (app_nil_r (be_bytes 8 (lo + o))) in R at 2.
  unfold Ipv6Allocator.low at 1. rewrite (slice_rest_at _ _ _ _ 16 R) by (rewrite len_be_bytes; lia).
  rewrite from_be_be_bytes_8 by (unfold uint; lia).
  unfold checked_sub. rewrite (proj2 (Z.leb_le _ _)) by lia. f_equal. lia.
Qed.

Lemma ipv6_inj a o o' :
  ipv6_wf a -> 2 <= o <= ipv6_top a -> 2 <= o' <= ipv6_top a -> ipv6_at a o = ipv6_at a o' -> o = o'.
Proof.
  intros Hw Ho Ho' E. apply (f_equal (Ipv6Allocator.ip_to_offset a)) in E.
  rewrite !ipv6_to_offset in E by done. congruence.
Qed.

(** Allocation when nothing is released. *)
Definition ipv6_next (a : Ipv6Allocator.t) : Ipv6Allocator.t * option (list Z) :=
  if Ipv6Allocator.next_offset a <=? Ipv6Allocator.max_offset a then
    match Ipv6Allocator.offset_to_ip a (Ipv6Allocator.next_offset a) with
    | None => (a, None)
    | Some ip =>
        (Ipv6Allocator.mk (Ipv6Allocator.base a) (Ipv6Allocator.prefix a)
           (Ipv6Allocator.next_offset a + 1) (Ipv6Allocator.released a) (Ipv6Allocator.max_offset a),
         Some ip)
    end
  else (a, None).

Lemma ipv6_next_eq a :
  0 <= Ipv6Allocator.next_offset a ->
  ipv6_next a =
    if Ipv6Allocator.next_offset a <=? ipv6_top a then
      (Ipv6Allocator.mk (Ipv6Allocator.base a) (Ipv6Allocator.prefix a)
         (Ipv6Allocator.next_offset a + 1) (Ipv6Allocator.released a) (Ipv6Allocator.max_offset a),
       Some (ipv6_at a (Ipv6Allocator.next_offset a)))
    else (a, None).
Proof.
  intros Hn. unfold ipv6_next, ipv6_top. rewrite ipv6_offset_to_ip by done.
  destruct (_ <=? Ipv6Allocator.max_offset a) eqn:E1; [destruct (_ <=? U64_MAX - _) eqn:E2|];
    destruct (_ <=? Z.min _ _) eqn:E3; b2p; done || lia.
Qed.

#[export] Instance ipv6_pool_laws : AddressPoolLaws Ipv6Allocator.t (list Z).
Proof.
  split.
  - intros a U [Hw (used & Hok & ->)]. pose proof (ipv6_low a Hw) as Hu. unfold uint in Hu.
    cbn [pool_allocate pool_capacity pool_uses ipv6_pool].
    unfold Ipv6Allocator.allocate. destruct (set_iter (Ipv6Allocator.released a)) as [|o l] eqn:E.
    + apply set_iter_nil in E. pose proof Hok as (Hn & _). fold (ipv6_next a).
      rewrite ipv6_next_eq by lia. destruct (_ <=? ipv6_top a) eqn:En; b2p.
      * destruct (offsets_next _ _ _ _ Hok En) as (Hnew & Hb & Hok'). split; [done|]. split.
        -- apply fresh_address; [|done]. intros o' Ho' E'. apply ipv6_inj in E'; by eauto using offsets_bound.
        -- split; [done|]. eexists. split; [exact Hok'|]. by rewrite set_map_union_L, set_map_singleton_L.
      * split; [done|]. split; [|split; [done|by exists used]].
        rewrite size_set_map; [|intros ????; apply ipv6_inj; by eauto using offsets_bound].
        rewrite E in Hok. by eapply offsets_full.
    + assert (o ∈ Ipv6Allocator.released a) as Hin by (apply elem_of_set_iter; rewrite E; left).
      destruct (offsets_reuse _ _ _ _ _ Hok Hin) as (Hnew & Hb & Hok').
      rewrite ipv6_offset_to_ip, (proj2 (Z.leb_le _ _)) by (unfold ipv6_top in Hb; lia).
      split; [done|]. split.
      * apply fresh_address; [|done]. intros o' Ho' E'. apply ipv6_inj in E'; by eauto using offsets_bound.
      * split; [done|]. eexists. split; [exact Hok'|]. by rewrite set_map_union_L, set_map_singleton_L.
  - intros a U ip [Hw (used & Hok & ->)] (o & -> & Ho)%elem_of_map.
    cbn [pool_release pool_capacity pool_uses ipv6_pool]. unfold Ipv6Allocator.release.
    pose proof (offsets_bound _ _ _ _ _ Hok Ho) as Hb. rewrite ipv6_to_offset by done.
    unfold ipv6_top in Hb. rewrite !(proj2 (Z.leb_le _ _)) by lia. split; [done|]. split; [done|].
    exists (used ∖ {[o]}). split; [by apply offsets_release|].
    symmetry. apply set_map_remove. intros o' Ho' E. apply ipv6_inj in E; by eauto using offsets_bound.
Qed.

Lemma ipv4_new base prefix :
  bytes_ok base -> len base = 4 -> 1 <= prefix <= 32 -> from_be base + 2 ^ (32 - prefix) <= 2 ^ 32 ->
  exists a, IpAllocator.new (E:=unit) base prefix = Ok a /\ pool_uses a ∅ /\
    pool_capacity a = Z.max 0 (2 ^ (32 - prefix) - 3).
Proof.
  intros Hb Hl Hp Hs. unfold IpAllocator.new, saturating_sub.
  rewrite (proj2 (Z.ltb_ge _ _)), (proj2 (Z.leb_gt _ _)) by lia. rewrite Z.shiftl_1_l.
  pose proof (Z.pow_pos_nonneg 2 (32 - prefix) ltac:(lia) ltac:(lia)). eexists. split; [done|]. simpl. split; [|lia].
  split; [split; [done|split; [done|simpl; lia]]|]. exists ∅. split; [apply offsets_new|].
  by rewrite set_map_empty.
Qed.

Lemma ipv6_new base prefix :
  bytes_ok base -> len base = 16 -> 0 <= prefix <= 128 ->
  exists a, Ipv6Allocator.new (E:=unit) base prefix = Ok a /\ pool_uses a ∅ /\
    (66 <= prefix -> Ipv6Allocator.low base + 2 ^ (128 - prefix) <= 2 ^ 64 ->
     pool_capacity a = Z.max 0 (2 ^ (128 - prefix) - 3)).
Proof.
  intros Hb Hl Hp. unfold Ipv6Allocator.new, saturating_sub.
  rewrite (proj2 (Z.ltb_ge _ _)) by lia. eexists. split; [done|]. split.
  - split.
    + split; [done|]. split; [done|]. simpl. destruct (_ <=? _); [done|lia].
    + exists ∅. split; [apply offsets_new|]. by rewrite set_map_empty.
  - intros Hp' Hs. simpl. unfold ipv6_top. simpl. replace (Z.min (128 - prefix) 63) with (128 - prefix) by lia.
    rewrite (proj2 (Z.leb_gt _ _)) by lia. rewrite Z.shiftl_1_l. unfold U64_MAX.
    pose proof (Z.pow_pos_nonneg 2 (128 - prefix) ltac:(lia) ltac:(lia)). lia.
Qed.

Lemma ipv4_new_fields {E} base prefix a :
  IpAllocator.new (E:=E) base prefix = Ok a ->
  IpAllocator.base a = base /\ IpAllocator.prefix a = prefix /\
  IpAllocator.max_offset a = Z.max 0 (2 ^ (32 - prefix) - 2).
Proof.
  unfold IpAllocator.new, saturating_sub. destruct (_ <? _); [done|]. destruct (_ <=? _); [done|].
  intros [= <-]. simpl. by rewrite Z.shiftl_1_l.
Qed.

(** The limit of an IPv6 pool lies in the network but for a prefix of 65
    bits. *)
Lemma ipv6_new_fields {E} base prefix a :
  0 <= prefix <= 128 -> prefix <> 65 -> Ipv6Allocator.new (E:=E) base prefix = Ok a ->
  Ipv6Allocator.base a = base /\ Ipv6Allocator.max_offset a <= Z.max 0 (2 ^ (128 - prefix) - 2).
Proof.
  intros Hp H65. unfold Ipv6Allocator.new, saturating_sub. destruct (_ <? _); [done|]. intros [= <-]. simpl.
  split; [done|]. destruct (63 <=? _) eqn:E63; b2p.
  - pose proof (Z.pow_le_mono_r 2 64 (128 - prefix) ltac:(lia) ltac:(lia)). unfold U64_MAX. lia.
  - rewrite Z.shiftl_1_l, Z.min_l by lia. lia.
Qed.

Lemma ipv6_new_capacity base prefix a :
  bytes_ok base -> len base = 16 -> 0 <= prefix <= 128 -> prefix <> 65 -> from_be base mod 2 ^ (128 - prefix) = 0 ->
  Ipv6Allocator.new (E:=unit) base prefix = Ok a ->
  pool_capacity a = if prefix <=? 64 then 2 ^ 64 - 4 else Z.max 0 (2 ^ (128 - prefix) - 3).
Proof.
  intros Hb Hl Hp H65 Ha Hn. assert (Ipv6Allocator.low base = from_be base mod 2 ^ 64) as Hlow.
  { assert (base = slice base 0 8 ++ slice base 8 16) as Eb by (rewrite slice_app by lia; rewrite <- Hl; symmetry; apply slice_all).
    assert (0 <= from_be (slice base 8 16) < 2 ^ 64) as Hu
      by (apply (from_be_uint 8); [by apply bytes_ok_slice|rewrite len_slice; lia]).
    unfold Ipv6Allocator.low. rewrite Eb at 2. rewrite from_be_app, len_slice by lia. change (256 ^ (16 - 8)) with (2 ^ 64).
    rewrite Z.add_comm, Z.mod_add by done. symmetry. by apply Z.mod_small. }
  destruct (prefix <=? 64) eqn:E64; b2p.
  - assert (from_be base mod 2 ^ 64 = 0) as H0.
    { apply Z.mod_divide; [done|]. etransitivity; [|apply Z.mod_divide, Ha; apply Z.pow_nonzero; lia].
      exists (2 ^ (64 - prefix)). rewrite <- Z.pow_add_r by lia. f_equal. lia. }
    unfold Ipv6Allocator.new in Hn. rewrite (proj2 (Z.ltb_ge _ _)) in Hn by lia.
    replace (Z.min (128 - prefix) 63) with 63 in Hn by lia. injection Hn as <-.
    cbn [pool_capacity ipv6_pool]. unfold ipv6_top. cbn [Ipv6Allocator.base Ipv6Allocator.max_offset].
    by rewrite Hlow, H0.
  - destruct (ipv6_new base prefix Hb Hl Hp) as (a' & Ha' & _ & Hc). rewrite Hn in Ha'. injection Ha' as <-.
    apply Hc; [lia|]. rewrite Hlow. apply (aligned_fits 64); [lia|by apply Z.mod_pos_bound|].
    rewrite Z.mod_mod_divide; [done|]. exists (2 ^ (64 - (128 - prefix))). rewrite <- Z.pow_add_r by lia. f_equal. lia.
Qed.

(** ** The histories of a pool *)

(** The pools a pool [p] becomes, with the addresses handed out by then. *)
Inductive pool_run {P} `{AP : AddressPool P (list Z)} (p : P) : P -> gset (list Z) -> Prop :=
| run_fresh : pool_run p p ∅
| run_allocate a U :
    pool_run p a U ->
    pool_run p (fst (pool_allocate a)) (match snd (pool_allocate a) with Some ip => {[ip]} ∪ U | None => U end)
| run_release a U ip : pool_run p a U -> ip ∈ U -> pool_run p (pool_release a ip) (U ∖ {[ip]}).

(** The address belongs to the network [base]/[prefix], and is neither its
    first address, nor the server's, nor its last. *)
Definition in_network (width prefix : Z) (base ip : list Z) : Prop :=
  bytes_ok ip /\ 8 * len ip = width /\
  from_be ip / 2 ^ (width - prefix) = from_be base / 2 ^ (width - prefix) /\
  from_be base + 1 < from_be ip < from_be base + 2 ^ (width - prefix) - 1.

(** In every history the addresses in use are of the network; a new one is
    not in use; and only a pool that is used up refuses. *)
Definition pool_correct {P} `{AP : AddressPool P (list Z)} (p : P) (capacity width prefix : Z) (base : list Z) : Prop :=
  pool_capacity p = capacity /\
  forall a U, pool_run p a U ->
    (forall ip, ip ∈ U -> in_network width prefix base ip) /\
    match snd (pool_allocate a) with
    | Some ip => (ip ∉ U) /\ in_network width prefix base ip
    | None => Z.of_nat (size U) = capacity
    end.

Lemma pool_run_uses {P} `{AP : AddressPool P (list Z)} {L : AddressPoolLaws P (list Z)} (p a : P) U :
  pool_uses p ∅ -> pool_run p a U -> pool_uses a U /\ pool_capacity a = pool_capacity p.
Proof.
  intros Hp. induction 1 as [|a U _ [IH Ec]|a U ip _ [IH Ec] Hip]; [done| |].
  - pose proof (pool_allocate_spec a U IH) as Ha. destruct (pool_allocate a) as [a' [ip|]]; simpl in *.
    + destruct Ha as (? & _ & ?). split; [done|congruence].
    + destruct Ha as (? & _ & ?). split; [done|congruence].
  - destruct (pool_release_spec a U ip IH Hip). split; [done|congruence].
Qed.

(** What is shown of the addresses in use holds of the next one. *)
Lemma pool_correct_intro {P} `{AP : AddressPool P (list Z)} {L : AddressPoolLaws P (list Z)} (p : P) capacity w n base :
  pool_uses p ∅ -> pool_capacity p = capacity ->
  (forall a U ip, pool_run p a U -> ip ∈ U -> in_network w n base ip) -> pool_correct p capacity w n base.
Proof.
  intros Hp Hc Hin. split; [done|]. intros a U Hr. split; [intros ip; by apply (Hin a)|].
  destruct (pool_run_uses p a U Hp Hr) as [Hu Ec]. pose proof (pool_allocate_spec a U Hu) as Ha.
  pose proof (fun ip => Hin _ _ ip (run_allocate p a U Hr)) as Hnext.
  destruct (pool_allocate a) as [a' [ip|]]; simpl in *.
  - destruct Ha as (_ & ? & _). split; [done|]. apply Hnext. set_solver.
  - destruct Ha as (_ & ? & _). congruence.
Qed.

Lemma ipv4_run_fixed (p a : IpAllocator.t) U :
  pool_run p a U -> IpAllocator.base a = IpAllocator.base p /\ IpAllocator.max_offset a = IpAllocator.max_offset p.
Proof.
  induction 1 as [|a U _ [<- <-]|a U ip _ [<- <-] _]; [done| |]; simpl.
  - unfold IpAllocator.allocate. destruct (set_iter _); [|done]. by destruct (_ <=? _).
  - unfold IpAllocator.release. destruct (IpAllocator.ip_to_offset a ip); [|done]. by destruct (_ && _).
Qed.

Lemma ipv6_run_fixed (p a : Ipv6Allocator.t) U :
  pool_run p a U -> Ipv6Allocator.base a = Ipv6Allocator.base p /\ Ipv6Allocator.max_offset a = Ipv6Allocator.max_offset p.
Proof.
  induction 1 as [|a U _ [<- <-]|a U ip _ [<- <-] _]; [done| |]; simpl.
  - unfold Ipv6Allocator.allocate. destruct (set_iter _); [|done]. destruct (_ <=? _); [|done].
    by destruct (Ipv6Allocator.offset_to_ip _ _).
  - unfold Ipv6Allocator.release. destruct (Ipv6Allocator.ip_to_offset a ip); [|done]. by destruct (_ && _).
Qed.

Lemma in_network_offset w prefix base ip o :
  0 <= prefix <= w -> from_be base mod 2 ^ (w - prefix) = 0 -> bytes_ok ip -> 8 * len ip = w ->
  from_be ip = from_be base + o -> 2 <= o <= 2 ^ (w - prefix) - 2 -> in_network w prefix base ip.
Proof.
  intros Hp Ha Hb Hl E Ho. split_and!; try done; [|lia..]. rewrite E. apply aligned_block; (done || lia).
Qed.

Lemma ipv4_in_use (a : IpAllocator.t) U ip :
  pool_uses a U -> ip ∈ U ->
  bytes_ok ip /\ len ip = 4 /\
  exists o, 2 <= o <= IpAllocator.max_offset a /\ from_be ip = from_be (IpAllocator.base a) + o.
Proof.
  intros [Hw (used & Hok & ->)] (o & -> & Ho)%elem_of_map.
  pose proof (offsets_bound _ _ _ _ _ Hok Ho) as Hb. unfold IpAllocator.offset_to_ip.
  split; [apply be_bytes_ok|]. split; [apply len_be_bytes|]. exists o. split; [done|].
  destruct Hw as (Hb' & Hl' & Hm & Hs). pose proof (from_be_uint 4 _ Hb' Hl') as Hu.
  unfold wrapping_add. unfold uint in Hu. rewrite Z.mod_small by lia. apply from_be_be_bytes_4. unfold uint. lia.
Qed.

Lemma ipv6_in_use (a : Ipv6Allocator.t) U ip :
  pool_uses a U -> ip ∈ U ->
  bytes_ok ip /\ len ip = 16 /\
  exists o, 2 <= o <= Ipv6Allocator.max_offset a /\ from_be ip = from_be (Ipv6Allocator.base a) + o.
Proof.
  intros [Hw (used & Hok & ->)] (o & -> & Ho)%elem_of_map.
  pose proof (offsets_bound _ _ _ _ _ Hok Ho) as Hb. pose proof (ipv6_low a Hw) as Hu. destruct Hw as (Hb' & Hl' & _).
  unfold ipv6_at, ipv6_top, U64_MAX, uint in *. split; [apply bytes_ok_app; split; [by apply bytes_ok_slice|apply be_bytes_ok]|].
  split; [rewrite len_app, len_slice, len_be_bytes; lia|]. exists o. split; [lia|].
  assert (Ipv6Allocator.base a = slice (Ipv6Allocator.base a) 0 8 ++ slice (Ipv6Allocator.base a) 8 16) as Eb.
  { rewrite slice_app by lia. rewrite <- Hl'. symmetry. apply slice_all. }
  rewrite Eb at 3. rewrite !from_be_app, len_be_bytes, len_slice by lia.
  rewrite from_be_be_bytes_8 by (unfold uint; lia). unfold Ipv6Allocator.low. change (16 - 8) with 8. lia.
Qed.

Lemma ipv4_pool_correct base prefix :
  bytes_ok base -> len base = 4 -> 1 <= prefix <= 32 -> from_be base mod 2 ^ (32 - prefix) = 0 ->
  exists a, IpAllocator.new (E:=unit) base prefix = Ok a /\ pool_correct a (Z.max 0 (2 ^ (32 - prefix) - 3)) 32 prefix base.
Proof.
  intros Hb Hl Hp Ha. pose proof (from_be_uint 4 _ Hb Hl) as Hu. unfold uint in Hu.
  destruct (ipv4_new base prefix Hb Hl Hp) as (a & Hn & Hu0 & Hc); [apply (aligned_fits 32); (lia || done)|].
  exists a. split; [done|]. apply pool_correct_intro; [done..|]. intros a' U ip Hr Hip.
  destruct (pool_run_uses _ _ _ Hu0 Hr) as [Hu' _]. destruct (ipv4_in_use _ _ _ Hu' Hip) as (? & Hli & o & Ho & E).
  destruct (ipv4_run_fixed _ _ _ Hr) as [Eb Em]. rewrite Eb in E. rewrite Em in Ho.
  apply ipv4_new_fields in Hn as (Eb' & _ & Em'). rewrite Eb' in E. rewrite Em' in Ho.
  apply (in_network_offset _ _ _ _ o); (done || lia).
Qed.

Lemma ipv6_pool_correct base prefix :
  bytes_ok base -> len base = 16 -> 0 <= prefix <= 128 -> prefix <> 65 -> from_be base mod 2 ^ (128 - prefix) = 0 ->
  exists a, Ipv6Allocator.new (E:=unit) base prefix = Ok a /\
    pool_correct a (if prefix <=? 64 then 2 ^ 64 - 4 else Z.max 0 (2 ^ (128 - prefix) - 3)) 128 prefix base.
Proof.
  intros Hb Hl Hp H65 Ha. destruct (ipv6_new base prefix Hb Hl ltac:(lia)) as (a & Hn & Hu0 & _).
  exists a. split; [done|]. apply pool_correct_intro; [done|by apply (ipv6_new_capacity base)|]. intros a' U ip Hr Hip.
  destruct (pool_run_uses _ _ _ Hu0 Hr) as [Hu' _]. destruct (ipv6_in_use _ _ _ Hu' Hip) as (? & Hli & o & Ho & E).
  destruct (ipv6_run_fixed _ _ _ Hr) as [Eb Em]. rewrite Eb in E. rewrite Em in Ho.
  apply ipv6_new_fields in Hn as (Eb' & Em'); [|done..]. rewrite Eb' in E.
  apply (in_network_offset _ _ _ _ o); (done || lia).
Qed.

(** C23: the address pools.  A fresh IPv4 pool built from the first address of
    a network holds all its addresses but the first, the server's and the last;
    a fresh IPv6 pool does so for a prefix of 66 bits or more, and for one of 64
    bits or less holds 2^64 - 4 addresses.  Through every sequence of
    allocations and of releases of what was handed out, the addresses in use
    are addresses of the network, past the first two and before the last; a
    pool hands out an address nobody uses, and refuses only when its whole
    capacity is in use.  From every base, the first address of a network or
    not, the two allocators meet the contract of the session table. *)
Theorem address_pools base4 prefix4 base6 prefix6 :
  bytes_ok base4 -> len base4 = 4 -> 1 <= prefix4 <= 32 -> from_be base4 mod 2 ^ (32 - prefix4) = 0 ->
  bytes_ok base6 -> len base6 = 16 -> 0 <= prefix6 <= 128 -> prefix6 <> 65 ->
  from_be base6 mod 2 ^ (128 - prefix6) = 0 ->
  (exists a, IpAllocator.new (E:=unit) base4 prefix4 = Ok a /\
     pool_correct a (Z.max 0 (2 ^ (32 - prefix4) - 3)) 32 prefix4 base4) /\
  (exists a, Ipv6Allocator.new (E:=unit) base6 prefix6 = Ok a /\
     pool_correct a (if prefix6 <=? 64 then 2 ^ 64 - 4 else Z.max 0 (2 ^ (128 - prefix6) - 3)) 128 prefix6 base6) /\
  AddressPoolLaws IpAllocator.t (list Z) /\ AddressPoolLaws Ipv6Allocator.t (list Z).
Proof.
  intros. split_and!; [by apply ipv4_pool_correct|by apply ipv6_pool_correct|apply _..].
Qed.

End Pools.

(** * Examples *)

Lemma address_pools_witness :
  exists (a : IpAllocator.t) (b : Ipv6Allocator.t),
    IpAllocator.new (E:=unit) [10; 99; 0; 0] 24 = Ok a /\ pool_capacity a = 253 /\
    snd (IpAllocator.allocate a) = Some [10; 99; 0; 2] /\ in_network 32 24 [10; 99; 0; 0] [10; 99; 0; 2] /\
    Ipv6Allocator.new (E:=unit) (253 :: replicate 15 0) 64 = Ok b /\ pool_capacity b = 2 ^ 64 - 4.
Proof.
  destruct (address_pools [10; 99; 0; 0] 24 (253 :: replicate 15 0) 64)
    as ((a & Ha & Hc & Hr) & (b & Hb & Hd & _) & _);
    [by_decide|reflexivity|lia|by_decide|by_decide|reflexivity|lia|lia|by_decide|].
  exists a, b. split; [exact Ha|]. split; [exact Hc|]. injection Ha as <-.
  destruct (Hr _ _ (run_fresh _)) as [_ [_ Hin]]. split; [vm_compute; reflexivity|]. split; [exact Hin|].
  split; [exact Hb|exact Hd].
Defined.

(** [available] of a fresh /24 is one more than the pool can hand out. *)
Lemma available_overcounts :
  forall a, IpAllocator.new (E:=unit) [10; 99; 0; 0] 24 = Ok a ->
    IpAllocator.available a = 254 /\ pool_capacity a = 253.
Proof. intros a [= <-]. by vm_compute. Qed.

(** A base address that is not the network address, which the configuration
    accepts, leads out of the subnet: here 10.0.0.250/24 hands out 10.0.1.0. *)
Lemma unaligned_base_leaves_subnet :
  forall a, IpAllocator.new (E:=unit) [10; 0; 0; 250] 24 = Ok a ->
    IpAllocator.offset_to_ip a 6 = [10; 0; 1; 0] /\ 6 <= IpAllocator.max_offset a.
Proof. intros a [= <-]. vm_compute. by split. Qed.

(** With 65 bits of prefix the limit is that of a full low half, twice the
    subnet. *)
Lemma prefix_65_exceeds_subnet :
  forall a, Ipv6Allocator.new (E:=unit) (replicate 16 0) 65 = Ok a ->
    2 ^ (128 - 65) < Ipv6Allocator.max_offset a.
Proof. intros a [= <-]. by vm_compute. Qed.
