(* ===== verification/TokenBucket.v ===== *)
(** The token bucket of a session (hpn-server/src/session_manager.rs,
    [SessionRateLimiter]) and the double-precision arithmetic of its refill.

    Each operation is taken as atomic; the clock reading is an argument, in
    microseconds since the start of the server.  The product [max_bps * 2]
    aborts where it does not fit 64 bits ([burst]); [max_pps * 2] always fits,
    [max_pps] has 32. *)

From S2P Require Import Prelude.

(** * Double-precision numbers

    Non-negative numbers [mant * 2 ^ expo] with a mantissa of 53 bits.  The
    values here lie between one millionth and 2^128, far from the ends of the
    exponent range. *)

Module F64.

Record t := mk { mant : Z; expo : Z }.

(** [n / d] over [2 ^ e] as a quotient of integers. *)
Definition scaled (n d e : Z) : Z * Z := if 0 <=? e then (n, d * 2 ^ e) else (n * 2 ^ (- e), d).

(** The exponent at which the quotient has 53 bits. *)
Definition exponent (n d : Z) : Z :=
  let e := Z.log2 n - Z.log2 d - 52 in
  let '(a, b) := scaled n d e in
  if a / b <? 2 ^ 52 then e - 1 else e.

(** The number nearest to [n / d], ties to even. *)
Definition round (n d : Z) : t :=
  if n =? 0 then mk 0 0
  else
    let e := exponent n d in
    let '(a, b) := scaled n d e in
    let q := a / b in
    let r := a mod b in
    let q := if (b <? 2 * r) || ((2 * r =? b) && Z.odd q) then q + 1 else q in
    if q =? 2 ^ 53 then mk (2 ^ 52) (e + 1) else mk q e.

Definition of_u64 (n : Z) : t := round n 1.

Definition div (x y : t) : t :=
  let e := expo x - expo y in
  round (mant x * 2 ^ Z.max 0 e) (mant y * 2 ^ Z.max 0 (- e)).

Definition mul (x y : t) : t :=
  let e := expo x + expo y in
  round (mant x * mant y * 2 ^ Z.max 0 e) (2 ^ Z.max 0 (- e)).

(** [as u64]: towards zero, saturating. *)
Definition to_u64 (x : t) : Z :=
  Z.min U64_MAX (if 0 <=? expo x then mant x * 2 ^ expo x else mant x / 2 ^ (- expo x)).

End F64.

Module SessionRateLimiter.

Record t := mk {
  max_pps : Z;
  max_bps : Z;
  packet_tokens : Z;
  byte_tokens : Z;
  last_refill_us : Z;
}.

(** [max_bps * 2], two seconds' worth. *)
Definition burst {E} (max_bps : Z) : result E Z := if U64_MAX <? max_bps * 2 then Panic else Ok (max_bps * 2).

Definition new {E} (now_us max_pps max_bps : Z) : result E t :=
  let? byte_tokens := burst max_bps in
  Ok (mk max_pps max_bps (max_pps * 2) byte_tokens now_us).

Definition unlimited {E} (now_us : Z) : result E t := new now_us 0 0.

(** The tokens a rate of [max] per second earns in [elapsed_us]. *)
Definition earned (max elapsed_us : Z) : Z :=
  let elapsed_secs := F64.div (F64.of_u64 elapsed_us) (F64.of_u64 1000000) in
  F64.to_u64 (F64.mul (F64.of_u64 max) elapsed_secs).

Definition refill {E} (l : t) (now : Z) : result E t :=
  let elapsed_us := saturating_sub now (last_refill_us l) in
  if elapsed_us <? 1000 then Ok l
  else
    let filled max tokens max_burst := Z.min (saturating_add 64 tokens (earned max elapsed_us)) max_burst in
    let packets :=
      if 0 <? max_pps l then filled (max_pps l) (packet_tokens l) (max_pps l * 2) else packet_tokens l in
    let? bytes :=
      if 0 <? max_bps l then
        let? max_burst := burst (max_bps l) in
        Ok (filled (max_bps l) (byte_tokens l) max_burst)
      else Ok (byte_tokens l) in
    Ok (mk (max_pps l) (max_bps l) packets bytes now).

Definition check {E} (l : t) (now bytes : Z) : result E (t * bool) :=
  if (max_pps l =? 0) && (max_bps l =? 0) then Ok (l, true)
  else
    let? l := refill l now in
    if (0 <? max_pps l) && (packet_tokens l =? 0) then Ok (l, false)
    else
      let packet_tokens' := if 0 <? max_pps l then packet_tokens l - 1 else packet_tokens l in
      if 0 <? max_bps l then
        if bytes <=? byte_tokens l then
          Ok (mk (max_pps l) (max_bps l) packet_tokens' (byte_tokens l - bytes) (last_refill_us l), true)
        else Ok (l, false)
      else Ok (mk (max_pps l) (max_bps l) packet_tokens' (byte_tokens l) (last_refill_us l), true).

Definition is_limited (l : t) : bool := (0 <? max_pps l) || (0 <? max_bps l).

(** The burst of the limit fits. *)
Definition fits (l : t) : Prop := max_bps l * 2 <= U64_MAX.

Lemma burst_ok {E} max : max * 2 <= U64_MAX -> burst (E := E) max = Ok (max * 2).
Proof. intros H. unfold burst. by rewrite (proj2 (Z.ltb_ge _ _)). Qed.

Lemma new_fits {E} now pps bps l : new (E := E) now pps bps = Ok l -> fits l.
Proof. unfold new, burst, fits. destruct (_ <? _) eqn:E'; [done|]. b2p. by intros [= <-]. Qed.

(** The limits of a limiter stay; refilling and checking abort for a limit
    that does not fit only. *)
Lemma refill_spec {E} l now :
  match refill (E := E) l now with
  | Ok l' => max_pps l' = max_pps l /\ max_bps l' = max_bps l
  | Err _ => False
  | Panic => ~ fits l
  end.
Proof.
  unfold refill, burst, fits. destruct (_ <? 1000); [done|]. destruct (0 <? max_bps l); [|done].
  destruct (U64_MAX <? _) eqn:Eb; simpl; [b2p; lia|done].
Qed.

Lemma check_spec {E} l now bytes :
  match check (E := E) l now bytes with
  | Ok (l', _) => max_pps l' = max_pps l /\ max_bps l' = max_bps l
  | Err _ => False
  | Panic => ~ fits l
  end.
Proof.
  unfold check. destruct (_ && _); [done|]. pose proof (refill_spec (E := E) l now) as Hr.
  destruct (refill l now) as [l'| |]; simpl; [|done..]. destruct Hr as [H1 H2].
  destruct (_ && _); [done|]. destruct (0 <? max_bps l'); [destruct (bytes <=? _)|]; done.
Qed.

End SessionRateLimiter.

Lemma f64_examples :
  F64.of_u64 1000000 = F64.mk (15625 * 2 ^ 39) (-33) /\
  SessionRateLimiter.earned 100000 1500000 = 150000 /\
  SessionRateLimiter.earned 3 333333 = 0 /\ SessionRateLimiter.earned 3 1000000 = 3.
Proof. by vm_compute. Qed.

(** * Rounding

    [at_most x n d]: the number [x] is at most [n / d]. *)
Definition at_most (x : F64.t) (n d : Z) : Prop :=
  F64.mant x * 2 ^ Z.max 0 (F64.expo x) * d <= n * 2 ^ Z.max 0 (- F64.expo x).

Lemma scaled_eq n d e :
  F64.scaled n d e = (n * 2 ^ Z.max 0 (- e), d * 2 ^ Z.max 0 e).
Proof.
  unfold F64.scaled. destruct (0 <=? e) eqn:E; b2p.
  - rewrite (Z.max_l 0 (- e)), (Z.max_r 0 e) by lia. by rewrite Z.pow_0_r, Z.mul_1_r.
  - rewrite (Z.max_r 0 (- e)), (Z.max_l 0 e) by lia. by rewrite Z.pow_0_r, Z.mul_1_r.
Qed.

Lemma pow_pos e : 0 < 2 ^ Z.max 0 e.
Proof. apply Z.pow_pos_nonneg; lia. Qed.

(** Powers of the two parts of an exponent shift together. *)
Lemma pow_shift e k :
  0 <= k -> 2 ^ Z.max 0 (- (e - k)) * 2 ^ Z.max 0 e = 2 ^ Z.max 0 (- e) * 2 ^ Z.max 0 (e - k) * 2 ^ k.
Proof. intros Hk. rewrite <- !Z.pow_add_r by lia. f_equal. lia. Qed.

Lemma quotient_big n d :
  0 < n -> 0 < d ->
  let e := Z.log2 n - Z.log2 d - 52 in 2 ^ 51 * (d * 2 ^ Z.max 0 e) <= n * 2 ^ Z.max 0 (- e).
Proof.
  intros Hn Hd e. destruct (Z.log2_spec n Hn) as [Hn1 _]. destruct (Z.log2_spec d Hd) as [_ Hd2].
  pose proof (Z.log2_nonneg n). pose proof (Z.log2_nonneg d).
  assert (2 ^ 51 * 2 ^ Z.succ (Z.log2 d) * 2 ^ Z.max 0 e = 2 ^ Z.log2 n * 2 ^ Z.max 0 (- e)) as Heq.
  { rewrite <- !Z.pow_add_r by lia. f_equal. unfold e. lia. }
  pose proof (pow_pos e). pose proof (pow_pos (- e)). nia.
Qed.

Lemma exponent_spec n d :
  0 < n -> 0 < d ->
  let e := F64.exponent n d in 2 ^ 52 * (d * 2 ^ Z.max 0 e) <= n * 2 ^ Z.max 0 (- e).
Proof.
  intros Hn Hd. unfold F64.exponent. set (e := Z.log2 n - Z.log2 d - 52). cbv zeta.
  rewrite scaled_eq. pose proof (pow_pos e) as P1. pose proof (pow_pos (- e)) as P2.
  destruct (_ <? _) eqn:E; b2p.
  - pose proof (quotient_big n d Hn Hd) as Hq. fold e in Hq. cbv zeta in Hq.
    pose proof (pow_shift e 1 ltac:(lia)) as Hs.
    pose proof (pow_pos (e - 1)) as P3. pose proof (pow_pos (- (e - 1))) as P4.
    change (2 ^ 52) with (2 * 2 ^ 51). apply (Z.mul_le_mono_pos_r _ _ (2 ^ Z.max 0 e)); [done|].
    replace (n * 2 ^ Z.max 0 (- (e - 1)) * 2 ^ Z.max 0 e)
      with (n * (2 ^ Z.max 0 (- (e - 1)) * 2 ^ Z.max 0 e)) by ring.
    rewrite Hs. change (2 ^ 1) with 2. nia.
  - pose proof (Z.mul_div_le (n * 2 ^ Z.max 0 (- e)) (d * 2 ^ Z.max 0 e)). nia.
Qed.

(** Rounding adds at most one part in 2^53. *)
Lemma round_upper n d :
  0 <= n -> 0 < d -> at_most (F64.round n d) (n * (2 ^ 53 + 1)) (d * 2 ^ 53).
Proof.
  intros Hn Hd. unfold F64.round, at_most. destruct (n =? 0) eqn:E0; b2p; [subst n; simpl; lia|].
  pose proof (exponent_spec n d ltac:(lia) Hd) as He. set (e := F64.exponent n d) in *. cbv zeta in He.
  rewrite scaled_eq. set (a := n * 2 ^ Z.max 0 (- e)) in *. set (b := d * 2 ^ Z.max 0 e) in *.
  assert (0 < b) as Hb by (pose proof (pow_pos e); unfold b; nia).
  pose proof (Z.div_mod a b ltac:(lia)) as Hdm. pose proof (Z.mod_pos_bound a b Hb) as Hr.
  set (q := if _ || _ then _ else _).
  assert (2 * (q * b) <= 2 * a + b) as Hq.
  { unfold q. destruct (_ || _) eqn:Eo; [|nia].
    assert (b <= 2 * (a mod b)); [|nia].
    apply orb_true_iff in Eo as [Eo|Eo]; [b2p; lia|]. apply andb_true_iff in Eo as [Eo _]. b2p. lia. }
  assert (q * b * 2 ^ 53 <= a * (2 ^ 53 + 1)) as Hup by lia.
  assert (F64.mant (if q =? 2 ^ 53 then F64.mk (2 ^ 52) (e + 1) else F64.mk q e) *
    2 ^ Z.max 0 (F64.expo (if q =? 2 ^ 53 then F64.mk (2 ^ 52) (e + 1) else F64.mk q e)) *
    2 ^ Z.max 0 (- e) =
    q * 2 ^ Z.max 0 e *
    2 ^ Z.max 0 (- F64.expo (if q =? 2 ^ 53 then F64.mk (2 ^ 52) (e + 1) else F64.mk q e))) as Hv.
  { destruct (q =? 2 ^ 53) eqn:E; b2p; [rewrite E|simpl; ring]. simpl F64.mant. simpl F64.expo.
    pose proof (pow_shift (e + 1) 1 ltac:(lia)) as Hs. replace (e + 1 - 1) with e in Hs by lia.
    change (2 ^ 53) with (2 ^ 52 * 2). change (2 ^ 1) with 2 in Hs. nia. }
  set (x := if q =? 2 ^ 53 then _ else _) in *.
  pose proof (pow_pos (- e)) as P2. apply (Z.mul_le_mono_pos_r _ _ (2 ^ Z.max 0 (- e))); [done|].
  replace (F64.mant x * 2 ^ Z.max 0 (F64.expo x) * (d * 2 ^ 53) * 2 ^ Z.max 0 (- e))
    with (F64.mant x * 2 ^ Z.max 0 (F64.expo x) * 2 ^ Z.max 0 (- e) * (d * 2 ^ 53)) by ring.
  rewrite Hv. pose proof (pow_pos (- F64.expo x)) as P3. unfold a, b in Hup.
  replace (q * 2 ^ Z.max 0 e * 2 ^ Z.max 0 (- F64.expo x) * (d * 2 ^ 53))
    with (q * (d * 2 ^ Z.max 0 e) * 2 ^ 53 * 2 ^ Z.max 0 (- F64.expo x)) by ring.
  replace (n * (2 ^ 53 + 1) * 2 ^ Z.max 0 (- F64.expo x) * 2 ^ Z.max 0 (- e))
    with (n * 2 ^ Z.max 0 (- e) * (2 ^ 53 + 1) * 2 ^ Z.max 0 (- F64.expo x)) by ring.
  apply Z.mul_le_mono_pos_r; [done|exact Hup].
Qed.

Lemma at_most_weaken x n d n' d' c k :
  at_most x (n * c) (d * k) -> 0 < d -> 0 <= c -> 0 <= k -> 0 <= d' -> n * d' <= n' * d ->
  at_most x (n' * c) (d' * k).
Proof.
  unfold at_most. intros Hx Hd Hc Hk Hd' Hle. pose proof (pow_pos (- F64.expo x)).
  apply (Z.mul_le_mono_pos_r _ _ d); [done|].
  transitivity (n * c * 2 ^ Z.max 0 (- F64.expo x) * d'); [nia|].
  transitivity (n * d' * (c * 2 ^ Z.max 0 (- F64.expo x))); [lia|].
  transitivity (n' * d * (c * 2 ^ Z.max 0 (- F64.expo x))); [|lia].
  apply Z.mul_le_mono_nonneg_r; [nia|done].
Qed.

Lemma round_nonneg n d : 0 <= n -> 0 < d -> 0 <= F64.mant (F64.round n d).
Proof.
  intros Hn Hd. unfold F64.round. destruct (n =? 0); [done|]. rewrite scaled_eq.
  set (e := F64.exponent n d). pose proof (pow_pos e). pose proof (pow_pos (- e)).
  assert (0 <= n * 2 ^ Z.max 0 (- e) / (d * 2 ^ Z.max 0 e)) by (apply Z.div_pos; nia).
  destruct (_ || _); destruct (_ =? _); simpl; lia.
Qed.

Lemma mul_upper x y n d n' d' :
  at_most x n d -> at_most y n' d' -> 0 <= F64.mant x -> 0 <= F64.mant y ->
  0 <= n -> 0 <= n' -> 0 < d -> 0 < d' ->
  at_most (F64.mul x y) (n * n' * (2 ^ 53 + 1)) (d * d' * 2 ^ 53).
Proof.
  intros Hx Hy Mx My Hn Hn' Hd Hd'. unfold F64.mul. set (e := F64.expo x + F64.expo y).
  pose proof (pow_pos e) as P1. pose proof (pow_pos (- e)) as P2.
  refine (at_most_weaken _ _ _ _ _ _ _ (round_upper _ _ _ P2) P2 _ _ _ _); [nia|lia|lia|nia|].
  unfold at_most in Hx, Hy. pose proof (pow_pos (F64.expo x)) as X1. pose proof (pow_pos (- F64.expo x)) as X2.
  pose proof (pow_pos (F64.expo y)) as Y1. pose proof (pow_pos (- F64.expo y)) as Y2.
  assert (2 ^ Z.max 0 e * (2 ^ Z.max 0 (- F64.expo x) * 2 ^ Z.max 0 (- F64.expo y)) =
          2 ^ Z.max 0 (- e) * (2 ^ Z.max 0 (F64.expo x) * 2 ^ Z.max 0 (F64.expo y))) as Hp.
  { rewrite <- !Z.pow_add_r by lia. f_equal. unfold e. lia. }
  assert (0 <= F64.mant x * 2 ^ Z.max 0 (F64.expo x) * d) as Hx0 by nia.
  assert (0 <= F64.mant y * 2 ^ Z.max 0 (F64.expo y) * d') as Hy0 by nia.
  pose proof (Z.mul_le_mono_nonneg _ _ _ _ Hx0 Hx Hy0 Hy) as Hxy.
  set (xp := 2 ^ Z.max 0 (F64.expo x)) in *. set (xm := 2 ^ Z.max 0 (- F64.expo x)) in *.
  set (yp := 2 ^ Z.max 0 (F64.expo y)) in *. set (ym := 2 ^ Z.max 0 (- F64.expo y)) in *.
  set (ep := 2 ^ Z.max 0 e) in *. set (em := 2 ^ Z.max 0 (- e)) in *.
  apply (Z.mul_le_mono_pos_r _ _ (xp * yp)); [nia|].
  replace (F64.mant x * F64.mant y * ep * (d * d') * (xp * yp))
    with (F64.mant x * xp * d * (F64.mant y * yp * d') * ep) by ring.
  replace (n * n' * em * (xp * yp)) with (n * n' * (em * (xp * yp))) by ring.
  rewrite <- Hp. replace (n * n' * (ep * (xm * ym))) with (n * xm * (n' * ym) * ep) by ring.
  apply Z.mul_le_mono_nonneg_r; [lia|exact Hxy].
Qed.

Lemma div_upper x n d :
  at_most x n d -> 0 <= F64.mant x -> 0 < d ->
  at_most (F64.div x (F64.of_u64 1000000)) (n * (2 ^ 53 + 1)) (d * 1000000 * 2 ^ 53).
Proof.
  intros Hx Mx Hd. rewrite (proj1 f64_examples). unfold F64.div. cbn [F64.mant F64.expo].
  set (e := F64.expo x - -33). pose proof (pow_pos e) as P1. pose proof (pow_pos (- e)) as P2.
  refine (at_most_weaken _ _ _ _ _ _ _ (round_upper _ _ _ _) _ _ _ _ _); [nia|nia|nia|lia|lia|nia|].
  unfold at_most in Hx. pose proof (pow_pos (F64.expo x)) as X1. pose proof (pow_pos (- F64.expo x)) as X2.
  pose proof (pow_shift e 33 ltac:(lia)) as Hs. replace (e - 33) with (F64.expo x) in Hs by lia.
  apply (Z.mul_le_mono_pos_r _ _ (2 ^ Z.max 0 (F64.expo x))); [done|].
  transitivity (F64.mant x * 2 ^ Z.max 0 (F64.expo x) * d * (2 ^ Z.max 0 e * 1000000)); [lia|].
  transitivity (n * 2 ^ Z.max 0 (- F64.expo x) * (2 ^ Z.max 0 e * 1000000));
    [apply Z.mul_le_mono_nonneg_r; [lia|exact Hx]|].
  replace (n * 2 ^ Z.max 0 (- F64.expo x) * (2 ^ Z.max 0 e * 1000000))
    with (n * (2 ^ Z.max 0 (- F64.expo x) * 2 ^ Z.max 0 e) * 1000000) by ring.
  rewrite Hs. lia.
Qed.

Lemma to_u64_upper x n d :
  at_most x n d -> 0 <= F64.mant x -> 0 < d -> 0 <= F64.to_u64 x /\ F64.to_u64 x * d <= n.
Proof.
  unfold at_most, F64.to_u64. intros Hx Mx Hd. set (v := if 0 <=? F64.expo x then _ else _).
  assert (0 <= v /\ v * 2 ^ Z.max 0 (- F64.expo x) <= F64.mant x * 2 ^ Z.max 0 (F64.expo x)) as [Hv0 Hv].
  { unfold v. destruct (0 <=? F64.expo x) eqn:E; b2p.
    - rewrite (Z.max_l 0 (- F64.expo x)), (Z.max_r 0 (F64.expo x)) by lia.
      split; [apply Z.mul_nonneg_nonneg; [done|by apply Z.pow_nonneg]|by rewrite Z.pow_0_r, Z.mul_1_r].
    - rewrite (Z.max_r 0 (- F64.expo x)), (Z.max_l 0 (F64.expo x)) by lia.
      pose proof (Z.pow_pos_nonneg 2 (- F64.expo x) ltac:(lia) ltac:(lia)) as Hp.
      split; [by apply Z.div_pos|]. rewrite Z.pow_0_r, Z.mul_1_r, Z.mul_comm. by apply Z.mul_div_le. }
  pose proof (pow_pos (- F64.expo x)) as Hp. split; [unfold U64_MAX; lia|].
  transitivity (v * d); [apply Z.mul_le_mono_nonneg_r; [lia|apply Z.le_min_r]|].
  apply (Z.mul_le_mono_pos_r _ _ (2 ^ Z.max 0 (- F64.expo x))); [done|].
  replace (v * d * 2 ^ Z.max 0 (- F64.expo x)) with (v * 2 ^ Z.max 0 (- F64.expo x) * d) by ring.
  etransitivity; [apply Z.mul_le_mono_nonneg_r; [lia|exact Hv]|exact Hx].
Qed.

(** Four roundings are less than one part in 2^50. *)
Lemma four_roundings v k :
  0 <= k -> v * (1000000 * 2 ^ 212) <= k * (2 ^ 53 + 1) ^ 4 ->
  v * (1000000 * 2 ^ 50) <= k * (2 ^ 50 + 1).
Proof.
  intros Hk Hv. apply (Z.mul_le_mono_pos_r _ _ (2 ^ 162)); [done|].
  replace (v * (1000000 * 2 ^ 50) * 2 ^ 162) with (v * (1000000 * 2 ^ 212)) by ring.
  etransitivity; [exact Hv|]. rewrite <- Z.mul_assoc. by apply Z.mul_le_mono_nonneg_l.
Qed.

(** The tokens earned exceed the exact share by less than one part in 2^50. *)
Lemma earned_upper max us :
  0 <= max -> 0 <= us ->
  0 <= SessionRateLimiter.earned max us /\
  SessionRateLimiter.earned max us * (1000000 * 2 ^ 50) <= max * us * (2 ^ 50 + 1).
Proof.
  intros Hm Hu. unfold SessionRateLimiter.earned.
  pose proof (round_upper us 1 Hu ltac:(lia)) as H1. fold (F64.of_u64 us) in H1.
  pose proof (round_nonneg us 1 Hu ltac:(lia)) as M1. fold (F64.of_u64 us) in M1.
  pose proof (div_upper _ _ _ H1 M1 ltac:(lia)) as H2.
  pose proof (round_upper max 1 Hm ltac:(lia)) as H3. fold (F64.of_u64 max) in H3.
  pose proof (round_nonneg max 1 Hm ltac:(lia)) as M3. fold (F64.of_u64 max) in M3.
  set (s := F64.div _ _) in *.
  assert (0 <= F64.mant s) as Ms.
  { unfold s, F64.div. apply round_nonneg; rewrite ?(proj1 f64_examples); cbn [F64.mant F64.expo].
    - apply Z.mul_nonneg_nonneg; [done|apply Z.lt_le_incl, pow_pos].
    - apply Z.mul_pos_pos; [done|apply pow_pos]. }
  pose proof (mul_upper _ _ _ _ _ _ H3 H2 M3 Ms) as H4.
  specialize (H4 ltac:(lia) ltac:(lia) ltac:(lia) ltac:(lia)).
  assert (0 <= F64.mant (F64.mul (F64.of_u64 max) s)) as Mx.
  { unfold F64.mul. apply round_nonneg; [|apply pow_pos].
    apply Z.mul_nonneg_nonneg; [by apply Z.mul_nonneg_nonneg|apply Z.lt_le_incl, pow_pos]. }
  destruct (to_u64_upper _ _ _ H4 Mx ltac:(lia)) as [H0 Hle]. split; [done|].
  apply four_roundings; [lia|]. etransitivity; [|etransitivity; [exact Hle|]].
  - apply Z.eq_le_incl. ring.
  - apply Z.eq_le_incl. ring.
Qed.

(** * The bound on the traffic

    [run pps bps t0 l p b T]: a limiter created at [t0] is in state [l] at
    [T] after it let [p] packets with [b] bytes through. *)
Inductive run (pps bps t0 : Z) : SessionRateLimiter.t -> Z -> Z -> Z -> Prop :=
  | run_new l : SessionRateLimiter.new (E := Empty_set) t0 pps bps = Ok l -> run pps bps t0 l 0 0 t0
  | run_check l p b T now bytes l' (ok : bool) :
      run pps bps t0 l p b T -> T <= now -> 0 <= bytes ->
      SessionRateLimiter.check (E := Empty_set) l now bytes = Ok (l', ok) ->
      run pps bps t0 l' (if ok then p + 1 else p) (if ok then b + bytes else b) now.

(** What was used and what is left stay below the burst and the share of the
    time up to the last refill. *)
Definition within_rate (max t0 last tokens used : Z) : Prop :=
  0 <= tokens <= max * 2 /\
  (used + tokens) * (1000000 * 2 ^ 50) <=
    max * 2 * (1000000 * 2 ^ 50) + max * (last - t0) * (2 ^ 50 + 1).

Lemma within_rate_refill max t0 last tokens used now :
  0 < max < 2 ^ 63 -> t0 <= last <= now -> within_rate max t0 last tokens used ->
  within_rate max t0 now
    (Z.min (saturating_add 64 tokens (SessionRateLimiter.earned max (now - last))) (max * 2)) used.
Proof.
  intros Hm HT [Ht Hu]. destruct (earned_upper max (now - last)) as [He Hb]; [lia|lia|].
  unfold within_rate, saturating_add.
  generalize dependent (SessionRateLimiter.earned max (now - last)). intros e He Hb.
  split; [lia|]. rewrite !Z.mul_sub_distr_l in *. lia.
Qed.

Lemma within_rate_use max t0 last tokens used n :
  0 <= n <= tokens -> within_rate max t0 last tokens used -> within_rate max t0 last (tokens - n) (used + n).
Proof. intros Hn [Ht Hu]. split; [lia|]. replace (used + n + (tokens - n)) with (used + tokens) by lia. done. Qed.

(** The invariant of a limiter: each limit that is set is kept. *)
Record kept (pps bps t0 : Z) (l : SessionRateLimiter.t) (p b T : Z) : Prop := {
  kept_pps : SessionRateLimiter.max_pps l = pps;
  kept_bps : SessionRateLimiter.max_bps l = bps;
  kept_time : t0 <= SessionRateLimiter.last_refill_us l <= T;
  kept_packets : 0 < pps ->
    within_rate pps t0 (SessionRateLimiter.last_refill_us l) (SessionRateLimiter.packet_tokens l) p;
  kept_bytes : 0 < bps ->
    within_rate bps t0 (SessionRateLimiter.last_refill_us l) (SessionRateLimiter.byte_tokens l) b;
}.

Lemma kept_refill {E} pps bps t0 l p b T now l' :
  0 <= pps < 2 ^ 32 -> 0 <= bps < 2 ^ 63 -> T <= now -> SessionRateLimiter.refill (E := E) l now = Ok l' ->
  kept pps bps t0 l p b T -> kept pps bps t0 l' p b now.
Proof.
  intros Hp Hb HT Hr [K1 K2 K3 K4 K5]. unfold SessionRateLimiter.refill, saturating_sub in Hr.
  destruct (_ <? 1000) eqn:E1; b2p; [injection Hr as <-; split; try done; lia|]. rewrite Z.max_r in E1, Hr by lia.
  rewrite K1, K2 in Hr. destruct (0 <? bps) eqn:E2; b2p.
  - rewrite SessionRateLimiter.burst_ok in Hr by (unfold U64_MAX; lia). injection Hr as <-.
    split; simpl; try done; [lia|intros Hpos|intros Hpos]; [rewrite (proj2 (Z.ltb_lt _ _)) by done|];
      apply within_rate_refill; lia || auto.
  - injection Hr as <-. split; simpl; try done; [lia|intros Hpos|lia].
    rewrite (proj2 (Z.ltb_lt _ _)) by done. apply within_rate_refill; lia || auto.
Qed.

Lemma kept_check {E} pps bps t0 l p b T now bytes l' (ok : bool) :
  0 <= pps < 2 ^ 32 -> 0 <= bps < 2 ^ 63 -> T <= now -> 0 <= bytes ->
  SessionRateLimiter.check (E := E) l now bytes = Ok (l', ok) -> kept pps bps t0 l p b T ->
  kept pps bps t0 l' (if ok then p + 1 else p) (if ok then b + bytes else b) now.
Proof.
  intros Hp Hb HT Hn Hc K. unfold SessionRateLimiter.check in Hc. destruct (_ && _) eqn:E0.
  { injection Hc as <- <-. apply andb_true_iff in E0 as [E1 E2]. b2p. destruct K as [K1 K2 K3 K4 K5]. split; try done; lia. }
  destruct (SessionRateLimiter.refill l now) as [l1| |] eqn:Hr; [|done..]. cbn [rbind] in Hc.
  pose proof (kept_refill _ _ _ _ _ _ _ _ _ Hp Hb HT Hr K) as [K1 K2 K3 K4 K5]. rewrite K1, K2 in Hc.
  destruct ((0 <? pps) && _) eqn:E1; [by injection Hc as <- <-|]. apply andb_false_iff in E1.
  assert (0 < pps -> 1 <= SessionRateLimiter.packet_tokens l1) as H1.
  { intros Hpos. destruct (K4 Hpos) as [Ht _]. destruct E1 as [E1|E1]; b2p; lia. }
  assert (0 < pps -> within_rate pps t0 (SessionRateLimiter.last_refill_us l1)
    (SessionRateLimiter.packet_tokens l1 - 1) (p + 1)) as Hpk.
  { intros Hpos. apply within_rate_use; [specialize (H1 Hpos); lia|by apply K4]. }
  destruct (0 <? bps) eqn:E2; b2p; [destruct (bytes <=? _) eqn:E3; b2p|]; injection Hc as <- <-; [|done|];
    (split; try done; simpl; intros Hpos).
  - rewrite (proj2 (Z.ltb_lt _ _)) by done. by apply Hpk.
  - apply within_rate_use; [lia|by apply K5].
  - rewrite (proj2 (Z.ltb_lt _ _)) by done. by apply Hpk.
  - lia.
Qed.

Lemma run_kept pps bps t0 l p b T :
  0 <= pps < 2 ^ 32 -> 0 <= bps < 2 ^ 63 -> run pps bps t0 l p b T -> kept pps bps t0 l p b T.
Proof.
  intros Hp Hb. induction 1 as [l Hl|l p b T now bytes l' ok Hr IH HT Hn Hc].
  - unfold SessionRateLimiter.new in Hl. rewrite SessionRateLimiter.burst_ok in Hl by (unfold U64_MAX; lia).
    injection Hl as <-. split; try done; cbn [SessionRateLimiter.last_refill_us
      SessionRateLimiter.packet_tokens SessionRateLimiter.byte_tokens]; try lia;
      intros Hpos; (split; [lia|rewrite Z.sub_diag; lia]).
  - by apply (kept_check (E := Empty_set) pps bps t0 l p b T now bytes).
Qed.

(** What passed up to time [T] is at most two seconds' worth plus the share of
    the elapsed time. *)
Definition at_rate (max elapsed used : Z) : Prop :=
  used * (1000000 * 2 ^ 50) <= max * 2 * (1000000 * 2 ^ 50) + max * elapsed * (2 ^ 50 + 1).

Lemma kept_at_rate pps bps t0 l p b T :
  0 <= pps -> 0 <= bps -> kept pps bps t0 l p b T ->
  (0 < pps -> at_rate pps (T - t0) p) /\ (0 < bps -> at_rate bps (T - t0) b).
Proof.
  intros Hp Hb [K1 K2 K3 K4 K5]. unfold at_rate. split.
  - intros Hpos. destruct (K4 Hpos) as [Ht Hu]. nia.
  - intros Hpos. destruct (K5 Hpos) as [Ht Hu]. nia.
Qed.

Lemma unlimited_passes pps bps t0 l p b T now bytes :
  kept pps bps t0 l p b T -> pps = 0 -> bps = 0 -> SessionRateLimiter.check (E := Empty_set) l now bytes = Ok (l, true).
Proof. intros [K1 K2 _ _ _] -> ->. unfold SessionRateLimiter.check. by rewrite K1, K2. Qed.
