(* ===== verification/SessionManager.v ===== *)
(** The server's session table (hpn-server/src/session_manager.rs).

    The concurrent maps are finite maps and every method runs without
    interruption; SessionThreads.v takes the methods apart into the atomic
    operations they are made of.  Clock readings are arguments:
    milliseconds, microseconds and an instant since the start of the server.
    The lifecycle callback is the list of events it received. *)

From S2P Require Import Prelude Types Net Aead Keys Kdf Session AddressPool TokenBucket.

Module ServerError.

Inductive t :=
  | Config (m : string)
  | Io
  | Protocol (e : ProtocolError.t)
  | Crypto (e : CryptoError.t)
  | Tun (m : string)
  | Session (m : string)
  | IpAllocation (m : string)
  | Nat (m : string)
  | Internal (m : string)
  | Shutdown.

End ServerError.

Definition DEFAULT_SESSION_RATE_LIMIT_PPS : Z := 100000.
Definition DEFAULT_SESSION_RATE_LIMIT_BPS : Z := 125000000.

(** The clock readings an operation makes. *)
Record clock := mk_clock { now_ms : Z; now_us : Z; now : Z }.

Module ClientSession.

Section WithRing.
Context {R : RingAead}.

Record t := mk {
  session : Session.t;
  client_addr : SocketAddr.t;
  tunnel_ip : list Z;
  tunnel_ipv6 : option (list Z);
  security_level : SecurityLevel.t;
  last_activity_ms : Z;
  created_at : Z;
  bytes_sent : Z;
  bytes_received : Z;
  src_mismatch_count : Z;
  rate_limiter : SessionRateLimiter.t;
}.

Definition with_rate_limit {E} (c : clock) (session : Session.t) (client_addr : SocketAddr.t)
    (tunnel_ip : list Z) (tunnel_ipv6 : option (list Z)) (security_level : SecurityLevel.t)
    (max_pps max_bps : Z) : result E t :=
  let? rate_limiter := SessionRateLimiter.new (now_us c) max_pps max_bps in
  Ok (mk session client_addr tunnel_ip tunnel_ipv6 security_level (now_ms c) (now c) 0 0 0 rate_limiter).

Definition new_with_level {E} (c : clock) (session : Session.t) (client_addr : SocketAddr.t)
    (tunnel_ip : list Z) (security_level : SecurityLevel.t) : result E t :=
  with_rate_limit c session client_addr tunnel_ip None security_level
    DEFAULT_SESSION_RATE_LIMIT_PPS DEFAULT_SESSION_RATE_LIMIT_BPS.

Definition new {E} (c : clock) (session : Session.t) (client_addr : SocketAddr.t) (tunnel_ip : list Z)
    : result E t :=
  new_with_level c session client_addr tunnel_ip SecurityLevel.default.

Definition new_dual_stack_with_level {E} (c : clock) (session : Session.t) (client_addr : SocketAddr.t)
    (tunnel_ip tunnel_ipv6 : list Z) (security_level : SecurityLevel.t) : result E t :=
  with_rate_limit c session client_addr tunnel_ip (Some tunnel_ipv6) security_level
    DEFAULT_SESSION_RATE_LIMIT_PPS DEFAULT_SESSION_RATE_LIMIT_BPS.

Definition new_dual_stack {E} (c : clock) (session : Session.t) (client_addr : SocketAddr.t)
    (tunnel_ip tunnel_ipv6 : list Z) : result E t :=
  new_dual_stack_with_level c session client_addr tunnel_ip tunnel_ipv6 SecurityLevel.default.

Definition touch (s : t) (now_ms : Z) : t :=
  mk (session s) (client_addr s) (tunnel_ip s) (tunnel_ipv6 s) (security_level s) now_ms
    (created_at s) (bytes_sent s) (bytes_received s) (src_mismatch_count s) (rate_limiter s).

Definition add_bytes_received (s : t) (bytes : Z) : t :=
  mk (session s) (client_addr s) (tunnel_ip s) (tunnel_ipv6 s) (security_level s)
    (last_activity_ms s) (created_at s) (bytes_sent s) (wrapping_add 64 (bytes_received s) bytes)
    (src_mismatch_count s) (rate_limiter s).

Definition add_bytes_sent (s : t) (bytes : Z) : t :=
  mk (session s) (client_addr s) (tunnel_ip s) (tunnel_ipv6 s) (security_level s)
    (last_activity_ms s) (created_at s) (wrapping_add 64 (bytes_sent s) bytes) (bytes_received s)
    (src_mismatch_count s) (rate_limiter s).

(** [timeout] in milliseconds. *)
Definition is_expired (s : t) (now_ms timeout_ms : Z) : bool :=
  timeout_ms <? saturating_sub now_ms (last_activity_ms s).

Definition duration (s : t) (now : Z) : Z := saturating_sub now (created_at s).

(** The start of the server is instant zero. *)
Definition last_activity (s : t) : Z := last_activity_ms s * NANOS_PER_MILLI.

(** [fetch_add(1) + 1]: the counter wraps, the sum that is returned does not
    fit 32 bits after 2^32 - 1 packets. *)
Definition increment_src_mismatch {E} (s : t) : t * result E Z :=
  let n := src_mismatch_count s in
  (mk (session s) (client_addr s) (tunnel_ip s) (tunnel_ipv6 s) (security_level s)
     (last_activity_ms s) (created_at s) (bytes_sent s) (bytes_received s) (wrapping_add 32 n 1)
     (rate_limiter s),
   if U32_MAX <? n + 1 then Panic else Ok (n + 1)).

Definition set_rate_limiter (s : t) (l : SessionRateLimiter.t) : t :=
  mk (session s) (client_addr s) (tunnel_ip s) (tunnel_ipv6 s) (security_level s)
    (last_activity_ms s) (created_at s) (bytes_sent s) (bytes_received s) (src_mismatch_count s) l.

Definition check_rate_limit {E} (s : t) (now_us bytes : Z) : result E (t * bool) :=
  let? (l, ok) := SessionRateLimiter.check (rate_limiter s) now_us bytes in
  Ok (set_rate_limiter s l, ok).

Definition is_rate_limited (s : t) : bool := SessionRateLimiter.is_limited (rate_limiter s).

Definition set_client_addr (s : t) (client_addr : SocketAddr.t) : t :=
  mk (session s) client_addr (tunnel_ip s) (tunnel_ipv6 s) (security_level s)
    (last_activity_ms s) (created_at s) (bytes_sent s) (bytes_received s) (src_mismatch_count s)
    (rate_limiter s).

End WithRing.

End ClientSession.

Module SessionLifecycleEvent.
Inductive t := Created (id : Z) | Removed (id : Z).
End SessionLifecycleEvent.

Module SessionManager.

Section WithRing.
Context {R : RingAead}.

Record t := mk {
  sessions : gmap Z ClientSession.t;
  ip_to_session : gmap (list Z) Z;
  ipv6_to_session : gmap (list Z) Z;
  ip_allocator : IpAllocator.t;
  ipv6_allocator : option Ipv6Allocator.t;
  server_ip : list Z;
  server_ipv6 : option (list Z);
  session_timeout : Z;
  max_sessions : Z;
  session_count : Z;
  session_rate_limit_pps : Z;
  session_rate_limit_bps : Z;
  lifecycle_cb : option (list SessionLifecycleEvent.t);
}.

Definition new {E} (base_ip : list Z) (prefix : Z) (server_ip : list Z) (session_timeout max_sessions : Z)
    : result E t :=
  let? ip_allocator := IpAllocator.new base_ip prefix in
  Ok (mk ∅ ∅ ∅ ip_allocator None server_ip None session_timeout max_sessions 0
        DEFAULT_SESSION_RATE_LIMIT_PPS DEFAULT_SESSION_RATE_LIMIT_BPS None).

Definition new_dual_stack {E} (base_ip : list Z) (prefix : Z) (server_ip base_ipv6 : list Z)
    (prefix_v6 : Z) (server_ipv6 : list Z) (session_timeout max_sessions : Z) : result E t :=
  let? ip_allocator := IpAllocator.new base_ip prefix in
  let? ipv6_allocator := Ipv6Allocator.new base_ipv6 prefix_v6 in
  Ok (mk ∅ ∅ ∅ ip_allocator (Some ipv6_allocator) server_ip (Some server_ipv6) session_timeout
        max_sessions 0 DEFAULT_SESSION_RATE_LIMIT_PPS DEFAULT_SESSION_RATE_LIMIT_BPS None).

(** A registered callback starts with no events. *)
Definition set_lifecycle_callback (s : t) : t :=
  mk (sessions s) (ip_to_session s) (ipv6_to_session s) (ip_allocator s) (ipv6_allocator s)
    (server_ip s) (server_ipv6 s) (session_timeout s) (max_sessions s) (session_count s)
    (session_rate_limit_pps s) (session_rate_limit_bps s) (Some []).

Definition emit_lifecycle (s : t) (event : SessionLifecycleEvent.t) : t :=
  mk (sessions s) (ip_to_session s) (ipv6_to_session s) (ip_allocator s) (ipv6_allocator s)
    (server_ip s) (server_ipv6 s) (session_timeout s) (max_sessions s) (session_count s)
    (session_rate_limit_pps s) (session_rate_limit_bps s)
    (option_map (fun events => events ++ [event]) (lifecycle_cb s)).

Definition with_rate_limits (s : t) (pps bps : Z) : t :=
  mk (sessions s) (ip_to_session s) (ipv6_to_session s) (ip_allocator s) (ipv6_allocator s)
    (server_ip s) (server_ipv6 s) (session_timeout s) (max_sessions s) (session_count s) pps bps
    (lifecycle_cb s).

Definition has_ipv6 (s : t) : bool := match ipv6_allocator s with Some _ => true | None => false end.

Definition ipv6_prefix (s : t) : option Z := option_map Ipv6Allocator.prefix (ipv6_allocator s).

Definition set_pools (s : t) (a4 : IpAllocator.t) (a6 : option Ipv6Allocator.t) : t :=
  mk (sessions s) (ip_to_session s) (ipv6_to_session s) a4 a6
    (server_ip s) (server_ipv6 s) (session_timeout s) (max_sessions s) (session_count s)
    (session_rate_limit_pps s) (session_rate_limit_bps s) (lifecycle_cb s).

Definition set_count (s : t) (n : Z) : t :=
  mk (sessions s) (ip_to_session s) (ipv6_to_session s) (ip_allocator s) (ipv6_allocator s)
    (server_ip s) (server_ipv6 s) (session_timeout s) (max_sessions s) n
    (session_rate_limit_pps s) (session_rate_limit_bps s) (lifecycle_cb s).

(** Taking a session out of the maps: the session, its two addresses, the
    slot, and the event. *)
Definition drop_session (s : t) (session_id : Z) (old : ClientSession.t) : t :=
  let s :=
    mk (delete session_id (sessions s)) (delete (ClientSession.tunnel_ip old) (ip_to_session s))
      (match ClientSession.tunnel_ipv6 old with
       | Some ipv6 => delete ipv6 (ipv6_to_session s) | None => ipv6_to_session s end)
      (IpAllocator.release (ip_allocator s) (ClientSession.tunnel_ip old))
      (match ClientSession.tunnel_ipv6 old, ipv6_allocator s with
       | Some ipv6, Some allocator => Some (Ipv6Allocator.release allocator ipv6)
       | _, allocator => allocator
       end)
      (server_ip s) (server_ipv6 s) (session_timeout s) (max_sessions s)
      (saturating_sub (session_count s) 1)
      (session_rate_limit_pps s) (session_rate_limit_bps s) (lifecycle_cb s) in
  emit_lifecycle s (SessionLifecycleEvent.Removed session_id).

Definition remove_session (s : t) (session_id : Z) : t * option ClientSession.t :=
  match sessions s !! session_id with
  | Some old => (drop_session s session_id old, Some old)
  | None => (s, None)
  end.

Definition insert_session (s : t) (session_id : Z) (c : ClientSession.t) : t :=
  let s :=
    mk (<[session_id := c]> (sessions s)) (<[ClientSession.tunnel_ip c := session_id]> (ip_to_session s))
      (match ClientSession.tunnel_ipv6 c with
       | Some ipv6 => <[ipv6 := session_id]> (ipv6_to_session s) | None => ipv6_to_session s end)
      (ip_allocator s) (ipv6_allocator s) (server_ip s) (server_ipv6 s) (session_timeout s)
      (max_sessions s) (session_count s) (session_rate_limit_pps s) (session_rate_limit_bps s)
      (lifecycle_cb s) in
  emit_lifecycle s (SessionLifecycleEvent.Created session_id).

Section Allocation.
Context {I : SetIter Z}.

(** Without a concurrent call; its atomic operations are those of
    SessionThreads.v. *)
Definition create_session_dual_stack_with_level (s : t) (c : clock) (session : Session.t)
    (client_addr : SocketAddr.t) (security_level : SecurityLevel.t)
    : t * result ServerError.t (list Z * option (list Z)) :=
  let session_id := Session.session_id session in
  let s := fst (remove_session s session_id) in
  let prev_count := session_count s in
  if max_sessions s <=? prev_count then (s, Err (ServerError.Session "max sessions reached"))
  else
    let s := set_count s (prev_count + 1) in
    let unreserve s := set_count s (session_count s - 1) in
    let '(a4, ipv4_result) := IpAllocator.allocate (ip_allocator s) in
    let s := set_pools s a4 (ipv6_allocator s) in
    match ipv4_result with
    | None => (unreserve s, Err (ServerError.IpAllocation "no IPv4 addresses available"))
    | Some tunnel_ip =>
        let '(a6, ipv6_result) :=
          match ipv6_allocator s with
          | Some allocator =>
              let '(a6, r) := Ipv6Allocator.allocate allocator in (Some a6, Some r)
          | None => (None, None)
          end in
        let s := set_pools s (ip_allocator s) a6 in
        let finish tunnel_ipv6 :=
          match ClientSession.with_rate_limit c session client_addr tunnel_ip tunnel_ipv6 security_level
                  (session_rate_limit_pps s) (session_rate_limit_bps s) with
          | Ok client_session => (insert_session s session_id client_session, Ok (tunnel_ip, tunnel_ipv6))
          | Err e => (s, Err e)
          | Panic => (s, Panic)
          end in
        match ipv6_result with
        | Some (Some ip) => finish (Some ip)
        | Some None =>
            let s := set_pools s (IpAllocator.release (ip_allocator s) tunnel_ip) (ipv6_allocator s) in
            (unreserve s, Err (ServerError.IpAllocation "no IPv6 addresses available"))
        | None => finish None
        end
    end.

Definition create_session_dual_stack (s : t) (c : clock) (session : Session.t)
    (client_addr : SocketAddr.t) : t * result ServerError.t (list Z * option (list Z)) :=
  create_session_dual_stack_with_level s c session client_addr SecurityLevel.default.

Definition create_session_with_level (s : t) (c : clock) (session : Session.t)
    (client_addr : SocketAddr.t) (security_level : SecurityLevel.t)
    : t * result ServerError.t (list Z) :=
  let '(s, r) := create_session_dual_stack_with_level s c session client_addr security_level in
  (s, let? (ip, _) := r in Ok ip).

Definition create_session (s : t) (c : clock) (session : Session.t) (client_addr : SocketAddr.t)
    : t * result ServerError.t (list Z) :=
  create_session_with_level s c session client_addr SecurityLevel.default.

End Allocation.

Definition get_session (s : t) (session_id : Z) : option ClientSession.t := sessions s !! session_id.

Definition get_session_by_ip (s : t) (ip : list Z) : option Z := ip_to_session s !! ip.

Definition get_session_by_ipv6 (s : t) (ip : list Z) : option Z := ipv6_to_session s !! ip.

Definition get_session_and_addr_by_ip (s : t) (ip : list Z) : option (Z * SocketAddr.t) :=
  match ip_to_session s !! ip with
  | None => None
  | Some session_id =>
      match sessions s !! session_id with
      | None => None
      | Some session => Some (session_id, ClientSession.client_addr session)
      end
  end.

Definition get_session_and_addr_by_ipv6 (s : t) (ip : list Z) : option (Z * SocketAddr.t) :=
  match ipv6_to_session s !! ip with
  | None => None
  | Some session_id =>
      match sessions s !! session_id with
      | None => None
      | Some session => Some (session_id, ClientSession.client_addr session)
      end
  end.

(** [now_ms id] is the reading made for session [id]. *)
Definition cleanup_expired {O : HashIter Z ClientSession.t} (s : t) (now_ms : Z -> Z) : t * list Z :=
  let expired :=
    fst <$> filter (fun kv => ClientSession.is_expired (snd kv) (now_ms (fst kv)) (session_timeout s) = true)
              (hash_iter (sessions s)) in
  (foldl (fun s session_id => fst (remove_session s session_id)) s expired, expired).

Definition netmask {E} (s : t) : result E (list Z) := IpAllocator.netmask (ip_allocator s).

Definition prefix_len (s : t) : Z := IpAllocator.prefix (ip_allocator s).

Definition session_ids {O : HashIter Z ClientSession.t} (s : t) : list Z :=
  fst <$> hash_iter (sessions s).

Definition update_client_addr (s : t) (session_id : Z) (new_addr : SocketAddr.t) : t :=
  match sessions s !! session_id with
  | Some session =>
      mk (<[session_id := ClientSession.set_client_addr session new_addr]> (sessions s))
        (ip_to_session s) (ipv6_to_session s) (ip_allocator s) (ipv6_allocator s)
        (server_ip s) (server_ipv6 s) (session_timeout s) (max_sessions s) (session_count s)
        (session_rate_limit_pps s) (session_rate_limit_bps s) (lifecycle_cb s)
  | None => s
  end.

End WithRing.

End SessionManager.

(** * The invariant *)

Section Invariant.
Context {R : RingAead} {I : SetIter Z}.
Import SessionManager.

(** What an observer of the events takes the live sessions to be. *)
Definition observed (events : list SessionLifecycleEvent.t) : gset Z :=
  foldl (fun ids e =>
    match e with
    | SessionLifecycleEvent.Created id => {[id]} ∪ ids
    | SessionLifecycleEvent.Removed id => ids ∖ {[id]}
    end) ∅ events.

(** An index by address lists exactly the sessions with that address. *)
Definition indexes (index : gmap (list Z) Z) (m : gmap Z ClientSession.t)
    (address : ClientSession.t -> option (list Z)) : Prop :=
  forall ip id, index !! ip = Some id <-> exists c, m !! id = Some c /\ address c = Some ip.

Definition v4 (c : ClientSession.t) : option (list Z) := Some (ClientSession.tunnel_ip c).

(** A new session can get a limiter with the limit of the manager. *)
Definition rate_fits (s : t) : Prop := session_rate_limit_bps s * 2 <= U64_MAX.

Record inv (s : t) : Prop := {
  inv_count : session_count s = Z.of_nat (size (sessions s));
  inv_max : session_count s <= Z.max 0 (max_sessions s);
  inv_id id c : sessions s !! id = Some c -> Session.session_id (ClientSession.session c) = id;
  inv_v4 : indexes (ip_to_session s) (sessions s) v4;
  inv_v6 : indexes (ipv6_to_session s) (sessions s) ClientSession.tunnel_ipv6;
  inv_pool4 : pool_uses (ip_allocator s) (dom (ip_to_session s));
  inv_pool6 :
    match ipv6_allocator s with
    | Some a => pool_uses a (dom (ipv6_to_session s))
    | None => ipv6_to_session s = ∅
    end;
  inv_events : match lifecycle_cb s with Some es => observed es = dom (sessions s) | None => True end;
  inv_rate : rate_fits s;
  inv_limits id c : sessions s !! id = Some c -> SessionRateLimiter.fits (ClientSession.rate_limiter c);
}.

Lemma observed_snoc es e :
  observed (es ++ [e]) =
    match e with
    | SessionLifecycleEvent.Created id => {[id]} ∪ observed es
    | SessionLifecycleEvent.Removed id => observed es ∖ {[id]}
    end.
Proof. unfold observed. by rewrite foldl_app. Qed.

Lemma indexes_delete index m address id c :
  indexes index m address -> m !! id = Some c ->
  indexes (match address c with Some ip => delete ip index | None => index end) (delete id m) address.
Proof.
  unfold indexes. intros Hi Hc ip id'. destruct (address c) as [ip0|] eqn:Ea.
  - rewrite lookup_delete_Some, Hi. split.
    + intros [Hne (c' & Hc' & Ha)]. exists c'. split; [|done]. rewrite lookup_delete_ne; [done|].
      intros ->. rewrite Hc in Hc'. injection Hc' as <-. rewrite Ea in Ha. by injection Ha as ->.
    + intros (c' & [Hne Hc']%lookup_delete_Some & Ha). split; [|by exists c'].
      intros ->. assert (index !! ip = Some id) as H1 by (apply Hi; by exists c).
      assert (index !! ip = Some id') as H2 by (apply Hi; by exists c'). congruence.
  - rewrite Hi. split.
    + intros (c' & Hc' & Ha). exists c'. split; [|done]. rewrite lookup_delete_ne; [done|].
      intros ->. congruence.
    + intros (c' & [_ Hc']%lookup_delete_Some & Ha). by exists c'.
Qed.

Lemma indexes_insert index m address id c :
  indexes index m address -> m !! id = None ->
  (forall ip, address c = Some ip -> index !! ip = None) ->
  indexes (match address c with Some ip => <[ip := id]> index | None => index end)
    (<[id := c]> m) address.
Proof.
  unfold indexes. intros Hi Hm Hfresh ip id'. destruct (address c) as [ip0|] eqn:Ea.
  - specialize (Hfresh ip0 eq_refl). rewrite lookup_insert_Some. split.
    + intros [[<- <-]|[Hne Hip]]; [exists c; by rewrite lookup_insert_eq|].
      apply Hi in Hip as (c' & Hc' & Ha). exists c'. rewrite lookup_insert_ne; [done|congruence].
    + intros (c' & [[<- <-]|[Hne Hc']]%lookup_insert_Some & Ha); [left; split; [congruence|done]|].
      assert (index !! ip = Some id') as Hip by (apply Hi; by exists c'). right. split; [congruence|done].
  - rewrite Hi. split.
    + intros (c' & Hc' & Ha). exists c'. split; [|done]. rewrite lookup_insert_ne; [done|congruence].
    + intros (c' & [[<- <-]|[Hne Hc']]%lookup_insert_Some & Ha); [congruence|by exists c'].
Qed.

Lemma indexes_update index m address id c c' :
  indexes index m address -> m !! id = Some c -> address c' = address c ->
  indexes index (<[id := c']> m) address.
Proof.
  unfold indexes. intros Hi Hc Ha ip id'. rewrite Hi. split.
  - intros (d & Hd & Hip). destruct (decide (id = id')) as [<-|].
    + rewrite Hc in Hd. injection Hd as <-. exists c'. rewrite lookup_insert_eq. split; [done|congruence].
    + exists d. by rewrite lookup_insert_ne.
  - intros (d & [[<- <-]|[Hne Hd]]%lookup_insert_Some & Hip); [|by exists d].
    exists c. split; [done|congruence].
Qed.

(** The addresses of a session are handed out. *)
Lemma indexed index m address id c ip :
  indexes index m address -> m !! id = Some c -> address c = Some ip -> ip ∈ dom index.
Proof. intros Hi Hc Ha. apply elem_of_dom. exists id. apply Hi. by exists c. Qed.

(** The allocators' operations are those of the pool interface; nothing
    below looks inside them. *)
Lemma v4_release (a : IpAllocator.t) (U : gset (list Z)) ip :
  pool_uses a U -> ip ∈ U -> pool_uses (IpAllocator.release a ip) (U ∖ {[ip]}).
Proof. intros Hu Hip. exact (proj2 (pool_release_spec a U ip Hu Hip)). Qed.

Lemma v6_release (a : Ipv6Allocator.t) (U : gset (list Z)) ip :
  pool_uses a U -> ip ∈ U -> pool_uses (Ipv6Allocator.release a ip) (U ∖ {[ip]}).
Proof. intros Hu Hip. exact (proj2 (pool_release_spec a U ip Hu Hip)). Qed.

Lemma v4_allocate (a : IpAllocator.t) (U : gset (list Z)) a' r :
  pool_uses a U -> IpAllocator.allocate a = (a', r) ->
  match r with
  | Some ip => (ip ∉ U) /\ pool_uses a' ({[ip]} ∪ U)
  | None => Z.of_nat (size U) = pool_capacity a /\ pool_uses a' U
  end.
Proof. intros Hu E. pose proof (pool_allocate_spec a U Hu) as H. simpl in H. rewrite E in H. apply H. Qed.

Lemma v6_allocate (a : Ipv6Allocator.t) (U : gset (list Z)) a' r :
  pool_uses a U -> Ipv6Allocator.allocate a = (a', r) ->
  match r with
  | Some ip => (ip ∉ U) /\ pool_uses a' ({[ip]} ∪ U)
  | None => Z.of_nat (size U) = pool_capacity a /\ pool_uses a' U
  end.
Proof. intros Hu E. pose proof (pool_allocate_spec a U Hu) as H. simpl in H. rewrite E in H. apply H. Qed.

Opaque IpAllocator.allocate IpAllocator.release Ipv6Allocator.allocate Ipv6Allocator.release.

Lemma remove_session_inv s id : inv s -> inv (fst (remove_session s id)).
Proof.
  intros Hs. unfold remove_session. destruct (sessions s !! id) as [c|] eqn:Ec; [|done].
  destruct Hs as [Hc Hm Hid H4 H6 P4 P6 He Hr Hl]. simpl.
  assert (0 < size (sessions s))%nat as Hpos.
  { apply Nat.neq_0_lt_0. intros Hz%map_size_empty_iff. by rewrite Hz in Ec. }
  assert (size (delete id (sessions s)) = pred (size (sessions s))) as Hsz
    by (apply map_size_delete_Some; by eexists).
  unfold drop_session, emit_lifecycle. split; simpl.
  - rewrite Hsz, Hc. unfold saturating_sub. lia.
  - unfold saturating_sub. lia.
  - intros id' c' [_ Hc']%lookup_delete_Some. by apply Hid.
  - apply (indexes_delete _ _ v4 id c H4 Ec).
  - apply (indexes_delete _ _ _ id c H6 Ec).
  - rewrite dom_delete_L. apply v4_release; [done|by apply (indexed _ _ _ _ _ _ H4 Ec)].
  - destruct (ClientSession.tunnel_ipv6 c) as [ip|] eqn:E6; [|done].
    destruct (ipv6_allocator s) as [a|]; [|by rewrite P6, delete_empty].
    rewrite dom_delete_L. apply v6_release; [done|by apply (indexed _ _ _ _ _ _ H6 Ec)].
  - destruct (lifecycle_cb s) as [es|]; [|done]. simpl. rewrite observed_snoc, He. by rewrite dom_delete_L.
  - exact Hr.
  - intros id' c' [_ Hc']%lookup_delete_Some. by apply (Hl id').
Qed.

Lemma remove_session_absent s id : inv s -> sessions (fst (remove_session s id)) !! id = None.
Proof.
  intros Hs. unfold remove_session. destruct (sessions s !! id) eqn:E; simpl; [apply lookup_delete_eq|done].
Qed.

(** An error path puts the slot back and leaves the pools handing out the
    same addresses. *)
Lemma pools_inv s a4 a6 n :
  inv s -> n = session_count s -> pool_uses a4 (dom (ip_to_session s)) ->
  match a6 with
  | Some a => pool_uses a (dom (ipv6_to_session s))
  | None => ipv6_to_session s = ∅
  end -> inv (set_count (set_pools s a4 a6) n).
Proof. intros [] -> ??. by split. Qed.

(** Whether the pool [a6] has handed out the address of the session, when it
    has one. *)
Definition pool6_gives (s : t) (a6 : option Ipv6Allocator.t) (r : option (list Z)) : Prop :=
  match a6, r with
  | Some a, Some ip => ipv6_to_session s !! ip = None /\ pool_uses a ({[ip]} ∪ dom (ipv6_to_session s))
  | None, None => ipv6_to_session s = ∅
  | _, _ => False
  end.

Lemma insert_session_inv s a4 a6 id c :
  inv s -> sessions s !! id = None -> session_count s < max_sessions s ->
  Session.session_id (ClientSession.session c) = id ->
  ip_to_session s !! ClientSession.tunnel_ip c = None ->
  pool_uses a4 ({[ClientSession.tunnel_ip c]} ∪ dom (ip_to_session s)) ->
  pool6_gives s a6 (ClientSession.tunnel_ipv6 c) -> SessionRateLimiter.fits (ClientSession.rate_limiter c) ->
  inv (insert_session (set_pools (set_count s (session_count s + 1)) a4 a6) id c).
Proof.
  intros [Hc Hm Hid H4 H6 P4 P6 He Hr Hl] Hnone Hmax Hsid Hf4 Hp4 Hp6 Hlc.
  unfold insert_session, emit_lifecycle. split; simpl.
  - rewrite map_size_insert_None by done. lia.
  - lia.
  - intros id' c' [[<- <-]|[_ Hc']]%lookup_insert_Some; [done|by apply Hid].
  - apply (indexes_insert _ _ v4 id c H4 Hnone). intros ip [= <-]. done.
  - apply (indexes_insert _ _ _ id c H6 Hnone). intros ip E. unfold pool6_gives in Hp6. rewrite E in Hp6.
    by destruct a6; [destruct Hp6|].
  - by rewrite dom_insert_L.
  - unfold pool6_gives in Hp6. destruct a6, (ClientSession.tunnel_ipv6 c); try done.
    rewrite dom_insert_L. apply Hp6.
  - destruct (lifecycle_cb s) as [es|]; [|done]. simpl. rewrite observed_snoc, He. by rewrite dom_insert_L.
  - exact Hr.
  - intros id' c' [[<- <-]|[_ Hc']]%lookup_insert_Some; [done|by apply (Hl id')].
Qed.

(** The entry of a new session. *)
Definition fresh (s : t) (c : clock) (session : Session.t) (addr : SocketAddr.t) (ip : list Z)
    (ip6 : option (list Z)) (level : SecurityLevel.t) : ClientSession.t :=
  ClientSession.mk session addr ip ip6 level (now_ms c) (now c) 0 0 0
    (SessionRateLimiter.mk (session_rate_limit_pps s) (session_rate_limit_bps s)
       (session_rate_limit_pps s * 2) (session_rate_limit_bps s * 2) (now_us c)).

Lemma with_rate_limit_fits {E} s c session addr ip ip6 level :
  rate_fits s ->
  ClientSession.with_rate_limit (E := E) c session addr ip ip6 level (session_rate_limit_pps s)
    (session_rate_limit_bps s) = Ok (fresh s c session addr ip ip6 level).
Proof.
  intros H. unfold ClientSession.with_rate_limit, SessionRateLimiter.new. by rewrite SessionRateLimiter.burst_ok.
Qed.

(** What the caller of [create_session_dual_stack_with_level] gets: [s] is
    the manager after a session with the same identifier has been removed,
    [s'] the manager afterwards. *)
Definition created (s s' : t) (c : clock) (session : Session.t) (addr : SocketAddr.t)
    (level : SecurityLevel.t) (r : result ServerError.t (list Z * option (list Z))) : Prop :=
  let id := Session.session_id session in
  match r with
  | Ok (ip, ip6) =>
      session_count s < max_sessions s /\ ip_to_session s !! ip = None /\
      sessions s' = <[id := fresh s c session addr ip ip6 level]> (sessions s) /\
      ip_to_session s' = <[ip := id]> (ip_to_session s) /\
      session_count s' = session_count s + 1 /\
      match ip6 with
      | Some ip6 => has_ipv6 s = true /\ ipv6_to_session s !! ip6 = None /\
                    ipv6_to_session s' = <[ip6 := id]> (ipv6_to_session s)
      | None => has_ipv6 s = false
      end
  | Err e =>
      sessions s' = sessions s /\ ip_to_session s' = ip_to_session s /\
      ipv6_to_session s' = ipv6_to_session s /\ session_count s' = session_count s /\
      ((e = ServerError.Session "max sessions reached" /\ max_sessions s <= session_count s) \/
       (e = ServerError.IpAllocation "no IPv4 addresses available" /\ session_count s < max_sessions s /\
        Z.of_nat (size (ip_to_session s)) = pool_capacity (ip_allocator s)) \/
       (e = ServerError.IpAllocation "no IPv6 addresses available" /\ session_count s < max_sessions s /\
        exists a, ipv6_allocator s = Some a /\
                  Z.of_nat (size (ipv6_to_session s)) = pool_capacity a))
  | Panic => False
  end.

Lemma create_spec s c session addr level s' r :
  inv s -> create_session_dual_stack_with_level s c session addr level = (s', r) ->
  inv s' /\ created (fst (remove_session s (Session.session_id session))) s' c session addr level r.
Proof.
  intros Hs. set (id := Session.session_id session).
  pose proof (remove_session_inv s id Hs) as H0. pose proof (remove_session_absent s id Hs) as Hnone.
  unfold create_session_dual_stack_with_level. fold id.
  generalize dependent (fst (remove_session s id)). clear s Hs. intros s Hs Hnone.
  pose proof (inv_rate s Hs) as Hfit.
  assert (forall ip ip6, ClientSession.with_rate_limit (E := ServerError.t) c session addr ip ip6 level
    (session_rate_limit_pps s) (session_rate_limit_bps s) = Ok (fresh s c session addr ip ip6 level)) as Hw
    by (intros; by apply with_rate_limit_fits).
  destruct (Z.leb_spec (max_sessions s) (session_count s)) as [Hmax|Hmax].
  { intros [= <- <-]. split; [done|]. unfold created. split_and!; try done. by left. }
  simpl. destruct (IpAllocator.allocate (ip_allocator s)) as [a4 [ip|]] eqn:E4;
    pose proof (v4_allocate _ _ _ _ (inv_pool4 s Hs) E4) as Hp4; simpl in Hp4; destruct Hp4 as [Hf4 Hp4].
  2:{ intros [= <- <-]. split.
      - exact (pools_inv s a4 (ipv6_allocator s) (session_count s + 1 - 1) Hs ltac:(lia) Hp4 (inv_pool6 s Hs)).
      - unfold created. simpl. split_and!; try done; [lia|]. right. left. rewrite size_dom in Hf4. done. }
  apply not_elem_of_dom in Hf4. pose proof (inv_pool6 s Hs) as P6.
  destruct (ipv6_allocator s) as [p6|] eqn:Ea6.
  - destruct (Ipv6Allocator.allocate p6) as [a6 [ip6|]] eqn:E6;
      pose proof (v6_allocate _ _ _ _ P6 E6) as Hp6; simpl in Hp6; destruct Hp6 as [Hf6 Hp6]; simpl; rewrite ?Hw; intros [= <- <-].
    + apply not_elem_of_dom in Hf6. split.
      * by apply (insert_session_inv s a4 (Some a6) id _ Hs Hnone Hmax).
      * unfold created, has_ipv6. simpl. rewrite Ea6. done.
    + assert (pool_uses (IpAllocator.release a4 ip) (dom (ip_to_session s))) as Hr.
      { apply not_elem_of_dom in Hf4.
        replace (dom (ip_to_session s)) with (({[ip]} ∪ dom (ip_to_session s)) ∖ {[ip]}) by set_solver.
        apply v4_release; [done|set_solver]. }
      split.
      * exact (pools_inv s _ (Some a6) (session_count s + 1 - 1) Hs ltac:(lia) Hr Hp6).
      * unfold created. simpl. split_and!; try done; [lia|]. right. right. rewrite size_dom in Hf6.
        split_and!; try done. by exists p6.
  - rewrite Hw. intros [= <- <-]. split.
    + by apply (insert_session_inv s a4 None id _ Hs Hnone Hmax).
    + unfold created, has_ipv6. simpl. rewrite Ea6. done.
Qed.

(** Writing a session through [get_session_mut]: the caller changes its
    counters, its keys or its address, never its identity or its limit. *)
Definition modify (s : t) (id : Z) (f : ClientSession.t -> ClientSession.t) : t :=
  mk (alter f id (sessions s)) (ip_to_session s) (ipv6_to_session s) (ip_allocator s)
    (ipv6_allocator s) (server_ip s) (server_ipv6 s) (session_timeout s) (max_sessions s)
    (session_count s) (session_rate_limit_pps s) (session_rate_limit_bps s) (lifecycle_cb s).

Definition keeps_identity (f : ClientSession.t -> ClientSession.t) : Prop :=
  forall c,
    Session.session_id (ClientSession.session (f c)) = Session.session_id (ClientSession.session c) /\
    ClientSession.tunnel_ip (f c) = ClientSession.tunnel_ip c /\
    ClientSession.tunnel_ipv6 (f c) = ClientSession.tunnel_ipv6 c /\
    SessionRateLimiter.max_bps (ClientSession.rate_limiter (f c)) =
      SessionRateLimiter.max_bps (ClientSession.rate_limiter c).

Lemma modify_inv s id f : keeps_identity f -> inv s -> inv (modify s id f).
Proof.
  intros Hf [Hc Hm Hid H4 H6 P4 P6 He Hr Hl]. unfold modify.
  destruct (sessions s !! id) as [c|] eqn:E.
  2:{ rewrite alter_id; [by split|]. intros c Hs. congruence. }
  assert (alter f id (sessions s) = <[id := f c]> (sessions s)) as ->.
  { apply map_eq. intros j. destruct (decide (j = id)) as [->|].
    - by rewrite lookup_alter_eq, lookup_insert_eq, E.
    - by rewrite lookup_alter_ne, lookup_insert_ne by done. }
  destruct (Hf c) as (Hi & H4' & H6' & Hb'). split; simpl; try done.
  - by rewrite map_size_insert_Some by (by eexists).
  - intros id' c' [[<- <-]|[_ Hc']]%lookup_insert_Some; [rewrite Hi|]; by apply Hid.
  - apply (indexes_update _ _ v4 id c _ H4 E). unfold v4. by rewrite H4'.
  - by apply (indexes_update _ _ _ id c _ H6 E).
  - destruct (lifecycle_cb s); [|done]. rewrite He, dom_insert_L. apply elem_of_dom_2 in E. set_solver.
  - intros id' c' [[<- <-]|[_ Hc']]%lookup_insert_Some; [|by apply (Hl id')].
    unfold SessionRateLimiter.fits. rewrite Hb'. by apply (Hl id).
Qed.

Lemma update_client_addr_modify s id a :
  update_client_addr s id a = modify s id (fun c => ClientSession.set_client_addr c a).
Proof.
  unfold update_client_addr, modify. destruct (sessions s !! id) as [c|] eqn:E.
  - f_equal. apply map_eq. intros j. destruct (decide (j = id)) as [->|].
    + by rewrite lookup_alter_eq, lookup_insert_eq, E.
    + by rewrite lookup_alter_ne, lookup_insert_ne by done.
  - rewrite alter_id; [by destruct s|]. intros c Hc. congruence.
Qed.

Lemma remove_all_inv ids s :
  inv s -> inv (foldl (fun s id => fst (remove_session s id)) s ids).
Proof.
  revert s. induction ids as [|id ids IH]; intros s Hs; simpl; [done|]. apply IH, remove_session_inv, Hs.
Qed.

(** The managers a server can have: built by one of the constructors with a
    pool inside the address space, then changed by the public operations, with
    a byte limit below 2^63. *)
Inductive reachable {O : HashIter Z ClientSession.t} : t -> Prop :=
  | reach_new base prefix server timeout max s :
      bytes_ok base -> len base = 4 -> 1 <= prefix <= 32 -> from_be base + 2 ^ (32 - prefix) <= 2 ^ 32 ->
      SessionManager.new (E:=unit) base prefix server timeout max = Ok s -> reachable s
  | reach_new_dual_stack base prefix server base6 prefix6 server6 timeout max s :
      bytes_ok base -> len base = 4 -> 1 <= prefix <= 32 -> from_be base + 2 ^ (32 - prefix) <= 2 ^ 32 ->
      bytes_ok base6 -> len base6 = 16 -> 0 <= prefix6 <= 128 ->
      SessionManager.new_dual_stack (E:=unit) base prefix server base6 prefix6 server6 timeout max = Ok s ->
      reachable s
  | reach_callback s : reachable s -> sessions s = ∅ -> reachable (set_lifecycle_callback s)
  | reach_rate_limits s pps bps :
      reachable s -> bps * 2 <= U64_MAX -> reachable (with_rate_limits s pps bps)
  | reach_create s c session addr level :
      reachable s -> reachable (fst (create_session_dual_stack_with_level s c session addr level))
  | reach_remove s id : reachable s -> reachable (fst (remove_session s id))
  | reach_cleanup s now_ms : reachable s -> reachable (fst (cleanup_expired s now_ms))
  | reach_update_addr s id addr : reachable s -> reachable (update_client_addr s id addr)
  | reach_modify s id f : keeps_identity f -> reachable s -> reachable (modify s id f).

Lemma inv_empty a4 a6 si si6 timeout max pps bps :
  pool_uses a4 (∅ : gset (list Z)) ->
  match a6 with Some a => pool_uses a (∅ : gset (list Z)) | None => True end -> bps * 2 <= U64_MAX ->
  inv (mk ∅ ∅ ∅ a4 a6 si si6 timeout max 0 pps bps None).
Proof.
  intros H4 H6 Hr. split; simpl; try done.
  - lia.
  - intros ip id. split; [done|]. intros (c & Hc & _). by rewrite lookup_empty in Hc.
  - intros ip id. split; [done|]. intros (c & Hc & _). by rewrite lookup_empty in Hc.
  - by destruct a6.
Qed.

Lemma reachable_inv {O : HashIter Z ClientSession.t} s : reachable s -> inv s.
Proof.
  induction 1 as [base prefix server timeout max s Hb Hl Hp Hs E
                 |base prefix server base6 prefix6 server6 timeout max s Hb Hl Hp Hs Hb6 Hl6 Hp6 E
                 |s _ IH Hempty|s pps bps _ IH Hr|s c session addr level _ IH|s id _ IH|s now_ms _ IH
                 |s id addr _ IH|s id f Hf _ IH].
  - destruct (ipv4_new base prefix Hb Hl Hp Hs) as (a & Ha & Hu & _).
    unfold SessionManager.new in E. rewrite Ha in E. injection E as <-. by apply inv_empty.
  - destruct (ipv4_new base prefix Hb Hl Hp Hs) as (a & Ha & Hu & _).
    destruct (ipv6_new base6 prefix6 Hb6 Hl6 Hp6) as (a6 & Ha6 & Hu6 & _).
    unfold SessionManager.new_dual_stack in E. rewrite Ha in E. simpl in E. rewrite Ha6 in E. injection E as <-. by apply inv_empty.
  - destruct IH. split; simpl; try done. by rewrite Hempty, dom_empty_L.
  - by destruct IH.
  - destruct (create_session_dual_stack_with_level s c session addr level) as [s' r] eqn:E.
    exact (proj1 (create_spec s c session addr level s' r IH E)).
  - by apply remove_session_inv.
  - by apply remove_all_inv.
  - rewrite update_client_addr_modify. by apply modify_inv.
  - by apply modify_inv.
Qed.

Lemma remove_session_sessions s id : sessions (fst (remove_session s id)) = delete id (sessions s).
Proof.
  unfold remove_session. destruct (sessions s !! id) eqn:E; simpl; [done|]. by rewrite delete_id.
Qed.

Lemma remove_all_sessions ids s id :
  sessions (foldl (fun s id => fst (remove_session s id)) s ids) !! id =
    if decide (id ∈ ids) then None else sessions s !! id.
Proof.
  revert s. induction ids as [|j ids IH]; intros s; cbn [foldl]; [by rewrite decide_False by set_solver|].
  rewrite IH, remove_session_sessions. destruct (decide (id ∈ ids)) as [|Hn].
  - by rewrite decide_True by set_solver.
  - destruct (decide (id = j)) as [->|].
    + by rewrite lookup_delete_eq, decide_True by set_solver.
    + rewrite lookup_delete_ne, decide_False by set_solver. done.
Qed.

Lemma elem_of_expired {O : HashIter Z ClientSession.t} s now_ms id :
  id ∈ snd (cleanup_expired s now_ms) <->
  exists c, sessions s !! id = Some c /\ ClientSession.is_expired c (now_ms id) (session_timeout s) = true.
Proof.
  unfold cleanup_expired. simpl. rewrite list_elem_of_fmap. split.
  - intros ([k c] & -> & [He Hin]%list_elem_of_filter). rewrite hash_iter_perm, elem_of_map_to_list in Hin.
    by exists c.
  - intros (c & Hc & He). exists (id, c). split; [done|]. apply list_elem_of_filter. split; [done|].
    by rewrite hash_iter_perm, elem_of_map_to_list.
Qed.

Lemma addr_by_ip index m address ip id a :
  indexes index m address ->
  match index !! ip with
  | None => None
  | Some session_id =>
      match m !! session_id with
      | None => None
      | Some session => Some (session_id, ClientSession.client_addr session)
      end
  end = Some (id, a) <->
  exists c, m !! id = Some c /\ address c = Some ip /\ ClientSession.client_addr c = a.
Proof.
  intros Hi. destruct (index !! ip) as [j|] eqn:E.
  - apply Hi in E as E'. destruct E' as (c & Hc & Ha). rewrite Hc. split.
    + intros [= <- <-]. by exists c.
    + intros (d & Hd & Ha' & <-). assert (index !! ip = Some id) as E2 by (apply Hi; by exists d).
      rewrite E in E2. injection E2 as ->. congruence.
  - split; [done|]. intros (d & Hd & Ha & _). assert (index !! ip = Some id) as E2 by (apply Hi; by exists d).
    congruence.
Qed.

(** C18: in every manager a server can reach, the slot counter is the number
    of sessions and within the limit; the two address indexes find exactly
    the sessions that hold the address, with the address the client was last
    seen at, so no two sessions share a tunnel address; the two pools hand
    out exactly the addresses of the sessions; and an observer of the
    lifecycle events knows exactly the live sessions. *)
Theorem session_manager_invariant {O : HashIter Z ClientSession.t} s :
  reachable s ->
  inv s /\
  (forall ip id a, get_session_and_addr_by_ip s ip = Some (id, a) <->
     exists c, get_session s id = Some c /\ ClientSession.tunnel_ip c = ip /\ ClientSession.client_addr c = a) /\
  (forall ip id a, get_session_and_addr_by_ipv6 s ip = Some (id, a) <->
     exists c, get_session s id = Some c /\ ClientSession.tunnel_ipv6 c = Some ip /\
               ClientSession.client_addr c = a) /\
  (forall id1 c1 id2 c2, get_session s id1 = Some c1 -> get_session s id2 = Some c2 ->
     ClientSession.tunnel_ip c1 = ClientSession.tunnel_ip c2 -> id1 = id2).
Proof.
  intros Hs%reachable_inv. split; [done|]. split; [|split].
  - intros ip id a. unfold get_session_and_addr_by_ip. rewrite (addr_by_ip _ _ _ _ _ _ (inv_v4 s Hs)).
    unfold v4. split; intros (c & Hc & Ha & Hd); exists c; split_and!; (done || congruence).
  - intros ip id a. apply (addr_by_ip _ _ _ _ _ _ (inv_v6 s Hs)).
  - intros id1 c1 id2 c2 H1 H2 He.
    assert (ip_to_session s !! ClientSession.tunnel_ip c1 = Some id1) as E1
      by (apply (inv_v4 s Hs); by exists c1).
    assert (ip_to_session s !! ClientSession.tunnel_ip c1 = Some id2) as E2
      by (apply (inv_v4 s Hs); exists c2; unfold v4; by rewrite He).
    congruence.
Qed.

(** Creating a session first removes one with the same identifier; then
    it is refused exactly when the limit or a pool is exhausted, and leaves
    the table as it was; otherwise the session is stored with addresses no
    other session has, and is found by them. *)
Lemma create_session_outcome {O : HashIter Z ClientSession.t} s c session addr level :
  reachable s ->
  let s0 := fst (remove_session s (Session.session_id session)) in
  let '(s', r) := create_session_dual_stack_with_level s c session addr level in
  created s0 s' c session addr level r /\
  (forall ip ip6, r = Ok (ip, ip6) ->
     get_session_and_addr_by_ip s' ip = Some (Session.session_id session, addr)) /\
  (forall id, id <> Session.session_id session -> get_session s' id = get_session s id).
Proof.
  intros Hs%reachable_inv s0.
  destruct (create_session_dual_stack_with_level s c session addr level) as [s' r] eqn:E.
  destruct (create_spec s c session addr level s' r Hs E) as [Hs' Hc]. fold s0 in Hc.
  split; [done|]. split.
  - intros ip ip6 ->. destruct Hc as (_ & _ & Hses & Hip & _). unfold get_session_and_addr_by_ip.
    rewrite Hip, lookup_insert_eq, Hses, lookup_insert_eq. done.
  - intros id Hid. unfold get_session. subst s0.
    pose proof (remove_session_sessions s (Session.session_id session)) as Hr.
    destruct r as [[ip ip6]|e|]; unfold created in Hc; [| |done].
    + destruct Hc as (_ & _ & -> & _). by rewrite lookup_insert_ne, Hr, lookup_delete_ne by done.
    + destruct Hc as (-> & _). by rewrite Hr, lookup_delete_ne by done.
Qed.

(** A cleanup reports and removes exactly the sessions idle for longer
    than the timeout; every other session stays as it was. *)
Lemma cleanup_expired_exact {O : HashIter Z ClientSession.t} s now_ms id :
  (id ∈ snd (cleanup_expired s now_ms) <->
   exists c, get_session s id = Some c /\
     ClientSession.is_expired c (now_ms id) (session_timeout s) = true) /\
  get_session (fst (cleanup_expired s now_ms)) id =
    match get_session s id with
    | Some c => if ClientSession.is_expired c (now_ms id) (session_timeout s) then None else Some c
    | None => None
    end.
Proof.
  pose proof (elem_of_expired s now_ms id) as He. split; [exact He|].
  unfold get_session. unfold cleanup_expired. simpl. rewrite remove_all_sessions.
  unfold cleanup_expired in He. simpl in He. destruct (decide _) as [Hin|Hn].
  - apply He in Hin as (c & -> & ->). done.
  - destruct (sessions s !! id) as [c|]; [|done].
    destruct (ClientSession.is_expired _ _ _) eqn:Ex; [|done]. destruct Hn. apply He. by exists c.
Qed.

End Invariant.

(** * Examples *)

(** A server with room for two sessions, of a /24 network. *)
Definition example_manager : SessionManager.t (R:=ToyAead) :=
  match SessionManager.new (E:=unit) [10; 99; 0; 0] 24 [10; 99; 0; 1] 60000 2 with
  | Ok s => SessionManager.set_lifecycle_callback s
  | _ => SessionManager.mk ∅ ∅ ∅ (IpAllocator.mk [] 0 0 ∅ 0) None [] None 0 0 0 0 0 None
  end.

Definition example_addr : SocketAddr.t := SocketAddr.V4 [198; 51; 100; 7] 40000.

Definition example_clock : clock := mk_clock 1000 1000000 1000000000.

Lemma example_manager_reachable : reachable example_manager.
Proof.
  apply (reach_callback _). 2: reflexivity.
  apply (reach_new [10; 99; 0; 0] 24 [10; 99; 0; 1] 60000 2); by_decide || reflexivity || lia.
Qed.

(** A byte limit of 2^63 or more, which the configuration accepts, makes the
    creation of a session abort, with the slot and the address taken. *)
Lemma unrepresentable_burst_aborts :
  let s := SessionManager.with_rate_limits example_manager 0 (2 ^ 63) in
  let create := SessionManager.create_session_dual_stack_with_level s example_clock
                  example_session example_addr SecurityLevel.Level5 in
  snd create = Panic /\ size (SessionManager.sessions (fst create)) = 0%nat /\
  SessionManager.session_count (fst create) = 1.
Proof. intros s create. split_and!; vm_compute; reflexivity. Qed.

Lemma session_manager_invariant_witness :
  let s := fst (SessionManager.create_session_dual_stack_with_level example_manager example_clock
                  example_session example_addr SecurityLevel.Level5) in
  SessionManager.get_session_and_addr_by_ip s [10; 99; 0; 2] = Some (7, example_addr) /\
  exists c, SessionManager.get_session s 7 = Some c /\ ClientSession.tunnel_ip c = [10; 99; 0; 2] /\
            ClientSession.client_addr c = example_addr.
Proof.
  intros s.
  assert (SessionManager.get_session_and_addr_by_ip s [10; 99; 0; 2] = Some (7, example_addr)) as H
    by (vm_compute; reflexivity).
  split; [exact H|].
  apply (proj1 (proj2 (session_manager_invariant s
    (reach_create _ _ _ _ _ example_manager_reachable)))), H.
Defined.

