(* ===== verification/SessionThreads.v ===== *)
(** The session table under concurrent callers (hpn-server/src/session_manager.rs).

    The maps, the allocators behind their locks and the slot counter are each
    atomic, the methods are not: [act] is one atomic operation of a thread
    inside [create_session_dual_stack_with_level] or [remove_session], and
    threads interleave.  A thread that runs alone computes the functions of
    SessionManager.v. *)

From S2P Require Import Prelude Types Net Aead Keys Kdf Session AddressPool TokenBucket.
From S2P Require Import SessionManager.

Module SessionThreads.
Import SessionManager.

Section Threads.
Context {R : RingAead} {I : SetIter Z}.

(** The arguments of a call that creates a session. *)
Record request := mk_request {
  at_clock : clock;
  session : Session.t;
  client_addr : SocketAddr.t;
  level : SecurityLevel.t;
}.

Definition id_of (q : request) : Z := Session.session_id (session q).

(** Where a thread is.  [Create*]: in the replacement of an old session;
    [Drop*]: in [remove_session]. *)
Inductive pc :=
  | Create (q : request)
  | CreateUnindex (q : request) (old : ClientSession.t)
  | CreateRelease (q : request) (old : ClientSession.t)
  | CreateUnindex6 (q : request) (old : ClientSession.t)
  | CreateRelease6 (q : request) (ipv6 : list Z)
  | CreateEmit (q : request)
  | CreateDecrement (q : request)
  | Reserve (q : request)
  | Reject
  | Allocate (q : request)
  | Allocate6 (q : request) (ip : list Z)
  | GiveBack (ip : list Z)
  | Unreserve (message : string)
  | Insert (q : request) (ip : list Z) (ipv6 : option (list Z))
  | Index (q : request) (ip : list Z) (ipv6 : option (list Z))
  | Index6 (q : request) (ip : list Z) (ipv6 : list Z)
  | Emit (q : request) (ip : list Z) (ipv6 : option (list Z))
  | Created (r : result ServerError.t (list Z * option (list Z)))
  | Remove (id : Z)
  | DropDecrement (id : Z) (old : ClientSession.t)
  | DropUnindex (id : Z) (old : ClientSession.t)
  | DropRelease (id : Z) (old : ClientSession.t)
  | DropUnindex6 (id : Z) (old : ClientSession.t)
  | DropRelease6 (id : Z) (old : ClientSession.t) (ipv6 : list Z)
  | DropEmit (id : Z) (old : ClientSession.t)
  | Removed (r : option ClientSession.t).

Definition set_maps (s : t) (m : gmap Z ClientSession.t) (i4 i6 : gmap (list Z) Z) : t :=
  mk m i4 i6 (ip_allocator s) (ipv6_allocator s) (server_ip s) (server_ipv6 s) (session_timeout s)
    (max_sessions s) (session_count s) (session_rate_limit_pps s) (session_rate_limit_bps s)
    (lifecycle_cb s).

Definition take (s : t) (id : Z) : t :=
  set_maps s (delete id (sessions s)) (ip_to_session s) (ipv6_to_session s).

Definition unindex (s : t) (old : ClientSession.t) : t :=
  set_maps s (sessions s) (delete (ClientSession.tunnel_ip old) (ip_to_session s)) (ipv6_to_session s).

Definition release (s : t) (ip : list Z) : t :=
  set_pools s (IpAllocator.release (ip_allocator s) ip) (ipv6_allocator s).

Definition unindex6 (s : t) (ipv6 : list Z) : t :=
  set_maps s (sessions s) (ip_to_session s) (delete ipv6 (ipv6_to_session s)).

Definition release6 (s : t) (ipv6 : list Z) : t :=
  set_pools s (ip_allocator s) (option_map (fun a => Ipv6Allocator.release a ipv6) (ipv6_allocator s)).

(** [fetch_update] with [saturating_sub], [fetch_add] and [fetch_sub], which
    wrap around. *)
Definition decrement (s : t) : t := set_count s (saturating_sub (session_count s) 1).
Definition fetch_add (s : t) : t := set_count s (wrapping_add 64 (session_count s) 1).
Definition fetch_sub (s : t) : t := set_count s (wrapping_sub 64 (session_count s) 1).

Definition act (s : t) (p : pc) : t * pc :=
  match p with
  | Create q =>
      match sessions s !! id_of q with
      | Some old => (take s (id_of q), CreateUnindex q old)
      | None => (s, Reserve q)
      end
  | CreateUnindex q old => (unindex s old, CreateRelease q old)
  | CreateRelease q old => (release s (ClientSession.tunnel_ip old), CreateUnindex6 q old)
  | CreateUnindex6 q old =>
      match ClientSession.tunnel_ipv6 old with
      | Some ipv6 => (unindex6 s ipv6, CreateRelease6 q ipv6)
      | None => (s, CreateEmit q)
      end
  | CreateRelease6 q ipv6 => (release6 s ipv6, CreateEmit q)
  | CreateEmit q => (emit_lifecycle s (SessionLifecycleEvent.Removed (id_of q)), CreateDecrement q)
  | CreateDecrement q => (decrement s, Reserve q)
  | Reserve q =>
      (fetch_add s, if max_sessions s <=? session_count s then Reject else Allocate q)
  | Reject => (fetch_sub s, Created (Err (ServerError.Session "max sessions reached")))
  | Allocate q =>
      let '(a4, r) := IpAllocator.allocate (ip_allocator s) in
      (set_pools s a4 (ipv6_allocator s),
       match r with
       | Some ip => Allocate6 q ip
       | None => Unreserve "no IPv4 addresses available"
       end)
  | Allocate6 q ip =>
      match ipv6_allocator s with
      | Some allocator =>
          let '(a6, r) := Ipv6Allocator.allocate allocator in
          (set_pools s (ip_allocator s) (Some a6),
           match r with Some ipv6 => Insert q ip (Some ipv6) | None => GiveBack ip end)
      | None => (s, Insert q ip None)
      end
  | GiveBack ip => (release s ip, Unreserve "no IPv6 addresses available")
  | Unreserve message => (fetch_sub s, Created (Err (ServerError.IpAllocation message)))
  | Insert q ip ipv6 =>
      match ClientSession.with_rate_limit (at_clock q) (session q) (client_addr q) ip ipv6 (level q)
              (session_rate_limit_pps s) (session_rate_limit_bps s) with
      | Ok c =>
          (set_maps s (<[id_of q := c]> (sessions s)) (ip_to_session s) (ipv6_to_session s), Index q ip ipv6)
      | Err e => (s, Created (Err e))
      | Panic => (s, Created Panic)
      end
  | Index q ip ipv6 =>
      (set_maps s (sessions s) (<[ip := id_of q]> (ip_to_session s)) (ipv6_to_session s),
       match ipv6 with Some i => Index6 q ip i | None => Emit q ip ipv6 end)
  | Index6 q ip ipv6 =>
      (set_maps s (sessions s) (ip_to_session s) (<[ipv6 := id_of q]> (ipv6_to_session s)),
       Emit q ip (Some ipv6))
  | Emit q ip ipv6 =>
      (emit_lifecycle s (SessionLifecycleEvent.Created (id_of q)), Created (Ok (ip, ipv6)))
  | Created r => (s, Created r)
  | Remove id =>
      match sessions s !! id with
      | Some old => (take s id, DropDecrement id old)
      | None => (s, Removed None)
      end
  | DropDecrement id old => (decrement s, DropUnindex id old)
  | DropUnindex id old => (unindex s old, DropRelease id old)
  | DropRelease id old => (release s (ClientSession.tunnel_ip old), DropUnindex6 id old)
  | DropUnindex6 id old =>
      match ClientSession.tunnel_ipv6 old with
      | Some ipv6 => (unindex6 s ipv6, DropRelease6 id old ipv6)
      | None => (s, DropEmit id old)
      end
  | DropRelease6 id old ipv6 => (release6 s ipv6, DropEmit id old)
  | DropEmit id old => (emit_lifecycle s (SessionLifecycleEvent.Removed id), Removed (Some old))
  | Removed r => (s, Removed r)
  end.

(** A thread on its own. *)
Fixpoint alone (n : nat) (s : t) (p : pc) : t * pc :=
  match n with
  | O => (s, p)
  | S n => let '(s, p) := act s p in alone n s p
  end.

(** A configuration: the table and the threads that use it. *)
Definition config : Type := t * list pc.

Inductive step : config -> config -> Prop :=
  | step_thread s ts i p :
      ts !! i = Some p -> step (s, ts) (fst (act s p), <[i := snd (act s p)]> ts)
  | step_call s ts i p q :
      ts !! i = Some p -> (exists r, p = Created r) \/ (exists r, p = Removed r) ->
      (exists r, q = Create r) \/ (exists id, q = Remove id) ->
      step (s, ts) (s, <[i := q]> ts).

(** * The number of sessions *)

(** A thread holds a slot from its reservation to the insertion of the
    session or the return of the slot, and from the removal of a session to
    the decrement; a thread that is about to be refused holds one more than
    the limit allows. *)
Definition reserved (p : pc) : bool :=
  match p with
  | Allocate _ | Allocate6 _ _ | GiveBack _ | Unreserve _ | Insert _ _ _ => true
  | _ => false
  end.

Definition owed (p : pc) : bool :=
  match p with
  | CreateUnindex _ _ | CreateRelease _ _ | CreateUnindex6 _ _ | CreateRelease6 _ _ | CreateEmit _
  | CreateDecrement _ | DropDecrement _ _ => true
  | _ => false
  end.

Definition rejecting (p : pc) : bool := match p with Reject => true | _ => false end.

Definition number (f : pc -> bool) (ts : list pc) : Z := zsum (fun p => Z.b2z (f p)) ts.

Definition slots_ok (x : config) : Prop :=
  let '(s, ts) := x in
  let size := Z.of_nat (size (sessions s)) in
  0 <= max_sessions s /\
  size + number reserved ts <= max_sessions s /\
  size + number reserved ts + number owed ts + number rejecting ts <= session_count s /\
  session_count s <= max_sessions s + number rejecting ts.

Lemma number_insert f ts i p q :
  ts !! i = Some p -> number f (<[i := q]> ts) = number f ts - Z.b2z (f p) + Z.b2z (f q).
Proof. apply (zsum_replace (fun p => Z.b2z (f p))). Qed.

Lemma number_bound f ts : 0 <= number f ts <= len ts.
Proof.
  unfold len. induction ts as [|x ts IH]; simpl; [lia|]. destruct (f x); simpl; lia.
Qed.

Lemma number_pos f ts i p : ts !! i = Some p -> f p = true -> 1 <= number f ts.
Proof.
  revert i. induction ts as [|x ts IH]; intros [|i] Hi Hf; simplify_eq/=.
  - rewrite Hf. pose proof (number_bound f ts). simpl. lia.
  - specialize (IH i Hi Hf). destruct (f x); simpl; lia.
Qed.

Lemma number_lt f ts i p : ts !! i = Some p -> f p = false -> number f ts < len ts.
Proof.
  unfold len. revert i. induction ts as [|x ts IH]; intros [|i] Hi Hf; simplify_eq/=.
  - rewrite Hf. pose proof (number_bound f ts) as Hb. unfold len in Hb. simpl. lia.
  - specialize (IH i Hi Hf). destruct (f x); simpl; lia.
Qed.

(** What an operation does to the sessions, the slots and the limit. *)
Lemma act_slots s p :
  let '(s', q) := act s p in
  max_sessions s' = max_sessions s /\
  match p with
  | Create _ | Remove _ =>
      session_count s' = session_count s /\ reserved q = false /\ rejecting q = false /\
      Z.of_nat (size (sessions s')) + Z.b2z (owed q) = Z.of_nat (size (sessions s))
  | CreateDecrement _ | DropDecrement _ _ =>
      session_count s' = saturating_sub (session_count s) 1 /\ sessions s' = sessions s /\
      reserved q = false /\ owed q = false /\ rejecting q = false
  | Reserve _ =>
      session_count s' = wrapping_add 64 (session_count s) 1 /\ sessions s' = sessions s /\
      owed q = false /\
      if max_sessions s <=? session_count s then rejecting q = true /\ reserved q = false
      else rejecting q = false /\ reserved q = true
  | Reject | Unreserve _ =>
      session_count s' = wrapping_sub 64 (session_count s) 1 /\ sessions s' = sessions s /\
      reserved q = false /\ owed q = false /\ rejecting q = false
  | Insert _ _ _ =>
      session_count s' = session_count s /\
      Z.of_nat (size (sessions s')) <= Z.of_nat (size (sessions s)) + 1 /\
      reserved q = false /\ owed q = false /\ rejecting q = false
  | _ =>
      session_count s' = session_count s /\ sessions s' = sessions s /\
      reserved q = reserved p /\ owed q = owed p /\ rejecting q = rejecting p
  end.
Proof.
  destruct p; simpl; try done.
  - destruct (sessions s !! id_of q) eqn:E; simpl; [|split_and!; done || lia].
    rewrite (size_take _ _ _ E). split_and!; try done. lia.
  - by destruct (ClientSession.tunnel_ipv6 old).
  - by destruct (max_sessions s <=? session_count s).
  - by destruct (IpAllocator.allocate (ip_allocator s)) as [a [ip|]].
  - destruct (ipv6_allocator s) as [a|]; [|done]. by destruct (Ipv6Allocator.allocate a) as [a' [ip'|]].
  - destruct (ClientSession.with_rate_limit _ _ _ _ _ _ _ _) as [c| |]; simpl; split_and!; try done; try lia.
    pose proof (size_insert_le (sessions s) (id_of q) c). lia.
  - by destruct ipv6.
  - destruct (sessions s !! id) eqn:E; simpl; [|split_and!; done || lia].
    rewrite (size_take _ _ _ E). split_and!; try done. lia.
  - by destruct (ClientSession.tunnel_ipv6 old).
Qed.

Lemma slots_step x y :
  slots_ok x -> max_sessions (fst x) + len (snd x) < 2 ^ 64 -> step x y ->
  slots_ok y /\ max_sessions (fst y) + len (snd y) < 2 ^ 64.
Proof.
  intros Hx Hl Hs. destruct Hs as [s ts i p Hi|s ts i p q Hi Hp Hq]; cbn [fst snd slots_ok] in *.
  2:{ unfold len in *. rewrite length_insert. split; [|done].
      rewrite !(number_insert _ ts i p q Hi).
      destruct Hp as [[? ->]|[? ->]], Hq as [[? ->]|[? ->]]; simpl; lia. }
  pose proof (act_slots s p) as Ha. destruct (act s p) as [s' q] eqn:E. simpl.
  destruct Ha as [Hm Ha]. unfold len in *. rewrite Hm, length_insert. split; [|done].
  rewrite !(number_insert _ ts i p q Hi).
  pose proof (number_bound rejecting ts) as Hb. pose proof (number_bound reserved ts) as Hb'.
  pose proof (number_bound owed ts) as Hb''. unfold len in *.
  pose proof (number_pos reserved ts i p Hi) as P1. pose proof (number_pos owed ts i p Hi) as P2.
  pose proof (number_pos rejecting ts i p Hi) as P3. pose proof (number_lt rejecting ts i p Hi) as P4.
  destruct p; simpl in *;
    repeat match goal with H : _ /\ _ |- _ => destruct H end;
    try (specialize (P1 eq_refl)); try (specialize (P2 eq_refl)); try (specialize (P3 eq_refl));
    try (specialize (P4 eq_refl)); unfold len in *;
    unfold wrapping_add, wrapping_sub, saturating_sub in *;
    repeat match goal with
    | H : sessions _ = _ |- _ => rewrite H; clear H
    | H : _ q = true |- _ => rewrite H; clear H
    | H : _ q = false |- _ => rewrite H; clear H
    | H : session_count _ = _ |- _ => rewrite H; clear H
    end; simpl; try lia.
  - destruct (owed q); simpl in *; lia.
  - destruct (Z.leb_spec (max_sessions s) (session_count s)) as [Hf|Hf];
      match goal with H : _ /\ _ |- _ => destruct H as [-> ->] end;
      rewrite Z.mod_small by lia; simpl; lia.
  - rewrite Z.mod_small by lia. lia.
  - rewrite Z.mod_small by lia. lia.
  - destruct (owed q); simpl in *; lia.
Qed.

Lemma slots_steps x y :
  slots_ok x -> max_sessions (fst x) + len (snd x) < 2 ^ 64 -> rtc step x y ->
  slots_ok y /\ max_sessions (fst y) + len (snd y) < 2 ^ 64.
Proof. intros Hx Hl Hs. induction Hs as [|x y z Hxy _ IH]; [done|]. destruct (slots_step x y); auto. Qed.

(** Threads that are not in a call. *)
Definition idle (n : nat) : list pc := replicate n (Removed None).

Lemma number_idle f n : f (Removed None) = false -> number f (idle n) = 0.
Proof. intros Hf. unfold idle. induction n as [|n IH]; simpl; [done|]. rewrite Hf, IH. done. Qed.

Lemma slots_idle s n : inv s -> 0 <= max_sessions s -> slots_ok (s, idle n).
Proof. intros [Hc Hm _ _ _ _ _ _ _ _] Hp. unfold slots_ok. rewrite !number_idle by done. lia. Qed.

Lemma take_alone s id old :
  sessions s !! id = Some old ->
  alone 6 (take s id) (DropDecrement id old) = (drop_session s id old, Removed (Some old)).
Proof.
  intros E. destruct s. simpl in *. destruct (ClientSession.tunnel_ipv6 old) eqn:E6; simpl;
    unfold drop_session, emit_lifecycle; simpl; rewrite E6; destruct ipv6_allocator; done.
Qed.

(** In a replacement the session is dropped when the thread gets to the
    reservation. *)
Lemma replace_alone s q old :
  sessions s !! id_of q = Some old ->
  exists n, (n <= 7)%nat /\ alone n s (Create q) = (drop_session s (id_of q) old, Reserve q).
Proof.
  intros E. destruct (ClientSession.tunnel_ipv6 old) eqn:E6.
  - exists 7%nat. split; [lia|]. destruct s. simpl in *. rewrite E. simpl. rewrite E6. simpl.
    unfold drop_session, emit_lifecycle. simpl. rewrite E6. by destruct ipv6_allocator.
  - exists 6%nat. split; [lia|]. destruct s. simpl in *. rewrite E. simpl. rewrite E6. simpl.
    unfold drop_session, emit_lifecycle. simpl. rewrite E6. by destruct ipv6_allocator.
Qed.

Lemma alone_app n m s p : alone (n + m) s p = let '(s', p') := alone n s p in alone m s' p'.
Proof.
  revert s p. induction n as [|n IH]; intros s p; simpl; [done|]. destruct (act s p). apply IH.
Qed.

Lemma alone_created n s r : alone n s (Created r) = (s, Created r).
Proof. induction n; done. Qed.

Lemma alone_removed n s r : alone n s (Removed r) = (s, Removed r).
Proof. induction n; done. Qed.

Definition create (s : t) (q : request) :=
  create_session_dual_stack_with_level s (at_clock q) (session q) (client_addr q) (level q).

Lemma remove_absent s id : sessions s !! id = None -> remove_session s id = (s, None).
Proof. unfold remove_session. by intros ->. Qed.

Lemma create_replaces s q :
  create s q = create (fst (remove_session s (id_of q))) q.
Proof.
  unfold create, create_session_dual_stack_with_level. fold (id_of q).
  rewrite (remove_absent (fst (remove_session s (id_of q)))); [reflexivity|].
  rewrite remove_session_sessions. apply lookup_delete_eq.
Qed.

Lemma set_count_same s n : session_count s = n -> set_count s n = s.
Proof. intros <-. by destruct s. Qed.

Lemma reserve_alone s q :
  sessions s !! id_of q = None -> 0 <= session_count s < U64_MAX ->
  alone 7 s (Reserve q) = (fst (create s q), Created (snd (create s q))).
Proof.
  intros E Hc. unfold create, create_session_dual_stack_with_level. fold (id_of q).
  rewrite remove_absent by done. cbn [fst].
  assert (wrapping_add 64 (session_count s) 1 = session_count s + 1) as Ha
    by (unfold wrapping_add, U64_MAX in *; apply Z.mod_small; lia).
  assert (wrapping_sub 64 (session_count s + 1) 1 = session_count s + 1 - 1) as Hs
    by (unfold wrapping_sub, U64_MAX in *; apply Z.mod_small; lia).
  destruct s as [m i4 i6 a4 a6 si si6 st mx n pps bps cb].
  cbn [alone act max_sessions session_count] in *. unfold fetch_add. cbn [session_count] in *. rewrite Ha.
  destruct (mx <=? n) eqn:Em.
  { simpl. unfold fetch_sub. simpl. rewrite Hs. unfold set_count. simpl. do 2 f_equal. lia. }
  simpl. destruct (IpAllocator.allocate a4) as [a4' [ip|]] eqn:E4; simpl.
  2:{ unfold fetch_sub. simpl. by rewrite Hs. }
  destruct a6 as [p6|]; simpl;
    [destruct (Ipv6Allocator.allocate p6) as [a6' [ip6|]]; simpl|]; [|unfold fetch_sub; simpl; by rewrite Hs|];
    unfold ClientSession.with_rate_limit, SessionRateLimiter.new, SessionRateLimiter.burst;
    by destruct (U64_MAX <? bps * 2).
Qed.

(** The configuration after the threads of a schedule have moved in turn. *)
Definition move (x : config) (i : nat) : config :=
  match snd x !! i with
  | Some p => let '(s, q) := act (fst x) p in (s, <[i := q]> (snd x))
  | None => x
  end.

Lemma move_steps x schedule : rtc step x (foldl move x schedule).
Proof.
  revert x. induction schedule as [|i l IH]; intros x; simpl; [done|].
  transitivity (move x i); [|apply IH]. unfold move.
  destruct x as [s ts]. simpl. destruct (ts !! i) as [p|] eqn:E; [|done].
  pose proof (step_thread s ts i p E) as H. destruct (act s p). by apply rtc_once.
Qed.

(** * Properties *)

(** C19: however calls that create and remove sessions interleave, and
    whatever sessions they replace, the table never holds more sessions than
    [max_sessions], not even together with the slots reserved for sessions
    about to be inserted; and the counter never wraps around. *)
Theorem session_limit_interleaved {O : HashIter Z ClientSession.t} s n s' ts :
  reachable s -> 0 <= max_sessions s -> max_sessions s + Z.of_nat n < 2 ^ 64 ->
  rtc step (s, idle n) (s', ts) ->
  Z.of_nat (size (sessions s')) + number reserved ts <= max_sessions s' /\
  Z.of_nat (size (sessions s')) <= session_count s' < 2 ^ 64.
Proof.
  intros Hs%reachable_inv Hm Hn Hr.
  assert (len (idle n) = Z.of_nat n) as Hl by (unfold len, idle; by rewrite length_replicate).
  destruct (slots_steps (s, idle n) (s', ts) (slots_idle s n Hs Hm)) as [(H1 & H2 & H3 & H4) H5];
    [cbn [fst snd]; lia|done|]. cbn [fst snd] in H5.
  pose proof (number_bound reserved ts). pose proof (number_bound owed ts).
  pose proof (number_bound rejecting ts). lia.
Qed.

(** A call that is not interrupted computes what the sequential
    functions say, whichever of its branches it takes. *)
Lemma threads_alone s :
  0 <= session_count s < U64_MAX ->
  (forall q, exists n, alone n s (Create q) = (fst (create s q), Created (snd (create s q)))) /\
  (forall id, exists n,
     alone n s (Remove id) = (fst (remove_session s id), Removed (snd (remove_session s id)))).
Proof.
  intros Hc. split.
  - intros q. rewrite (create_replaces s q). unfold remove_session at 1 2.
    destruct (sessions s !! id_of q) as [old|] eqn:E; cbn [fst].
    + destruct (replace_alone s q old E) as (n & _ & Hn). exists (n + 7)%nat. rewrite alone_app, Hn.
      apply reserve_alone; [apply lookup_delete_eq|]. simpl. unfold saturating_sub. lia.
    + exists 8%nat. change 8%nat with (1 + 7)%nat. rewrite alone_app. cbn [alone act]. rewrite E.
      by apply reserve_alone.
  - intros id. unfold remove_session. destruct (sessions s !! id) as [old|] eqn:E.
    + exists 7%nat. cbn [alone act]. rewrite E. cbn [fst snd]. by apply take_alone.
    + exists 1%nat. simpl. by rewrite E.
Qed.

End Threads.

End SessionThreads.

(** * Examples *)

Definition example_request : SessionThreads.request :=
  SessionThreads.mk_request example_clock example_session example_addr SecurityLevel.Level5.

(** Two threads of a server have been asked for a session each. *)
Definition example_threads : SessionThreads.config :=
  (example_manager, [SessionThreads.Create example_request; SessionThreads.Create example_request]).

Lemma example_threads_step :
  rtc SessionThreads.step (example_manager, SessionThreads.idle 2) example_threads.
Proof.
  apply (rtc_l _ _ (example_manager, [SessionThreads.Create example_request; SessionThreads.Removed None])).
  - apply (SessionThreads.step_call example_manager (SessionThreads.idle 2) 0 (SessionThreads.Removed None)
      (SessionThreads.Create example_request)); [done|right; by eexists|left; by eexists].
  - apply rtc_once.
    apply (SessionThreads.step_call example_manager
      [SessionThreads.Create example_request; SessionThreads.Removed None] 1 (SessionThreads.Removed None)
      (SessionThreads.Create example_request)); [done|right; by eexists|left; by eexists].
Qed.

(** Both threads find no session to replace before either inserts one. *)
Definition overlapping : SessionThreads.config :=
  foldl SessionThreads.move example_threads [0; 1; 0; 1; 0; 1; 0; 1; 0; 1; 0; 1; 0; 1]%nat.

(** Two calls for one identifier that overlap leave a slot taken that no
    session has, and an address that finds a session with another one. *)
Lemma overlapping_creates_leak :
  rtc SessionThreads.step (example_manager, SessionThreads.idle 2) overlapping /\
  snd overlapping = [SessionThreads.Created (Ok ([10; 99; 0; 2], None));
                     SessionThreads.Created (Ok ([10; 99; 0; 3], None))] /\
  size (SessionManager.sessions (fst overlapping)) = 1%nat /\
  SessionManager.session_count (fst overlapping) = 2 /\
  SessionManager.get_session_by_ip (fst overlapping) [10; 99; 0; 2] = Some 7 /\
  option_map ClientSession.tunnel_ip (SessionManager.get_session (fst overlapping) 7)
    = Some [10; 99; 0; 3].
Proof.
  split; [|repeat split; vm_compute; reflexivity].
  transitivity example_threads; [exact example_threads_step|apply SessionThreads.move_steps].
Qed.

Lemma session_limit_interleaved_witness :
  Z.of_nat (size (SessionManager.sessions (fst overlapping))) <= 2.
Proof.
  assert (rtc SessionThreads.step (example_manager, SessionThreads.idle 2)
            (fst overlapping, snd overlapping)) as Hr.
  { rewrite <- surjective_pairing.
    transitivity example_threads; [exact example_threads_step|apply SessionThreads.move_steps]. }
  pose proof (proj1 (SessionThreads.session_limit_interleaved example_manager 2 _ _
    example_manager_reachable ltac:(by_decide) ltac:(by_decide) Hr)) as H.
  assert (SessionManager.max_sessions (fst overlapping) = 2) as Hm by (vm_compute; reflexivity).
  pose proof (SessionThreads.number_bound SessionThreads.reserved (snd overlapping)) as Hb.
  rewrite Hm in H. lia.
Defined.

