(* ===== verification/DataPlane.v ===== *)
(** The data path of the server: the packet parsers of hpn-server/src/tun.rs,
    the receiving and sending workers of hpn-server/src/udp_workers.rs and the
    reader of hpn-server/src/tun_workers.rs that encrypts in place.

    Each function handles one packet against the session table; clock readings
    and the contents of the recycled buffers are arguments.  What a worker puts
    on a channel is part of its answer; a full channel drops it. *)

From S2P Require Import Prelude Types Net Header Aead Keys Kdf ReplayWindow Session.
From S2P Require Import TokenBucket AddressPool SessionManager.

(** * Parsing packets (tun.rs) *)

Module IpVersion.
Inductive t := V4 | V6.
End IpVersion.

Module DestinationAddr.
Inductive t := V4 (ip : list Z) | V6 (ip : list Z).
End DestinationAddr.

Definition get_ip_version (packet : list Z) : result Empty_set (option IpVersion.t) :=
  if len packet =? 0 then Ok None
  else
    let? b0 := index packet 0 in
    Ok (if Z.shiftr b0 4 =? 4 then Some IpVersion.V4
        else if Z.shiftr b0 4 =? 6 then Some IpVersion.V6
        else None).

(** [packet.len() >= size && (packet[0] >> 4) == version], then a copy of the
    bytes from [a] to [b]. *)
Definition address_field (version size a b : Z) (packet : list Z) : result Empty_set (option (list Z)) :=
  if size <=? len packet then
    let? b0 := index packet 0 in
    if Z.shiftr b0 4 =? version then
      let? ip := range packet a b in
      Ok (Some ip)
    else Ok None
  else Ok None.

Definition get_destination_ip : list Z -> result Empty_set (option (list Z)) := address_field 4 20 16 20.
Definition get_source_ip : list Z -> result Empty_set (option (list Z)) := address_field 4 20 12 16.
Definition get_destination_ipv6 : list Z -> result Empty_set (option (list Z)) := address_field 6 40 24 40.
Definition get_source_ipv6 : list Z -> result Empty_set (option (list Z)) := address_field 6 40 8 24.

Definition get_destination_addr (packet : list Z) : result Empty_set (option DestinationAddr.t) :=
  let? version := get_ip_version packet in
  match version with
  | None => Ok None
  | Some IpVersion.V4 =>
      let? ip := get_destination_ip packet in Ok (option_map DestinationAddr.V4 ip)
  | Some IpVersion.V6 =>
      let? ip := get_destination_ipv6 packet in Ok (option_map DestinationAddr.V6 ip)
  end.

(** * Workers *)

Definition MAX_PACKET_SIZE : Z := 65535.

Module OutboundPacket.
Record t := mk { session_id : Z; data : list Z; client_addr : SocketAddr.t }.
End OutboundPacket.

Module WorkerControl.

Inductive t :=
| HandshakeInit (data : list Z) (addr : SocketAddr.t)
| HandshakeFragment (data : list Z) (addr : SocketAddr.t)
| Keepalive (session_id : Z) (data : list Z) (addr : SocketAddr.t)
| Control (session_id : Z) (data : list Z) (addr : SocketAddr.t)
| Rekey (session_id : Z) (data : list Z) (addr : SocketAddr.t).

End WorkerControl.

(** What a receiving worker puts on its channels. *)
Module Received.
Inductive t := ToTun (packet : list Z) | ToControl (message : WorkerControl.t) | Nothing.
End Received.

Module Workers.

Section WithRing.
Context {R : RingAead}.

(** A session changed through its guard. *)
Definition put (m : SessionManager.t) (id : Z) (c : ClientSession.t) : SessionManager.t :=
  SessionManager.mk (<[id := c]> (SessionManager.sessions m)) (SessionManager.ip_to_session m)
    (SessionManager.ipv6_to_session m) (SessionManager.ip_allocator m) (SessionManager.ipv6_allocator m)
    (SessionManager.server_ip m) (SessionManager.server_ipv6 m) (SessionManager.session_timeout m)
    (SessionManager.max_sessions m) (SessionManager.session_count m)
    (SessionManager.session_rate_limit_pps m) (SessionManager.session_rate_limit_bps m)
    (SessionManager.lifecycle_cb m).

Definition with_session (c : ClientSession.t) (s : Session.t) : ClientSession.t :=
  ClientSession.mk s (ClientSession.client_addr c) (ClientSession.tunnel_ip c)
    (ClientSession.tunnel_ipv6 c) (ClientSession.security_level c) (ClientSession.last_activity_ms c)
    (ClientSession.created_at c) (ClientSession.bytes_sent c) (ClientSession.bytes_received c)
    (ClientSession.src_mismatch_count c) (ClientSession.rate_limiter c).

(** Decrypting a packet of a session: the plaintext, or nothing. *)
Definition decrypt_for (c : ClientSession.t) (now : Z) (data buf : list Z)
    : ClientSession.t * result Empty_set (option (list Z)) :=
  let '(s, r) := Session.decrypt_packet (ClientSession.session c) now data buf in
  (with_session c s,
   match r with
   | Ok (out, _, n) => let? plain := range out 0 n in Ok (Some plain)
   | Err _ => Ok None
   | Panic => Panic
   end).

(** Whether the source of the packet is the address of the session. *)
Definition valid_src (c : ClientSession.t) (buf : list Z) : result Empty_set bool :=
  let? b0 := index buf 0 in
  let ip_version := Z.shiftr b0 4 in
  if (ip_version =? 4) && (20 <=? len buf) then
    let? src := range buf 12 16 in
    Ok (bool_decide (src = ClientSession.tunnel_ip c))
  else if (ip_version =? 6) && (40 <=? len buf) then
    match ClientSession.tunnel_ipv6 c with
    | Some ipv6 => let? src := range buf 8 24 in Ok (bool_decide (src = ipv6))
    | None => Ok false
    end
  else Ok false.

(** The branch of [process_packet] for data; [pooled] is the recycled buffer. *)
Definition process_data (m : SessionManager.t) (k : clock) (pooled data : list Z) (addr : SocketAddr.t)
    (session_id : Z) : SessionManager.t * result Empty_set Received.t :=
  match SessionManager.get_session m session_id with
  | None => (m, Ok Received.Nothing)
  | Some c =>
      let addr_changed := negb (bool_decide (ClientSession.client_addr c = addr)) in
      let '(c, r) := decrypt_for c (now k) data pooled in
      match r with
      | Panic => (put m session_id c, Panic)
      | Err e => match e with end
      | Ok None => (put m session_id c, Ok Received.Nothing)
      | Ok (Some buf) =>
          if addr_changed then (put m session_id c, Ok Received.Nothing)
          else
            match ClientSession.check_rate_limit (E := Empty_set) c (now_us k) (len buf) with
            | Panic => (put m session_id c, Panic)
            | Err e => match e with end
            | Ok (c, false) => (put m session_id c, Ok Received.Nothing)
            | Ok (c, true) =>
                match (if 0 <? len buf then valid_src c buf else Ok true) with
                | Panic => (put m session_id c, Panic)
                | Err e => match e with end
                | Ok false =>
                    let '(c, mismatch_count) := ClientSession.increment_src_mismatch c in
                    (put m session_id c, let? _ := mismatch_count in Ok Received.Nothing)
                | Ok true =>
                    let c := ClientSession.touch c (now_ms k) in
                    let c := ClientSession.add_bytes_received c (len data) in
                    (put m session_id c, Ok (Received.ToTun buf))
                end
            end
      end
  end.

Definition process_packet (m : SessionManager.t) (k : clock) (pooled data : list Z) (addr : SocketAddr.t)
    : SessionManager.t * result Empty_set Received.t :=
  if len data <? HEADER_SIZE then (m, Ok Received.Nothing)
  else
    match PacketHeader.decode data with
    | Panic => (m, Panic)
    | Err _ => (m, Ok Received.Nothing)
    | Ok header =>
        let session_id := PacketHeader.session_id header in
        match PacketHeader.msg_type header with
        | MessageType.Data => process_data m k pooled data addr session_id
        | MessageType.HandshakeInit | MessageType.EncryptedHandshakeInit =>
            (m, Ok (Received.ToControl (WorkerControl.HandshakeInit data addr)))
        | MessageType.HandshakeFragment =>
            (m, Ok (Received.ToControl (WorkerControl.HandshakeFragment data addr)))
        | MessageType.Keepalive =>
            (m, Ok (Received.ToControl (WorkerControl.Keepalive session_id data addr)))
        | MessageType.Control =>
            (m, Ok (Received.ToControl (WorkerControl.Control session_id data addr)))
        | MessageType.Rekey =>
            (m, Ok (Received.ToControl (WorkerControl.Rekey session_id data addr)))
        | _ => (m, Ok Received.Nothing)
        end
    end.

(** The session a packet read from the TUN device is for, and its address. *)
Definition dest_session (m : SessionManager.t) (packet : list Z)
    : result Empty_set (option (Z * SocketAddr.t)) :=
  let? dest := get_destination_addr packet in
  Ok match dest with
     | Some (DestinationAddr.V4 dst_ip) => SessionManager.get_session_and_addr_by_ip m dst_ip
     | Some (DestinationAddr.V6 dst_ip) => SessionManager.get_session_and_addr_by_ipv6 m dst_ip
     | None => None
     end.

(** Encrypting for a session: the packet. *)
Definition encrypt_for (c : ClientSession.t) (msg_type : MessageType.t) (payload buf : list Z)
    : ClientSession.t * result Empty_set (option (list Z)) :=
  let '(s, r) := Session.encrypt_packet (ClientSession.session c) msg_type payload buf in
  (with_session c s,
   match r with
   | Ok (out, n) => let? packet := range out 0 n in Ok (Some packet)
   | Err _ => Ok None
   | Panic => Panic
   end).

(** The reader that hands packets to the senders. *)
Definition tun_read (m : SessionManager.t) (packet : list Z)
    : result Empty_set (option OutboundPacket.t) :=
  let? dest := dest_session m packet in
  Ok match dest with
     | Some (session_id, client_addr) => Some (OutboundPacket.mk session_id packet client_addr)
     | None => None
     end.

Definition encrypt_packet_zero_copy (m : SessionManager.t) (packet : OutboundPacket.t) (encrypt_buf : list Z)
    : SessionManager.t * result Empty_set (option (list Z * SocketAddr.t)) :=
  let id := OutboundPacket.session_id packet in
  match SessionManager.get_session m id with
  | None => (m, Ok None)
  | Some c =>
      let '(c, r) := encrypt_for c MessageType.Data (OutboundPacket.data packet) encrypt_buf in
      (put m id c,
       let? r := r in
       Ok (option_map (fun out => (out, OutboundPacket.client_addr packet)) r))
  end.

(** The reader that encrypts into the buffer of the batch itself. *)
Definition tun_read_inline (m : SessionManager.t) (packet encrypt_buf : list Z)
    : SessionManager.t * result Empty_set (option (list Z * SocketAddr.t)) :=
  match dest_session m packet with
  | Panic => (m, Panic)
  | Err e => match e with end
  | Ok None => (m, Ok None)
  | Ok (Some (session_id, client_addr)) =>
      match SessionManager.get_session m session_id with
      | None => (m, Ok None)
      | Some c =>
          let '(c, r) := encrypt_for c MessageType.Data packet encrypt_buf in
          match r with
          | Panic => (put m session_id c, Panic)
          | Err e => match e with end
          | Ok None => (put m session_id c, Ok None)
          | Ok (Some out) =>
              let c := ClientSession.add_bytes_sent c (len out) in
              (put m session_id c, Ok (Some (out, client_addr)))
          end
      end
  end.

End WithRing.

End Workers.

(** * Lemmas *)

Module DataPath.
Import Workers.

Section DataPath.
Context {R : RingAead} {L : RingAeadLaws} {I : SetIter Z}.

(** A table the invariant holds of, with well-formed sessions. *)
Definition healthy (m : SessionManager.t) : Prop :=
  inv m /\ forall id c, SessionManager.get_session m id = Some c -> Session.wf (ClientSession.session c).

(** Where a session's packets go and come from. *)
Definition endpoint (c : ClientSession.t) : SocketAddr.t * list Z * option (list Z) * SecurityLevel.t :=
  (ClientSession.client_addr c, ClientSession.tunnel_ip c, ClientSession.tunnel_ipv6 c,
   ClientSession.security_level c).

Definition endpoints (m : SessionManager.t) (id : Z) :=
  option_map endpoint (SessionManager.get_session m id).

(** The two states of one session between operations of the data path. *)
Definition same (c c' : ClientSession.t) : Prop :=
  endpoint c' = endpoint c /\
  Session.session_id (ClientSession.session c') = Session.session_id (ClientSession.session c) /\
  Session.wf (ClientSession.session c') /\
  SessionRateLimiter.max_bps (ClientSession.rate_limiter c') =
    SessionRateLimiter.max_bps (ClientSession.rate_limiter c).

Lemma put_get m id c id' :
  SessionManager.get_session (put m id c) id' =
    if decide (id = id') then Some c else SessionManager.get_session m id'.
Proof.
  unfold put, SessionManager.get_session. simpl. destruct (decide (id = id')) as [<-|].
  - apply lookup_insert_eq.
  - by apply lookup_insert_ne.
Qed.

Lemma table_put_inv m id c c' :
  inv m -> SessionManager.get_session m id = Some c ->
  ClientSession.tunnel_ip c' = ClientSession.tunnel_ip c ->
  ClientSession.tunnel_ipv6 c' = ClientSession.tunnel_ipv6 c ->
  Session.session_id (ClientSession.session c') = Session.session_id (ClientSession.session c) ->
  SessionRateLimiter.max_bps (ClientSession.rate_limiter c') =
    SessionRateLimiter.max_bps (ClientSession.rate_limiter c) ->
  inv (put m id c').
Proof.
  unfold SessionManager.get_session. intros [Hc Hm Hid H4 H6 P4 P6 He Hr Hl] Hg E4 E6 Es Eb.
  unfold put. split; simpl; try done.
  - rewrite map_size_insert_Some; [done|by eexists].
  - intros id' d [[<- <-]|[_ Hd]]%lookup_insert_Some; [rewrite Es; by apply Hid|by apply Hid].
  - eapply indexes_update; [done|exact Hg|]. unfold v4. by rewrite E4.
  - by eapply indexes_update.
  - destruct (SessionManager.lifecycle_cb m); [|done]. rewrite He, dom_insert_L.
    assert (id ∈ dom (SessionManager.sessions m)) by (apply elem_of_dom; by eexists). set_solver.
  - intros id' d [[<- <-]|[_ Hd]]%lookup_insert_Some; [|by apply (Hl id')].
    unfold SessionRateLimiter.fits. rewrite Eb. by apply (Hl id).
Qed.

Lemma put_healthy m id c c' :
  healthy m -> SessionManager.get_session m id = Some c -> same c c' -> healthy (put m id c').
Proof.
  intros [Hi Hw] Hg ([= Ea E4 E6 El] & Es & Hw' & Eb). split; [by eapply table_put_inv|].
  intros id' d. rewrite put_get. destruct (decide (id = id')); [by intros [= <-]|apply Hw].
Qed.

Lemma put_endpoints m id c c' id' :
  SessionManager.get_session m id = Some c -> same c c' -> endpoints (put m id c') id' = endpoints m id'.
Proof.
  intros Hg (He & _). unfold endpoints. rewrite put_get.
  destruct (decide (id = id')) as [<-|]; [|done]. rewrite Hg. simpl. by rewrite He.
Qed.

Lemma same_refl c : Session.wf (ClientSession.session c) -> same c c.
Proof. done. Qed.

Lemma same_trans c d e : same c d -> same d e -> same c e.
Proof. intros (E1 & S1 & W1 & B1) (E2 & S2 & W2 & B2). unfold same. split_and!; congruence || done. Qed.

Lemma same_with_session c s :
  Session.wf s -> Session.session_id s = Session.session_id (ClientSession.session c) ->
  same c (with_session c s).
Proof. done. Qed.

Lemma same_touch c d t : same c d -> same c (ClientSession.touch d t).
Proof. done. Qed.

Lemma same_received c d n : same c d -> same c (ClientSession.add_bytes_received d n).
Proof. done. Qed.

Lemma same_sent c d n : same c d -> same c (ClientSession.add_bytes_sent d n).
Proof. done. Qed.

Lemma same_mismatch {E} c d : same c d -> same c (fst (ClientSession.increment_src_mismatch (E := E) d)).
Proof. done. Qed.

(** Checking the limit changes the tokens of the session only. *)
Lemma check_rate_limit_spec {E} c t n :
  SessionRateLimiter.fits (ClientSession.rate_limiter c) ->
  exists l b, ClientSession.check_rate_limit (E := E) c t n = Ok (ClientSession.set_rate_limiter c l, b) /\
    SessionRateLimiter.max_bps l = SessionRateLimiter.max_bps (ClientSession.rate_limiter c).
Proof.
  intros Hf. unfold ClientSession.check_rate_limit.
  pose proof (SessionRateLimiter.check_spec (E := E) (ClientSession.rate_limiter c) t n) as H.
  destruct (SessionRateLimiter.check _ _ _) as [[l b]| |]; [|done..]. exists l, b. by destruct H.
Qed.

Lemma same_rate_limit c d l :
  same c d -> SessionRateLimiter.max_bps l = SessionRateLimiter.max_bps (ClientSession.rate_limiter d) ->
  same c (ClientSession.set_rate_limiter d l).
Proof. intros (E & S & W & B) Hl. unfold same. split_and!; try done. simpl. congruence. Qed.

Hint Resolve same_touch same_received same_sent same_mismatch : core.

(** ** Decrypting and encrypting for a session *)

(** The packet [data] carries [plain] to the session. *)
Definition authentic (s : Session.t) (h : PacketHeader.t) (plain data : list Z) : Prop :=
  PacketHeader.wf h /\ PacketHeader.session_id h = Session.session_id s /\
  PacketHeader.key_id h = Session.key_id s /\
  Session.is_valid_counter s (PacketHeader.counter h) = true /\
  Session.sealed_packet (Session.recv_key s) (SessionKeys.recv_nonce_prefix (Session.keys s)) h plain data.

Lemma encrypt_packet_id s mt payload buf :
  Session.session_id (fst (Session.encrypt_packet s mt payload buf)) = Session.session_id s.
Proof.
  unfold Session.encrypt_packet, Session.next_send_counter. cbv zeta.
  destruct (Counter.MAX_SAFE <=? Session.send_counter s); [done|].
  match goal with |- context [match ?o with _ => _ end] => destruct o as [[out n]|e|] end; done.
Qed.

Lemma decrypt_for_spec c now data buf :
  Session.wf (ClientSession.session c) -> bytes_ok data ->
  let '(c', r) := decrypt_for c now data buf in
  same c c' /\
  match r with
  | Ok (Some plain) =>
      bytes_ok plain /\
      exists h, PacketHeader.decode data = Ok h /\ authentic (ClientSession.session c) h plain data /\
        forall now' buf', snd (decrypt_for c' now' data buf') = Ok None
  | Ok None => c' = c
  | _ => False
  end.
Proof.
  intros Hw Hb. unfold decrypt_for.
  pose proof (Session.decrypt_packet_wf (ClientSession.session c) now data buf Hw Hb) as Hw'.
  pose proof (Session.decrypt_packet_refused (ClientSession.session c) now data buf) as Hr.
  pose proof (Session.decrypt_packet_no_panic (ClientSession.session c) now data buf Hw Hb) as Hp.
  destruct (Session.decrypt_packet (ClientSession.session c) now data buf) as [s' [[[out h] n]|e|]] eqn:Hd;
    simpl in *; [|rewrite Hr by tauto; by destruct c|done].
  destruct (Session.decrypt_packet_inv _ _ _ _ _ _ _ _ Hw Hb Hd)
    as (Hh & Hn & Hi & Hk & _ & [Hm Hpb] & Hseal & w & Hcu & ->).
  rewrite range_ok by lia. split; [done|]. split; [done|]. exists h. split_and!.
  - pose proof Hseal as (u & ct & tag & _ & _ & ->). rewrite PacketHeader.decode_wire by done. by rewrite Hn.
  - unfold authentic. split_and!; try done. unfold Session.is_valid_counter.
    by rewrite <- AntiReplayWindow.check_and_update_check, Hcu.
  - intros now' buf'.
    destruct (Session.decrypt_packet_twice _ _ _ _ _ _ now' buf' Hw Hb Hd) as [e ->]. done.
Qed.

Lemma encrypt_packet_outcome s mt payload buf :
  Session.wf s -> bytes_ok payload -> len payload <= MAX_SEAL ->
  match snd (Session.encrypt_packet s mt payload buf) with
  | Ok (out, n) =>
      exists packet rest, out = packet ++ rest /\ n = len packet /\ bytes_ok packet /\
        Session.sealed_packet (Session.send_key s) (SessionKeys.send_nonce_prefix (Session.keys s))
          (PacketHeader.new mt (Session.session_id s) (Session.key_id s) (Session.send_counter s)) payload packet
  | Err _ => True
  | Panic => False
  end.
Proof.
  intros Hw Hb Hm. destruct (Z.lt_ge_cases (Session.send_counter s) Counter.MAX_SAFE) as [Hc|Hc].
  - destruct (Z.le_gt_cases (HEADER_SIZE + len payload + TAG_SIZE) (len buf)) as [Hl|Hl].
    + destruct (Session.encrypt_packet_ok s mt payload buf Hw Hc Hb Hm Hl)
        as (packet & rest & Hseal & Hlen & Hpb & ->). simpl. exists packet, rest. by rewrite Hlen.
    + unfold Session.encrypt_packet. rewrite Session.next_send_counter_ok by done. cbn [map_err rbind].
      cbv zeta. unfold PacketHeader.encoded_size. simpl PacketHeader.timestamp. cbv iota.
      by rewrite (proj2 (Z.ltb_lt _ _) Hl).
  - unfold Session.encrypt_packet, Session.next_send_counter. cbv zeta.
    by rewrite (proj2 (Z.leb_le _ _) Hc).
Qed.

Lemma encrypt_for_spec c mt payload buf :
  Session.wf (ClientSession.session c) -> bytes_ok payload -> len payload <= MAX_SEAL ->
  let s := ClientSession.session c in
  let '(c', r) := encrypt_for c mt payload buf in
  same c c' /\
  match r with
  | Ok (Some packet) =>
      bytes_ok packet /\
      Session.sealed_packet (Session.send_key s) (SessionKeys.send_nonce_prefix (Session.keys s))
        (PacketHeader.new mt (Session.session_id s) (Session.key_id s) (Session.send_counter s)) payload packet
  | Ok None => True
  | _ => False
  end.
Proof.
  intros Hw Hb Hm. unfold encrypt_for.
  pose proof (Session.encrypt_packet_wf (ClientSession.session c) mt payload buf Hw) as Hw'.
  pose proof (encrypt_packet_id (ClientSession.session c) mt payload buf) as Hi.
  pose proof (encrypt_packet_outcome (ClientSession.session c) mt payload buf Hw Hb Hm) as Ho.
  destruct (Session.encrypt_packet (ClientSession.session c) mt payload buf) as [s [[out n]|e|]];
    simpl in *; [|by split|done].
  destruct Ho as (packet & rest & -> & -> & Hpb & Hs).
  rewrite (range_rest_at _ 0 packet rest) by (apply rest_at_start || lia). by split.
Qed.

(** ** Packets *)

Lemma address_field_ok version size a b packet :
  0 < size -> 0 <= a -> a <= b -> b <= size ->
  address_field version size a b packet =
    Ok (if (size <=? len packet) && match packet with b0 :: _ => Z.shiftr b0 4 =? version | [] => false end
        then Some (slice packet a b) else None).
Proof.
  intros. unfold address_field. destruct (size <=? len packet) eqn:E; b2p; [|done].
  destruct packet as [|b0 packet]; [unfold len in E; simpl in E; lia|].
  change (index (b0 :: packet) 0) with (Ok (E:=Empty_set) b0). simpl.
  destruct (Z.shiftr b0 4 =? version); [|done]. by rewrite range_ok by lia.
Qed.

Lemma get_destination_addr_ok packet :
  exists d, get_destination_addr packet = Ok d /\
    match d with
    | Some (DestinationAddr.V4 ip) =>
        get_destination_ip packet = Ok (Some ip) /\ get_destination_ipv6 packet = Ok None
    | Some (DestinationAddr.V6 ip) =>
        get_destination_ip packet = Ok None /\ get_destination_ipv6 packet = Ok (Some ip)
    | None => get_destination_ip packet = Ok None /\ get_destination_ipv6 packet = Ok None
    end.
Proof.
  unfold get_destination_addr, get_ip_version, get_destination_ip, get_destination_ipv6.
  rewrite !address_field_ok by lia. destruct packet as [|b0 packet]; [by eexists|].
  assert ((len (b0 :: packet) =? 0) = false) as -> by (apply Z.eqb_neq; unfold len; simpl; lia).
  change (index (b0 :: packet) 0) with (Ok (E:=Empty_set) b0). sbind.
  destruct (Z.shiftr b0 4 =? 4) eqn:E4; b2p.
  - rewrite E4. change (4 =? 6) with false. rewrite !andb_false_r, !andb_true_r. sbind.
    eexists. split; [done|]. by destruct (20 <=? _).
  - rewrite !andb_false_r. destruct (Z.shiftr b0 4 =? 6) eqn:E6; sbind.
    + rewrite !andb_true_r. eexists. split; [done|]. by destruct (40 <=? _).
    + rewrite !andb_false_r. by eexists.
Qed.

(** The packet comes from an address of the session. *)
Definition from_tunnel (c : ClientSession.t) (buf : list Z) : Prop :=
  get_source_ip buf = Ok (Some (ClientSession.tunnel_ip c)) \/
  exists ip, ClientSession.tunnel_ipv6 c = Some ip /\ get_source_ipv6 buf = Ok (Some ip).

Lemma valid_src_spec c buf :
  buf <> [] -> exists b, valid_src c buf = Ok b /\ (b = true <-> from_tunnel c buf).
Proof.
  intros Hne. unfold valid_src, from_tunnel, get_source_ip, get_source_ipv6.
  rewrite !address_field_ok by lia. destruct buf as [|b0 buf]; [done|].
  change (index (b0 :: buf) 0) with (Ok (E:=Empty_set) b0). sbind.
  destruct (Z.shiftr b0 4 =? 4) eqn:E4; b2p.
  - rewrite E4. change (4 =? 6) with false. rewrite andb_false_r, andb_true_r.
    destruct (20 <=? len (b0 :: buf)) eqn:El; b2p; cbn [andb].
    + rewrite range_ok by lia. sbind. eexists. split; [done|]. rewrite bool_decide_eq_true.
      split; [intros ->; by left|]. by intros [[= ]|(? & _ & [=])].
    + eexists. split; [done|]. split; [done|]. by intros [[= ]|(? & _ & [=])].
  - rewrite andb_false_r. cbn [andb]. destruct (Z.shiftr b0 4 =? 6) eqn:E6; cbn [andb].
    + rewrite andb_true_r. destruct (40 <=? len (b0 :: buf)) eqn:El; b2p.
      * destruct (ClientSession.tunnel_ipv6 c) as [ip|].
        2:{ eexists. split; [done|]. split; [done|]. by intros [[= ]|(? & [=] & _)]. }
        rewrite range_ok by lia. sbind. eexists. split; [done|]. rewrite bool_decide_eq_true.
        split; [intros ->; right; by eexists|]. intros [[= ]|(ip' & [= ->] & [= ->])]. done.
      * eexists. split; [done|]. split; [done|]. by intros [[= ]|(? & _ & [=])].
    + rewrite andb_false_r. eexists. split; [done|]. split; [done|]. by intros [[= ]|(? & _ & [=])].
Qed.

(** An empty packet has no source to check. *)
Lemma src_checked c buf :
  exists b, (if 0 <? len buf then valid_src c buf else Ok true) = Ok b /\
    (b = true <-> buf = [] \/ from_tunnel c buf).
Proof.
  destruct (0 <? len buf) eqn:El; b2p.
  - assert (buf <> []) as Hne by (intros ->; unfold len in El; simpl in El; lia).
    destruct (valid_src_spec c buf Hne) as (b & -> & Hbt). exists b. split; [done|]. rewrite Hbt. tauto.
  - exists true. split; [done|]. split; [|done]. intros _. left. apply length_zero_iff_nil. unfold len in El. lia.
Qed.

(** ** Receiving *)

(** The counter of packets with a foreign source is exhausted: after
    2^32 - 1 of them the session sends another one. *)
Definition overrun (m : SessionManager.t) (data : list Z) (addr : SocketAddr.t) : Prop :=
  exists h c buf,
    PacketHeader.decode data = Ok h /\ PacketHeader.msg_type h = MessageType.Data /\
    SessionManager.get_session m (PacketHeader.session_id h) = Some c /\
    ClientSession.client_addr c = addr /\ authentic (ClientSession.session c) h buf data /\
    ~ from_tunnel c buf /\ U32_MAX <= ClientSession.src_mismatch_count c.

(** What a receiving worker may answer to a datagram. *)
Definition received_ok (m : SessionManager.t) (data : list Z) (addr : SocketAddr.t)
    (m' : SessionManager.t) (r : result Empty_set Received.t) : Prop :=
  match r with
  | Ok (Received.ToTun buf) =>
      exists h c c',
        PacketHeader.decode data = Ok h /\ PacketHeader.msg_type h = MessageType.Data /\
        SessionManager.get_session m (PacketHeader.session_id h) = Some c /\
        m' = put m (PacketHeader.session_id h) c' /\ same c c' /\
        ClientSession.client_addr c = addr /\ authentic (ClientSession.session c) h buf data /\
        (buf = [] \/ from_tunnel c buf) /\
        forall now pooled, snd (decrypt_for c' now data pooled) = Ok None
  | Ok (Received.ToControl w) =>
      m' = m /\
      match w with
      | WorkerControl.HandshakeInit d a | WorkerControl.HandshakeFragment d a => d = data /\ a = addr
      | WorkerControl.Keepalive id d a | WorkerControl.Control id d a | WorkerControl.Rekey id d a =>
          d = data /\ a = addr /\ exists h, PacketHeader.decode data = Ok h /\ PacketHeader.session_id h = id
      end
  | Ok Received.Nothing => True
  | Err _ => False
  | Panic => overrun m data addr
  end.

Lemma decrypt_for_eq c now data buf :
  decrypt_for c now data buf =
    (with_session c (ClientSession.session (fst (decrypt_for c now data buf))),
     snd (decrypt_for c now data buf)).
Proof. unfold decrypt_for. by destruct (Session.decrypt_packet _ _ _ _). Qed.

Lemma decrypt_for_session c d now data buf :
  ClientSession.session c = ClientSession.session d ->
  snd (decrypt_for c now data buf) = snd (decrypt_for d now data buf).
Proof. unfold decrypt_for. intros ->. by destruct (Session.decrypt_packet _ _ _ _). Qed.

Lemma from_tunnel_endpoint c d buf : endpoint c = endpoint d -> from_tunnel c buf <-> from_tunnel d buf.
Proof. unfold from_tunnel. intros [= _ -> -> _]. done. Qed.

Lemma process_data_spec m k pooled data addr h :
  healthy m -> bytes_ok data -> PacketHeader.decode data = Ok h ->
  PacketHeader.msg_type h = MessageType.Data ->
  let '(m', r) := process_data m k pooled data addr (PacketHeader.session_id h) in
  healthy m' /\ (forall id, endpoints m' id = endpoints m id) /\ received_ok m data addr m' r.
Proof.
  intros Hm Hb Hd Ht. unfold process_data. set (id := PacketHeader.session_id h).
  destruct (SessionManager.get_session m id) as [c|] eqn:Hg; [|done].
  pose proof (proj2 Hm id c Hg) as Hw.
  pose proof (decrypt_for_spec c (now k) data pooled Hw Hb) as Hdec.
  pose proof (f_equal (fun x => ClientSession.src_mismatch_count (fst x)) (decrypt_for_eq c (now k) data pooled)) as Hcnt.
  destruct (decrypt_for c (now k) data pooled) as [c1 r]. destruct Hdec as [Hs1 Hr]. simpl in Hcnt.
  assert (forall c', same c c' ->
    healthy (put m id c') /\ (forall id', endpoints (put m id c') id' = endpoints m id')) as Hput.
  { intros c' Hs. split; [by eapply put_healthy|intros; by eapply put_endpoints]. }
  destruct r as [[buf|]|e|]; [|destruct (Hput c1 Hs1); by split_and!|done|done].
  destruct (negb (bool_decide (ClientSession.client_addr c = addr))) eqn:Ea.
  { destruct (Hput c1 Hs1); by split_and!. }
  apply negb_false_iff, bool_decide_eq_true in Ea.
  assert (SessionRateLimiter.fits (ClientSession.rate_limiter c1)) as Hfit.
  { destruct Hs1 as (_ & _ & _ & Eb). unfold SessionRateLimiter.fits. rewrite Eb.
    by apply (inv_limits m (proj1 Hm) id). }
  destruct (check_rate_limit_spec (E := Empty_set) c1 (now_us k) (len buf) Hfit) as (l & allowed & -> & Hmax).
  pose proof (same_rate_limit _ _ l Hs1 Hmax) as Hs2.
  assert (ClientSession.src_mismatch_count c1 = ClientSession.src_mismatch_count c) as Hmc by exact Hcnt.
  set (c2 := ClientSession.set_rate_limiter c1 l) in *.
  destruct allowed; [|destruct (Hput c2 Hs2); by split_and!].
  destruct (src_checked c2 buf) as (b & -> & Hsrc).
  destruct Hr as (Hpb & h' & Hd' & Hau & Hre). rewrite Hd in Hd'. injection Hd' as <-.
  assert (from_tunnel c2 buf <-> from_tunnel c buf) as Hft.
  { apply from_tunnel_endpoint. by destruct Hs2 as [-> _]. }
  destruct b.
  2:{ cbn [ClientSession.increment_src_mismatch]. destruct (Hput _ (same_mismatch (E := Empty_set) _ _ Hs2)) as [Hh He].
      split_and!; try done. destruct (U32_MAX <? _) eqn:Eo; [|done]. b2p. exists h, c, buf. split_and!; try done.
      - rewrite <- Hft. intros Hf. discriminate (proj2 Hsrc (or_intror Hf)).
      - change (ClientSession.src_mismatch_count c2) with (ClientSession.src_mismatch_count c1) in Eo. lia. }
  destruct (Hput _ (same_received c _ (len data) (same_touch c _ (now_ms k) Hs2))) as [Hh He].
  split_and!; try done. eexists h, c, _. split_and!; try done.
  - rewrite <- Hft. by apply Hsrc.
  - intros t p. rewrite <- (Hre t p). by apply decrypt_for_session.
Qed.

Lemma process_packet_spec m k pooled data addr :
  healthy m -> bytes_ok data ->
  let '(m', r) := process_packet m k pooled data addr in
  healthy m' /\ (forall id, endpoints m' id = endpoints m id) /\ received_ok m data addr m' r.
Proof.
  intros Hm Hb. unfold process_packet. destruct (len data <? HEADER_SIZE); [done|].
  pose proof (PacketHeader.decode_no_panic data Hb) as Hp.
  destruct (PacketHeader.decode data) as [h|e|] eqn:Hd; [|done|done].
  destruct (PacketHeader.msg_type h) eqn:Ht; try (split_and!; try done; simpl; naive_solver).
  by apply process_data_spec.
Qed.

(** ** Sending *)

(** The packet is for an address of the session. *)
Definition to_tunnel (c : ClientSession.t) (packet : list Z) : Prop :=
  get_destination_ip packet = Ok (Some (ClientSession.tunnel_ip c)) \/
  exists ip, ClientSession.tunnel_ipv6 c = Some ip /\ get_destination_ipv6 packet = Ok (Some ip).

Lemma dest_session_spec m packet :
  inv m ->
  exists d, dest_session m packet = Ok d /\
    forall id a, d = Some (id, a) <->
      exists c, SessionManager.get_session m id = Some c /\ ClientSession.client_addr c = a /\ to_tunnel c packet.
Proof.
  intros [_ _ _ H4 H6 _ _ _ _ _]. unfold dest_session, to_tunnel.
  destruct (get_destination_addr_ok packet) as (d & -> & Hd). sbind. eexists. split; [done|]. intros id a.
  unfold SessionManager.get_session.
  destruct d as [[ip|ip]|]; destruct Hd as [E4 E6]; rewrite E4, E6.
  - unfold SessionManager.get_session_and_addr_by_ip. rewrite (addr_by_ip _ _ v4 ip id a H4). unfold v4.
    split.
    + intros (c & Hc & [= <-] & Ha). exists c. split_and!; try done. by left.
    + intros (c & Hc & Ha & [[= ->]|(? & _ & [=])]). by exists c.
  - unfold SessionManager.get_session_and_addr_by_ipv6. rewrite (addr_by_ip _ _ _ ip id a H6). split.
    + intros (c & Hc & Hip & Ha). exists c. split_and!; try done. right. by exists ip.
    + intros (c & Hc & Ha & [[=]|(ip' & Hip & [= ->])]). by exists c.
  - split; [done|]. by intros (c & _ & _ & [[=]|(? & _ & [=])]).
Qed.

(** What a sender may answer to a packet of the TUN device. *)
Definition sent_ok (m : SessionManager.t) (packet : list Z) (m' : SessionManager.t)
    (r : result Empty_set (option (list Z * SocketAddr.t))) : Prop :=
  match r with
  | Ok (Some (out, a)) =>
      exists id c c', SessionManager.get_session m id = Some c /\ ClientSession.client_addr c = a /\
        to_tunnel c packet /\ m' = put m id c' /\ same c c' /\
        let s := ClientSession.session c in
        Session.sealed_packet (Session.send_key s) (SessionKeys.send_nonce_prefix (Session.keys s))
          (PacketHeader.new MessageType.Data (Session.session_id s) (Session.key_id s)
             (Session.send_counter s)) packet out
  | Ok None => True
  | _ => False
  end.

Lemma tun_read_inline_spec m packet buf :
  healthy m -> bytes_ok packet -> len packet <= MAX_PACKET_SIZE ->
  let '(m', r) := tun_read_inline m packet buf in
  healthy m' /\ (forall id, endpoints m' id = endpoints m id) /\ sent_ok m packet m' r.
Proof.
  intros Hm Hb Hl. unfold tun_read_inline.
  destruct (dest_session_spec m packet (proj1 Hm)) as (d & -> & Hd).
  destruct d as [[id a]|]; [|done]. destruct (proj1 (Hd id a) eq_refl) as (c & Hg & Ha & Ht). rewrite Hg.
  assert (len packet <= MAX_SEAL) as Hms by (unfold MAX_PACKET_SIZE, MAX_SEAL in *; lia).
  pose proof (encrypt_for_spec c MessageType.Data packet buf (proj2 Hm id c Hg) Hb Hms) as He. cbv zeta in He.
  destruct (encrypt_for c MessageType.Data packet buf) as [c1 r]. destruct He as [Hs Hr].
  destruct r as [[out|]|e|]; [|split_and!; [by eapply put_healthy|intros; by eapply put_endpoints|done]|done|done].
  assert (same c (ClientSession.add_bytes_sent c1 (len out))) as Hs' by done.
  split_and!; [by eapply put_healthy|intros; by eapply put_endpoints|].
  exists id, c, (ClientSession.add_bytes_sent c1 (len out)). destruct Hr. by split_and!.
Qed.


(** ** Delivery *)

Definition limit (c : ClientSession.t) : Z := SessionRateLimiter.max_bps (ClientSession.rate_limiter c).

(** The limit lets a packet of [n] bytes pass. *)
Definition within_limit (c : ClientSession.t) (t n : Z) : Prop :=
  exists c', ClientSession.check_rate_limit (E := Empty_set) c t n = Ok (c', true).

Lemma within_limit_intro c t n l :
  SessionRateLimiter.check (E := Empty_set) (ClientSession.rate_limiter c) t n = Ok (l, true) -> within_limit c t n.
Proof. intros E. unfold within_limit, ClientSession.check_rate_limit. rewrite E. by eexists. Qed.

Lemma within_limit_with_session c s t n :
  within_limit c t n ->
  exists l, ClientSession.check_rate_limit (E := Empty_set) (with_session c s) t n =
    Ok (ClientSession.set_rate_limiter (with_session c s) l, true) /\
    SessionRateLimiter.max_bps l = SessionRateLimiter.max_bps (ClientSession.rate_limiter c).
Proof.
  unfold within_limit, ClientSession.check_rate_limit. simpl. intros [c' H].
  pose proof (SessionRateLimiter.check_spec (E := Empty_set) (ClientSession.rate_limiter c) t n) as Hl.
  destruct (SessionRateLimiter.check _ _ _) as [[l b]| |]; simplify_eq/=. exists l. by destruct Hl.
Qed.

Lemma sent_header_wf s mt :
  Session.wf s -> Session.send_counter s < Counter.MAX_SAFE ->
  PacketHeader.wf (PacketHeader.new mt (Session.session_id s) (Session.key_id s) (Session.send_counter s)).
Proof.
  intros (? & ? & _ & ? & _) Hc. apply Session.data_header_wf; try done. apply Session.max_safe_u64. lia.
Qed.

(** A packet the peer sealed with a fresh counter is decrypted. *)
Lemma decrypt_for_sealed c cs mt payload packet now buf :
  Session.wf (ClientSession.session c) -> Session.wf cs -> Session.linked cs (ClientSession.session c) ->
  Session.send_counter cs < Counter.MAX_SAFE ->
  Session.is_valid_counter (ClientSession.session c) (Session.send_counter cs) = true ->
  bytes_ok payload -> len payload <= MAX_SEAL -> len payload + TAG_SIZE <= len buf ->
  Session.sealed_packet (Session.send_key cs) (SessionKeys.send_nonce_prefix (Session.keys cs))
    (PacketHeader.new mt (Session.session_id cs) (Session.key_id cs) (Session.send_counter cs)) payload packet ->
  exists s', decrypt_for c now packet buf = (with_session c s', Ok (Some payload)) /\
    Session.took (ClientSession.session c) s' (Session.send_counter cs).
Proof.
  intros Hr Hs (Li & Lk & Lr & Lp) Hc Hv Hb Hm Ho Hseal.
  set (h := PacketHeader.new _ _ _ _) in Hseal. rewrite <- Lr, <- Lp in Hseal.
  pose proof (sent_header_wf cs mt Hs Hc : PacketHeader.wf h) as Hh.
  destruct (Session.decrypt_packet_sealed (ClientSession.session c) now h payload packet buf) as (rest & Hd);
    try done.
  change (PacketHeader.counter h) with (Session.send_counter cs) in Hd.
  rewrite Session.is_valid_counter_update in Hv. unfold Session.took.
  destruct (Session.update_recv_counter _ (Session.send_counter cs)) as [s1 ok]. simpl in Hv. subst ok.
  simpl negb in Hd. cbv iota in Hd. unfold decrypt_for. rewrite Hd.
  rewrite (range_rest_at _ 0 payload rest) by (apply rest_at_start || lia).
  eexists. split; [done|]. by do 2 eexists.
Qed.

Lemma decode_sealed key prefix h payload packet :
  PacketHeader.wf h -> PacketHeader.normalise h = h -> Session.sealed_packet key prefix h payload packet ->
  PacketHeader.decode packet = Ok h /\ HEADER_SIZE <= len packet.
Proof.
  intros Hh Hn (u & ct & tag & _ & _ & ->). rewrite PacketHeader.decode_wire by done. rewrite Hn. split; [done|].
  rewrite !len_app, PacketHeader.len_wire. pose proof (len_nonneg ct). pose proof (len_nonneg tag).
  unfold PacketHeader.encoded_size, HEADER_SIZE, HEADER_SIZE_WITH_TIMESTAMP.
  destruct (PacketHeader.timestamp h); lia.
Qed.

Lemma from_tunnel_nonempty c p : from_tunnel c p -> p <> [].
Proof.
  unfold from_tunnel, get_source_ip, get_source_ipv6. intros H ->.
  rewrite !address_field_ok in H by lia. simpl in H. by destruct H as [[=]|(? & _ & [=])].
Qed.

Lemma upload m id c cs p packet k pooled :
  healthy m -> SessionManager.get_session m id = Some c ->
  Session.wf cs -> Session.linked cs (ClientSession.session c) ->
  Session.send_counter cs < Counter.MAX_SAFE ->
  Session.is_valid_counter (ClientSession.session c) (Session.send_counter cs) = true ->
  bytes_ok p -> len p <= MAX_PACKET_SIZE -> len p + TAG_SIZE <= len pooled ->
  from_tunnel c p -> within_limit c (now_us k) (len p) ->
  Session.sealed_packet (Session.send_key cs) (SessionKeys.send_nonce_prefix (Session.keys cs))
    (PacketHeader.new MessageType.Data (Session.session_id cs) (Session.key_id cs) (Session.send_counter cs))
    p packet ->
  exists c', process_packet m k pooled packet (ClientSession.client_addr c) = (put m id c', Ok (Received.ToTun p)) /\
    endpoint c' = endpoint c /\ limit c' = limit c /\
    Session.took (ClientSession.session c) (ClientSession.session c') (Session.send_counter cs).
Proof.
  intros Hm Hg Hs Hl Hc Hv Hb Hmax Ho Hsrc Hrl Hseal. pose proof (proj2 Hm id c Hg) as Hw.
  assert (len p <= MAX_SEAL) as Hms by (unfold MAX_PACKET_SIZE, MAX_SEAL in *; lia).
  destruct (decrypt_for_sealed c cs MessageType.Data p packet (now k) pooled) as (s' & Hd & Ht); [done..|].
  destruct (decode_sealed _ _ _ _ _ (sent_header_wf cs _ Hs Hc) eq_refl Hseal) as [Hde Hlen].
  unfold process_packet. rewrite (proj2 (Z.ltb_ge _ _) Hlen), Hde.
  cbn [PacketHeader.session_id PacketHeader.msg_type PacketHeader.new].
  assert (Session.session_id cs = id) as ->.
  { destruct Hl as [<- _]. by apply (inv_id _ (proj1 Hm)). }
  unfold process_data. rewrite Hg, Hd. rewrite bool_decide_true by done. simpl negb. cbv iota.
  destruct (within_limit_with_session c s' _ _ Hrl) as (l & -> & Hlim). set (c2 := ClientSession.set_rate_limiter _ l).
  assert (endpoint c2 = endpoint c) as He by done.
  pose proof (from_tunnel_nonempty c p Hsrc) as Hne.
  destruct (valid_src_spec c2 p Hne) as (b' & -> & Hb').
  rewrite (proj2 Hb' (proj2 (from_tunnel_endpoint c2 c p He) Hsrc)).
  rewrite (proj2 (Z.ltb_lt _ _)) by (destruct p; [done|unfold len; simpl; lia]).
  eexists. split; [done|]. split; [exact He|]. split; [exact Hlim|done].
Qed.

Lemma download m id c q buf :
  healthy m -> SessionManager.get_session m id = Some c -> to_tunnel c q ->
  Session.send_counter (ClientSession.session c) < Counter.MAX_SAFE ->
  bytes_ok q -> len q <= MAX_PACKET_SIZE -> HEADER_SIZE + len q + TAG_SIZE <= len buf ->
  let s := ClientSession.session c in
  exists c' packet, tun_read_inline m q buf = (put m id c', Ok (Some (packet, ClientSession.client_addr c))) /\
    endpoint c' = endpoint c /\ limit c' = limit c /\ Session.gave s (ClientSession.session c') /\
    Session.sealed_packet (Session.send_key s) (SessionKeys.send_nonce_prefix (Session.keys s))
      (PacketHeader.new MessageType.Data (Session.session_id s) (Session.key_id s) (Session.send_counter s))
      q packet.
Proof.
  intros Hm Hg Ht Hc Hb Hmax Hl s. unfold tun_read_inline.
  destruct (dest_session_spec m q (proj1 Hm)) as (d & -> & Hd).
  rewrite (proj2 (Hd id (ClientSession.client_addr c))) by (by exists c). rewrite Hg.
  assert (len q <= MAX_SEAL) as Hms by (unfold MAX_PACKET_SIZE, MAX_SEAL in *; lia).
  destruct (Session.encrypt_packet_ok s MessageType.Data q buf (proj2 Hm id c Hg) Hc Hb Hms Hl)
    as (packet & rest & Hseal & Hlen & _ & He).
  unfold encrypt_for. fold s. rewrite He, <- Hlen.
  rewrite (range_rest_at _ 0 packet rest) by (apply rest_at_start || lia).
  do 2 eexists. split_and!; try done. by eexists.
Qed.

(** What the reader that only looks up the session may hand to the senders. *)
Definition queued_ok (m : SessionManager.t) (packet : list Z) (r : result Empty_set (option OutboundPacket.t)) : Prop :=
  match r with
  | Ok (Some o) =>
      OutboundPacket.data o = packet /\
      exists c, SessionManager.get_session m (OutboundPacket.session_id o) = Some c /\
        ClientSession.client_addr c = OutboundPacket.client_addr o /\ to_tunnel c packet
  | Ok None => forall id c, SessionManager.get_session m id = Some c -> ~ to_tunnel c packet
  | _ => False
  end.

Lemma tun_read_spec m packet : inv m -> queued_ok m packet (tun_read m packet).
Proof.
  intros Hi. unfold tun_read. destruct (dest_session_spec m packet Hi) as (d & -> & Hd). sbind.
  destruct d as [[id a]|]; simpl.
  - split; [done|]. by apply Hd.
  - intros id c Hc Ht. discriminate (proj2 (Hd id (ClientSession.client_addr c)) (ex_intro _ c (conj Hc (conj eq_refl Ht)))).
Qed.

(** What a sender may answer to a packet it was handed; the table may have
    changed since. *)
Definition sealed_ok (m : SessionManager.t) (o : OutboundPacket.t) (m' : SessionManager.t)
    (r : result Empty_set (option (list Z * SocketAddr.t))) : Prop :=
  match r with
  | Ok (Some (out, a)) =>
      a = OutboundPacket.client_addr o /\
      exists c c', SessionManager.get_session m (OutboundPacket.session_id o) = Some c /\
        m' = put m (OutboundPacket.session_id o) c' /\ same c c' /\
        let s := ClientSession.session c in
        Session.sealed_packet (Session.send_key s) (SessionKeys.send_nonce_prefix (Session.keys s))
          (PacketHeader.new MessageType.Data (Session.session_id s) (Session.key_id s)
             (Session.send_counter s)) (OutboundPacket.data o) out
  | Ok None => True
  | _ => False
  end.

Lemma encrypt_packet_zero_copy_spec m o buf :
  healthy m -> bytes_ok (OutboundPacket.data o) -> len (OutboundPacket.data o) <= MAX_PACKET_SIZE ->
  let '(m', r) := encrypt_packet_zero_copy m o buf in
  healthy m' /\ (forall id, endpoints m' id = endpoints m id) /\ sealed_ok m o m' r.
Proof.
  intros Hm Hb Hl. unfold encrypt_packet_zero_copy.
  destruct (SessionManager.get_session m (OutboundPacket.session_id o)) as [c|] eqn:Hg; [|done].
  assert (len (OutboundPacket.data o) <= MAX_SEAL) as Hms by (unfold MAX_PACKET_SIZE, MAX_SEAL in *; lia).
  pose proof (encrypt_for_spec c MessageType.Data (OutboundPacket.data o) buf (proj2 Hm _ c Hg) Hb Hms) as He.
  cbv zeta in He. destruct (encrypt_for c MessageType.Data (OutboundPacket.data o) buf) as [c1 r]. destruct He as [Hs Hr].
  split_and!; [by eapply put_healthy|intros; by eapply put_endpoints|].
  destruct r as [[out|]|e|]; simpl; try done. split; [done|]. exists c, c1. by destruct Hr.
Qed.

(** The two readers send the same packets to the same address; only the one
    that encrypts itself counts the bytes of the session. *)
Lemma senders_agree m packet buf :
  healthy m -> bytes_ok packet -> len packet <= MAX_PACKET_SIZE ->
  let two_steps :=
    match tun_read m packet with
    | Ok (Some o) => encrypt_packet_zero_copy m o buf
    | Ok None => (m, Ok None)
    | Err e => match e with end
    | Panic => (m, Panic)
    end in
  snd (tun_read_inline m packet buf) = snd two_steps /\
  forall id,
    option_map ClientSession.session (SessionManager.get_session (fst (tun_read_inline m packet buf)) id) =
    option_map ClientSession.session (SessionManager.get_session (fst two_steps) id).
Proof.
  intros Hm Hb Hl. unfold tun_read, tun_read_inline, encrypt_packet_zero_copy.
  destruct (dest_session_spec m packet (proj1 Hm)) as (d & -> & Hd).
  destruct d as [[id a]|]; sbind; [|done]. cbn [OutboundPacket.session_id OutboundPacket.client_addr OutboundPacket.data].
  destruct (SessionManager.get_session m id) as [c|] eqn:Hg; [|done].
  assert (len packet <= MAX_SEAL) as Hms by (unfold MAX_PACKET_SIZE, MAX_SEAL in *; lia).
  pose proof (encrypt_for_spec c MessageType.Data packet buf (proj2 Hm id c Hg) Hb Hms) as He. cbv zeta in He.
  destruct (encrypt_for c MessageType.Data packet buf) as [c1 [[out|]|e|]]; destruct He as [Hs Hr];
    try done; sbind; (split; [done|]); intros id'; rewrite !put_get; by destruct (decide (id = id')).
Qed.

(** * Properties *)


(** For a session in the table whose peer holds the linked session:
    every packet the peer sends from the tunnel address of the session reaches
    the TUN device unchanged, within the session's rate limit; every packet of
    the TUN device for that address reaches the peer, at the address the
    session is bound to, and decrypts there to the same packet. *)
Lemma tunnel_delivers m id c cs p q k pooled out buf out2 now' :
  healthy m -> SessionManager.get_session m id = Some c -> Session.wf cs ->
  Session.linked cs (ClientSession.session c) -> Session.linked (ClientSession.session c) cs ->
  Session.send_counter cs < Counter.MAX_SAFE ->
  Session.is_valid_counter (ClientSession.session c) (Session.send_counter cs) = true ->
  Session.send_counter (ClientSession.session c) < Counter.MAX_SAFE ->
  Session.is_valid_counter cs (Session.send_counter (ClientSession.session c)) = true ->
  bytes_ok p -> len p <= MAX_PACKET_SIZE - 64 -> from_tunnel c p ->
  within_limit c (now_us k) (len p) ->
  bytes_ok q -> len q <= MAX_PACKET_SIZE - 64 -> to_tunnel c q ->
  len out = MAX_PACKET_SIZE -> len buf = MAX_PACKET_SIZE -> len out2 = MAX_PACKET_SIZE ->
  len pooled = MAX_PACKET_SIZE ->
  (exists cs' packet rest m',
     Session.encrypt_packet cs MessageType.Data p out = (cs', Ok (packet ++ rest, len packet)) /\
     process_packet m k pooled packet (ClientSession.client_addr c) = (m', Ok (Received.ToTun p))) /\
  (exists m' packet cs' rest h,
     tun_read_inline m q buf = (m', Ok (Some (packet, ClientSession.client_addr c))) /\
     Session.decrypt_packet cs now' packet out2 = (cs', Ok (q ++ rest, h, len q))).
Proof.
  intros Hm Hg Hs L1 L2 Hc1 Hv1 Hc2 Hv2 Hbp Hlp Hsrc Hrl Hbq Hlq Hdst Ho Hbu Ho2 Hpo.
  assert (len p <= MAX_SEAL /\ len q <= MAX_SEAL) as [Hmp Hmq] by (unfold MAX_PACKET_SIZE, MAX_SEAL in *; lia).
  unfold MAX_PACKET_SIZE in *. split.
  - destruct (Session.encrypt_packet_ok cs MessageType.Data p out) as (packet & rest & Hseal & Hlen & _ & He);
      try done; [unfold HEADER_SIZE, TAG_SIZE; lia|].
    destruct (upload m id c cs p packet k pooled) as (c' & Hu & _); try done; try (unfold MAX_PACKET_SIZE, TAG_SIZE; lia).
    do 4 eexists. split; [rewrite He, Hlen; done|exact Hu].
  - destruct (download m id c q buf) as (c' & packet & Hd & _ & _ & _ & Hseal); try done;
      try (unfold MAX_PACKET_SIZE, HEADER_SIZE, TAG_SIZE; lia).
    destruct L2 as (Li & Lk & Lr & Lp). rewrite <- Lr, <- Lp in Hseal.
    pose proof (proj2 Hm id c Hg) as Hw.
    destruct (Session.decrypt_packet_sealed cs now' _ q packet out2 Hs
      (sent_header_wf _ _ Hw Hc2) eq_refl
      ltac:(by rewrite Li) ltac:(by rewrite Lk) Hbq Hmq Hseal ltac:(unfold TAG_SIZE; lia)) as (rest & Hdec).
    simpl PacketHeader.counter in Hdec. rewrite Session.is_valid_counter_update in Hv2.
    destruct (Session.update_recv_counter cs _) as [s1 ok]. simpl in Hv2. subst ok.
    do 5 eexists. split; [exact Hd|]. exact Hdec.
Qed.

End DataPath.
End DataPath.

(** * Examples *)

(** The table with the session 7, its client, and packets of that client. *)
Definition example_table : SessionManager.t :=
  fst (SessionManager.create_session_dual_stack_with_level example_manager example_clock
         example_session example_addr SecurityLevel.Level5).

Definition example_client_session : Session.t :=
  Session.mk 7 0 SessionState.Active example_keys (replicate 32 1) (replicate 32 2) 0
    AntiReplayWindow.new (AtomicInstant.mk 0 5) 5 0 0.

Definition example_ip_packet (src dst : list Z) : list Z :=
  [69; 0; 0; 20; 0; 0; 0; 0; 64; 17; 0; 0] ++ src ++ dst.

Definition example_entry : ClientSession.t :=
  fresh example_manager example_clock example_session example_addr [10; 99; 0; 2] None SecurityLevel.Level5.

Definition example_buffer : list Z := replicate (Z.to_nat MAX_PACKET_SIZE) 0.

Lemma len_example_buffer : len example_buffer = MAX_PACKET_SIZE.
Proof. unfold example_buffer. rewrite len_replicate, Z2Nat.id; [reflexivity|unfold MAX_PACKET_SIZE; lia]. Qed.

Lemma example_entry_found : SessionManager.get_session example_table 7 = Some example_entry.
Proof. reflexivity. Qed.

Lemma example_table_healthy : DataPath.healthy example_table.
Proof.
  pose proof (reachable_inv _ example_manager_reachable) as Hi.
  assert (snd (SessionManager.create_session_dual_stack_with_level example_manager example_clock
    example_session example_addr SecurityLevel.Level5) = Ok ([10; 99; 0; 2], None)) as Hr
    by (vm_compute; reflexivity).
  unfold example_table.
  destruct (SessionManager.create_session_dual_stack_with_level example_manager example_clock
    example_session example_addr SecurityLevel.Level5) as [m r] eqn:E. simpl in Hr. subst r.
  destruct (create_spec _ _ _ _ _ _ _ Hi E) as [Hm (_ & _ & Hs & _)].
  split; [exact Hm|]. intros id c Hc. cbn [fst] in Hc. unfold SessionManager.get_session in Hc.
  rewrite Hs in Hc. apply lookup_insert_Some in Hc as [[_ <-]|[_ Hc]]; [apply example_session_wf|].
  by rewrite remove_session_sessions, lookup_delete_ne in Hc.
Qed.

Lemma example_client_session_wf : Session.wf example_client_session.
Proof.
  unfold Session.wf. split; [by_decide|]. split; [by_decide|]. split; [by_decide|].
  split; [vm_compute; split; discriminate|]. exists AntiReplayWindow.spec_new. apply AntiReplayWindow.refines_new.
Qed.

(** The session has counted 2^32 - 1 packets with a foreign source: the next
    one aborts the worker. *)
Definition example_spoofed : list Z :=
  let out := snd (Session.encrypt_packet example_client_session MessageType.Data
                    (example_ip_packet [10; 99; 0; 9] [8; 8; 8; 8]) (replicate 100 0)) in
  match out with Ok (packet, n) => firstn (Z.to_nat n) packet | _ => [] end.

Definition with_mismatches (c : ClientSession.t) (n : Z) : ClientSession.t :=
  ClientSession.mk (ClientSession.session c) (ClientSession.client_addr c) (ClientSession.tunnel_ip c)
    (ClientSession.tunnel_ipv6 c) (ClientSession.security_level c) (ClientSession.last_activity_ms c)
    (ClientSession.created_at c) (ClientSession.bytes_sent c) (ClientSession.bytes_received c) n
    (ClientSession.rate_limiter c).

Lemma mismatch_counter_aborts :
  let received n :=
    snd (Workers.process_packet (Workers.put example_table 7 (with_mismatches example_entry n)) example_clock
           (replicate 100 0) example_spoofed example_addr) in
  received (U32_MAX - 1) = Ok Received.Nothing /\ received U32_MAX = Panic.
Proof. intros received. split; vm_compute; reflexivity. Qed.


