(* ===== verification/UserStore.v ===== *)
(** The user database: hpn-server/src/user_store.rs.

    The table [users] is the list of its rows; the statements of the source
    are functions on it.  A statement can fail for a reason of the database,
    which is an argument ([Some] of the error text, before any effect; the
    queries have a message for each of their stages, given whole).  The
    column [last_login] is never written.  Password hashing is the [argon2]
    crate; a character outside ASCII is classified by the Unicode tables. *)

From S2P Require Import Prelude Types Utf8 SessionManager.

(** [argon2_hash salt password] is the PHC string or an error text;
    [phc_params] are the memory and time cost a PHC string names. *)
Class Argon2 := {
  argon2_hash : list Z -> list Z -> list Z + string;
  phc_parses : list Z -> bool;
  phc_params : list Z -> option (Z * Z);
  argon2_verify : list Z -> list Z -> bool;
}.

(** Documented behaviour: hashing prints a PHC string with the parameters
    used, which the password verifies against. *)
Class Argon2Laws {A : Argon2} : Prop := {
  argon2_hash_ok salt p h :
    argon2_hash salt p = inl h ->
    phc_parses h = true /\ phc_params h = Some (65536, 3) /\ argon2_verify p h = true;
}.

(** [char::is_alphanumeric] of a character outside ASCII, given by its UTF-8
    bytes. *)
Class UnicodeTables := { unicode_alphanumeric : list Z -> bool }.

(** The characters of a valid string; the length is enough fuel. *)
Fixpoint chars_fuel (fuel : nat) (l : list Z) : list (list Z) :=
  match l, fuel with
  | b0 :: r, S fuel =>
      match next_chunk b0 r with
      | Valid n => (b0 :: take (n - 1) r) :: chars_fuel fuel (drop (n - 1) r)
      | Invalid n => chars_fuel fuel (drop (n - 1) r)
      end
  | _, _ => []
  end.

Definition chars (l : list Z) : list (list Z) := chars_fuel (length l) l.

Definition ascii_alphanumeric (b : Z) : bool := between 48 57 b || between 65 90 b || between 97 122 b.

Definition is_alphanumeric {U : UnicodeTables} (c : list Z) : bool :=
  match c with
  | [b] => ascii_alphanumeric b
  | _ => unicode_alphanumeric c
  end.

(** The collation NOCASE folds the letters of ASCII. *)
Definition fold_case (b : Z) : Z := if between 65 90 b then b + 32 else b.

Definition nocase (a b : list Z) : bool := bool_decide (map fold_case a = map fold_case b).

Definition text (l : list Z) : string :=
  foldr (fun b s => String (Ascii.ascii_of_N (Z.to_N b)) s) EmptyString l.

Module UserInfo.

Record t := mk {
  id : Z;
  username : list Z;
  created_at : Z;
  updated_at : Z;
  enabled : bool;
  last_login : option Z;
  failed_attempts : Z;
  locked_until : option Z;
}.

End UserInfo.

(** A row of the table. *)
Module UserRow.

Record t := mk {
  id : Z;
  username : list Z;
  password_hash : list Z;
  created_at : Z;
  updated_at : Z;
  enabled : bool;
  failed_attempts : Z;
  locked_until : option Z;
}.

Definition set_attempts (r : t) (failed_attempts : Z) (locked_until : option Z) : t :=
  mk (id r) (username r) (password_hash r) (created_at r) (updated_at r) (enabled r)
    failed_attempts locked_until.

Definition set_updated (r : t) (updated_at : Z) : t :=
  mk (id r) (username r) (password_hash r) (created_at r) updated_at (enabled r)
    (failed_attempts r) (locked_until r).

Definition set_enabled (r : t) (enabled : bool) : t :=
  mk (id r) (username r) (password_hash r) (created_at r) (updated_at r) enabled
    (failed_attempts r) (locked_until r).

Definition set_hash (r : t) (password_hash : list Z) : t :=
  mk (id r) (username r) password_hash (created_at r) (updated_at r) (enabled r)
    (failed_attempts r) (locked_until r).

Definition info (r : t) : UserInfo.t :=
  UserInfo.mk (id r) (username r) (created_at r) (updated_at r) (enabled r) None
    (failed_attempts r) (locked_until r).

End UserRow.

Definition I32_MAX : Z := 2147483647.
Definition I64_MAX : Z := 9223372036854775807.

Module UserStore.

(** [next_id]: AUTOINCREMENT never reuses an identifier.  [on_disk]: the store
    has a path. *)
Record t := mk { rows : list UserRow.t; next_id : Z; on_disk : bool }.

Definition MAX_FAILED_ATTEMPTS : Z := 10.
Definition LOCKOUT_BASE_SECS : Z := 30.
Definition LOCKOUT_MAX_SECS : Z := 3600.

Definition set_rows (s : t) (rows : list UserRow.t) : t := mk rows (next_id s) (on_disk s).

(** The row a username selects, and the updates of rows by name and by
    identifier. *)
Definition by_name (s : t) (username : list Z) : option UserRow.t :=
  find (fun r => nocase (UserRow.username r) username) (rows s).

Definition update_where (s : t) (p : UserRow.t -> bool) (f : UserRow.t -> UserRow.t) : t :=
  set_rows s (map (fun r => if p r then f r else r) (rows s)).

Definition named (username : list Z) (r : UserRow.t) : bool := nocase (UserRow.username r) username.

Definition with_id (id : Z) (r : UserRow.t) : bool := UserRow.id r =? id.

Definition config {A} (m : string) : result ServerError.t A := Err (ServerError.Config m).

Section WithArgon2.
Context {A : Argon2}.

Definition hash_password (salt password : list Z) : result ServerError.t (list Z) :=
  match argon2_hash salt password with
  | inl h => Ok h
  | inr e => config ("failed to hash password: " ++ e)
  end.

Definition verify_password_hash (password hash : list Z) : bool :=
  if phc_parses hash then argon2_verify password hash else false.

Definition hash_needs_upgrade (hash : list Z) : bool :=
  if negb (phc_parses hash) then false
  else
    match phc_params hash with
    | None => true
    | Some (m_cost, t_cost) => (m_cost <? 65536) || (t_cost <? 3)
    end.

(** The UPDATE or DELETE by name of the administrative operations: how many
    rows it changed decides the answer. *)
Definition execute_by_name (s : t) (fault : option string) (what : string) (username : list Z) (s' : t)
    : t * result ServerError.t bool :=
  match fault with
  | Some e => (s, config (what ++ e))
  | None => if existsb (named username) (rows s) then (s', Ok true) else (s, Ok false)
  end.

Definition add_user {U : UnicodeTables} (s : t) (now : Z) (fault : option string)
    (salt username password : list Z) : t * result ServerError.t unit :=
  if (len username =? 0) || (64 <? len username) then
    (s, config "username must be 1-64 characters")
  else if negb (forallb (fun c => is_alphanumeric c || bool_decide (c = [95]) ||
                  bool_decide (c = [45]) || bool_decide (c = [46])) (chars username)) then
    (s, config "username can only contain alphanumeric characters, underscores, hyphens, and dots")
  else if len password <? 8 then (s, config "password must be at least 8 characters")
  else
    match hash_password salt password with
    | Ok password_hash =>
        match fault with
        | Some e =>
            (s, match String.index 0 "UNIQUE constraint failed" e with
                | Some _ => config ("user '" ++ text username ++ "' already exists")
                | None => config ("failed to add user: " ++ e)
                end)
        | None =>
            if existsb (named username) (rows s) then
              (s, config ("user '" ++ text username ++ "' already exists"))
            else
              (mk (rows s ++ [UserRow.mk (next_id s) username password_hash now now true 0 None])
                 (next_id s + 1) (on_disk s), Ok tt)
        end
    | Err e => (s, Err e)
    | Panic => (s, Panic)
    end.

Definition remove_user (s : t) (fault : option string) (username : list Z)
    : t * result ServerError.t bool :=
  execute_by_name s fault "failed to remove user: " username
    (set_rows s (List.filter (fun r => negb (named username r)) (rows s))).

Definition get_user (s : t) (fault : option string) (username : list Z)
    : result ServerError.t (option UserInfo.t) :=
  match fault with
  | Some e => config e
  | None => Ok (option_map UserRow.info (by_name s username))
  end.

(** The time an account is locked for after its [n]th failure. *)
Definition lockout_until (now new_failed_attempts : Z) : option Z :=
  if MAX_FAILED_ATTEMPTS <=? new_failed_attempts then
    let exponent := Z.max 0 (Z.min (new_failed_attempts - MAX_FAILED_ATTEMPTS) 10) in
    let backoff_secs :=
      Z.min (Z.min (LOCKOUT_BASE_SECS * Z.shiftl 1 exponent) I64_MAX) LOCKOUT_MAX_SECS in
    Some (Z.min (now + backoff_secs) I64_MAX)
  else None.

(** The answer, and the rehash given to a thread of its own (identifier and
    password). *)
Definition verify_password (s : t) (now : Z) (select_fault update_fault : option string)
    (username password : list Z) : t * result ServerError.t bool * option (Z * list Z) :=
  match select_fault with
  | Some e => (s, config e, None)
  | None =>
      match by_name s username with
      | None => (s, Ok false, None)
      | Some row =>
          let user_id := UserRow.id row in
          let password_hash := UserRow.password_hash row in
          if match UserRow.locked_until row with Some until => now <? until | None => false end then
            (s, Ok false, None)
          else if negb (UserRow.enabled row) then (s, Ok false, None)
          else if verify_password_hash password password_hash then
            match update_fault with
            | Some e => (s, config ("failed to reset login attempts: " ++ e), None)
            | None =>
                (update_where s (with_id user_id) (fun r => UserRow.set_attempts r 0 None),
                 Ok true,
                 if hash_needs_upgrade password_hash && on_disk s then Some (user_id, password)
                 else None)
            end
          else
            let new_failed_attempts := Z.min (UserRow.failed_attempts row + 1) I32_MAX in
            match update_fault with
            | Some e => (s, config ("failed to update failed_attempts: " ++ e), None)
            | None =>
                (update_where s (with_id user_id)
                   (fun r => UserRow.set_updated
                      (UserRow.set_attempts r new_failed_attempts
                         (lockout_until now new_failed_attempts)) now),
                 Ok false, None)
            end
      end
  end.

(** What the thread of [spawn_hash_upgrade] does; [opens]: the database could
    be opened. *)
Definition run_hash_upgrade (s : t) (now : Z) (salt : list Z) (opens : bool) (fault : option string)
    (user_id : Z) (password : list Z) : t :=
  match hash_password salt password with
  | Ok new_hash =>
      if negb opens then s
      else
        match fault with
        | Some _ => s
        | None =>
            update_where s (with_id user_id)
              (fun r => UserRow.set_updated (UserRow.set_hash r new_hash) now)
        end
  | _ => s
  end.

Definition set_enabled (s : t) (now : Z) (fault : option string) (username : list Z) (enabled : bool)
    : t * result ServerError.t bool :=
  execute_by_name s fault "failed to update user: " username
    (update_where s (named username)
       (fun r => UserRow.set_updated (UserRow.set_enabled r enabled) now)).

Definition change_password (s : t) (now : Z) (fault : option string)
    (salt username new_password : list Z) : t * result ServerError.t bool :=
  if len new_password <? 8 then (s, config "password must be at least 8 characters")
  else
    match hash_password salt new_password with
    | Ok password_hash =>
        execute_by_name s fault "failed to update password: " username
          (update_where s (named username)
             (fun r => UserRow.set_attempts
                (UserRow.set_updated (UserRow.set_hash r password_hash) now) 0 None))
    | Err e => (s, Err e)
    | Panic => (s, Panic)
    end.

Definition reset_failed_attempts (s : t) (now : Z) (fault : option string) (username : list Z)
    : t * result ServerError.t bool :=
  execute_by_name s fault "failed to reset failed_attempts: " username
    (update_where s (named username)
       (fun r => UserRow.set_updated (UserRow.set_attempts r 0 None) now)).

Definition count_users (s : t) (fault : option string) : result ServerError.t Z :=
  match fault with
  | Some e => config ("failed to count users: " ++ e)
  | None => Ok (len (rows s))
  end.

Definition has_users (s : t) (fault : option string) : result ServerError.t bool :=
  let? c := count_users s fault in Ok (0 <? c).

End WithArgon2.

End UserStore.

(** * Rows and names *)

Module UserTable.
Import UserStore.

Lemma nocase_iff a b : nocase a b = true <-> map fold_case a = map fold_case b.
Proof. unfold nocase. apply bool_decide_eq_true. Qed.

Lemma nocase_refl a : nocase a a = true.
Proof. by apply nocase_iff. Qed.

Lemma nocase_sym a b : nocase a b = nocase b a.
Proof. unfold nocase. apply bool_decide_ext. naive_solver. Qed.

Lemma nocase_trans a b c : nocase a b = true -> nocase b c = nocase a c.
Proof. intros H%nocase_iff. unfold nocase. by rewrite H. Qed.

(** Names are unique up to case, identifiers are unique and used up, and the
    counters are in range. *)
Definition wf (s : t) : Prop :=
  NoDup ((fun r => map fold_case (UserRow.username r)) <$> rows s) /\
  NoDup (UserRow.id <$> rows s) /\
  Forall (fun r => UserRow.id r < next_id s /\ 0 <= UserRow.failed_attempts r <= I32_MAX) (rows s).

Lemma by_name_Some s u r : by_name s u = Some r -> r ∈ rows s /\ nocase (UserRow.username r) u = true.
Proof. intros [? ?]%find_some. by rewrite list_elem_of_In. Qed.

Lemma by_name_nocase s u v : nocase u v = true -> by_name s u = by_name s v.
Proof.
  intros H. unfold by_name. induction (rows s) as [|r rs IH]; [done|]. simpl.
  replace (nocase (UserRow.username r) u) with (nocase (UserRow.username r) v); [by rewrite IH|].
  rewrite (nocase_sym _ v), (nocase_sym _ u). by apply nocase_trans.
Qed.

Lemma by_name_elem s r : wf s -> r ∈ rows s -> by_name s (UserRow.username r) = Some r.
Proof.
  intros (Hn & _ & _). unfold by_name. induction (rows s) as [|x rs IH]; [set_solver|].
  rewrite fmap_cons, NoDup_cons in Hn. destruct Hn as [Hx Hn]. simpl.
  rewrite elem_of_cons. intros [->|Hr]; [by rewrite nocase_refl|].
  destruct (nocase (UserRow.username x) (UserRow.username r)) eqn:E; [|by apply IH].
  apply nocase_iff in E. destruct Hx. rewrite E.
  apply list_elem_of_fmap. by exists r.
Qed.

Lemma by_name_spec s u r : wf s -> by_name s u = Some r <-> r ∈ rows s /\ nocase (UserRow.username r) u = true.
Proof.
  intros Hw. split; [apply by_name_Some|]. intros [Hr Hn].
  rewrite <- (by_name_nocase s _ _ Hn). by apply by_name_elem.
Qed.

Lemma by_name_None s u : by_name s u = None <-> existsb (named u) (rows s) = false.
Proof.
  unfold by_name, named. induction (rows s) as [|r rs IH]; [done|]. simpl.
  by destruct (nocase (UserRow.username r) u).
Qed.

Lemma id_inj s r r' : wf s -> r ∈ rows s -> r' ∈ rows s -> UserRow.id r = UserRow.id r' -> r = r'.
Proof.
  intros (_ & Hi & _). induction (rows s) as [|x rs IH]; [set_solver|].
  rewrite fmap_cons, NoDup_cons in Hi. destruct Hi as [Hx Hi].
  rewrite !elem_of_cons. intros [->|Hr] [->|Hr'] E; [done| | |by apply IH].
  - destruct Hx. rewrite E. apply list_elem_of_fmap. by exists r'.
  - destruct Hx. rewrite <- E. apply list_elem_of_fmap. by exists r.
Qed.

(** An update that keeps names, identifiers and ranges. *)
Definition keeps (f : UserRow.t -> UserRow.t) : Prop :=
  forall r, UserRow.username (f r) = UserRow.username r /\ UserRow.id (f r) = UserRow.id r /\
    (0 <= UserRow.failed_attempts r <= I32_MAX -> 0 <= UserRow.failed_attempts (f r) <= I32_MAX).

Lemma update_where_wf s p f : keeps f -> wf s -> wf (update_where s p f).
Proof.
  intros Hf (Hn & Hi & Hr). unfold wf, update_where. simpl.
  assert (forall g : UserRow.t -> list Z, (forall r, g (f r) = g r) ->
    g <$> map (fun r => if p r then f r else r) (rows s) = g <$> rows s) as Hg.
  { intros g E. change (map ?h ?l) with (h <$> l). rewrite <- list_fmap_compose. apply list_fmap_ext.
    intros i r _. simpl. destruct (p r); [apply E|done]. }
  split_and!.
  - rewrite (Hg (fun r => map fold_case (UserRow.username r))); [done|]. intros r.
    by destruct (Hf r) as [-> _].
  - replace (UserRow.id <$> _) with (UserRow.id <$> rows s); [done|].
    change (map ?h ?l) with (h <$> l). rewrite <- list_fmap_compose. apply list_fmap_ext.
    intros i r _. simpl. destruct (p r); [by destruct (Hf r) as (_ & -> & _)|done].
  - apply Forall_fmap. eapply Forall_impl; [exact Hr|]. intros r [? ?]. simpl.
    destruct (p r); [|done]. destruct (Hf r) as (_ & -> & ?). auto.
Qed.

(** The row of a name after an update. *)
Lemma by_name_update s p f u :
  keeps f ->
  by_name (update_where s p f) u = option_map (fun r => if p r then f r else r) (by_name s u).
Proof.
  intros Hf. unfold by_name, update_where. simpl. induction (rows s) as [|r rs IH]; [done|]. simpl.
  replace (UserRow.username (if p r then f r else r)) with (UserRow.username r)
    by (destruct (p r); [by destruct (Hf r) as [-> _]|done]).
  by destruct (nocase (UserRow.username r) u).
Qed.

End UserTable.

(** * Guessing *)

Module Guessing.
Import UserStore UserTable.

Section Guessing.
Context {A : Argon2} {U : UnicodeTables}.

(** The operations besides a login. *)
Inductive op :=
| AddUser (salt username password : list Z)
| RemoveUser (username : list Z)
| HashUpgrade (salt : list Z) (opens : bool) (user_id : Z) (password : list Z)
| SetEnabled (username : list Z) (enabled : bool)
| ChangePassword (salt username new_password : list Z)
| ResetAttempts (username : list Z).

Definition run (s : t) (now : Z) (fault : option string) (o : op) : t :=
  match o with
  | AddUser salt u p => fst (add_user s now fault salt u p)
  | RemoveUser u => fst (remove_user s fault u)
  | HashUpgrade salt opens id p => run_hash_upgrade s now salt opens fault id p
  | SetEnabled u b => fst (set_enabled s now fault u b)
  | ChangePassword salt u p => fst (change_password s now fault salt u p)
  | ResetAttempts u => fst (reset_failed_attempts s now fault u)
  end.

(** The operations that do not forgive the failures of [u]. *)
Definition spares (u : list Z) (o : op) : bool :=
  match o with
  | RemoveUser v | ChangePassword _ v _ | ResetAttempts v => negb (nocase u v)
  | _ => true
  end.

Definition login (s : t) (now : Z) (select_fault update_fault : option string) (u p : list Z) : t :=
  fst (fst (verify_password s now select_fault update_fault u p)).

Definition answer (s : t) (now : Z) (select_fault update_fault : option string) (u p : list Z)
    : result ServerError.t bool :=
  snd (fst (verify_password s now select_fault update_fault u p)).

(** The login compares the password with the stored hash. *)
Definition compares (s : t) (now : Z) (u : list Z) : bool :=
  match by_name s u with
  | Some r =>
      negb match UserRow.locked_until r with Some until => now <? until | None => false end &&
      UserRow.enabled r
  | None => false
  end.

Lemma keeps_attempts n l :
  0 <= n <= I32_MAX -> keeps (fun r => UserRow.set_attempts r n l).
Proof. intros ? r. by destruct r. Qed.

Lemma keeps_failure n l now :
  0 <= n <= I32_MAX -> keeps (fun r => UserRow.set_updated (UserRow.set_attempts r n l) now).
Proof. intros ? r. by destruct r. Qed.

Lemma keeps_reset now : keeps (fun r => UserRow.set_updated (UserRow.set_attempts r 0 None) now).
Proof. by apply keeps_failure. Qed.

Lemma keeps_enabled b now : keeps (fun r => UserRow.set_updated (UserRow.set_enabled r b) now).
Proof. intros r. by destruct r. Qed.

Lemma keeps_hash h now : keeps (fun r => UserRow.set_updated (UserRow.set_hash r h) now).
Proof. intros r. by destruct r. Qed.

Lemma keeps_change h now :
  keeps (fun r => UserRow.set_attempts (UserRow.set_updated (UserRow.set_hash r h) now) 0 None).
Proof. intros r. by destruct r. Qed.

Lemma execute_fst s fault w u s' : fst (execute_by_name s fault w u s') = s \/ fst (execute_by_name s fault w u s') = s'.
Proof. unfold execute_by_name. repeat case_match; auto. Qed.

Lemma append_wf s u h now :
  wf s -> existsb (named u) (rows s) = false ->
  wf (mk (rows s ++ [UserRow.mk (next_id s) u h now now true 0 None]) (next_id s + 1) (on_disk s)).
Proof.
  intros (Hn & Hi & Hr) Hu. unfold wf. simpl. rewrite !fmap_app. split_and!.
  - apply NoDup_app. split_and!; [done| |apply NoDup_singleton]. intros x Hx Hx'.
    apply list_elem_of_singleton in Hx'. subst x. simpl in Hx.
    apply list_elem_of_fmap in Hx as (r & E & Hx). apply not_true_iff_false in Hu. apply Hu.
    apply existsb_exists. exists r. rewrite <- list_elem_of_In. split; [done|]. by apply nocase_iff.
  - apply NoDup_app. split_and!; [done| |apply NoDup_singleton]. intros x Hx Hx'.
    apply list_elem_of_singleton in Hx'. subst x. simpl in Hx.
    apply list_elem_of_fmap in Hx as (r & E & Hx). rewrite Forall_forall in Hr. apply Hr in Hx. lia.
  - apply Forall_app. split; [|by constructor; [simpl; unfold I32_MAX; lia|]].
    eapply Forall_impl; [exact Hr|]. simpl. lia.
Qed.

Lemma filter_wf s p : wf s -> wf (set_rows s (List.filter p (rows s))).
Proof.
  intros (Hn & Hi & Hr).
  assert (sublist (List.filter p (rows s)) (rows s)) as Hs.
  { clear. induction (rows s) as [|r rs IH]; simpl; [constructor|].
    destruct (p r); [by apply sublist_skip|by apply sublist_cons]. }
  unfold wf. simpl. split_and!.
  - eapply sublist_NoDup; [exact Hn|]. by apply fmap_sublist.
  - eapply sublist_NoDup; [exact Hi|]. by apply fmap_sublist.
  - rewrite Forall_forall in *. intros r Hx. apply Hr.
    apply list_elem_of_In, filter_In in Hx as [Hx _]. by apply list_elem_of_In.
Qed.

Lemma run_wf s now fault o : wf s -> wf (run s now fault o).
Proof.
  intros Hw. destruct o as [salt u p|u|salt op id p|u b|salt u p|u]; simpl.
  - unfold add_user. do 3 (case_match; [done|]). destruct (hash_password salt p); try done.
    destruct fault; [by repeat case_match|]. case_match; [done|]. by apply append_wf.
  - unfold remove_user. edestruct execute_fst as [-> | ->]; [done|]. by apply filter_wf.
  - unfold run_hash_upgrade. destruct (hash_password salt p); try done. repeat (case_match; [done|]).
    apply update_where_wf; [apply keeps_hash|done].
  - unfold set_enabled. edestruct execute_fst as [-> | ->]; [done|].
    apply update_where_wf; [apply keeps_enabled|done].
  - unfold change_password. case_match; [done|]. destruct (hash_password salt p); try done.
    edestruct execute_fst as [-> | ->]; [done|]. apply update_where_wf; [apply keeps_change|done].
  - unfold reset_failed_attempts. edestruct execute_fst as [-> | ->]; [done|].
    apply update_where_wf; [apply keeps_reset|done].
Qed.

(** ** One login *)

Definition forgive : UserRow.t -> UserRow.t := fun r => UserRow.set_attempts r 0 None.

Definition fail (now n : Z) : UserRow.t -> UserRow.t :=
  fun r => UserRow.set_updated (UserRow.set_attempts r n (lockout_until now n)) now.

Lemma fail_failed now n r : UserRow.failed_attempts (fail now n r) = n.
Proof. done. Qed.

Lemma fail_locked now n r : UserRow.locked_until (fail now n r) = lockout_until now n.
Proof. done. Qed.

Definition failures_after (r : UserRow.t) : Z := Z.min (UserRow.failed_attempts r + 1) I32_MAX.

Lemma login_spec s now u p :
  (login s now None None u p, answer s now None None u p) =
  match by_name s u with
  | None => (s, Ok false)
  | Some r =>
      if negb (compares s now u) then (s, Ok false)
      else if verify_password_hash p (UserRow.password_hash r)
      then (update_where s (with_id (UserRow.id r)) forgive, Ok true)
      else (update_where s (with_id (UserRow.id r)) (fail now (failures_after r)), Ok false)
  end.
Proof.
  unfold login, answer, verify_password, compares. destruct (by_name s u) as [r|]; [|done].
  destruct (match UserRow.locked_until r with Some until => now <? until | None => false end); [done|].
  simpl. destruct (UserRow.enabled r); [|done]. simpl. by destruct (verify_password_hash _ _).
Qed.

Lemma login_faulty s now f g u p :
  f <> None \/ g <> None -> login s now f g u p = s.
Proof.
  unfold login, verify_password. intros H. destruct f as [e|]; [done|].
  destruct g as [e|]; [|by destruct H]. destruct (by_name s u) as [r|]; [|done].
  by repeat case_match.
Qed.

Lemma failures_range s r : wf s -> r ∈ rows s -> 0 <= failures_after r <= I32_MAX.
Proof.
  intros (_ & _ & Hr) Hx. rewrite Forall_forall in Hr. apply Hr in Hx. unfold failures_after, I32_MAX in *. lia.
Qed.

(** An update of the row of one user leaves the others alone. *)
Lemma by_name_with_id s u r f v :
  wf s -> keeps f -> by_name s u = Some r ->
  by_name (update_where s (with_id (UserRow.id r)) f) v =
    if nocase u v then Some (f r) else by_name s v.
Proof.
  intros Hw Hf Hu. rewrite by_name_update by done. pose proof Hu as [Hr Hn]%by_name_Some.
  destruct (nocase u v) eqn:E.
  - rewrite <- (by_name_nocase s u v E), Hu. simpl. unfold with_id. by rewrite Z.eqb_refl.
  - destruct (by_name s v) as [r'|] eqn:Hv; [|done]. simpl. unfold with_id.
    destruct (UserRow.id r' =? UserRow.id r) eqn:Ei; [|done]. b2p.
    apply by_name_Some in Hv as [Hr' Hn']. assert (r' = r) as -> by by eapply id_inj.
    rewrite (nocase_sym _ u) in Hn. rewrite (nocase_trans u (UserRow.username r) v) in Hn' by done. congruence.
Qed.

Lemma login_wf s now f g u p : wf s -> wf (login s now f g u p).
Proof.
  intros Hw. destruct (decide (f = None /\ g = None)) as [[-> ->]|Hf].
  - pose proof (login_spec s now u p) as H. destruct (by_name s u) as [r|] eqn:Hu; [|by injection H as -> _].
    destruct (compares s now u); [|by injection H as -> _]. simpl in H. apply by_name_Some in Hu as [Hr _].
    destruct (verify_password_hash _ _); injection H as -> _; (apply update_where_wf; [|done]).
    + by apply keeps_attempts.
    + apply keeps_failure. by eapply failures_range.
  - rewrite login_faulty; [done|]. destruct f, g; naive_solver.
Qed.

(** ** Histories *)

Definition backoff (n : Z) : Z := Z.min (30 * 2 ^ Z.max 0 (Z.min (n - 10) 10)) 3600.

Lemma lockout_until_backoff now n :
  now + 3600 <= I64_MAX -> lockout_until now n = if 10 <=? n then Some (now + backoff n) else None.
Proof.
  intros Hn. unfold lockout_until, backoff, MAX_FAILED_ATTEMPTS, LOCKOUT_BASE_SECS, LOCKOUT_MAX_SECS.
  destruct (10 <=? n); [|done]. rewrite Z.shiftl_1_l. set (e := Z.max 0 _).
  assert (2 ^ e <= 2 ^ 10) by (apply Z.pow_le_mono_r; lia).
  assert (0 <= 2 ^ e) by (apply Z.pow_nonneg; lia). unfold I64_MAX in *. f_equal. lia.
Qed.

(** Comparisons, the latest first: from the tenth on each waits out the lock
    the one before it set. *)
Fixpoint gaps (ts : list Z) : Prop :=
  match ts with
  | [] => True
  | t2 :: rest =>
      match rest with
      | [] => True
      | t1 :: _ => 10 <= len rest -> t1 + backoff (len rest) <= t2
      end /\ gaps rest
  end.

(** [guessing u s ts]: from a store in which [u] has no failures, no login of
    [u] succeeded and nobody forgave its failures; the passwords tried for [u]
    were compared with its hash at the times [ts]. *)
Inductive guessing (u : list Z) : t -> list Z -> Prop :=
| guess_start s r :
    wf s -> by_name s u = Some r -> UserRow.failed_attempts r = 0 -> UserRow.locked_until r = None ->
    guessing u s []
| guess_op s ts now fault o :
    guessing u s ts -> spares u o = true -> guessing u (run s now fault o) ts
| guess_login s ts now fault v p :
    guessing u s ts -> now + 3600 <= I64_MAX ->
    (nocase u v = true -> answer s now fault None v p <> Ok true) ->
    guessing u (login s now fault None v p)
      (if nocase u v && compares s now u && bool_decide (fault = None) then now :: ts else ts).

Definition tracked (u : list Z) (s : t) (ts : list Z) : Prop :=
  wf s /\ gaps ts /\
  (forall x, head ts = Some x -> x + 3600 <= I64_MAX) /\
  exists r, by_name s u = Some r /\ UserRow.failed_attempts r = Z.min (len ts) I32_MAX /\
    UserRow.locked_until r =
      match head ts with Some x => lockout_until x (Z.min (len ts) I32_MAX) | None => None end.

Lemma backoff_min n : 10 <= n -> backoff (Z.min n I32_MAX) = backoff n.
Proof.
  unfold backoff, I32_MAX. intros.
  by replace (Z.min (Z.min n 2147483647 - 10) 10) with (Z.min (n - 10) 10) by lia.
Qed.

Lemma named_other u v s r : by_name s u = Some r -> negb (nocase u v) = true -> named v r = false.
Proof.
  intros [_ Hn]%by_name_Some Hv. unfold named. rewrite (nocase_sym _ u) in Hn.
  rewrite (nocase_trans u _ v Hn). by apply negb_true_iff.
Qed.

Lemma run_row u s now fault o r :
  wf s -> by_name s u = Some r -> spares u o = true ->
  exists r', by_name (run s now fault o) u = Some r' /\
    UserRow.failed_attempts r' = UserRow.failed_attempts r /\
    UserRow.locked_until r' = UserRow.locked_until r.
Proof.
  intros Hw Hu Ho. destruct o as [salt v p|v|salt op id p|v b|salt v p|v]; simpl in *.
  - unfold add_user. do 3 (case_match; [by eauto|]). destruct (hash_password salt p); [|by eauto..].
    destruct fault; [repeat case_match; by eauto|]. case_match; [by eauto|]. simpl. exists r.
    split; [|done]. unfold by_name in *. simpl.
    clear - Hu. induction (rows s) as [|x rs IH]; [done|]. simpl in *. case_match; [done|by apply IH].
  - unfold remove_user. edestruct execute_fst as [-> | ->]; [by eauto|]. exists r. split; [|done].
    apply by_name_spec; [by apply filter_wf|]. apply by_name_Some in Hu as [Hr Hn].
    split; [|done]. simpl. apply list_elem_of_In, filter_In. split; [by apply list_elem_of_In|].
    unfold named. rewrite (nocase_sym _ u) in Hn. by rewrite (nocase_trans u _ v Hn).
  - unfold run_hash_upgrade. destruct (hash_password salt p); [|by eauto..].
    repeat (case_match; [by eauto|]). rewrite by_name_update by apply keeps_hash. rewrite Hu. simpl.
    destruct (with_id id r); by eauto.
  - unfold set_enabled. edestruct execute_fst as [-> | ->]; [by eauto|].
    rewrite by_name_update by apply keeps_enabled. rewrite Hu. simpl. destruct (named v r); by eauto.
  - unfold change_password. case_match; [by eauto|]. destruct (hash_password salt p); [|by eauto..].
    edestruct execute_fst as [-> | ->]; [by eauto|].
    rewrite by_name_update by apply keeps_change. rewrite Hu. simpl. exists r.
    by rewrite (named_other u v s r Hu Ho).
  - unfold reset_failed_attempts. edestruct execute_fst as [-> | ->]; [by eauto|].
    rewrite by_name_update by apply keeps_reset. rewrite Hu. simpl. exists r.
    by rewrite (named_other u v s r Hu Ho).
Qed.

Lemma login_other u v s now p r :
  wf s -> by_name s u = Some r -> nocase u v = false -> by_name (login s now None None v p) u = Some r.
Proof.
  intros Hw Hu Hv. pose proof (login_spec s now v p) as Hs.
  destruct (by_name s v) as [r'|] eqn:Hr; [|injection Hs as -> _; done].
  destruct (compares s now v); [|injection Hs as -> _; done]. simpl in Hs.
  pose proof Hr as [Hin _]%by_name_Some. pose proof (failures_range s r' Hw Hin).
  assert (keeps forgive) by by apply keeps_attempts.
  assert (keeps (fail now (failures_after r'))) by by apply keeps_failure.
  by destruct (verify_password_hash _ _); injection Hs as -> _;
    rewrite (by_name_with_id s v r' _ u), nocase_sym, Hv.
Qed.

#[local] Opaque lockout_until.

Lemma tracked_gap u s ts now : tracked u s ts -> compares s now u = true -> gaps (now :: ts).
Proof.
  intros (_ & Hg & Hx & r & Hu & _ & Hl) Hc. split; [|exact Hg].
  destruct ts as [|t1 ts]; [exact I|]. intros H10. cbn [head] in Hl.
  assert (10 <= Z.min (len (t1 :: ts)) I32_MAX) as Hm by (unfold I32_MAX; lia).
  rewrite lockout_until_backoff in Hl by (by apply Hx).
  rewrite (proj2 (Z.leb_le _ _) Hm), backoff_min in Hl by exact H10.
  unfold compares in Hc. rewrite Hu, Hl in Hc. b2p. lia.
Qed.

Lemma tracked_fail u s ts now p v :
  tracked u s ts -> now + 3600 <= I64_MAX -> nocase u v = true -> compares s now u = true ->
  answer s now None None v p <> Ok true -> tracked u (login s now None None v p) (now :: ts).
Proof.
  intros Htr Ht Hv Hc Ha. pose proof (tracked_gap u s ts now Htr Hc) as Hgap.
  destruct Htr as (Hw & _ & _ & r & Hu & Hf & _). pose proof (len_nonneg ts) as Hlen.
  assert (by_name s v = Some r) as Hr by (by rewrite <- (by_name_nocase s u v Hv)).
  assert (compares s now v = true) as Hc' by (unfold compares in *; by rewrite Hr, Hu in *).
  pose proof (login_spec s now v p) as Hs. rewrite Hr, Hc' in Hs. simpl in Hs.
  destruct (verify_password_hash _ _); [by injection Hs as _ Ho|]. injection Hs as -> _.
  pose proof Hr as [Hin _]%by_name_Some. pose proof (failures_range s r Hw Hin) as Hfr.
  assert (keeps (fail now (failures_after r))) as Hk by by apply keeps_failure.
  assert (failures_after r = Z.min (len (now :: ts)) I32_MAX) as Hn
    by (unfold failures_after, I32_MAX in *; rewrite Hf, len_cons; lia).
  split_and!; [by apply update_where_wf| |by intros x [= <-]|].
  - exact Hgap.
  - exists (fail now (failures_after r) r). rewrite (by_name_with_id s v r _ u) by done.
    rewrite nocase_sym, Hv. split_and!; [done|by rewrite fail_failed|].
    rewrite fail_locked. cbn [head]. by rewrite <- Hn.
Qed.

Lemma guessing_tracked u s ts : guessing u s ts -> tracked u s ts.
Proof.
  induction 1 as [s r Hw Hu Hf Hl|s ts now fault o _ IH Ho|s ts now fault v p _ IH Ht Ha].
  - split_and!; [done|done|done|]. exists r. by rewrite Hf, Hl.
  - destruct IH as (Hw & Hg & Hx & r & Hu & Hf & Hl). destruct (run_row u s now fault o r Hw Hu Ho)
      as (r' & ? & ? & ?). split_and!; [by apply run_wf|done|done|]. exists r'. by split_and!; [|congruence..].
  - destruct fault as [e|].
    { rewrite login_faulty by (by left). by rewrite andb_false_r. }
    rewrite bool_decide_eq_true_2, andb_true_r by done.
    destruct (nocase u v) eqn:Hv; simpl; [destruct (compares s now u) eqn:Hc|].
    + by apply tracked_fail; auto.
    + destruct IH as (Hw & Hg & Hx & r & Hu & Hf & Hl).
      replace (login s now None None v p) with s; [by split_and!; eauto|].
      pose proof (login_spec s now v p) as Hs. unfold compares in *.
      rewrite <- (by_name_nocase s u v Hv), Hu in Hs. rewrite Hu in Hc. rewrite Hc in Hs. by injection Hs.
    + destruct IH as (Hw & Hg & Hx & r & Hu & Hf & Hl). split_and!; [by apply login_wf|done|done|].
      exists r. split; [|done]. by apply login_other.
Qed.

(** ** How many guesses *)

(** The waits after the tenth comparison add up. *)
Lemma backoff_le n : backoff n <= 3600.
Proof. apply Z.le_min_r. Qed.

Lemma backoff_values n :
  10 <= n ->
  backoff n = if 17 <=? n then 3600 else 30 * 2 ^ (n - 10).
Proof.
  intros Hn. unfold backoff. destruct (17 <=? n) eqn:E; b2p.
  - assert (2 ^ 7 <= 2 ^ Z.max 0 (Z.min (n - 10) 10)) by (apply Z.pow_le_mono_r; lia). lia.
  - replace (Z.max 0 (Z.min (n - 10) 10)) with (n - 10) by lia.
    assert (2 ^ (n - 10) <= 2 ^ 6) by (apply Z.pow_le_mono_r; lia). lia.
Qed.

(** The waits after the tenth comparison, added up: the first seven double
    from half a minute, the others are an hour. *)
Lemma backoff_sum (ts : list Z) t older :
  gaps (ts ++ t :: older) -> length older = 9%nat ->
  (if 7 <=? len ts then 3810 + 3600 * (len ts - 7) else 30 * 2 ^ len ts - 30)
  <= default t (head ts) - t.
Proof.
  intros Hg Ho. induction ts as [|x ts IH].
  { change (0 <= t - t). lia. }
  change ((x :: ts) ++ t :: older) with (x :: (ts ++ t :: older)) in Hg.
  assert (exists y, head (ts ++ t :: older) = Some y /\ y = default t (head ts)) as (y & Hy & Hd)
    by (destruct ts; eauto).
  destruct Hg as [H1 Hg]. specialize (IH Hg).
  assert (len (ts ++ t :: older) = len ts + 10) as Hl by (rewrite len_app, len_cons; unfold len; lia).
  pose proof (len_nonneg ts). destruct (ts ++ t :: older) as [|y' rest]; [done|]. injection Hy as ->.
  rewrite Hl in H1. specialize (H1 ltac:(lia)). rewrite backoff_values in H1 by lia.
  replace (len ts + 10 - 10) with (len ts) in H1 by lia. rewrite <- Hd in IH. simpl (default _ _). rewrite len_cons.
  rewrite (Z.add_comm 1), Z.pow_add_r by lia.
  destruct (17 <=? len ts + 10) eqn:E1, (7 <=? len ts) eqn:E2, (7 <=? len ts + 1) eqn:E3; b2p; try lia.
  assert (len ts = 6) as E6 by lia. rewrite E6 in *. simpl in *. lia.
Qed.
End Guessing.
End Guessing.

Import UserStore UserTable Guessing.

(** C26: passwords cannot be guessed quickly, and nobody is locked out for good.
    While no login of a user succeeds and no administrator forgives its
    failures, T seconds after the tenth comparison at most 16 + T/3600
    passwords have been compared with the user's hash, whatever else happens
    to the store; and an hour after the last comparison the right password is
    accepted again, which clears the failures. *)
Theorem password_guesses_bound {A : Argon2} {U : UnicodeTables} u s ts :
  guessing u s ts ->
  (forall recent tenth older,
     ts = recent ++ tenth :: older -> length older = 9%nat ->
     len ts <= 16 + (default tenth (head recent) - tenth) / 3600) /\
  (forall now v p r,
     by_name s u = Some r -> UserRow.enabled r = true ->
     verify_password_hash p (UserRow.password_hash r) = true -> nocase u v = true ->
     (forall x, head ts = Some x -> x + 3600 <= now) ->
     answer s now None None v p = Ok true /\
     by_name (login s now None None v p) u = Some (UserRow.set_attempts r 0 None)).
Proof.
  intros (Hw & Hg & Hx & r & Hu & _ & Hl)%guessing_tracked. split.
  - intros recent tenth older -> Ho. pose proof (backoff_sum recent tenth older Hg Ho) as Hb.
    pose proof (len_nonneg recent). rewrite len_app, len_cons.
    assert (len older = 9) as -> by (unfold len; by rewrite Ho).
    revert Hb. destruct (7 <=? len recent) eqn:E; intros Hb; b2p.
    + assert (len recent - 6 <= (default tenth (head recent) - tenth) / 3600)
        by (apply Z.div_le_lower_bound; lia). lia.
    + assert (2 ^ 0 <= 2 ^ len recent) by (apply Z.pow_le_mono_r; lia).
      assert (0 <= (default tenth (head recent) - tenth) / 3600) by (apply Z.div_pos; lia). lia.
  - intros now v p r' Hr He Hp Hv Ht. rewrite Hu in Hr. injection Hr as <-.
    assert (by_name s v = Some r) as Hr by (by rewrite <- (by_name_nocase s u v Hv)).
    assert (compares s now v = true) as Hc.
    { unfold compares. rewrite Hr, He, Hl. destruct (head ts) as [x|] eqn:Eh; [|done].
      specialize (Ht x eq_refl). specialize (Hx x eq_refl). rewrite lockout_until_backoff by done.
      destruct (10 <=? _); [|done]. rewrite (proj2 (Z.ltb_ge _ _)); [done|].
      pose proof (backoff_le (Z.min (len ts) I32_MAX)). lia. }
    pose proof (login_spec s now v p) as Hs. rewrite Hr, Hc, Hp in Hs. injection Hs as -> ->.
    split; [done|]. rewrite (by_name_with_id s v r _ u); [by rewrite nocase_sym, Hv|done| |done].
    by apply keeps_attempts.
Qed.

Section Accounts.
Context {A : Argon2} {L : Argon2Laws} {U : UnicodeTables}.

(** The password works for the name, in any case, at any time. *)
Definition accepts (s : t) (u p : list Z) : Prop :=
  forall v now, nocase u v = true -> answer s now None None v p = Ok true.

(** No login of the name succeeds. *)
Definition shut (s : t) (u : list Z) : Prop :=
  forall v now f g p, nocase u v = true -> answer s now f g v p <> Ok true.

Lemma accepts_row s u p r :
  by_name s u = Some r -> UserRow.enabled r = true -> UserRow.locked_until r = None ->
  verify_password_hash p (UserRow.password_hash r) = true -> accepts s u p.
Proof.
  intros Hu He Hl Hp v now Hv. pose proof (login_spec s now v p) as Hs. unfold compares in Hs.
  rewrite <- (by_name_nocase s u v Hv), Hu, He, Hl, Hp in Hs. by injection Hs.
Qed.

Lemma shut_row s u :
  (forall r, by_name s u = Some r -> UserRow.enabled r = false) -> shut s u.
Proof.
  intros Hu v now f g p Hv. unfold answer, verify_password. destruct f; [done|].
  rewrite <- (by_name_nocase s u v Hv). destruct (by_name s u) as [r|]; [|done].
  rewrite (Hu r eq_refl). by case_match.
Qed.

Lemma hash_verifies salt p h : hash_password salt p = Ok h -> verify_password_hash p h = true.
Proof.
  unfold hash_password, verify_password_hash. destruct (argon2_hash salt p) eqn:E; [|done].
  intros [= <-]. by apply argon2_hash_ok in E as (-> & _ & ->).
Qed.

Lemma execute_ok s fault w u s' s'' :
  execute_by_name s fault w u s' = (s'', Ok true) -> s'' = s' /\ exists r, by_name s u = Some r.
Proof.
  unfold execute_by_name. destruct fault; [done|]. destruct (existsb (named u) (rows s)) eqn:E; [|done].
  intros [= <-]. split; [done|]. destruct (by_name s u) eqn:Eu; [by eauto|]. apply by_name_None in Eu. congruence.
Qed.

Lemma add_user_inv s now fault salt u p s' :
  add_user s now fault salt u p = (s', Ok tt) ->
  exists h, hash_password salt p = Ok h /\ by_name s u = None /\
    s' = mk (rows s ++ [UserRow.mk (next_id s) u h now now true 0 None]) (next_id s + 1) (on_disk s).
Proof.
  unfold add_user. intros H. do 3 (case_match; [done|]). destruct (hash_password salt p) as [h|e|]; [|done..].
  destruct fault as [e|]; [by case_match|]. case_match eqn:E; [done|].
  injection H as <-. exists h. split_and!; [done|by apply by_name_None|done].
Qed.

Lemma by_name_append s r v :
  by_name (mk (rows s ++ [r]) (next_id s + 1) (on_disk s)) v =
    match by_name s v with
    | Some x => Some x
    | None => if nocase (UserRow.username r) v then Some r else None
    end.
Proof.
  unfold by_name. simpl. induction (rows s) as [|x rs IH]; [done|]. simpl.
  by destruct (nocase (UserRow.username x) v).
Qed.

(** Accounts work as the administrator left them.  Names are unique up to
    case and every operation keeps them so.  A user that was added can log in
    with the password given, under any spelling of the name; after a change of
    the password an enabled user can log in with the new one; a user that was
    disabled or removed cannot log in; and each of these operations leaves the
    other users as they were. *)
Lemma user_accounts s :
  wf s ->
  (forall now fault o, wf (run s now fault o)) /\
  (forall now f g u p, wf (login s now f g u p)) /\
  (forall now fault salt u p s',
     add_user s now fault salt u p = (s', Ok tt) ->
     by_name s u = None /\ accepts s' u p /\
     forall v, nocase u v = false -> by_name s' v = by_name s v) /\
  (forall now fault salt u p s' r,
     change_password s now fault salt u p = (s', Ok true) ->
     by_name s u = Some r -> UserRow.enabled r = true ->
     accepts s' u p /\ forall v, nocase u v = false -> by_name s' v = by_name s v) /\
  (forall now fault u s',
     set_enabled s now fault u false = (s', Ok true) \/ remove_user s fault u = (s', Ok true) ->
     shut s' u /\ forall v, nocase u v = false -> by_name s' v = by_name s v).
Proof.
  intros Hw.
  assert (forall u v f, keeps f -> nocase u v = false ->
    by_name (update_where s (named u) f) v = by_name s v) as Hothers.
  { intros u v f Hf Hv. rewrite by_name_update by done. destruct (by_name s v) as [r|] eqn:E; [|done]. simpl.
    by rewrite (named_other v u s r E) by (by rewrite nocase_sym, Hv). }
  split_and!; [intros; by apply run_wf|intros; by apply login_wf|..].
  - intros now fault salt u p s' (h & Hh & Hu & ->)%add_user_inv. split_and!; [done| |].
    + eapply accepts_row; [by rewrite by_name_append, Hu, nocase_refl|done|done|]. by eapply hash_verifies.
    + intros v Hv. rewrite by_name_append. simpl. rewrite Hv. by destruct (by_name s v).
  - intros now fault salt u p s' r H Hu He. unfold change_password in H. case_match; [done|].
    destruct (hash_password salt p) as [h|e|] eqn:Hh; [|done..]. apply execute_ok in H as [-> _].
    split; [|intros v Hv; apply Hothers; [apply keeps_change|done]].
    eapply accepts_row.
    + rewrite by_name_update by apply keeps_change. rewrite Hu. simpl. unfold named.
      apply by_name_Some in Hu as [_ ->]. reflexivity.
    + done.
    + done.
    + by eapply hash_verifies.
  - intros now fault u s' [H|H]; apply execute_ok in H as [-> _].
    + split; [|intros v Hv; apply Hothers; [apply keeps_enabled|done]]. apply shut_row. intros r.
      rewrite by_name_update by apply keeps_enabled. destruct (by_name s u) as [r'|] eqn:Hu; [|done].
      intros [= <-]. apply by_name_Some in Hu as [_ Hn]. unfold named. by rewrite Hn.
    + pose proof (filter_wf s (fun r => negb (named u r)) Hw) as Hw'. split.
      * apply shut_row. intros r Hr. apply by_name_Some in Hr as [Hr Hn]. simpl in Hr.
        apply list_elem_of_In, filter_In in Hr as [_ Hr]. unfold named in Hr. by rewrite Hn in Hr.
      * intros v Hv. destruct (by_name s v) as [r|] eqn:E.
        -- pose proof (named_other v u s r E) as Hn. apply by_name_Some in E as [? ?].
           apply by_name_spec; [done|]. split; [|done]. simpl. apply list_elem_of_In, filter_In.
           split; [by apply list_elem_of_In|]. rewrite Hn; [done|]. by rewrite nocase_sym, Hv.
        -- destruct (by_name _ v) as [r|] eqn:E' in |- *; [|done]. exfalso.
           apply by_name_Some in E' as [Hr Hn]. simpl in Hr. apply list_elem_of_In, filter_In in Hr as [Hr _].
           apply list_elem_of_In in Hr. assert (by_name s v = Some r) by (by apply by_name_spec). congruence.
Qed.

(** A rehash started by a login can finish after the password was changed: it
    then puts the old password back. *)
Lemma stale_upgrade_reverts_password s now u old new r s1 s2 id salt salt' :
  wf s -> by_name s u = Some r -> UserRow.enabled r = true ->
  verify_password s now None None u old = (s1, Ok true, Some (id, old)) ->
  change_password s1 now None salt u new = (s2, Ok true) ->
  (exists h, hash_password salt' old = Ok h) ->
  accepts (run_hash_upgrade s2 now salt' true None id old) u old.
Proof.
  intros Hw Hu He Hv Hc [h Hh].
  assert (id = UserRow.id r /\ exists r1, by_name s1 u = Some r1 /\ UserRow.id r1 = UserRow.id r /\
    UserRow.enabled r1 = true) as (-> & r1 & Hr1 & Hi1 & He1).
  { unfold verify_password in Hv. rewrite Hu, He in Hv. repeat (case_match; try done); simplify_eq.
    all: split; [done|]; rewrite by_name_update by (by apply keeps_attempts); rewrite Hu; simpl;
      unfold with_id; rewrite Z.eqb_refl; by eauto. }
  unfold change_password in Hc. case_match; [done|]. destruct (hash_password salt new) as [h'|e|]; [|done..].
  apply execute_ok in Hc as [-> _]. unfold run_hash_upgrade. rewrite Hh. simpl.
  eapply accepts_row.
  - rewrite by_name_update by apply keeps_hash. rewrite by_name_update by apply keeps_change.
    rewrite Hr1. simpl. apply by_name_Some in Hr1 as [_ Hn]. unfold named. rewrite Hn. unfold with_id. simpl.
    rewrite Hi1, Z.eqb_refl. reflexivity.
  - done.
  - done.
  - by eapply hash_verifies.
Qed.

End Accounts.

(** * Concrete accounts *)

(** A hash that is the password, marked with the parameters. *)
#[export] Instance ToyArgon2 : Argon2 := {
  argon2_hash salt p := inl (1 :: p);
  phc_parses h := match h with [] => false | _ => true end;
  phc_params h := match h with 1 :: _ => Some (65536, 3) | _ => Some (4096, 1) end;
  argon2_verify p h := bool_decide (tail h = p);
}.

#[export] Instance ToyArgon2Laws : Argon2Laws.
Proof. split. intros salt p h [= <-]. split_and!; [done|done|]. by apply bool_decide_eq_true. Qed.

#[export] Instance AsciiOnly : UnicodeTables := { unicode_alphanumeric _ := false }.

(** The user "bob" with the password "12345678". *)
Definition example_password : list Z := [49; 50; 51; 52; 53; 54; 55; 56].

Definition example_users : t :=
  fst (add_user (mk [] 1 true) 0 None [] [98; 111; 98] example_password).

(** Wrong passwords at these times, the latest first. *)
Definition example_attack (ts : list Z) : t :=
  foldr (fun now s => login s now None None [66; 79; 66] [0]) example_users ts.

Lemma guess_wrong {A : Argon2} {U : UnicodeTables} u v s ts now p :
  guessing u s ts -> now + 3600 <= I64_MAX -> nocase u v = true -> compares s now u = true ->
  answer s now None None v p = Ok false -> guessing u (login s now None None v p) (now :: ts).
Proof.
  intros Hg Ht Hv Hc Ha. pose proof (guess_login u s ts now None v p Hg Ht) as H.
  rewrite Hv, Hc in H. apply H. by rewrite Ha.
Qed.

Definition example_times : list Z := [100; 10; 9; 8; 7; 6; 5; 4; 3; 2; 1].

Lemma password_guesses_bound_witness :
  guessing [98; 111; 98] (example_attack example_times) example_times /\
  len example_times <= 16 + (100 - 10) / 3600 /\
  answer (example_attack example_times) 120 None None [98; 111; 98] example_password = Ok false /\
  answer (example_attack example_times) 3700 None None [98; 111; 98] example_password = Ok true.
Proof.
  assert (guessing [98; 111; 98] (example_attack example_times) example_times) as H.
  { unfold example_times, example_attack. cbn [foldr].
    repeat (apply guess_wrong; [|by vm_compute|by vm_compute|by vm_compute|by vm_compute]).
    eapply guess_start; [|by vm_compute|done|done].
    split_and!; [apply NoDup_singleton|apply NoDup_singleton|]. constructor; [|constructor]. by vm_compute. }
  destruct (password_guesses_bound _ _ _ H) as [H1 H2]. split_and!; [exact H| |by vm_compute|].
  - by apply (H1 [100] 10 [9; 8; 7; 6; 5; 4; 3; 2; 1]).
  - eapply H2; [by vm_compute|done|by vm_compute|done|]. intros x [= <-]. lia.
Defined.

