(* ===== verification/Validation.v ===== *)
(** The checks on names and networks before they become arguments of system
    commands (hpn-server/src/validation.rs).

    Strings are their bytes.  The loop over the characters of a name is one
    over its bytes: a character outside ASCII is refused, and so is every byte
    of it.  Error texts are left out. *)

From S2P Require Import Prelude Net AddrParse.

Module validation.

Definition MAX_INTERFACE_NAME_LEN : Z := 15.
Definition MAX_IPV4_CIDR_LEN : Z := 18.
Definition MAX_IPV6_CIDR_LEN : Z := 49.

(** * The string functions used *)

(** [u8::is_ascii_alphanumeric] *)
Definition is_ascii_alphanumeric (c : Z) : bool :=
  (48 <=? c) && (c <=? 57) || (65 <=? c) && (c <=? 90) || (97 <=? c) && (c <=? 122).

(** [str::split] at a character, collected. *)
Fixpoint split (sep : Z) (s : list Z) : list (list Z) :=
  match s with
  | [] => [[]]
  | c :: r =>
      if c =? sep then [] :: split sep r
      else match split sep r with p :: ps => (c :: p) :: ps | [] => [[c]] end
  end.

Definition starts_with (s : list Z) (c : Z) : bool := match s with x :: _ => x =? c | [] => false end.

(** [str::parse] to an unsigned integer of a width: digits, after a plus sign
    if there is one. *)
Definition parse_uint (width : Z) (s : list Z) : option Z :=
  let digits := if starts_with s 43 then drop 1 s else s in
  match AddrParser.read_digits 10 digits with
  | (d :: ds, []) => let v := AddrParser.value 10 (d :: ds) in if v <? 2 ^ width then Some v else None
  | _ => None
  end.

(** * The checks *)

(** Why something was refused. *)
Inductive invalid :=
| Empty | TooLong | InvalidCharacter | StartsWithHyphen
| NotCidr | NotFourOctets | EmptyOctet | OctetLeadingZero | OctetRange | OctetNotNumeric
| EmptyPrefix | PrefixLeadingZero | PrefixRange | PrefixNotNumeric | InvalidAddress.

Definition validate_interface_name (name : list Z) : result invalid unit :=
  if len name =? 0 then Err Empty
  else if MAX_INTERFACE_NAME_LEN <? len name then Err TooLong
  else if existsb (fun c => negb (is_ascii_alphanumeric c) && negb (c =? 45) && negb (c =? 95)) name then
    Err InvalidCharacter
  else if starts_with name 45 then Err StartsWithHyphen
  else Ok tt.

Fixpoint validate_octets (octets : list (list Z)) : result invalid unit :=
  match octets with
  | [] => Ok tt
  | octet :: octets =>
      if len octet =? 0 then Err EmptyOctet
      else if (1 <? len octet) && starts_with octet 48 then Err OctetLeadingZero
      else
        match parse_uint 16 octet with
        | Some val => if val <=? 255 then validate_octets octets else Err OctetRange
        | None => Err OctetNotNumeric
        end
  end.

Definition validate_prefix (max : Z) (prefix_str : list Z) : result invalid unit :=
  if len prefix_str =? 0 then Err EmptyPrefix
  else if (1 <? len prefix_str) && starts_with prefix_str 48 then Err PrefixLeadingZero
  else
    match parse_uint 8 prefix_str with
    | Some prefix => if prefix <=? max then Ok tt else Err PrefixRange
    | None => Err PrefixNotNumeric
    end.

Definition validate_ipv4_cidr (cidr : list Z) : result invalid unit :=
  if len cidr =? 0 then Err Empty
  else if MAX_IPV4_CIDR_LEN <? len cidr then Err TooLong
  else
    match split 47 cidr with
    | [addr; prefix_str] =>
        let octets := split 46 addr in
        if negb (length octets =? 4)%nat then Err NotFourOctets
        else
          let? _ := validate_octets octets in
          validate_prefix 32 prefix_str
    | _ => Err NotCidr
    end.

Definition validate_ipv6_cidr (cidr : list Z) : result invalid unit :=
  if len cidr =? 0 then Err Empty
  else if MAX_IPV6_CIDR_LEN <? len cidr then Err TooLong
  else
    match split 47 cidr with
    | [addr; prefix_str] =>
        match AddrParser.parse_ipv6_addr addr with
        | None => Err InvalidAddress
        | Some _ => validate_prefix 128 prefix_str
        end
    | _ => Err NotCidr
    end.

Definition validate_ipv4_address (addr : list Z) : result invalid unit :=
  if len addr =? 0 then Err Empty
  else match AddrParser.parse_ipv4_addr addr with None => Err InvalidAddress | Some _ => Ok tt end.

Definition validate_ipv6_address (addr : list Z) : result invalid unit :=
  if len addr =? 0 then Err Empty
  else match AddrParser.parse_ipv6_addr addr with None => Err InvalidAddress | Some _ => Ok tt end.

Definition validate_network_cidr (cidr : list Z) : result invalid unit :=
  if existsb (fun c => c =? 58) cidr then validate_ipv6_cidr cidr else validate_ipv4_cidr cidr.

(** * What is accepted *)

(** Characters without a meaning to a shell or an option parser. *)
Definition name_char (c : Z) : Prop := is_ascii_alphanumeric c = true \/ c = 45 \/ c = 95.

(** Those of an address: hexadecimal digits, dots and colons. *)
Definition addr_char (c : Z) : Prop := is_Some (AddrParser.to_digit 16 c) \/ c = 46 \/ c = 58.

(** Those of a network: a slash and a plus sign also. *)
Definition network_char (c : Z) : Prop := addr_char c \/ c = 43 \/ c = 47.

Lemma interface_name_exact name :
  validate_interface_name name = Ok tt <->
  1 <= len name <= 15 /\ Forall name_char name /\ starts_with name 45 = false.
Proof.
  unfold validate_interface_name, MAX_INTERFACE_NAME_LEN. pose proof (len_nonneg name).
  destruct (Z.eqb_spec (len name) 0); [split; [done|lia]|].
  destruct (Z.ltb_spec 15 (len name)); [split; [done|lia]|].
  assert (existsb (fun c => negb (is_ascii_alphanumeric c) && negb (c =? 45) && negb (c =? 95)) name = false <->
    Forall name_char name) as Hf.
  { clear. induction name as [|c name IH]; simpl; [by split; constructor|]. rewrite orb_false_iff, IH, Forall_cons.
    apply and_iff_compat_r. unfold name_char.
    destruct (is_ascii_alphanumeric c), (Z.eqb_spec c 45), (Z.eqb_spec c 95); simpl; intuition (congruence || lia). }
  destruct (existsb _ name) eqn:Ee; [split; [done|]; intros (_ & Hn & _); apply Hf in Hn; congruence|].
  destruct (starts_with name 45); [by split; [|intros (_ & _ & ?)]|].
  split; [|done]. intros _. split_and!; [lia|lia| |done]. by apply Hf.
Qed.

(** The parts of a string between separators make it up. *)
Lemma split_join sep s : exists p ps, split sep s = p :: ps /\ s = p ++ concat (map (cons sep) ps).
Proof.
  induction s as [|c s (p & ps & E & IH)]; simpl; [by exists [], []|]. rewrite E.
  destruct (Z.eqb_spec c sep) as [->|].
  - exists [], (p :: ps). split; [done|]. simpl. by rewrite <- IH.
  - exists (c :: p), ps. split; [done|]. simpl. by rewrite <- IH.
Qed.

Lemma split_two s a b : split 47 s = [a; b] -> s = a ++ 47 :: b.
Proof. destruct (split_join 47 s) as (p & ps & -> & ->). intros [= -> ->]. simpl. by rewrite app_nil_r. Qed.

Lemma split_forall sep s (P : Z -> Prop) : P sep -> Forall (Forall P) (split sep s) -> Forall P s.
Proof.
  destruct (split_join sep s) as (p & ps & -> & ->). intros Hs [Hp Hps]%Forall_cons. apply Forall_app. split; [done|].
  apply Forall_concat, Forall_fmap. eapply Forall_impl; [exact Hps|]. intros q Hq. simpl. by constructor.
Qed.

(** ** The characters the readers of addresses consume *)

Definition consumes (P : Z -> Prop) (s rest : list Z) : Prop := exists p, s = p ++ rest /\ Forall P p.

Lemma consumes_trans P s1 s2 s3 : consumes P s1 s2 -> consumes P s2 s3 -> consumes P s1 s3.
Proof.
  intros (p & -> & Hp) (q & -> & Hq). exists (p ++ q). split; [by rewrite app_assoc|]. apply Forall_app. by split.
Qed.

Lemma consumes_refl P s : consumes P s s.
Proof. by exists []. Qed.

Lemma digits_consume radix s ds rest :
  AddrParser.read_digits radix s = (ds, rest) -> consumes (fun c => is_Some (AddrParser.to_digit radix c)) s rest.
Proof.
  revert ds rest. induction s as [|c s IH]; intros ds rest; simpl; [intros [= <- <-]; apply consumes_refl|].
  destruct (AddrParser.to_digit radix c) eqn:Ed; [|intros [= <- <-]; apply consumes_refl].
  destruct (AddrParser.read_digits radix s) as [ds' r'] eqn:E. intros [= <- <-].
  destruct (IH ds' r' eq_refl) as (p & -> & Hp). exists (c :: p). split; [done|]. constructor; [by rewrite Ed|done].
Qed.

Lemma decimal_is_hex c : is_Some (AddrParser.to_digit 10 c) -> is_Some (AddrParser.to_digit 16 c).
Proof.
  unfold AddrParser.to_digit. repeat case_match; b2p; try done; intros _; try by eexists. all: lia.
Qed.

Lemma number_consumes radix m z w s x rest :
  radix = 10 \/ radix = 16 -> AddrParser.read_number radix m z w s = Some (x, rest) -> consumes addr_char s rest.
Proof.
  intros Hr. unfold AddrParser.read_number. destruct (AddrParser.read_digits radix s) as [ds r] eqn:E.
  destruct (match m with Some _ => _ | None => _ end); [done|]. destruct (bool_decide _); [done|].
  destruct (_ && _); [done|]. destruct (_ <? _); [|done]. intros [= _ <-].
  destruct (digits_consume _ _ _ _ E) as (p & -> & Hp). exists p. split; [done|].
  eapply Forall_impl; [exact Hp|]. intros c Hc. left. destruct Hr as [-> | ->]; [by apply decimal_is_hex|done].
Qed.

Lemma char_consumes c s rest : addr_char c -> AddrParser.read_given_char c s = Some rest -> consumes addr_char s rest.
Proof.
  intros Hc. destruct s as [|x s]; [done|]. simpl. destruct (Z.eqb_spec x c) as [->|]; [|done]. intros [= <-].
  exists [c]. split; [done|]. by constructor.
Qed.


Ltac consume :=
  repeat match goal with
  | H : (?x ≫= _) = Some _ |- _ => destruct x as [?|] eqn:?; [simpl in H|discriminate]
  | p : _ * _ |- _ => destruct p; simpl in *
  end.

Lemma ipv4_consumes s x rest : AddrParser.read_ipv4_addr s = Some (x, rest) -> consumes addr_char s rest.
Proof.
  intros H. unfold AddrParser.read_ipv4_addr, AddrParser.read_octet in H. consume. injection H as _ <-.
  repeat (eapply consumes_trans; [first [eapply number_consumes; [by left|eassumption] |
    eapply char_consumes; [|eassumption]; right; by left]|]).
  apply consumes_refl.
Qed.

Lemma separated_consumes {A} i (inner : list Z -> option (A * list Z)) s x rest :
  (forall s x rest, inner s = Some (x, rest) -> consumes addr_char s rest) ->
  AddrParser.separated i inner s = Some (x, rest) -> consumes addr_char s rest.
Proof.
  intros Hi H. destruct i as [|i]; simpl in H; [by eapply Hi|]. consume.
  eapply consumes_trans; [eapply char_consumes; [|eassumption]; by do 2 right|by eapply Hi].
Qed.

Lemma group_consumes s x rest : AddrParser.read_group s = Some (x, rest) -> consumes addr_char s rest.
Proof. apply number_consumes. by right. Qed.

Lemma groups_consume n i s gs v4 rest : AddrParser.read_groups n i s = (gs, v4, rest) -> consumes addr_char s rest.
Proof.
  revert i s gs v4 rest. induction n as [|n IH]; intros i s gs v4 rest; simpl; [intros [= <- <- <-]; apply consumes_refl|].
  destruct (if (0 <? n)%nat then AddrParser.separated i AddrParser.read_ipv4_addr s else None) as [[o r]|] eqn:E4.
  - intros [= _ _ <-]. destruct (0 <? n)%nat; [|done]. eapply separated_consumes; [exact ipv4_consumes|exact E4].
  - destruct (AddrParser.separated i AddrParser.read_group s) as [[g r]|] eqn:E6; [|intros [= _ _ <-]; apply consumes_refl].
    destruct (AddrParser.read_groups n (S i) r) as [[gs' v4'] r'] eqn:Er. intros [= _ _ <-].
    eapply consumes_trans; [|by eapply IH]. eapply separated_consumes; [|exact E6].
    exact group_consumes.
Qed.

Lemma ipv6_consumes s x rest : AddrParser.read_ipv6_addr s = Some (x, rest) -> consumes addr_char s rest.
Proof.
  unfold AddrParser.read_ipv6_addr. destruct (AddrParser.read_groups 8 0 s) as [[head v4] r] eqn:Eh.
  apply groups_consume in Eh. destruct (length head =? 8)%nat; [by intros [= _ <-]|]. destruct v4; [done|]. intros H.
  destruct (AddrParser.read_given_char 58 r) as [r1|] eqn:E1; [simpl in H|done].
  destruct (AddrParser.read_given_char 58 r1) as [r2|] eqn:E2; [simpl in H|done].
  destruct (AddrParser.read_groups _ 0 r2) as [[tail v] r3] eqn:Et. injection H as _ <-.
  repeat (eapply consumes_trans; [eassumption || (eapply char_consumes; [|eassumption]; by do 2 right)|]).
  by eapply groups_consume.
Qed.

Lemma ipv6_chars s x : AddrParser.parse_ipv6_addr s = Some x -> Forall addr_char s.
Proof.
  unfold AddrParser.parse_ipv6_addr, AddrParser.complete. destruct (AddrParser.read_ipv6_addr s) as [[y [|]]|] eqn:E; [|done..].
  intros _. destruct (ipv6_consumes _ _ _ E) as (p & -> & Hp). by rewrite app_nil_r.
Qed.

(** ** Networks *)

Lemma uint_chars width s v : parse_uint width s = Some v -> Forall network_char s.
Proof.
  unfold parse_uint. set (digits := if starts_with s 43 then _ else _). intros H.
  assert (Forall network_char digits) as Hd.
  { destruct (AddrParser.read_digits 10 digits) as [[|d ds] [|]] eqn:E; try done.
    destruct (digits_consume _ _ _ _ E) as (p & -> & Hp). rewrite app_nil_r. eapply Forall_impl; [exact Hp|].
    intros c Hc. left. left. by apply decimal_is_hex. }
  destruct s as [|c s]; [constructor|]. unfold digits in Hd. simpl in Hd. destruct (Z.eqb_spec c 43) as [->|]; [|done].
  constructor; [right; by left|]. exact Hd.
Qed.

Lemma prefix_accepted max s : validate_prefix max s = Ok tt -> exists v, parse_uint 8 s = Some v /\ v <= max.
Proof.
  unfold validate_prefix. destruct (len s =? 0); [done|]. destruct (_ && _); [done|].
  destruct (parse_uint 8 s) as [v|]; [|done]. destruct (Z.leb_spec v max); [|done]. by exists v.
Qed.

Lemma octets_chars l : validate_octets l = Ok tt -> Forall (Forall network_char) l.
Proof.
  induction l as [|o l IH]; simpl; [constructor|]. destruct (len o =? 0); [done|]. destruct (_ && _); [done|].
  destruct (parse_uint 16 o) eqn:E; [|done]. destruct (_ <=? _); [|done]. intros H.
  constructor; [by eapply uint_chars|by apply IH].
Qed.

(** What a network accepted by a check is made of. *)
Definition network_text (max maxlen : Z) (cidr : list Z) : Prop :=
  len cidr <= maxlen /\ Forall network_char cidr /\
  exists addr prefix v, cidr = addr ++ 47 :: prefix /\ parse_uint 8 prefix = Some v /\ v <= max.

Lemma slashed addr prefix :
  Forall network_char addr -> Forall network_char prefix -> Forall network_char (addr ++ 47 :: prefix).
Proof. intros Ha Hp. apply Forall_app. split; [done|]. constructor; [by do 2 right|done]. Qed.

Lemma ipv4_cidr_text cidr : validate_ipv4_cidr cidr = Ok tt -> network_text 32 18 cidr.
Proof.
  unfold validate_ipv4_cidr, MAX_IPV4_CIDR_LEN. destruct (len cidr =? 0); [done|]. destruct (Z.ltb_spec 18 (len cidr)); [done|].
  destruct (split 47 cidr) as [|a [|p [|]]] eqn:E; try done. apply split_two in E. destruct (negb _); [done|].
  destruct (validate_octets (split 46 a)) as [[]| |] eqn:Eo; try done. simpl. intros Hp.
  apply prefix_accepted in Hp as (v & Hv & Hm). split; [done|]. subst cidr. split; [|by exists a, p, v].
  apply slashed; [|by eapply uint_chars]. apply (split_forall 46); [left; right; by left|by apply octets_chars].
Qed.

Lemma ipv6_cidr_text cidr : validate_ipv6_cidr cidr = Ok tt -> network_text 128 49 cidr.
Proof.
  unfold validate_ipv6_cidr, MAX_IPV6_CIDR_LEN. destruct (len cidr =? 0); [done|]. destruct (Z.ltb_spec 49 (len cidr)); [done|].
  destruct (split 47 cidr) as [|a [|p [|]]] eqn:E; try done. apply split_two in E.
  destruct (AddrParser.parse_ipv6_addr a) eqn:Ea; [|done]. intros Hp.
  apply prefix_accepted in Hp as (v & Hv & Hm). split; [done|]. subst cidr. split; [|by exists a, p, v].
  apply slashed; [|by eapply uint_chars]. eapply Forall_impl; [by eapply ipv6_chars|]. by left.
Qed.

(** ** Printed networks are accepted *)

Lemma split_first sep a rest : sep ∉ a -> split sep (a ++ sep :: rest) = a :: split sep rest.
Proof.
  induction a as [|c a IH]; simpl; intros H; [by rewrite Z.eqb_refl|]. apply not_elem_of_cons in H as [Hc Ha].
  rewrite IH by done. by rewrite (proj2 (Z.eqb_neq _ _)) by done.
Qed.

Lemma split_none sep a : sep ∉ a -> split sep a = [a].
Proof.
  induction a as [|c a IH]; simpl; intros H; [done|]. apply not_elem_of_cons in H as [Hc Ha].
  rewrite IH by done. by rewrite (proj2 (Z.eqb_neq _ _)) by done.
Qed.

(** A decimal number as it is printed passes the tests on an octet or a
    prefix length. *)
Lemma dec_accepted width z (t := bytes_of_string (dec z)) :
  0 <= z < 2 ^ width ->
  (len t =? 0) = false /\ (1 <? len t) && starts_with t 48 = false /\ parse_uint width t = Some z /\
  Forall (fun c => 48 <= c <= 57) t.
Proof.
  intros Hz. destruct (AddrParser.dec_digits z ltac:(lia)) as (ds & Hb & Hf & Hv & Hn & Hl). unfold t. rewrite Hb.
  destruct ds as [|d ds]; [done|]. clear Hn Hb t. split_and!.
  - apply Z.eqb_neq. unfold len. simpl. lia.
  - destruct (1 <? _) eqn:E1; [|done]. simpl. apply Z.eqb_neq. unfold AddrParser.dec_char. intros Hd.
    assert (d = 0) as -> by lia. destruct ds; [|done]. by vm_compute in E1.
  - unfold parse_uint. assert (starts_with (map AddrParser.dec_char (d :: ds)) 43 = false) as ->.
    { simpl. apply Z.eqb_neq. apply Forall_cons in Hf as [Hd _]. unfold AddrParser.dec_char. lia. }
    pose proof (AddrParser.read_digits_app 10 AddrParser.dec_char (d :: ds) []
      (Forall_impl _ _ _ Hf AddrParser.decimal_char) I) as Hr.
    rewrite app_nil_r in Hr. rewrite Hr, Hv. by rewrite (proj2 (Z.ltb_lt _ _)) by lia.
  - apply Forall_map. eapply Forall_impl; [exact Hf|]. intros c Hc. cbn beta in Hc. unfold compose, AddrParser.dec_char. lia.
Qed.

Lemma dec_prefix_accepted max p : 0 <= p <= max -> max < 256 -> validate_prefix max (bytes_of_string (dec p)) = Ok tt.
Proof.
  intros Hp Hm. destruct (dec_accepted 8 p ltac:(lia)) as (H1 & H2 & H3 & _). unfold validate_prefix.
  rewrite H1, H2, H3. by rewrite (proj2 (Z.leb_le _ _)) by lia.
Qed.

Lemma dec_octets_accepted l : bytes_ok l -> validate_octets (map (fun o => bytes_of_string (dec o)) l) = Ok tt.
Proof.
  induction 1 as [|o l Ho _ IH]; [done|]. unfold u8, uint in Ho. simpl.
  destruct (dec_accepted 16 o ltac:(lia)) as (H1 & H2 & H3 & _). rewrite H1, H2, H3.
  by rewrite (proj2 (Z.leb_le _ _)) by lia.
Qed.

Lemma no_separator_dec sep z : sep < 48 \/ 57 < sep -> u8 z -> sep ∉ bytes_of_string (dec z).
Proof.
  intros Hs Hz Hin. destruct (dec_accepted 8 z Hz) as (_ & _ & _ & Hf). rewrite Forall_forall in Hf.
  specialize (Hf _ Hin). lia.
Qed.

Lemma octets_four octets :
  bytes_ok octets -> len octets = 4 -> exists a b c d, octets = [a; b; c; d] /\ u8 a /\ u8 b /\ u8 c /\ u8 d /\
    bytes_of_string (Ipv4Addr.to_string octets) =
      bytes_of_string (dec a) ++ 46 :: bytes_of_string (dec b) ++ 46 :: bytes_of_string (dec c) ++
      46 :: bytes_of_string (dec d).
Proof.
  intros Hb Hl. destruct octets as [|a [|b [|c [|d [|e l]]]]]; try (unfold len in Hl; simpl in Hl; lia).
  unfold bytes_ok in Hb. rewrite !Forall_cons in Hb. destruct Hb as (Ha & Hb & Hc & Hd & _).
  exists a, b, c, d. split_and!; try done. unfold Ipv4Addr.to_string. cbn [map join].
  by rewrite !AddrParser.bytes_of_string_app.
Qed.

Lemma ipv4_split octets :
  bytes_ok octets -> len octets = 4 ->
  split 46 (bytes_of_string (Ipv4Addr.to_string octets)) = map (fun o => bytes_of_string (dec o)) octets.
Proof.
  intros Hb Hl. destruct (octets_four _ Hb Hl) as (a & b & c & d & -> & Ha & H2 & Hc & Hd & ->).
  rewrite !split_first, split_none by (apply no_separator_dec; [lia|done]). done.
Qed.

Lemma ipv4_no_separator sep octets :
  bytes_ok octets -> len octets = 4 -> sep = 47 \/ sep = 58 -> sep ∉ bytes_of_string (Ipv4Addr.to_string octets).
Proof.
  intros Hb Hl Hs. destruct (octets_four _ Hb Hl) as (a & b & c & d & -> & Ha & H2 & Hc & Hd & ->).
  repeat (rewrite ?not_elem_of_app, ?not_elem_of_cons); split_and!; try lia; apply no_separator_dec; by try lia.
Qed.

Lemma ipv4_length octets :
  bytes_ok octets -> len octets = 4 -> (length (bytes_of_string (Ipv4Addr.to_string octets)) <= 15)%nat.
Proof.
  intros Hb Hl. destruct (octets_four _ Hb Hl) as (a & b & c & d & -> & Ha & H2 & Hc & Hd & ->).
  pose proof (AddrParser.dec_octet_length a Ha). pose proof (AddrParser.dec_octet_length b H2).
  pose proof (AddrParser.dec_octet_length c Hc). pose proof (AddrParser.dec_octet_length d Hd).
  repeat (rewrite ?length_app; cbn [length]). lia.
Qed.

(** The text of a network. *)
Definition network_bytes (ip : string) (p : Z) : list Z := bytes_of_string ip ++ 47 :: bytes_of_string (dec p).

Lemma prefix_length p : u8 p -> 47 ∉ bytes_of_string (dec p) /\ (length (bytes_of_string (dec p)) <= 3)%nat.
Proof. intros Hp. split; [apply no_separator_dec; [lia|done]|by apply AddrParser.dec_octet_length]. Qed.

Lemma existsb_none c s : c ∉ s -> existsb (fun x => x =? c) s = false.
Proof.
  induction s as [|x s IH]; [done|]. intros H. apply not_elem_of_cons in H as [Hx Hs]. simpl. rewrite IH by done.
  by rewrite (proj2 (Z.eqb_neq _ _)) by done.
Qed.

Lemma existsb_some c s : c ∈ s -> existsb (fun x => x =? c) s = true.
Proof. intros H. apply existsb_exists. exists c. split; [by apply list_elem_of_In|apply Z.eqb_refl]. Qed.

Lemma ipv4_prefix_length p : 0 <= p <= 32 -> (length (bytes_of_string (dec p)) <= 2)%nat.
Proof.
  intros Hz. assert (p ∈ seqZ 0 33) as Hin by (apply elem_of_seqZ; lia). clear Hz. revert p Hin.
  apply Forall_forall. by_decide.
Qed.

Lemma network_bytes_spec ip p :
  47 ∉ bytes_of_string ip -> u8 p ->
  (len (network_bytes ip p) =? 0) = false /\ split 47 (network_bytes ip p) = [bytes_of_string ip; bytes_of_string (dec p)] /\
  len (network_bytes ip p) = len (bytes_of_string ip) + 1 + len (bytes_of_string (dec p)).
Proof.
  intros Hs Hp. destruct (prefix_length p Hp) as [Hps _]. unfold network_bytes.
  assert (len (bytes_of_string ip ++ 47 :: bytes_of_string (dec p)) =
    len (bytes_of_string ip) + 1 + len (bytes_of_string (dec p))) as Hl.
  { unfold len. rewrite length_app. cbn [length]. lia. }
  split_and!; [|by rewrite split_first, split_none|done]. rewrite Hl. apply Z.eqb_neq. unfold len. lia.
Qed.

Lemma ipv4_accepted octets p :
  bytes_ok octets -> len octets = 4 -> 0 <= p <= 32 ->
  validate_network_cidr (network_bytes (Ipv4Addr.to_string octets) p) = Ok tt.
Proof.
  intros Hb Hl Hp. pose proof (ipv4_length octets Hb Hl) as H1. pose proof (ipv4_prefix_length p Hp) as H2.
  assert (u8 p) as Hp8 by (unfold u8, uint; lia).
  destruct (network_bytes_spec (Ipv4Addr.to_string octets) p) as (Hz & Hs & Hn); [by apply ipv4_no_separator; auto|done|].
  unfold validate_network_cidr. rewrite existsb_none.
  2: { unfold network_bytes. rewrite not_elem_of_app, not_elem_of_cons. split_and!; [by apply ipv4_no_separator; auto|lia|].
       apply no_separator_dec; [lia|done]. }
  unfold validate_ipv4_cidr, MAX_IPV4_CIDR_LEN. rewrite Hz, Hs, Hn. unfold len in *.
  rewrite (proj2 (Z.ltb_ge _ _)) by lia. rewrite ipv4_split, dec_octets_accepted, length_map by done.
  assert (length octets = 4)%nat as -> by lia. apply dec_prefix_accepted; lia.
Qed.

Lemma hex_length g : u16 g -> (length (bytes_of_string (hex g)) <= 4)%nat.
Proof.
  intros Hg. unfold u16, uint in Hg. destruct (AddrParser.hex_fuel_digits 4 g) as (ds & Hb & _ & _ & _ & Hl); [simpl; lia|].
  unfold hex. rewrite Hb, length_map. simpl in Hl. lia.
Qed.

Lemma groups_text_length i l : Forall u16 l -> (length (AddrParser.groups_text i l) <= 5 * length l)%nat.
Proof.
  intros Hl. revert i. induction Hl as [|g l Hg _ IH]; intros i; [simpl; lia|]. cbn [AddrParser.groups_text length].
  rewrite !length_app. pose proof (hex_length g Hg). specialize (IH (S i)).
  assert (length (if (i =? 0)%nat then [] else [58 : Z]) <= 1)%nat by (destruct (i =? 0)%nat; simpl; lia). lia.
Qed.

Lemma ipv6_length octets :
  bytes_ok octets -> len octets = 16 -> (length (bytes_of_string (Ipv6Addr.to_string octets)) <= 40)%nat.
Proof.
  intros Hb Hl. unfold len in Hl. unfold Ipv6Addr.to_string. destruct (bool_decide _).
  - rewrite AddrParser.bytes_of_string_app, length_app.
    pose proof (ipv4_length (drop 12 octets) ltac:(by apply Forall_drop) ltac:(unfold len; rewrite length_drop; lia)).
    simpl. lia.
  - destruct (AddrParser.segments_spec octets 8 Hb ltac:(lia)) as (Hn & Hu & _).
    pose proof (AddrParser.zero_span_run (Ipv6Addr.segments octets)) as [Hr _].
    destruct (Ipv6Addr.zero_span _) as [a n]. cbn [fst snd] in Hr. destruct (Nat.ltb_spec 1 n).
    + rewrite !AddrParser.bytes_of_string_app, !AddrParser.fmt_subslice_text, !length_app.
      pose proof (groups_text_length 0 (take a (Ipv6Addr.segments octets)) ltac:(by apply Forall_take)) as H1.
      pose proof (groups_text_length 0 (drop (a + n) (Ipv6Addr.segments octets)) ltac:(by apply Forall_drop)) as H2.
      rewrite length_take in H1. rewrite length_drop in H2. simpl (length (bytes_of_string "::")). lia.
    + rewrite AddrParser.fmt_subslice_text. pose proof (groups_text_length 0 _ Hu). lia.
Qed.

Lemma ipv6_reads octets :
  bytes_ok octets -> len octets = 16 ->
  AddrParser.parse_ipv6_addr (bytes_of_string (Ipv6Addr.to_string octets)) = Some octets.
Proof.
  intros Hb Hl. pose proof (AddrParser.read_ipv6_text octets [] Hb Hl I I (not_elem_of_nil _) eq_refl) as H.
  rewrite app_nil_r in H. unfold AddrParser.parse_ipv6_addr. by rewrite H.
Qed.

Lemma ipv6_colon octets :
  bytes_ok octets -> len octets = 16 -> 58 ∈ bytes_of_string (Ipv6Addr.to_string octets).
Proof.
  intros Hb Hl. unfold len in Hl. unfold Ipv6Addr.to_string.
  destruct (AddrParser.segments_spec octets 8 Hb ltac:(lia)) as (Hn & _ & _). destruct (bool_decide _); [left|].
  destruct (Ipv6Addr.zero_span _) as [a n]. destruct (1 <? n)%nat.
  - rewrite !AddrParser.bytes_of_string_app, !elem_of_app. right. left. left.
  - rewrite AddrParser.fmt_subslice_text. destruct (Ipv6Addr.segments octets) as [|g [|h l]]; [done..|].
    cbn [AddrParser.groups_text Nat.eqb app]. apply elem_of_app. right. left.
Qed.

Lemma ipv6_accepted octets p :
  bytes_ok octets -> len octets = 16 -> 0 <= p <= 128 ->
  validate_network_cidr (network_bytes (Ipv6Addr.to_string octets) p) = Ok tt.
Proof.
  intros Hb Hl Hp. pose proof (ipv6_length octets Hb Hl) as H1. assert (u8 p) as Hp8 by (unfold u8, uint; lia).
  pose proof (ipv6_reads octets Hb Hl) as Hr. destruct (prefix_length p Hp8) as [_ H2].
  destruct (network_bytes_spec (Ipv6Addr.to_string octets) p) as (Hz & Hs & Hn); [|done|].
  { intros Hin. apply ipv6_chars in Hr. rewrite Forall_forall in Hr. destruct (Hr _ Hin) as [[? [=]]|[|]]; lia. }
  unfold validate_network_cidr. rewrite existsb_some by (apply elem_of_app; left; by apply ipv6_colon).
  unfold validate_ipv6_cidr, MAX_IPV6_CIDR_LEN. rewrite Hz, Hs, Hn, Hr. unfold len in *.
  rewrite (proj2 (Z.ltb_ge _ _)) by lia. apply dec_prefix_accepted; lia.
Qed.

(** C40: Names and networks that pass the checks are harmless as arguments of a
    command, and good ones pass.  An interface name is accepted exactly when it
    has 1 to 15 bytes, all of them letters, digits, hyphens or underscores, and
    does not begin with a hyphen.  An accepted network has at most 49 bytes,
    all of them hexadecimal digits, dots, colons, slashes or plus signs: an
    address, a slash and a prefix length of at most 128; without a colon it has
    at most 18 bytes and the prefix length is at most 32.  Every IPv4 and IPv6
    network as it is printed is accepted, IPv4-mapped and compressed forms
    included. *)
Theorem command_arguments :
  (forall name, validate_interface_name name = Ok tt <->
     1 <= len name <= 15 /\ Forall name_char name /\ starts_with name 45 = false) /\
  (forall cidr, validate_network_cidr cidr = Ok tt ->
     network_text 128 49 cidr /\ (58 ∉ cidr -> network_text 32 18 cidr)) /\
  (forall octets p, bytes_ok octets -> len octets = 4 -> 0 <= p <= 32 ->
     validate_network_cidr (network_bytes (Ipv4Addr.to_string octets) p) = Ok tt) /\
  (forall octets p, bytes_ok octets -> len octets = 16 -> 0 <= p <= 128 ->
     validate_network_cidr (network_bytes (Ipv6Addr.to_string octets) p) = Ok tt).
Proof.
  split_and!; [exact interface_name_exact| |exact ipv4_accepted|exact ipv6_accepted]. intros cidr H.
  unfold validate_network_cidr in H. destruct (existsb _ cidr) eqn:E.
  - split; [by apply ipv6_cidr_text|]. intros Hn. by rewrite existsb_none in E.
  - apply ipv4_cidr_text in H as (Hl & Hc & a & p & v & Hs & Hv & Hm). split; [|intros _].
    + split_and!; [lia|done|]. exists a, p, v. split_and!; [done|done|lia].
    + split_and!; [lia|done|]. by exists a, p, v.
Qed.

End validation.

Import validation.

(** A plus sign before a number is read, so some texts that are no addresses pass. *)
Example plus_sign_accepted :
  validate_ipv4_cidr (bytes_of_string "+1.2.3.+007/+24") = Ok tt /\
  AddrParser.parse_ipv4_addr (bytes_of_string "+1.2.3.+007") = None.
Proof. vm_compute. by split. Qed.

(** What is refused. *)
Example refused :
  validate_interface_name (bytes_of_string "eth0; rm -rf /") = Err InvalidCharacter /\
  validate_interface_name (bytes_of_string "-j") = Err StartsWithHyphen /\
  validate_network_cidr (bytes_of_string "10.0.0.1/33") = Err PrefixRange /\
  validate_network_cidr (bytes_of_string "10.0.00.1/24") = Err OctetLeadingZero /\
  validate_network_cidr (bytes_of_string "2001:db8::1") = Err NotCidr /\
  validate_ipv4_address (bytes_of_string "256.0.0.1") = Err InvalidAddress /\
  validate_ipv6_address (bytes_of_string "2001:db8::1") = Ok tt.
Proof. vm_compute. by split_and!. Qed.
