(* ===== verification/Server.v ===== *)
(** The control path of the server (hpn-server/src/server.rs): admitting a
    handshake, answering keepalives, control messages and rekeys, on the path
    the Linux workers use (the handlers named [_internal]).

    A handler is a function of the server's state, one record of everything it
    reads from outside (clocks, randomness, the database, the room of the
    channel to the senders) and the message; it returns the state and the
    datagrams it queued.  Leaving a handler early is [let!].  Logging, metrics
    and the padding hash after a lockout are left out. *)

From S2P Require Import Prelude Types Net Header Digest Aead Keys Signature Kem Kdf Session Fragment Reassembly.
From S2P Require Import Tunnel Control Init Response Handshake Agreement.
From S2P Require Import HandshakeReplay RateLimit AuthLockout AddressPool TokenBucket SessionManager DataPlane UserStore.

(** What configuration the handlers use; the DNS servers are parsed. *)
Module ServerConfig.

Record t := mk {
  min_security_level : string;
  dns_servers : list (list Z);
  dns_servers_v6 : list (list Z);
  mtu : Z;
}.

End ServerConfig.

(** Everything one handler call reads from outside. *)
Record reading := mk_reading {
  rate_clock : Z * Z;             (* the two instants the rate limiter reads *)
  arrived_at : Z;                 (* the instant the reassembly reads *)
  replay_clock : Z;               (* the instant the replay cache reads *)
  lockout_clock : option Z;       (* seconds, before the password check *)
  failure_clock : option Z;       (* seconds, after it *)
  store_clock : Z;                (* seconds, in the user store *)
  select_fault : option string;
  update_fault : option string;
  join_error : bool;              (* the blocking task was cancelled *)
  cookie_secret : list Z;
  handshake_instant : Z;          (* instant of [ServerHandshake::new] *)
  generated_id : Z;
  server_random : list Z;
  x25519_rng : list Z;
  mlkem_rng : list Z;
  sign_rng : list Z;
  refresh_rng : list Z;
  unix_secs : option Z;
  unix_millis : Z;
  table_clock : clock;
  response_frag_id : Z;
  accepts : nat -> bool;          (* whether the n-th [try_send] finds room *)
}.

(** [let! x := e or s in k]: on an error leave the handler with state [s] and
    nothing sent. *)
Definition attempt {S E A B} (x : result E A) (s : S) (k : A -> S * result Empty_set (list B))
    : S * result Empty_set (list B) :=
  match x with
  | Ok a => k a
  | Err _ => (s, Ok [])
  | Panic => (s, Panic)
  end.

Notation "'let!' p ':=' x 'or' s 'in' k" :=
  (attempt x s (fun p => k)) (at level 10, p pattern, x at level 100, s at level 100, k at level 200).

(** The datagrams queued until the channel is full. *)
Fixpoint enqueue {A} (accepts : nat -> bool) (i : nat) (packets : list A) : list A :=
  match packets with
  | [] => []
  | p :: packets => if accepts i then p :: enqueue accepts (S i) packets else []
  end.

(** A buffer of a header and a payload. *)
Definition packet_of (msg_type : MessageType.t) (session_id : Z) (payload : list Z)
    : result ProtocolError.t (list Z) :=
  let header := PacketHeader.new msg_type session_id KeyId.initial Counter.initial in
  let buf := replicate (Z.to_nat (HEADER_SIZE + len payload)) 0 in
  let? head := range buf 0 HEADER_SIZE in
  let? (head, _) := PacketHeader.encode header head in
  let? buf := copy_from_slice buf 0 HEADER_SIZE head in
  copy_from_slice buf HEADER_SIZE (len buf) payload.

Fixpoint packets_of (msg_type : MessageType.t) (session_id : Z) (payloads : list (list Z))
    : result ProtocolError.t (list (list Z)) :=
  match payloads with
  | [] => Ok []
  | p :: payloads =>
      let? packet := packet_of msg_type session_id p in
      let? packets := packets_of msg_type session_id payloads in
      Ok (packet :: packets)
  end.

Definition encode_handshake_response_as_packets (frag_id : Z) (response : HandshakeResponse.t)
    (session_id : Z) : result ServerError.t (list (list Z)) :=
  let payload := HandshakeResponse.to_bytes response in
  if len payload <=? FRAGMENTATION_THRESHOLD then
    let? buf := map_err ServerError.Protocol
      (packet_of MessageType.HandshakeResponse session_id payload) in
    Ok [buf]
  else
    let? fragment_bodies := map_err
      (fun _ => ServerError.Protocol (ProtocolError.InvalidData "failed to fragment handshake response"))
      (build_handshake_fragments MessageType.HandshakeResponse frag_id payload) in
    map_err ServerError.Protocol (packets_of MessageType.HandshakeFragment 0 fragment_bodies).

Definition sent : Type := list Z * SocketAddr.t.

Module VpnServer.

Section Server.
Context {R : RingAead} {D : RingDigest} {M : MlDsa} {K : KemPrimitives} {H : Hkdf} {A2 : Argon2}.
Context {IS : SetIter Z} {IR : HashIter (SocketAddr.t * Z) Entry.t}.
Context {I1 : HashIter (list Z * IpAddr.t) TupleEntry.t} {I2 : HashIter IpAddr.t IpEntry.t}
  {I3 : HashIter (list Z) UsernameEntry.t}.

Record t := mk {
  config : ServerConfig.t;
  sessions : SessionManager.t;
  keypair_level3 : MlDsaKeypair.t;
  keypair_level5 : MlDsaKeypair.t;
  kem_keypair_level3 : option (HybridSecretKey.t * HybridPublicKey.t);
  kem_keypair_level5 : option (HybridSecretKey.t * HybridPublicKey.t);
  rate_limiter : HandshakeRateLimiter.t;
  handshake_replay : HandshakeReplayCache.t;
  fragment_reassembly : Reassembly.t (A:=SocketAddr.t);
  user_store : option UserStore.t;
  auth_lockout : AuthLockoutTracker.t;
  hash_upgrades : list (Z * list Z);   (* rehashes given to threads *)
}.

Definition set_sessions (s : t) (m : SessionManager.t) : t :=
  mk (config s) m (keypair_level3 s) (keypair_level5 s) (kem_keypair_level3 s) (kem_keypair_level5 s)
    (rate_limiter s) (handshake_replay s) (fragment_reassembly s) (user_store s) (auth_lockout s)
    (hash_upgrades s).

Definition set_rate_limiter (s : t) (l : HandshakeRateLimiter.t) : t :=
  mk (config s) (sessions s) (keypair_level3 s) (keypair_level5 s) (kem_keypair_level3 s)
    (kem_keypair_level5 s) l (handshake_replay s) (fragment_reassembly s) (user_store s) (auth_lockout s)
    (hash_upgrades s).

Definition set_replay (s : t) (c : HandshakeReplayCache.t) : t :=
  mk (config s) (sessions s) (keypair_level3 s) (keypair_level5 s) (kem_keypair_level3 s)
    (kem_keypair_level5 s) (rate_limiter s) c (fragment_reassembly s) (user_store s) (auth_lockout s)
    (hash_upgrades s).

Definition set_reassembly (s : t) (r : Reassembly.t) : t :=
  mk (config s) (sessions s) (keypair_level3 s) (keypair_level5 s) (kem_keypair_level3 s)
    (kem_keypair_level5 s) (rate_limiter s) (handshake_replay s) r (user_store s) (auth_lockout s)
    (hash_upgrades s).

Definition set_auth (s : t) (u : option UserStore.t) (l : AuthLockoutTracker.t) (j : list (Z * list Z)) : t :=
  mk (config s) (sessions s) (keypair_level3 s) (keypair_level5 s) (kem_keypair_level3 s)
    (kem_keypair_level5 s) (rate_limiter s) (handshake_replay s) (fragment_reassembly s) u l j.

Definition min_security_level (s : t) : SecurityLevel.t :=
  let v := map fold_case (bytes_of_string (ServerConfig.min_security_level (config s))) in
  if bool_decide (v = bytes_of_string "level3") || bool_decide (v = bytes_of_string "3") then
    SecurityLevel.Level3
  else if bool_decide (v = bytes_of_string "level5") || bool_decide (v = bytes_of_string "5") then
    SecurityLevel.Level5
  else SecurityLevel.Level3.

Definition security_level_accepted (s : t) (proposed : SecurityLevel.t) : bool :=
  match min_security_level s, proposed with
  | SecurityLevel.Level3, _ => true
  | SecurityLevel.Level5, SecurityLevel.Level5 => true
  | SecurityLevel.Level5, SecurityLevel.Level3 => false
  end.

Definition keypair_for_level (s : t) (level : SecurityLevel.t) : MlDsaKeypair.t :=
  match level with
  | SecurityLevel.Level3 => keypair_level3 s
  | SecurityLevel.Level5 => keypair_level5 s
  end.

Definition kem_keypair_for_level (s : t) (level : SecurityLevel.t)
    : option (HybridSecretKey.t * HybridPublicKey.t) :=
  match level with
  | SecurityLevel.Level3 => kem_keypair_level3 s
  | SecurityLevel.Level5 => kem_keypair_level5 s
  end.

(** Whether the credentials are right; the store is that of the server. *)
Definition authenticate_credentials (s : t) (r : reading) (store : UserStore.t)
    (username password : list Z) (addr : SocketAddr.t) : t * bool :=
  let ip := SocketAddr.ip addr in
  match AuthLockoutTracker.check_lockout (auth_lockout s) (lockout_clock r) username ip with
  | Some _ => (s, false)
  | None =>
      if join_error r then (s, false)
      else
        let '(store, verified, upgrade) :=
          UserStore.verify_password store (store_clock r) (select_fault r) (update_fault r)
            username password in
        let jobs :=
          match upgrade with Some j => hash_upgrades s ++ [j] | None => hash_upgrades s end in
        match verified with
        | Ok true =>
            (set_auth s (Some store) (AuthLockoutTracker.record_success (auth_lockout s) username ip) jobs,
             true)
        | Ok false =>
            (set_auth s (Some store)
               (fst (AuthLockoutTracker.record_failure (auth_lockout s) (failure_clock r) username ip)) jobs,
             false)
        | _ => (set_auth s (Some store) (auth_lockout s) jobs, false)
        end
  end.

(** The message of a handshake datagram, and whether its identity was hidden. *)
Definition parse_init (s : t) (data : list Z) : result unit (HandshakeInit.t * bool) :=
  if len data <? HEADER_SIZE then Err tt
  else
    let? header := map_err (fun _ => tt) (PacketHeader.decode data) in
    let? payload := range data HEADER_SIZE (len data) in
    match PacketHeader.msg_type header with
    | MessageType.EncryptedHandshakeInit =>
        let? encrypted_init := map_err (fun _ => tt) (EncryptedHandshakeInit.from_bytes payload) in
        let level := EncryptedHandshakeInit.security_level encrypted_init in
        if negb (security_level_accepted s level) then Err tt
        else
          let? kem_keypair := ok_or tt (kem_keypair_for_level s level) in
          let? inner_init := map_err (fun _ => tt)
            (EncryptedHandshakeInit.decrypt encrypted_init (fst kem_keypair)) in
          Ok (inner_init, true)
    | MessageType.HandshakeInit =>
        let? init := map_err (fun _ => tt) (HandshakeInit.from_bytes payload) in
        Ok (init, false)
    | _ => Err tt
    end.

(** The credentials of an admitted message, when a user store is configured. *)
Definition check_credentials (s : t) (r : reading) (init : HandshakeInit.t) (addr : SocketAddr.t)
    : t * result unit unit :=
  match user_store s with
  | None => (s, Ok tt)
  | Some store =>
      let creds :=
        let? kem_keypair := ok_or tt (kem_keypair_for_level s (HandshakeInit.security_level init)) in
        let? encrypted_creds := ok_or tt (HandshakeInit.credentials init) in
        map_err (fun _ => tt) (EncryptedCredentials.decrypt encrypted_creds (fst kem_keypair)) in
      match creds with
      | Ok creds =>
          let '(s, ok) := authenticate_credentials s r store (DecryptedCredentials.username creds)
                            (DecryptedCredentials.password creds) addr in
          (s, if ok then Ok tt else Err tt)
      | Err e => (s, Err e)
      | Panic => (s, Panic)
      end
  end.

(** Everything between the message and the session: the level, the replay
    cache, the credentials. *)
Definition accept_init (s : t) (r : reading) (init : HandshakeInit.t) (addr : SocketAddr.t)
    : t * result unit unit :=
  if negb (security_level_accepted s (HandshakeInit.security_level init)) then (s, Err tt)
  else
    let '(cache, fresh) :=
      HandshakeReplayCache.check_and_insert (handshake_replay s) (replay_clock r)
        (HandshakeInit.client_random init) in
    let s := set_replay s cache in
    if negb fresh then (s, Err tt) else check_credentials s r init addr.

Definition initial_config (s : t) : result Empty_set TunnelConfig.t :=
  let? netmask := SessionManager.netmask (sessions s) in
  Ok (TunnelConfig.mk [0; 0; 0; 0] netmask (SessionManager.server_ip (sessions s))
        (ServerConfig.dns_servers (config s)) None (SessionManager.ipv6_prefix (sessions s))
        (SessionManager.server_ipv6 (sessions s)) (ServerConfig.dns_servers_v6 (config s))
        (ServerConfig.mtu (config s))).

(** [response.config.client_ipv4 = ..; response.config.client_ipv6 = ..] *)
Definition assign (m : HandshakeResponse.t) (tunnel_ip : list Z) (tunnel_ipv6 : option (list Z))
    : HandshakeResponse.t :=
  let c := HandshakeResponse.config m in
  with_config m (TunnelConfig.mk tunnel_ip (TunnelConfig.netmask_ipv4 c) (TunnelConfig.gateway_ipv4 c)
    (TunnelConfig.dns_ipv4 c) tunnel_ipv6 (TunnelConfig.prefix_len_ipv6 c) (TunnelConfig.gateway_ipv6 c)
    (TunnelConfig.dns_ipv6 c) (TunnelConfig.mtu c)).

Definition remove (s : t) (session_id : Z) : t :=
  set_sessions s (fst (SessionManager.remove_session (sessions s) session_id)).

(** The answer to an admitted message. *)
Definition answer_init (s : t) (r : reading) (init : HandshakeInit.t) (addr : SocketAddr.t)
    : t * result Empty_set (list sent) :=
  let level := HandshakeInit.security_level init in
  let keypair := keypair_for_level s level in
  let handshake := ServerHandshake.new (cookie_secret r) (handshake_instant r) keypair in
  let session_id := generated_id r in
  let! config := initial_config s or s in
  let! (response, server_keys) :=
    ServerHandshake.process_init handshake (server_random r) (x25519_rng r) (mlkem_rng r) (sign_rng r)
      (unix_secs r) init session_id config or s in
  let response_send_key := SessionKeys.send_key server_keys in
  let! session := Session.new (now (table_clock r)) session_id server_keys or s in
  let '(m, ips) :=
    SessionManager.create_session_dual_stack_with_level (sessions s) (table_clock r) session addr level in
  let s := set_sessions s m in
  let! (tunnel_ip, tunnel_ipv6) := ips or s in
  let response := assign response tunnel_ip tunnel_ipv6 in
  let '(response, refreshed) :=
    refresh_handshake_response_auth (refresh_rng r) response (HandshakeInit.client_random init) level
      keypair response_send_key in
  let! _ := refreshed or remove s session_id in
  let! packets := encode_handshake_response_as_packets (response_frag_id r) response session_id or s in
  let queued := enqueue (accepts r) 0 packets in
  if Nat.eqb (length queued) (length packets) then (s, Ok (map (fun p => (p, addr)) queued))
  else (remove s session_id, Ok (map (fun p => (p, addr)) queued)).

Definition handle_handshake_init_internal_prechecked (s : t) (r : reading) (data : list Z)
    (addr : SocketAddr.t) : t * result Empty_set (list sent) :=
  let! (init, _) := parse_init s data or s in
  let '(s, accepted) := accept_init s r init addr in
  let! _ := accepted or s in
  answer_init s r init addr.

Definition allow (s : t) (r : reading) (addr : SocketAddr.t) : t * bool :=
  let '(l, ok) :=
    HandshakeRateLimiter.allow (rate_limiter s) (fst (rate_clock r)) (snd (rate_clock r))
      (SocketAddr.ip addr) in
  (set_rate_limiter s l, ok).

Definition handle_handshake_init_internal (s : t) (r : reading) (data : list Z) (addr : SocketAddr.t)
    : t * result Empty_set (list sent) :=
  let '(s, ok) := allow s r addr in
  if negb ok then (s, Ok []) else handle_handshake_init_internal_prechecked s r data addr.

Definition handle_handshake_fragment_internal (s : t) (r : reading) (data : list Z) (addr : SocketAddr.t)
    : t * result Empty_set (list sent) :=
  if len data <? HEADER_SIZE then (s, Ok [])
  else
    let! header := PacketHeader.decode data or s in
    if negb (bool_decide (PacketHeader.msg_type header = MessageType.HandshakeFragment)) then (s, Ok [])
    else
      let! body := range (E:=Empty_set) data HEADER_SIZE (len data) or s in
      let! fragment := HandshakeFragment.from_bytes body or s in
      let is_new_attempt :=
        negb (Reassembly.contains (fragment_reassembly s) addr (HandshakeFragment.frag_id fragment)) in
      let '(s, ok) := if is_new_attempt then allow s r addr else (s, true) in
      if negb ok then (s, Ok [])
      else
        let '(reasm, completed) :=
          Reassembly.insert (fragment_reassembly s) (arrived_at r) addr fragment in
        let s := set_reassembly s reasm in
        let! completed := completed or s in
        match completed with
        | None => (s, Ok [])
        | Some (inner_msg_type, reassembled) =>
            let! synth := packet_of inner_msg_type 0 reassembled or s in
            handle_handshake_init_internal_prechecked s r synth addr
        end.

(** Handlers that hold the guard of a session change it with [put]. *)
Definition put (s : t) (session_id : Z) (c : ClientSession.t) : t :=
  set_sessions s (Workers.put (sessions s) session_id c).

(** A datagram to one address, if the channel has room. *)
Definition try_send (r : reading) (packet : list Z) (addr : SocketAddr.t) : list sent :=
  map (fun p => (p, addr)) (enqueue (accepts r) 0 [packet]).

(** Encrypting an answer into a fresh buffer. *)
Definition encrypt_answer (c : ClientSession.t) (msg_type : MessageType.t) (payload : list Z)
    : ClientSession.t * result unit (list Z) :=
  let output := replicate (Z.to_nat (HEADER_SIZE + len payload + TAG_SIZE + 32)) 0 in
  let '(c, r) := Workers.encrypt_for c msg_type payload output in
  (c, match r with
      | Ok (Some packet) => Ok packet
      | Ok None => Err tt
      | _ => Panic
      end).

Definition decrypt_message (c : ClientSession.t) (now : Z) (data : list Z)
    : ClientSession.t * result unit (list Z) :=
  let decrypt_buf := replicate (length data) 0 in
  let '(c, r) := Workers.decrypt_for c now data decrypt_buf in
  (c, match r with
      | Ok (Some plain) => Ok plain
      | Ok None => Err tt
      | _ => Panic
      end).

Definition handle_keepalive_internal (s : t) (r : reading) (session_id : Z) (data : list Z)
    (addr : SocketAddr.t) : t * result Empty_set (list sent) :=
  match SessionManager.get_session (sessions s) session_id with
  | None => (s, Ok [])
  | Some c =>
      let addr_changed := negb (bool_decide (ClientSession.client_addr c = addr)) in
      let '(c, plain) := decrypt_message c (now (table_clock r)) data in
      let s := put s session_id c in
      let! plain := plain or s in
      let! keepalive := KeepaliveMessage.from_bytes plain or s in
      if addr_changed then (s, Ok [])
      else
        let c := ClientSession.touch c (now_ms (table_clock r)) in
        let reply := KeepaliveReplyMessage.mk (KeepaliveMessage.sequence keepalive) (unix_millis r) in
        let '(c, packet) := encrypt_answer c MessageType.KeepaliveReply (KeepaliveReplyMessage.to_bytes reply) in
        let s := put s session_id c in
        let! packet := packet or s in
        (s, Ok (try_send r packet (ClientSession.client_addr c)))
  end.

(** The half of [send_rebind_ack_internal] after signing. *)
Definition send_ack (s : t) (r : reading) (session_id : Z) (client_addr : SocketAddr.t)
    (ack : ControlMessage.t) : t * result Empty_set (list sent) :=
  match SessionManager.get_session (sessions s) session_id with
  | None => (s, Ok [])
  | Some c =>
      let '(c, packet) := encrypt_answer c MessageType.Control (ControlMessage.to_bytes ack) in
      let s := put s session_id c in
      let! packet := packet or s in
      if negb (bool_decide (ClientSession.client_addr c = client_addr)) then (s, Ok [])
      else (s, Ok (try_send r packet client_addr))
  end.

Definition send_rebind_ack_internal (s : t) (r : reading) (session_id : Z)
    : t * result Empty_set (list sent) :=
  match SessionManager.get_session (sessions s) session_id with
  | None => (s, Ok [])
  | Some c =>
      let client_addr := ClientSession.client_addr c in
      let keypair := keypair_for_level s (ClientSession.security_level c) in
      match SignedRebindAckPayload.sign (sign_rng r) (unix_secs r) keypair session_id client_addr with
      | Ok signed => send_ack s r session_id client_addr (ControlMessage.rebind_ack_signed signed)
      | Err _ =>
          send_ack s r session_id client_addr (ControlMessage.mk ControlType.RebindAck None None None)
      | Panic => (s, Panic)
      end
  end.

Definition handle_control_internal (s : t) (r : reading) (session_id : Z) (data : list Z)
    (addr : SocketAddr.t) : t * result Empty_set (list sent) :=
  match SessionManager.get_session (sessions s) session_id with
  | None => (s, Ok [])
  | Some c =>
      let '(c, plain) := decrypt_message c (now (table_clock r)) data in
      let s := put s session_id c in
      let! plain := plain or s in
      let! control := ControlMessage.from_bytes plain or s in
      let s := put s session_id (ClientSession.touch c (now_ms (table_clock r))) in
      match ControlMessage.control_type control with
      | ControlType.Close => (remove s session_id, Ok [])
      | ControlType.Rebind =>
          let s := set_sessions s (SessionManager.update_client_addr (sessions s) session_id addr) in
          send_rebind_ack_internal s r session_id
      | _ => (s, Ok [])
      end
  end.

Definition handle_rekey_internal (s : t) (r : reading) (session_id : Z) (data : list Z)
    (addr : SocketAddr.t) : t * result Empty_set (list sent) :=
  match SessionManager.get_session (sessions s) session_id with
  | None => (s, Ok [])
  | Some c =>
      let addr_changed := negb (bool_decide (ClientSession.client_addr c = addr)) in
      let '(c, plain) := decrypt_message c (now (table_clock r)) data in
      let s := put s session_id c in
      let! plain := plain or s in
      let! rekey_msg := RekeyMessage.from_bytes plain or s in
      if addr_changed then (s, Ok [])
      else
        let level := HybridPublicKey.security_level (RekeyMessage.client_ephemeral_pk rekey_msg) in
        if negb (bool_decide (level = ClientSession.security_level c)) then (s, Ok [])
        else
          let rekey_handler :=
            ServerHandshake.new (cookie_secret r) (handshake_instant r) (keypair_for_level s level) in
          let current_key_id := Session.key_id (ClientSession.session c) in
          let! (response, new_keys) :=
            ServerHandshake.process_rekey rekey_handler (server_random r) (x25519_rng r) (mlkem_rng r)
              (sign_rng r) (unix_secs r) rekey_msg current_key_id session_id or s in
          let '(c, packet) := encrypt_answer c MessageType.RekeyResponse (RekeyResponse.to_bytes response) in
          let s := put s session_id c in
          let! packet := packet or s in
          let '(inner, updated) := Session.update_keys (ClientSession.session c) new_keys in
          let c := Workers.with_session c inner in
          let s := put s session_id c in
          let! _ := updated or s in
          let c := ClientSession.touch c (now_ms (table_clock r)) in
          (put s session_id c, Ok (try_send r packet (ClientSession.client_addr c)))
  end.

Definition handle_control_message (s : t) (r : reading) (ctrl : WorkerControl.t)
    : t * result Empty_set (list sent) :=
  match ctrl with
  | WorkerControl.HandshakeInit data addr => handle_handshake_init_internal s r data addr
  | WorkerControl.HandshakeFragment data addr => handle_handshake_fragment_internal s r data addr
  | WorkerControl.Keepalive id data addr => handle_keepalive_internal s r id data addr
  | WorkerControl.Control id data addr => handle_control_internal s r id data addr
  | WorkerControl.Rekey id data addr => handle_rekey_internal s r id data addr
  end.

Definition route_tun_packet (s : t) (packet : list Z) : result Empty_set (option Z) :=
  let? dest := get_destination_addr packet in
  Ok match dest with
     | None => None
     | Some (DestinationAddr.V4 dst_ip) => SessionManager.get_session_by_ip (sessions s) dst_ip
     | Some (DestinationAddr.V6 dst_ip) => SessionManager.get_session_by_ipv6 (sessions s) dst_ip
     end.

(** A datagram on the socket: the worker, then the control task. *)
Definition receive (s : t) (r : reading) (pooled data : list Z) (addr : SocketAddr.t)
    : t * result Empty_set (list sent * option (list Z)) :=
  let '(m, a) := Workers.process_packet (sessions s) (table_clock r) pooled data addr in
  let s := set_sessions s m in
  match a with
  | Ok (Received.ToTun packet) => (s, Ok ([], Some packet))
  | Ok (Received.ToControl ctrl) =>
      let '(s, out) := handle_control_message s r ctrl in
      (s, let? out := out in Ok (out, None))
  | Ok Received.Nothing => (s, Ok ([], None))
  | Err e => match e with end
  | Panic => (s, Panic)
  end.

End Server.

End VpnServer.
