(* ===== verification/ServerSafety.v ===== *)
(** Nothing a peer sends aborts a handler of the server, and every handler
    keeps the server's invariant; what a message has to pass before the server
    creates a session for it. *)

From S2P Require Import Prelude Types Codec Wire Net Header Digest Aead Keys Signature Kem Kdf Session Fragment Reassembly.
From S2P Require Import Tunnel Control Init Response Handshake Agreement.
From S2P Require Import HandshakeReplay RateLimit AuthLockout AddressPool TokenBucket SessionManager DataPlane UserStore Server.

(** * Outcomes of the cryptographic operations on arbitrary input *)

Section Outcomes.
Context {R : RingAead} {RL : RingAeadLaws} {D : RingDigest} {DL : RingDigestLaws}.
Context {M : MlDsa} {ML : MlDsaLaws} {K : KemPrimitives} {KL : KemLaws} {H : Hkdf} {HL : HkdfLaws}.

(** An operation that does not abort, and whose result satisfies [P]. *)
Definition yields {E A} (x : result E A) (P : A -> Prop) : Prop :=
  match x with Ok a => P a | Err _ => True | Panic => False end.

Lemma yields_bind {E A B} (x : result E A) (f : A -> result E B) (P : A -> Prop) (Q : B -> Prop) :
  yields x P -> (forall a, P a -> yields (f a) Q) -> yields (rbind x f) Q.
Proof. destruct x; simpl; auto. Qed.

Lemma yields_map_err {E E' A} (g : E -> E') (x : result E A) P : yields x P -> yields (map_err g x) P.
Proof. by destruct x. Qed.

Lemma yields_ok_or {E A} (e : E) (o : option A) (P : A -> Prop) :
  (forall a, o = Some a -> P a) -> yields (ok_or e o) P.
Proof. destruct o; simpl; auto. Qed.

Lemma yields_impl {E A} (x : result E A) (P Q : A -> Prop) :
  (forall a, P a -> Q a) -> yields x P -> yields x Q.
Proof. destruct x; simpl; auto. Qed.

Lemma yields_total {E A} (x : result E A) (P : A -> Prop) :
  x <> Panic -> (forall a, x = Ok a -> P a) -> yields x P.
Proof. destruct x; simpl; auto. Qed.

Lemma encapsulate_yields x rnd pk :
  yields (HybridKem.encapsulate x rnd pk) (fun '(_, ct) => HybridCiphertext.wf ct).
Proof.
  unfold HybridKem.encapsulate. set (l := HybridPublicKey.security_level pk).
  destruct (negb _); [done|]. destruct (negb _); [done|].
  eapply yields_bind with (P := fun _ => True).
  { unfold try_into_32. by destruct (_ =? _). }
  intros p _. destruct (bool_decide _); [done|].
  eapply yields_bind with (P := fun '(ss, ct) =>
    len ss = 32 /\ len ct = SecurityLevel.mlkem_ciphertext_size l /\ bytes_ok ct).
  { destruct l; (eapply yields_bind with (P := fun _ => True); [by apply yields_ok_or|]); intros k _; simpl;
      [pose proof (mlkem_encapsulate_sizes SecurityLevel.Level3 rnd k)
      |pose proof (mlkem_encapsulate_sizes SecurityLevel.Level5 rnd k)]; by destruct (mlkem_encapsulate _ _ _). }
  intros [ss ct] (Hss & Hct & Hcb).
  pose proof (HybridKem.first32_ok CryptoError.Encapsulation ss Hss) as Hf. rewrite range_ok in * by lia.
  cbn [rbind] in Hf |- *. rewrite Hf. cbn [rbind].
  rewrite HandshakeSecret.combine_eq by (done || apply diffie_hellman_len). simpl.
  destruct (x25519_public_ok x). done.
Qed.

Lemma keypair_sign_yields kp rnd m : yields (MlDsaKeypair.sign kp rnd m) MlDsaSignature.wf.
Proof.
  unfold MlDsaKeypair.sign. destruct (MlDsaKeypair.security_level kp);
    (eapply yields_bind with (P := fun _ => True); [by apply yields_ok_or|]); intros sk _;
    apply yields_ok_or; intros s [-> Hs]%MlDsaSignature.sig_from_bytes_with_level_inv;
    (split; [apply detached_sign_size|exact Hs]).
Qed.

Lemma sign_yields rnd sk m level : yields (signature.sign rnd sk m level) MlDsaSignature.wf.
Proof.
  exact (keypair_sign_yields (MlDsaKeypair.mk [] sk level) rnd m).
Qed.

Lemma open_vec_yields key nonce aad buf : bytes_ok buf -> yields (open_vec key nonce aad buf) bytes_ok.
Proof.
  intros Hb. unfold open_vec, aead.decrypt_in_place. destruct (len buf <? TAG_SIZE) eqn:E; [done|].
  destruct (LessSafeKey_new key) as [k|]; [|done]. cbn [ok_or rbind].
  pose proof (Session.decrypt_in_place_no_panic k nonce aad buf Hb) as Hp.
  pose proof (decrypt_in_place_inv k nonce aad buf) as Hi.
  pose proof (decrypt_in_place_bytes k nonce aad buf) as Hby.
  unfold PrecomputedKey.decrypt_in_place in Hp, Hi, Hby. rewrite E in Hp, Hi, Hby.
  destruct (rbind _ _) as [[b' m]|e|]; [|done|done]. simpl.
  destruct (Hi b' m Hb eq_refl) as (Hm & H0 & Hl & _). pose proof (Hby b' m Hb eq_refl).
  unfold TAG_SIZE in *. rewrite range_ok by lia. simpl. auto with hpn.
Qed.

Lemma kem_nonce_yields {E} ct : yields (kem_nonce (E:=E) ct) (fun _ => True).
Proof. by destruct (kem_nonce_ok (E:=E) ct) as (n & -> & _). Qed.

Lemma derived_key_yields secret domain : yields (hkdf_expand secret domain zero_key) (fun _ => True).
Proof. by destruct (derived_key_ok secret domain) as (k & -> & _). Qed.

Lemma decapsulate_yields sk ct : yields (HybridKem.decapsulate sk ct) (fun _ => True).
Proof. apply yields_total; [apply HybridKem.decapsulate_no_panic|done]. Qed.

(** Opening what a peer sealed for the server. *)
Ltac peel := eapply yields_bind with (P := fun _ => True); [|intros ? _].

Lemma hidden_init_yields e sk :
  EncryptedHandshakeInit.wf e -> yields (EncryptedHandshakeInit.decrypt e sk) HandshakeInit.wf.
Proof.
  intros Hw. unfold EncryptedHandshakeInit.decrypt.
  peel; [by apply yields_map_err, decapsulate_yields|].
  peel; [by apply yields_map_err, derived_key_yields|].
  peel; [apply kem_nonce_yields|].
  eapply yields_bind with (P := bytes_ok).
  { apply yields_map_err, open_vec_yields. apply Hw. }
  intros b Hb. apply yields_total; [by apply HandshakeInit.init_total|].
  intros i. by apply HandshakeInit.init_sound.
Qed.

Lemma credentials_yields c sk :
  EncryptedCredentials.wf c -> yields (EncryptedCredentials.decrypt c sk) (fun _ => True).
Proof.
  intros Hw. unfold EncryptedCredentials.decrypt.
  peel; [by apply yields_map_err, decapsulate_yields|].
  peel; [by apply yields_map_err, derived_key_yields|].
  peel; [apply kem_nonce_yields|].
  eapply yields_bind with (P := bytes_ok).
  { apply yields_map_err, open_vec_yields. apply Hw. }
  intros b Hb. destruct (EncryptedCredentials.position_zero b) as [n|] eqn:En; [|done]. cbn [ok_or rbind].
  assert (0 <= n < len b) as Hn.
  { clear -En. revert n En. induction b as [|x b IH]; intros n En; simpl in En; [done|].
    rewrite len_cons. pose proof (len_nonneg b). destruct (x =? 0); [injection En as <-; lia|].
    destruct (EncryptedCredentials.position_zero b) as [k|]; [|done]. injection En as <-.
    specialize (IH k eq_refl). lia. }
  rewrite !range_ok by lia. cbn [rbind].
  peel; [by apply yields_ok_or|]. peel; [by apply yields_ok_or|]. by destruct (_ || _).
Qed.

Lemma derive_keys_yields ss id ts : yields (derive_session_keys_with_context ss id ts) SessionKeys.wf.
Proof. by destruct (derive_session_keys_ok ss id ts) as (k & -> & ?). Qed.

Lemma process_init_yields s sr x m sg now init sid cfg :
  yields (ServerHandshake.process_init s sr x m sg now init sid cfg)
    (fun '(resp, keys) => SessionKeys.wf keys /\ HandshakeResponse.session_id resp = sid).
Proof.
  unfold ServerHandshake.process_init.
  eapply yields_bind; [apply yields_map_err, encapsulate_yields|]. intros [ss ct] _.
  eapply yields_bind; [apply yields_map_err, keypair_sign_yields|]. intros sig _.
  eapply yields_bind; [apply yields_map_err, derive_keys_yields|]. intros keys Hk. simpl.
  split; [by apply SessionKeys.swap_wf|done].
Qed.

Lemma process_rekey_yields s sr x m sg now rk kid sid :
  bytes_ok sr -> len sr <= 65536 ->
  yields (ServerHandshake.process_rekey s sr x m sg now rk kid sid)
    (fun '(resp, keys) => SessionKeys.wf keys /\ bytes_ok (RekeyResponse.to_bytes resp) /\
       len (RekeyResponse.to_bytes resp) <= MAX_SEAL).
Proof.
  intros Hsb Hsl. unfold ServerHandshake.process_rekey.
  eapply yields_bind; [apply yields_map_err, encapsulate_yields|]. intros [ss ct] (Hc1 & Hc2 & Hc3 & Hc4).
  eapply yields_bind; [apply yields_map_err, keypair_sign_yields|]. intros sig [Hs1 Hs2].
  eapply yields_bind; [apply yields_map_err, derive_keys_yields|]. intros keys Hk. simpl.
  split; [by apply SessionKeys.swap_wf|].
  unfold RekeyResponse.to_bytes, HybridCiphertext.to_bytes_raw, SessionId.to_bytes, compute_key_confirmation.
  cbn [RekeyResponse.server_ciphertext RekeyResponse.signature RekeyResponse.server_random
    RekeyResponse.new_key_id RekeyResponse.key_confirmation RekeyResponse.kdf_timestamp RekeyResponse.session_id].
  set (mac := hmac_sign _ _). assert (len mac = 32 /\ bytes_ok mac) as [Hm1 Hm2] by apply hmac_size. split.
  - rewrite !bytes_ok_app. split_and!; auto with hpn.
  - autorewrite with len. rewrite Hm1, Hc3, Hc4, Hs2. unfold MAX_SEAL.
    rewrite MlDsaSignature.sig_size_for_level_spec.
    destruct (HybridCiphertext.security_level ct), (MlDsaSignature.security_level sig); simpl; lia.
Qed.

Lemma refresh_yields sg m cr level kp key :
  yields (snd (refresh_handshake_response_auth sg m cr level kp key)) (fun _ => True).
Proof.
  unfold refresh_handshake_response_auth.
  pose proof (sign_yields sg (MlDsaKeypair.secret_key kp)
    (build_transcript PROTOCOL_VERSION (Some (HandshakeResponse.session_id m)) cr
      (HandshakeResponse.server_random m) (HandshakeResponse.server_ciphertext m)
      (HandshakeResponse.config m)) level) as Hs.
  by destruct (signature.sign _ _ _ _).
Qed.

Lemma rebind_sign_yields rnd now kp id a :
  yields (SignedRebindAckPayload.sign rnd now kp id a)
    (fun p => SignedRebindAckPayload.endpoint p = a /\ MlDsaSignature.wf (SignedRebindAckPayload.signature p)).
Proof.
  unfold SignedRebindAckPayload.sign. peel; [by apply yields_ok_or|].
  eapply yields_bind; [apply yields_map_err, keypair_sign_yields|]. intros sig Hs. done.
Qed.

(** The acknowledgment fits a packet. *)
Lemma ack_bytes (o : option SignedRebindAckPayload.t) :
  match o with
  | Some p => SocketAddr.wf (SignedRebindAckPayload.endpoint p) /\ MlDsaSignature.wf (SignedRebindAckPayload.signature p)
  | None => True
  end ->
  let m := ControlMessage.mk ControlType.RebindAck None None o in
  bytes_ok (ControlMessage.to_bytes m) /\ len (ControlMessage.to_bytes m) <= MAX_SEAL.
Proof.
  intros Ho m. unfold m, ControlMessage.to_bytes. cbn [ControlMessage.control_type ControlMessage.error_code
    ControlMessage.message ControlMessage.signed_payload ControlMessage.error_block ControlMessage.message_block].
  assert (bytes_ok (ControlMessage.signed_block o) /\ len (ControlMessage.signed_block o) <= 70000) as [Hb Hl].
  { destruct o as [p|]; cbn [ControlMessage.signed_block]; [|split; [constructor|done]]. destruct Ho as [[Hip Hpo] [Hsb Hsl]].
    set (b := SignedRebindAckPayload.to_bytes p).
    assert (bytes_ok b) as Hbb.
    { unfold b, SignedRebindAckPayload.to_bytes. rewrite !bytes_ok_app.
      split_and!; auto with hpn; [by repeat constructor; apply SecurityLevel.level_as_u8_u8|].
      unfold SignedRebindAckPayload.ip_bytes.
      destruct (SocketAddr.ip _) as [x|x]; destruct Hip as [Hx _];
        (apply bytes_ok_app; split; [by repeat constructor|done]). }
    split; [apply bytes_ok_app; split; auto with hpn|].
    rewrite len_app, len_be_bytes. pose proof (len_nonneg b). unfold U16_MAX.
    destruct (len b <=? 65535) eqn:E; b2p; rewrite len_slice; lia. }
  split.
  - rewrite !bytes_ok_app. split_and!; auto with hpn. by repeat constructor.
  - autorewrite with len. unfold MAX_SEAL. lia.
Qed.

(** A header and its payload. *)
Lemma packet_of_ok ty id payload :
  packet_of ty id payload =
    Ok (PacketHeader.wire (PacketHeader.new ty id KeyId.initial Counter.initial) ++ payload).
Proof.
  pose proof (len_nonneg payload). unfold packet_of. set (h := PacketHeader.new _ _ _ _).
  assert (len (PacketHeader.wire h) = 24) as Lw by apply PacketHeader.len_wire.
  assert (length (PacketHeader.wire h) = 24%nat) as Lw' by (unfold len in Lw; lia).
  unfold HEADER_SIZE. replace (Z.to_nat (24 + len payload)) with (24 + length payload)%nat by (unfold len; lia).
  rewrite replicate_add.
  rewrite (range_rest_at _ 0 (replicate 24 0) (replicate (length payload) 0)) by (apply rest_at_start || done).
  sbind. rewrite PacketHeader.encode_wire by (rewrite len_replicate; done). sbind. rewrite Lw'.
  rewrite (drop_ge (replicate 24 0)) by (rewrite length_replicate; lia). rewrite app_nil_r.
  rewrite copy_prefix' by (rewrite ?len_replicate; done). sbind.
  rewrite copy_from_slice_at by (rewrite ?len_app, ?len_replicate, ?Lw; unfold len; done || lia).
  f_equal. rewrite drop_ge by (rewrite length_replicate; lia). by rewrite app_nil_r.
Qed.

Lemma packets_of_ok ty id ps :
  packets_of ty id ps =
    Ok (map (fun p => PacketHeader.wire (PacketHeader.new ty id KeyId.initial Counter.initial) ++ p) ps).
Proof. induction ps as [|p ps IH]; [done|]. simpl. by rewrite packet_of_ok, IH. Qed.

Lemma encode_response_yields fid m id :
  yields (encode_handshake_response_as_packets fid m id) (fun _ => True).
Proof.
  unfold encode_handshake_response_as_packets. destruct (_ <=? _); [by rewrite packet_of_ok|].
  unfold build_handshake_fragments.
  destruct (split_payload _ _ _) as [fs|e|] eqn:E; [|done|].
  - sbind. by rewrite packets_of_ok.
  - unfold split_payload in E. by repeat (step_in E).
Qed.

End Outcomes.

(** * The server *)

Module ServerSafety.
Import VpnServer.

Section Safety.
Context {R : RingAead} {RL : RingAeadLaws} {D : RingDigest} {DL : RingDigestLaws}.
Context {M : MlDsa} {ML : MlDsaLaws} {K : KemPrimitives} {KL : KemLaws} {H : Hkdf} {HL : HkdfLaws}.
Context {A2 : Argon2}.
Context {IS : SetIter Z} {IR : HashIter (SocketAddr.t * Z) Entry.t}.
Context {I1 : HashIter (list Z * IpAddr.t) TupleEntry.t} {I2 : HashIter IpAddr.t IpEntry.t}
  {I3 : HashIter (list Z) UsernameEntry.t}.

Notation table s := (SessionManager.get_session (sessions s)).

Record ok (s : t) : Prop := {
  ok_table : DataPath.healthy (sessions s);
  ok_addrs id c : table s id = Some c -> SocketAddr.wf (ClientSession.client_addr c);
  ok_reassembly : exists h, Reassembly.good h (fragment_reassembly s) /\ Forall (fun x => HandshakeFragment.wf (snd x)) h;
}.

Definition reading_ok (r : reading) : Prop :=
  u64 (generated_id r) /\ bytes_ok (server_random r) /\ len (server_random r) = 32.

(** What only the set-up of the server decides. *)
Definition same_setup (s s' : t) : Prop :=
  config s' = config s /\ keypair_level3 s' = keypair_level3 s /\ keypair_level5 s' = keypair_level5 s /\
  kem_keypair_level3 s' = kem_keypair_level3 s /\ kem_keypair_level5 s' = kem_keypair_level5 s.

Lemma ok_sessions s s' :
  sessions s' = sessions s -> fragment_reassembly s' = fragment_reassembly s -> ok s -> ok s'.
Proof. intros E1 E2 [H1 H2 H3]. split; rewrite ?E1, ?E2; done. Qed.

Lemma ok_set_sessions s m :
  ok s -> DataPath.healthy m ->
  (forall id c, SessionManager.get_session m id = Some c -> SocketAddr.wf (ClientSession.client_addr c)) ->
  ok (set_sessions s m).
Proof. intros [_ _ H3] Hm Ha. by split. Qed.

(** ** Admission *)

Definition verified (s : t) (r : reading) (store : UserStore.t) (username password : list Z)
    (addr : SocketAddr.t) : Prop :=
  AuthLockoutTracker.check_lockout (auth_lockout s) (lockout_clock r) username (SocketAddr.ip addr) = None /\
  exists row, UserStore.by_name store username = Some row /\ UserRow.enabled row = true /\
    (forall until, UserRow.locked_until row = Some until -> until <= store_clock r) /\
    UserStore.verify_password_hash password (UserRow.password_hash row) = true.

(** What a message has passed when the server answers it. *)
Definition admitted (s : t) (r : reading) (init : HandshakeInit.t) (addr : SocketAddr.t) : Prop :=
  security_level_accepted s (HandshakeInit.security_level init) = true /\
  snd (HandshakeReplayCache.check_and_insert (handshake_replay s) (replay_clock r)
         (HandshakeInit.client_random init)) = true /\
  match user_store s with
  | None => True
  | Some store =>
      exists kp ec creds,
        kem_keypair_for_level s (HandshakeInit.security_level init) = Some kp /\
        HandshakeInit.credentials init = Some ec /\ EncryptedCredentials.decrypt ec (fst kp) = Ok creds /\
        verified s r store (DecryptedCredentials.username creds) (DecryptedCredentials.password creds) addr
  end.

Lemma verify_password_true store now f g u p store' j :
  UserStore.verify_password store now f g u p = (store', Ok true, j) ->
  exists row, UserStore.by_name store u = Some row /\ UserRow.enabled row = true /\
    (forall until, UserRow.locked_until row = Some until -> until <= now) /\
    UserStore.verify_password_hash p (UserRow.password_hash row) = true.
Proof.
  unfold UserStore.verify_password. destruct f as [e|]; [by intros [=]|].
  destruct (UserStore.by_name store u) as [row|]; [|by intros [=]].
  destruct (match UserRow.locked_until row with Some until => now <? until | None => false end) eqn:El;
    [by intros [=]|].
  destruct (UserRow.enabled row) eqn:Ee; simpl; [|by intros [=]].
  destruct (UserStore.verify_password_hash p (UserRow.password_hash row)) eqn:Ev; destruct g; intros [=].
  exists row. split_and!; try done. intros lim E. rewrite E in El. by b2p.
Qed.

Lemma authenticate_spec s r store u p addr :
  let '(s', b) := authenticate_credentials s r store u p addr in
  same_setup s s' /\ sessions s' = sessions s /\ fragment_reassembly s' = fragment_reassembly s /\
  (b = true -> verified s r store u p addr).
Proof.
  unfold authenticate_credentials, verified.
  destruct (AuthLockoutTracker.check_lockout _ _ _ _); [by split_and!|].
  destruct (join_error r); [by split_and!|].
  destruct (UserStore.verify_password _ _ _ _ _ _) as [[store' v] j] eqn:Ev.
  destruct v as [[]|e|]; split_and!; try done. intros _. split; [done|]. by eapply verify_password_true.
Qed.

Lemma accept_init_spec s r init addr :
  HandshakeInit.wf init ->
  let '(s', x) := accept_init s r init addr in
  same_setup s s' /\ sessions s' = sessions s /\ fragment_reassembly s' = fragment_reassembly s /\
  yields x (fun _ => admitted s r init addr).
Proof.
  intros Hw. unfold accept_init, admitted.
  destruct (security_level_accepted s _); simpl negb; cbv iota; [|by split_and!].
  destruct (HandshakeReplayCache.check_and_insert _ _ _) as [cache fresh]. destruct fresh; [|by split_and!].
  simpl negb. cbv iota. unfold check_credentials. cbn [user_store set_replay].
  destruct (user_store s) as [store|]; [|by split_and!].
  change (kem_keypair_for_level (set_replay s cache)) with (kem_keypair_for_level s).
  destruct (kem_keypair_for_level s _) as [kp|]; [|by split_and!]. cbn [ok_or rbind].
  destruct (HandshakeInit.credentials init) as [ec|] eqn:Ec; [|by split_and!]. cbn [ok_or rbind].
  assert (EncryptedCredentials.wf ec) as Hec by (destruct Hw as (_ & _ & _ & _ & Hc); by rewrite Ec in Hc).
  pose proof (credentials_yields ec (fst kp) Hec) as Hy.
  destruct (EncryptedCredentials.decrypt ec (fst kp)) as [creds|e|] eqn:Ed; [|by split_and!|done]. cbn [map_err].
  pose proof (authenticate_spec (set_replay s cache) r store (DecryptedCredentials.username creds)
    (DecryptedCredentials.password creds) addr) as Ha.
  destruct (authenticate_credentials _ _ _ _ _ _) as [s' b]. destruct Ha as (Hs & H1 & H2 & Hv).
  split_and!; try done. destruct b; [|done]. simpl. split_and!; try done. exists kp, ec, creds.
  split_and!; try done. exact (Hv eq_refl).
Qed.

Lemma parse_init_yields s data :
  bytes_ok data -> yields (parse_init s data) (fun '(init, _) => HandshakeInit.wf init).
Proof.
  intros Hb. unfold parse_init. destruct (len data <? HEADER_SIZE) eqn:El; [done|]. b2p.
  eapply yields_bind with (P := fun _ => True).
  { apply yields_map_err, yields_total; [by apply PacketHeader.decode_no_panic|done]. }
  intros h _. rewrite range_ok by (unfold HEADER_SIZE in *; lia). cbn [rbind].
  set (payload := slice data _ _). assert (bytes_ok payload) as Hp by by apply bytes_ok_slice.
  destruct (PacketHeader.msg_type h); try done.
  - eapply yields_bind with (P := HandshakeInit.wf); [|by intros].
    apply yields_map_err, yields_total; [by apply HandshakeInit.init_total|].
    intros i. by apply HandshakeInit.init_sound.
  - eapply yields_bind with (P := EncryptedHandshakeInit.wf).
    { apply yields_map_err, yields_total; [by apply EncryptedHandshakeInit.encrypted_init_total|].
      intros i. by apply EncryptedHandshakeInit.encrypted_init_sound. }
    intros e He. destruct (negb _); [done|].
    eapply yields_bind with (P := fun _ => True); [by apply yields_ok_or|]. intros kp _.
    eapply yields_bind with (P := HandshakeInit.wf); [|by intros].
    by apply yields_map_err, hidden_init_yields.
Qed.

(** ** Sessions created and removed *)

Lemma remove_healthy m id : DataPath.healthy m -> DataPath.healthy (fst (SessionManager.remove_session m id)).
Proof.
  intros [Hi Hw]. split; [by apply remove_session_inv|]. intros id' c Hc. apply (Hw id').
  unfold SessionManager.get_session in *. rewrite remove_session_sessions in Hc.
  by apply lookup_delete_Some in Hc as [_ Hc].
Qed.

Lemma remove_get m id id' :
  SessionManager.get_session (fst (SessionManager.remove_session m id)) id' =
    if decide (id = id') then None else SessionManager.get_session m id'.
Proof.
  unfold SessionManager.get_session. rewrite remove_session_sessions.
  destruct (decide (id = id')) as [<-|]; [apply lookup_delete_eq|by apply lookup_delete_ne].
Qed.

Lemma remove_ok s id : ok s -> ok (remove s id).
Proof.
  intros Hs. apply ok_set_sessions; [done|by apply remove_healthy, ok_table|].
  intros id' c. rewrite remove_get. destruct (decide _); [done|]. by apply ok_addrs.
Qed.

Lemma create_ok m k session addr level m' x :
  DataPath.healthy m -> Session.wf session ->
  SessionManager.create_session_dual_stack_with_level m k session addr level = (m', x) ->
  let id := Session.session_id session in
  DataPath.healthy m' /\
  (forall id', id' <> id -> SessionManager.get_session m' id' = SessionManager.get_session m id') /\
  match x with
  | Ok (ip, ip6) =>
      SessionManager.get_session m' id =
        Some (fresh (fst (SessionManager.remove_session m id)) k session addr ip ip6 level)
  | Err _ => SessionManager.get_session m' id = None
  | Panic => False
  end.
Proof.
  intros [Hi Hw] Hs E id. destruct (create_spec _ _ _ _ _ _ _ Hi E) as [Hi' Hc]. unfold created in Hc.
  pose proof (remove_get m id) as Hr. unfold SessionManager.get_session in *. fold id in Hc.
  destruct x as [[ip ip6]|e|]; [|destruct Hc as [Hc _]|done].
  - destruct Hc as (_ & _ & Hc & _). rewrite Hc. split_and!.
    + split; [done|]. intros id' c. unfold SessionManager.get_session. rewrite Hc.
      intros [[_ <-]|[_ Hg]]%lookup_insert_Some; [done|]. rewrite Hr in Hg.
      destruct (decide _); [done|]. by apply (Hw id').
    + intros id' Hne. rewrite lookup_insert_ne by done. rewrite Hr. by rewrite decide_False by done.
    + apply lookup_insert_eq.
  - split_and!.
    + split; [done|]. intros id' c. unfold SessionManager.get_session. rewrite Hc, Hr.
      destruct (decide _); [done|]. apply Hw.
    + intros id' Hne. rewrite Hc, Hr. by rewrite decide_False by done.
    + rewrite Hc, Hr. by rewrite decide_True by done.
Qed.

Lemma netmask_ok s : ok s -> exists m, SessionManager.netmask (E:=Empty_set) (sessions s) = Ok m /\ len m = 4 /\ bytes_ok m.
Proof.
  intros Hs. destruct (ok_table s Hs) as [[_ _ _ _ _ [Hp _] _ _ _ _] _]. destruct Hp as (_ & _ & _ & _ & Hp).
  unfold SessionManager.netmask, IpAllocator.netmask.
  rewrite (proj2 (Z.ltb_ge _ _)), (proj2 (Z.leb_gt _ _)) by lia.
  eexists. split; [done|]. split; [apply len_be_bytes|apply be_bytes_ok].
Qed.

(** ** Answering *)

(** The handshake created at most the session it was given an identifier for,
    bound to the sender and with the proposed level. *)
Definition created_for (s s' : t) (r : reading) (init : HandshakeInit.t) (addr : SocketAddr.t) : Prop :=
  (forall id, id <> generated_id r -> table s' id = table s id) /\
  (forall c, table s' (generated_id r) = Some c ->
     ClientSession.client_addr c = addr /\
     ClientSession.security_level c = HandshakeInit.security_level init) \/
  sessions s' = sessions s.

Lemma attempt_yields {S E A B} (x : result E A) (s : S) (k : A -> S * result Empty_set (list B))
    (P : A -> Prop) (Q : S * result Empty_set (list B) -> Prop) :
  yields x P -> Q (s, Ok []) -> (forall a, P a -> Q (k a)) -> Q (attempt x s k).
Proof. destruct x; simpl; auto. done. Qed.

Lemma answer_init_spec s r init addr :
  ok s -> reading_ok r -> SocketAddr.wf addr ->
  let '(s', out) := answer_init s r init addr in
  ok s' /\ same_setup s s' /\ (exists l, out = Ok l /\ Forall (fun p => snd p = addr) l) /\
  created_for s s' r init addr.
Proof.
  intros Hs (Hid & Hsr & Hsl) Ha. unfold answer_init, initial_config.
  destruct (netmask_ok s Hs) as (mask & -> & _ & _). cbn [rbind attempt].
  set (good := fun x : t * result Empty_set (list sent) => let '(s', out) := x in
    ok s' /\ same_setup s s' /\ (exists l, out = Ok l /\ Forall (fun p => snd p = addr) l) /\
    created_for s s' r init addr).
  match goal with |- let '(s', out) := ?x in _ => change (good x) end.
  assert (good (s, Ok [])) as Hstay.
  { split_and!; try done; [|by right]. exists []. split; [done|constructor]. }
  eapply attempt_yields; [apply process_init_yields|done|]. intros [m keys] [Hk Hm].
  destruct (Session.new_ok (now (table_clock r)) (generated_id r) keys Hid Hk)
    as (session & -> & Hw & _ & _ & Hsid & _). cbn [attempt].
  destruct (SessionManager.create_session_dual_stack_with_level _ _ _ _ _) as [tab x] eqn:Ec.
  destruct (create_ok _ _ _ _ _ _ _ (ok_table s Hs) Hw Ec) as (Hh & Hother & Hx). rewrite Hsid in Hother, Hx.
  assert (ok (set_sessions s tab)) as Hok.
  { apply ok_set_sessions; [done..|]. intros id c Hc. destruct (decide (id = generated_id r)) as [->|Hne].
    - destruct x as [[ip ip6]|e|]; [|congruence|done].
      rewrite Hx in Hc. by injection Hc as <-.
    - rewrite Hother in Hc by done. by eapply ok_addrs. }
  destruct x as [[ip ip6]|e|]; [|split_and!; try done|done].
  2:{ exists []. split; [done|constructor]. }
  2:{ left. split; [done|]. intros c Hc. simpl in Hc. congruence. }
  cbn [attempt].
  assert (forall l, Forall (fun p : sent => snd p = addr) l -> good (set_sessions s tab, Ok l)) as Hgood.
  { intros l Hl. split_and!; try done; [by exists l|]. left. split; [done|]. intros c Hc. simpl in Hc.
    rewrite Hx in Hc. by injection Hc as <-. }
  assert (forall l, Forall (fun p : sent => snd p = addr) l ->
    good (remove (set_sessions s tab) (generated_id r), Ok l)) as Hgone.
  { intros l Hl. split_and!; try done; [by apply remove_ok|by exists l|]. left.
    unfold remove. cbn [sessions set_sessions]. split.
    - intros id Hne. rewrite remove_get, decide_False by done. by apply Hother.
    - intros c. by rewrite remove_get, decide_True. }
  match goal with |- good (let '(_, _) := refresh_handshake_response_auth ?a ?b ?c ?d ?e ?f in _) =>
    pose proof (refresh_yields a b c d e f) as Hy;
    destruct (refresh_handshake_response_auth a b c d e f) as [m' refreshed] end.
  eapply attempt_yields; [exact Hy|by apply Hgone; constructor|]. intros _ _.
  eapply attempt_yields; [apply encode_response_yields|by apply Hgood; constructor|]. intros packets _.
  destruct (Nat.eqb _ _); [apply Hgood|apply Hgone]; apply Forall_fmap, Forall_true; done.
Qed.

(** What a handler returned: the invariant and the set-up are kept, nothing
    aborted, and the table changed as [P] says. *)
Definition handled (s : t) (P : t -> list sent -> Prop) (x : t * result Empty_set (list sent)) : Prop :=
  let '(s', out) := x in
  ok s' /\ same_setup s s' /\ exists l, out = Ok l /\ P s' l.

Lemma handled_impl s (P Q : t -> list sent -> Prop) x :
  (forall s' l, P s' l -> Q s' l) -> handled s P x -> handled s Q x.
Proof. intros HPQ. destruct x as [s' out]. intros (? & ? & l & ? & ?). split_and!; try done. exists l. auto. Qed.

Lemma same_setup_trans s1 s2 s3 : same_setup s1 s2 -> same_setup s2 s3 -> same_setup s1 s3.
Proof. intros (? & ? & ? & ? & ?) (? & ? & ? & ? & ?). unfold same_setup. split_and!; congruence. Qed.

Lemma handled_from s s1 P x : same_setup s s1 -> handled s1 P x -> handled s P x.
Proof.
  intros E. destruct x as [s' out]. intros (? & ? & ?). split_and!; try done. by eapply same_setup_trans.
Qed.

(** ** Handshakes *)

(** The table changed only for a message that was admitted. *)
Definition handshake_effect (s : t) (r : reading) (data : list Z) (addr : SocketAddr.t)
    (s' : t) (l : list sent) : Prop :=
  Forall (fun p => snd p = addr) l /\
  ((sessions s' = sessions s /\ l = []) \/
   exists init hidden, parse_init s data = Ok (init, hidden) /\ admitted s r init addr /\
     created_for s s' r init addr).

Lemma prechecked_spec s r data addr :
  ok s -> reading_ok r -> bytes_ok data -> SocketAddr.wf addr ->
  handled s (handshake_effect s r data addr) (handle_handshake_init_internal_prechecked s r data addr).
Proof.
  intros Hs Hr Hb Ha. unfold handle_handshake_init_internal_prechecked.
  assert (forall s1, ok s1 -> same_setup s s1 -> sessions s1 = sessions s ->
    handled s (handshake_effect s r data addr) (s1, Ok [])) as Hstop.
  { intros s1 H1 H2 H3. split_and!; try done. exists []. split; [done|]. split; [constructor|by left]. }
  pose proof (parse_init_yields s data Hb) as Hp.
  destruct (parse_init s data) as [[init hidden]|e|] eqn:Ep; [|by apply Hstop|done]. cbn [attempt].
  pose proof (accept_init_spec s r init addr Hp) as Hacc.
  destruct (accept_init s r init addr) as [s1 x]. destruct Hacc as (Hset & Hses & Hrea & Hx).
  assert (ok s1) as Hs1 by by eapply ok_sessions.
  destruct x as [u|e|]; [|by apply Hstop|done]. cbn [attempt].
  pose proof (answer_init_spec s1 r init addr Hs1 Hr Ha) as Hans.
  destruct (answer_init s1 r init addr) as [s2 out]. destruct Hans as (Hok & Hset2 & (l & -> & Hl) & Hcr).
  split_and!; [done|by eapply same_setup_trans|]. exists l. split; [done|]. split; [done|]. right.
  exists init, hidden. split_and!; try done. unfold created_for in *. by rewrite Hses in Hcr.
Qed.

Lemma allow_spec s r addr :
  let '(s', b) := allow s r addr in
  same_setup s s' /\ sessions s' = sessions s /\ fragment_reassembly s' = fragment_reassembly s /\
  user_store s' = user_store s /\ auth_lockout s' = auth_lockout s /\ handshake_replay s' = handshake_replay s /\
  b = snd (HandshakeRateLimiter.allow (rate_limiter s) (fst (rate_clock r)) (snd (rate_clock r))
             (SocketAddr.ip addr)).
Proof. unfold allow. by destruct (HandshakeRateLimiter.allow _ _ _ _). Qed.

(** The part of the state admission looks at. *)
Definition same_guards (s s' : t) : Prop :=
  same_setup s s' /\ sessions s' = sessions s /\ user_store s' = user_store s /\
  auth_lockout s' = auth_lockout s /\ handshake_replay s' = handshake_replay s.

Lemma admitted_same s s' r init addr : same_guards s s' -> admitted s' r init addr -> admitted s r init addr.
Proof.
  intros ((Ec & _ & _ & E3 & E5) & _ & Eu & El & Er). unfold admitted, verified, security_level_accepted,
    min_security_level, kem_keypair_for_level. by rewrite Ec, E3, E5, Eu, El, Er.
Qed.

Lemma parse_init_same s s' data : same_setup s s' -> parse_init s' data = parse_init s data.
Proof.
  intros (Ec & _ & _ & E3 & E5). unfold parse_init, security_level_accepted, min_security_level,
    kem_keypair_for_level. by rewrite Ec, E3, E5.
Qed.

Lemma handshake_effect_same s s1 r data addr s' l :
  same_guards s s1 -> handshake_effect s1 r data addr s' l -> handshake_effect s r data addr s' l.
Proof.
  intros Hg [Hl Hx]. split; [done|]. pose proof Hg as (Hset & Hses & _).
  destruct Hx as [[E ->]|(init & hidden & Hp & Ha & Hc)]; [left; by rewrite <- Hses|]. right.
  exists init, hidden. split_and!; [by rewrite <- (parse_init_same s s1)|by eapply admitted_same|].
  unfold created_for in *. by rewrite Hses in Hc.
Qed.

Lemma init_spec s r data addr :
  ok s -> reading_ok r -> bytes_ok data -> SocketAddr.wf addr ->
  handled s (handshake_effect s r data addr) (handle_handshake_init_internal s r data addr) /\
  (snd (allow s r addr) = false -> snd (handle_handshake_init_internal s r data addr) = Ok []).
Proof.
  intros Hs Hr Hb Ha. unfold handle_handshake_init_internal. pose proof (allow_spec s r addr) as Hal.
  destruct (allow s r addr) as [s1 b]. destruct Hal as (Hset & Hses & Hrea & Hu & Hlo & Hre & _).
  assert (ok s1) as Hs1 by by eapply ok_sessions.
  destruct b; simpl negb; cbv iota.
  - split; [|done]. eapply handled_from; [exact Hset|].
    eapply handled_impl; [|by apply prechecked_spec]. intros s' l. by apply handshake_effect_same.
  - split; [|done]. split_and!; try done. exists []. split; [done|]. split; [constructor|by left].
Qed.

(** The message a fragment completed. *)
Definition completes (s : t) (r : reading) (data : list Z) (addr : SocketAddr.t) (msg : list Z) : Prop :=
  exists h f ty payload,
    PacketHeader.decode data = Ok h /\
    HandshakeFragment.from_bytes (slice data HEADER_SIZE (len data)) = Ok f /\
    snd (Reassembly.insert (fragment_reassembly s) (arrived_at r) addr f) = Ok (Some (ty, payload)) /\
    msg = PacketHeader.wire (PacketHeader.new ty 0 KeyId.initial Counter.initial) ++ payload.

Lemma reassembled_bytes (h : list (SocketAddr.t * HandshakeFragment.t)) source id r :
  Forall (fun x => HandshakeFragment.wf (snd x)) h -> Reassembly.outcome_ok h source id r ->
  yields r (fun x => match x with Some (_, b) => bytes_ok b | None => True end).
Proof.
  intros Hh Hr. destruct r as [[[ty b]|]|e|]; simpl in *; try done.
  destruct Hr as (fs & -> & _ & Hfs). apply Forall_concat, Forall_fmap, Forall_lookup. intros i f Hi.
  destruct (Hfs i f Hi) as [Hin _]. rewrite Forall_forall in Hh. apply (Hh (source, f) Hin).
Qed.

Definition fragment_effect (s : t) (r : reading) (data : list Z) (addr : SocketAddr.t)
    (s' : t) (l : list sent) : Prop :=
  (sessions s' = sessions s /\ l = []) \/
  exists msg, completes s r data addr msg /\ handshake_effect s r msg addr s' l.

Lemma fragment_spec s r data addr :
  ok s -> reading_ok r -> bytes_ok data -> SocketAddr.wf addr ->
  handled s (fragment_effect s r data addr) (handle_handshake_fragment_internal s r data addr).
Proof.
  intros Hs Hr Hb Ha. unfold handle_handshake_fragment_internal.
  assert (forall s1, ok s1 -> same_setup s s1 -> sessions s1 = sessions s ->
    handled s (fragment_effect s r data addr) (s1, Ok [])) as Hstop.
  { intros s1 H1 H2 H3. split_and!; try done. exists []. split; [done|]. by left. }
  destruct (len data <? HEADER_SIZE) eqn:El; [by apply Hstop|]. b2p.
  pose proof (PacketHeader.decode_no_panic data Hb) as Hp.
  destruct (PacketHeader.decode data) as [h|e|] eqn:Hd; [|by apply Hstop|done]. cbn [attempt].
  destruct (negb _); [by apply Hstop|]. rewrite range_ok by (unfold HEADER_SIZE in *; lia). cbn [attempt].
  assert (bytes_ok (slice data HEADER_SIZE (len data))) as Hbs by by apply bytes_ok_slice.
  pose proof (HandshakeFragment.from_bytes_no_panic _ Hbs) as Hft.
  destruct (HandshakeFragment.from_bytes _) as [f|e|] eqn:Hf; [|by apply Hstop|done]. cbn [attempt].
  assert (HandshakeFragment.wf f) as Hfw.
  { by apply (HandshakeFragment.from_bytes_inv _ _ Hbs). }
  set (x := if negb (Reassembly.contains _ _ _) then allow s r addr else (s, true)).
  assert (same_guards s (fst x) /\ fragment_reassembly (fst x) = fragment_reassembly s) as [Hg Hrea].
  { unfold x. destruct (negb _); [|done]. pose proof (allow_spec s r addr) as Hal.
    destruct (allow s r addr) as [s1 b]. destruct Hal as (? & ? & ? & ? & ? & ? & _). by split_and!. }
  destruct x as [s1 b]. cbn [fst] in Hg, Hrea.
  assert (ok s1) as Hs1 by (eapply ok_sessions; [apply Hg|done|done]).
  destruct b; simpl negb; cbv iota; [|by apply Hstop; [|apply Hg..]].
  destruct (ok_reassembly s Hs) as (hist & Hgood & Hhist). rewrite Hrea.
  pose proof (Reassembly.insert_spec hist (fragment_reassembly s) (arrived_at r) addr f Hfw Hgood) as Hi.
  destruct (Reassembly.insert _ _ _ _) as [rea out] eqn:Ei. destruct Hi as (Hgood' & _ & Hout).
  assert (Forall (fun x => HandshakeFragment.wf (snd x)) (hist ++ [(addr, f)])) as Hhist'
    by (apply Forall_app; split; [done|by apply Forall_singleton]).
  assert (ok (set_reassembly s1 rea)) as Hs2.
  { destruct Hs1 as [H1 H2 _]. split; try done. by exists (hist ++ [(addr, f)]). }
  pose proof (reassembled_bytes _ _ _ _ Hhist' Hout) as Hy.
  destruct out as [[[ty payload]|]|e|]; [|by apply Hstop; [|apply Hg..]|done|done]. cbn [attempt].
  rewrite packet_of_ok. cbn [attempt]. apply (handled_from s (set_reassembly s1 rea)); [exact (proj1 Hg)|].
  eapply handled_impl; [|apply prechecked_spec; try done].
  - intros s' l He. right. eexists. split.
    + exists h, f, ty, payload. split_and!; try done. by rewrite Ei.
    + eapply handshake_effect_same; [|exact He]. done.
  - apply bytes_ok_app. split; [|exact Hy]. apply PacketHeader.bytes_ok_wire. by apply Session.data_header_wf.
Qed.

(** ** Sessions *)

Lemma server_put_ok s id c c' :
  ok s -> table s id = Some c -> DataPath.same c c' -> ok (put s id c').
Proof.
  intros Hs Hc Hsame. apply ok_set_sessions; [done|by eapply DataPath.put_healthy; [apply ok_table| |]|].
  intros id' d. rewrite DataPath.put_get. destruct (decide (id = id')); [|by apply ok_addrs].
  intros [= <-]. destruct Hsame as ([= -> _ _ _] & _). by eapply ok_addrs.
Qed.

Lemma put_table s id c id' : table (put s id c) id' = if decide (id = id') then Some c else table s id'.
Proof. apply DataPath.put_get. Qed.

Lemma put_self s id c : table (put s id c) id = Some c.
Proof. rewrite put_table. by rewrite decide_True. Qed.

(** Every session keeps its address, tunnel addresses and level. *)
Definition bindings (s s' : t) : Prop :=
  forall id, DataPath.endpoints (sessions s') id = DataPath.endpoints (sessions s) id.

Lemma put_bindings s id c c' :
  table s id = Some c -> DataPath.same c c' -> bindings s (put s id c').
Proof. intros Hc Hsame id'. by eapply DataPath.put_endpoints. Qed.

Lemma put_kept s id c c' :
  ok s -> table s id = Some c -> DataPath.same c c' ->
  ok (put s id c') /\ same_setup s (put s id c') /\ bindings s (put s id c').
Proof. intros Hs Hc Hsame. split_and!; try done; [by eapply server_put_ok|by eapply put_bindings]. Qed.

Lemma put_again s id c c1 c2 :
  ok s -> table s id = Some c -> DataPath.same c c1 -> DataPath.same c c2 ->
  let s' := put (put s id c1) id c2 in ok s' /\ same_setup s s' /\ bindings s s'.
Proof.
  intros Hs Hc H1 H2 s'. pose proof (put_self s id c1) as Hg.
  assert (DataPath.same c1 c2) as H12.
  { destruct H1 as (E1 & E2 & _ & E0), H2 as (E3 & E4 & E5 & E6). unfold DataPath.same. split_and!; congruence || done. }
  destruct (put_kept s id c c1 Hs Hc H1) as (Ho & _ & Hb).
  destruct (put_kept _ id c1 c2 Ho Hg H12) as (Ho' & _ & Hb'). split_and!; try done.
  intros id'. etransitivity; [apply Hb'|apply Hb].
Qed.

Lemma decrypt_message_spec c now data :
  Session.wf (ClientSession.session c) -> bytes_ok data ->
  let '(c', x) := decrypt_message c now data in
  DataPath.same c c' /\
  yields x (fun plain => bytes_ok plain /\ exists h, PacketHeader.decode data = Ok h /\
                          DataPath.authentic (ClientSession.session c) h plain data).
Proof.
  intros Hw Hb. unfold decrypt_message.
  pose proof (DataPath.decrypt_for_spec c now data (replicate (length data) 0) Hw Hb) as Hd.
  destruct (Workers.decrypt_for _ _ _ _) as [c' [[plain|]|e|]]; destruct Hd as [Hs Hd]; try done.
  split; [done|]. simpl. destruct Hd as (? & h & ? & ? & _). split; [done|]. by exists h.
Qed.

Lemma encrypt_answer_spec c mt payload :
  Session.wf (ClientSession.session c) -> bytes_ok payload -> len payload <= MAX_SEAL ->
  let s := ClientSession.session c in
  let '(c', x) := encrypt_answer c mt payload in
  DataPath.same c c' /\
  yields x (fun packet =>
    Session.sealed_packet (Session.send_key s) (SessionKeys.send_nonce_prefix (Session.keys s))
      (PacketHeader.new mt (Session.session_id s) (Session.key_id s) (Session.send_counter s)) payload packet).
Proof.
  intros Hw Hb Hm s. unfold encrypt_answer. set (buf := replicate _ 0).
  pose proof (DataPath.encrypt_for_spec c mt payload buf Hw Hb Hm) as He. cbv zeta in He.
  destruct (Workers.encrypt_for _ _ _ _) as [c' [[packet|]|e|]]; destruct He as [Hs He]; try done.
  split; [done|]. by destruct He.
Qed.

(** A packet of the session, sent from the address it is bound to. *)
Definition from_client (s : t) (id : Z) (data : list Z) (addr : SocketAddr.t) : Prop :=
  exists c h plain, table s id = Some c /\ ClientSession.client_addr c = addr /\
    PacketHeader.decode data = Ok h /\ DataPath.authentic (ClientSession.session c) h plain data.

(** Sessions keep their bindings, and an answer goes to the address of an
    authentic sender. *)
Definition answer_effect (s : t) (id : Z) (data : list Z) (addr : SocketAddr.t) (s' : t) (l : list sent) : Prop :=
  bindings s s' /\ Forall (fun p => snd p = addr) l /\ (l <> [] -> from_client s id data addr).

Lemma try_send_to r packet addr : Forall (fun p : sent => snd p = addr) (try_send r packet addr).
Proof. unfold try_send. apply Forall_fmap, Forall_true. done. Qed.

Lemma keepalive_spec s r id data addr :
  ok s -> bytes_ok data -> handled s (answer_effect s id data addr) (handle_keepalive_internal s r id data addr).
Proof.
  intros Hs Hb. unfold handle_keepalive_internal.
  assert (forall s1, ok s1 -> same_setup s s1 -> bindings s s1 ->
    handled s (answer_effect s id data addr) (s1, Ok [])) as Hstop.
  { intros s1 H1 H2 H3. split_and!; try done. exists []. by split_and!. }
  destruct (table s id) as [c|] eqn:Hc; [|by apply Hstop].
  pose proof (proj2 (ok_table s Hs) id c Hc) as Hw.
  pose proof (decrypt_message_spec c (now (table_clock r)) data Hw Hb) as Hd.
  destruct (decrypt_message c (now (table_clock r)) data) as [c1 x]. destruct Hd as [Hsame Hx].
  destruct (put_kept s id c c1 Hs Hc Hsame) as (Hs1 & Hset1 & Hb1).
  destruct x as [plain|e|]; [|by apply Hstop|done]. destruct Hx as (Hpb & h & Hdec & Hau). cbn [attempt].
  pose proof (codec_total (Codec:=KeepaliveMessage.keepalive_codec_laws) plain Hpb) as Hkt.
  destruct (KeepaliveMessage.from_bytes plain) as [ka|e|]; [|by apply Hstop|done]. cbn [attempt].
  destruct (negb (bool_decide (ClientSession.client_addr c = addr))) eqn:Ea; [by apply Hstop|].
  apply negb_false_iff, bool_decide_eq_true in Ea.
  set (c2 := ClientSession.touch c1 _). assert (DataPath.same c c2) as Hsame2 by done.
  set (reply := KeepaliveReplyMessage.to_bytes _).
  assert (bytes_ok reply /\ len reply <= MAX_SEAL) as [Hrb Hrl].
  { unfold reply, KeepaliveReplyMessage.to_bytes. split; [apply bytes_ok_app; auto with hpn|].
    autorewrite with len. unfold MAX_SEAL. lia. }
  pose proof (encrypt_answer_spec c2 MessageType.KeepaliveReply reply ltac:(apply Hsame2) Hrb Hrl) as He.
  cbv zeta in He. destruct (encrypt_answer _ _ _) as [c3 y]. destruct He as [Hsame3 Hy].
  assert (DataPath.same c c3) as Hsame4 by by eapply DataPath.same_trans.
  destruct (put_again s id c c1 c3 Hs Hc Hsame Hsame4) as (Hs3 & Hset3 & Hb3).
  destruct y as [packet|e|]; [|by apply Hstop|done]. cbn [attempt].
  split_and!; try done. eexists. split; [done|]. split_and!; try done.
  - destruct Hsame4 as ([= -> _ _ _] & _). rewrite Ea. apply try_send_to.
  - intros _. by exists c, h, plain.
Qed.

Lemma send_ack_spec s r id c o :
  ok s -> table s id = Some c ->
  match o with
  | Some p => SocketAddr.wf (SignedRebindAckPayload.endpoint p) /\ MlDsaSignature.wf (SignedRebindAckPayload.signature p)
  | None => True
  end ->
  handled s (fun s' l => bindings s s' /\ Forall (fun p => snd p = ClientSession.client_addr c) l)
    (send_ack s r id (ClientSession.client_addr c) (ControlMessage.mk ControlType.RebindAck None None o)).
Proof.
  intros Hs Hc Ho. unfold send_ack. rewrite Hc. set (a := ClientSession.client_addr c).
  pose proof (proj2 (ok_table s Hs) id c Hc) as Hw. destruct (ack_bytes o Ho) as [Hab Hal].
  assert (forall s1, ok s1 /\ same_setup s s1 /\ bindings s s1 ->
    handled s (fun s' l => bindings s s' /\ Forall (fun p : sent => snd p = a) l) (s1, Ok [])) as Hstop.
  { intros s1 (H1 & H2 & H3). split_and!; try done. exists []. by split_and!. }
  pose proof (encrypt_answer_spec c MessageType.Control _ Hw Hab Hal) as He. cbv zeta in He.
  destruct (encrypt_answer _ _ _) as [c1 y]. destruct He as [Hsame Hx].
  pose proof (put_kept s id c c1 Hs Hc Hsame) as Hk.
  destruct y as [packet|e|]; [|by apply Hstop|done]. cbn [attempt].
  destruct (negb _); [by apply Hstop|]. destruct Hk as (Hs1 & Hset1 & Hb1). split_and!; try done.
  eexists. split; [done|]. split; [done|apply try_send_to].
Qed.

Lemma rebind_ack_spec s r id c :
  ok s -> table s id = Some c ->
  handled s (fun s' l => bindings s s' /\ Forall (fun p => snd p = ClientSession.client_addr c) l)
    (send_rebind_ack_internal s r id).
Proof.
  intros Hs Hc. unfold send_rebind_ack_internal. rewrite Hc.
  pose proof (rebind_sign_yields (sign_rng r) (unix_secs r)
    (keypair_for_level s (ClientSession.security_level c)) id (ClientSession.client_addr c)) as Hy.
  destruct (SignedRebindAckPayload.sign _ _ _ _ _) as [p|e|]; [|by apply (send_ack_spec s r id c None)|done].
  apply (send_ack_spec s r id c (Some p)); [done..|]. destruct Hy as [-> Hsig]. split; [by eapply ok_addrs|done].
Qed.

(** The same session at another address. *)
Definition moved (c : ClientSession.t) (addr : SocketAddr.t) :=
  (addr, ClientSession.tunnel_ip c, ClientSession.tunnel_ipv6 c, ClientSession.security_level c).

Lemma update_addr_ok s id c addr :
  ok s -> table s id = Some c -> SocketAddr.wf addr ->
  let s' := set_sessions s (SessionManager.update_client_addr (sessions s) id addr) in
  ok s' /\ table s' id = Some (ClientSession.set_client_addr c addr) /\
  forall id', DataPath.endpoints (sessions s') id' =
    if decide (id = id') then Some (moved c addr) else DataPath.endpoints (sessions s) id'.
Proof.
  intros Hs Hc Ha s'. set (m := SessionManager.update_client_addr (sessions s) id addr).
  assert (forall id', SessionManager.get_session m id' =
    if decide (id = id') then Some (ClientSession.set_client_addr c addr) else table s id') as Hg.
  { intros id'. unfold m, SessionManager.update_client_addr, SessionManager.get_session in *. rewrite Hc. simpl.
    destruct (decide (id = id')) as [<-|]; [apply lookup_insert_eq|by apply lookup_insert_ne]. }
  split_and!.
  - apply ok_set_sessions; [done| |].
    + split.
      * unfold m. rewrite update_client_addr_modify. apply modify_inv; [done|]. apply (ok_table s Hs).
      * intros id' d. fold m. rewrite Hg. destruct (decide (id = id')); [|apply (ok_table s Hs)].
        intros [= <-]. exact (proj2 (ok_table s Hs) id c Hc).
    + intros id' d. fold m. rewrite Hg. destruct (decide (id = id')); [|by apply ok_addrs]. by intros [= <-].
  - unfold s'. cbn [sessions set_sessions]. fold m. rewrite Hg. by rewrite decide_True.
  - intros id'. unfold DataPath.endpoints, s'. cbn [sessions set_sessions]. fold m. rewrite Hg.
    by destruct (decide (id = id')).
Qed.

(** Only an authentic control message of the session closes it or moves it. *)
Definition control_effect (s : t) (id : Z) (data : list Z) (addr : SocketAddr.t) (s' : t) (l : list sent) : Prop :=
  (bindings s s' /\ l = []) \/
  exists c h plain m,
    table s id = Some c /\ PacketHeader.decode data = Ok h /\
    DataPath.authentic (ClientSession.session c) h plain data /\ ControlMessage.from_bytes plain = Ok m /\
    Forall (fun p => snd p = addr) l /\
    (ControlMessage.control_type m = ControlType.Close /\ l = [] /\
       (forall id', DataPath.endpoints (sessions s') id' =
          if decide (id = id') then None else DataPath.endpoints (sessions s) id') \/
     ControlMessage.control_type m = ControlType.Rebind /\
       forall id', DataPath.endpoints (sessions s') id' =
         if decide (id = id') then Some (moved c addr) else DataPath.endpoints (sessions s) id').

Lemma control_spec s r id data addr :
  ok s -> bytes_ok data -> SocketAddr.wf addr ->
  handled s (control_effect s id data addr) (handle_control_internal s r id data addr).
Proof.
  intros Hs Hb Ha. unfold handle_control_internal.
  assert (forall s1, ok s1 -> same_setup s s1 -> bindings s s1 ->
    handled s (control_effect s id data addr) (s1, Ok [])) as Hstop.
  { intros s1 H1 H2 H3. split_and!; try done. exists []. split; [done|]. by left. }
  destruct (table s id) as [c|] eqn:Hc; [|by apply Hstop].
  pose proof (proj2 (ok_table s Hs) id c Hc) as Hw.
  pose proof (decrypt_message_spec c (now (table_clock r)) data Hw Hb) as Hd.
  destruct (decrypt_message c (now (table_clock r)) data) as [c1 x]. destruct Hd as [Hsame Hx].
  destruct (put_kept s id c c1 Hs Hc Hsame) as (Hs1 & Hset1 & Hb1).
  destruct x as [plain|e|]; [|by apply Hstop|done]. destruct Hx as (Hpb & h & Hdec & Hau). cbn [attempt].
  pose proof (ControlMessage.control_total plain Hpb) as Hkt.
  destruct (ControlMessage.from_bytes plain) as [m|e|] eqn:Em; [|by apply Hstop|done]. cbn [attempt].
  set (c2 := ClientSession.touch c1 _). assert (DataPath.same c c2) as Hsame2 by done.
  destruct (put_again s id c c1 c2 Hs Hc Hsame Hsame2) as (Hs3 & Hset3 & Hb3).
  set (s3 := put (put s id c1) id c2) in *.
  assert (table s3 id = Some c2) as Hg3 by apply put_self.
  destruct (ControlMessage.control_type m) eqn:Et; try (by apply Hstop).
  - destruct (update_addr_ok s3 id c2 addr Hs3 Hg3 Ha) as (Hs4 & Hg4 & He4).
    set (s4 := set_sessions s3 _) in *.
    pose proof (rebind_ack_spec s4 r id _ Hs4 Hg4) as Hack.
    destruct (send_rebind_ack_internal s4 r id) as [s5 out].
    destruct Hack as (Hs5 & Hset5 & l & -> & Hb5 & Hl). split_and!; [done|by eapply (same_setup_trans s s4)|].
    exists l. split; [done|]. right. exists c, h, plain, m. split_and!; try done. right. split; [done|].
    intros id'. rewrite Hb5, He4. destruct (decide (id = id')); [|apply Hb3].
    unfold moved, c2. simpl. by destruct Hsame as ([= _ -> -> ->] & _).
  - split_and!; [by apply remove_ok|done|]. exists []. split; [done|]. right. exists c, h, plain, m.
    split_and!; try done. left. split_and!; try done. intros id'. unfold DataPath.endpoints, remove.
    cbn [sessions set_sessions]. rewrite remove_get. destruct (decide (id = id')); [done|]. apply Hb3.
Qed.

Lemma rekey_spec s r id data addr :
  ok s -> reading_ok r -> bytes_ok data ->
  handled s (answer_effect s id data addr) (handle_rekey_internal s r id data addr).
Proof.
  intros Hs (_ & Hrb & Hrl) Hb. unfold handle_rekey_internal.
  assert (forall s1, ok s1 /\ same_setup s s1 /\ bindings s s1 ->
    handled s (answer_effect s id data addr) (s1, Ok [])) as Hstop.
  { intros s1 (H1 & H2 & H3). split_and!; try done. exists []. by split_and!. }
  destruct (table s id) as [c|] eqn:Hc; [|by apply Hstop].
  pose proof (proj2 (ok_table s Hs) id c Hc) as Hw.
  pose proof (decrypt_message_spec c (now (table_clock r)) data Hw Hb) as Hd.
  destruct (decrypt_message c (now (table_clock r)) data) as [c1 x]. destruct Hd as [Hsame Hx].
  pose proof (put_kept s id c c1 Hs Hc Hsame) as Hk1.
  destruct x as [plain|e|]; [|by apply Hstop|done]. destruct Hx as (Hpb & h & Hdec & Hau). cbn [attempt].
  pose proof (codec_total (Codec:=RekeyMessage.rekey_codec_laws) plain Hpb) as Hkt.
  destruct (RekeyMessage.from_bytes plain) as [rk|e|]; [|by apply Hstop|done]. cbn [attempt].
  destruct (negb (bool_decide (ClientSession.client_addr c = addr))) eqn:Ea; [by apply Hstop|].
  apply negb_false_iff, bool_decide_eq_true in Ea. destruct (negb _); [by apply Hstop|].
  eapply attempt_yields; [by apply process_rekey_yields; [|lia]|by apply Hstop|].
  intros [resp keys] (Hkeys & Hb1 & Hl1).
  pose proof (encrypt_answer_spec c1 MessageType.RekeyResponse (RekeyResponse.to_bytes resp)
    ltac:(apply Hsame) Hb1 Hl1) as He. cbv zeta in He.
  destruct (encrypt_answer _ _ _) as [c2 y]. destruct He as [Hsame2 Hy].
  assert (DataPath.same c c2) as Hsame3 by by eapply DataPath.same_trans.
  pose proof (put_again s id c c1 c2 Hs Hc Hsame Hsame3) as Hk2. cbv zeta in Hk2.
  set (s2 := put (put s id c1) id c2) in *.
  destruct y as [packet|e|]; [|by apply Hstop|done]. cbn [attempt].
  assert (Session.wf (fst (Session.update_keys (ClientSession.session c2) keys))) as Hwk
    by (apply Session.update_keys_wf; [apply Hsame3|done]).
  assert (Session.session_id (fst (Session.update_keys (ClientSession.session c2) keys)) =
    Session.session_id (ClientSession.session c2)) as Hidk.
  { unfold Session.update_keys. destruct (PrecomputedKey.new _); [|done..]. by destruct (PrecomputedKey.new _). }
  assert (yields (snd (Session.update_keys (ClientSession.session c2) keys)) (fun _ => True)) as Hyk.
  { unfold Session.update_keys, PrecomputedKey.new. destruct (LessSafeKey_new _); [|done].
    cbn [ok_or]. by destruct (LessSafeKey_new _). }
  destruct (Session.update_keys (ClientSession.session c2) keys) as [inner upd]. cbn [fst snd] in Hwk, Hidk, Hyk.
  assert (DataPath.same c2 (Workers.with_session c2 inner)) as Hsame4 by by apply DataPath.same_with_session.
  assert (table s2 id = Some c2) as Hg2 by apply put_self.
  destruct Hk2 as (Hs2 & Hset2 & Hbi2).
  destruct (put_kept s2 id c2 _ Hs2 Hg2 Hsame4) as (Hs3 & Hset3 & Hbi3).
  assert (forall id', DataPath.endpoints (sessions (put s2 id (Workers.with_session c2 inner))) id' =
    DataPath.endpoints (sessions s) id') as Hbi by (intros id'; etransitivity; [apply Hbi3|apply Hbi2]).
  eapply attempt_yields; [exact Hyk|by apply Hstop; split_and!|]. intros _ _.
  set (c4 := ClientSession.touch _ _).
  destruct (put_again s2 id c2 _ c4 Hs2 Hg2 Hsame4 Hsame4) as (Hs4 & Hset4 & Hbi4).
  split_and!; [done|done|]. eexists. split; [done|]. split_and!.
  - intros id'. etransitivity; [apply Hbi4|apply Hbi2].
  - unfold c4. simpl. destruct Hsame3 as ([= -> _ _ _] & _). rewrite Ea. apply try_send_to.
  - intros _. by exists c, h, plain.
Qed.

(** ** A datagram on the socket *)

(** What the message of a session-less or session datagram may do. *)
Definition control_message_effect (s : t) (r : reading) (w : WorkerControl.t) (s' : t) (l : list sent) : Prop :=
  match w with
  | WorkerControl.HandshakeInit data addr => handshake_effect s r data addr s' l
  | WorkerControl.HandshakeFragment data addr => fragment_effect s r data addr s' l
  | WorkerControl.Keepalive id data addr | WorkerControl.Rekey id data addr => answer_effect s id data addr s' l
  | WorkerControl.Control id data addr => control_effect s id data addr s' l
  end.

Definition message_of (w : WorkerControl.t) : list Z * SocketAddr.t :=
  match w with
  | WorkerControl.HandshakeInit data addr | WorkerControl.HandshakeFragment data addr
  | WorkerControl.Keepalive _ data addr | WorkerControl.Rekey _ data addr
  | WorkerControl.Control _ data addr => (data, addr)
  end.

Lemma control_message_spec s r w :
  ok s -> reading_ok r -> bytes_ok (fst (message_of w)) -> SocketAddr.wf (snd (message_of w)) ->
  handled s (control_message_effect s r w) (handle_control_message s r w).
Proof.
  intros Hs Hr Hb Ha. destruct w; simpl in *.
  - by apply init_spec.
  - by apply fragment_spec.
  - by apply keepalive_spec.
  - by apply control_spec.
  - by apply rekey_spec.
Qed.

Lemma control_effect_to s r w s' l :
  control_message_effect s r w s' l -> Forall (fun p => snd p = snd (message_of w)) l.
Proof.
  destruct w; simpl.
  - by intros [? _].
  - intros [[_ ->]|(msg & _ & ? & _)]; [constructor|done].
  - by intros (_ & ? & _).
  - intros [[_ ->]|(? & ? & ? & ? & _ & _ & _ & _ & ? & _)]; [constructor|done].
  - by intros (_ & ? & _).
Qed.

(** The outcome of a datagram: the worker forwards a packet, or the control
    task handles the message the worker passed on. *)
Definition receive_effect (s : t) (r : reading) (data : list Z) (addr : SocketAddr.t) (s' : t)
    (l : list sent) (packet : option (list Z)) : Prop :=
  Forall (fun p => snd p = addr) l /\
  match packet with
  | Some p =>
      l = [] /\ bindings s s' /\
      DataPath.received_ok (sessions s) data addr (sessions s') (Ok (Received.ToTun p))
  | None =>
      (l = [] /\ bindings s s') \/
      exists w, message_of w = (data, addr) /\ control_message_effect s r w s' l
  end.

(** A change of the table that keeps the bindings. *)
Lemma ok_bindings s m :
  ok s -> DataPath.healthy m -> (forall id, DataPath.endpoints m id = DataPath.endpoints (sessions s) id) ->
  ok (set_sessions s m).
Proof.
  intros Hs Hm He. apply ok_set_sessions; [done..|]. intros id c Hc. specialize (He id).
  unfold DataPath.endpoints in He. rewrite Hc in He. simpl in He.
  destruct (table s id) as [d|] eqn:Hd; [|discriminate He]. injection He as He _ _ _. rewrite He. by eapply ok_addrs.
Qed.

Lemma receive_spec s r pooled data addr :
  ok s -> reading_ok r -> bytes_ok data -> SocketAddr.wf addr ->
  let '(s', out) := receive s r pooled data addr in
  ok s' /\ same_setup s s' /\
  match out with
  | Ok (l, p) => receive_effect s r data addr s' l p
  | Err _ => False
  | Panic => DataPath.overrun (sessions s) data addr /\ bindings s s'
  end.
Proof.
  intros Hs Hr Hb Ha. unfold receive.
  pose proof (DataPath.process_packet_spec (sessions s) (table_clock r) pooled data addr (ok_table s Hs) Hb) as Hp.
  destruct (Workers.process_packet _ _ _ _ _) as [m a]. destruct Hp as (Hm & He & Hr').
  assert (ok (set_sessions s m)) as Hs1 by by apply ok_bindings.
  destruct a as [[p|w|]|e|]; [| | |done|].
  - split; [done|]. split; [done|]. split; [constructor|]. by split_and!.
  - destruct Hr' as [-> Hw].
    assert (message_of w = (data, addr)) as Hmsg by (destruct w; destruct Hw as (-> & Hw); simpl; by destruct Hw as [-> _] || rewrite Hw).
    assert (set_sessions s (sessions s) = s) as -> by by destruct s.
    pose proof (control_message_spec s r w Hs Hr) as Hc. rewrite Hmsg in Hc. specialize (Hc Hb Ha).
    destruct (handle_control_message s r w) as [s' out]. destruct Hc as (Hok & Hset & l & -> & Hl).
    split; [done|]. split; [done|]. pose proof (control_effect_to s r w s' l Hl) as Hto.
    rewrite Hmsg in Hto. split; [done|]. right. by exists w.
  - split; [done|]. split; [done|]. split; [constructor|]. by left.
  - by split_and!.
Qed.

(** ** Who changes a binding *)

(** The handshake message a datagram carries or completes was admitted. *)
Definition admitted_by (s : t) (r : reading) (data : list Z) (addr : SocketAddr.t) : Prop :=
  exists msg init hidden, (msg = data \/ completes s r data addr msg) /\
    parse_init s msg = Ok (init, hidden) /\ admitted s r init addr.

(** The datagram is an authentic control message of the session. *)
Definition controlled_by (s : t) (id : Z) (data : list Z) (ty : ControlType.t) : Prop :=
  exists c h plain m, table s id = Some c /\ PacketHeader.decode data = Ok h /\
    DataPath.authentic (ClientSession.session c) h plain data /\
    ControlMessage.from_bytes plain = Ok m /\ ControlMessage.control_type m = ty.

Lemma handshake_effect_change s r data msg addr s' l id :
  (msg = data \/ completes s r data addr msg) -> handshake_effect s r msg addr s' l ->
  DataPath.endpoints (sessions s') id <> DataPath.endpoints (sessions s) id ->
  id = generated_id r /\ admitted_by s r data addr /\
  forall c, table s' id = Some c -> ClientSession.client_addr c = addr /\
    security_level_accepted s (ClientSession.security_level c) = true.
Proof.
  intros Hmsg [_ [[E _]|(init & hidden & Hp & Ha & Hc)]] Hne; [by rewrite E in Hne|].
  destruct Hc as [[Ho Hg]|E]; [|by rewrite E in Hne].
  destruct (decide (id = generated_id r)) as [->|Hid].
  - split; [done|]. split; [by exists msg, init, hidden|]. intros c Hc.
    destruct (Hg c Hc) as [-> ->]. split; [done|]. apply Ha.
  - destruct Hne. unfold DataPath.endpoints. by rewrite Ho.
Qed.

Lemma binding_change s r data addr s' l p id :
  receive_effect s r data addr s' l p ->
  DataPath.endpoints (sessions s') id <> DataPath.endpoints (sessions s) id ->
  (id = generated_id r /\ admitted_by s r data addr /\
     forall c, table s' id = Some c -> ClientSession.client_addr c = addr /\
       security_level_accepted s (ClientSession.security_level c) = true) \/
  (controlled_by s id data ControlType.Close /\ table s' id = None) \/
  (controlled_by s id data ControlType.Rebind /\
     exists c c', table s id = Some c /\ table s' id = Some c' /\ DataPath.endpoint c' = moved c addr).
Proof.
  intros [_ He] Hne. destruct p as [p|]; [destruct He as (_ & He & _); destruct (Hne (He id))|].
  destruct He as [[_ He]|(w & Hw & He)]; [destruct (Hne (He id))|].
  destruct w as [d a|d a|j d a|j d a|j d a]; injection Hw as -> ->; simpl in He.
  - left. eapply (handshake_effect_change s r data data); [by left|done|done].
  - destruct He as [[E _]|(msg & Hm & He)]; [by rewrite E in Hne|].
    left. eapply (handshake_effect_change s r data msg); [by right|done|done].
  - destruct He as [He _]; destruct (Hne (He id)).
  - destruct He as [[He _]|(c & h & plain & m & Hc & Hd & Hau & Hm & _ & He)]; [destruct (Hne (He id))|].
    destruct He as [(Ht & _ & He)|[Ht He]]; rewrite He in Hne;
      (destruct (decide (j = id)) as [<-|]; [|done]); specialize (He j); rewrite decide_True in He by done.
    + right. left. split; [by exists c, h, plain, m|]. unfold DataPath.endpoints in He. by destruct (table s' j).
    + right. right. split; [by exists c, h, plain, m|]. exists c. unfold DataPath.endpoints in He.
      destruct (table s' j) as [c'|]; [|done]. exists c'. split_and!; try done. simpl in He. congruence.
  - destruct He as [He _]; destruct (Hne (He id)).
Qed.

(** ** Reachable servers *)

Inductive reach {O : HashIter Z ClientSession.t} : t -> Prop :=
| reach_start s :
    SessionManager.reachable (sessions s) -> SessionManager.sessions (sessions s) = ∅ ->
    fragment_reassembly s = Reassembly.new ReassemblerConfig.server_default -> reach s
| reach_receive s r pooled data addr :
    reach s -> reading_ok r -> bytes_ok data -> SocketAddr.wf addr ->
    reach (fst (receive s r pooled data addr))
| reach_send s packet buf :
    reach s -> bytes_ok packet -> len packet <= MAX_PACKET_SIZE ->
    reach (set_sessions s (fst (Workers.tun_read_inline (sessions s) packet buf)))
| reach_encrypt s o buf :
    reach s -> bytes_ok (OutboundPacket.data o) -> len (OutboundPacket.data o) <= MAX_PACKET_SIZE ->
    reach (set_sessions s (fst (Workers.encrypt_packet_zero_copy (sessions s) o buf)))
| reach_cleanup s now_ms :
    reach s -> reach (set_sessions s (fst (SessionManager.cleanup_expired (sessions s) now_ms)))
| reach_housekeeping s s' :
    reach s -> same_setup s s' -> sessions s' = sessions s ->
    fragment_reassembly s' = fragment_reassembly s -> reach s'.

Lemma reach_ok {O : HashIter Z ClientSession.t} s : reach s -> ok s.
Proof.
  induction 1 as [s Hm He Hr|s r pooled data addr _ IH Hr Hb Ha|s packet buf _ IH Hb Hl|s o buf _ IH Hb Hl|s now_ms _ IH
                 |s s' _ IH Hset Hses Hrea].
  - assert (forall id, table s id = None) as Hnone
      by (intros id; unfold SessionManager.get_session; by rewrite He, lookup_empty).
    split.
    + split; [by apply reachable_inv|]. intros id c. by rewrite Hnone.
    + intros id c. by rewrite Hnone.
    + exists []. rewrite Hr. split; [|constructor]. split; [apply Reassembly.inv_new|]. vm_compute. discriminate.
  - pose proof (receive_spec s r pooled data addr IH Hr Hb Ha) as Hs.
    destruct (receive s r pooled data addr). by destruct Hs.
  - pose proof (DataPath.tun_read_inline_spec (sessions s) packet buf (ok_table s IH) Hb Hl) as Hs.
    destruct (Workers.tun_read_inline _ _ _) as [m x]. destruct Hs as (Hm & He & _). by apply ok_bindings.
  - pose proof (DataPath.encrypt_packet_zero_copy_spec (sessions s) o buf (ok_table s IH) Hb Hl) as Hs.
    destruct (Workers.encrypt_packet_zero_copy _ _ _) as [m x]. destruct Hs as (Hm & He & _). by apply ok_bindings.
  - destruct (ok_table s IH) as [Hi Hw].
    assert (forall id c, SessionManager.get_session (fst (SessionManager.cleanup_expired (sessions s) now_ms)) id = Some c ->
      table s id = Some c) as Hsub.
    { intros id c. unfold SessionManager.cleanup_expired, SessionManager.get_session. simpl.
      rewrite remove_all_sessions. by destruct (decide _). }
    apply ok_set_sessions; [done| |intros id c Hc; by eapply ok_addrs, Hsub].
    split; [by apply remove_all_inv|]. intros id c Hc. by eapply Hw, Hsub.
  - by eapply ok_sessions.
Qed.

(** ** The server *)

(** C3: whatever datagrams arrive, with whatever clocks and randomness, a
    running server whose byte limit per session is below 2^63 keeps its
    invariant, never changes its keys or configuration, and answers only the
    address a datagram came from; it does not abort, with one exception: a
    datagram that carries a session's packet with a foreign source, after
    2^32 - 1 such packets of this session ([DataPath.overrun]).  A packet of
    the TUN device never aborts it, in whichever of the two ways it is sent. *)
Theorem server_never_aborts {O : HashIter Z ClientSession.t} s :
  reach s ->
  ok s /\
     (forall r pooled data addr, reading_ok r -> bytes_ok data -> SocketAddr.wf addr ->
     let '(s', out) := receive s r pooled data addr in
     reach s' /\ same_setup s s' /\
     match out with
     | Ok (l, _) => Forall (fun d => snd d = addr) l
     | Err _ => False
     | Panic => DataPath.overrun (sessions s) data addr
     end) /\
     (forall packet buf, bytes_ok packet -> len packet <= MAX_PACKET_SIZE ->
     exists m' x, Workers.tun_read_inline (sessions s) packet buf = (m', Ok x) /\
     reach (set_sessions s m')) /\
     (forall packet buf, bytes_ok packet -> len packet <= MAX_PACKET_SIZE ->
     exists o, Workers.tun_read (sessions s) packet = Ok o /\
     forall q, o = Some q ->
     exists m' x, Workers.encrypt_packet_zero_copy (sessions s) q buf = (m', Ok x) /\
     reach (set_sessions s m')).
Proof.
  intros Hs. pose proof (reach_ok s Hs) as Hok. pose proof (ok_table s Hok) as Ht. split_and!; [done| | |].
  - intros r pooled data addr Hr Hb Ha. pose proof (receive_spec s r pooled data addr Hok Hr Hb Ha) as Hspec.
    pose proof (reach_receive s r pooled data addr Hs Hr Hb Ha) as Hreach.
    destruct (receive s r pooled data addr) as [s' out]. destruct Hspec as (_ & Hset & Hout). split_and!; try done.
    destruct out as [[l p]|e|]; by try apply Hout.
  - intros packet buf Hb Hl. pose proof (DataPath.tun_read_inline_spec (sessions s) packet buf Ht Hb Hl) as Hspec.
    pose proof (reach_send s packet buf Hs Hb Hl) as Hreach.
    destruct (Workers.tun_read_inline _ _ _) as [m x]. destruct Hspec as (_ & _ & Hx). destruct x as [x|e|]; [|done|done].
    by exists m, x.
  - intros packet buf Hb Hl. pose proof (DataPath.tun_read_spec (sessions s) packet (proj1 Ht)) as Hq.
    destruct (Workers.tun_read _ _) as [o|e|]; [|done|done]. exists o. split; [done|]. intros q ->.
    destruct Hq as [<- _].
    pose proof (DataPath.encrypt_packet_zero_copy_spec (sessions s) q buf Ht Hb Hl) as Hspec.
    pose proof (reach_encrypt s q buf Hs Hb Hl) as Hreach.
    destruct (Workers.encrypt_packet_zero_copy _ _ _) as [m x]. destruct Hspec as (_ & _ & Hx).
    destruct x as [x|e|]; [|done|done]. by exists m, x.
Qed.

(** C11: the address, tunnel addresses and security level of a session change
    only when the datagram is or completes an admitted handshake message (an
    accepted level, a client random the replay cache has not seen and, where
    the server has accounts, credentials of an enabled account that is not
    locked), which binds the identifier just generated to the sender; or an
    authentic Close message of that session; or an authentic Rebind message of
    it, which moves it to the sender and changes nothing else. *)
Theorem session_bindings s r pooled data addr id :
  ok s -> reading_ok r -> bytes_ok data -> SocketAddr.wf addr ->
  let s' := fst (receive s r pooled data addr) in
  DataPath.endpoints (sessions s') id <> DataPath.endpoints (sessions s) id ->
  (id = generated_id r /\ admitted_by s r data addr /\
     forall c, table s' id = Some c -> ClientSession.client_addr c = addr /\
       security_level_accepted s (ClientSession.security_level c) = true) \/
  (controlled_by s id data ControlType.Close /\ table s' id = None) \/
  (controlled_by s id data ControlType.Rebind /\
       exists c c', table s id = Some c /\ table s' id = Some c' /\ DataPath.endpoint c' = moved c addr).
Proof.
  intros Hs Hr Hb Ha s' Hne. subst s'. pose proof (receive_spec s r pooled data addr Hs Hr Hb Ha) as Hspec.
  destruct (receive s r pooled data addr) as [s' out]. destruct Hspec as (_ & _ & He).
  destruct out as [[l p]|e|]; [by eapply binding_change|done|]. destruct He as [_ He]. destruct (Hne (He id)).
Qed.

End Safety.

End ServerSafety.

(** * Examples *)

Definition example_vpn_server (m : SessionManager.t (R:=ToyAead)) : VpnServer.t :=
  VpnServer.mk (ServerConfig.mk "level3" [[10; 99; 0; 1]] [] 1420) m
    (MlDsaKeypair.generate_with_level [8] SecurityLevel.Level3)
    (MlDsaKeypair.generate_with_level [9] SecurityLevel.Level5) None None
    (HandshakeRateLimiter.new 0) HandshakeReplayCache.new (Reassembly.new ReassemblerConfig.server_default)
    None AuthLockoutTracker.with_production_defaults [].

Definition example_reading : reading :=
  mk_reading (0, 0) 0 0 (Some 0) (Some 0) 0 None None false (replicate 32 6) 0 11 (replicate 32 4)
    (replicate 32 5) [6] [7] [7] (Some 1000) 1000000 example_clock 77 (fun _ => true).

(** A Rebind message of the client of session 7. *)
Definition example_rebind : list Z :=
  let payload := ControlMessage.to_bytes (ControlMessage.mk ControlType.Rebind None None None) in
  match snd (Session.encrypt_packet example_client_session MessageType.Control payload (replicate 100 0)) with
  | Ok (out, n) => slice out 0 n
  | _ => []
  end.

Lemma example_reading_ok : ServerSafety.reading_ok example_reading.
Proof. split_and!; by_decide. Qed.

Lemma example_server_reach : ServerSafety.reach (example_vpn_server example_manager).
Proof.
  apply ServerSafety.reach_start; [exact example_manager_reachable|reflexivity|reflexivity].
Qed.

Lemma example_table_sessions : SessionManager.sessions example_table = {[7 := example_entry]}.
Proof. reflexivity. Qed.

Lemma example_server_ok : ServerSafety.ok (example_vpn_server example_table).
Proof.
  split.
  - exact example_table_healthy.
  - intros id c Hc. cbn [VpnServer.sessions example_vpn_server] in Hc. unfold SessionManager.get_session in Hc.
    rewrite example_table_sessions in Hc. apply lookup_singleton_Some in Hc as [_ <-]. by_decide.
  - exists []. split; [|constructor]. split; [apply Reassembly.inv_new|]. vm_compute. discriminate.
Qed.

Lemma server_never_aborts_witness :
  let s := example_vpn_server example_manager in
  let '(s', out) := VpnServer.receive s example_reading (replicate 60 0) example_rebind example_addr in
  out <> Panic /\ ServerSafety.reach s'.
Proof.
  intros s. destruct (ServerSafety.server_never_aborts s example_server_reach) as (_ & Hr & _).
  pose proof (Hr example_reading (replicate 60 0) example_rebind example_addr example_reading_ok
    ltac:(by_decide) ltac:(by_decide)) as H.
  assert (snd (VpnServer.receive s example_reading (replicate 60 0) example_rebind example_addr) = Ok ([], None))
    as Ho by (vm_compute; reflexivity).
  destruct (VpnServer.receive s _ _ _ _) as [s' out]. cbn [snd] in Ho. subst out. split; [discriminate|apply H].
Defined.

Lemma session_bindings_witness :
  let addr := SocketAddr.V4 [203; 0; 113; 9] 1 in
  let s' := fst (VpnServer.receive (example_vpn_server example_table) example_reading (replicate 60 0)
                   example_rebind addr) in
  DataPath.endpoints (VpnServer.sessions s') 7 =
    Some (addr, [10; 99; 0; 2], None, SecurityLevel.Level5) /\
  ServerSafety.controlled_by (example_vpn_server example_table) 7 example_rebind ControlType.Rebind.
Proof.
  intros addr s'.
  assert (DataPath.endpoints (VpnServer.sessions s') 7 =
    Some (addr, [10; 99; 0; 2], None, SecurityLevel.Level5)) as He by (vm_compute; reflexivity).
  split; [exact He|].
  destruct (ServerSafety.session_bindings (example_vpn_server example_table) example_reading (replicate 60 0)
    example_rebind addr 7 example_server_ok example_reading_ok) as [[E _]|[[_ E]|[Hc _]]].
  - by_decide.
  - by_decide.
  - fold s'. rewrite He. vm_compute. discriminate.
  - discriminate E.
  - exfalso. fold s' in E. unfold DataPath.endpoints in He. rewrite E in He. discriminate He.
  - exact Hc.
Defined.
