(* ===== verification/ServerStart.v ===== *)
(** The configuration of the server and its start (hpn-server/src/config.rs, and
    [VpnServer::new_with_identity_hiding] of server.rs).

    Strings are their bytes, the token of the administration interface its
    characters.  The fields kept for old files, which the code ignores, and the
    texts of errors are left out; the opening of the user database is an
    outcome. *)

From S2P Require Import Prelude Net AddrParse Digest Aead Keys Signature Kem Kdf Session Reassembly Tunnel.
From S2P Require Import HandshakeReplay RateLimit AuthLockout AddressPool SessionManager UserStore Validation Server ServerSafety.

Import validation.

(** [ServerConfig]; the handlers' part of it is [Server.ServerConfig]. *)
Module Settings.

Record t := mk {
  listen_addr : SocketAddr.t;
  ipv4_pool : list Z;
  server_tunnel_ip : list Z;
  dns_servers : list (list Z);
  ipv6_pool : option (list Z);
  server_tunnel_ipv6 : option (list Z);
  dns_servers_v6 : list (list Z);
  tun_name : list Z;
  mtu : Z;
  session_timeout_secs : Z;
  keepalive_interval_secs : Z;
  log_enabled : bool;
  log_file : option (list Z);
  log_max_size_mb : Z;
  log_max_files : Z;
  max_sessions : option Z;
  enable_nat : bool;
  nat_interface : option (list Z);
  enable_metrics : bool;
  no_log : bool;
  metrics_addr : SocketAddr.t;
  enable_admin_api : bool;
  admin_addr : SocketAddr.t;
  admin_api_token : option (list Z);
  admin_api_token_sha256 : option (list Z);
  license_key : option (list Z);
  users_db_path : option (list Z);
  require_auth : bool;
  min_security_level : string;
  session_rate_limit_pps : Z;
  session_rate_limit_bps : Z;
  run_as_user : option (list Z);
  run_as_group : option (list Z)
}.

Definition default_tun_name : list Z := bytes_of_string "hpn0".
Definition default_metrics_addr : SocketAddr.t := SocketAddr.V4 [127; 0; 0; 1] 9100.
Definition default_admin_addr : SocketAddr.t := SocketAddr.V4 [127; 0; 0; 1] 9101.
Definition DEFAULT_USERS_DB_PATH : list Z := bytes_of_string "/var/lib/hpn/users.db".

Definition default : t :=
  mk (SocketAddr.V4 [0; 0; 0; 0] 51820) (bytes_of_string "10.99.0.0/24") (bytes_of_string "10.99.0.1")
    [bytes_of_string "1.1.1.1"; bytes_of_string "8.8.8.8"] None None [] default_tun_name 1420 180 25 true None 100 5
    None true None false true default_metrics_addr false default_admin_addr None None None None false "level3"
    100000 125000000 None None.

Definition users_db_path_or_default (c : t) : list Z :=
  match users_db_path c with Some p => p | None => DEFAULT_USERS_DB_PATH end.

(** Why a configuration is refused. *)
Inductive error :=
| PoolFormat | PoolAddress | PoolOctet | PoolPrefix | PrefixRange
| ServerAddress | ServerOctet | ServerOutsidePool | DnsServer
| Pool6Format | Pool6Address | Pool6Prefix | Prefix6Range | Server6Address | Server6OutsidePool | Server6Missing | DnsServer6
| MtuRange | SessionTimeout | KeepaliveInterval | LogSize | LogFiles | SecurityLevel | MaxSessions
| TokenShort | TokenRepeated | MetricsExposed | UserDatabase.

(** ** Addresses *)

(** The octets of an address, each read by [str::parse]. *)
Definition parse_octets (parts : list (list Z)) : option (list Z) := mapM (parse_uint 8) parts.

Definition parse_ipv4_pool (c : t) : result error (list Z * Z) :=
  match split 47 (ipv4_pool c) with
  | [addr; prefix_str] =>
      let addr_parts := split 46 addr in
      if negb (length addr_parts =? 4)%nat then Err PoolAddress
      else
        let? base := ok_or PoolOctet (parse_octets addr_parts) in
        let? prefix := ok_or PoolPrefix (parse_uint 8 prefix_str) in
        if (prefix =? 0) || (32 <? prefix) then Err PoolPrefix else Ok (base, prefix)
  | _ => Err PoolFormat
  end.

Definition parse_server_tunnel_ip (c : t) : result error (list Z) :=
  let parts := split 46 (server_tunnel_ip c) in
  if negb (length parts =? 4)%nat then Err ServerAddress else ok_or ServerOctet (parse_octets parts).

(** [map] and [collect] into a [Result]: the first error. *)
Fixpoint collect {A B} (f : A -> result error B) (l : list A) : result error (list B) :=
  match l with
  | [] => Ok []
  | x :: l => let? y := f x in let? ys := collect f l in Ok (y :: ys)
  end.

Definition parse_dns_servers (c : t) : result error (list (list Z)) :=
  collect (fun s =>
    let parts := split 46 s in
    if negb (length parts =? 4)%nat then Err DnsServer else ok_or DnsServer (parse_octets parts)) (dns_servers c).

Definition parse_ipv6_pool (c : t) : result error (option (list Z * Z)) :=
  match ipv6_pool c with
  | None => Ok None
  | Some pool =>
      match split 47 pool with
      | [addr; prefix_str] =>
          let? octets := ok_or Pool6Address (AddrParser.parse_ipv6_addr addr) in
          let? prefix := ok_or Pool6Prefix (parse_uint 8 prefix_str) in
          Ok (Some (octets, prefix))
      | _ => Err Pool6Format
      end
  end.

Definition parse_server_tunnel_ipv6 (c : t) : result error (option (list Z)) :=
  match server_tunnel_ipv6 c with
  | None => Ok None
  | Some addr => let? octets := ok_or Server6Address (AddrParser.parse_ipv6_addr addr) in Ok (Some octets)
  end.

Definition parse_dns_servers_v6 (c : t) : result error (list (list Z)) :=
  collect (fun s => ok_or DnsServer6 (AddrParser.parse_ipv6_addr s)) (dns_servers_v6 c).

Definition has_ipv6 (c : t) : bool :=
  match ipv6_pool c, server_tunnel_ipv6 c with Some _, Some _ => true | _, _ => false end.

Definition get_max_sessions (c : t) : Z :=
  match max_sessions c with
  | Some max => max
  | None =>
      match parse_ipv4_pool c with
      | Ok (_, prefix) =>
          if negb ((1 <=? prefix) && (prefix <=? 30)) then 1000
          else
            let host_bits := saturating_sub 32 prefix in
            let max_ips := saturating_sub (if host_bits <? 32 then Z.shiftl 1 host_bits else U32_MAX) 2 in
            Z.min max_ips 100000
      | _ => 1000
      end
  end.

(** ** The administration token *)

(** [char::is_whitespace] *)
Definition is_whitespace (c : Z) : bool :=
  (9 <=? c) && (c <=? 13) || bool_decide (c ∈ [32; 133; 160; 5760; 8232; 8233; 8239; 8287; 12288]) ||
  (8192 <=? c) && (c <=? 8202).

Fixpoint trim_start (s : list Z) : list Z :=
  match s with c :: r => if is_whitespace c then trim_start r else s | [] => [] end.

Definition trim (s : list Z) : list Z := rev (trim_start (rev (trim_start s))).

(** The length of a string in UTF-8. *)
Definition utf8_len (s : list Z) : Z :=
  foldr (fun c n => (if c <? 128 then 1 else if c <? 2048 then 2 else if c <? 65536 then 3 else 4) + n) 0 s.

Definition MIN_ADMIN_TOKEN_LEN : Z := 24.

Definition is_loopback (ip : IpAddr.t) : bool :=
  match ip with
  | IpAddr.V4 octets => bool_decide (head octets = Some 127)
  | IpAddr.V6 octets => bool_decide (octets = replicate 15 0 ++ [1])
  end.

(** ** The check *)

(** The bytes of the server's address that the prefix covers whole. *)
Definition prefix_bytes_differ (base server : list Z) (prefix : Z) : bool :=
  let n := Z.to_nat (Z.min (prefix / 8) 16) in
  negb (bool_decide (take n base = take n server)).

Definition validate_ipv4 (c : t) : result error Z :=
  let? (base, prefix) := parse_ipv4_pool c in
  if (prefix <? 16) || (30 <? prefix) then Err PrefixRange
  else
    let? server_ip := parse_server_tunnel_ip c in
    let mask := Z.lxor (Z.shiftl 1 (32 - prefix) - 1) U32_MAX in
    if negb (Z.land (from_be server_ip) mask =? Z.land (from_be base) mask) then Err ServerOutsidePool
    else
      let? _ := parse_dns_servers c in
      Ok prefix.

Definition validate_ipv6 (c : t) : result error unit :=
  let? pool := parse_ipv6_pool c in
  match pool with
  | None => Ok tt
  | Some (base_v6, prefix_v6) =>
      if (prefix_v6 <? 48) || (128 <? prefix_v6) then Err Prefix6Range
      else
        let? server := parse_server_tunnel_ipv6 c in
        match server with
        | None => Err Server6Missing
        | Some server_ipv6 =>
            if prefix_bytes_differ base_v6 server_ipv6 prefix_v6 then Err Server6OutsidePool
            else let? _ := parse_dns_servers_v6 c in Ok tt
        end
  end.

Definition validate_limits (c : t) (prefix : Z) : result error unit :=
  if (mtu c <? 576) || (9000 <? mtu c) then Err MtuRange
  else if session_timeout_secs c =? 0 then Err SessionTimeout
  else if keepalive_interval_secs c =? 0 then Err KeepaliveInterval
  else if match log_file c with Some _ => log_max_size_mb c =? 0 | None => false end then Err LogSize
  else if match log_file c with Some _ => log_max_files c =? 0 | None => false end then Err LogFiles
  else
    let level := map fold_case (bytes_of_string (min_security_level c)) in
    if negb (bool_decide (level ∈ [bytes_of_string "level3"; bytes_of_string "level5"; bytes_of_string "3"; bytes_of_string "5"]))
    then Err SecurityLevel
    else
      let max_usable_ips := saturating_sub (Z.shiftl 1 (32 - prefix)) 2 in
      if max_usable_ips <? get_max_sessions c then Err MaxSessions else Ok tt.

Definition validate_admin (c : t) : result error unit :=
  let? _ :=
    match enable_admin_api c, admin_api_token c with
    | true, Some token =>
        let trimmed := trim token in
        if utf8_len trimmed <? MIN_ADMIN_TOKEN_LEN then Err TokenShort
        else
          match trimmed with
          | first :: _ => if forallb (fun x => x =? first) trimmed then Err TokenRepeated else Ok tt
          | [] => Ok tt
          end
    | _, _ => Ok tt
    end in
  if enable_metrics c && negb (is_loopback (SocketAddr.ip (metrics_addr c))) then
    let admin_path_secure :=
      enable_admin_api c && match admin_api_token c with Some token => 24 <=? utf8_len (trim token) | None => false end in
    if admin_path_secure then Ok tt else Err MetricsExposed
  else Ok tt.

Definition validate (c : t) : result error unit :=
  let? prefix := validate_ipv4 c in
  let? _ := validate_ipv6 c in
  let? _ := validate_limits c prefix in
  validate_admin c.

End Settings.

(** * Starting *)

Module Start.

Section Start.
Context {R : RingAead} {D : RingDigest} {M : MlDsa} {K : KemPrimitives} {H : Hkdf} {A2 : Argon2}.
Context {IS : SetIter Z} {IR : HashIter (SocketAddr.t * Z) Entry.t}.
Context {I1 : HashIter (list Z * IpAddr.t) TupleEntry.t} {I2 : HashIter IpAddr.t IpEntry.t}
  {I3 : HashIter (list Z) UsernameEntry.t}.

(** The session table of the configuration; the timeout in milliseconds. *)
Definition session_manager (c : Settings.t) : result Settings.error SessionManager.t :=
  let? (base_ip, prefix) := Settings.parse_ipv4_pool c in
  let? server_ip := Settings.parse_server_tunnel_ip c in
  let timeout := as_uint 64 (1000 * Settings.session_timeout_secs c) in
  let max := Settings.get_max_sessions c in
  let? m :=
    if Settings.has_ipv6 c then
      let? pool := Settings.parse_ipv6_pool c in
      let? (base_ipv6, prefix_v6) := ok_or Settings.Pool6Format pool in
      let? server := Settings.parse_server_tunnel_ipv6 c in
      let? server_ipv6 := ok_or Settings.Server6Missing server in
      SessionManager.new_dual_stack base_ip prefix server_ip base_ipv6 prefix_v6 server_ipv6 timeout max
    else SessionManager.new base_ip prefix server_ip timeout max in
  Ok (SessionManager.with_rate_limits m (Settings.session_rate_limit_pps c) (Settings.session_rate_limit_bps c)).

(** [parse_dns_servers().unwrap_or_default()], as the handlers read them. *)
Definition or_default {A} (r : result Settings.error (list A)) : list A := match r with Ok l => l | _ => [] end.

Definition handler_config (c : Settings.t) : ServerConfig.t :=
  ServerConfig.mk (Settings.min_security_level c) (or_default (Settings.parse_dns_servers c))
    (or_default (Settings.parse_dns_servers_v6 c)) (Settings.mtu c).

(** [now]: the instant the rate limiter reads; [open]: the user database at a
    path, if it can be opened. *)
Definition new_with_identity_hiding (c : Settings.t) (keypair_level3 keypair_level5 : MlDsaKeypair.t)
    (kem_keypair_level3 kem_keypair_level5 : option (HybridSecretKey.t * HybridPublicKey.t)) (now : Z)
    (open : list Z -> option UserStore.t) : result Settings.error VpnServer.t :=
  let? _ := Settings.validate c in
  let? sessions := session_manager c in
  let sessions := SessionManager.set_lifecycle_callback sessions in
  let? user_store :=
    if Settings.require_auth c then
      let? store := ok_or Settings.UserDatabase (open (Settings.users_db_path_or_default c)) in
      Ok (Some store)
    else Ok None in
  Ok (VpnServer.mk (handler_config c) sessions keypair_level3 keypair_level5 kem_keypair_level3 kem_keypair_level5
        (HandshakeRateLimiter.new now) HandshakeReplayCache.new (Reassembly.new ReassemblerConfig.server_default)
        user_store AuthLockoutTracker.with_production_defaults []).

End Start.

End Start.

(** * What is read *)

Module Parsed.

Lemma value_bound ds : Forall (fun d => 0 <= d) ds -> 0 <= AddrParser.value 10 ds.
Proof.
  unfold AddrParser.value. intros Hd. assert (forall a, 0 <= a -> 0 <= foldl (fun acc d => acc * 10 + d) a ds) as Hf; [|by apply Hf].
  induction Hd as [|d ds Hd _ IH]; intros a Ha; simpl; [done|]. apply IH. lia.
Qed.

Lemma digits_nonneg radix s : Forall (fun d => 0 <= d) (fst (AddrParser.read_digits radix s)).
Proof.
  induction s as [|c s IH]; [constructor|]. simpl. destruct (AddrParser.to_digit radix c) as [d|] eqn:Ed; [|constructor].
  destruct (AddrParser.read_digits radix s) as [ds rest]. constructor; [|exact IH]. revert Ed. unfold AddrParser.to_digit.
  repeat case_match; b2p; intros E; simplify_eq; lia.
Qed.

Lemma parse_uint_bound w s v : parse_uint w s = Some v -> uint w v.
Proof.
  unfold parse_uint. set (t := if starts_with s 43 then drop 1 s else s). pose proof (digits_nonneg 10 t) as Hd.
  destruct (AddrParser.read_digits 10 t) as [[|d ds] [|]]; try done. destruct (_ <? _) eqn:E; [|done]. intros [= <-].
  b2p. split; [by apply value_bound|done].
Qed.

Lemma parse_octets_ok parts ip : Settings.parse_octets parts = Some ip -> bytes_ok ip /\ length ip = length parts.
Proof.
  unfold Settings.parse_octets. intros Hm. apply mapM_Some in Hm. induction Hm as [|p o parts ip Hp _ [IH1 IH2]]; [split; [constructor|done]|].
  split; [|simpl; lia]. constructor; [|done]. by eapply (parse_uint_bound 8).
Qed.

Lemma pool_ok c base prefix :
  Settings.parse_ipv4_pool c = Ok (base, prefix) -> bytes_ok base /\ len base = 4 /\ 1 <= prefix <= 32.
Proof.
  unfold Settings.parse_ipv4_pool. destruct (split 47 _) as [|a [|p [|]]]; try done.
  destruct (length (split 46 a) =? 4)%nat eqn:El; [|done]. simpl.
  destruct (Settings.parse_octets _) as [b|] eqn:Eo; [|done]. simpl.
  destruct (parse_uint 8 p) as [q|] eqn:Ep; [|done]. simpl. destruct (_ || _) eqn:Eb; [done|]. intros [= <- <-].
  apply parse_octets_ok in Eo as [Hb Hl]. apply Nat.eqb_eq in El. apply parse_uint_bound in Ep as [Hq _].
  apply orb_false_iff in Eb as [? ?]. b2p. split; [done|]. unfold len. split; [lia|lia].
Qed.

Lemma server_ip_ok c ip : Settings.parse_server_tunnel_ip c = Ok ip -> bytes_ok ip /\ len ip = 4.
Proof.
  unfold Settings.parse_server_tunnel_ip. destruct (length _ =? 4)%nat eqn:El; [|done]. simpl.
  destruct (Settings.parse_octets _) as [b|] eqn:Eo; [|done]. intros [= <-].
  apply parse_octets_ok in Eo as [Hb Hl]. apply Nat.eqb_eq in El. split; [done|]. unfold len. lia.
Qed.

(** ** IPv6 *)

Lemma of_groups_ok gs : bytes_ok (AddrParser.of_groups gs) /\ length (AddrParser.of_groups gs) = (2 * length gs)%nat.
Proof.
  unfold AddrParser.of_groups. induction gs as [|g gs [IH1 IH2]]; [split; [constructor|done]|]. cbn [map concat].
  split; [apply bytes_ok_app; split; [apply be_bytes_ok|done]|]. rewrite length_app, length_be_bytes. simpl length. lia.
Qed.

Lemma read_ipv4_length s o rest : AddrParser.read_ipv4_addr s = Some (o, rest) -> length o = 4%nat.
Proof. unfold AddrParser.read_ipv4_addr. intros E. consume. by simplify_eq. Qed.

Lemma read_groups_length n i s gs v4 rest : AddrParser.read_groups n i s = (gs, v4, rest) -> (length gs <= n)%nat.
Proof.
  revert i s gs v4 rest. induction n as [|n IH]; intros i s gs v4 rest; simpl; [intros [= <- _ _]; simpl; lia|].
  destruct (if (0 <? n)%nat then AddrParser.separated i AddrParser.read_ipv4_addr s else None) as [[o r]|] eqn:E4.
  - intros [= <- _ _]. destruct (Nat.ltb_spec 0 n); [|done].
    assert (length o = 4%nat) as Ho.
    { destruct i; simpl in E4; [by eapply read_ipv4_length|]. consume. by eapply read_ipv4_length. }
    destruct o as [|a [|b [|c' [|d [|]]]]]; try done. simpl. lia.
  - destruct (AddrParser.separated i AddrParser.read_group s) as [[g r]|]; [|intros [= <- _ _]; simpl; lia].
    destruct (AddrParser.read_groups n (S i) r) as [[gs' v4'] r'] eqn:Er. intros [= <- _ _]. apply IH in Er. simpl. lia.
Qed.

Lemma ipv6_ok s o : AddrParser.parse_ipv6_addr s = Some o -> bytes_ok o /\ len o = 16.
Proof.
  unfold AddrParser.parse_ipv6_addr, AddrParser.complete. destruct (AddrParser.read_ipv6_addr s) as [[x [|]]|] eqn:E; try done.
  intros [= <-]. unfold AddrParser.read_ipv6_addr in E. destruct (AddrParser.read_groups 8 0 s) as [[hd v4] r] eqn:Eh.
  apply read_groups_length in Eh as Hh. destruct (Nat.eqb_spec (length hd) 8) as [H8|H8].
  { injection E as <- _. destruct (of_groups_ok hd) as [H1 H2]. split; [done|]. unfold len. lia. }
  destruct v4; [done|]. destruct (AddrParser.read_given_char 58 r) as [r1|]; [|done]. simpl in E.
  destruct (AddrParser.read_given_char 58 r1) as [r2|]; [|done]. simpl in E.
  destruct (AddrParser.read_groups (8 - (length hd + 1)) 0 r2) as [[tl v] r3] eqn:Et.
  apply read_groups_length in Et. injection E as <- _.
  match goal with |- bytes_ok (AddrParser.of_groups ?l) /\ _ => destruct (of_groups_ok l) as [H1 H2] end.
  split; [done|]. rewrite !length_app, length_replicate in H2. unfold len. lia.
Qed.

End Parsed.

(** * What a valid configuration gives *)

Module StartSafety.

Section StartSafety.
Context {R : RingAead} {D : RingDigest} {M : MlDsa} {K : KemPrimitives} {H : Hkdf} {A2 : Argon2}.
Context {IS : SetIter Z} {IR : HashIter (SocketAddr.t * Z) Entry.t}.
Context {I1 : HashIter (list Z * IpAddr.t) TupleEntry.t} {I2 : HashIter IpAddr.t IpEntry.t}
  {I3 : HashIter (list Z) UsernameEntry.t}.
Context {O : HashIter Z ClientSession.t}.

(** The addresses with the same first [prefix] bits. *)
Definition same_network (prefix : Z) (a b : list Z) : Prop :=
  from_be a / 2 ^ (32 - prefix) = from_be b / 2 ^ (32 - prefix).

(** The pool is written with the first address of its network. *)
Definition pool_aligned (c : Settings.t) : Prop :=
  forall base prefix, Settings.parse_ipv4_pool c = Ok (base, prefix) -> from_be base mod 2 ^ (32 - prefix) = 0.

Lemma network_mask prefix :
  16 <= prefix <= 30 ->
  Z.shiftr (Z.lxor (Z.shiftl 1 (32 - prefix) - 1) U32_MAX) (32 - prefix) = Z.ones prefix.
Proof.
  intros Hp. assert (prefix ∈ seqZ 16 15) as Hin by (apply elem_of_seqZ; lia). clear Hp. revert prefix Hin.
  apply Forall_forall. by_decide.
Qed.

Lemma masked_network prefix a b (mask := Z.lxor (Z.shiftl 1 (32 - prefix) - 1) U32_MAX) :
  16 <= prefix <= 30 -> bytes_ok a -> len a = 4 -> bytes_ok b -> len b = 4 ->
  Z.land (from_be a) mask = Z.land (from_be b) mask -> same_network prefix a b.
Proof.
  intros Hp Ha Hla Hb Hlb E. apply (f_equal (fun x => Z.shiftr x (32 - prefix))) in E.
  rewrite !Z.shiftr_land in E. unfold mask in E. rewrite network_mask in E by done. rewrite !Z.land_ones in E by lia.
  rewrite !Z.shiftr_div_pow2 in E by lia. unfold same_network.
  assert (forall l, bytes_ok l -> len l = 4 -> from_be l / 2 ^ (32 - prefix) < 2 ^ prefix) as Hlt.
  { intros l Hl Hll. pose proof (from_be_bound 4 l Hl ltac:(unfold len in Hll; lia)) as [_ Hu]. apply Z.div_lt_upper_bound; [lia|].
    rewrite <- Z.pow_add_r by lia. replace (32 - prefix + prefix) with 32 by lia. exact Hu. }
  assert (forall l, bytes_ok l -> len l = 4 -> 0 <= from_be l / 2 ^ (32 - prefix)) as Hge.
  { intros l Hl Hll. apply Z.div_pos; [|lia]. by apply (from_be_bound 4 l Hl ltac:(unfold len in Hll; lia)). }
  rewrite !Z.mod_small in E by (split; auto). exact E.
Qed.

Lemma valid_ipv4 c prefix :
  Settings.validate_ipv4 c = Ok prefix ->
  exists base server dns, Settings.parse_ipv4_pool c = Ok (base, prefix) /\ 16 <= prefix <= 30 /\
    Settings.parse_server_tunnel_ip c = Ok server /\ same_network prefix server base /\ Settings.parse_dns_servers c = Ok dns.
Proof.
  unfold Settings.validate_ipv4. destruct (Settings.parse_ipv4_pool c) as [[base p]| |] eqn:Ep; [|done..]. simpl.
  destruct (_ || _) eqn:Er; [done|]. apply orb_false_iff in Er as [? ?]. b2p.
  destruct (Settings.parse_server_tunnel_ip c) as [server| |] eqn:Es; [|done..]. simpl.
  destruct (_ =? _) eqn:Em; [|done]. simpl. destruct (Settings.parse_dns_servers c) as [dns| |]; [|done..]. simpl.
  intros [= <-]. apply Parsed.pool_ok in Ep as Hp. apply Parsed.server_ip_ok in Es as Hs. apply Z.eqb_eq in Em.
  exists base, server, dns. destruct Hp as (? & ? & _), Hs. split_and!; try done. apply masked_network; try done; lia.
Qed.

Lemma valid_ipv6 c :
  Settings.validate_ipv6 c = Ok tt -> Settings.has_ipv6 c = true ->
  exists base prefix server dns, Settings.parse_ipv6_pool c = Ok (Some (base, prefix)) /\ 48 <= prefix <= 128 /\
    bytes_ok base /\ len base = 16 /\ Settings.parse_server_tunnel_ipv6 c = Ok (Some server) /\
    take (Z.to_nat (prefix / 8)) base = take (Z.to_nat (prefix / 8)) server /\ Settings.parse_dns_servers_v6 c = Ok dns.
Proof.
  unfold Settings.validate_ipv6, Settings.has_ipv6. destruct (Settings.ipv6_pool c) as [pool|] eqn:Epool; [|done].
  destruct (Settings.server_tunnel_ipv6 c) as [addr|] eqn:Eaddr; [|done]. intros Hv _. revert Hv.
  unfold Settings.parse_ipv6_pool. rewrite Epool. destruct (split 47 pool) as [|a [|p [|]]]; try done.
  destruct (AddrParser.parse_ipv6_addr a) as [base|] eqn:Ea; [|done]. simpl.
  destruct (parse_uint 8 p) as [prefix|] eqn:Ep; [|done]. simpl. destruct (_ || _) eqn:Er; [done|].
  apply orb_false_iff in Er as [? ?]. b2p. unfold Settings.parse_server_tunnel_ipv6. rewrite Eaddr.
  destruct (AddrParser.parse_ipv6_addr addr) as [server|]; [|done]. simpl.
  unfold Settings.prefix_bytes_differ. destruct (bool_decide _) eqn:Eb; [|done]. simpl.
  destruct (Settings.parse_dns_servers_v6 c) as [dns| |]; [|done..]. intros _. apply bool_decide_eq_true in Eb.
  apply Parsed.ipv6_ok in Ea as [Hb Hl].
  rewrite Z.min_l in Eb by (apply Z.div_le_upper_bound; lia). by exists base, prefix, server, dns.
Qed.

Lemma allocator_any E base prefix a :
  IpAllocator.new (E := unit) base prefix = Ok a -> IpAllocator.new (E := E) base prefix = Ok a.
Proof. unfold IpAllocator.new. destruct (_ <? _); [done|]. destruct (_ <=? _); [done|]. by intros [= <-]. Qed.

Lemma allocator6_any E base prefix a :
  Ipv6Allocator.new (E := unit) base prefix = Ok a -> Ipv6Allocator.new (E := E) base prefix = Ok a.
Proof. unfold Ipv6Allocator.new. destruct (_ <? _); [done|]. by intros [= <-]. Qed.

Lemma ipv6_new_base {E} base prefix a :
  Ipv6Allocator.new (E := E) base prefix = Ok a -> Ipv6Allocator.base a = base /\ Ipv6Allocator.prefix a = prefix.
Proof. unfold Ipv6Allocator.new. destruct (_ <? _); [done|]. by intros [= <-]. Qed.

(** The IPv4 network of the table is the configured one. *)
Definition configured_v4 (c : Settings.t) (m : SessionManager.t) : Prop :=
  exists base prefix server,
    Settings.parse_ipv4_pool c = Ok (base, prefix) /\ Settings.parse_server_tunnel_ip c = Ok server /\
    SessionManager.server_ip m = server /\ same_network prefix server base /\
    IpAllocator.base (SessionManager.ip_allocator m) = base /\ SessionManager.prefix_len m = prefix /\
    pool_correct (SessionManager.ip_allocator m) (2 ^ (32 - prefix) - 3) 32 prefix base /\
    SessionManager.max_sessions m <= 2 ^ (32 - prefix) - 2.

(** The table is the one the configuration describes. *)
Definition configured (c : Settings.t) (m : SessionManager.t) : Prop :=
  configured_v4 c m /\
  SessionManager.max_sessions m = Settings.get_max_sessions c /\
  SessionManager.session_timeout m = as_uint 64 (1000 * Settings.session_timeout_secs c) /\
  SessionManager.session_rate_limit_pps m = Settings.session_rate_limit_pps c /\
  SessionManager.session_rate_limit_bps m = Settings.session_rate_limit_bps c /\
  if Settings.has_ipv6 c then
    exists base6 prefix6 server6 a6,
      Settings.parse_ipv6_pool c = Ok (Some (base6, prefix6)) /\ 48 <= prefix6 <= 128 /\
      Settings.parse_server_tunnel_ipv6 c = Ok (Some server6) /\
      SessionManager.server_ipv6 m = Some server6 /\ SessionManager.ipv6_allocator m = Some a6 /\
      Ipv6Allocator.base a6 = base6 /\ Ipv6Allocator.prefix a6 = prefix6
  else SessionManager.server_ipv6 m = None /\ SessionManager.ipv6_allocator m = None.

Lemma manager_starts c prefix :
  Settings.validate_ipv4 c = Ok prefix -> Settings.validate_ipv6 c = Ok tt -> pool_aligned c ->
  Settings.session_rate_limit_bps c * 2 <= U64_MAX -> Settings.get_max_sessions c <= 2 ^ (32 - prefix) - 2 ->
  exists m, Start.session_manager c = Ok m /\ SessionManager.reachable m /\ SessionManager.sessions m = ∅ /\ configured c m.
Proof.
  intros H4 H6 Ha Hbps Hmax. destruct (valid_ipv4 c prefix H4) as (base & server & dns & Hp & Hpr & Hs & Hnet & _).
  destruct (Parsed.pool_ok c base prefix Hp) as (Hb & Hl & Hp1). specialize (Ha _ _ Hp).
  pose proof (aligned_fits 32 (32 - prefix) _ ltac:(lia) (from_be_bound 4 base Hb ltac:(unfold len in Hl; lia)) Ha) as Hfit.
  destruct (ipv4_pool_correct base prefix Hb Hl Hp1 Ha) as (a4 & E4 & Hpool).
  assert (4 <= 2 ^ (32 - prefix)) as Hsize by (change 4 with (2 ^ 2); apply Z.pow_le_mono_r; lia).
  rewrite Z.max_r in Hpool by lia. destruct (ipv4_new_fields _ _ _ E4) as (Ebase & Eprefix & _).
  assert (forall m, SessionManager.ip_allocator m = a4 -> SessionManager.server_ip m = server ->
    SessionManager.max_sessions m = Settings.get_max_sessions c -> configured_v4 c m) as Hv4.
  { intros m Ea Es Em. exists base, prefix, server. unfold SessionManager.prefix_len. rewrite Ea, Em. by split_and!. }
  pose proof (allocator_any Settings.error base prefix a4 E4) as E4'. unfold Start.session_manager. rewrite Hp, Hs. simpl.
  unfold configured. destruct (Settings.has_ipv6 c) eqn:E6.
  - destruct (valid_ipv6 c H6 E6) as (base6 & prefix6 & server6 & dns6 & Hp6 & Hr6 & Hb6 & Hl6 & Hs6 & _). rewrite Hp6, Hs6. simpl.
    destruct (ipv6_new base6 prefix6 Hb6 Hl6 ltac:(lia)) as (a6 & E6a & _).
    pose proof (allocator6_any Settings.error base6 prefix6 a6 E6a) as E6b. unfold SessionManager.new_dual_stack. rewrite E4', E6b. simpl.
    eexists. split_and!; try done; [|apply Hv4; reflexivity|exists base6, prefix6, server6, a6].
    + apply SessionManager.reach_rate_limits; [|done].
      eapply (SessionManager.reach_new_dual_stack base prefix server base6 prefix6 server6); try done; [lia|].
      unfold SessionManager.new_dual_stack. by rewrite E4, E6a.
    + destruct (ipv6_new_base _ _ _ E6a). split_and!; (done || lia).
  - unfold SessionManager.new. rewrite E4'. simpl. eexists. split_and!; try done; [|apply Hv4; reflexivity].
    apply SessionManager.reach_rate_limits; [|done]. eapply (SessionManager.reach_new base prefix server); try done.
    unfold SessionManager.new. by rewrite E4.
Qed.

(** ** The checks that are policy *)

Lemma valid_limits c prefix :
  Settings.validate_limits c prefix = Ok tt ->
  576 <= Settings.mtu c <= 9000 /\ Settings.session_timeout_secs c <> 0 /\ Settings.keepalive_interval_secs c <> 0 /\
  Settings.get_max_sessions c <= saturating_sub (Z.shiftl 1 (32 - prefix)) 2 /\
  map fold_case (bytes_of_string (Settings.min_security_level c)) ∈
    [bytes_of_string "level3"; bytes_of_string "level5"; bytes_of_string "3"; bytes_of_string "5"].
Proof.
  unfold Settings.validate_limits. destruct (_ || _) eqn:Em; [done|]. apply orb_false_iff in Em as [? ?].
  destruct (Settings.session_timeout_secs c =? 0) eqn:Es; [done|]. destruct (Settings.keepalive_interval_secs c =? 0) eqn:Ek; [done|].
  destruct (match Settings.log_file c with Some _ => Settings.log_max_size_mb c =? 0 | None => false end); [done|].
  destruct (match Settings.log_file c with Some _ => Settings.log_max_files c =? 0 | None => false end); [done|].
  destruct (bool_decide _) eqn:El; [|done]. cbn [negb].
  destruct (saturating_sub (Z.shiftl 1 (32 - prefix)) 2 <? Settings.get_max_sessions c) eqn:Ex; [done|]. intros _.
  apply bool_decide_eq_true in El. b2p. split_and!; done || lia.
Qed.

(** Metrics are not served to other hosts without a token that is long enough
    and not one character repeated. *)
Lemma metrics_protected c :
  Settings.validate_admin c = Ok tt -> Settings.enable_metrics c = true ->
  Settings.is_loopback (SocketAddr.ip (Settings.metrics_addr c)) = true \/
  (Settings.enable_admin_api c = true /\ exists token, Settings.admin_api_token c = Some token /\
     Settings.MIN_ADMIN_TOKEN_LEN <= Settings.utf8_len (Settings.trim token) /\
     exists x y, x ∈ Settings.trim token /\ y ∈ Settings.trim token /\ x <> y).
Proof.
  unfold Settings.validate_admin, Settings.MIN_ADMIN_TOKEN_LEN. intros Hv Hm. rewrite Hm in Hv. cbn [andb] in Hv.
  destruct (Settings.is_loopback _); [by left|]. right. cbn [negb] in Hv.
  destruct (Settings.enable_admin_api c); [|done]. split; [done|].
  destruct (Settings.admin_api_token c) as [token|]; [|by cbn in Hv]. exists token. split; [done|].
  destruct (_ <? 24) eqn:El; [done|]. b2p. split; [done|].
  destruct (Settings.trim token) as [|x r]; [by simpl in El; lia|].
  destruct (forallb (fun y => y =? x) (x :: r)) eqn:Ef; [done|].
  apply (not_true_iff_false) in Ef. rewrite forallb_forall in Ef.
  destruct (decide (Exists (fun y => y <> x) (x :: r))) as [He|He].
  - apply Exists_exists in He as (y & Hy & Hne). exists x, y. split_and!; [left|done|done].
  - destruct Ef. intros y Hy. apply Z.eqb_eq. destruct (decide (y = x)) as [|Hne]; [done|]. destruct He.
    apply Exists_exists. exists y. split; [by apply list_elem_of_In|done].
Qed.

(** ** The start *)

(** The handlers read the configuration the server was started with. *)
Definition configured_server (c : Settings.t) (open : list Z -> option UserStore.t) (s : VpnServer.t) : Prop :=
  configured c (VpnServer.sessions s) /\
  Settings.parse_dns_servers c = Ok (ServerConfig.dns_servers (VpnServer.config s)) /\
  (Settings.has_ipv6 c = true ->
     Settings.parse_dns_servers_v6 c = Ok (ServerConfig.dns_servers_v6 (VpnServer.config s))) /\
  ServerConfig.mtu (VpnServer.config s) = Settings.mtu c /\ 576 <= Settings.mtu c <= 9000 /\
  (let name := map fold_case (bytes_of_string (Settings.min_security_level c)) in
   match VpnServer.min_security_level s with
   | SecurityLevel.Level3 => name = bytes_of_string "level3" \/ name = bytes_of_string "3"
   | SecurityLevel.Level5 => name = bytes_of_string "level5" \/ name = bytes_of_string "5"
   end) /\
  VpnServer.user_store s = if Settings.require_auth c then open (Settings.users_db_path_or_default c) else None.

Lemma configured_level c s :
  map fold_case (bytes_of_string (Settings.min_security_level c)) ∈
    [bytes_of_string "level3"; bytes_of_string "level5"; bytes_of_string "3"; bytes_of_string "5"] ->
  ServerConfig.min_security_level (VpnServer.config s) = Settings.min_security_level c ->
  let name := map fold_case (bytes_of_string (Settings.min_security_level c)) in
  match VpnServer.min_security_level s with
  | SecurityLevel.Level3 => name = bytes_of_string "level3" \/ name = bytes_of_string "3"
  | SecurityLevel.Level5 => name = bytes_of_string "level5" \/ name = bytes_of_string "5"
  end.
Proof.
  intros Hin E. unfold VpnServer.min_security_level. rewrite E. cbv zeta.
  rewrite !elem_of_cons, elem_of_nil in Hin. destruct Hin as [->|[->|[->|[->|[]]]]]; vm_compute; tauto.
Qed.


End StartSafety.

End StartSafety.

(** * Examples *)

Example default_valid : Settings.validate Settings.default = Ok tt.
Proof. vm_compute. reflexivity. Qed.

Definition example_token : list Z := seqZ 65 26.

(** A dual-stack server with accounts, its metrics open to other hosts behind a
    token. *)
Definition example_settings : Settings.t :=
  Settings.mk (SocketAddr.V4 [0; 0; 0; 0] 51820) (bytes_of_string "10.8.0.0/20") (bytes_of_string "10.8.0.1")
    [bytes_of_string "9.9.9.9"] (Some (bytes_of_string "fd00:8::/112")) (Some (bytes_of_string "fd00:8::1")) []
    Settings.default_tun_name 1400 180 25 true (Some (bytes_of_string "/var/log/hpn")) 100 5 (Some 4094) true None true true
    (SocketAddr.V4 [10; 8; 0; 1] 9100) true Settings.default_admin_addr (Some example_token) None None None true "LEVEL5"
    100000 125000000 None None.

Definition example_store (path : list Z) : option UserStore.t := Some (UserStore.mk [] 1 true).


(** The addresses [10.99.0.200/24] passes as a pool, and clients get addresses of
    the next network; near the end of the address space they wrap around. *)
Definition with_pool (c : Settings.t) (pool ip : list Z) : Settings.t :=
  Settings.mk (Settings.listen_addr c) pool ip (Settings.dns_servers c) (Settings.ipv6_pool c) (Settings.server_tunnel_ipv6 c)
    (Settings.dns_servers_v6 c) (Settings.tun_name c) (Settings.mtu c) (Settings.session_timeout_secs c)
    (Settings.keepalive_interval_secs c) (Settings.log_enabled c) (Settings.log_file c) (Settings.log_max_size_mb c)
    (Settings.log_max_files c) (Settings.max_sessions c) (Settings.enable_nat c) (Settings.nat_interface c)
    (Settings.enable_metrics c) (Settings.no_log c) (Settings.metrics_addr c) (Settings.enable_admin_api c)
    (Settings.admin_addr c) (Settings.admin_api_token c) (Settings.admin_api_token_sha256 c) (Settings.license_key c)
    (Settings.users_db_path c) (Settings.require_auth c) (Settings.min_security_level c) (Settings.session_rate_limit_pps c)
    (Settings.session_rate_limit_bps c) (Settings.run_as_user c) (Settings.run_as_group c).

Example unaligned_pool_valid :
  Settings.validate (with_pool Settings.default (bytes_of_string "10.99.0.200/24") (bytes_of_string "10.99.0.1")) = Ok tt /\
  Settings.validate (with_pool Settings.default (bytes_of_string "255.255.255.200/24") (bytes_of_string "255.255.255.1")) = Ok tt.
Proof. vm_compute. by split. Qed.

(** The default limit on sessions is one more than there are addresses. *)
Example default_limit :
  Settings.get_max_sessions Settings.default = 254 /\
  match IpAllocator.new (E := unit) [10; 99; 0; 0] 24 with Ok a => pool_capacity a = 253 | _ => False end.
Proof. vm_compute. by split. Qed.

(** Octets with leading zeros and signs are read. *)
Example odd_octets :
  Settings.validate (with_pool Settings.default (bytes_of_string "010.+99.0.0/24") (bytes_of_string "10.099.0.1")) = Ok tt.
Proof. vm_compute. reflexivity. Qed.

(** Only whole bytes of an IPv6 prefix are compared. *)
Example prefix_60_outside :
  Settings.prefix_bytes_differ [253;0;0;0;0;0;0;0;0;0;0;0;0;0;0;0] [253;0;0;0;0;0;0;255;0;0;0;0;0;0;0;1] 60 = false.
Proof. vm_compute. reflexivity. Qed.
