(* ===== verification/ServerPaths.v ===== *)
(** The handlers of server.rs (hpn-server) for platforms without UDP workers,
    where one loop reads one socket.  It has its own copy of the handlers; this
    file models the copy and compares it with the handlers of the UDP workers in
    [Server].  (The third copy, for AF_XDP, is in [AfXdp].) *)

From S2P Require Import Prelude Types Codec Wire Net AddrParse Header Digest Aead Keys Signature Kem Kdf Session Fragment Reassembly.
From S2P Require Import Tunnel Control Init Response Handshake Agreement.
From S2P Require Import HandshakeReplay RateLimit AuthLockout AddressPool TokenBucket SessionManager DataPlane UserStore.
From S2P Require Import Server ServerSafety.

(** * The single-socket loop *)

Module SingleSocket.
Import VpnServer.

Section Server.
Context {R : RingAead} {D : RingDigest} {M : MlDsa} {K : KemPrimitives} {H : Hkdf} {A2 : Argon2}.
Context {IS : SetIter Z} {IR : HashIter (SocketAddr.t * Z) Entry.t}.
Context {I1 : HashIter (list Z * IpAddr.t) TupleEntry.t} {I2 : HashIter IpAddr.t IpEntry.t}
  {I3 : HashIter (list Z) UsernameEntry.t}.

(** Whether [self.socket] is there; [accepts r n] is whether the n-th
    [send_to] of a handler succeeds. *)
Variable socket : bool.

Definition send_to (r : reading) (packet : list Z) (addr : SocketAddr.t) : list sent :=
  if socket then try_send r packet addr else [].

(** The message of a handshake datagram whose type the caller knows. *)
Definition parse_init_as (s : t) (data : list Z) (msg_type : MessageType.t) : result unit (HandshakeInit.t * bool) :=
  if len data <? HEADER_SIZE then Err tt
  else
    let? payload := range data HEADER_SIZE (len data) in
    match msg_type with
    | MessageType.EncryptedHandshakeInit =>
        let? encrypted_init := map_err (fun _ => tt) (EncryptedHandshakeInit.from_bytes payload) in
        let level := EncryptedHandshakeInit.security_level encrypted_init in
        if negb (security_level_accepted s level) then Err tt
        else
          let? kem_keypair := ok_or tt (kem_keypair_for_level s level) in
          let? inner_init := map_err (fun _ => tt)
            (EncryptedHandshakeInit.decrypt encrypted_init (fst kem_keypair)) in
          Ok (inner_init, true)
    | MessageType.HandshakeInit =>
        let? init := map_err (fun _ => tt) (HandshakeInit.from_bytes payload) in
        Ok (init, false)
    | _ => Err tt
    end.

Definition answer_init (s : t) (r : reading) (init : HandshakeInit.t) (addr : SocketAddr.t)
    : t * result Empty_set (list sent) :=
  let level := HandshakeInit.security_level init in
  let keypair := keypair_for_level s level in
  let handshake := ServerHandshake.new (cookie_secret r) (handshake_instant r) keypair in
  let session_id := generated_id r in
  let! config := initial_config s or s in
  let! (response, server_keys) :=
    ServerHandshake.process_init handshake (server_random r) (x25519_rng r) (mlkem_rng r) (sign_rng r)
      (unix_secs r) init session_id config or s in
  let response_send_key := SessionKeys.send_key server_keys in
  let! session := Session.new (now (table_clock r)) session_id server_keys or s in
  let '(m, ips) :=
    SessionManager.create_session_dual_stack_with_level (sessions s) (table_clock r) session addr level in
  let s := set_sessions s m in
  let! (tunnel_ip, tunnel_ipv6) := ips or s in
  let response := assign response tunnel_ip tunnel_ipv6 in
  let '(response, refreshed) :=
    refresh_handshake_response_auth (refresh_rng r) response (HandshakeInit.client_random init) level
      keypair response_send_key in
  let! _ := refreshed or remove s session_id in
  if socket then
    let! packets := encode_handshake_response_as_packets (response_frag_id r) response session_id or s in
    (s, Ok (map (fun p => (p, addr)) (enqueue (accepts r) 0 packets)))
  else (s, Ok []).

Definition handle_handshake_init_prechecked (s : t) (r : reading) (data : list Z) (addr : SocketAddr.t)
    (msg_type : MessageType.t) : t * result Empty_set (list sent) :=
  let! (init, _) := parse_init_as s data msg_type or s in
  let '(s, accepted) := accept_init s r init addr in
  let! _ := accepted or s in
  answer_init s r init addr.

Definition handle_handshake_init (s : t) (r : reading) (data : list Z) (addr : SocketAddr.t)
    (msg_type : MessageType.t) : t * result Empty_set (list sent) :=
  let '(s, ok) := allow s r addr in
  if negb ok then (s, Ok []) else handle_handshake_init_prechecked s r data addr msg_type.

Definition handle_handshake_fragment (s : t) (r : reading) (data : list Z) (addr : SocketAddr.t)
    : t * result Empty_set (list sent) :=
  if len data <? HEADER_SIZE then (s, Ok [])
  else
    let! header := PacketHeader.decode data or s in
    if negb (bool_decide (PacketHeader.msg_type header = MessageType.HandshakeFragment)) then (s, Ok [])
    else
      let! body := range (E:=Empty_set) data HEADER_SIZE (len data) or s in
      let! fragment := HandshakeFragment.from_bytes body or s in
      let is_new_attempt :=
        negb (Reassembly.contains (fragment_reassembly s) addr (HandshakeFragment.frag_id fragment)) in
      let '(s, ok) := if is_new_attempt then allow s r addr else (s, true) in
      if negb ok then (s, Ok [])
      else
        let '(reasm, completed) :=
          Reassembly.insert (fragment_reassembly s) (arrived_at r) addr fragment in
        let s := set_reassembly s reasm in
        let! completed := completed or s in
        match completed with
        | None => (s, Ok [])
        | Some (inner_msg_type, reassembled) =>
            let! synth := packet_of inner_msg_type 0 reassembled or s in
            handle_handshake_init_prechecked s r synth addr inner_msg_type
        end.

(** The packet for the TUN device; [decrypt_buf] is the buffer of the loop. *)
Definition handle_data_packet (s : t) (r : reading) (data : list Z) (addr : SocketAddr.t) (session_id : Z)
    (decrypt_buf : list Z) : t * result Empty_set (option (list Z)) :=
  match SessionManager.get_session (sessions s) session_id with
  | None => (s, Ok None)
  | Some c =>
      let addr_changed := negb (bool_decide (ClientSession.client_addr c = addr)) in
      let '(c, plain) := Workers.decrypt_for c (now (table_clock r)) data decrypt_buf in
      match plain with
      | Panic => (put s session_id c, Panic)
      | Err e => match e with end
      | Ok None => (put s session_id c, Ok None)
      | Ok (Some plain) =>
          if addr_changed then (put s session_id c, Ok None)
          else
            let c := ClientSession.touch c (now_ms (table_clock r)) in
            let c := ClientSession.add_bytes_received c (len data) in
            (put s session_id c, Ok (Some plain))
      end
  end.

Definition handle_keepalive (s : t) (r : reading) (data : list Z) (addr : SocketAddr.t) (session_id : Z)
    : t * result Empty_set (list sent) :=
  match SessionManager.get_session (sessions s) session_id with
  | None => (s, Ok [])
  | Some c =>
      let addr_changed := negb (bool_decide (ClientSession.client_addr c = addr)) in
      let '(c, plain) := decrypt_message c (now (table_clock r)) data in
      let s := put s session_id c in
      let! plain := plain or s in
      if addr_changed then (s, Ok [])
      else
        let! keepalive := KeepaliveMessage.from_bytes plain or s in
        let c := ClientSession.touch c (now_ms (table_clock r)) in
        let reply := KeepaliveReplyMessage.mk (KeepaliveMessage.sequence keepalive) (unix_millis r) in
        let '(c, packet) := encrypt_answer c MessageType.KeepaliveReply (KeepaliveReplyMessage.to_bytes reply) in
        let s := put s session_id c in
        let! packet := packet or s in
        (s, Ok (send_to r packet (ClientSession.client_addr c)))
  end.

Definition send_ack (s : t) (r : reading) (session_id : Z) (client_addr : SocketAddr.t)
    (ack : ControlMessage.t) : t * result Empty_set (list sent) :=
  match SessionManager.get_session (sessions s) session_id with
  | None => (s, Ok [])
  | Some c =>
      let '(c, packet) := encrypt_answer c MessageType.Control (ControlMessage.to_bytes ack) in
      let s := put s session_id c in
      let! packet := packet or s in
      if negb (bool_decide (ClientSession.client_addr c = client_addr)) then (s, Ok [])
      else (s, Ok (send_to r packet client_addr))
  end.

Definition send_rebind_ack (s : t) (r : reading) (session_id : Z) : t * result Empty_set (list sent) :=
  match SessionManager.get_session (sessions s) session_id with
  | None => (s, Ok [])
  | Some c =>
      let client_addr := ClientSession.client_addr c in
      let keypair := keypair_for_level s (ClientSession.security_level c) in
      match SignedRebindAckPayload.sign (sign_rng r) (unix_secs r) keypair session_id client_addr with
      | Ok signed => send_ack s r session_id client_addr (ControlMessage.rebind_ack_signed signed)
      | Err _ =>
          send_ack s r session_id client_addr (ControlMessage.mk ControlType.RebindAck None None None)
      | Panic => (s, Panic)
      end
  end.

(** Whether a Rebind message moves the session: an endpoint that parses, or no
    endpoint and another sender. *)
Definition rebinds (c : ClientSession.t) (addr : SocketAddr.t) (message : option (list Z)) : bool :=
  match message with
  | Some endpoint => bool_decide (is_Some (AddrParser.parse_socket_addr endpoint))
  | None => negb (bool_decide (ClientSession.client_addr c = addr))
  end.

Definition handle_control (s : t) (r : reading) (data : list Z) (addr : SocketAddr.t) (session_id : Z)
    : t * result Empty_set (list sent) :=
  match SessionManager.get_session (sessions s) session_id with
  | None => (s, Ok [])
  | Some c =>
      let '(c, plain) := decrypt_message c (now (table_clock r)) data in
      let s := put s session_id c in
      let! plain := plain or s in
      let! control := ControlMessage.from_bytes plain or s in
      let s := put s session_id (ClientSession.touch c (now_ms (table_clock r))) in
      match ControlMessage.control_type control with
      | ControlType.Close => (remove s session_id, Ok [])
      | ControlType.Rebind =>
          if rebinds c addr (ControlMessage.message control) then
            let s := set_sessions s (SessionManager.update_client_addr (sessions s) session_id addr) in
            send_rebind_ack s r session_id
          else (s, Ok [])
      | _ => (s, Ok [])
      end
  end.

Definition handle_rekey (s : t) (r : reading) (data : list Z) (session_id : Z) : t * result Empty_set (list sent) :=
  match SessionManager.get_session (sessions s) session_id with
  | None => (s, Ok [])
  | Some c =>
      let '(c, plain) := decrypt_message c (now (table_clock r)) data in
      let s := put s session_id c in
      let! plain := plain or s in
      let! rekey_msg := RekeyMessage.from_bytes plain or s in
      let level := HybridPublicKey.security_level (RekeyMessage.client_ephemeral_pk rekey_msg) in
      if negb (bool_decide (level = ClientSession.security_level c)) then (s, Ok [])
      else
        let rekey_handler :=
          ServerHandshake.new (cookie_secret r) (handshake_instant r) (keypair_for_level s level) in
        let current_key_id := Session.key_id (ClientSession.session c) in
        let! (response, new_keys) :=
          ServerHandshake.process_rekey rekey_handler (server_random r) (x25519_rng r) (mlkem_rng r)
            (sign_rng r) (unix_secs r) rekey_msg current_key_id session_id or s in
        let '(c, packet) := encrypt_answer c MessageType.RekeyResponse (RekeyResponse.to_bytes response) in
        let s := put s session_id c in
        let! packet := packet or s in
        let '(inner, updated) := Session.update_keys (ClientSession.session c) new_keys in
        let c := Workers.with_session c inner in
        let s := put s session_id c in
        let! _ := updated or s in
        let c := ClientSession.touch c (now_ms (table_clock r)) in
        (put s session_id c, Ok (send_to r packet (ClientSession.client_addr c)))
  end.

(** A packet of the TUN device for a session, with whether it was sent. *)
Definition send_to_client (s : t) (session_id : Z) (data : list Z) : t * result Empty_set (list sent) :=
  match SessionManager.get_session (sessions s) session_id with
  | None => (s, Ok [])
  | Some c =>
      let client_addr := ClientSession.client_addr c in
      let '(c, packet) := encrypt_answer c MessageType.Data data in
      let! packet := packet or put s session_id c in
      let c := ClientSession.add_bytes_sent c (len packet) in
      (put s session_id c, Ok [(packet, client_addr)])
  end.

(** A datagram of the socket: what is sent, and the packet for the TUN device. *)
Definition handle_packet (s : t) (r : reading) (decrypt_buf data : list Z) (addr : SocketAddr.t)
    : t * result Empty_set (list sent * option (list Z)) :=
  let answered (x : t * result Empty_set (list sent)) :=
    let '(s, out) := x in (s, let? out := out in Ok (out, None)) in
  if len data <? HEADER_SIZE then (s, Ok ([], None))
  else
    match PacketHeader.decode data with
    | Panic => (s, Panic)
    | Err _ => (s, Ok ([], None))
    | Ok header =>
        let session_id := PacketHeader.session_id header in
        match PacketHeader.msg_type header with
        | MessageType.HandshakeInit | MessageType.EncryptedHandshakeInit =>
            answered (handle_handshake_init s r data addr (PacketHeader.msg_type header))
        | MessageType.HandshakeFragment => answered (handle_handshake_fragment s r data addr)
        | MessageType.Data =>
            let '(s, out) := handle_data_packet s r data addr session_id decrypt_buf in
            (s, let? out := out in Ok ([], out))
        | MessageType.Keepalive => answered (handle_keepalive s r data addr session_id)
        | MessageType.Control => answered (handle_control s r data addr session_id)
        | MessageType.Rekey => answered (handle_rekey s r data session_id)
        | _ => (s, Ok ([], None))
        end
    end.

End Server.
End SingleSocket.

(** * Agreement with the UDP workers *)

Module SingleSocketSafety.
Import VpnServer ServerSafety.

(** The same reading, with room for every datagram. *)
Definition ready (r : reading) : reading :=
  mk_reading (rate_clock r) (arrived_at r) (replay_clock r) (lockout_clock r) (failure_clock r) (store_clock r)
    (select_fault r) (update_fault r) (join_error r) (cookie_secret r) (handshake_instant r) (generated_id r)
    (server_random r) (x25519_rng r) (mlkem_rng r) (sign_rng r) (refresh_rng r) (unix_secs r) (unix_millis r)
    (table_clock r) (response_frag_id r) (fun _ => true).

(** [agrees r b x y]: the same state, and of the datagrams [y] those that were
    sent; all of them if [b] and if all sends succeed. *)
Definition agrees {S} (r : reading) (b : bool) (x y : S * result Empty_set (list sent)) : Prop :=
  fst x = fst y /\
  match snd x, snd y with
  | Ok l, Ok l' => l `sublist_of` l' /\ (b = true -> (forall n, accepts r n = true) -> l = l')
  | Panic, Panic => True
  | _, _ => False
  end.

Lemma agrees_refl {S} r b (x : S * result Empty_set (list sent)) : agrees r b x x.
Proof. split; [done|]. destruct (snd x) as [l|[]|]; [|done]. by split. Qed.

Lemma agrees_attempt {S E A} r b (x : result E A) (s : S) k k' :
  (forall a, x = Ok a -> agrees r b (k a) (k' a)) -> agrees r b (attempt x s k) (attempt x s k').
Proof. destruct x; simpl; intros Hk; [by apply Hk|apply agrees_refl..]. Qed.

Lemma enqueue_sublist {A} f i (l : list A) : enqueue f i l `sublist_of` l.
Proof.
  revert i. induction l as [|x l IH]; intros i; simpl; [done|]. destruct (f i); [by constructor|].
  apply sublist_nil_l.
Qed.

Lemma enqueue_ready {A} f i (l : list A) : (forall n, f n = true) -> enqueue f i l = l.
Proof. intros Hf. revert i. induction l as [|x l IH]; intros i; simpl; [done|]. by rewrite Hf, IH. Qed.

Lemma agrees_sent {S} r b (s : S) f (l : list (list Z)) a :
  (b = true -> (forall n, accepts r n = true) -> f = l) -> f `sublist_of` l ->
  agrees r b (s, Ok (map (fun p => (p, a)) f)) (s, Ok (map (fun p => (p, a)) l)).
Proof. intros Hf Hs. split; [done|]. simpl. split; [by apply fmap_sublist|]. intros Hb Ha. by rewrite Hf. Qed.

Section Agreement.
Context {R : RingAead} {D : RingDigest} {M : MlDsa} {K : KemPrimitives} {H : Hkdf} {A2 : Argon2}.
Context {IS : SetIter Z} {IR : HashIter (SocketAddr.t * Z) Entry.t}.
Context {I1 : HashIter (list Z * IpAddr.t) TupleEntry.t} {I2 : HashIter IpAddr.t IpEntry.t}
  {I3 : HashIter (list Z) UsernameEntry.t}.
Variable socket : bool.

Lemma agrees_send_to (s : t) r p a : agrees r socket (s, Ok (SingleSocket.send_to socket r p a)) (s, Ok (try_send (ready r) p a)).
Proof.
  unfold SingleSocket.send_to, try_send. destruct socket.
  - apply agrees_sent; [intros _ Ha; by rewrite enqueue_ready|]. rewrite (enqueue_ready (accepts (ready r))) by done.
    apply enqueue_sublist.
  - split; [done|]. simpl. split; [apply sublist_nil_l|done].
Qed.

Lemma answer_init_agrees s r init addr :
  agrees r socket (SingleSocket.answer_init socket s r init addr) (answer_init s (ready r) init addr).
Proof.
  unfold SingleSocket.answer_init, answer_init. cbv zeta.
  apply agrees_attempt. intros cfg _. apply agrees_attempt. intros [resp keys] _.
  apply agrees_attempt. intros session _.
  cbn [sessions ready cookie_secret handshake_instant generated_id table_clock response_frag_id refresh_rng accepts].
  destruct (SessionManager.create_session_dual_stack_with_level _ _ _ _ _) as [m ips].
  apply agrees_attempt. intros [ip ip6] _.
  destruct (refresh_handshake_response_auth _ _ _ _ _ _) as [resp' refreshed]. apply agrees_attempt. intros _ _.
  pose proof (encode_response_yields (response_frag_id r) resp' (generated_id r)) as Hy.
  destruct (encode_handshake_response_as_packets _ _ _) as [packets|e|]; [|by destruct socket|done]. cbn [attempt].
  rewrite (enqueue_ready (fun _ => true)), Nat.eqb_refl by done. destruct socket.
  - apply agrees_sent; [intros _ Ha; by rewrite enqueue_ready|apply enqueue_sublist].
  - split; [done|]. split; [apply sublist_nil_l|done].
Qed.

Lemma parse_init_as_header s data h :
  PacketHeader.decode data = Ok h -> parse_init s data = SingleSocket.parse_init_as s data (PacketHeader.msg_type h).
Proof. intros Hd. unfold parse_init, SingleSocket.parse_init_as. destruct (_ <? _); [done|]. by rewrite Hd. Qed.

Lemma accept_init_ready s r init addr : accept_init s (ready r) init addr = accept_init s r init addr.
Proof. done. Qed.

Lemma prechecked_agrees s r data addr h :
  PacketHeader.decode data = Ok h ->
  agrees r socket (SingleSocket.handle_handshake_init_prechecked socket s r data addr (PacketHeader.msg_type h))
    (handle_handshake_init_internal_prechecked s (ready r) data addr).
Proof.
  intros Hd. unfold SingleSocket.handle_handshake_init_prechecked, handle_handshake_init_internal_prechecked.
  rewrite (parse_init_as_header s data h Hd). apply agrees_attempt. intros [init hidden] _.
  rewrite accept_init_ready. destruct (accept_init s r init addr) as [s1 accepted].
  apply agrees_attempt. intros _ _. apply answer_init_agrees.
Qed.

Lemma init_agrees s r data addr h :
  PacketHeader.decode data = Ok h ->
  agrees r socket (SingleSocket.handle_handshake_init socket s r data addr (PacketHeader.msg_type h))
    (handle_handshake_init_internal s (ready r) data addr).
Proof.
  intros Hd. unfold SingleSocket.handle_handshake_init, handle_handshake_init_internal.
  change (allow s (ready r) addr) with (allow s r addr). destruct (allow s r addr) as [s1 [|]]; [|apply agrees_refl].
  by apply prechecked_agrees.
Qed.

Lemma fragment_agrees s r data addr :
  agrees r socket (SingleSocket.handle_handshake_fragment socket s r data addr)
    (handle_handshake_fragment_internal s (ready r) data addr).
Proof.
  unfold SingleSocket.handle_handshake_fragment, handle_handshake_fragment_internal.
  destruct (_ <? _); [apply agrees_refl|]. apply agrees_attempt. intros h _.
  destruct (negb _); [apply agrees_refl|]. apply agrees_attempt. intros body _.
  apply agrees_attempt. intros f _. change (allow s (ready r) addr) with (allow s r addr).
  destruct (if negb _ then allow s r addr else (s, true)) as [s1 [|]]; [|apply agrees_refl]. simpl negb. cbv iota.
  cbn [arrived_at ready]. destruct (Reassembly.insert _ _ _ _) as [rea completed].
  apply agrees_attempt. intros [[ty payload]|] _; [|apply agrees_refl].
  rewrite packet_of_ok. cbn [attempt].
  set (h' := PacketHeader.new ty 0 KeyId.initial Counter.initial).
  assert (PacketHeader.decode (PacketHeader.wire h' ++ payload) = Ok h') as Hd.
  { unfold h'. rewrite PacketHeader.decode_wire; [done|]. by apply Session.data_header_wf. }
  by apply (prechecked_agrees _ r _ addr h').
Qed.

Lemma keepalive_agrees s r data addr id :
  agrees r socket (SingleSocket.handle_keepalive socket s r data addr id)
    (handle_keepalive_internal s (ready r) id data addr).
Proof.
  unfold SingleSocket.handle_keepalive, handle_keepalive_internal. cbn [table_clock ready unix_millis].
  destruct (SessionManager.get_session (sessions s) id) as [c|]; [|apply agrees_refl].
  destruct (decrypt_message c _ data) as [c1 plain]. apply agrees_attempt. intros p _.
  destruct (negb _).
  { destruct (KeepaliveMessage.from_bytes p) as [ka|e|] eqn:E; [apply agrees_refl..|].
    exfalso. unfold KeepaliveMessage.from_bytes, KeepaliveMessage.SIZE in E. repeat (step_in E; b2p). no_abort. }
  apply agrees_attempt. intros ka _. destruct (encrypt_answer _ _ _) as [c2 packet].
  apply agrees_attempt. intros p' _. apply agrees_send_to.
Qed.

Lemma send_ack_agrees s r id a ack :
  agrees r socket (SingleSocket.send_ack socket s r id a ack) (send_ack s (ready r) id a ack).
Proof.
  unfold SingleSocket.send_ack, send_ack. destruct (SessionManager.get_session (sessions s) id) as [c|]; [|apply agrees_refl].
  destruct (encrypt_answer _ _ _) as [c1 packet]. apply agrees_attempt. intros p _.
  destruct (negb _); [apply agrees_refl|apply agrees_send_to].
Qed.

Lemma rebind_ack_agrees s r id :
  agrees r socket (SingleSocket.send_rebind_ack socket s r id) (send_rebind_ack_internal s (ready r) id).
Proof.
  unfold SingleSocket.send_rebind_ack, send_rebind_ack_internal. cbn [sign_rng unix_secs ready].
  destruct (SessionManager.get_session (sessions s) id) as [c|]; [|apply agrees_refl].
  destruct (SignedRebindAckPayload.sign _ _ _ _ _); [apply send_ack_agrees..|apply agrees_refl].
Qed.

(** The control message of a datagram for the session. *)
Definition control_of (c : ClientSession.t) (r : reading) (data : list Z) (control : ControlMessage.t) : Prop :=
  exists plain, snd (decrypt_message c (now (table_clock r)) data) = Ok plain /\ ControlMessage.from_bytes plain = Ok control.

Lemma control_agrees s r data addr id :
  (forall c control, SessionManager.get_session (sessions s) id = Some c -> control_of c r data control ->
     ControlMessage.control_type control = ControlType.Rebind ->
     SingleSocket.rebinds c addr (ControlMessage.message control) = true) ->
  agrees r socket (SingleSocket.handle_control socket s r data addr id)
    (handle_control_internal s (ready r) id data addr).
Proof.
  intros Hreb. unfold SingleSocket.handle_control, handle_control_internal. cbn [table_clock ready].
  destruct (SessionManager.get_session (sessions s) id) as [c|]; [|apply agrees_refl].
  destruct (decrypt_message c _ data) as [c1 plain] eqn:Ed. apply agrees_attempt. intros p ->.
  apply agrees_attempt. intros control Ec.
  destruct (ControlMessage.control_type control) eqn:Et; try apply agrees_refl.
  assert (SingleSocket.rebinds c1 addr (ControlMessage.message control) = true) as ->.
  { rewrite <- (Hreb c control eq_refl); [|by exists p; rewrite Ed|done].
    assert (ClientSession.client_addr c1 = ClientSession.client_addr c) as Ha.
    { unfold decrypt_message, Workers.decrypt_for in Ed. destruct (Session.decrypt_packet _ _ _ _). by injection Ed as <- _. }
    unfold SingleSocket.rebinds. by rewrite Ha. }
  apply rebind_ack_agrees.
Qed.

(** Rekeying ignores the sender. *)
Lemma rekey_agrees s r data addr id :
  (forall c, SessionManager.get_session (sessions s) id = Some c -> ClientSession.client_addr c = addr) ->
  agrees r socket (SingleSocket.handle_rekey socket s r data id) (handle_rekey_internal s (ready r) id data addr).
Proof.
  intros Haddr. unfold SingleSocket.handle_rekey, handle_rekey_internal.
  cbn [table_clock ready cookie_secret handshake_instant server_random x25519_rng mlkem_rng sign_rng unix_secs].
  destruct (SessionManager.get_session (sessions s) id) as [c|]; [|apply agrees_refl].
  rewrite (bool_decide_true (ClientSession.client_addr c = addr)) by by apply Haddr. simpl negb. cbv iota.
  destruct (decrypt_message c _ data) as [c1 plain]. apply agrees_attempt. intros p _.
  apply agrees_attempt. intros rk _. destruct (negb _); [apply agrees_refl|].
  apply agrees_attempt. intros [resp keys] _. destruct (encrypt_answer _ _ _) as [c2 packet].
  apply agrees_attempt. intros p' _. destruct (Session.update_keys _ _) as [inner upd].
  apply agrees_attempt. intros _ _. apply agrees_send_to.
Qed.

(** Otherwise nothing happens but that the session is touched. *)
Lemma control_cases s r data addr id :
  agrees r socket (SingleSocket.handle_control socket s r data addr id) (handle_control_internal s (ready r) id data addr) \/
  exists c, SessionManager.get_session (sessions s) id = Some c /\
    let c1 := fst (decrypt_message c (now (table_clock r)) data) in
    SingleSocket.handle_control socket s r data addr id =
      (put (put s id c1) id (ClientSession.touch c1 (now_ms (table_clock r))), Ok []).
Proof.
  destruct (SessionManager.get_session (sessions s) id) as [c|] eqn:Hc;
    [|left; apply control_agrees; intros c control Hc'; congruence].
  destruct (decrypt_message c (now (table_clock r)) data) as [c1 plain] eqn:Ed.
  destruct plain as [p|e|];
    try (left; apply control_agrees; intros c' control [= <-]%(eq_trans (eq_sym Hc)) (p' & E & _); rewrite Ed in E; done).
  destruct (ControlMessage.from_bytes p) as [control|e|] eqn:Ec;
    try (left; apply control_agrees; intros c' control [= <-]%(eq_trans (eq_sym Hc)) (p' & E & E'); rewrite Ed in E;
         simpl in E; congruence).
  destruct (SingleSocket.rebinds c addr (ControlMessage.message control)) eqn:Er.
  { left. apply control_agrees. intros c' control' [= <-]%(eq_trans (eq_sym Hc)) (p' & E & E') _. rewrite Ed in E.
    simpl in E. congruence. }
  destruct (decide (ControlMessage.control_type control = ControlType.Rebind)) as [Et|Et].
  - right. exists c. split; [done|]. unfold SingleSocket.handle_control. rewrite Hc, Ed. cbn [attempt fst]. rewrite Ec.
    cbn [attempt]. rewrite Et.
    assert (ClientSession.client_addr c1 = ClientSession.client_addr c) as Ha.
    { unfold decrypt_message, Workers.decrypt_for in Ed. destruct (Session.decrypt_packet _ _ _ _). by injection Ed as <- _. }
    unfold SingleSocket.rebinds in *. by rewrite Ha, Er.
  - left. apply control_agrees. intros c' control' [= <-]%(eq_trans (eq_sym Hc)) (p' & E & E') Ht. rewrite Ed in E.
    simpl in E. congruence.
Qed.

(** The packets both loops treat alike: data of a sender without rate limit,
    from an address of the session; rekeys from the bound address; Rebind
    messages with an endpoint that parses, or none and from a new address. *)
Definition ordinary (s : t) (r : reading) (buf data : list Z) (addr : SocketAddr.t) : Prop :=
  forall h c, PacketHeader.decode data = Ok h ->
    SessionManager.get_session (sessions s) (PacketHeader.session_id h) = Some c ->
    match PacketHeader.msg_type h with
    | MessageType.Data =>
        forall c' plain, Workers.decrypt_for c (now (table_clock r)) data buf = (c', Ok (Some plain)) ->
          ClientSession.check_rate_limit (E := Empty_set) c' (now_us (table_clock r)) (len plain) = Ok (c', true) /\
          (0 < len plain -> Workers.valid_src c' plain = Ok true)
    | MessageType.Rekey => ClientSession.client_addr c = addr
    | MessageType.Control =>
        forall control, control_of c r data control -> ControlMessage.control_type control = ControlType.Rebind ->
          SingleSocket.rebinds c addr (ControlMessage.message control) = true
    | _ => True
    end.

(** [agrees] with the packet for the TUN device. *)
Definition agrees' (r : reading) (b : bool) (x y : t * result Empty_set (list sent * option (list Z))) : Prop :=
  fst x = fst y /\
  match snd x, snd y with
  | Ok (l, p), Ok (l', p') => p = p' /\ l `sublist_of` l' /\ (b = true -> (forall n, accepts r n = true) -> l = l')
  | Panic, Panic => True
  | _, _ => False
  end.

Lemma agrees_answered r b (x y : t * result Empty_set (list sent)) :
  agrees r b x y ->
  agrees' r b (let '(s, out) := x in (s, let? out := out in Ok (out, None)))
    (let '(s, out) := y in (s, let? out := out in Ok (out, None))).
Proof.
  destruct x as [s1 [l|[]|]], y as [s2 [l'|[]|]]; intros [Hs Hl]; simpl in *; try done.
Qed.

(** The single-socket loop and the UDP workers with their control task
    treat ordinary datagrams alike: they leave the same server state and hand
    the same packet to the TUN device, and of the datagrams the workers queue
    the loop sends those the socket takes, all of them if it takes all. *)
Lemma single_socket_agrees s r buf data addr :
  ordinary s r buf data addr ->
  agrees' r socket (SingleSocket.handle_packet socket s r buf data addr) (receive s (ready r) buf data addr).
Proof.
  intros Ho. unfold SingleSocket.handle_packet, receive, Workers.process_packet.
  assert (forall m : SessionManager.t, m = sessions s -> set_sessions s m = s) as Hsame by (intros m ->; by destruct s).
  assert (forall (z : t) o, agrees' r socket (z, Ok ([], o)) (z, Ok ([], o))) as Hrefl by done.
  destruct (len data <? HEADER_SIZE); [rewrite Hsame by done; apply Hrefl|].
  destruct (PacketHeader.decode data) as [h|e|] eqn:Hd; [|rewrite Hsame by done; done..].
  specialize (Ho h). destruct (PacketHeader.msg_type h) eqn:Et;
    try (rewrite Hsame by done; cbn [handle_control_message]; rewrite <- ?Et; try apply Hrefl; apply agrees_answered).
  - by apply init_agrees.
  - (* data *)
    unfold SingleSocket.handle_data_packet, Workers.process_data. cbn [table_clock ready].
    destruct (SessionManager.get_session (sessions s) (PacketHeader.session_id h)) as [c|] eqn:Hc;
      [|rewrite Hsame by done; apply Hrefl].
    specialize (Ho c Hd eq_refl).
    destruct (Workers.decrypt_for c (now (table_clock r)) data buf) as [c1 [[plain|]|[]|]]; [|apply Hrefl|done].
    destruct (negb _); [apply Hrefl|]. destruct (Ho c1 plain eq_refl) as [Hr Hv]. rewrite Hr. simpl negb. cbv iota.
    destruct (0 <? len plain) eqn:El; b2p; [rewrite Hv by done|]; apply Hrefl.
  - apply keepalive_agrees.
  - apply control_agrees. intros c control Hc Hco. by apply (Ho c Hd Hc).
  - apply rekey_agrees. intros c Hc. by apply (Ho c Hd Hc).
  - by apply init_agrees.
  - apply fragment_agrees.
Qed.

End Agreement.

Section Safety.
Context {R : RingAead} {RL : RingAeadLaws} {D : RingDigest} {DL : RingDigestLaws}.
Context {M : MlDsa} {ML : MlDsaLaws} {K : KemPrimitives} {KL : KemLaws} {H : Hkdf} {HL : HkdfLaws}.
Context {A2 : Argon2}.
Context {IS : SetIter Z} {IR : HashIter (SocketAddr.t * Z) Entry.t}.
Context {I1 : HashIter (list Z * IpAddr.t) TupleEntry.t} {I2 : HashIter IpAddr.t IpEntry.t}
  {I3 : HashIter (list Z) UsernameEntry.t}.
Variable socket : bool.

Notation table s := (SessionManager.get_session (sessions s)).

(** A handler that keeps the server well formed and does not abort. *)
Definition sound (s : t) (x : t * result Empty_set (list sent)) : Prop :=
  ok (fst x) /\ same_setup s (fst x) /\ exists l, snd x = Ok l.

Lemma agrees_sound r b s P x y : agrees r b x y -> handled s P y -> sound s x.
Proof.
  destruct x as [s1 x], y as [s2 y]. intros [Hs Hl] (Ho & Hset & l & Hy & _). simpl in *. subst s2 y.
  split_and!; try done. destruct x as [l1|[]|]; [by eexists|done].
Qed.

Lemma single_control_sound s r data addr id :
  ok s -> bytes_ok data -> SocketAddr.wf addr -> sound s (SingleSocket.handle_control socket s r data addr id).
Proof.
  intros Hs Hb Ha. destruct (control_cases socket s r data addr id) as [Hagr|(c & Hc & ->)].
  - eapply agrees_sound; [exact Hagr|by apply control_spec].
  - pose proof (proj2 (ok_table s Hs) id c Hc) as Hw.
    pose proof (decrypt_message_spec c (now (table_clock r)) data Hw Hb) as Hd.
    destruct (decrypt_message c _ data) as [c1 x]. destruct Hd as [Hsame _]. cbn [fst].
    destruct (put_again s id c c1 (ClientSession.touch c1 (now_ms (table_clock r))) Hs Hc Hsame Hsame) as (? & ? & _).
    split_and!; try done. by eexists.
Qed.

Lemma single_rekey_sound s r data id :
  ok s -> reading_ok r -> bytes_ok data -> sound s (SingleSocket.handle_rekey socket s r data id).
Proof.
  intros Hs Hr Hb. destruct (table s id) as [c|] eqn:Hc.
  - eapply agrees_sound; [apply (rekey_agrees socket s r data (ClientSession.client_addr c) id)|].
    + intros c' Hc'. congruence.
    + apply (rekey_spec s (ready r) id data (ClientSession.client_addr c) Hs Hr Hb).
  - unfold SingleSocket.handle_rekey. rewrite Hc. split_and!; try done. by eexists.
Qed.

Lemma single_data_sound s r buf data addr id :
  ok s -> bytes_ok data ->
  let '(s', x) := SingleSocket.handle_data_packet s r data addr id buf in
  ok s' /\ same_setup s s' /\ exists p, x = Ok p /\
    forall q, p = Some q -> exists c h, table s id = Some c /\ ClientSession.client_addr c = addr /\
      PacketHeader.decode data = Ok h /\ DataPath.authentic (ClientSession.session c) h q data.
Proof.
  intros Hs Hb. unfold SingleSocket.handle_data_packet.
  destruct (table s id) as [c|] eqn:Hc; [|split_and!; try done; by exists None].
  pose proof (DataPath.decrypt_for_spec c (now (table_clock r)) data buf (proj2 (ok_table s Hs) id c Hc) Hb) as Hd.
  destruct (Workers.decrypt_for _ _ _ _) as [c1 [[plain|]|[]|]]; [| |by destruct Hd]; destruct Hd as [Hsame Hd].
  - destruct (put_kept s id c c1 Hs Hc Hsame) as (Ho1 & Hs1 & _).
    destruct (negb _) eqn:Ea; [split_and!; try done; by exists None|].
    apply negb_false_iff, bool_decide_eq_true in Ea.
    set (c2 := ClientSession.add_bytes_received _ _).
    destruct (put_kept s id c c2 Hs Hc Hsame) as (Ho2 & Hs2 & _). split_and!; try done. eexists. split; [done|].
    intros q [= <-]. destruct Hd as (_ & h & Hdec & Hau & _). by exists c, h.
  - destruct (put_kept s id c c1 Hs Hc Hsame) as (Ho1 & Hs1 & _). split_and!; try done. by exists None.
Qed.

(** A packet for the TUN device was sealed by the client of a session. *)
Definition sealed_by_client (s : t) (data : list Z) (addr : SocketAddr.t) (p : option (list Z)) : Prop :=
  forall q, p = Some q -> exists c h, PacketHeader.decode data = Ok h /\
    table s (PacketHeader.session_id h) = Some c /\ ClientSession.client_addr c = addr /\
    DataPath.authentic (ClientSession.session c) h q data.

(** C31: the loop of platforms without UDP workers: no datagram aborts it or
    breaks the invariant of the server, and what it hands to the TUN device was
    sealed for a session by the sender the session is bound to.  Ordinary
    datagrams it treats as the UDP workers and their control task do: the same
    server state, the same packet for the TUN device, and of the datagrams the
    workers queue those the socket takes.  (It does not check the source of
    packets or the rate limit of the session, nor the sender of a rekey.) *)
Theorem single_socket_loop s r buf data addr :
  ok s -> reading_ok r -> bytes_ok data -> SocketAddr.wf addr ->
  let x := SingleSocket.handle_packet socket s r buf data addr in
  (exists s' l p, x = (s', Ok (l, p)) /\ ok s' /\ same_setup s s' /\
     sealed_by_client s data addr p) /\
  (ordinary s r buf data addr -> agrees' r socket x (receive s (ready r) buf data addr)).
Proof.
  intros Hs Hr Hb Ha x. split; [|apply single_socket_agrees]. subst x. unfold SingleSocket.handle_packet.
  assert (forall y, sound s y -> exists s' l p, (let '(s, out) := y in (s, let? out := out in Ok (out, None))) =
    (s', Ok (l, p)) /\ ok s' /\ same_setup s s' /\ sealed_by_client s data addr p) as Hans.
  { intros [s1 y] (Ho & Hset & l & Hy). simpl in *. subst y. exists s1, l, None. by split_and!. }
  assert (exists s' (l : list sent) p, (s, Ok (E:=Empty_set) ([], None)) = (s', Ok (l, p)) /\ ok s' /\ same_setup s s' /\ sealed_by_client s data addr p) as Hnone
    by (exists s, [], None; by split_and!).
  destruct (len data <? HEADER_SIZE); [done|].
  pose proof (PacketHeader.decode_no_panic data Hb) as Hp.
  destruct (PacketHeader.decode data) as [h|e|] eqn:Hd; [|done|done].
  destruct (PacketHeader.msg_type h) eqn:Et; try done; try apply Hans; rewrite <- ?Et.
  - eapply agrees_sound; [by apply init_agrees|by apply init_spec].
  - pose proof (single_data_sound s r buf data addr (PacketHeader.session_id h) Hs Hb) as Hx.
    destruct (SingleSocket.handle_data_packet _ _ _ _ _ _) as [s1 y]. destruct Hx as (Ho & Hset & p & -> & Hq).
    exists s1, [], p. split_and!; try done. intros q Hq'. destruct (Hq q Hq') as (c & h' & ? & ? & Hd' & ?).
    rewrite Hd in Hd'. injection Hd' as <-. by exists c, h.
  - eapply agrees_sound; [apply keepalive_agrees|by apply keepalive_spec].
  - by apply single_control_sound.
  - by apply single_rekey_sound.
  - eapply agrees_sound; [by apply init_agrees|by apply init_spec].
  - eapply agrees_sound; [apply fragment_agrees|by apply fragment_spec].
Qed.

End Safety.
End SingleSocketSafety.

(** * Examples *)

(** What the client of session 7 sends, as a datagram. *)
Definition example_from_client (ty : MessageType.t) (payload : list Z) : list Z :=
  match snd (Session.encrypt_packet example_client_session ty payload (replicate 200 0)) with
  | Ok (out, n) => slice out 0 n
  | _ => []
  end.

(** A packet whose source is not the address of the session passes the
    single-socket loop; the UDP workers drop it. *)
Example spoofed_source_passes :
  let p := example_ip_packet [9; 9; 9; 9] [1; 1; 1; 1] in
  let data := example_from_client MessageType.Data p in
  snd (SingleSocket.handle_packet true (example_vpn_server example_table) example_reading (replicate 60 0) data
         example_addr) = Ok ([], Some p) /\
  snd (VpnServer.receive (example_vpn_server example_table) example_reading (replicate 60 0) data example_addr) =
    Ok ([], None).
Proof. split; vm_compute; reflexivity. Qed.

(** A Rebind message whose endpoint does not parse moves the session on the
    path of the UDP workers only. *)
Example unreadable_endpoint_refused :
  let data := example_from_client MessageType.Control
    (ControlMessage.to_bytes (ControlMessage.mk ControlType.Rebind None (Some (bytes_of_string "here")) None)) in
  let addr := SocketAddr.V4 [203; 0; 113; 9] 1 in
  DataPath.endpoints (VpnServer.sessions (fst (SingleSocket.handle_packet true (example_vpn_server example_table)
    example_reading (replicate 60 0) data addr))) 7 = DataPath.endpoints example_table 7 /\
  DataPath.endpoints (VpnServer.sessions (fst (VpnServer.receive (example_vpn_server example_table)
    example_reading (replicate 60 0) data addr))) 7 = Some (addr, [10; 99; 0; 2], None, SecurityLevel.Level5).
Proof. split; vm_compute; reflexivity. Qed.

Lemma single_socket_loop_witness :
  let data := example_from_client MessageType.Keepalive (KeepaliveMessage.to_bytes (KeepaliveMessage.mk 3)) in
  let s := example_vpn_server example_table in
  SingleSocketSafety.agrees' example_reading true
    (SingleSocket.handle_packet true s example_reading (replicate 60 0) data example_addr)
    (VpnServer.receive s (SingleSocketSafety.ready example_reading) (replicate 60 0) data example_addr).
Proof.
  intros data s.
  apply (SingleSocketSafety.single_socket_loop true s example_reading (replicate 60 0) data example_addr
    example_server_ok example_reading_ok).
  - by_decide.
  - by_decide.
  - intros h c Hd _.
    assert (match PacketHeader.decode data with Ok h => PacketHeader.msg_type h | _ => MessageType.Data end =
      MessageType.Keepalive) as Ht by (vm_compute; reflexivity).
    rewrite Hd in Ht. rewrite Ht. exact I.
Defined.
