(* ===== verification/AfXdp.v ===== *)
(** The AF_XDP data path: the sessions and packets of hpn-afxdp/src/datapath.rs,
    the workers and the session bridge of hpn-server/src/afxdp_workers.rs, and
    the handlers of hpn-server/src/server.rs that serve its control channel.

    Rings, frames and sockets are what they deliver: a packet, a frame to
    write to, or nothing.  Instants are microseconds here, as in the source. *)

From S2P Require Import Prelude Types Codec Wire Net Header Digest ReplayWindow Aead Keys Signature Kem Kdf Session Fragment.
From S2P Require Import Reassembly Tunnel Control Init Response Handshake Agreement.
From S2P Require Import HandshakeReplay RateLimit AuthLockout AddressPool TokenBucket SessionManager DataPlane UserStore.
From S2P Require Import Server ServerSafety ServerPaths.

Module SessionCrypto.

Definition DEFAULT_SESSION_RATE_LIMIT_PPS : Z := 2000000.
Definition DEFAULT_SESSION_RATE_LIMIT_BPS : Z := 0.

Section WithRing.
Context {R : RingAead}.

Record t := mk {
  session_id : Z;
  tx_key : LessSafeKey;
  rx_key : LessSafeKey;
  nonce_prefix : list Z;
  tx_counter : Z;
  rx_window_base : Z;
  rx_bitmap : Z;
  key_id : Z;
  rate_limit_pps : Z;
  rate_limit_bps : Z;
  packet_tokens : Z;
  byte_tokens : Z;
  last_refill_us : Z;
}.

Definition set_tx_counter (c : t) (n : Z) : t :=
  mk (session_id c) (tx_key c) (rx_key c) (nonce_prefix c) n (rx_window_base c) (rx_bitmap c) (key_id c)
    (rate_limit_pps c) (rate_limit_bps c) (packet_tokens c) (byte_tokens c) (last_refill_us c).

Definition set_window (c : t) (base bitmap : Z) : t :=
  mk (session_id c) (tx_key c) (rx_key c) (nonce_prefix c) (tx_counter c) base bitmap (key_id c)
    (rate_limit_pps c) (rate_limit_bps c) (packet_tokens c) (byte_tokens c) (last_refill_us c).

Definition set_tokens (c : t) (packets bytes refill : Z) : t :=
  mk (session_id c) (tx_key c) (rx_key c) (nonce_prefix c) (tx_counter c) (rx_window_base c) (rx_bitmap c)
    (key_id c) (rate_limit_pps c) (rate_limit_bps c) packets bytes refill.

(** [saturating_mul(2)] *)
Definition saturating_double (n : Z) : Z := Z.min U64_MAX (n * 2).

Definition new_with_rate_limit (now session_id : Z) (tx_key rx_key nonce_prefix : list Z)
    (key_id rate_limit_pps rate_limit_bps : Z) : result CryptoError.t t :=
  let? tx_precomputed := PrecomputedKey.new tx_key in
  let? rx_precomputed := PrecomputedKey.new rx_key in
  Ok (mk session_id tx_precomputed rx_precomputed nonce_prefix 0 0 0 key_id rate_limit_pps rate_limit_bps
        (rate_limit_pps * 2) (saturating_double rate_limit_bps) now).

Definition new (now session_id : Z) (tx_key rx_key nonce_prefix : list Z) (key_id : Z)
    : result CryptoError.t t :=
  new_with_rate_limit now session_id tx_key rx_key nonce_prefix key_id
    DEFAULT_SESSION_RATE_LIMIT_PPS DEFAULT_SESSION_RATE_LIMIT_BPS.

Definition next_tx_counter (c : t) : t * Z := (set_tx_counter c (wrapping_add 64 (tx_counter c) 1), tx_counter c).

(** [base + 64] may overflow.  The base and the bitmap are atomic variables of
    their own; the loads and stores of a call are one step here, as they are for
    a session whose packets one queue receives. *)
Definition check_replay (c : t) (counter : Z) : t * result Empty_set bool :=
  let base := rx_window_base c in
  if counter <? base then (c, Ok false)
  else if U64_MAX <? base + 64 then (c, Panic)
  else if base + 64 <=? counter then
    let new_base := saturating_sub counter 63 in
    (set_window c new_base (Z.shiftl 1 (counter - new_base)), Ok true)
  else
    let bit := Z.shiftl 1 (counter - base) in
    let old_bitmap := rx_bitmap c in
    (set_window c base (Z.lor old_bitmap bit), Ok (Z.land old_bitmap bit =? 0)).

(** Tokens earned: [(elapsed_us as u128 * rate as u128 / 1_000_000) as u64]. *)
Definition earned (elapsed_us rate : Z) : Z := as_uint 64 (elapsed_us * rate / 1000000).

Definition refill (current add max : Z) : Z := Z.min (saturating_add 64 current add) max.

Definition refill_rate_tokens (c : t) (now : Z) : t :=
  let elapsed_us := saturating_sub now (last_refill_us c) in
  if elapsed_us <? 1000 then c
  else
    let packets :=
      if 0 <? rate_limit_pps c then
        refill (packet_tokens c) (earned elapsed_us (rate_limit_pps c)) (rate_limit_pps c * 2)
      else packet_tokens c in
    let bytes :=
      if 0 <? rate_limit_bps c then
        refill (byte_tokens c) (earned elapsed_us (rate_limit_bps c)) (saturating_double (rate_limit_bps c))
      else byte_tokens c in
    set_tokens c packets bytes now.

Definition check_rate_limit (c : t) (now bytes : Z) : t * bool :=
  if (rate_limit_pps c =? 0) && (rate_limit_bps c =? 0) then (c, true)
  else
    let c := refill_rate_tokens c now in
    if (0 <? rate_limit_pps c) && (packet_tokens c <=? 0) then (c, false)
    else
      let packets := if 0 <? rate_limit_pps c then packet_tokens c - 1 else packet_tokens c in
      let c := set_tokens c packets (byte_tokens c) (last_refill_us c) in
      if 0 <? rate_limit_bps c then
        if bytes <=? byte_tokens c then
          (set_tokens c (packet_tokens c) (byte_tokens c - bytes) (last_refill_us c), true)
        else
          let packets :=
            if 0 <? rate_limit_pps c then wrapping_add 64 (packet_tokens c) 1 else packet_tokens c in
          (set_tokens c packets (byte_tokens c) (last_refill_us c), false)
      else (c, true).

Definition encrypt (c : t) (counter : Z) (aad plaintext ciphertext : list Z) : result CryptoError.t (list Z * Z) :=
  PrecomputedKey.encrypt (tx_key c) (nonce_prefix c) counter aad plaintext ciphertext.

Definition decrypt (c : t) (counter : Z) (aad ciphertext plaintext : list Z) : result CryptoError.t (list Z * Z) :=
  PrecomputedKey.decrypt (rx_key c) (nonce_prefix c) counter aad ciphertext plaintext.

End WithRing.

End SessionCrypto.

(** The table shared by the workers. *)
Module SessionTable.

Section WithRing.
Context {R : RingAead}.

Definition t : Type := gmap Z SessionCrypto.t.

Definition new : t := ∅.
Definition add (m : t) (session : SessionCrypto.t) : t := <[SessionCrypto.session_id session := session]> m.
Definition remove (m : t) (session_id : Z) : t := delete session_id m.
Definition get (m : t) (session_id : Z) : option SessionCrypto.t := m !! session_id.

End WithRing.

End SessionTable.

(** * The data path of the crate *)

Module AfXdpError.

(** The errors the data path itself returns. *)
Inductive t :=
| SessionNotFound (session_id : Z)
| UmemExhausted
| Protocol (e : ProtocolError.t)
| Crypto (e : CryptoError.t).

End AfXdpError.

Module BatchStats.

Record t := mk {
  rx_packets : Z;
  tx_packets : Z;
  rx_bytes : Z;
  tx_bytes : Z;
  decrypt_errors : Z;
  unknown_session : Z;
  replay_drops : Z;
  header_errors : Z;
}.

Definition default : t := mk 0 0 0 0 0 0 0 0.

End BatchStats.

Module XdpDataPath.

Section WithRing.
Context {R : RingAead}.

Record t := mk { sessions : SessionTable.t; stats : BatchStats.t }.

Definition new (sessions : SessionTable.t) : t := mk sessions BatchStats.default.

(** What became of a received packet. *)
Inductive outcome :=
| Handled (session_id : Z) (plaintext : list Z)
| HeaderError | Ignored | UnknownSession | ReplayDrop | DecryptError.

(** The closure [process_rx] passes to [recv_batch], without the counters. *)
Definition rx_packet (m : SessionTable.t) (encrypted_packet : list Z) : SessionTable.t * result Empty_set outcome :=
  if len encrypted_packet <? HEADER_SIZE + TAG_SIZE then (m, Ok HeaderError)
  else
    match PacketHeader.decode encrypted_packet with
    | Panic => (m, Panic)
    | Err _ => (m, Ok HeaderError)
    | Ok header =>
        if negb (bool_decide (PacketHeader.msg_type header = MessageType.Data)) then (m, Ok Ignored)
        else
          match SessionTable.get m (PacketHeader.session_id header) with
          | None => (m, Ok UnknownSession)
          | Some session =>
              let '(session, fresh) := SessionCrypto.check_replay session (PacketHeader.counter header) in
              let m := <[PacketHeader.session_id header := session]> m in
              (m,
               let? fresh := fresh in
               if negb fresh then Ok ReplayDrop
               else
                 let header_size := PacketHeader.encoded_size header in
                 let? ciphertext := range encrypted_packet header_size (len encrypted_packet) in
                 let plaintext := replicate (length ciphertext) 0 in
                 let? aad := range encrypted_packet 0 header_size in
                 match SessionCrypto.decrypt session (PacketHeader.counter header) aad ciphertext plaintext with
                 | Ok (plaintext, pt_len) =>
                     let? plain := range plaintext 0 pt_len in
                     Ok (Handled (PacketHeader.session_id header) plain)
                 | Err _ => Ok DecryptError
                 | Panic => Panic
                 end)
          end
    end.

Definition count (s : BatchStats.t) (o : outcome) : BatchStats.t :=
  let '(BatchStats.mk rx tx rxb txb de us rd he) := s in
  match o with
  | Handled _ plain => BatchStats.mk (rx + 1) tx (rxb + len plain) txb de us rd he
  | HeaderError => BatchStats.mk (rx + 1) tx rxb txb de us rd (he + 1)
  | Ignored => BatchStats.mk (rx + 1) tx rxb txb de us rd he
  | UnknownSession => BatchStats.mk (rx + 1) tx rxb txb de (us + 1) rd he
  | ReplayDrop => BatchStats.mk (rx + 1) tx rxb txb de us (rd + 1) he
  | DecryptError => BatchStats.mk (rx + 1) tx rxb txb (de + 1) us rd he
  end.

(** The packets of a batch in order, and what the handler was given. *)
Fixpoint process_rx (d : t) (packets : list (list Z)) : t * result Empty_set (list (Z * list Z)) :=
  match packets with
  | [] => (d, Ok [])
  | p :: packets =>
      let '(m, o) := rx_packet (sessions d) p in
      match o with
      | Ok o =>
          let '(d, rest) := process_rx (mk m (count (stats d) o)) packets in
          (d, let? rest := rest in
              Ok (match o with Handled id plain => (id, plain) :: rest | _ => rest end))
      | Err e => match e with end
      | Panic => (mk m (stats d), Panic)
      end
  end.

(** [frame] is what [send_reserve] gives; the answer is the packet submitted. *)
Definition process_tx (d : t) (session_id : Z) (plaintext : list Z) (frame : option (list Z))
    : t * result AfXdpError.t (list Z) :=
  match SessionTable.get (sessions d) session_id with
  | None => (d, Err (AfXdpError.SessionNotFound session_id))
  | Some session =>
      let '(session, counter) := SessionCrypto.next_tx_counter session in
      let d := mk (<[session_id := session]> (sessions d)) (stats d) in
      let header := PacketHeader.new MessageType.Data session_id (SessionCrypto.key_id session) counter in
      let header_size := PacketHeader.encoded_size header in
      let sealed :=
        let? buf := ok_or AfXdpError.UmemExhausted frame in
        let? head := range buf 0 header_size in
        let? (head, _) := map_err AfXdpError.Protocol (PacketHeader.encode header head) in
        let? buf := copy_from_slice buf 0 header_size head in
        let? aad := range buf 0 header_size in
        let? body := range buf header_size (len buf) in
        let? (body, ct_len) :=
          map_err AfXdpError.Crypto (SessionCrypto.encrypt session counter aad plaintext body) in
        let? buf := copy_from_slice buf header_size (len buf) body in
        range buf 0 (header_size + ct_len) in
      match sealed with
      | Ok packet =>
          let '(BatchStats.mk rx tx rxb txb de us rd he) := stats d in
          (mk (sessions d) (BatchStats.mk rx (tx + 1) rxb (txb + len plaintext) de us rd he), Ok packet)
      | Err e => (d, Err e)
      | Panic => (d, Panic)
      end
  end.

(** The packets sent until no frame is left; a packet of an unknown session or
    that cannot be sealed is skipped.  [frames n] is what the n-th
    [send_reserve] gives. *)
Fixpoint process_tx_batch (d : t) (packets : list (Z * list Z)) (frames : nat -> option (list Z)) (n : nat)
    : t * result Empty_set (list (list Z)) :=
  match packets with
  | [] => (d, Ok [])
  | (session_id, plaintext) :: packets =>
      let '(d, r) := process_tx d session_id plaintext (frames n) in
      match r with
      | Ok packet =>
          let '(d, rest) := process_tx_batch d packets frames (S n) in
          (d, let? rest := rest in Ok (packet :: rest))
      | Err AfXdpError.UmemExhausted => (d, Ok [])
      | Err (AfXdpError.SessionNotFound _) => process_tx_batch d packets frames n
      | Err _ => process_tx_batch d packets frames (S n)
      | Panic => (d, Panic)
      end
  end.

End WithRing.

End XdpDataPath.

(** * The workers of the server *)

Module AfXdpControl.

Inductive t :=
| HandshakeInit (data : list Z) (addr : SocketAddr.t)
| Keepalive (session_id : Z) (data : list Z) (addr : SocketAddr.t)
| Control (session_id : Z) (data : list Z) (addr : SocketAddr.t)
| Rekey (session_id : Z) (data : list Z) (addr : SocketAddr.t).

End AfXdpControl.

Module XdpWorker.

Section WithRing.
Context {R : RingAead}.

(** [SocketAddr::from(([0, 0, 0, 0], 0))] *)
Definition placeholder : SocketAddr.t := SocketAddr.V4 [0; 0; 0; 0] 0.

Inductive outcome := ToTun (packet : list Z) | ToControl (message : AfXdpControl.t) | Nothing.

(** A data packet of a known session: the plaintext for the TUN writer. *)
Definition receive_data (session : SessionCrypto.t) (now : Z) (header : PacketHeader.t)
    (encrypted_packet buffer : list Z) : SessionCrypto.t * result Empty_set (option (list Z)) :=
  let counter := PacketHeader.counter header in
  let header_size := PacketHeader.encoded_size header in
  let opened :=
    let? ciphertext := range encrypted_packet header_size (len encrypted_packet) in
    let? aad := range encrypted_packet 0 header_size in
    SessionCrypto.decrypt session counter aad ciphertext buffer in
  match opened with
  | Panic => (session, Panic)
  | Err _ => (session, Ok None)
  | Ok (buffer, plaintext_len) =>
      let '(session, fresh) := SessionCrypto.check_replay session counter in
      match fresh with
      | Panic => (session, Panic)
      | Err e => match e with end
      | Ok false => (session, Ok None)
      | Ok true =>
          let '(session, allowed) := SessionCrypto.check_rate_limit session now plaintext_len in
          (session,
           if negb allowed then Ok None
           else let? plain := range buffer 0 plaintext_len in Ok (Some plain))
      end
  end.

(** The closure the loop of a worker passes to [recv]: [pooled] is the buffer
    the pool gives, if it gives one, and [room] whether the channel the packet
    goes to has room. *)
Definition process_packet (m : SessionTable.t) (now : Z) (pooled : option (list Z)) (room : bool)
    (encrypted_packet : list Z) : SessionTable.t * result Empty_set outcome :=
  if len encrypted_packet <? HEADER_SIZE + TAG_SIZE then (m, Ok Nothing)
  else
    match PacketHeader.decode encrypted_packet with
    | Panic => (m, Panic)
    | Err _ => (m, Ok Nothing)
    | Ok header =>
        let session_id := PacketHeader.session_id header in
        let forward c := (m, Ok (if room then ToControl c else Nothing)) in
        match PacketHeader.msg_type header with
        | MessageType.Data =>
            match SessionTable.get m session_id, pooled with
            | Some session, Some buffer =>
                let '(session, plain) := receive_data session now header encrypted_packet buffer in
                (<[session_id := session]> m,
                 let? plain := plain in
                 Ok (match plain with Some plain => if room then ToTun plain else Nothing | None => Nothing end))
            | _, _ => (m, Ok Nothing)
            end
        | MessageType.Keepalive => forward (AfXdpControl.Keepalive session_id encrypted_packet placeholder)
        | MessageType.Rekey => forward (AfXdpControl.Rekey session_id encrypted_packet placeholder)
        | MessageType.Control => forward (AfXdpControl.Control session_id encrypted_packet placeholder)
        | _ => (m, Ok Nothing)
        end
    end.

End WithRing.

End XdpWorker.

Module SessionBridge.

Section WithRing.
Context {R : RingAead}.

(** The table with the keys of a session of the server; unchanged, and
    [false], when there is no such session or its keys are refused. *)
Definition sync_session (server_sessions : SessionManager.t) (m : SessionTable.t) (now session_id : Z)
    : SessionTable.t * bool :=
  match SessionManager.get_session server_sessions session_id with
  | None => (m, false)
  | Some guard =>
      let session := ClientSession.session guard in
      let keys := Session.keys session in
      match SessionCrypto.new now session_id (SessionKeys.send_key keys) (SessionKeys.recv_key keys)
              (SessionKeys.send_nonce_prefix keys) (Session.key_id session) with
      | Ok crypto => (SessionTable.add m crypto, true)
      | _ => (m, false)
      end
  end.

Definition remove_session (m : SessionTable.t) (session_id : Z) : SessionTable.t := SessionTable.remove m session_id.

(** The lifecycle callback [run_afxdp] installs, on the events of one call. *)
Definition callback (m : SessionTable.t) (events : list SessionLifecycleEvent.t) : SessionTable.t :=
  foldl (fun m event =>
    match event with
    | SessionLifecycleEvent.Created _ => m
    | SessionLifecycleEvent.Removed sid => remove_session m sid
    end) m events.

(** The events a session manager emitted between two states. *)
Definition events_between (before after : SessionManager.t) : list SessionLifecycleEvent.t :=
  let emitted m := match SessionManager.lifecycle_cb m with Some es => es | None => [] end in
  drop (length (emitted before)) (emitted after).

End WithRing.

End SessionBridge.

(** * The control channel *)

(** [let!! x := e else o in k]: on an error leave with the state and answer [o]. *)
Definition attempt_or {S E A B} (x : result E A) (o : S * B) (k : A -> S * result Empty_set B)
    : S * result Empty_set B :=
  match x with
  | Ok a => k a
  | Err _ => (fst o, Ok (snd o))
  | Panic => (fst o, Panic)
  end.

Notation "'let!!' p ':=' x 'else' o 'in' k" :=
  (attempt_or x o (fun p => k)) (at level 10, p pattern, x at level 100, o at level 100, k at level 200).

Module AfXdpServer.
Import VpnServer.

Section Server.
Context {R : RingAead} {D : RingDigest} {M : MlDsa} {K : KemPrimitives} {H : Hkdf} {A2 : Argon2}.
Context {IS : SetIter Z} {IR : HashIter (SocketAddr.t * Z) Entry.t}.
Context {I1 : HashIter (list Z * IpAddr.t) TupleEntry.t} {I2 : HashIter IpAddr.t IpEntry.t}
  {I3 : HashIter (list Z) UsernameEntry.t}.

Definition is_unspecified (ip : IpAddr.t) : bool :=
  match ip with
  | IpAddr.V4 octets | IpAddr.V6 octets => forallb (fun b => b =? 0) octets
  end.

Definition is_valid_afxdp_peer_addr (addr : SocketAddr.t) : bool :=
  negb (is_unspecified (SocketAddr.ip addr)) && negb (SocketAddr.port addr =? 0).

(** The answer to an admitted message, and the session to hand to the workers. *)
Definition answer_init_afxdp (s : t) (r : reading) (init : HandshakeInit.t) (addr : SocketAddr.t)
    : t * result Empty_set (list sent * option Z) :=
  let level := HandshakeInit.security_level init in
  let keypair := keypair_for_level s level in
  let handshake := ServerHandshake.new (cookie_secret r) (handshake_instant r) keypair in
  let session_id := generated_id r in
  let!! config := initial_config s else (s, ([], None)) in
  let!! (response, server_keys) :=
    ServerHandshake.process_init handshake (server_random r) (x25519_rng r) (mlkem_rng r) (sign_rng r)
      (unix_secs r) init session_id config else (s, ([], None)) in
  let response_send_key := SessionKeys.send_key server_keys in
  let!! session := Session.new (now (table_clock r)) session_id server_keys else (s, ([], None)) in
  let '(m, ips) :=
    SessionManager.create_session_dual_stack_with_level (sessions s) (table_clock r) session addr level in
  let s := set_sessions s m in
  let!! (tunnel_ip, tunnel_ipv6) := ips else (s, ([], None)) in
  let response := assign response tunnel_ip tunnel_ipv6 in
  let '(response, refreshed) :=
    refresh_handshake_response_auth (refresh_rng r) response (HandshakeInit.client_random init) level
      keypair response_send_key in
  let!! _ := refreshed else (remove s session_id, ([], None)) in
  let!! packets := encode_handshake_response_as_packets (response_frag_id r) response session_id
    else (s, ([], None)) in
  let queued := enqueue (accepts r) 0 packets in
  let out := map (fun p => (p, addr)) queued in
  if Nat.eqb (length queued) (length packets) then (s, Ok (out, Some session_id))
  else (remove s session_id, Ok (out, None)).

(** Only messages in the clear: the payload is parsed without looking at the
    header, which is skipped if the data is longer than one. *)
Definition handle_handshake_init_afxdp (s : t) (r : reading) (data : list Z) (addr : SocketAddr.t)
    : t * result Empty_set (list sent * option Z) :=
  let '(s, ok) := allow s r addr in
  if negb ok then (s, Ok ([], None))
  else
    let!! payload := (if HEADER_SIZE <? len data then range (E:=Empty_set) data HEADER_SIZE (len data) else Ok data)
      else (s, ([], None)) in
    let!! init := HandshakeInit.from_bytes payload else (s, ([], None)) in
    let '(s, accepted) := accept_init s r init addr in
    let!! _ := accepted else (s, ([], None)) in
    answer_init_afxdp s r init addr.

Definition handle_keepalive_afxdp (s : t) (r : reading) (session_id : Z) (data : list Z) (addr : SocketAddr.t)
    : t * result Empty_set (list sent) :=
  match SessionManager.get_session (sessions s) session_id with
  | None => (s, Ok [])
  | Some c =>
      let addr_changed :=
        is_valid_afxdp_peer_addr addr && negb (bool_decide (ClientSession.client_addr c = addr)) in
      let '(c, plain) := decrypt_message c (now (table_clock r)) data in
      let s := put s session_id c in
      let! plain := plain or s in
      let! keepalive := KeepaliveMessage.from_bytes plain or s in
      if addr_changed then (s, Ok [])
      else
        let c := ClientSession.touch c (now_ms (table_clock r)) in
        let reply := KeepaliveReplyMessage.mk (KeepaliveMessage.sequence keepalive) (unix_millis r) in
        let '(c, packet) := encrypt_answer c MessageType.KeepaliveReply (KeepaliveReplyMessage.to_bytes reply) in
        let s := put s session_id c in
        let! packet := packet or s in
        (s, Ok (try_send r packet (ClientSession.client_addr c)))
  end.

(** Whether the keys changed and the answer was queued. *)
Definition handle_rekey_afxdp (s : t) (r : reading) (session_id : Z) (data : list Z) (addr : SocketAddr.t)
    : t * result Empty_set (list sent * bool) :=
  match SessionManager.get_session (sessions s) session_id with
  | None => (s, Ok ([], false))
  | Some c =>
      let addr_changed :=
        is_valid_afxdp_peer_addr addr && negb (bool_decide (ClientSession.client_addr c = addr)) in
      let '(c, plain) := decrypt_message c (now (table_clock r)) data in
      let s := put s session_id c in
      let!! plain := plain else (s, ([], false)) in
      let!! rekey_msg := RekeyMessage.from_bytes plain else (s, ([], false)) in
      if addr_changed then (s, Ok ([], false))
      else
        let level := HybridPublicKey.security_level (RekeyMessage.client_ephemeral_pk rekey_msg) in
        if negb (bool_decide (level = ClientSession.security_level c)) then (s, Ok ([], false))
        else
          let rekey_handler :=
            ServerHandshake.new (cookie_secret r) (handshake_instant r) (keypair_for_level s level) in
          let current_key_id := Session.key_id (ClientSession.session c) in
          let!! (response, new_keys) :=
            ServerHandshake.process_rekey rekey_handler (server_random r) (x25519_rng r) (mlkem_rng r)
              (sign_rng r) (unix_secs r) rekey_msg current_key_id session_id else (s, ([], false)) in
          let '(c, packet) := encrypt_answer c MessageType.RekeyResponse (RekeyResponse.to_bytes response) in
          let s := put s session_id c in
          let!! packet := packet else (s, ([], false)) in
          let '(inner, updated) := Session.update_keys (ClientSession.session c) new_keys in
          let c := Workers.with_session c inner in
          let s := put s session_id c in
          let!! _ := updated else (s, ([], false)) in
          let c := ClientSession.touch c (now_ms (table_clock r)) in
          let out := try_send r packet (ClientSession.client_addr c) in
          (put s session_id c, Ok (out, negb (bool_decide (out = []))))
  end.

Definition send_rebind_ack_afxdp (s : t) (r : reading) (session_id : Z) : t * result Empty_set (list sent) :=
  match SessionManager.get_session (sessions s) session_id with
  | None => (s, Ok [])
  | Some c =>
      let client_addr := ClientSession.client_addr c in
      let keypair := keypair_for_level s (ClientSession.security_level c) in
      match SignedRebindAckPayload.sign (sign_rng r) (unix_secs r) keypair session_id client_addr with
      | Ok signed => send_ack s r session_id client_addr (ControlMessage.rebind_ack_signed signed)
      | Err _ =>
          send_ack s r session_id client_addr (ControlMessage.mk ControlType.RebindAck None None None)
      | Panic => (s, Panic)
      end
  end.

(** With the session that was closed. *)
Definition handle_control_afxdp (s : t) (r : reading) (session_id : Z) (data : list Z) (addr : SocketAddr.t)
    : t * result Empty_set (list sent * option Z) :=
  match SessionManager.get_session (sessions s) session_id with
  | None => (s, Ok ([], None))
  | Some c =>
      let '(c, plain) := decrypt_message c (now (table_clock r)) data in
      let s := put s session_id c in
      let!! plain := plain else (s, ([], None)) in
      let!! control := ControlMessage.from_bytes plain else (s, ([], None)) in
      match ControlMessage.control_type control with
      | ControlType.Close => (remove s session_id, Ok ([], Some session_id))
      | ControlType.Rebind =>
          let s :=
            if is_valid_afxdp_peer_addr addr then
              set_sessions s (SessionManager.update_client_addr (sessions s) session_id addr)
            else s in
          let '(s, out) := send_rebind_ack_afxdp s r session_id in
          (s, let? out := out in Ok (out, None))
      | _ => (s, Ok ([], None))
      end
  end.

(** The server and the table of its AF_XDP workers. *)
Record state := mk_state { server : VpnServer.t; table : SessionTable.t }.

(** The table after the callback saw what a handler did to the sessions. *)
Definition propagate (x : state) (s : VpnServer.t) : SessionTable.t :=
  SessionBridge.callback (table x) (SessionBridge.events_between (sessions (server x)) (sessions s)).

(** [now_us] is the clock of the data path. *)
Definition handle_afxdp_control (x : state) (r : reading) (now_us : Z) (ctrl : AfXdpControl.t)
    : state * result Empty_set (list sent) :=
  let sync s m id := fst (SessionBridge.sync_session (sessions s) m now_us id) in
  match ctrl with
  | AfXdpControl.HandshakeInit data addr =>
      let '(s, out) := handle_handshake_init_afxdp (server x) r data addr in
      let m := propagate x s in
      let!! (l, created) := out else (mk_state s m, []) in
      (mk_state s (match created with Some id => sync s m id | None => m end), Ok l)
  | AfXdpControl.Keepalive id data addr =>
      let '(s, out) := handle_keepalive_afxdp (server x) r id data addr in
      (mk_state s (propagate x s), out)
  | AfXdpControl.Rekey id data addr =>
      let '(s, out) := handle_rekey_afxdp (server x) r id data addr in
      let m := propagate x s in
      let!! (l, rekeyed) := out else (mk_state s m, []) in
      (mk_state s (if (rekeyed : bool) then sync s m id else m), Ok l)
  | AfXdpControl.Control id data addr =>
      let '(s, out) := handle_control_afxdp (server x) r id data addr in
      let m := propagate x s in
      let!! (l, removed) := out else (mk_state s m, []) in
      (mk_state s (match removed with Some id => SessionBridge.remove_session m id | None => m end), Ok l)
  end.

(** A packet of the TUN device: the datagram the reader sends. *)
Definition tun_reader (s : t) (packet encrypt_buf : list Z) : t * result Empty_set (list sent) :=
  let! session_info := Workers.dest_session (sessions s) packet or s in
  match session_info with
  | None => (s, Ok [])
  | Some (session_id, client_addr) =>
      match SessionManager.get_session (sessions s) session_id with
      | None => (s, Ok [])
      | Some c =>
          let '(c, out) := Workers.encrypt_for c MessageType.Data packet encrypt_buf in
          let! out := out or put s session_id c in
          match out with
          | None => (put s session_id c, Ok [])
          | Some out => (put s session_id (ClientSession.add_bytes_sent c (len out)), Ok [(out, client_addr)])
          end
      end
  end.

(** A packet at a worker and, if it is one for the control task, there. *)
Definition receive (x : state) (r : reading) (now_us : Z) (pooled : option (list Z)) (room : bool)
    (packet : list Z) : state * result Empty_set (list sent * option (list Z)) :=
  let '(m, o) := XdpWorker.process_packet (table x) now_us pooled room packet in
  let x := mk_state (server x) m in
  let!! o := o else (x, ([], None)) in
  match o with
  | XdpWorker.ToTun plain => (x, Ok ([], Some plain))
  | XdpWorker.ToControl c =>
      let '(x, out) := handle_afxdp_control x r now_us c in
      (x, let? out := out in Ok (out, None))
  | XdpWorker.Nothing => (x, Ok ([], None))
  end.

End Server.
End AfXdpServer.

(** * The replay window of a session *)

Module XdpWindow.
Import SessionCrypto.

Section Window.
Context {R : RingAead}.

(** The window lies below the largest counter. *)
Definition window_ok (c : t) : Prop :=
  0 <= rx_window_base c /\ rx_window_base c + 64 <= U64_MAX /\ 0 <= rx_bitmap c.

(** Whether the window holds a counter for received. *)
Definition marked (c : t) (n : Z) : bool := Z.testbit (rx_bitmap c) (n - rx_window_base c).

(** The counters of a sequence that pass, and the window they leave. *)
Fixpoint accepted (c : t) (l : list Z) : t * list Z :=
  match l with
  | [] => (c, [])
  | n :: l =>
      let '(c, x) := check_replay c n in
      let '(c, rest) := accepted c l in
      (c, match x with Ok true => n :: rest | _ => rest end)
  end.

Lemma land_bit x i : 0 <= i -> (Z.land x (Z.shiftl 1 i) =? 0) = negb (Z.testbit x i).
Proof.
  intros Hi. assert (Z.land x (Z.shiftl 1 i) = if Z.testbit x i then Z.shiftl 1 i else 0) as ->.
  { apply Z.bits_inj'. intros k Hk. rewrite Z.land_spec, Z.shiftl_1_l, Z.pow2_bits_eqb by done.
    destruct (Z.eqb_spec i k) as [->|Hne].
    - destruct (Z.testbit x k); [by rewrite Z.pow2_bits_true|by rewrite Z.bits_0].
    - rewrite andb_false_r. destruct (Z.testbit x i); [by rewrite Z.pow2_bits_false|by rewrite Z.bits_0]. }
  destruct (Z.testbit x i); [|done]. rewrite Z.shiftl_1_l. simpl. apply Z.eqb_neq.
  pose proof (Z.pow_pos_nonneg 2 i). lia.
Qed.

Lemma marked_set c n m :
  0 <= rx_bitmap c -> rx_window_base c <= n -> rx_window_base c <= m ->
  marked (set_window c (rx_window_base c) (Z.lor (rx_bitmap c) (Z.shiftl 1 (n - rx_window_base c)))) m =
    marked c m || (n =? m).
Proof.
  intros Hb Hn Hm. unfold marked. simpl. rewrite Z.lor_spec, Z.shiftl_1_l, Z.pow2_bits_eqb by lia. f_equal.
  destruct (Z.eqb_spec n m) as [->|]; [apply Z.eqb_refl|apply Z.eqb_neq; lia].
Qed.

(** One call, by where the counter lies. *)
Lemma check_replay_spec c n :
  window_ok c -> 0 <= n < U64_MAX ->
  let '(c', x) := check_replay c n in
  window_ok c' /\
  ((n < rx_window_base c /\ c' = c /\ x = Ok false) \/
   (rx_window_base c <= n < rx_window_base c + 64 /\ rx_window_base c' = rx_window_base c /\
    x = Ok (negb (marked c n)) /\
    forall m, rx_window_base c <= m -> marked c' m = marked c m || (n =? m)) \/
   (rx_window_base c + 64 <= n /\ rx_window_base c' = n - 63 /\ x = Ok true /\
    forall m, n - 63 <= m -> marked c' m = (n =? m))).
Proof.
  intros (Hb & Ho & Hm) [Hn Hn']. unfold check_replay.
  destruct (n <? _) eqn:E1; b2p; [split; [done|by left]|].
  destruct (U64_MAX <? _) eqn:E2; b2p; [lia|]. destruct (_ <=? n) eqn:E3; b2p.
  - unfold saturating_sub. rewrite (Z.max_r 0) by lia. split.
    + unfold window_ok. simpl. split_and!; try lia. apply Z.shiftl_nonneg. lia.
    + right. right. split_and!; try done. intros m Hle. unfold marked. simpl.
      replace (n - (n - 63)) with 63 by lia. rewrite Z.shiftl_1_l, Z.pow2_bits_eqb by lia.
      destruct (Z.eqb_spec n m) as [->|]; [apply Z.eqb_eq; lia|apply Z.eqb_neq; lia].
  - split.
    + unfold window_ok. simpl. split_and!; try lia. apply Z.lor_nonneg. split; [done|]. apply Z.shiftl_nonneg. lia.
    + right. left. split_and!; try done; [by rewrite land_bit by lia|]. intros m Hle. by apply marked_set.
Qed.

(** The window never moves back. *)
Lemma accepted_spec c l :
  window_ok c -> Forall (fun n => 0 <= n < U64_MAX) l ->
  let '(c', acc) := accepted c l in
  window_ok c' /\ rx_window_base c <= rx_window_base c' /\ Forall (fun n => rx_window_base c <= n) acc.
Proof.
  intros Hc Hl. revert c Hc. induction Hl as [|n l Hn _ IH]; intros c Hc; simpl; [by split_and!|].
  pose proof (check_replay_spec c n Hc Hn) as Hs. destruct (check_replay c n) as [c1 x]. destruct Hs as [Hc1 Hs].
  specialize (IH c1 Hc1). destruct (accepted c1 l) as [c2 rest]. destruct IH as (Hc2 & Hle & Hrest).
  assert (rx_window_base c <= rx_window_base c1) as H1 by (destruct Hs as [(? & -> & _)|[(? & -> & _)|(? & -> & _)]]; lia).
  assert (Forall (fun n => rx_window_base c <= n) rest) as Hr by (eapply Forall_impl; [exact Hrest|simpl; lia]).
  split_and!; try done; [lia|].
  destruct Hs as [(? & _ & ->)|[(? & _ & -> & _)|(? & _ & -> & _)]]; try done.
  - destruct (negb _); [|done]. constructor; [lia|done].
  - constructor; [lia|done].
Qed.

(** While no counter moves the window, none passes that is marked, nor twice. *)
Lemma accepted_unmarked c l :
  window_ok c -> Forall (fun n => 0 <= n < rx_window_base c + 64) l ->
  Forall (fun n => marked c n = false) (accepted c l).2 /\ NoDup (accepted c l).2.
Proof.
  remember (rx_window_base c) as b eqn:Eb. revert c Eb.
  induction l as [|n l IH]; intros c -> Hc Hl; simpl; [split; constructor|].
  apply Forall_cons in Hl as [Hn Hl]. pose proof Hc as (_ & Ho & _).
  pose proof (check_replay_spec c n Hc ltac:(lia)) as Hs.
  destruct (check_replay c n) as [c1 x]. destruct Hs as [Hc1 Hs].
  destruct Hs as [(? & -> & ->)|[(? & Eb & -> & Hm)|(? & _)]]; [| |lia].
  - specialize (IH c eq_refl Hc1 Hl). by destruct (accepted c l).
  - specialize (IH c1 (eq_sym Eb) Hc1 Hl).
    assert (Forall (fun n => 0 <= n < U64_MAX) l) as Hl' by (eapply Forall_impl; [exact Hl|simpl; lia]).
    pose proof (accepted_spec c1 l Hc1 Hl') as Hge. destruct (accepted c1 l) as [c2 rest].
    destruct IH as [Hun Hnd], Hge as (_ & _ & Hge). simpl in *.
    assert (Forall (fun m => marked c m = false /\ n <> m) rest) as Hr.
    { rewrite Forall_forall in Hun, Hge |- *. intros m Hin. specialize (Hun m Hin). specialize (Hge m Hin).
      rewrite Hm, orb_false_iff in Hun by (rewrite <- Eb; lia). destruct Hun. split; [done|]. by apply Z.eqb_neq. }
    destruct (marked c n) eqn:En; simpl; split; try constructor; try done.
    1,2: eapply Forall_impl; [exact Hr|by intros m [? _]].
    intros Hin. rewrite Forall_forall in Hr. by destruct (Hr n Hin).
Qed.

(** C38: the replay window of an AF_XDP session.  Counters below the window
    are refused for good, and as long as no counter lies beyond the window none
    passes twice.  A counter beyond it passes and leaves a window that knows of
    no other counter: each of the 63 before it passes once more, whether or not
    it was received before. *)
Theorem afxdp_replay_window c :
  window_ok c ->
  (forall l, Forall (fun n => 0 <= n < U64_MAX) l -> Forall (fun n => rx_window_base c <= n) (accepted c l).2) /\
  (forall l, Forall (fun n => 0 <= n < rx_window_base c + 64) l -> NoDup (accepted c l).2) /\
  (forall k n, rx_window_base c + 64 <= k < U64_MAX -> k - 63 <= n < k ->
     (accepted c [k; n; k; n]).2 = [k; n]).
Proof.
  intros Hc. split_and!.
  - intros l Hl. pose proof (accepted_spec c l Hc Hl) as Hs. destruct (accepted c l). apply Hs.
  - intros l Hl. by apply accepted_unmarked.
  - intros k n Hk Hn. pose proof Hc as (? & _). simpl.
    pose proof (check_replay_spec c k Hc ltac:(lia)) as Hs. destruct (check_replay c k) as [c1 x1].
    destruct Hs as [Hc1 [(? & _)|[(? & _)|(_ & B1 & -> & M1)]]]; [lia..|].
    pose proof (check_replay_spec c1 n Hc1 ltac:(lia)) as Hs. destruct (check_replay c1 n) as [c2 x2].
    destruct Hs as [Hc2 [(? & _)|[(_ & B2 & -> & M2)|(? & _)]]]; [lia| |lia].
    pose proof (check_replay_spec c2 k Hc2 ltac:(lia)) as Hs. destruct (check_replay c2 k) as [c3 x3].
    destruct Hs as [Hc3 [(? & _)|[(_ & B3 & -> & M3)|(? & _)]]]; [lia| |lia].
    pose proof (check_replay_spec c3 n Hc3 ltac:(lia)) as Hs. destruct (check_replay c3 n) as [c4 x4].
    destruct Hs as [_ [(? & _)|[(_ & _ & -> & _)|(? & _)]]]; [lia| |lia].
    rewrite M3, M2, !M1 by lia. rewrite M2, M1 by lia. rewrite !Z.eqb_refl.
    rewrite (proj2 (Z.eqb_neq k n)), (proj2 (Z.eqb_neq n k)) by lia. done.
Qed.

End Window.
End XdpWindow.

(** * The workers *)

Module XdpSafety.
Import SessionCrypto XdpWindow.

(** [PrecomputedKey::decrypt] succeeds only on a sealed buffer, and leaves
    what was sealed. *)
Section Opening.
Context {R : RingAead} {L : RingAeadLaws}.

Lemma precomputed_decrypt_yields key prefix counter aad ct buf :
  bytes_ok ct -> len prefix = 4 ->
  yields (PrecomputedKey.decrypt key prefix counter aad ct buf) (fun '(out, m) =>
    0 <= m <= len out /\ exists n c tag,
      try_assume_unique_for_key (prefix ++ be_bytes 8 counter) = Some n /\
      seal_in_place_separate_tag key n aad (slice out 0 m) = Some (c, tag) /\ ct = c ++ tag).
Proof.
  intros Hb Hp. unfold PrecomputedKey.decrypt. destruct (len ct <? TAG_SIZE) eqn:E1; [done|].
  destruct (len buf <? len ct) eqn:E2; [done|]. b2p.
  destruct (split_at (length ct) buf) as (o1 & o2 & -> & H1); [unfold len in *; lia|].
  assert (len o1 = len ct) as L1 by (unfold len; lia).
  rewrite copy_prefix' by done. sbind. rewrite build_nonce_eq by done. sbind.
  destruct (try_assume_unique_for_key _) as [n|] eqn:Hn; [|done]. sbind.
  unfold open_slice. rewrite (range_rest_at _ 0 ct o2 _ (rest_at_start _)) by lia. sbind.
  destruct (open_in_place key n aad ct) as [opened [k|]] eqn:Ho; [|done]. cbn [ok_or rbind].
  destruct (seal_open _ _ _ _ _ _ Hb Ho) as (Hk & Hl & Hk0 & _ & c & tag & Hs & Heq).
  rewrite copy_prefix' by lia. cbn [rbind yields]. rewrite <- Hk.
  pose proof (len_nonneg o2). unfold TAG_SIZE in *. split; [rewrite len_app; lia|].
  exists n, c, tag. split_and!; [done| |done]. rewrite <- Hs. f_equal.
  unfold slice. rewrite !drop_0, take_app_le; [done|]. unfold len in *. lia.
Qed.

End Opening.

Section Worker.
Context {R : RingAead} {L : RingAeadLaws}.

(** The keys of a session. *)
Definition material (c : t) : Z * LessSafeKey * LessSafeKey * list Z * Z :=
  (session_id c, tx_key c, rx_key c, nonce_prefix c, key_id c).

Definition crypto_ok (c : t) : Prop := window_ok c /\ len (nonce_prefix c) = 4.

Lemma check_replay_material c n : material (fst (check_replay c n)) = material c.
Proof. unfold check_replay. destruct (_ <? _); [done|]. destruct (_ <? _); [done|]. by destruct (_ <=? _). Qed.

(** Only the tokens differ. *)
Definition same_but_tokens (c c' : t) : Prop := exists p b u, c' = set_tokens c p b u.

Lemma check_rate_limit_tokens c now n : same_but_tokens c (fst (check_rate_limit c now n)).
Proof.
  assert (same_but_tokens c c) as Hrefl by (exists (packet_tokens c), (byte_tokens c), (last_refill_us c); by destruct c).
  assert (same_but_tokens c (refill_rate_tokens c now)) as Hfill.
  { unfold refill_rate_tokens. destruct (_ <? 1000); [done|]. by eexists _, _, _. }
  unfold check_rate_limit. destruct (_ && _); [done|]. destruct Hfill as (p & b & u & ->).
  destruct (_ && _); [by eexists _, _, _|]. destruct (0 <? rate_limit_bps _); [|by eexists _, _, _].
  destruct (n <=? _); by eexists _, _, _.
Qed.

(** A window that may have seen the largest counter. *)
Definition held_ok (c : t) : Prop := 0 <= rx_window_base c <= U64_MAX - 63 /\ len (nonce_prefix c) = 4.

(** The window has seen the largest counter, and [n] lies in it: the check
    overflows. *)
Definition saturated (c : t) (n : Z) : Prop := rx_window_base c = U64_MAX - 63 /\ rx_window_base c <= n.

Lemma check_replay_bounded c n :
  held_ok c -> 0 <= n <= U64_MAX ->
  held_ok (fst (check_replay c n)) /\ (snd (check_replay c n) = Panic <-> saturated c n).
Proof.
  intros [Hw Hp] Hn. unfold check_replay, saturated, saturating_sub.
  destruct (n <? _) eqn:E1; b2p; [split; [done|]; split; [done|lia]|].
  destruct (U64_MAX <? _) eqn:E2; b2p; [split; [done|]; split; [lia|done]|].
  destruct (_ <=? n) eqn:E3; b2p; (split; [split; [simpl; lia|done]|]); split; done || lia.
Qed.

(** A data packet at a worker: the session keeps its keys, what is delivered
    was sealed under the receiving key and the nonce prefix of the session, with
    a counter its window takes, and the worker aborts only on a packet so sealed
    that a saturated window is to check. *)
Lemma receive_data_spec c now h packet buf :
  held_ok c -> bytes_ok packet -> PacketHeader.decode packet = Ok h ->
  let '(c', x) := XdpWorker.receive_data c now h packet buf in
  held_ok c' /\ material c' = material c /\
  match x with
  | Ok p => forall plain, p = Some plain ->
      Session.sealed_packet (rx_key c) (nonce_prefix c) h plain packet /\
      snd (check_replay c (PacketHeader.counter h)) = Ok true
  | Err e => match e with end
  | Panic => saturated c (PacketHeader.counter h) /\
      exists plain, Session.sealed_packet (rx_key c) (nonce_prefix c) h plain packet
  end.
Proof.
  intros Hok Hb Hd. pose proof Hok as [Hw Hp]. destruct (PacketHeader.decode_inv _ _ Hb Hd) as (Hwf & Hnorm & r & ->).
  pose proof (PacketHeader.len_wire h) as Lw. unfold XdpWorker.receive_data.
  rewrite (range_rest_at_end _ (PacketHeader.encoded_size h) r) by (by exists (PacketHeader.wire h)). cbn [rbind].
  rewrite (range_rest_at _ 0 (PacketHeader.wire h) r _ (rest_at_start _)) by lia. cbn [rbind]. unfold decrypt.
  apply bytes_ok_app in Hb as [_ Hbr].
  pose proof (precomputed_decrypt_yields (rx_key c) (nonce_prefix c) (PacketHeader.counter h) (PacketHeader.wire h)
    r buf Hbr Hp) as Hy.
  destruct (PrecomputedKey.decrypt _ _ _ _ _ _) as [[out m]|e|]; [|done|done].
  destruct Hy as (Hm & n & ct & tag & Hn & Hseal & ->).
  assert (0 <= PacketHeader.counter h <= U64_MAX) as Hcr.
  { assert (u64 (PacketHeader.counter h)) as Hu by apply Hwf. unfold uint, U64_MAX in *. lia. }
  destruct (check_replay_bounded c _ Hok Hcr) as [Hok1 Hs].
  pose proof (check_replay_material c (PacketHeader.counter h)) as Hmat.
  destruct (check_replay c (PacketHeader.counter h)) as [c1 x]. cbn [fst snd] in *.
  assert (Session.sealed_packet (rx_key c) (nonce_prefix c) h (slice out 0 m) (PacketHeader.wire h ++ ct ++ tag))
    as Hpkt by by exists n, ct, tag.
  destruct x as [[]|[]|]; [|done|split_and!; [done|done|by apply Hs|by eexists]].
  pose proof (check_rate_limit_tokens c1 now m) as Hr. destruct (check_rate_limit c1 now m) as [c2 allowed].
  destruct Hr as (p & q & u & Hr). simpl in Hr. subst c2. split_and!; [done|done|].
  destruct allowed; [|done]. simpl. rewrite range_ok by lia. simpl. by intros plain [= <-].
Qed.

End Worker.
End XdpSafety.

(** * The bridge *)

Module XdpBridge.
Import VpnServer ServerSafety AfXdpServer.

Section Bridge.
Context {R : RingAead} {RL : RingAeadLaws} {D : RingDigest} {DL : RingDigestLaws}.
Context {M : MlDsa} {ML : MlDsaLaws} {K : KemPrimitives} {KL : KemLaws} {H : Hkdf} {HL : HkdfLaws}.
Context {A2 : Argon2}.
Context {IS : SetIter Z} {IR : HashIter (SocketAddr.t * Z) Entry.t}.
Context {I1 : HashIter (list Z * IpAddr.t) TupleEntry.t} {I2 : HashIter IpAddr.t IpEntry.t}
  {I3 : HashIter (list Z) UsernameEntry.t}.

Notation live s := (SessionManager.get_session (sessions s)).
Notation emitted s := (SessionManager.lifecycle_cb (sessions s)).

(** What is followed of a session: its keys, or only that it lives. *)
Variable full : bool.

Definition view (c : ClientSession.t) : option (SessionKeys.t * Z) :=
  if full then Some (Session.keys (ClientSession.session c), Session.key_id (ClientSession.session c)) else None.

Definition viewed (s : t) (id : Z) := option_map view (live s id).

(** From [s] to [s'] the events [es] were emitted; a session of [s] is as it
    was or its removal is among them. *)
Definition kept (es : list SessionLifecycleEvent.t) (s s' : t) : Prop :=
  emitted s' = option_map (fun l => l ++ es) (emitted s) /\
  forall id, SessionLifecycleEvent.Removed id ∈ es \/ viewed s id = None \/ viewed s' id = viewed s id.

Definition tracked (s s' : t) : Prop := exists es, kept es s s'.

Lemma tracked_same s s' : emitted s' = emitted s -> (forall id, viewed s' id = viewed s id) -> tracked s s'.
Proof.
  intros He Hv. exists []. split; [|by auto]. rewrite He. destruct (emitted s); [|done]. simpl. by rewrite app_nil_r.
Qed.

Lemma tracked_sessions s s' : sessions s' = sessions s -> tracked s s'.
Proof. intros He. apply tracked_same; [by rewrite He|]. intros id. unfold viewed. by rewrite He. Qed.

Lemma tracked_trans s1 s2 s3 : tracked s1 s2 -> tracked s2 s3 -> tracked s1 s3.
Proof.
  intros (es & He & Hk) (es' & He' & Hk'). exists (es ++ es'). split.
  - rewrite He', He. destruct (emitted s1); [|done]. simpl. by rewrite app_assoc.
  - intros id. destruct (Hk id) as [Hr|[Hn|Hv]]; [left; set_solver|by auto|].
    destruct (Hk' id) as [Hr|[Hn|Hv']]; [left; set_solver|right; left; congruence|right; right; congruence].
Qed.

Lemma tracked_put s id c c' : live s id = Some c -> view c' = view c -> tracked s (put s id c').
Proof.
  intros Hc Hv. apply tracked_same; [done|]. intros id'. unfold viewed. rewrite put_table.
  destruct (decide (id = id')) as [<-|]; [|done]. rewrite Hc. simpl. by rewrite Hv.
Qed.

Lemma tracked_put2 s id c c1 c2 : live s id = Some c -> view c2 = view c -> tracked s (put (put s id c1) id c2).
Proof.
  intros Hc Hv. apply tracked_same; [done|]. intros id'. unfold viewed. rewrite !put_table.
  destruct (decide (id = id')) as [<-|]; [|done]. rewrite Hc. simpl. by rewrite Hv.
Qed.

Lemma tracked_remove s id : tracked s (remove s id).
Proof.
  destruct (live s id) as [c|] eqn:Hc.
  - exists [SessionLifecycleEvent.Removed id]. split.
    + unfold remove, SessionManager.remove_session. cbn [sessions set_sessions].
      unfold SessionManager.get_session in Hc. by rewrite Hc.
    + intros id'. unfold viewed, remove. cbn [sessions set_sessions]. rewrite remove_get.
      destruct (decide (id = id')) as [<-|]; [left; set_solver|by auto].
  - apply tracked_sessions. unfold remove, SessionManager.remove_session. cbn [sessions set_sessions].
    unfold SessionManager.get_session in Hc. by rewrite Hc.
Qed.

Lemma tracked_addr s id addr : tracked s (set_sessions s (SessionManager.update_client_addr (sessions s) id addr)).
Proof.
  unfold SessionManager.update_client_addr. destruct (SessionManager.sessions _ !! id) as [c|] eqn:Hc;
    [|by apply tracked_sessions].
  apply tracked_same; [done|]. intros id'. unfold viewed, SessionManager.get_session. simpl.
  destruct (decide (id = id')) as [<-|]; [|by rewrite lookup_insert_ne].
  by rewrite lookup_insert_eq, Hc.
Qed.

(** Creating a session removes one of the same identifier first. *)
Lemma create_emits m k session addr level :
  let id := Session.session_id session in
  let '(m', _) := SessionManager.create_session_dual_stack_with_level m k session addr level in
  exists es, SessionManager.lifecycle_cb m' = option_map (fun l => l ++ es) (SessionManager.lifecycle_cb m) /\
    (is_Some (SessionManager.get_session m id) -> SessionLifecycleEvent.Removed id ∈ es).
Proof.
  intros id. unfold SessionManager.create_session_dual_stack_with_level. fold id.
  set (m0 := fst (SessionManager.remove_session m id)).
  assert (exists es, SessionManager.lifecycle_cb m0 = option_map (fun l => l ++ es) (SessionManager.lifecycle_cb m) /\
    (is_Some (SessionManager.get_session m id) -> SessionLifecycleEvent.Removed id ∈ es)) as (es & He & Hr).
  { unfold m0, SessionManager.remove_session, SessionManager.get_session. destruct (_ !! id) as [c|].
    - exists [SessionLifecycleEvent.Removed id]. split; [done|]. intros _. set_solver.
    - exists []. simpl. split; [destruct (SessionManager.lifecycle_cb m); simpl; by rewrite ?app_nil_r|]. by intros [? [=]]. }
  clearbody m0.
  assert (forall m', SessionManager.lifecycle_cb m' = SessionManager.lifecycle_cb m0 ->
    exists es, SessionManager.lifecycle_cb m' = option_map (fun l => l ++ es) (SessionManager.lifecycle_cb m) /\
      (is_Some (SessionManager.get_session m id) -> SessionLifecycleEvent.Removed id ∈ es)) as Hsame
    by (intros m' ->; by exists es).
  assert (forall m' c, SessionManager.lifecycle_cb m' = SessionManager.lifecycle_cb m0 ->
    exists es, SessionManager.lifecycle_cb (SessionManager.insert_session m' id c) =
      option_map (fun l => l ++ es) (SessionManager.lifecycle_cb m) /\
      (is_Some (SessionManager.get_session m id) -> SessionLifecycleEvent.Removed id ∈ es)) as Hins.
  { intros m' c Hm'. exists (es ++ [SessionLifecycleEvent.Created id]). split; [|intros Hs; apply Hr in Hs; set_solver].
    simpl. rewrite Hm', He. destruct (SessionManager.lifecycle_cb m); simpl; by rewrite ?app_assoc. }
  destruct (_ <=? _); [by apply Hsame|]. destruct (IpAllocator.allocate _) as [a4 [ip|]]; [|by apply Hsame].
  cbn [SessionManager.ipv6_allocator SessionManager.set_pools SessionManager.set_count].
  destruct (SessionManager.ipv6_allocator m0) as [a|];
    [destruct (Ipv6Allocator.allocate a) as [a6 [ip6|]]; [|by apply Hsame]|];
    (destruct (ClientSession.with_rate_limit _ _ _ _ _ _ _ _); [by apply Hins|by apply Hsame..]).
Qed.

Lemma tracked_create s k session addr level :
  ok s -> Session.wf session ->
  tracked s (set_sessions s
    (fst (SessionManager.create_session_dual_stack_with_level (sessions s) k session addr level))).
Proof.
  intros Hs Hw. pose proof (create_emits (sessions s) k session addr level) as He. cbv zeta in He.
  destruct (SessionManager.create_session_dual_stack_with_level _ _ _ _ _) as [m x] eqn:Ec.
  destruct (create_ok _ _ _ _ _ _ _ (ok_table s Hs) Hw Ec) as (_ & Hother & _).
  destruct He as (es & He & Hr). exists es. split; [done|]. intros id. unfold viewed. simpl.
  destruct (decide (id = Session.session_id session)) as [->|Hne]; [|right; right; by rewrite Hother].
  destruct (live s _) as [c|] eqn:Hc; [|by auto]. left. apply Hr. by eexists.
Qed.

Lemma tracked_attempt {A B} s s1 (x : result A B) {C} (k : B -> t * result Empty_set (list C)) :
  tracked s s1 -> (forall a, x = Ok a -> tracked s (fst (k a))) -> tracked s (fst (attempt x s1 k)).
Proof. destruct x; simpl; auto. Qed.

Lemma tracked_attempt_or {A B C} s (x : result A B) (o : t * C) (k : B -> t * result Empty_set C) :
  tracked s (fst o) -> (forall a, x = Ok a -> tracked s (fst (k a))) -> tracked s (fst (attempt_or x o k)).
Proof. destruct x; simpl; auto. Qed.

(** Only rekeying changes the keys of a session. *)
Lemma decrypt_message_view c now data : view (fst (decrypt_message c now data)) = view c.
Proof.
  assert (let s := fst (Session.decrypt_packet (ClientSession.session c) now data (replicate (length data) 0)) in
    Session.keys s = Session.keys (ClientSession.session c) /\
    Session.key_id s = Session.key_id (ClientSession.session c)) as [Hk Hi].
  { unfold Session.decrypt_packet. cbv zeta.
    match goal with |- context [match ?o with _ => _ end] => destruct o as [[[out h] m]|e|] end; try done.
    unfold Session.update_recv_counter. destruct (AntiReplayWindow.check_and_update _ _) as [w b]. by destruct b. }
  unfold decrypt_message, Workers.decrypt_for, view. destruct (Session.decrypt_packet _ _ _ _) as [s x].
  simpl in *. by rewrite Hk, Hi.
Qed.

Lemma encrypt_for_view c ty payload buf : view (fst (Workers.encrypt_for c ty payload buf)) = view c.
Proof.
  assert (let s := fst (Session.encrypt_packet (ClientSession.session c) ty payload buf) in
    Session.keys s = Session.keys (ClientSession.session c) /\
    Session.key_id s = Session.key_id (ClientSession.session c)) as [Hk Hi].
  { unfold Session.encrypt_packet, Session.next_send_counter. cbv zeta. destruct (_ <=? _); [done|].
    match goal with |- context [match ?o with _ => _ end] => destruct o as [[out n]|e|] end; done. }
  unfold Workers.encrypt_for, view. destruct (Session.encrypt_packet _ _ _ _) as [s x].
  simpl in *. by rewrite Hk, Hi.
Qed.

Lemma encrypt_answer_view c ty payload : view (fst (encrypt_answer c ty payload)) = view c.
Proof.
  unfold encrypt_answer. set (buf := replicate _ 0). pose proof (encrypt_for_view c ty payload buf) as Hv.
  by destruct (Workers.encrypt_for _ _ _ _).
Qed.

Lemma update_keys_view c keys :
  snd (Session.update_keys (ClientSession.session c) keys) <> Ok tt ->
  view (Workers.with_session c (fst (Session.update_keys (ClientSession.session c) keys))) = view c.
Proof.
  unfold Session.update_keys. destruct (PrecomputedKey.new _); [|done..]. by destruct (PrecomputedKey.new _).
Qed.

(** ** The handlers *)

(** The invariant and the set-up are kept, and nothing aborts. *)
Definition held {A} (s : t) (x : t * result Empty_set A) : Prop :=
  ok (fst x) /\ same_setup s (fst x) /\ exists y, snd x = Ok y.

Lemma handled_held s P x : handled s P x -> held s x.
Proof. destruct x. intros (? & ? & l & -> & _). split_and!; try done. by exists l. Qed.

Lemma held_from {A} s s1 (x : t * result Empty_set A) : same_setup s s1 -> held s1 x -> held s x.
Proof. intros Hs (Ho & Hx & Hy). split_and!; try done. by eapply same_setup_trans. Qed.

(** A handler without what it tells the bridge. *)
Definition forget {A} (x : t * result Empty_set (list sent * A)) : t * result Empty_set (list sent) :=
  (fst x, let? (l, _) := snd x in Ok l).

Lemma forget_attempt {E A B} (x : result E A) s (b : B) k :
  forget (attempt_or x (s, ([], b)) k) = attempt x s (fun a => forget (k a)).
Proof. by destruct x. Qed.

Lemma forget_held {A} s (x : t * result Empty_set (list sent * A)) : held s (forget x) -> held s x.
Proof.
  intros (Ho & Hs & y & Hy). split_and!; try done. destruct x as [s1 [[l a]|[]|]]; [by eexists|done].
Qed.

Lemma attempt_ext {S E A B} (x : result E A) (s : S) (k k' : A -> S * result Empty_set (list B)) :
  (forall a, x = Ok a -> k a = k' a) -> attempt x s k = attempt x s k'.
Proof. destruct x; simpl; auto. Qed.

(** The sender a handler sees: an unusable address counts as the bound one. *)
Definition sender (s : t) (id : Z) (addr : SocketAddr.t) : SocketAddr.t :=
  if is_valid_afxdp_peer_addr addr then addr
  else match live s id with Some c => ClientSession.client_addr c | None => addr end.

Lemma sender_changed s id c addr :
  live s id = Some c ->
  is_valid_afxdp_peer_addr addr && negb (bool_decide (ClientSession.client_addr c = addr)) =
    negb (bool_decide (ClientSession.client_addr c = sender s id addr)).
Proof.
  intros Hc. unfold sender. rewrite Hc. destruct (is_valid_afxdp_peer_addr addr); [done|].
  simpl. by rewrite (bool_decide_true (ClientSession.client_addr c = ClientSession.client_addr c)).
Qed.

Lemma answer_init_eq s r init addr : forget (answer_init_afxdp s r init addr) = answer_init s r init addr.
Proof.
  unfold answer_init_afxdp, answer_init. cbv zeta. rewrite forget_attempt. apply attempt_ext. intros cfg _.
  rewrite forget_attempt. apply attempt_ext. intros [resp keys] _.
  rewrite forget_attempt. apply attempt_ext. intros session _.
  destruct (SessionManager.create_session_dual_stack_with_level _ _ _ _ _) as [m ips].
  rewrite forget_attempt. apply attempt_ext. intros [ip ip6] _.
  destruct (refresh_handshake_response_auth _ _ _ _ _ _) as [resp' refreshed].
  rewrite forget_attempt. apply attempt_ext. intros _ _.
  rewrite forget_attempt. apply attempt_ext. intros packets _. by destruct (Nat.eqb _ _).
Qed.

(** Keepalives and rekeys are handled as the UDP workers' are. *)
Lemma keepalive_eq s r id data addr :
  handle_keepalive_afxdp s r id data addr = handle_keepalive_internal s r id data (sender s id addr).
Proof.
  unfold handle_keepalive_afxdp, handle_keepalive_internal. destruct (live s id) as [c|] eqn:Hc; [|done].
  by rewrite (sender_changed s id c addr Hc).
Qed.

Lemma rekey_eq s r id data addr :
  forget (handle_rekey_afxdp s r id data addr) = handle_rekey_internal s r id data (sender s id addr).
Proof.
  unfold handle_rekey_afxdp, handle_rekey_internal. destruct (live s id) as [c|] eqn:Hc; [|done].
  rewrite (sender_changed s id c addr Hc). destruct (decrypt_message c _ data) as [c1 plain].
  rewrite forget_attempt. apply attempt_ext. intros p _. rewrite forget_attempt. apply attempt_ext. intros rk _.
  destruct (negb _); [done|]. destruct (negb _); [done|].
  rewrite forget_attempt. apply attempt_ext. intros [resp keys] _. destruct (encrypt_answer _ _ _) as [c2 packet].
  rewrite forget_attempt. apply attempt_ext. intros p' _. destruct (Session.update_keys _ _) as [inner upd].
  rewrite forget_attempt. by apply attempt_ext; intros _ _.
Qed.

Lemma init_held s r data addr :
  ok s -> reading_ok r -> bytes_ok data -> SocketAddr.wf addr -> held s (handle_handshake_init_afxdp s r data addr).
Proof.
  intros Hs Hr Hb Ha. unfold handle_handshake_init_afxdp. pose proof (allow_spec s r addr) as Hal.
  destruct (allow s r addr) as [s1 b]. destruct Hal as (Hset & Hses & Hrea & _).
  assert (ok s1) as Hs1 by by eapply ok_sessions. apply (held_from s s1 _ Hset).
  assert (forall s2, ok s2 -> same_setup s1 s2 -> held s1 (s2, Ok ([] : list sent, None : option Z))) as Hstop.
  { intros s2 H1 H2. split_and!; try done. by eexists. }
  destruct b; simpl negb; cbv iota; [|by apply Hstop].
  assert (exists payload, (if HEADER_SIZE <? len data then range (E:=Empty_set) data HEADER_SIZE (len data) else Ok data)
    = Ok payload /\ bytes_ok payload) as (payload & -> & Hp).
  { destruct (HEADER_SIZE <? len data) eqn:El; b2p; [|by exists data]. eexists.
    rewrite range_ok by (unfold HEADER_SIZE in *; lia). split; [done|]. by apply bytes_ok_slice. }
  cbn [attempt_or]. pose proof (HandshakeInit.init_total payload Hp) as Hit.
  destruct (HandshakeInit.from_bytes payload) as [init|e|] eqn:Ei; [|by apply Hstop|done]. cbn [attempt_or].
  apply HandshakeInit.init_sound in Ei as Hwf; [|done].
  pose proof (accept_init_spec s1 r init addr Hwf) as Hacc.
  destruct (accept_init s1 r init addr) as [s2 x]. destruct Hacc as (Hset2 & Hses2 & Hrea2 & Hx).
  assert (ok s2) as Hs2 by by eapply ok_sessions. destruct x as [u|e|]; [|by apply Hstop|done]. cbn [attempt_or].
  apply (held_from s1 s2 _ Hset2), forget_held. rewrite answer_init_eq.
  pose proof (answer_init_spec s2 r init addr Hs2 Hr Ha) as Hans. destruct (answer_init s2 r init addr) as [s3 out].
  destruct Hans as (Hok & Hset3 & (l & -> & _) & _). split_and!; try done. by eexists.
Qed.

Lemma control_held s r id data addr :
  ok s -> bytes_ok data -> SocketAddr.wf addr -> held s (handle_control_afxdp s r id data addr).
Proof.
  intros Hs Hb Ha. unfold handle_control_afxdp.
  assert (forall s1, ok s1 -> same_setup s s1 -> held s (s1, Ok ([] : list sent, None : option Z))) as Hstop.
  { intros s1 H1 H2. split_and!; try done. by eexists. }
  destruct (live s id) as [c|] eqn:Hc; [|by apply Hstop].
  pose proof (decrypt_message_spec c (now (table_clock r)) data (proj2 (ok_table s Hs) id c Hc) Hb) as Hd.
  destruct (decrypt_message c (now (table_clock r)) data) as [c1 x]. destruct Hd as [Hsame Hx].
  destruct (put_kept s id c c1 Hs Hc Hsame) as (Hs1 & Hset1 & _).
  destruct x as [plain|e|]; [|by apply Hstop|done]. destruct Hx as (Hpb & _). cbn [attempt_or].
  pose proof (ControlMessage.control_total plain Hpb) as Hkt.
  destruct (ControlMessage.from_bytes plain) as [m|e|]; [|by apply Hstop|done]. cbn [attempt_or].
  pose proof (put_self s id c1) as Hg1.
  assert (forall s2 c2, ok s2 -> same_setup s s2 -> live s2 id = Some c2 ->
    held s (let '(s, out) := send_rebind_ack_afxdp s2 r id in (s, let? out := out in Ok (out, None : option Z)))) as Hack.
  { intros s2 c2 Hs2 Hset2 Hg2. change send_rebind_ack_afxdp with send_rebind_ack_internal.
    pose proof (rebind_ack_spec s2 r id c2 Hs2 Hg2) as Hk. destruct (send_rebind_ack_internal s2 r id) as [s3 out].
    destruct Hk as (Hs3 & Hset3 & l & -> & _). split_and!; [done|by eapply same_setup_trans|by eexists]. }
  destruct (ControlMessage.control_type m); try (by apply Hstop).
  - destruct (is_valid_afxdp_peer_addr addr); [|by eapply Hack].
    destruct (update_addr_ok _ id c1 addr Hs1 Hg1 Ha) as (Hs2 & Hg2 & _). by eapply Hack.
  - split_and!; [by apply remove_ok|done|by eexists].
Qed.

Lemma reader_held s packet buf :
  ok s -> bytes_ok packet -> len packet <= MAX_PACKET_SIZE -> held s (tun_reader s packet buf).
Proof.
  intros Hs Hb Hl. unfold tun_reader.
  destruct (DataPath.dest_session_spec (sessions s) packet (proj1 (ok_table s Hs))) as (d & -> & Hd).
  assert (forall s1, ok s1 -> same_setup s s1 -> held s (s1, Ok ([] : list sent))) as Hstop.
  { intros s1 H1 H2. split_and!; try done. by eexists. }
  cbn [attempt]. destruct d as [[id a]|]; [|by apply Hstop]. destruct (live s id) as [c|] eqn:Hc; [|by apply Hstop].
  assert (len packet <= MAX_SEAL) as Hms by (unfold MAX_PACKET_SIZE, MAX_SEAL in *; lia).
  pose proof (DataPath.encrypt_for_spec c MessageType.Data packet buf (proj2 (ok_table s Hs) id c Hc) Hb Hms) as He.
  cbv zeta in He. destruct (Workers.encrypt_for _ _ _ _) as [c1 x]. destruct He as [Hsame Hx].
  destruct (put_kept s id c c1 Hs Hc Hsame) as (Hs1 & Hset1 & _).
  destruct x as [[out|]|e|]; [|by apply Hstop|done|done]. cbn [attempt].
  destruct (put_kept s id c (ClientSession.add_bytes_sent c1 (len out)) Hs Hc) as (Hs2 & Hset2 & _); [done|].
  split_and!; try done. by eexists.
Qed.

(** ** What the bridge hears of *)

Lemma keepalive_tracked s r id data addr : tracked s (fst (handle_keepalive_afxdp s r id data addr)).
Proof.
  unfold handle_keepalive_afxdp. destruct (live s id) as [c|] eqn:Hc; [|by apply tracked_sessions].
  pose proof (decrypt_message_view c (now (table_clock r)) data) as Hv1.
  destruct (decrypt_message c _ data) as [c1 x]. simpl in Hv1.
  pose proof (tracked_put s id c c1 Hc Hv1) as Ht1.
  apply tracked_attempt; [done|]. intros plain _. apply tracked_attempt; [done|]. intros ka _.
  destruct (_ && _); [done|]. set (c2 := ClientSession.touch c1 _).
  match goal with |- context [encrypt_answer c2 ?ty ?p] => pose proof (encrypt_answer_view c2 ty p) as Hv2;
    destruct (encrypt_answer c2 ty p) as [c3 y] end. simpl in Hv2.
  assert (tracked s (put (put s id c1) id c3)) as Ht3 by (eapply tracked_put2; [done|]; by rewrite Hv2).
  by apply tracked_attempt.
Qed.

Lemma send_ack_tracked s r id a ack : tracked s (fst (send_ack s r id a ack)).
Proof.
  unfold send_ack. destruct (live s id) as [c|] eqn:Hc; [|by apply tracked_sessions].
  match goal with |- context [encrypt_answer c ?ty ?p] => pose proof (encrypt_answer_view c ty p) as Hv;
    destruct (encrypt_answer c ty p) as [c1 y] end. simpl in Hv.
  pose proof (tracked_put s id c c1 Hc Hv). apply tracked_attempt; [done|]. intros p _. by destruct (negb _).
Qed.

Lemma rebind_ack_tracked s r id : tracked s (fst (send_rebind_ack_afxdp s r id)).
Proof.
  unfold send_rebind_ack_afxdp. destruct (live s id) as [c|]; [|by apply tracked_sessions].
  destruct (SignedRebindAckPayload.sign _ _ _ _ _); [apply send_ack_tracked..|by apply tracked_sessions].
Qed.

Lemma control_tracked s r id data addr : tracked s (fst (handle_control_afxdp s r id data addr)).
Proof.
  unfold handle_control_afxdp. destruct (live s id) as [c|] eqn:Hc; [|by apply tracked_sessions].
  pose proof (decrypt_message_view c (now (table_clock r)) data) as Hv1.
  destruct (decrypt_message c _ data) as [c1 x]. simpl in Hv1.
  pose proof (tracked_put s id c c1 Hc Hv1) as Ht1. set (s1 := put s id c1) in *.
  apply tracked_attempt_or; [done|]. intros plain _. apply tracked_attempt_or; [done|]. intros m _.
  destruct (ControlMessage.control_type m); try done.
  - set (s2 := if is_valid_afxdp_peer_addr addr then _ else _).
    assert (tracked s1 s2) as Ht2.
    { unfold s2. destruct (is_valid_afxdp_peer_addr addr); [apply tracked_addr|by apply tracked_sessions]. }
    pose proof (rebind_ack_tracked s2 r id) as Ht3. destruct (send_rebind_ack_afxdp s2 r id) as [s3 out].
    simpl in *. by eapply tracked_trans, tracked_trans.
  - simpl. eapply tracked_trans; [done|]. apply tracked_remove.
Qed.

Lemma answer_init_tracked s r init addr :
  ok s -> reading_ok r -> tracked s (fst (answer_init_afxdp s r init addr)).
Proof.
  intros Hs (Hid & _). unfold answer_init_afxdp. assert (tracked s s) as Hrefl by by apply tracked_sessions.
  apply tracked_attempt_or; [done|]. intros cfg _.
  apply tracked_attempt_or; [done|]. intros [resp keys] Ep.
  apply tracked_attempt_or; [done|]. intros session En.
  assert (Session.wf session) as Hw.
  { eapply Session.new_wf; [exact Hid| |exact En]. 
    match type of Ep with ?p = _ => pose proof (process_init_yields _ _ _ _ _ _ _ _ _ : yields p _) as Hy end.
    rewrite Ep in Hy. apply Hy. }
  pose proof (tracked_create s (table_clock r) session addr (HandshakeInit.security_level init) Hs Hw) as Hc.
  destruct (SessionManager.create_session_dual_stack_with_level _ _ _ _ _) as [m ips]. simpl in Hc.
  apply tracked_attempt_or; [done|]. intros [ip ip6] _.
  destruct (refresh_handshake_response_auth _ _ _ _ _ _) as [resp' refreshed].
  assert (tracked s (remove (set_sessions s m) (generated_id r))) as Hr by (eapply tracked_trans; [done|apply tracked_remove]).
  apply tracked_attempt_or; [done|]. intros _ _. apply tracked_attempt_or; [done|]. intros packets _.
  by destruct (Nat.eqb _ _).
Qed.

Lemma init_tracked s r data addr :
  ok s -> reading_ok r -> bytes_ok data -> tracked s (fst (handle_handshake_init_afxdp s r data addr)).
Proof.
  intros Hs Hr Hb. unfold handle_handshake_init_afxdp. pose proof (allow_spec s r addr) as Hal.
  destruct (allow s r addr) as [s1 b]. destruct Hal as (Hset & Hses & Hrea & _).
  pose proof (tracked_sessions s s1 Hses) as Ht. destruct b; [|done]. simpl negb. cbv iota.
  apply tracked_attempt_or; [done|]. intros payload Ep. apply tracked_attempt_or; [done|]. intros init Ei.
  assert (bytes_ok payload) as Hp.
  { destruct (HEADER_SIZE <? len data); [|by injection Ep as <-].
    apply range_inv in Ep as (_ & _ & _ & -> & _). by apply bytes_ok_slice. }
  apply HandshakeInit.init_sound in Ei as Hwf; [|done].
  pose proof (accept_init_spec s1 r init addr Hwf) as Hacc.
  destruct (accept_init s1 r init addr) as [s2 x]. destruct Hacc as (_ & Hses2 & Hrea2 & _).
  pose proof (tracked_trans _ _ _ Ht (tracked_sessions s1 s2 Hses2)) as Ht2.
  apply tracked_attempt_or; [done|]. intros _ _. eapply tracked_trans; [exact Ht2|].
  apply answer_init_tracked; [|done]. eapply ok_sessions; [exact Hses2|exact Hrea2|]. by eapply ok_sessions.
Qed.

(** A rekey the bridge is told of, or one that left the keys as they were. *)
Lemma rekey_tracked s r id data addr :
  (full = true -> accepts r 0 = true) ->
  let '(s', x) := handle_rekey_afxdp s r id data addr in
  tracked s s' \/
  (emitted s' = emitted s /\ (forall id', id' <> id -> viewed s' id' = viewed s id') /\
   is_Some (live s' id) /\ exists l, x = Ok (l, true)).
Proof.
  intros Hroom. unfold handle_rekey_afxdp.
  destruct (live s id) as [c|] eqn:Hc; [|left; by apply tracked_sessions].
  pose proof (decrypt_message_view c (now (table_clock r)) data) as Hv1.
  destruct (decrypt_message c _ data) as [c1 x]. simpl in Hv1.
  pose proof (tracked_put s id c c1 Hc Hv1) as Ht1.
  destruct x as [plain|e|]; [|by left..]. cbn [attempt_or].
  destruct (RekeyMessage.from_bytes plain) as [rk|e|]; [|by left..]. cbn [attempt_or].
  destruct (_ && _); [by left|]. destruct (negb _); [by left|].
  destruct (ServerHandshake.process_rekey _ _ _ _ _ _ _ _ _) as [[resp keys]|e|]; [|by left..]. cbn [attempt_or].
  match goal with |- context [encrypt_answer c1 ?ty ?p] => pose proof (encrypt_answer_view c1 ty p) as Hv2;
    destruct (encrypt_answer c1 ty p) as [c2 y] end. simpl in Hv2.
  assert (tracked s (put (put s id c1) id c2)) as Ht2 by (eapply tracked_put2; [done|]; congruence).
  destruct y as [packet|e|]; [|by left..]. cbn [attempt_or].
  pose proof (update_keys_view c2 keys) as Hv3.
  destruct (Session.update_keys _ _) as [inner upd]. cbn [fst snd] in Hv3. set (c3 := Workers.with_session c2 inner) in *.
  assert (upd <> Ok tt -> tracked s (put (put (put s id c1) id c2) id c3)) as Ht3.
  { intros Hu. eapply tracked_trans; [exact Ht2|]. eapply tracked_put; [apply put_self|auto]. }
  destruct upd as [[]|e|]; [|left; by apply Ht3..]. cbn [attempt_or].
  set (c4 := ClientSession.touch c3 _). set (s4 := put _ id c4).
  assert (emitted s4 = emitted s /\ (forall id', id' <> id -> viewed s4 id' = viewed s id')) as [He Hother].
  { split; [done|]. intros id' Hne. unfold viewed, s4. rewrite !put_table. by rewrite !decide_False by done. }
  assert (is_Some (live s4 id)) as Hlive by (unfold s4; rewrite put_self; by eexists).
  unfold try_send. simpl. destruct (accepts r 0) eqn:Ea; [right; split_and!; [done..|by eexists]|].
  left. apply tracked_same; [done|]. intros id'. destruct (decide (id' = id)) as [->|Hne]; [|by apply Hother].
  unfold viewed, s4. rewrite put_self, Hc. simpl. unfold view. destruct full; [by specialize (Hroom eq_refl)|done].
Qed.

(** ** The tables in step *)

(** The entry has the keys of the session: but its nonce prefix, also for
    opening, is the one the session seals under. *)
Definition matches (e : SessionCrypto.t) (v : option (SessionKeys.t * Z)) : Prop :=
  match v with
  | Some (keys, key_id) =>
      PrecomputedKey.new (SessionKeys.send_key keys) = Ok (SessionCrypto.tx_key e) /\
      PrecomputedKey.new (SessionKeys.recv_key keys) = Ok (SessionCrypto.rx_key e) /\
      SessionCrypto.nonce_prefix e = SessionKeys.send_nonce_prefix keys /\ SessionCrypto.key_id e = key_id
  | None => True
  end.

Definition entry_ok (s : t) (id : Z) (e : SessionCrypto.t) : Prop :=
  XdpSafety.held_ok e /\ SessionCrypto.session_id e = id /\ exists v, viewed s id = Some v /\ matches e v.

Definition bridged (m : SessionTable.t) (s : t) : Prop := forall id e, m !! id = Some e -> entry_ok s id e.

Definition inv (x : state) : Prop :=
  ok (server x) /\ is_Some (emitted (server x)) /\ bridged (table x) (server x).

Lemma table_remove (m : SessionTable.t) id id' e :
  SessionBridge.remove_session m id !! id' = Some e -> id <> id' /\ m !! id' = Some e.
Proof. apply (lookup_delete_Some (M := gmap Z)). Qed.

Lemma table_add (m : SessionTable.t) c id e :
  SessionTable.add m c !! id = Some e ->
  (SessionCrypto.session_id c = id /\ c = e) \/ (SessionCrypto.session_id c <> id /\ m !! id = Some e).
Proof. apply (lookup_insert_Some (M := gmap Z)). Qed.

Lemma callback_lookup m es id e :
  SessionBridge.callback m es !! id = Some e -> m !! id = Some e /\ SessionLifecycleEvent.Removed id ∉ es.
Proof.
  revert m. induction es as [|ev es IH]; intros m; simpl; [intros ?; split; [done|]; set_solver|].
  intros [Hm Hn]%IH. destruct ev as [i|i]; [split; [done|]; set_solver|].
  apply table_remove in Hm as [Hne Hm]. split; [done|]. rewrite elem_of_cons. intros [[= ->]|]; done.
Qed.

Lemma propagate_bridged x s :
  is_Some (emitted (server x)) -> bridged (table x) (server x) -> tracked (server x) s ->
  is_Some (emitted s) /\ bridged (propagate x s) s.
Proof.
  intros [l Hl] Hb (es & He & Hk). rewrite Hl in He. simpl in He. split; [by eexists|].
  unfold propagate, SessionBridge.events_between. rewrite Hl, He, drop_app_length.
  intros id e [Hm Hn]%callback_lookup. destruct (Hb id e Hm) as (Hok & Hid & v & Hv & Hma).
  split_and!; try done. exists v. split; [|done]. destruct (Hk id) as [?|[?| ->]]; [done|congruence|done].
Qed.

Lemma delete_bridged m s id : bridged m s -> bridged (SessionBridge.remove_session m id) s.
Proof. intros Hb id' e [_ Hm]%table_remove. by apply Hb. Qed.

(** Syncing a session: its entry is fresh; the others are left alone. *)
Lemma sync_bridged m s now id :
  ok s -> (forall id' e, id' <> id -> m !! id' = Some e -> entry_ok s id' e) -> is_Some (live s id) ->
  bridged (fst (SessionBridge.sync_session (sessions s) m now id)) s.
Proof.
  intros Hs Hb [c Hc]. unfold SessionBridge.sync_session. rewrite Hc.
  destruct (proj2 (ok_table s Hs) id c Hc) as (_ & _ & (Hk1 & Hk2 & Hk3 & _) & _).
  unfold SessionCrypto.new, SessionCrypto.new_with_rate_limit. cbv zeta.
  destruct (LessSafeKey_new_32 _ Hk1) as [tx Htx], (LessSafeKey_new_32 _ Hk2) as [rx Hrx].
  unfold PrecomputedKey.new. rewrite Htx, Hrx. cbn [ok_or rbind fst]. intros id' e Hm.
  apply table_add in Hm as [[<- <-]|[Hne Hm]].
  - split_and!; try done. simpl. exists (view c). split; [unfold viewed; by rewrite Hc|].
    unfold matches, view. destruct full; [|done]. unfold PrecomputedKey.new. by rewrite Htx, Hrx.
  - by apply Hb.
Qed.

Lemma sync_all m s now id : ok s -> bridged m s -> bridged (fst (SessionBridge.sync_session (sessions s) m now id)) s.
Proof.
  intros Hs Hb. destruct (live s id) as [c|] eqn:Hc; [|unfold SessionBridge.sync_session; by rewrite Hc].
  apply sync_bridged; [done| |by eexists]. intros id' e _ Hm. by apply Hb.
Qed.

(** ** Control messages *)

Definition message_ok (ctrl : AfXdpControl.t) : Prop :=
  match ctrl with
  | AfXdpControl.HandshakeInit data addr | AfXdpControl.Keepalive _ data addr
  | AfXdpControl.Control _ data addr | AfXdpControl.Rekey _ data addr => bytes_ok data /\ SocketAddr.wf addr
  end.

(** For the tables to agree on the keys, no answer to a rekey may be dropped. *)
Definition answered (r : reading) (ctrl : AfXdpControl.t) : Prop :=
  match ctrl with
  | AfXdpControl.Rekey _ _ _ => full = true -> accepts r 0 = true
  | _ => True
  end.

Lemma rekey_inv x r now id data addr :
  inv x -> reading_ok r -> bytes_ok data -> SocketAddr.wf addr ->
  let '(x', y) := handle_afxdp_control x r now (AfXdpControl.Rekey id data addr) in
  ((full = true -> accepts r 0 = true) -> inv x') /\ same_setup (server x) (server x') /\ exists l, y = Ok l.
Proof.
  intros (Hs & He & Hb) Hr Hd Ha. unfold handle_afxdp_control.
  pose proof (forget_held _ _ (eq_ind_r (held _) (handled_held _ _ _ (rekey_spec (server x) r id data
    (sender (server x) id addr) Hs Hr Hd)) (rekey_eq (server x) r id data addr))) as Hh.
  pose proof (rekey_tracked (server x) r id data addr) as Ht.
  destruct (handle_rekey_afxdp (server x) r id data addr) as [s y].
  destruct Hh as (Ho & Hset & [l rekeyed] & Hy). simpl in Ho, Hset, Hy. subst y. cbn [attempt_or].
  split_and!; [|done|by exists l]. intros Hroom. destruct (Ht Hroom) as [Ht'|(Hem & Hother & Hlive & l' & [= _ ->])].
  - destruct (propagate_bridged x s He Hb Ht') as [He' Hb']. split_and!; [done|done|]. simpl.
    destruct rekeyed; [by apply sync_all|done].
  - assert (propagate x s = table x) as ->.
    { unfold propagate, SessionBridge.events_between. rewrite Hem. destruct He as [es ->]. by rewrite drop_all. }
    split_and!; [done|simpl; by rewrite Hem|]. simpl.
    apply sync_bridged; [done| |done]. intros id' e Hne Hm.
    unfold entry_ok. rewrite Hother by done. by apply Hb.
Qed.

Lemma control_inv x r now ctrl :
  inv x -> reading_ok r -> message_ok ctrl ->
  let '(x', y) := handle_afxdp_control x r now ctrl in
  (answered r ctrl -> inv x') /\ same_setup (server x) (server x') /\ exists l, y = Ok l.
Proof.
  intros Hx Hr Hm. pose proof Hx as (Hs & He & Hb).
  destruct ctrl as [data addr|id data addr|id data addr|id data addr]; destruct Hm as [Hd Ha];
    [| | |by apply rekey_inv].
  - pose proof (init_held (server x) r data addr Hs Hr Hd Ha) as Hh.
    pose proof (init_tracked (server x) r data addr Hs Hr Hd) as Ht. unfold handle_afxdp_control.
    destruct (handle_handshake_init_afxdp (server x) r data addr) as [s y].
    destruct Hh as (Ho & Hset & [l created] & Hy). simpl in Ho, Hset, Hy, Ht. subst y. cbn [attempt_or].
    destruct (propagate_bridged x s He Hb Ht) as [He' Hb']. split_and!; [|done|by exists l].
    intros _. split_and!; [done|done|]. simpl. destruct created; [by apply sync_all|done].
  - pose proof (handled_held _ _ _ (keepalive_spec (server x) r id data (sender (server x) id addr) Hs Hd)) as Hh.
    rewrite <- keepalive_eq in Hh. pose proof (keepalive_tracked (server x) r id data addr) as Ht.
    unfold handle_afxdp_control. destruct (handle_keepalive_afxdp (server x) r id data addr) as [s y].
    destruct Hh as (Ho & Hset & Hy). simpl in Ho, Hset, Hy, Ht.
    destruct (propagate_bridged x s He Hb Ht) as [He' Hb']. by split_and!.
  - pose proof (control_held (server x) r id data addr Hs Hd Ha) as Hh.
    pose proof (control_tracked (server x) r id data addr) as Ht.
    unfold handle_afxdp_control. destruct (handle_control_afxdp (server x) r id data addr) as [s y].
    destruct Hh as (Ho & Hset & [l removed] & Hy). simpl in Ho, Hset, Hy, Ht. subst y. cbn [attempt_or].
    destruct (propagate_bridged x s He Hb Ht) as [He' Hb']. split_and!; [|done|by exists l].
    intros _. split_and!; [done|done|]. simpl. destruct removed; [by apply delete_bridged|done].
Qed.

(** ** Packets *)

(** A plaintext for the TUN device: it was sealed under the receiving key of
    a session in the table, with the nonce prefix of the entry. *)
Definition opened (x : state) (packet : list Z) (plain : list Z) : Prop :=
  exists h e, PacketHeader.decode packet = Ok h /\ table x !! PacketHeader.session_id h = Some e /\
    Session.sealed_packet (SessionCrypto.rx_key e) (SessionCrypto.nonce_prefix e) h plain packet /\
    snd (SessionCrypto.check_replay e (PacketHeader.counter h)) = Ok true.

(** A packet so sealed for a session whose window has seen the largest
    counter. *)
Definition overrun (x : state) (packet : list Z) : Prop :=
  exists h e plain, PacketHeader.decode packet = Ok h /\ table x !! PacketHeader.session_id h = Some e /\
    Session.sealed_packet (SessionCrypto.rx_key e) (SessionCrypto.nonce_prefix e) h plain packet /\
    XdpSafety.saturated e (PacketHeader.counter h).

Definition answered_packet (r : reading) (packet : list Z) : Prop :=
  forall h, PacketHeader.decode packet = Ok h -> PacketHeader.msg_type h = MessageType.Rekey ->
    full = true -> accepts r 0 = true.

Lemma process_packet_inv x now pooled room packet :
  inv x -> bytes_ok packet ->
  let '(m, o) := XdpWorker.process_packet (table x) now pooled room packet in
  inv (mk_state (server x) m) /\
  match o with
  | Ok (XdpWorker.ToTun plain) => opened x packet plain
  | Ok (XdpWorker.ToControl c) =>
      m = table x /\ message_ok c /\ forall r, answered_packet r packet -> answered r c
  | Ok XdpWorker.Nothing => True
  | Err e => match e with end
  | Panic => overrun x packet
  end.
Proof.
  intros Hx Hb. unfold XdpWorker.process_packet. assert (inv (mk_state (server x) (table x))) as Hx' by by destruct x.
  destruct (len packet <? _); [done|]. pose proof (PacketHeader.decode_no_panic packet Hb) as Hp.
  destruct (PacketHeader.decode packet) as [h|e|] eqn:Hd; [|done|done].
  assert (SocketAddr.wf XdpWorker.placeholder) as Hpl by by_decide.
  destruct (PacketHeader.msg_type h) eqn:Ht; try done;
    try (split; [done|]; destruct room; [|done]; split_and!; [done..|]; intros r Hr; first [exact I|exact (Hr h Hd Ht)]).
  destruct (SessionTable.get (table x) (PacketHeader.session_id h)) as [e|] eqn:He; [|done].
  destruct pooled as [buf|]; [|done]. pose proof Hx as (Hs & Hem & Hbr).
  destruct (Hbr _ _ He) as (Hok & Hid & Hv).
  pose proof (XdpSafety.receive_data_spec e now h packet buf Hok Hb Hd) as Hr.
  destruct (XdpWorker.receive_data e now h packet buf) as [e' y]. destruct Hr as (Hok' & Hmat & Hy). split.
  - split_and!; [done|done|]. intros id d. cbn [table server].
    intros [[<- <-]|[_ Hm]]%(lookup_insert_Some (M := gmap Z)); [|by apply Hbr].
    injection Hmat as E1 E2 E3 E4 E5. split_and!; [done|congruence|]. destruct Hv as (v & Hv & Hma). exists v.
    split; [done|]. unfold matches in *. destruct v as [[k kid]|]; [|done]. by rewrite E2, E3, E4, E5.
  - destruct y as [[plain|]|[]|]; [|done|].
    + simpl in *. destruct room; [|done]. destruct (Hy plain eq_refl). by exists h, e.
    + destruct Hy as (Hsat & plain & Hseal). by exists h, e, plain.
Qed.

Lemma receive_inv x r now pooled room packet :
  inv x -> reading_ok r -> bytes_ok packet ->
  let '(x', y) := receive x r now pooled room packet in
  (answered_packet r packet -> inv x') /\
  match y with
  | Ok (_, p) => forall plain, p = Some plain -> opened x packet plain
  | Err e => match e with end
  | Panic => overrun x packet
  end.
Proof.
  intros Hx Hr Hb. unfold receive. pose proof (process_packet_inv x now pooled room packet Hx Hb) as Hp.
  destruct (XdpWorker.process_packet _ _ _ _ _) as [m o]. destruct Hp as [Hx' Ho].
  destruct o as [o|[]|]; [|done]. cbn [attempt_or]. destruct o as [plain|c|].
  - split; [done|]. by intros ? [= <-].
  - destruct Ho as (_ & Hm & Ha). pose proof (control_inv _ r now c Hx' Hr Hm) as Hk.
    destruct (handle_afxdp_control _ r now c) as [x2 y]. destruct Hk as (Hx2 & _ & l & ->). split; [|done].
    intros Hpk. by apply Hx2, Ha.
  - done.
Qed.

Lemma reader_tracked s packet buf : tracked s (fst (tun_reader s packet buf)).
Proof.
  unfold tun_reader. assert (tracked s s) as Hrefl by by apply tracked_sessions.
  apply tracked_attempt; [done|]. intros [[id a]|] _; [|done]. destruct (live s id) as [c|] eqn:Hc; [|done].
  assert (view (fst (Workers.encrypt_for c MessageType.Data packet buf)) = view c) as Hv by apply encrypt_for_view.
  destruct (Workers.encrypt_for _ _ _ _) as [c1 x]. simpl in Hv.
  apply tracked_attempt; [by eapply tracked_put|]. intros [out|] _; by eapply tracked_put.
Qed.

Lemma remove_all_tracked ids s m :
  tracked s (set_sessions s m) ->
  tracked s (set_sessions s (foldl (fun m id => fst (SessionManager.remove_session m id)) m ids)).
Proof.
  revert m. induction ids as [|id ids IH]; intros m Hm; simpl; [done|].
  apply IH. eapply tracked_trans; [exact Hm|]. apply (tracked_remove (set_sessions s m) id).
Qed.

Lemma cleanup_held {O : HashIter Z ClientSession.t} s now_ms :
  ok s -> let s' := set_sessions s (fst (SessionManager.cleanup_expired (sessions s) now_ms)) in
  ok s' /\ tracked s s'.
Proof.
  intros Hs s'. split; [|by apply remove_all_tracked, tracked_sessions].
  destruct (ok_table s Hs) as [Hi Hw].
  assert (forall id c, live s' id = Some c -> live s id = Some c) as Hsub.
  { intros id c. unfold s', SessionManager.cleanup_expired, SessionManager.get_session. simpl.
    rewrite remove_all_sessions. by destruct (decide _). }
  apply ok_set_sessions; [done| |intros id c Hc; by eapply ok_addrs, Hsub].
  split; [by apply remove_all_inv|]. intros id c Hc. by eapply Hw, Hsub.
Qed.

(** ** Reachable states *)

(** A server whose AF_XDP workers were just started, and what happens to it:
    packets, control messages, packets of the TUN device, expiry, and changes
    of the server's other tables. *)
Inductive reach {O : HashIter Z ClientSession.t} : state -> Prop :=
| reach_start s :
    ServerSafety.reach s -> emitted s = Some [] -> reach (mk_state s SessionTable.new)
| reach_packet x r now pooled room packet :
    reach x -> reading_ok r -> bytes_ok packet -> answered_packet r packet ->
    reach (fst (receive x r now pooled room packet))
| reach_control x r now ctrl :
    reach x -> reading_ok r -> message_ok ctrl -> answered r ctrl ->
    reach (fst (handle_afxdp_control x r now ctrl))
| reach_tun x packet buf :
    reach x -> bytes_ok packet -> len packet <= MAX_PACKET_SIZE ->
    let s := fst (tun_reader (server x) packet buf) in reach (mk_state s (propagate x s))
| reach_cleanup x now_ms :
    reach x ->
    let s := set_sessions (server x) (fst (SessionManager.cleanup_expired (sessions (server x)) now_ms)) in
    reach (mk_state s (propagate x s))
| reach_housekeeping x s :
    reach x -> same_setup (server x) s -> sessions s = sessions (server x) ->
    fragment_reassembly s = fragment_reassembly (server x) -> reach (mk_state s (table x)).

Lemma tracked_inv x s : inv x -> ok s -> tracked (server x) s -> inv (mk_state s (propagate x s)).
Proof. intros (_ & He & Hb) Hs Ht. destruct (propagate_bridged x s He Hb Ht). by split_and!. Qed.

Lemma bridge_reach_inv {O : HashIter Z ClientSession.t} x : reach x -> inv x.
Proof.
  induction 1 as [s Hs He|x r now pooled room packet _ IH Hr Hb Hroom|x r now ctrl _ IH Hr Hm Hroom
                 |x packet buf _ IH Hb Hl s|x now_ms _ IH s|x s _ IH Hset Hses Hrea].
  - split_and!; [by apply reach_ok|simpl; rewrite He; by eexists|].
    intros id e Hm. change ((∅ : gmap Z SessionCrypto.t) !! id = Some e) in Hm. by rewrite lookup_empty in Hm.
  - pose proof (receive_inv x r now pooled room packet IH Hr Hb) as Hk. destruct (receive _ _ _ _ _ _). by apply Hk.
  - pose proof (control_inv x r now ctrl IH Hr Hm) as Hk. destruct (handle_afxdp_control _ _ _ _). by apply Hk.
  - apply tracked_inv; [done| |apply reader_tracked]. by apply (reader_held (server x) packet buf); [apply IH|..].
  - destruct (cleanup_held (server x) now_ms) as [Hok Ht]; [apply IH|]. by apply tracked_inv.
  - destruct IH as (Hs & He & Hb). split_and!; [by eapply ok_sessions|simpl; by rewrite Hses|].
    intros id e Hm. destruct (Hb id e Hm) as (? & ? & Hv). split_and!; try done. unfold viewed in *. simpl.
    by rewrite Hses.
Qed.

(** No handshake reaches the server from a worker. *)
Lemma no_sessions_ignored x r now pooled room packet :
  inv x -> (forall id, live (server x) id = None) -> bytes_ok packet ->
  receive x r now pooled room packet = (x, Ok ([], None)).
Proof.
  intros (_ & _ & Hb) Hn Hp. destruct x as [s m]. cbn [server table] in *.
  assert (propagate (mk_state s m) s = m) as Hprop.
  { unfold propagate, SessionBridge.events_between. cbn [server table]. by rewrite drop_all. }
  unfold receive, XdpWorker.process_packet. cbn [server table]. destruct (len packet <? _); [done|].
  pose proof (PacketHeader.decode_no_panic packet Hp) as Hd.
  destruct (PacketHeader.decode packet) as [h|e|]; [|done|done]. destruct (PacketHeader.msg_type h); try done.
  - destruct (SessionTable.get m (PacketHeader.session_id h)) as [e|] eqn:He; [|done]. exfalso.
    destruct (Hb _ _ He) as (_ & _ & v & Hv & _). unfold viewed in Hv. by rewrite Hn in Hv.
  - destruct room; [|done]. cbn [attempt_or]. unfold handle_afxdp_control, handle_keepalive_afxdp. cbn [server].
    by rewrite Hn, Hprop.
  - destruct room; [|done]. cbn [attempt_or]. unfold handle_afxdp_control, handle_control_afxdp. cbn [server].
    by rewrite Hn, Hprop.
  - destruct room; [|done]. cbn [attempt_or]. unfold handle_afxdp_control, handle_rekey_afxdp. cbn [server].
    by rewrite Hn, Hprop.
Qed.

(** C37: whatever packets, control messages and packets of the TUN device
    arrive at a server running on AF_XDP, with whatever clocks, randomness and
    full queues, its invariant holds, and a session is in the table of the
    workers only while the server has it; with its current keys, if no answer to
    a rekey was ever dropped by a full queue ([full]).  Neither the task that
    serves the control channel nor the reader of the TUN device ever aborts.  A
    worker aborts only on a packet sealed for a session in the table, after one
    that was sealed with the largest counter.  What a worker hands to the TUN
    device was sealed under the receiving key of such a session and the nonce
    prefix the server sends under, with a counter its window takes.  A server
    without sessions ignores every packet: no handshake reaches it on this
    path. *)
Theorem afxdp_bridge {O : HashIter Z ClientSession.t} x :
  reach x ->
  ok (server x) /\
  (forall id e, table x !! id = Some e ->
     exists c, live (server x) id = Some c /\
       (full = true ->
          let s := ClientSession.session c in let keys := Session.keys s in
          PrecomputedKey.new (SessionKeys.send_key keys) = Ok (SessionCrypto.tx_key e) /\
          PrecomputedKey.new (SessionKeys.recv_key keys) = Ok (SessionCrypto.rx_key e) /\
          SessionCrypto.nonce_prefix e = SessionKeys.send_nonce_prefix keys /\
          SessionCrypto.key_id e = Session.key_id s)) /\
  (forall r now pooled room packet, reading_ok r -> bytes_ok packet ->
     match snd (receive x r now pooled room packet) with
     | Ok (_, p) => forall plain, p = Some plain -> opened x packet plain
     | Err e => match e with end
     | Panic => overrun x packet
     end) /\
  (forall r now ctrl, reading_ok r -> message_ok ctrl ->
     exists l, snd (handle_afxdp_control x r now ctrl) = Ok l) /\
  (forall packet buf, bytes_ok packet -> len packet <= MAX_PACKET_SIZE ->
     exists l, snd (tun_reader (server x) packet buf) = Ok l) /\
  ((forall id, live (server x) id = None) -> forall r now pooled room packet,
     bytes_ok packet -> receive x r now pooled room packet = (x, Ok ([], None))).
Proof.
  intros Hx%bridge_reach_inv. pose proof Hx as (Hs & _ & Hb). split; [done|]. split; [|split; [|split; [|split]]].
  - intros id e Hm. destruct (Hb id e Hm) as (_ & _ & v & Hv & Hma). unfold viewed in Hv.
    destruct (live (server x) id) as [c|]; [|done]. injection Hv as <-. exists c. split; [done|].
    intros Hf. unfold matches, view in Hma. by rewrite Hf in Hma.
  - intros r now pooled room packet Hr Hp. pose proof (receive_inv x r now pooled room packet Hx Hr Hp) as Hk.
    destruct (receive x r now pooled room packet). apply Hk.
  - intros r now ctrl Hr Hm. pose proof (control_inv x r now ctrl Hx Hr Hm) as Hk.
    destruct (handle_afxdp_control x r now ctrl). apply Hk.
  - intros packet buf Hp Hl. by apply (reader_held (server x) packet buf).
  - intros Hn r now pooled room packet Hp. by apply no_sessions_ignored.
Qed.

End Bridge.
End XdpBridge.

(** * The data path of the crate *)

Module XdpRoundtrip.
Import SessionCrypto XdpWindow XdpSafety XdpDataPath.

Section Roundtrip.
Context {R : RingAead} {L : RingAeadLaws}.

Lemma precomputed_encrypt_ok key prefix counter aad p buf :
  bytes_ok p -> len p <= MAX_SEAL -> len prefix = 4 -> counter < U64_MAX - 1 -> len p + TAG_SIZE <= len buf ->
  exists n c tag rest,
    PrecomputedKey.encrypt key prefix counter aad p buf = Ok ((c ++ tag) ++ rest, len p + TAG_SIZE) /\
    try_assume_unique_for_key (prefix ++ be_bytes 8 counter) = Some n /\
    seal_in_place_separate_tag key n aad p = Some (c, tag) /\ len (c ++ tag) = len p + TAG_SIZE /\
    len rest = len buf - len p - TAG_SIZE /\ bytes_ok (c ++ tag).
Proof.
  intros Hb Hp Hpre Hc Hl. destruct (nonce_12 (prefix ++ be_bytes 8 counter)) as [n Hn];
    [by rewrite len_app, len_be_bytes, Hpre|].
  destruct (split_at (length p) buf) as (o1 & o2 & -> & Ho1); [unfold len, TAG_SIZE in *; lia|].
  destruct (seal_prefix key n aad p o2 Hb Hp) as (c & tag & Hs & Hs' & Lc & Lt & Bc & Bt).
  assert (len o1 = len p) as Lo1 by (unfold len; lia). rewrite len_app in Hl. pose proof (len_nonneg p).
  exists n, c, tag, (drop (length tag) o2). unfold TAG_SIZE in *. split_and!; [|done|done| | |].
  - unfold PrecomputedKey.encrypt. rewrite len_app. unfold TAG_SIZE. repeat decide_ltb.
    rewrite copy_prefix' by done. sbind. rewrite build_nonce_eq by done. sbind. rewrite Hn. sbind. rewrite Hs. sbind.
    rewrite copy_from_slice_at by lia. done.
  - rewrite len_app. lia.
  - rewrite len_drop_nat by (unfold len in *; lia). rewrite len_app. unfold len in *. lia.
  - by apply bytes_ok_app.
Qed.

Lemma precomputed_decrypt_sealed key prefix counter n aad p c tag buf :
  bytes_ok p -> len p <= MAX_SEAL -> len prefix = 4 ->
  try_assume_unique_for_key (prefix ++ be_bytes 8 counter) = Some n ->
  seal_in_place_separate_tag key n aad p = Some (c, tag) -> len (c ++ tag) = len p + TAG_SIZE ->
  len p + TAG_SIZE <= len buf ->
  exists rest, PrecomputedKey.decrypt key prefix counter aad (c ++ tag) buf = Ok (p ++ rest, len p).
Proof.
  intros Hb Hp Hpre Hn Hs Lct Hl. destruct (open_seal key n aad p c tag Hb Hs) as (rest & Ho & Lr).
  destruct (split_at (length (c ++ tag)) buf) as (o1 & o2 & -> & Ho1); [unfold len in *; lia|].
  assert (len o1 = len (c ++ tag)) as Lo1 by (unfold len in *; lia). pose proof (len_nonneg p).
  exists (rest ++ o2). unfold PrecomputedKey.decrypt. rewrite (len_app o1), Lo1, Lct in *. unfold TAG_SIZE in *.
  pose proof (len_nonneg o2). repeat decide_ltb. rewrite copy_prefix' by lia. sbind.
  rewrite build_nonce_eq by done. sbind. rewrite Hn. sbind. unfold open_slice.
  rewrite (range_rest_at _ 0 (c ++ tag) o2) by (apply rest_at_start || lia). sbind. rewrite Ho. sbind.
  rewrite copy_prefix' by (rewrite ?(len_app p); lia). sbind. rewrite <- app_assoc. do 2 f_equal. lia.
Qed.

(** A packet of a session: header and sealed payload, under the next counter. *)
Lemma process_tx_ok d id c p frame :
  sessions d !! id = Some c -> len (nonce_prefix c) = 4 -> 0 <= tx_counter c < U64_MAX - 1 ->
  bytes_ok p -> len p <= MAX_SEAL -> HEADER_SIZE + len p + TAG_SIZE <= len frame ->
  exists d' packet, process_tx d id p (Some frame) = (d', Ok packet) /\
    sessions d' !! id = Some (set_tx_counter c (tx_counter c + 1)) /\
    let h := PacketHeader.new MessageType.Data id (key_id c) (tx_counter c) in
    Session.sealed_packet (tx_key c) (nonce_prefix c) h p packet /\ len packet = HEADER_SIZE + len p + TAG_SIZE.
Proof.
  intros Hc Hp Hn Hb Hm Hl. unfold process_tx, SessionTable.get, next_tx_counter. rewrite Hc.
  set (h := PacketHeader.new _ _ _ _). change (PacketHeader.encoded_size h) with HEADER_SIZE.
  pose proof (len_nonneg p). pose proof (PacketHeader.len_wire h) as Lw. change (PacketHeader.encoded_size h) with HEADER_SIZE in Lw.
  assert (HEADER_SIZE = 24) as HE by done. unfold TAG_SIZE in Hl.
  destruct (split_at 24 frame) as (o1 & o2 & -> & Ho1); [unfold len in *; lia|].
  assert (len o1 = HEADER_SIZE) as Lo1 by (unfold len; lia). rewrite len_app in Hl. cbn [ok_or rbind].
  rewrite (range_rest_at _ 0 o1 o2) by (apply rest_at_start || done). cbn [rbind].
  rewrite PacketHeader.encode_wire by (change (PacketHeader.encoded_size h) with HEADER_SIZE; lia). cbn [map_err rbind].
  rewrite drop_ge, app_nil_r by (unfold len in *; lia). rewrite copy_prefix' by lia. cbn [rbind].
  rewrite (range_rest_at _ 0 (PacketHeader.wire h) o2) by (apply rest_at_start || lia). cbn [rbind].
  rewrite (range_rest_at_end _ _ o2) by (by exists (PacketHeader.wire h)). cbn [rbind]. unfold encrypt.
  cbn [tx_key nonce_prefix set_tx_counter].
  destruct (precomputed_encrypt_ok (tx_key c) (nonce_prefix c) (tx_counter c) (PacketHeader.wire h) p o2 Hb Hm Hp)
    as (n & ct & tag & rest & -> & Hnonce & Hseal & Lct & Lr & Bct); [lia|unfold TAG_SIZE; lia|].
  cbn [map_err rbind].
  rewrite copy_from_slice_at; [|done| |]; [|rewrite !len_app in *; lia|rewrite !len_app in *; lia]. cbn [rbind].
  rewrite drop_ge, app_nil_r by (unfold len in *; rewrite !length_app in *; lia).
  replace (PacketHeader.wire h ++ (ct ++ tag) ++ rest) with ((PacketHeader.wire h ++ ct ++ tag) ++ rest)
    by (by rewrite <- !app_assoc).
  rewrite (range_rest_at _ 0 (PacketHeader.wire h ++ ct ++ tag) rest);
    [|apply rest_at_start|rewrite (len_app (PacketHeader.wire h)), Lct; lia].
  cbn [stats XdpDataPath.sessions]. destruct (stats d) as [rx tx rxb txb de us rd he].
  eexists _, _. split; [done|]. cbn [sessions]. split_and!.
  - etransitivity; [apply (lookup_insert_eq (M := gmap Z))|]. unfold wrapping_add. rewrite Z.mod_small; [done|]. unfold U64_MAX in *. lia.
  - by exists n, ct, tag.
  - rewrite (len_app (PacketHeader.wire h)), Lct, Lw. unfold TAG_SIZE. lia.
Qed.

(** A sealed packet of a counter the window takes is opened. *)
Lemma rx_packet_sealed m id e h p packet :
  m !! id = Some e -> crypto_ok e -> PacketHeader.wf h -> PacketHeader.normalise h = h ->
  PacketHeader.session_id h = id -> PacketHeader.msg_type h = MessageType.Data ->
  bytes_ok p -> len p <= MAX_SEAL -> Session.sealed_packet (rx_key e) (nonce_prefix e) h p packet ->
  snd (check_replay e (PacketHeader.counter h)) = Ok true ->
  rx_packet m packet = (<[id := fst (check_replay e (PacketHeader.counter h))]> m, Ok (Handled id p)).
Proof.
  intros Hm [_ Hp] Hw Hnorm Hid Ht Hb Hms (n & c & tag & Hn & Hs & ->) Hfresh. unfold rx_packet.
  destruct (seal_ok (rx_key e) n (PacketHeader.wire h) p Hb Hms) as (c' & tag' & Hs' & Lc & Lt & _).
  rewrite Hs in Hs'. injection Hs' as <- <-. pose proof (PacketHeader.len_wire h) as Lw. pose proof (len_nonneg p).
  assert (HEADER_SIZE <= PacketHeader.encoded_size h) as Hsz by (unfold PacketHeader.encoded_size; by destruct (PacketHeader.timestamp h)).
  assert (len (c ++ tag) = len p + TAG_SIZE) as Lct by (rewrite len_app; lia).
  rewrite (len_app (PacketHeader.wire h)), Lw, Lct. decide_ltb. rewrite PacketHeader.decode_wire, Hnorm by done.
  rewrite Ht, bool_decide_true by done. simpl negb. cbv iota. unfold SessionTable.get. rewrite Hid, Hm.
  pose proof (check_replay_material e (PacketHeader.counter h)) as Hmat.
  destruct (check_replay e (PacketHeader.counter h)) as [e' x]. simpl in Hfresh, Hmat. subst x. cbn [rbind negb fst]. f_equal.
  injection Hmat as _ _ Hk Hpre _.
  rewrite <- Lct, <- Lw, <- (len_app (PacketHeader.wire h)).
  rewrite (range_rest_at_end _ _ (c ++ tag)) by (by exists (PacketHeader.wire h)). cbn [rbind].
  rewrite (range_rest_at _ 0 (PacketHeader.wire h) (c ++ tag)) by (apply rest_at_start || lia). cbn [rbind].
  unfold decrypt. rewrite Hk, Hpre.
  destruct (precomputed_decrypt_sealed (rx_key e) (nonce_prefix e) (PacketHeader.counter h) n (PacketHeader.wire h)
    p c tag (replicate (length (c ++ tag)) 0) Hb Hms Hp Hn Hs Lct) as [rest ->]; [rewrite len_replicate; unfold len in *; lia|].
  by rewrite (range_rest_at _ 0 p rest) by (apply rest_at_start || lia).
Qed.

(** What one end of the data path sends the other end hands on, if their
    entries share the key and the prefix and the counter is new. *)
Lemma xdp_roundtrip d id c p frame m e :
  sessions d !! id = Some c -> len (nonce_prefix c) = 4 -> 0 <= tx_counter c < U64_MAX - 1 -> u64 id -> u32 (key_id c) ->
  bytes_ok p -> len p <= MAX_SEAL -> HEADER_SIZE + len p + TAG_SIZE <= len frame ->
  m !! id = Some e -> crypto_ok e -> rx_key e = tx_key c -> nonce_prefix e = nonce_prefix c ->
  snd (check_replay e (tx_counter c)) = Ok true ->
  exists d' packet, process_tx d id p (Some frame) = (d', Ok packet) /\
    snd (rx_packet m packet) = Ok (Handled id p).
Proof.
  intros Hc Hp Hn Hid Hkid Hb Hms Hl Hm He Hk Hpre Hfresh.
  destruct (process_tx_ok d id c p frame Hc Hp Hn Hb Hms Hl) as (d' & packet & Htx & _ & Hseal & _).
  exists d', packet. split; [done|].
  rewrite (rx_packet_sealed m id e (PacketHeader.new MessageType.Data id (key_id c) (tx_counter c)) p packet); try done.
  - apply Session.data_header_wf; [done|done|]. unfold u64, U64_MAX in *. lia.
  - by rewrite Hk, Hpre.
Qed.

End Roundtrip.
End XdpRoundtrip.

(** * Examples *)

(** The entry [SessionBridge::sync_session] makes of session 7. *)
Definition example_crypto : SessionCrypto.t (R:=ToyAead) :=
  SessionCrypto.mk 7 (replicate 32 2) (replicate 32 1) [5; 6; 7; 8] 0 0 0 0 2000000 0 4000000 0 0.

Lemma example_crypto_window : XdpWindow.window_ok example_crypto.
Proof. by_decide. Qed.

Lemma afxdp_replay_window_witness : (XdpWindow.accepted example_crypto [64; 5; 64; 5]).2 = [64; 5].
Proof.
  apply (XdpWindow.afxdp_replay_window example_crypto example_crypto_window); simpl; unfold U64_MAX; lia.
Defined.

(** In order, 65 packets; then each of the last 63 but one passes again. *)
Example replayed_in_order :
  (XdpWindow.accepted example_crypto (map Z.of_nat (seq 0 65) ++ map Z.of_nat (seq 0 65))).2 =
    map Z.of_nat (seq 0 65) ++ map Z.of_nat (seq 1 63).
Proof. vm_compute. reflexivity. Qed.

(** The largest counter leaves a window the next check overflows on. *)
Example largest_counter_aborts :
  snd (SessionCrypto.check_replay (fst (SessionCrypto.check_replay example_crypto U64_MAX)) U64_MAX) = Panic.
Proof. vm_compute. reflexivity. Qed.

(** Session 7 in the table of the workers. *)
Definition example_xdp_table : SessionTable.t :=
  fst (SessionBridge.sync_session example_table SessionTable.new 0 7).

Example example_synced :
  option_map SessionCrypto.nonce_prefix (SessionTable.get example_xdp_table 7) =
    Some (SessionKeys.send_nonce_prefix (Session.keys (ClientSession.session example_entry))).
Proof. vm_compute. reflexivity. Qed.

(** A data packet of the client of session 7: the UDP workers hand its
    payload to the TUN device, the AF_XDP workers cannot open it. *)
Example client_packet_dropped :
  let p := example_ip_packet [10; 99; 0; 2] [1; 1; 1; 1] in
  let data := example_from_client MessageType.Data p in
  snd (Workers.process_packet example_table example_clock (replicate 60 0) data example_addr) =
    Ok (Received.ToTun p) /\
  snd (XdpWorker.process_packet example_xdp_table 0 (Some (replicate 60 0)) true data) = Ok XdpWorker.Nothing.
Proof. split; vm_compute; reflexivity. Qed.

(** [DataPath::process_rx] checks the window first: a forged packet with a
    large counter has the genuine one refused. *)
Example forged_counter_closes_window :
  let table e : SessionTable.t := <[7 := e]> SessionTable.new in
  let peer := table (SessionCrypto.mk 7 (replicate 32 1) (replicate 32 2) [5; 6; 7; 8] 0 0 0 0 0 0 0 0 0) in
  match snd (XdpDataPath.process_tx (XdpDataPath.new peer) 7 [1; 2; 3] (Some (replicate 64 0))) with
  | Ok packet =>
      let forged := PacketHeader.wire (PacketHeader.new MessageType.Data 7 0 1000) ++ replicate 16 0 in
      snd (XdpDataPath.process_rx (XdpDataPath.new (table example_crypto)) [packet]) = Ok [(7, [1; 2; 3])] /\
      snd (XdpDataPath.process_rx (XdpDataPath.new (table example_crypto)) [forged; packet]) = Ok []
  | _ => False
  end.
Proof. vm_compute. split; reflexivity. Qed.

(** A server that admitted a client over the control channel: its session, 11,
    is in the table of the workers. *)
Definition example_bridge : AfXdpServer.state :=
  fst (AfXdpServer.handle_afxdp_control
    (AfXdpServer.mk_state (example_vpn_server example_manager) SessionTable.new) example_reading 0
    (AfXdpControl.HandshakeInit (replicate 24 0 ++ HandshakeInit.to_bytes example_init) example_addr)).

(** A packet sealed under the receiving key of the session. *)
Definition example_sealed : list Z :=
  match SessionTable.get (AfXdpServer.table example_bridge) 11 with
  | Some e =>
      let peer := SessionCrypto.mk 11 (SessionCrypto.rx_key e) (SessionCrypto.tx_key e)
        (SessionCrypto.nonce_prefix e) 0 0 0 0 0 0 0 0 0 in
      match snd (XdpDataPath.process_tx (XdpDataPath.new (<[11 := peer]> SessionTable.new)) 11 [1; 2; 3]
                   (Some (replicate 64 0))) with
      | Ok packet => packet
      | _ => []
      end
  | None => []
  end.

Lemma example_bridge_reach : XdpBridge.reach true example_bridge.
Proof.
  apply XdpBridge.reach_control; [|exact example_reading_ok| |exact I].
  - apply XdpBridge.reach_start; [exact example_server_reach|reflexivity].
  - split; by_decide.
Qed.

Lemma afxdp_bridge_witness :
  (exists e c, AfXdpServer.table example_bridge !! 11 = Some e /\
     SessionManager.get_session (VpnServer.sessions (AfXdpServer.server example_bridge)) 11 = Some c /\
     SessionCrypto.nonce_prefix e = SessionKeys.send_nonce_prefix (Session.keys (ClientSession.session c))) /\
  XdpBridge.opened example_bridge example_sealed [1; 2; 3].
Proof.
  destruct (XdpBridge.afxdp_bridge true example_bridge example_bridge_reach) as (_ & Ht & Hr & _). split.
  - assert (option_map (fun _ => tt) (SessionTable.get (AfXdpServer.table example_bridge) 11) = Some tt) as Hs
      by (vm_compute; reflexivity).
    unfold SessionTable.get in Hs.
    destruct (AfXdpServer.table example_bridge !! 11) as [e|] eqn:He; [|discriminate Hs].
    destruct (Ht 11 e He) as (c & Hc & Hk). exists e, c. split; [reflexivity|]. split; [exact Hc|].
    exact (proj1 (proj2 (proj2 (Hk eq_refl)))).
  - specialize (Hr example_reading 0 (Some (replicate 60 0)) true example_sealed example_reading_ok
      ltac:(by_decide)).
    assert (snd (AfXdpServer.receive example_bridge example_reading 0 (Some (replicate 60 0)) true example_sealed) =
      Ok ([], Some [1; 2; 3])) as Ho by (vm_compute; reflexivity).
    rewrite Ho in Hr. exact (Hr [1; 2; 3] eq_refl).
Defined.
