(* ===== verification/Umem.v ===== *)
(** The memory that the AF_XDP sockets share with the kernel
    (hpn-afxdp/src/umem.rs): its configuration, the allocator of its frames,
    and the bounds of packets in it.

    The allocator is used by several threads without a lock.  Its operations
    are sequences of atomic accesses to the stack pointer and to the slots of
    the stack, and a schedule says which thread takes the next one.  The memory
    is sequentially consistent, which the acquire and release orderings of the
    code allow as a special case: what goes wrong here goes wrong there. *)

From S2P Require Import Prelude.

Module XskError.

(** The rings of a socket, as errors name them. *)
Inductive ring := Fill | Completion | Rx | Tx.

(** The errors of umem.rs, ring.rs and socket.rs; an error of the operating
    system is its number, texts are left out. *)
Inductive t :=
| SocketCreation (source : Z)
| Bind (interface : list Z) (queue source : Z)
| UmemAllocation (source : Z)
| UmemRegistration (source : Z)
| RingCreation (ring_type : ring) (source : Z)
| RingMapping (ring_type : ring) (source : Z)
| InterfaceIndex (interface : list Z) (source : Z)
| SocketOption (source : Z)
| PermissionDenied
| NotSupported
| InvalidFrameSize (size : Z)
| InvalidRingSize (size : Z)
| InvalidFrameAddress (addr : Z)
| Config
| UmemExhausted.

End XskError.

Definition XDP_MIN_FRAME_SIZE : Z := 2048.
Definition XDP_MAX_FRAME_SIZE : Z := 4096.
Definition DEFAULT_FRAME_SIZE : Z := 2048.
Definition DEFAULT_HEADROOM : Z := 256.
Definition DEFAULT_NUM_FRAMES : Z := 16384.

(** [u32::is_power_of_two] *)
Definition is_power_of_two (x : Z) : bool := negb (x =? 0) && (Z.land x (x - 1) =? 0).

Module UmemConfig.

Record t := mk { frame_size : Z; headroom : Z; num_frames : Z }.

Definition default : t := mk DEFAULT_FRAME_SIZE DEFAULT_HEADROOM DEFAULT_NUM_FRAMES.

Definition new (frame_size headroom num_frames : Z) : result XskError.t t :=
  if (frame_size <? XDP_MIN_FRAME_SIZE) || (XDP_MAX_FRAME_SIZE <? frame_size) then
    Err (XskError.InvalidFrameSize frame_size)
  else if negb (is_power_of_two frame_size) then Err XskError.Config
  else if frame_size <=? headroom then Err XskError.Config
  else if negb (is_power_of_two num_frames) then Err XskError.Config
  else Ok (mk frame_size headroom num_frames).

Definition total_size (c : t) : Z := frame_size c * num_frames c.

(** The fields are public, and the subtraction aborts if the headroom is larger
    than the frame. *)
Definition max_packet_size {E} (c : t) : result E Z :=
  if frame_size c <? headroom c then Panic else Ok (frame_size c - headroom c).

Definition wf (c : t) : Prop :=
  XDP_MIN_FRAME_SIZE <= frame_size c <= XDP_MAX_FRAME_SIZE /\ 0 <= headroom c < frame_size c /\
  0 < num_frames c < 2 ^ 32.

Lemma umem_config_wf fs h n c : u32 fs -> u32 h -> u32 n -> new fs h n = Ok c -> wf c.
Proof.
  unfold u32, uint. intros Hfs Hh Hn. unfold new. destruct (_ || _) eqn:E1; [done|]. destruct (is_power_of_two fs); [|done].
  destruct (fs <=? h) eqn:E2; [done|]. destruct (is_power_of_two n) eqn:E3; [|done]. simpl. intros [= <-].
  apply orb_false_iff in E1 as [? ?]. unfold is_power_of_two in E3. apply andb_true_iff in E3 as [E3 _].
  unfold wf. simpl. b2p. lia.
Qed.

End UmemConfig.

(** * The allocator *)

Module FrameAllocator.

(** Where a thread is: in no operation; in [alloc] before it reads the stack
    pointer, with the value it read, or with the slot it has popped and not
    read; in [free], the same, with the slot not written; or aborted. *)
Inductive pc :=
| Idle
| AllocStart | AllocLoaded (top : Z) | AllocRead (slot : Z)
| FreeStart (addr : Z) | FreeLoaded (addr top : Z) | FreeWrite (addr slot : Z)
| Aborted.

(** [held]: the frames that [alloc] has returned and [free] was not called for. *)
Record t := mk {
  free_stack : list Z;
  stack_top : Z;
  frame_size : Z;
  num_frames : Z;
  threads : list pc;
  held : list Z
}.

Definition addresses (frame_size num_frames : Z) : list Z := map (fun i => i * frame_size) (seqZ 0 num_frames).

Definition new (frame_size num_frames : Z) (threads : nat) : t :=
  mk (addresses frame_size num_frames) num_frames frame_size num_frames (replicate threads Idle) [].

(** What a thread does next: begin an operation, or take the next step of the
    one it is in ([spurious]: a weak exchange fails for no reason). *)
Inductive action := CallAlloc | CallFree (addr : Z) | Step (spurious : bool).

Definition set (s : t) (stack : list Z) (top : Z) (i : nat) (p : pc) (held : list Z) : t :=
  mk stack top (frame_size s) (num_frames s) (<[i := p]> (threads s)) held.

(** A step that changes only where the thread is. *)
Definition at_pc (s : t) (i : nat) (p : pc) : t := set s (free_stack s) (stack_top s) i p (held s).

Definition remove_one (a : Z) (l : list Z) : list Z :=
  match list_find (eq a) l with Some (i, _) => delete i l | None => l end.

Definition step (s : t) (i : nat) (a : action) : t :=
  let top := stack_top s in
  match threads s !! i with
  | None => s
  | Some p =>
      match a, p with
      | CallAlloc, Idle => at_pc s i AllocStart
      | CallFree addr, Idle =>
          if bool_decide (addr ∈ held s) then
            set s (free_stack s) top i
              (if (addr mod frame_size s =? 0) && (addr <? num_frames s * frame_size s) then FreeStart addr else Aborted)
              (remove_one addr (held s))
          else s
      | Step _, AllocStart => at_pc s i (if top =? 0 then Idle else AllocLoaded top)
      | Step spurious, AllocLoaded seen =>
          if (spurious : bool) || negb (top =? seen) then at_pc s i AllocStart
          else set s (free_stack s) (seen - 1) i (AllocRead (seen - 1)) (held s)
      | Step _, AllocRead slot =>
          match free_stack s !! Z.to_nat slot with
          | Some addr => set s (free_stack s) top i Idle (addr :: held s)
          | None => at_pc s i Aborted
          end
      | Step _, FreeStart addr => at_pc s i (if top <? num_frames s then FreeLoaded addr top else Aborted)
      | Step spurious, FreeLoaded addr seen =>
          if (spurious : bool) || negb (top =? seen) then at_pc s i (FreeStart addr)
          else set s (free_stack s) (seen + 1) i (FreeWrite addr seen) (held s)
      | Step _, FreeWrite addr slot =>
          if slot <? len (free_stack s) then set s (<[Z.to_nat slot := addr]> (free_stack s)) top i Idle (held s)
          else at_pc s i Aborted
      | _, _ => s
      end
  end.

Definition run (s : t) (sched : list (nat * action)) : t := foldl (fun s '(i, a) => step s i a) s sched.

(** ** Who has a frame *)

(** Slots popped and not read, slots reserved and not written, and frames on
    their way to the stack. *)
Definition reading (p : pc) : list Z := match p with AllocRead slot => [slot] | _ => [] end.
Definition writing (p : pc) : list (Z * Z) := match p with FreeWrite addr slot => [(slot, addr)] | _ => [] end.
Definition freeing (p : pc) : list Z := match p with FreeStart a | FreeLoaded a _ => [a] | _ => [] end.

Definition slots_reading (s : t) : list Z := concat (map reading (threads s)).
Definition slots_writing (s : t) : list (Z * Z) := concat (map writing (threads s)).
Definition frames_freeing (s : t) : list Z := concat (map freeing (threads s)).

(** A schedule in which no frame is popped while a slot is reserved and not
    written, and none is reserved while a slot is popped and not read. *)
Definition separate_step (s : t) (i : nat) (a : action) : bool :=
  match threads s !! i, a with
  | Some (AllocLoaded seen), Step false => negb (stack_top s =? seen) || bool_decide (slots_writing s = [])
  | Some (FreeLoaded _ seen), Step false => negb (stack_top s =? seen) || bool_decide (slots_reading s = [])
  | _, _ => true
  end.

Fixpoint separate (s : t) (sched : list (nat * action)) : bool :=
  match sched with
  | [] => true
  | (i, a) :: sched => separate_step s i a && separate (step s i a) sched
  end.

(** ** The invariant *)

(** The frames in the slots of [r]. *)
Definition at_slots (stack : list Z) (r : list Z) : list Z := omap (fun slot => stack !! Z.to_nat slot) r.

(** [v]: the stack as it is once the writes under way are done. *)
Record core (addrs stack : list Z) (top : Z) (r : list Z) (w : list (Z * Z)) (f held v : list Z) : Prop := mk_core {
  core_stack : length stack = length addrs;
  core_v : length v = length addrs;
  core_top : 0 <= top <= len addrs;
  core_reading : Forall (fun slot => top <= slot < len addrs) r;
  core_writing : Forall (fun '(slot, a) => 0 <= slot < top /\ v !! Z.to_nat slot = Some a) w;
  core_agree : forall k, 0 <= k < len addrs -> k ∉ w.*1 -> v !! Z.to_nat k = stack !! Z.to_nat k;
  core_phase : r = [] \/ w = [];
  core_frames : take (Z.to_nat top) v ++ at_slots stack r ++ held ++ f ≡ₚ addrs
}.

#[global] Instance at_slots_proper stack : Proper ((≡ₚ) ==> (≡ₚ)) (at_slots stack).
Proof. intros r r' Hr. unfold at_slots. by rewrite Hr. Qed.

Lemma core_perm addrs stack top r w f held v r' w' f' :
  core addrs stack top r w f held v -> r ≡ₚ r' -> w ≡ₚ w' -> f ≡ₚ f' -> core addrs stack top r' w' f' held v.
Proof.
  intros [] Hr Hw Hf. split; try done.
  - by rewrite <- Hr.
  - by rewrite <- Hw.
  - intros k Hk Hn. apply core_agree0; [done|]. by rewrite Hw.
  - destruct core_phase0 as [-> | ->]; [left|right]; symmetry; by apply Permutation_nil_l.
  - by rewrite <- Hr, <- Hf.
Qed.

Lemma at_slots_in stack r : Forall (fun slot => 0 <= slot < len stack) r -> length (at_slots stack r) = length r.
Proof.
  induction 1 as [|k r Hk _ IH]; [done|]. unfold at_slots in *. cbn [omap list_omap].
  destruct (lookup_lt_is_Some_2 stack (Z.to_nat k)) as [x Hx]; [unfold len in Hk; lia|]. rewrite Hx. simpl. by rewrite IH.
Qed.

(** As many frames as there are. *)
Lemma core_count addrs stack top r w f held v :
  core addrs stack top r w f held v -> top + len r + len held + len f = len addrs.
Proof.
  intros []. apply Permutation_length in core_frames0. rewrite !length_app, at_slots_in, length_take in core_frames0.
  - unfold len in *. lia.
  - eapply Forall_impl; [exact core_reading0|]. unfold len in *. intros k Hk. simpl in Hk. lia.
Qed.

(** A frame is popped. *)
Lemma core_pop addrs stack top r f held v :
  core addrs stack top r [] f held v -> 0 < top -> core addrs stack (top - 1) ((top - 1) :: r) [] f held v.
Proof.
  intros [] Ht. assert (length v = length stack) as Hvs by congruence.
  destruct (lookup_lt_is_Some_2 v (Z.to_nat (top - 1))) as [x Hx]; [unfold len in *; lia|].
  assert (stack !! Z.to_nat (top - 1) = Some x) as Hs.
  { rewrite <- core_agree0; [done|lia|apply not_elem_of_nil]. }
  split; try done; [lia| |by right|].
  - constructor; [unfold len in *; lia|]. eapply Forall_impl; [exact core_reading0|]. simpl. lia.
  - rewrite <- core_frames0. unfold at_slots. cbn [omap list_omap]. rewrite Hs.
    replace (Z.to_nat top) with (S (Z.to_nat (top - 1))) by lia. rewrite (take_S_r v _ x) by done.
    rewrite <- !app_assoc. done.
Qed.

(** A popped slot is read. *)
Lemma core_read addrs stack top slot r w f held v :
  core addrs stack top (slot :: r) w f held v ->
  exists addr, stack !! Z.to_nat slot = Some addr /\ core addrs stack top r w f (addr :: held) v.
Proof.
  intros []. apply Forall_cons in core_reading0 as [Hs Hr].
  destruct (lookup_lt_is_Some_2 stack (Z.to_nat slot)) as [x Hx]; [unfold len in *; lia|]. exists x. split; [done|].
  split; try done; [by destruct core_phase0; [|right]|]. rewrite <- core_frames0. unfold at_slots. cbn [omap list_omap].
  rewrite Hx. simpl. apply Permutation_app_head. by rewrite <- Permutation_middle.
Qed.

(** A slot is reserved for a frame. *)
Lemma core_reserve addrs stack top w addr f held v :
  core addrs stack top [] w (addr :: f) held v ->
  core addrs stack (top + 1) [] ((top, addr) :: w) f held (<[Z.to_nat top := addr]> v).
Proof.
  intros Hc. pose proof (core_count _ _ _ _ _ _ _ _ Hc) as Hn. destruct Hc. rewrite len_cons in Hn.
  pose proof (len_nonneg held). pose proof (len_nonneg f). change (len []) with 0 in Hn.
  split; try done; [by rewrite length_insert|lia|..].
  - constructor; [|eapply Forall_impl; [exact core_writing0|]].
    + split; [lia|]. apply list_lookup_insert_eq. unfold len in *. lia.
    + intros [k a] [Hk Ha]. split; [lia|]. by rewrite list_lookup_insert_ne by lia.
  - intros k Hk Hin. cbn [fmap list_fmap fst] in Hin. apply not_elem_of_cons in Hin as [Hk1 Hk2].
    rewrite list_lookup_insert_ne by lia. by apply core_agree0.
  - by left.
  - rewrite <- core_frames0. replace (Z.to_nat (top + 1)) with (S (Z.to_nat top)) by lia.
    rewrite (take_S_r _ _ addr) by (apply list_lookup_insert_eq; unfold len in *; lia).
    rewrite take_insert_ge by done. simpl. rewrite <- app_assoc. simpl. apply Permutation_app_head.
    by rewrite <- Permutation_middle.
Qed.

(** A reserved slot is written. *)
Lemma core_write addrs stack top r w slot addr f held v :
  core addrs stack top r ((slot, addr) :: w) f held v ->
  slot < len stack /\ core addrs (<[Z.to_nat slot := addr]> stack) top r w f held v.
Proof.
  intros []. apply Forall_cons in core_writing0 as [[Hs Hv] Hw]. assert (r = []) as -> by (by destruct core_phase0).
  split; [unfold len in *; lia|]. split; try done; [by rewrite length_insert| |by left].
  intros k Hk Hin. destruct (decide (k = slot)) as [->|Hne].
  - rewrite list_lookup_insert_eq by (unfold len in *; lia). done.
  - rewrite list_lookup_insert_ne by lia. apply core_agree0; [done|]. cbn [fmap list_fmap fst].
    by apply not_elem_of_cons.
Qed.

(** ** Steps *)

Lemma concat_map_perm {A} (f : pc -> list A) l l' : l ≡ₚ l' -> concat (map f l) ≡ₚ concat (map f l').
Proof.
  induction 1 as [|x l l' _ IH|x y l|l1 l2 l3 _ IH1 _ IH2]; simpl; [done|by rewrite IH| |by rewrite IH1].
  by rewrite (Permutation_app_swap_app (f x)).
Qed.

Lemma delete_insert_list {A} (l : list A) i x : delete i (<[i := x]> l) = delete i l.
Proof. revert i. induction l as [|y l IH]; intros [|i]; [done..|]. simpl. f_equal. apply IH. Qed.

(** What a thread is counted for, before and after it moves. *)
Lemma thread_moves {A} (f : pc -> list A) l i p q :
  l !! i = Some p ->
  concat (map f l) ≡ₚ f p ++ concat (map f (delete i l)) /\
  concat (map f (<[i := q]> l)) ≡ₚ f q ++ concat (map f (delete i l)).
Proof.
  intros Hp. split.
  - by rewrite (concat_map_perm f l _ (delete_Permutation _ _ _ Hp)).
  - assert (<[i := q]> l !! i = Some q) as Hq by (apply list_lookup_insert_eq; by eapply lookup_lt_Some).
    rewrite (concat_map_perm f _ _ (delete_Permutation _ _ _ Hq)), delete_insert_list. done.
Qed.

Definition pc_ok (p : pc) : Prop := match p with AllocLoaded seen => 0 < seen | Aborted => False | _ => True end.

Definition inv (s : t) : Prop :=
  Forall pc_ok (threads s) /\
  exists v, core (addresses (frame_size s) (num_frames s)) (free_stack s) (stack_top s) (slots_reading s) (slots_writing s)
    (frames_freeing s) (held s) v.

(** The rest of the threads, of which one moves from [p] to [q]. *)
Lemma inv_moves s i p q stack top held' :
  inv s -> threads s !! i = Some p -> pc_ok q ->
  (forall r w f v,
     slots_reading s ≡ₚ reading p ++ r -> slots_writing s ≡ₚ writing p ++ w -> frames_freeing s ≡ₚ freeing p ++ f ->
     core (addresses (frame_size s) (num_frames s)) (free_stack s) (stack_top s) (reading p ++ r) (writing p ++ w)
       (freeing p ++ f) (held s) v ->
     exists v', core (addresses (frame_size s) (num_frames s)) stack top (reading q ++ r) (writing q ++ w) (freeing q ++ f) held' v') ->
  inv (set s stack top i q held').
Proof.
  intros [Ht [v Hc]] Hp Hq H. split; [by apply Forall_insert|].
  destruct (thread_moves reading (threads s) i p q Hp) as [R1 R2].
  destruct (thread_moves writing (threads s) i p q Hp) as [W1 W2].
  destruct (thread_moves freeing (threads s) i p q Hp) as [F1 F2].
  destruct (H _ _ _ v R1 W1 F1) as [v' Hc']; [by eapply core_perm|]. exists v'. by eapply core_perm.
Qed.

Lemma inv_core s i p :
  inv s -> threads s !! i = Some p ->
  exists r w f v, core (addresses (frame_size s) (num_frames s)) (free_stack s) (stack_top s) (reading p ++ r)
    (writing p ++ w) (freeing p ++ f) (held s) v.
Proof.
  intros [_ [v Hc]] Hp. eexists _, _, _, v.
  eapply core_perm; [exact Hc|..]; apply (thread_moves _ (threads s) i p Idle Hp).
Qed.

(** A step that moves no frame. *)
Lemma inv_at_pc s i p q :
  inv s -> threads s !! i = Some p -> pc_ok q -> reading p = reading q -> writing p = writing q -> freeing p = freeing q ->
  inv (at_pc s i q).
Proof.
  intros Hi Hp Hq Hr Hw Hf. eapply inv_moves; [done..|]. intros r w f v _ _ _ Hc. exists v. by rewrite <- Hr, <- Hw, <- Hf.
Qed.

Lemma addresses_elem fs n a : a ∈ addresses fs n -> 0 < fs -> a mod fs = 0 /\ 0 <= a < n * fs.
Proof.
  unfold addresses. intros Ha Hfs. apply list_elem_of_fmap in Ha as (i & -> & Hi). apply elem_of_seqZ in Hi.
  split; [by apply Z.mod_mul; lia|nia].
Qed.

Lemma remove_one_perm a l : a ∈ l -> l ≡ₚ a :: remove_one a l.
Proof.
  intros Ha. unfold remove_one. destruct (list_find_elem_of (eq a) l a Ha eq_refl) as [[i x] Hx]. rewrite Hx.
  apply list_find_Some in Hx as (Hx & -> & _). by apply delete_Permutation.
Qed.

Lemma core_call addrs stack top r w f held v a :
  core addrs stack top r w f held v -> a ∈ held -> core addrs stack top r w (a :: f) (remove_one a held) v /\ a ∈ addrs.
Proof.
  intros [] Ha. split.
  - split; try done. rewrite <- core_frames0. rewrite (remove_one_perm a held Ha) at 2. solve_Permutation.
  - rewrite <- core_frames0, !elem_of_app. auto.
Qed.

Lemma len_addresses fs n : 0 <= n -> len (addresses fs n) = n.
Proof. intros Hn. unfold addresses, len. rewrite length_map, length_seqZ. lia. Qed.

Lemma alloc_step_inv s i a : 0 < frame_size s -> 0 <= num_frames s -> inv s -> separate_step s i a = true -> inv (step s i a).
Proof.
  intros Hfs Hnf Hi Hsep. unfold step. unfold separate_step in Hsep. destruct (threads s !! i) as [p|] eqn:Ep; [|done].
  pose proof Hi as [Ht [v0 Hc0]]. pose proof (proj1 (Forall_lookup _ _) Ht i p Ep) as Hpc.
  destruct a as [|addr|spurious]; destruct p as [| |seen|slot|a|a seen|a slot|]; try done.
  - by eapply inv_at_pc.
  - case_bool_decide as Hin; [|done]. destruct (core_call _ _ _ _ _ _ _ _ _ Hc0 Hin) as [_ Ha].
    destruct (addresses_elem _ _ _ Ha Hfs) as [Hm Hb]. rewrite Hm, (proj2 (Z.ltb_lt _ _)) by lia. simpl.
    eapply inv_moves; [done..|]. intros r w f v _ _ _ Hc. exists v. simpl in *. by apply core_call.
  - destruct (Z.eqb_spec (stack_top s) 0); (eapply inv_at_pc; [done..| |done|done|done]); [done|]. destruct Hc0. simpl. lia.
  - destruct spurious; [by eapply inv_at_pc|]. destruct (Z.eqb_spec (stack_top s) seen) as [<-|]; [|by eapply inv_at_pc].
    simpl in Hsep. apply bool_decide_eq_true in Hsep. simpl. eapply inv_moves; [done..|]. intros r w f v _ Hw _ Hc.
    simpl in *. rewrite Hsep in Hw. apply Permutation_nil_l in Hw as <-. exists v. by apply core_pop.
  - destruct (inv_core s i _ Hi Ep) as (r0 & w0 & f0 & v & Hc).
    destruct (core_read _ _ _ _ _ _ _ _ _ Hc) as (addr & Ea & _). rewrite Ea.
    eapply inv_moves; [done..|]. clear dependent v. intros r w f v _ _ _ Hc. exists v.
    destruct (core_read _ _ _ _ _ _ _ _ _ Hc) as (addr' & Ea' & Hc'). by simplify_eq.
  - destruct (inv_core s i _ Hi Ep) as (r0 & w0 & f0 & v & Hc). pose proof (core_count _ _ _ _ _ _ _ _ Hc) as Hn.
    pose proof (len_nonneg (held s)). pose proof (len_nonneg f0). pose proof (len_nonneg (reading (FreeStart a) ++ r0)).
    cbn [freeing app] in Hn. rewrite len_cons, len_addresses in Hn by done.
    rewrite (proj2 (Z.ltb_lt _ _)) by lia. by eapply inv_at_pc.
  - destruct spurious; [by eapply inv_at_pc|]. destruct (Z.eqb_spec (stack_top s) seen) as [<-|]; [|by eapply inv_at_pc].
    simpl in Hsep. apply bool_decide_eq_true in Hsep. simpl. eapply inv_moves; [done..|]. intros r w f v Hr _ _ Hc.
    simpl in *. rewrite Hsep in Hr. apply Permutation_nil_l in Hr as <-. eexists. by apply core_reserve.
  - destruct (inv_core s i _ Hi Ep) as (r0 & w0 & f0 & v & Hc). destruct (core_write _ _ _ _ _ _ _ _ _ _ Hc) as [Hs _].
    rewrite (proj2 (Z.ltb_lt _ _)) by done. eapply inv_moves; [done..|]. clear dependent v. intros r w f v _ _ _ Hc.
    exists v. by destruct (core_write _ _ _ _ _ _ _ _ _ _ Hc).
Qed.

Lemma step_sizes s i a : frame_size (step s i a) = frame_size s /\ num_frames (step s i a) = num_frames s.
Proof. unfold step. repeat case_match; done. Qed.

Lemma alloc_run_inv s sched :
  0 < frame_size s -> 0 <= num_frames s -> inv s -> separate s sched = true ->
  inv (run s sched) /\ frame_size (run s sched) = frame_size s /\ num_frames (run s sched) = num_frames s.
Proof.
  revert s. induction sched as [|[i a] sched IH]; intros s Hf Hn Hi Hs; [done|]. cbn [separate] in Hs.
  apply andb_true_iff in Hs as [Hs1 Hs2]. destruct (step_sizes s i a) as [E1 E2].
  destruct (IH (step s i a)) as (H1 & H2 & H3); [by rewrite E1|by rewrite E2|by apply alloc_step_inv|done|].
  change (run s ((i, a) :: sched)) with (run (step s i a) sched). by rewrite H2, H3.
Qed.

Lemma alloc_new_inv fs n k : 0 < fs -> 0 <= n -> inv (new fs n k).
Proof.
  intros Hf Hn. assert (forall {A} (f : pc -> list A), f Idle = [] -> concat (map f (replicate k Idle)) = []) as Hc.
  { intros A f H0. induction k; [done|]. simpl. by rewrite H0. }
  split; [by apply Forall_replicate|]. exists (addresses fs n).
  unfold slots_reading, slots_writing, frames_freeing. cbn [threads new]. rewrite !Hc by done.
  split; try done; cbn [new stack_top free_stack held frame_size num_frames]; [rewrite len_addresses by done; lia|constructor..|by left|].
  rewrite take_ge by (unfold addresses; rewrite length_map, length_seqZ; lia). by rewrite app_nil_r.
Qed.

Lemma addresses_nodup fs n : 0 < fs -> NoDup (addresses fs n).
Proof. intros Hf. unfold addresses. apply NoDup_fmap_2; [intros a b; nia|apply NoDup_seqZ]. Qed.

(** The frames that are not on the stack: returned by [alloc], about to be, or
    given to [free] and not yet on it. *)
Definition out (s : t) : list Z := at_slots (free_stack s) (slots_reading s) ++ held s ++ frames_freeing s.

(** C35: The allocator hands out no frame twice, as long as no [alloc] runs
    between the two steps of a [free], and no [free] between the two steps of an
    [alloc]: however the steps of any number of threads are interleaved
    otherwise, and whatever exchanges fail, the frames in use are different
    frames of the memory, no assertion fails, none is lost (they and those on
    the stack are all there are), and [available] is their number short of
    all. *)
Theorem frames_not_shared fs n k sched (s := run (new fs n k) sched) :
  0 < fs -> 0 <= n -> separate (new fs n k) sched = true ->
  NoDup (out s) /\ Forall (fun a => a ∈ addresses fs n) (out s) /\ Aborted ∉ threads s /\
  stack_top s + len (out s) = n.
Proof.
  intros Hf Hn Hs. destruct (alloc_run_inv (new fs n k) sched Hf Hn (alloc_new_inv fs n k Hf Hn) Hs) as ([Ht [v Hc]] & E1 & E2).
  cbn [frame_size num_frames new] in E1, E2. fold s in Ht, Hc, E1, E2. rewrite E1, E2 in Hc.
  pose proof (core_frames _ _ _ _ _ _ _ _ Hc) as Hp. fold (out s) in Hp. split_and!.
  - pose proof (addresses_nodup fs n Hf) as Hd. rewrite <- Hp in Hd. by apply NoDup_app in Hd as (_ & _ & ?).
  - apply Forall_forall. intros a Ha. rewrite <- Hp. apply elem_of_app. by right.
  - intros Hin. by apply (proj1 (Forall_forall _ _) Ht Aborted Hin).
  - pose proof (core_top _ _ _ _ _ _ _ _ Hc) as Htop. pose proof (core_v _ _ _ _ _ _ _ _ Hc) as Hv.
    apply Permutation_length in Hp. rewrite length_app, length_take in Hp.
    rewrite len_addresses in Htop by done. pose proof (len_addresses fs n Hn) as Hla. unfold len in *. lia.
Qed.

End FrameAllocator.

(** * Packets in the memory *)

Module Umem.

Record t := mk { config : UmemConfig.t; memory : list Z }.

(** [map_anon]: the error of mapping so many bytes, if there is one. *)
Definition new (map_anon : Z -> option Z) (c : UmemConfig.t) : result XskError.t t :=
  let size := UmemConfig.total_size c in
  match map_anon size with
  | Some e => Err (XskError.UmemAllocation e)
  | None => Ok (mk c (replicate (Z.to_nat size) 0))
  end.

Definition validate_addr (u : t) (addr : Z) : bool :=
  (addr <? UmemConfig.total_size (config u)) && (addr mod UmemConfig.frame_size (config u) =? 0).

(** [u64::checked_add] *)
Definition checked_add (a b : Z) : option Z := if a + b <? 2 ^ 64 then Some (a + b) else None.

Definition validate_packet_bounds (u : t) (addr length : Z) : result XskError.t Z :=
  if negb (validate_addr u addr) then Err (XskError.InvalidFrameAddress addr)
  else
    let? max := UmemConfig.max_packet_size (config u) in
    if max <? length then Err XskError.Config
    else
      match checked_add addr (UmemConfig.headroom (config u)) with
      | None => Err XskError.Config
      | Some start =>
          match checked_add start length with
          | None => Err XskError.Config
          | Some stop => if UmemConfig.total_size (config u) <? stop then Err XskError.Config else Ok start
          end
      end.

(** The slices are ranges of the memory. *)
Definition packet_checked (u : t) (addr length : Z) : result XskError.t (list Z) :=
  let? start := validate_packet_bounds u addr length in
  range (memory u) start (start + length).

Definition packet_mut_checked (u : t) (addr length : Z) (data : list Z) : result XskError.t t :=
  let? start := validate_packet_bounds u addr length in
  let? m := copy_from_slice (memory u) start (start + length) data in
  Ok (mk (config u) m).

Definition wf (u : t) : Prop := UmemConfig.wf (config u) /\ len (memory u) = UmemConfig.total_size (config u).

Lemma packet_in_frame u addr n start :
  wf u -> 0 <= addr -> 0 <= n -> validate_packet_bounds u addr n = Ok start ->
  start = addr + UmemConfig.headroom (config u) /\ addr <= start /\
  start + n <= addr + UmemConfig.frame_size (config u) /\ start + n <= len (memory u) /\
  addr mod UmemConfig.frame_size (config u) = 0.
Proof.
  intros [(Hfs & Hh & Hnf) Hm] Ha Hn. unfold validate_packet_bounds, validate_addr, UmemConfig.max_packet_size, checked_add.
  destruct (_ <? UmemConfig.total_size _) eqn:E1; [|done]. destruct (_ =? 0) eqn:E2; [|done]. simpl.
  rewrite (proj2 (Z.ltb_ge _ (UmemConfig.headroom _))) by lia. simpl.
  destruct (_ <? n) eqn:E3; [done|]. destruct (_ <? 2 ^ 64); [|done]. destruct (_ <? 2 ^ 64); [|done].
  destruct (UmemConfig.total_size _ <? _) eqn:E4; [done|]. intros [= <-]. b2p. rewrite Hm. lia.
Qed.

Lemma packet_checked_ok u addr n : wf u -> 0 <= addr -> 0 <= n -> packet_checked u addr n <> Panic.
Proof.
  intros Hw Ha Hn. unfold packet_checked. destruct (validate_packet_bounds u addr n) as [start| |] eqn:E; [|done|].
  - simpl. destruct (packet_in_frame u addr n start Hw Ha Hn E) as (_ & H1 & _ & H2 & _). unfold range.
    by rewrite !(proj2 (Z.leb_le _ _)) by lia.
  - destruct Hw as [(_ & Hh & _) _]. revert E. unfold validate_packet_bounds, UmemConfig.max_packet_size.
    destruct (validate_addr _ _); [|done]. rewrite (proj2 (Z.ltb_ge _ (UmemConfig.headroom _))) by lia. simpl.
    repeat (case_match; try done).
Qed.

Lemma umem_new_wf map_anon c u : UmemConfig.wf c -> new map_anon c = Ok u -> wf u.
Proof.
  intros Hc. unfold new. destruct (map_anon _); [done|]. intros [= <-]. split; [done|]. simpl. unfold len.
  rewrite length_replicate. destruct Hc as (H1 & _ & H2). unfold XDP_MIN_FRAME_SIZE in H1. unfold UmemConfig.total_size. nia.
Qed.

(** Every packet that fits is accepted at every frame. *)
Lemma packet_accepted u addr n :
  wf u -> addr ∈ FrameAllocator.addresses (UmemConfig.frame_size (config u)) (UmemConfig.num_frames (config u)) ->
  0 <= n <= UmemConfig.frame_size (config u) - UmemConfig.headroom (config u) ->
  validate_packet_bounds u addr n = Ok (addr + UmemConfig.headroom (config u)).
Proof.
  intros [(Hfs & Hh & Hnf) Hm] Ha Hn. unfold XDP_MIN_FRAME_SIZE, XDP_MAX_FRAME_SIZE in Hfs.
  pose proof Ha as [Hmod Hb]%FrameAllocator.addresses_elem; [|lia].
  assert (addr + UmemConfig.frame_size (config u) <= UmemConfig.total_size (config u)) as Hend.
  { apply list_elem_of_fmap in Ha as (i & -> & Hi). apply elem_of_seqZ in Hi. unfold UmemConfig.total_size. nia. }
  unfold validate_packet_bounds, validate_addr, UmemConfig.max_packet_size, checked_add in *.
  assert (UmemConfig.total_size (config u) < 2 ^ 64) as Hts by (unfold UmemConfig.total_size; nia).
  rewrite Hmod, (proj2 (Z.ltb_lt addr _)), (proj2 (Z.ltb_ge _ (UmemConfig.headroom _))) by lia. simpl.
  rewrite (proj2 (Z.ltb_ge _ n)) by lia.
  rewrite !(proj2 (Z.ltb_lt _ (2 ^ 64))) by lia. by rewrite (proj2 (Z.ltb_ge _ _)) by lia.
Qed.

Lemma range_outside (l src : list Z) a b c d :
  0 <= a -> a + len src = b -> b <= len l -> d <= a \/ b <= c -> 0 <= c -> c <= d -> d <= len l ->
  range (E:=XskError.t) (take (Z.to_nat a) l ++ src ++ drop (Z.to_nat b) l) c d = range l c d.
Proof.
  intros Ha Hab Hb Hd Hc Hcd Hdl. assert (len (take (Z.to_nat a) l ++ src ++ drop (Z.to_nat b) l) = len l) as Hlen.
  { unfold len in *. rewrite !length_app, length_take, length_drop. lia. }
  unfold range. rewrite Hlen. destruct (_ && _); [|done]. f_equal. unfold slice, len in *. apply list_eq. intros i.
  destruct (decide (i < Z.to_nat (d - c))%nat); [|rewrite !lookup_take_ge by lia; done].
  rewrite !lookup_take_lt, !lookup_drop by lia. destruct Hd.
  - rewrite lookup_app_l by (rewrite length_take; lia). by rewrite lookup_take_lt by lia.
  - rewrite lookup_app_r, lookup_app_r by (rewrite ?length_take; lia). rewrite lookup_drop. f_equal. rewrite length_take. lia.
Qed.

(** What is written into a frame is read from it, and no other frame changes. *)
Lemma packet_isolated u addr data u' :
  wf u -> 0 <= addr -> packet_mut_checked u addr (len data) data = Ok u' ->
  packet_checked u' addr (len data) = Ok data /\
  forall b m, 0 <= b -> 0 <= m -> b <> addr -> packet_checked u' b m = packet_checked u b m.
Proof.
  intros Hw Ha. unfold packet_mut_checked, packet_checked. pose proof (len_nonneg data) as Hn.
  destruct (validate_packet_bounds u addr (len data)) as [start| |] eqn:E; [|done..]. simpl. unfold copy_from_slice.
  destruct (packet_in_frame u addr _ start Hw Ha Hn E) as (Hs & H1 & H2 & H3 & H4).
  destruct (_ && _) eqn:Eb; [|done]. simpl. intros [= <-].
  change (validate_packet_bounds (mk (config u) _)) with (validate_packet_bounds u). split.
  - rewrite E. simpl. unfold range. rewrite (proj2 (Z.leb_le 0 start)), (proj2 (Z.leb_le start _)), (proj2 (Z.leb_le _ (len _))).
    + simpl. f_equal. unfold slice. rewrite drop_app_ge by (rewrite length_take; lia).
      assert (length (take (Z.to_nat start) (memory u)) = Z.to_nat start) as Hl by (rewrite length_take; unfold len in *; lia).
      rewrite Hl, Nat.sub_diag, drop_0. rewrite take_app_le by (unfold len in *; lia). rewrite take_ge; [done|unfold len; lia].
    + unfold len in *. rewrite !length_app, length_take, length_drop. lia.
    + lia.
    + lia.
  - intros b m Hb Hm Hne. destruct (validate_packet_bounds u b m) as [sb| |] eqn:E'; [|done..]. simpl.
    destruct (packet_in_frame u b m sb Hw Hb Hm E') as (Hs' & H1' & H2' & H3' & H4').
    apply range_outside; try lia. destruct Hw as [(Hfs & _) _]. unfold XDP_MIN_FRAME_SIZE in Hfs.
    apply Z.div_exact in H4; [|lia]. apply Z.div_exact in H4'; [|lia].
    assert (b / UmemConfig.frame_size (config u) < addr / UmemConfig.frame_size (config u) \/
      addr / UmemConfig.frame_size (config u) < b / UmemConfig.frame_size (config u)) as [?|?] by nia; [left|right]; nia.
Qed.

End Umem.

(** * Overlapping operations *)

Import FrameAllocator.

(** A schedule in which one thread runs a whole [alloc], alone. *)
Definition whole_alloc (i : nat) : list (nat * action) := [(i, CallAlloc); (i, Step false); (i, Step false); (i, Step false)].

(** [free] has reserved a slot and not written it: an [alloc] returns the frame
    that was there before, which another thread has. *)
Example alloc_during_free :
  held (run (new 2048 2 3) (whole_alloc 0 ++ whole_alloc 1 ++
    [(0%nat, CallFree 2048); (0%nat, Step false); (0%nat, Step false)] ++ whole_alloc 2)) = [0; 0].
Proof. vm_compute. reflexivity. Qed.

(** [alloc] has popped a slot and not read it: a [free] writes it, and the frame
    it frees is both returned and on the stack. *)
Example free_during_alloc :
  held (run (new 2048 2 3) (whole_alloc 1 ++ [(0%nat, CallAlloc); (0%nat, Step false); (0%nat, Step false)] ++
    [(1%nat, CallFree 2048); (1%nat, Step false); (1%nat, Step false); (1%nat, Step false)] ++
    [(0%nat, Step false)] ++ whole_alloc 2)) = [2048; 2048].
Proof. vm_compute. reflexivity. Qed.

(** Three threads that allocate at the same time, then free at the same time. *)
Definition example_schedule : list (nat * action) :=
  [(0%nat, CallAlloc); (1%nat, CallAlloc); (0%nat, Step false); (1%nat, Step false); (0%nat, Step false);
   (1%nat, Step false); (1%nat, Step false); (2%nat, CallAlloc); (2%nat, Step false); (2%nat, Step false);
   (0%nat, Step false); (2%nat, Step false); (1%nat, Step true); (1%nat, Step false); (1%nat, Step false);
   (1%nat, Step false); (0%nat, CallFree 6144); (2%nat, CallFree 4096); (0%nat, Step false); (2%nat, Step false);
   (2%nat, Step false); (0%nat, Step false); (0%nat, Step false); (0%nat, Step false)].

Lemma frames_not_shared_witness :
  NoDup (out (run (new 2048 4 3) example_schedule)) /\
  out (run (new 2048 4 3) example_schedule) = [2048].
Proof.
  split; [|vm_compute; reflexivity].
  apply (frames_not_shared 2048 4 3 example_schedule); [lia|lia|vm_compute; reflexivity].
Defined.
