(* ===== verification/Xsk.v ===== *)
(** The rings and the AF_XDP socket (hpn-afxdp/src/ring.rs and socket.rs).

    A ring is memory shared with the kernel: entries, and the positions of its
    producer and its consumer, each written by one side.  What the kernel does
    to the other end is an event of its own.  System calls are their outcomes
    ([System]), and calls that only wake the kernel are left out; the operations
    on the frame allocator are those of one thread, run without interruption. *)

From S2P Require Import Prelude Umem.

(** * One thread at a time *)

Module Frames.

(** The allocator as its only user sees it. *)
Record t := mk { free_stack : list Z; stack_top : Z; frame_size : Z; num_frames : Z }.

Definition new (frame_size num_frames : Z) : t :=
  mk (FrameAllocator.addresses frame_size num_frames) num_frames frame_size num_frames.

Definition alloc (f : t) : t * option Z :=
  if stack_top f =? 0 then (f, None)
  else (mk (free_stack f) (stack_top f - 1) (frame_size f) (num_frames f), free_stack f !! Z.to_nat (stack_top f - 1)).

Definition free {E} (addr : Z) (f : t) : result E t :=
  if negb ((addr mod frame_size f =? 0) && (addr <? num_frames f * frame_size f)) then Panic
  else if negb (stack_top f <? num_frames f) then Panic
  else
    let? stack := store (free_stack f) (stack_top f) addr in
    Ok (mk stack (stack_top f + 1) (frame_size f) (num_frames f)).

Definition available (f : t) : Z := stack_top f.

(** The allocator in the middle of nothing. *)
Definition of_allocator (s : FrameAllocator.t) : t :=
  mk (FrameAllocator.free_stack s) (FrameAllocator.stack_top s) (FrameAllocator.frame_size s) (FrameAllocator.num_frames s).

(** These are the operations of a thread that is not interrupted. *)
Lemma alloc_alone s i :
  FrameAllocator.threads s !! i = Some FrameAllocator.Idle ->
  0 <= FrameAllocator.stack_top s <= len (FrameAllocator.free_stack s) ->
  FrameAllocator.run s (whole_alloc i) =
    let '(f, r) := alloc (of_allocator s) in
    FrameAllocator.mk (free_stack f) (stack_top f) (frame_size f) (num_frames f) (FrameAllocator.threads s)
      (match r with Some a => [a] | None => [] end ++ FrameAllocator.held s).
Proof.
  intros Hi Ht. assert (i < length (FrameAllocator.threads s))%nat as Hl by (by eapply lookup_lt_Some).
  destruct s as [stack top fs n th h]. cbn [FrameAllocator.threads FrameAllocator.stack_top FrameAllocator.free_stack] in *.
  unfold whole_alloc, FrameAllocator.run. cbn [foldl].
  unfold FrameAllocator.step at 4. cbn [FrameAllocator.threads]. rewrite Hi.
  unfold FrameAllocator.step at 3. cbn [FrameAllocator.at_pc FrameAllocator.set FrameAllocator.threads].
  rewrite list_lookup_insert_eq by done. cbn [FrameAllocator.stack_top]. unfold alloc. cbn.
  destruct (Z.eqb_spec top 0) as [->|Hn].
  - unfold FrameAllocator.step at 2. cbn. rewrite list_lookup_insert_eq by (by rewrite length_insert).
    unfold FrameAllocator.step. cbn. rewrite list_lookup_insert_eq by (by rewrite length_insert).
    unfold FrameAllocator.at_pc, FrameAllocator.set. cbn. by rewrite list_insert_insert_eq, list_insert_id.
  - unfold FrameAllocator.step at 2. cbn. rewrite list_lookup_insert_eq by (by rewrite length_insert). rewrite Z.eqb_refl. cbn.
    unfold FrameAllocator.step. cbn. rewrite list_lookup_insert_eq by (by rewrite !length_insert).
    destruct (lookup_lt_is_Some_2 stack (Z.to_nat (top - 1))) as [x Hx]; [unfold len in Ht; lia|]. rewrite Hx. cbn.
    unfold FrameAllocator.at_pc, FrameAllocator.set. cbn. by rewrite !list_insert_insert_eq, list_insert_id.
Qed.

Definition whole_free (i : nat) (addr : Z) : list (nat * FrameAllocator.action) :=
  [(i, FrameAllocator.CallFree addr); (i, FrameAllocator.Step false); (i, FrameAllocator.Step false); (i, FrameAllocator.Step false)].

Lemma free_alone {E} s i addr f :
  FrameAllocator.threads s !! i = Some FrameAllocator.Idle -> addr ∈ FrameAllocator.held s ->
  free (E := E) addr (of_allocator s) = Ok f ->
  FrameAllocator.run s (whole_free i addr) =
    FrameAllocator.mk (free_stack f) (stack_top f) (frame_size f) (num_frames f) (FrameAllocator.threads s)
      (FrameAllocator.remove_one addr (FrameAllocator.held s)).
Proof.
  intros Hi Hin. assert (i < length (FrameAllocator.threads s))%nat as Hl by (by eapply lookup_lt_Some).
  destruct s as [stack top fs n th h]. cbn [FrameAllocator.threads FrameAllocator.held] in *.
  unfold free, of_allocator. cbn [stack_top free_stack frame_size num_frames FrameAllocator.stack_top
    FrameAllocator.free_stack FrameAllocator.frame_size FrameAllocator.num_frames].
  destruct ((addr mod fs =? 0) && (addr <? n * fs)) eqn:Ea; [|done]. destruct (top <? n) eqn:Et; [|done].
  unfold store. destruct ((0 <=? top) && (top <? len stack)) eqn:Es; [|done]. simpl. intros [= <-].
  unfold whole_free, FrameAllocator.run. cbn [foldl].
  unfold FrameAllocator.step at 4. cbn [FrameAllocator.threads FrameAllocator.held]. rewrite Hi, bool_decide_true by done. cbn.
  rewrite Ea. unfold FrameAllocator.step at 3. cbn. rewrite list_lookup_insert_eq by done. rewrite Et.
  unfold FrameAllocator.step at 2. cbn. rewrite list_lookup_insert_eq by (by rewrite length_insert). rewrite Z.eqb_refl. cbn.
  unfold FrameAllocator.step. cbn. rewrite list_lookup_insert_eq by (by rewrite !length_insert).
  apply andb_true_iff in Es as [_ Es]. rewrite Es. unfold FrameAllocator.set. cbn.
  by rewrite !list_insert_insert_eq, (list_insert_id th).
Qed.

End Frames.

(** * Rings *)

(** [XdpDesc], without its options. *)
Record XdpDesc := mk_desc { desc_addr : Z; desc_len : Z }.

Module RingConfig.

Definition new (size : Z) : result XskError.t Z :=
  if is_power_of_two size then Ok size else Err (XskError.InvalidRingSize size).

End RingConfig.

(** [RingMmap]: the shared memory of a ring. *)
Module RingMmap.

Record t (A : Type) := mk { entries : list A; producer : Z; consumer : Z; mask : Z }.
Arguments mk {A}.
Arguments entries {A}.
Arguments producer {A}.
Arguments consumer {A}.
Arguments mask {A}.

Definition new {A} (size : Z) (x : A) : t A := mk (replicate (Z.to_nat size) x) 0 0 (size - 1).

End RingMmap.

(** [FillRing] and [TxRing]: the ends that produce. *)
Module FillRing.

Record t (A : Type) := mk { mmap : RingMmap.t A; cached_prod : Z }.
Arguments mk {A}.
Arguments mmap {A}.
Arguments cached_prod {A}.

Definition new {A} (size : Z) (x : A) : t A := mk (RingMmap.new size x) 0.

(** Both subtractions abort when they go below zero. *)
Definition free_slots {E A} (r : t A) : result E Z :=
  let cons := RingMmap.consumer (mmap r) in
  let prod := cached_prod r in
  if prod <? cons then Panic
  else if RingMmap.mask (mmap r) + 1 <? prod - cons then Panic
  else Ok (RingMmap.mask (mmap r) + 1 - (prod - cons)).

Definition reserve {E A} (count : Z) (r : t A) : result E (t A * option Z) :=
  let? free := free_slots r in
  if free <? count then Ok (r, None)
  else Ok (mk (mmap r) (wrapping_add 32 (cached_prod r) count), Some (cached_prod r)).

Definition write {A} (idx : Z) (x : A) (r : t A) : t A :=
  let m := mmap r in
  let ring_idx := Z.land idx (RingMmap.mask m) in
  mk (RingMmap.mk (<[Z.to_nat ring_idx := x]> (RingMmap.entries m)) (RingMmap.producer m) (RingMmap.consumer m) (RingMmap.mask m))
    (cached_prod r).

Definition submit {A} (count : Z) (r : t A) : t A :=
  let m := mmap r in
  mk (RingMmap.mk (RingMmap.entries m) (wrapping_add 32 (RingMmap.producer m) count) (RingMmap.consumer m) (RingMmap.mask m))
    (cached_prod r).

End FillRing.

(** [RxRing] and [CompletionRing]: the ends that consume. *)
Module RxRing.

Record t (A : Type) := mk { mmap : RingMmap.t A; cached_cons : Z }.
Arguments mk {A}.
Arguments mmap {A}.
Arguments cached_cons {A}.

Definition new {A} (size : Z) (x : A) : t A := mk (RingMmap.new size x) 0.

Definition available {A} (r : t A) : Z := wrapping_sub 32 (RingMmap.producer (mmap r)) (cached_cons r).

(** [get_desc], or [peek] of a completion ring. *)
Definition get_desc {A} (idx : Z) (r : t A) : option A :=
  let ring_idx := Z.land (wrapping_add 32 (cached_cons r) idx) (RingMmap.mask (mmap r)) in
  RingMmap.entries (mmap r) !! Z.to_nat ring_idx.

Definition release {A} (count : Z) (r : t A) : t A :=
  let m := mmap r in
  let cons := wrapping_add 32 (cached_cons r) count in
  mk (RingMmap.mk (RingMmap.entries m) (RingMmap.producer m) cons (RingMmap.mask m)) cons.

End RxRing.

(** ** A ring is a bounded queue *)

Module RingQueue.

Section RingQueue.
Context {A : Type}.

(** Writing at consecutive positions. *)
Fixpoint write_all (idx : Z) (xs : list A) (r : FillRing.t A) : FillRing.t A :=
  match xs with
  | [] => r
  | x :: xs => write_all (wrapping_add 32 idx 1) xs (FillRing.write idx x r)
  end.

(** The producer puts entries: it reserves room, writes and submits. *)
Definition put {E} (xs : list A) (r : FillRing.t A) : result E (FillRing.t A * bool) :=
  let? (r, idx) := FillRing.reserve (len xs) r in
  match idx with
  | None => Ok (r, false)
  | Some idx => Ok (FillRing.submit (len xs) (write_all idx xs r), true)
  end.

(** The consumer takes [n] entries. *)
Definition take_entries (n : nat) (r : RxRing.t A) : RxRing.t A * list A :=
  (RxRing.release (Z.of_nat n) r, omap (fun i => RxRing.get_desc (Z.of_nat i) r) (seq 0 n)).

(** The two ends of one ring, after [p] entries were put and [c] taken: what is
    in it is the queue [q]. *)
Definition holds (k : Z) (p c : Z) (q : list A) (prod : FillRing.t A) (cons : RxRing.t A) : Prop :=
  let m := FillRing.mmap prod in
  let size := 2 ^ k in
  RxRing.mmap cons = m /\ RingMmap.mask m = size - 1 /\ len (RingMmap.entries m) = size /\
  RingMmap.producer m = p mod 2 ^ 32 /\ FillRing.cached_prod prod = p mod 2 ^ 32 /\
  RingMmap.consumer m = c mod 2 ^ 32 /\ RxRing.cached_cons cons = c mod 2 ^ 32 /\
  0 <= c /\ p = c + len q /\ len q <= size /\
  forall i, 0 <= i < len q -> RingMmap.entries m !! Z.to_nat ((c + i) mod size) = q !! Z.to_nat i.

Lemma mod_neq x y m : 0 < y - x < m -> x mod m <> y mod m.
Proof.
  intros H E. assert ((y - x) mod m = 0) as H0 by (rewrite Zminus_mod, E, Z.sub_diag; apply Zmod_0_l).
  rewrite Z.mod_small in H0; lia.
Qed.

(** Positions wrap, and the mask finds their entry. *)
Lemma ring_index k x : 0 <= k <= 32 -> Z.land (x mod 2 ^ 32) (2 ^ k - 1) = x mod 2 ^ k.
Proof.
  intros Hk. replace (2 ^ k - 1) with (Z.ones k) by (rewrite Z.ones_equiv; lia). rewrite Z.land_ones by lia.
  apply Z.mod_mod_divide. exists (2 ^ (32 - k)). rewrite <- Z.pow_add_r by lia. f_equal. lia.
Qed.

(** What is between two positions, before and after they wrap. *)
Lemma positions_apart p c k : 0 <= p - c <= 2 ^ k -> 0 <= k <= 31 -> (p mod 2 ^ 32 - c mod 2 ^ 32) mod 2 ^ 32 = p - c.
Proof.
  intros H Hk. rewrite <- Zminus_mod. apply Z.mod_small. pose proof (Z.pow_le_mono_r 2 k 31 ltac:(lia) ltac:(lia)). lia.
Qed.

Lemma positions_ordered p c k :
  0 <= p - c <= 2 ^ k -> 0 <= k <= 31 -> c mod 2 ^ 32 <= p mod 2 ^ 32 -> p mod 2 ^ 32 - c mod 2 ^ 32 = p - c.
Proof.
  intros H Hk Hle. pose proof (positions_apart p c k H Hk) as E. rewrite Z.mod_small in E; [done|].
  pose proof (Z.mod_pos_bound p (2 ^ 32)). pose proof (Z.mod_pos_bound c (2 ^ 32)). lia.
Qed.

Lemma wrapping_next x n : wrapping_add 32 (x mod 2 ^ 32) n = (x + n) mod 2 ^ 32.
Proof. unfold wrapping_add. by rewrite Zplus_mod_idemp_l. Qed.

Lemma write_all_spec k b xs r :
  0 <= k <= 31 -> RingMmap.mask (FillRing.mmap r) = 2 ^ k - 1 -> len (RingMmap.entries (FillRing.mmap r)) = 2 ^ k -> len xs <= 2 ^ k ->
  let r' := write_all (b mod 2 ^ 32) xs r in
  let m := FillRing.mmap r in
  let m' := FillRing.mmap r' in
  FillRing.cached_prod r' = FillRing.cached_prod r /\ RingMmap.mask m' = RingMmap.mask m /\
  len (RingMmap.entries m') = 2 ^ k /\ RingMmap.producer m' = RingMmap.producer m /\ RingMmap.consumer m' = RingMmap.consumer m /\
  (forall i, 0 <= i < len xs -> RingMmap.entries m' !! Z.to_nat ((b + i) mod 2 ^ k) = xs !! Z.to_nat i) /\
  (forall x, (forall i, 0 <= i < len xs -> x mod 2 ^ k <> (b + i) mod 2 ^ k) ->
     RingMmap.entries m' !! Z.to_nat (x mod 2 ^ k) = RingMmap.entries m !! Z.to_nat (x mod 2 ^ k)).
Proof.
  intros Hk. assert (0 < 2 ^ k) as Hpos by (apply Z.pow_pos_nonneg; lia).
  revert b r. induction xs as [|x xs IH]; intros b r Hm He Hl; [split_and!; try done; change (len []) with 0; lia|].
  cbn [write_all]. rewrite wrapping_next. rewrite len_cons in Hl. pose proof (len_nonneg xs) as Hn.
  set (r1 := FillRing.write (b mod 2 ^ 32) x r).
  assert (RingMmap.entries (FillRing.mmap r1) = <[Z.to_nat (b mod 2 ^ k) := x]> (RingMmap.entries (FillRing.mmap r))) as Hw.
  { unfold r1, FillRing.write. cbn. by rewrite Hm, ring_index by lia. }
  destruct (IH (b + 1) r1) as (H1 & H2 & H3 & H4 & H5 & H6 & H7); [done|by rewrite Hw; unfold len in *; rewrite length_insert|lia|].
  pose proof (Z.mod_pos_bound b (2 ^ k) Hpos) as Hb.
  split_and!; [done..| |].
  - intros i Hi. rewrite len_cons in Hi. destruct (decide (i = 0)) as [->|Hi0].
    + rewrite Z.add_0_r, H7, Hw, list_lookup_insert_eq by (intros; try apply mod_neq; unfold len in *; lia). done.
    + replace (b + i) with (b + 1 + (i - 1)) by lia. rewrite H6 by lia.
      replace (Z.to_nat i) with (S (Z.to_nat (i - 1))) by lia. done.
  - intros y Hy. rewrite H7.
    + rewrite Hw, list_lookup_insert_ne; [done|]. specialize (Hy 0). rewrite Z.add_0_r, len_cons in Hy.
      pose proof (Z.mod_pos_bound y (2 ^ k) Hpos). intros E. apply Hy; lia.
    + intros i Hi. replace (b + 1 + i) with (b + (i + 1)) by lia. apply Hy. rewrite len_cons. lia.
Qed.

(** The consumer's end sees the memory the producer has changed, and the
    producer's the one the consumer has. *)
Definition sees (cons : RxRing.t A) (prod : FillRing.t A) : RxRing.t A := RxRing.mk (FillRing.mmap prod) (RxRing.cached_cons cons).
Definition seen (prod : FillRing.t A) (cons : RxRing.t A) : FillRing.t A := FillRing.mk (RxRing.mmap cons) (FillRing.cached_prod prod).

Lemma put_spec {E} k p c q prod cons xs :
  0 <= k <= 31 -> holds k p c q prod cons ->
  (p mod 2 ^ 32 < c mod 2 ^ 32 -> put (E := E) xs prod = Panic) /\
  (c mod 2 ^ 32 <= p mod 2 ^ 32 -> 2 ^ k < len q + len xs -> put (E := E) xs prod = Ok (prod, false)) /\
  (c mod 2 ^ 32 <= p mod 2 ^ 32 -> len q + len xs <= 2 ^ k ->
     exists prod', put (E := E) xs prod = Ok (prod', true) /\ holds k (p + len xs) c (q ++ xs) prod' (sees cons prod')).
Proof.
  intros Hk (Hmm & Hm & He & Hp & Hcp & Hc & Hcc & H0 & -> & Hq & Hi). pose proof (len_nonneg q). pose proof (len_nonneg xs).
  assert (0 < 2 ^ k) as Hpos by (apply Z.pow_pos_nonneg; lia).
  assert (c mod 2 ^ 32 <= (c + len q) mod 2 ^ 32 ->
    FillRing.free_slots (E := E) prod = Ok (2 ^ k - len q)) as Hfree.
  { intros Hle. unfold FillRing.free_slots. rewrite Hc, Hcp, Hm, (proj2 (Z.ltb_ge _ _)) by done.
    rewrite (positions_ordered (c + len q) c k) by first [done|lia].
    rewrite (proj2 (Z.ltb_ge _ _)) by lia. f_equal. lia. }
  unfold put, FillRing.reserve. split_and!.
  - intros Hlt. unfold FillRing.free_slots. by rewrite Hc, Hcp, (proj2 (Z.ltb_lt _ _)) by done.
  - intros Hle Hfull. rewrite Hfree by done. simpl. by rewrite (proj2 (Z.ltb_lt _ _)) by lia.
  - intros Hle Hroom. rewrite Hfree by done. simpl. rewrite (proj2 (Z.ltb_ge _ _)) by lia. simpl. eexists. split; [done|].
    rewrite Hcp. set (r0 := FillRing.mk _ _).
    destruct (write_all_spec k (c + len q) xs r0) as (W1 & W2 & W3 & W4 & W5 & W6 & W7); [done|done|done|lia|].
    unfold holds, sees, FillRing.submit. cbn. rewrite W1, W2, W4, W5. unfold r0. cbn. rewrite len_app.
    split_and!; try first [done|by rewrite ?Hp, wrapping_next|lia].
    intros i Hil. destruct (decide (i < len q)).
    + rewrite W7, lookup_app_l by (first [by intros j Hj; apply mod_neq; lia|unfold len in *; lia]).
      apply Hi. lia.
    + replace (c + i) with (c + len q + (i - len q)) by lia. rewrite W6 by lia.
      rewrite lookup_app_r by (unfold len in *; lia). f_equal. unfold len. lia.
Qed.

Lemma take_spec k p c q prod cons n :
  0 <= k <= 31 -> holds k p c q prod cons -> Z.of_nat n <= len q ->
  RxRing.available cons = len q /\
  exists cons', take_entries n cons = (cons', take n q) /\
    holds k p (c + Z.of_nat n) (drop n q) (seen prod cons') cons'.
Proof.
  intros Hk (Hmm & Hm & He & Hp & Hcp & Hc & Hcc & H0 & -> & Hq & Hi) Hn. split.
  { unfold RxRing.available, wrapping_sub. rewrite Hmm, Hp, Hcc, (positions_apart _ _ k) by lia. lia. }
  eexists. split.
  - unfold take_entries. f_equal. apply list_eq. intros j.
    assert (forall l, (length l <= n)%nat -> (forall i, (i < length l)%nat -> l !! i = Some i) ->
      omap (fun i => RxRing.get_desc (Z.of_nat i) cons) l = take (length l) q) as Homap.
    { intros l. induction l as [|x l IH] using rev_ind; [done|]. intros Hl Hx. rewrite length_app in *. simpl in *.
      rewrite omap_app, IH; [|lia|intros i Hlt; rewrite <- (Hx i) by lia; by rewrite lookup_app_l].
      pose proof (Hx (length l) ltac:(lia)) as Hlast. rewrite list_lookup_middle in Hlast by done. injection Hlast as ->.
      destruct (lookup_lt_is_Some_2 q (length l)) as [y Hy]; [unfold len in Hn; lia|].
      replace (length l + 1)%nat with (S (length l)) by lia. rewrite (take_S_r q _ y) by done. f_equal. simpl.
      unfold RxRing.get_desc. rewrite Hmm, Hcc, Hm, wrapping_next, ring_index by lia.
      rewrite Hi by (unfold len in *; lia). rewrite Nat2Z.id, Hy. done. }
    rewrite Homap; rewrite length_seq; [done|lia|]. intros i Hlt. rewrite lookup_seq. split; lia.
  - unfold holds, seen, RxRing.release. cbn. rewrite Hmm, Hcc, wrapping_next. unfold len in *. rewrite length_drop.
    split_and!; try done; try lia. intros i Hil. rewrite lookup_drop. replace (c + Z.of_nat n + i) with (c + (Z.of_nat n + i)) by lia.
    rewrite Hi by lia. f_equal. lia.
Qed.

(** Operations on the two ends, in any order. *)
Inductive op := Put (xs : list A) | Take (n : nat).

(** A put is refused when there is no room; a take asks for no more than there
    is, as the callers do. *)
Fixpoint run {E} (ops : list op) (prod : FillRing.t A) (cons : RxRing.t A) : result E (list (bool + list A)) :=
  match ops with
  | [] => Ok []
  | Put xs :: ops =>
      let? (prod, ok) := put xs prod in
      let? out := run ops prod (sees cons prod) in
      Ok (inl ok :: out)
  | Take n :: ops =>
      let n := Nat.min n (Z.to_nat (RxRing.available cons)) in
      let '(rx, xs) := take_entries n cons in
      let? out := run ops (seen prod rx) rx in
      Ok (inr xs :: out)
  end.

(** The specification: a queue of at most [size] entries. *)
Fixpoint queue (size : Z) (ops : list op) (q : list A) : list (bool + list A) :=
  match ops with
  | [] => []
  | Put xs :: ops =>
      if len q + len xs <=? size then inl true :: queue size ops (q ++ xs) else inl false :: queue size ops q
  | Take n :: ops => inr (take n q) :: queue size ops (drop n q)
  end.

Fixpoint volume (ops : list op) : Z :=
  match ops with [] => 0 | Put xs :: ops => len xs + volume ops | Take _ :: ops => volume ops end.

Lemma volume_nonneg ops : 0 <= volume ops.
Proof. induction ops as [|[xs|n] ops IH]; simpl; [done| |done]. pose proof (len_nonneg xs). lia. Qed.

Lemma holds_sees k p c q prod cons : holds k p c q prod cons -> sees cons prod = cons /\ seen prod cons = prod.
Proof. intros [Hm _]. destruct prod, cons. simpl in Hm. unfold sees, seen. simpl. by subst. Qed.

Lemma run_queue {E} k ops p c q prod cons :
  0 <= k <= 31 -> holds k p c q prod cons -> p + volume ops < 2 ^ 32 ->
  run (E := E) ops prod cons = Ok (queue (2 ^ k) ops q).
Proof.
  intros Hk. revert p c q prod cons. induction ops as [|[xs|n] ops IH]; intros p c q prod cons Hh Hv; [done| |]; cbn [run queue volume] in *;
    pose proof (volume_nonneg ops); pose proof Hh as (_ & _ & _ & _ & _ & _ & _ & H0 & Hp & _); pose proof (len_nonneg q).
  - pose proof (len_nonneg xs). destruct (put_spec (E := E) k p c q prod cons xs Hk Hh) as (_ & Hfull & Hroom).
    assert (c mod 2 ^ 32 <= p mod 2 ^ 32) as Hle by (rewrite !Z.mod_small; lia).
    destruct (Z.leb_spec (len q + len xs) (2 ^ k)).
    + destruct (Hroom Hle) as (prod' & -> & Hh'); [done|]. simpl. by rewrite (IH _ _ _ _ _ Hh') by lia.
    + rewrite (Hfull Hle) by lia. simpl. rewrite (proj1 (holds_sees _ _ _ _ _ _ Hh)). by rewrite (IH _ _ _ _ _ Hh) by lia.
  - destruct (take_spec k p c q prod cons 0 Hk Hh) as [-> _]; [lia|].
    destruct (take_spec k p c q prod cons (Nat.min n (Z.to_nat (len q))) Hk Hh) as (_ & cons' & -> & Hh'); [lia|].
    rewrite (IH _ _ _ _ _ Hh') by lia. simpl. unfold len. rewrite Nat2Z.id.
    destruct (decide (n <= length q)%nat); [by rewrite Nat.min_l by lia|].
    by rewrite Nat.min_r, !take_ge, !drop_ge by lia.
Qed.

End RingQueue.

Arguments op : clear implicits.

(** A new ring. *)
Lemma new_holds {A} k (x : A) : 0 <= k -> holds k 0 0 [] (FillRing.new (2 ^ k) x) (RxRing.new (2 ^ k) x).
Proof.
  intros Hk. unfold holds. cbn. unfold len. rewrite length_replicate. pose proof (Z.pow_nonneg 2 k).
  split_and!; try done; try lia. - simpl. lia.
  - intros i Hi. simpl in Hi. lia.
Qed.

(** A ring is a queue: until 2^32 entries were put, whatever is put and
    taken in whatever order, the entries come out in the order they went in, a
    put is refused exactly when there is no room for all of it, and nothing
    aborts.  When the positions wrap, entries are still found and taken in
    order, but a put aborts while the producer's position has wrapped and the
    consumer's has not. *)
Lemma ring_is_queue {A} k (x : A) (ops : list (op A)) :
  0 <= k <= 31 ->
  (volume ops < 2 ^ 32 ->
     run (E := XskError.t) ops (FillRing.new (2 ^ k) x) (RxRing.new (2 ^ k) x) = Ok (queue (2 ^ k) ops [])) /\
  (forall p c (q : list A) prod cons, holds k p c q prod cons ->
     (forall n, Z.of_nat n <= len q -> snd (take_entries n cons) = take n q) /\
     (forall xs, p mod 2 ^ 32 < c mod 2 ^ 32 -> put (E := XskError.t) xs prod = Panic)).
Proof.
  intros Hk. split; [intros Hv; eapply run_queue; [done|apply new_holds; lia|done]|]. intros p c q prod cons Hh. split.
  - intros n Hn. by destruct (take_spec k p c q prod cons n Hk Hh Hn) as (_ & cons' & -> & _).
  - intros xs. by apply (put_spec k p c q prod cons xs Hk Hh).
Qed.

End RingQueue.

(** * The socket *)

Module XskConfig.

Record t := mk {
  interface : list Z;
  queue_id : Z;
  umem : UmemConfig.t;
  ring_size : Z;
  zero_copy : bool;
  use_need_wakeup : bool;
  fill_prefill : Z
}.

Definition default : t := mk [] 0 UmemConfig.default 4096 true true 2048.

Definition new (interface : list Z) : t := mk interface 0 UmemConfig.default 4096 true true 2048.

Definition validate (c : t) : result XskError.t unit :=
  if bool_decide (interface c = []) then Err XskError.Config
  else if negb (is_power_of_two (ring_size c)) then Err (XskError.InvalidRingSize (ring_size c))
  else
    let? _ := UmemConfig.new (UmemConfig.frame_size (umem c)) (UmemConfig.headroom (umem c)) (UmemConfig.num_frames (umem c)) in
    if UmemConfig.num_frames (umem c) <? fill_prefill c then Err XskError.Config else Ok tt.

(** The fields have their types. *)
Definition typed (c : t) : Prop :=
  u32 (UmemConfig.frame_size (umem c)) /\ u32 (UmemConfig.headroom (umem c)) /\ u32 (UmemConfig.num_frames (umem c)) /\
  u32 (ring_size c) /\ u32 (fill_prefill c).

End XskConfig.

(** What the operating system answers while a socket is made: a value, or the
    number of an error. *)
Record System := mk_system {
  map_anon : Z -> option Z;
  if_nametoindex : list Z -> Z + Z;
  xsk_socket : Z + Z;
  umem_registration : option Z;
  mmap_offsets : option Z;
  ring_creation : XskError.ring -> option Z;
  ring_mapping : XskError.ring -> option Z;
  xsk_bind : Z -> option Z
}.

Definition EPERM : Z := 1.
Definition EOPNOTSUPP : Z := 95.
Definition EAFNOSUPPORT : Z := 97.
Definition XDP_COPY : Z := 2.
Definition XDP_ZEROCOPY : Z := 4.
Definition XDP_USE_NEED_WAKEUP : Z := 8.

Definition succeeds (outcome : option Z) (error : Z -> XskError.t) : result XskError.t unit :=
  match outcome with None => Ok tt | Some e => Err (error e) end.

Module XskSocket.

(** The descriptor and what the socket is bound to. *)
Record binding := mk_binding { fd : Z; ifindex : Z; queue_id : Z; zero_copy_active : bool }.

Record t := mk {
  umem : Umem.t;
  frames : Frames.t;
  fill : FillRing.t Z;
  comp : RxRing.t Z;
  rx : RxRing.t XdpDesc;
  tx : FillRing.t XdpDesc;
  bound : binding
}.

Definition with_fill (s : t) (f : Frames.t) (r : FillRing.t Z) : t := mk (umem s) f r (comp s) (rx s) (tx s) (bound s).
Definition with_comp (s : t) (f : Frames.t) (r : RxRing.t Z) : t := mk (umem s) f (fill s) r (rx s) (tx s) (bound s).
Definition with_rx (s : t) (r : RxRing.t XdpDesc) : t := mk (umem s) (frames s) (fill s) (comp s) r (tx s) (bound s).
Definition with_tx (s : t) (r : FillRing.t XdpDesc) : t := mk (umem s) (frames s) (fill s) (comp s) (rx s) r (bound s).

(** Frames for the positions [idx], ...: how many were allocated and written. *)
Fixpoint fill_frames (n : nat) (idx : Z) (f : Frames.t) (r : FillRing.t Z) : Frames.t * FillRing.t Z * nat :=
  match n with
  | O => (f, r, O)
  | S n =>
      match Frames.alloc f with
      | (f, Some addr) =>
          let '(f, r, m) := fill_frames n (wrapping_add 32 idx 1) f (FillRing.write idx addr r) in (f, r, S m)
      | (f, None) => (f, r, O)
      end
  end.

Definition prefill_fill_ring (count : Z) (s : t) : result XskError.t t :=
  let actual := Z.min count (Frames.available (frames s)) in
  if actual =? 0 then Ok s
  else
    let? (r, start_idx) := FillRing.reserve actual (fill s) in
    match start_idx with
    | None => Err XskError.Config
    | Some idx =>
        let '(f, r, m) := fill_frames (Z.to_nat actual) idx (frames s) r in
        if (m =? Z.to_nat actual)%nat then Ok (with_fill s f (FillRing.submit actual r)) else Err XskError.UmemExhausted
    end.

(** A ring is given its size and mapped. *)
Definition open_ring (sys : System) (r : XskError.ring) : result XskError.t unit :=
  let? _ := succeeds (ring_creation sys r) (XskError.RingCreation r) in
  succeeds (ring_mapping sys r) (XskError.RingMapping r).

(** Binding, without zero copy if the driver does not have it; whether it has. *)
Definition bind (sys : System) (config : XskConfig.t) : result XskError.t bool :=
  let wakeup := if XskConfig.use_need_wakeup config then XDP_USE_NEED_WAKEUP else 0 in
  let flags := Z.lor (if XskConfig.zero_copy config then XDP_ZEROCOPY else XDP_COPY) wakeup in
  let error := XskError.Bind (XskConfig.interface config) (XskConfig.queue_id config) in
  match xsk_bind sys flags with
  | None => Ok (XskConfig.zero_copy config)
  | Some e =>
      if XskConfig.zero_copy config && (e =? EOPNOTSUPP) then
        let? _ := succeeds (xsk_bind sys (Z.lor XDP_COPY wakeup)) error in Ok false
      else Err (error e)
  end.

Definition with_umem (sys : System) (config : XskConfig.t) (umem : Umem.t) (f : Frames.t) : result XskError.t t :=
  let? _ := XskConfig.validate config in
  let? ifindex :=
    match if_nametoindex sys (XskConfig.interface config) with
    | inl e => Err (XskError.InterfaceIndex (XskConfig.interface config) e)
    | inr i => Ok i
    end in
  let? fd :=
    match xsk_socket sys with
    | inl e =>
        Err (if e =? EPERM then XskError.PermissionDenied
             else if e =? EAFNOSUPPORT then XskError.NotSupported
             else XskError.SocketCreation e)
    | inr fd => Ok fd
    end in
  let? _ := succeeds (umem_registration sys) XskError.UmemRegistration in
  let? _ := succeeds (mmap_offsets sys) XskError.SocketOption in
  let? size := RingConfig.new (XskConfig.ring_size config) in
  let? _ := open_ring sys XskError.Fill in
  let? _ := open_ring sys XskError.Completion in
  let? _ := open_ring sys XskError.Rx in
  let? _ := open_ring sys XskError.Tx in
  let? zero_copy_active := bind sys config in
  prefill_fill_ring (XskConfig.fill_prefill config)
    (mk umem f (FillRing.new size 0) (RxRing.new size 0) (RxRing.new size (mk_desc 0 0)) (FillRing.new size (mk_desc 0 0))
       (mk_binding fd ifindex (XskConfig.queue_id config) zero_copy_active)).

Definition new (sys : System) (config : XskConfig.t) : result XskError.t t :=
  let? _ := XskConfig.validate config in
  let c := XskConfig.umem config in
  let? c := UmemConfig.new (UmemConfig.frame_size c) (UmemConfig.headroom c) (UmemConfig.num_frames c) in
  let? u := Umem.new (map_anon sys) c in
  with_umem sys config u (Frames.new (UmemConfig.frame_size c) (UmemConfig.num_frames c)).

(** Completed frames, back to the allocator. *)
Fixpoint free_all (addrs : list Z) (f : Frames.t) : result XskError.t Frames.t :=
  match addrs with
  | [] => Ok f
  | addr :: addrs => let? f := Frames.free addr f in free_all addrs f
  end.

Definition reclaim_completed (s : t) : result XskError.t t :=
  let completed := RxRing.available (comp s) in
  let addrs := omap (fun i => RxRing.get_desc (Z.of_nat i) (comp s)) (seq 0 (Z.to_nat completed)) in
  let? f := free_all addrs (frames s) in
  Ok (with_comp s f (if 0 <? completed then RxRing.release completed (comp s) else comp s)).

Definition refill_frames (count : Z) (s : t) : result XskError.t t :=
  let? s := reclaim_completed s in
  let available := Z.min (Frames.available (frames s)) count in
  if available =? 0 then Ok s
  else
    let? (r, start_idx) := FillRing.reserve available (fill s) in
    match start_idx with
    | None => Ok (with_fill s (frames s) r)
    | Some idx =>
        let '(f, r, m) := fill_frames (Z.to_nat available) idx (frames s) r in
        Ok (with_fill s f (FillRing.submit (Z.of_nat m) r))
    end.

(** [recv]: the addresses and lengths its handler gets. *)
Definition recv (max_batch : Z) (s : t) : result XskError.t (t * list (Z * Z)) :=
  let available := Z.min (RxRing.available (rx s)) max_batch in
  if available =? 0 then Ok (s, [])
  else
    let descs := omap (fun i => RxRing.get_desc (Z.of_nat i) (rx s)) (seq 0 (Z.to_nat available)) in
    let s := with_rx s (RxRing.release available (rx s)) in
    let? s := refill_frames available s in
    Ok (s, map (fun d => (desc_addr d, desc_len d)) descs).

(** The packets [recv_batch] gives to its handler, until the handler says stop:
    how many descriptors that took, and the packets. *)
Fixpoint recv_packets (handler : list Z -> bool) (u : Umem.t) (descs : list XdpDesc)
    : result XskError.t (Z * list (list Z)) :=
  match descs with
  | [] => Ok (0, [])
  | d :: descs =>
      match Umem.packet_checked u (desc_addr d) (desc_len d) with
      | Ok packet =>
          if handler packet then let? (n, ps) := recv_packets handler u descs in Ok (n + 1, packet :: ps)
          else Ok (1, [packet])
      | Err _ => let? (n, ps) := recv_packets handler u descs in Ok (n + 1, ps)
      | Panic => Panic
      end
  end.

Definition recv_batch (handler : list Z -> bool) (max_batch : Z) (s : t) : result XskError.t (t * Z * list (list Z)) :=
  let available := Z.min (RxRing.available (rx s)) max_batch in
  if available =? 0 then Ok (s, 0, [])
  else
    let descs := omap (fun i => RxRing.get_desc (Z.of_nat i) (rx s)) (seq 0 (Z.to_nat available)) in
    let? (processed, packets) := recv_packets handler (umem s) descs in
    let s := with_rx s (RxRing.release processed (rx s)) in
    let? s := refill_frames processed s in
    Ok (s, processed, packets).

(** [send_reserve]: the frame for a packet. *)
Definition send_reserve (length : Z) (s : t) : result XskError.t (t * option Z) :=
  let? max := UmemConfig.max_packet_size (Umem.config (umem s)) in
  if max <? length then Ok (s, None)
  else
    let? free := FillRing.free_slots (tx s) in
    let? s := if free =? 0 then reclaim_completed s else Ok s in
    let? free := FillRing.free_slots (tx s) in
    if free =? 0 then Ok (s, None)
    else
      match Frames.alloc (frames s) with
      | (f, None) => Ok (with_fill s f (fill s), None)
      | (f, Some addr) =>
          match Umem.validate_packet_bounds (umem s) addr length with
          | Ok _ => Ok (with_fill s f (fill s), Some addr)
          | Err _ => let? f := Frames.free addr f in Ok (with_fill s f (fill s), None)
          | Panic => Panic
          end
      end.

Definition send_submit (addr length : Z) (s : t) : result XskError.t t :=
  let? (r, idx) := FillRing.reserve 1 (tx s) in
  match idx with
  | None => Panic
  | Some idx =>
      let desc := mk_desc (addr + UmemConfig.headroom (Umem.config (umem s))) length in
      Ok (with_tx s (FillRing.submit 1 (FillRing.write idx desc r)))
  end.

Definition with_packet (s : t) (u : Umem.t) : t := mk u (frames s) (fill s) (comp s) (rx s) (tx s) (bound s).

(** A packet copied into a frame and submitted; whether it was.  [length] is
    [data.len() as u32]. *)
Definition send_packet (data : list Z) (length : Z) (s : t) : result XskError.t (t * bool) :=
  let? (s, addr) := send_reserve length s in
  match addr with
  | None => Ok (s, false)
  | Some addr =>
      let? u := Umem.packet_mut_checked (umem s) addr length data in
      let? s := send_submit addr length (with_packet s u) in
      Ok (s, true)
  end.

Definition send (data : list Z) (s : t) : t * result XskError.t unit :=
  let length := as_uint 32 (len data) in
  match UmemConfig.max_packet_size (Umem.config (umem s)) with
  | Ok max =>
      if max <? length then (s, Err XskError.Config)
      else
        match send_packet data length s with
        | Ok (s, true) => (s, Ok tt)
        | Ok (s, false) => (s, Err XskError.UmemExhausted)
        | Err e => (s, Err e)
        | Panic => (s, Panic)
        end
  | Err e => (s, Err e)
  | Panic => (s, Panic)
  end.

Fixpoint send_batch (packets : list (list Z)) (s : t) : result XskError.t (t * Z) :=
  match packets with
  | [] => Ok (s, 0)
  | data :: packets =>
      let length := as_uint 32 (len data) in
      let? max := UmemConfig.max_packet_size (Umem.config (umem s)) in
      if max <? length then send_batch packets s
      else
        let? (s, sent) := send_packet data length s in
        if (sent : bool) then let? (s, n) := send_batch packets s in Ok (s, n + 1) else Ok (s, 0)
  end.

End XskSocket.

(** * Receiving *)

Module XskHistory.

Import XskSocket.

(** The kernel takes a frame from the fill ring, if there is one and the receive
    ring has room, and puts a descriptor into the receive ring. *)
Definition kernel_receives (d : XdpDesc) (s : t) : t :=
  let fm := FillRing.mmap (fill s) in
  let rm := RxRing.mmap (rx s) in
  if (RingMmap.producer fm =? RingMmap.consumer fm) ||
     (RingMmap.mask rm <? wrapping_sub 32 (RingMmap.producer rm) (RingMmap.consumer rm)) then s
  else
    mk (umem s) (frames s)
      (FillRing.mk (RingMmap.mk (RingMmap.entries fm) (RingMmap.producer fm) (wrapping_add 32 (RingMmap.consumer fm) 1) (RingMmap.mask fm))
         (FillRing.cached_prod (fill s)))
      (comp s)
      (RxRing.mk (RingMmap.mk (<[Z.to_nat (Z.land (RingMmap.producer rm) (RingMmap.mask rm)) := d]> (RingMmap.entries rm))
         (wrapping_add 32 (RingMmap.producer rm) 1) (RingMmap.consumer rm) (RingMmap.mask rm)) (RxRing.cached_cons (rx s)))
      (tx s) (bound s).

Inductive event := Kernel (d : XdpDesc) | Recv (max_batch : Z) | RecvBatch (handler : list Z -> bool) (max_batch : Z).

(** How many packets an event takes from the receive ring. *)
Definition step (s : t) (e : event) : result XskError.t (t * Z) :=
  match e with
  | Kernel d => Ok (kernel_receives d s, 0)
  | Recv max_batch => let? (s, descs) := recv max_batch s in Ok (s, len descs)
  | RecvBatch handler max_batch => let? (s, processed, _) := recv_batch handler max_batch s in Ok (s, processed)
  end.

Fixpoint run (s : t) (es : list event) : result XskError.t (t * Z) :=
  match es with
  | [] => Ok (s, 0)
  | e :: es => let? (s, n) := step s e in let? (s, m) := run s es in Ok (s, n + m)
  end.

(** The fields of a descriptor are unsigned. *)
Definition desc_ok (d : XdpDesc) : Prop := 0 <= desc_addr d /\ 0 <= desc_len d.

(** Frames leave the allocator for the fill ring and from there, with a packet,
    for the receive ring; none comes back. *)
Record inv (n total : Z) (s : t) : Prop := mk_inv {
  inv_n : n < 2 ^ 32;
  inv_top : 0 <= Frames.stack_top (frames s) <= len (Frames.free_stack (frames s));
  inv_filled : RingMmap.producer (FillRing.mmap (fill s)) = n - Frames.stack_top (frames s);
  inv_prod : FillRing.cached_prod (fill s) = RingMmap.producer (FillRing.mmap (fill s));
  inv_fill : 0 <= RingMmap.consumer (FillRing.mmap (fill s)) <= RingMmap.producer (FillRing.mmap (fill s));
  inv_room : RingMmap.producer (FillRing.mmap (fill s)) - RingMmap.consumer (FillRing.mmap (fill s)) <=
    RingMmap.mask (FillRing.mmap (fill s)) + 1;
  inv_rx : RingMmap.producer (RxRing.mmap (rx s)) <= RingMmap.consumer (FillRing.mmap (fill s));
  inv_cons : 0 <= RxRing.cached_cons (rx s) <= RingMmap.producer (RxRing.mmap (rx s));
  inv_total : total <= RxRing.cached_cons (rx s);
  inv_comp : RingMmap.producer (RxRing.mmap (comp s)) = 0 /\ RxRing.cached_cons (comp s) = 0;
  inv_umem : Umem.wf (umem s);
  inv_descs : Forall desc_ok (RingMmap.entries (RxRing.mmap (rx s)))
}.

Lemma fill_frames_spec k idx f r :
  Z.of_nat k <= Frames.stack_top f <= len (Frames.free_stack f) ->
  exists f' r', fill_frames k idx f r = (f', r', k) /\
    Frames.stack_top f' = Frames.stack_top f - Z.of_nat k /\ Frames.free_stack f' = Frames.free_stack f /\
    FillRing.cached_prod r' = FillRing.cached_prod r /\
    RingMmap.producer (FillRing.mmap r') = RingMmap.producer (FillRing.mmap r) /\
    RingMmap.consumer (FillRing.mmap r') = RingMmap.consumer (FillRing.mmap r) /\
    RingMmap.mask (FillRing.mmap r') = RingMmap.mask (FillRing.mmap r).
Proof.
  revert idx f r. induction k as [|k IH]; intros idx f r Hk; cbn [fill_frames].
  { exists f, r. split_and!; try done. lia. }
  unfold Frames.alloc. rewrite (proj2 (Z.eqb_neq _ _)) by lia.
  destruct (lookup_lt_is_Some_2 (Frames.free_stack f) (Z.to_nat (Frames.stack_top f - 1))) as [a Ha]; [unfold len in Hk; lia|].
  rewrite Ha. set (f1 := Frames.mk _ _ _ _).
  destruct (IH (wrapping_add 32 idx 1) f1 (FillRing.write idx a r)) as (f' & r' & -> & H1 & H2 & H3 & H4 & H5 & H6).
  { unfold f1. cbn. lia. }
  exists f', r'. cbn in *. split_and!; try done. lia.
Qed.

Lemma reclaim_none s :
  RingMmap.producer (RxRing.mmap (comp s)) = 0 -> RxRing.cached_cons (comp s) = 0 ->
  reclaim_completed s = Ok (with_comp s (frames s) (comp s)).
Proof. intros H1 H2. unfold reclaim_completed, RxRing.available. by rewrite H1, H2. Qed.

Lemma refill_inv n total count s :
  inv n total s -> 0 <= count -> exists s', refill_frames count s = Ok s' /\ inv n total s' /\ rx s' = rx s.
Proof.
  intros [Hn Ht Hf Hp Hc Hr Hx Hcons Htot [Hc1 Hc2] Hu Hd] Hcount. unfold refill_frames. rewrite reclaim_none by done. simpl.
  unfold Frames.available. set (top := Frames.stack_top (frames s)) in *.
  destruct (Z.eqb_spec (Z.min top count) 0) as [E|E]; [eexists; split; [done|]; by split; [split|]|].
  unfold FillRing.reserve, FillRing.free_slots. rewrite (proj2 (Z.ltb_ge _ _)) by lia. rewrite (proj2 (Z.ltb_ge _ _)) by lia. simpl.
  destruct (_ <? Z.min top count) eqn:El; simpl; [eexists; split; [done|]; by split; [split|]|]. b2p.
  edestruct (fill_frames_spec (Z.to_nat (Z.min top count))) as (f' & r' & -> & H1 & H2 & H3 & H4 & H5 & H6); [fold top; lia|].
  eexists. split; [done|]. split; [|done]. cbn in *.
  split; try done; cbn; unfold FillRing.submit, wrapping_add; cbn; rewrite ?H1, ?H2, ?H3, ?H4, ?H5, ?H6; unfold wrapping_add; fold top;
    rewrite ?Z.mod_small by lia; try done; lia.
Qed.

Lemma recv_packets_ok handler u descs :
  Umem.wf u -> Forall desc_ok descs -> exists n ps, recv_packets handler u descs = Ok (n, ps) /\ 0 <= n <= len descs.
Proof.
  intros Hu. induction 1 as [|d descs [Ha Hl] _ (n & ps & IH & Hn)]; [by exists 0, []|]. cbn [recv_packets]. rewrite len_cons, IH.
  pose proof (Umem.packet_checked_ok u _ _ Hu Ha Hl) as Hp. pose proof (len_nonneg descs).
  destruct (Umem.packet_checked _ _ _) as [p| |]; [destruct (handler p)|..|done]; simpl; eexists _, _; (split; [done|]); lia.
Qed.

(** At most [n] descriptors are taken from the ring. *)
Lemma descs_bound {A} n (r : RxRing.t A) :
  0 <= n -> len (omap (fun i => RxRing.get_desc (Z.of_nat i) r) (seq 0 (Z.to_nat n))) <= n.
Proof.
  intros Hn. assert (forall l : list nat, (length (omap (fun i => RxRing.get_desc (Z.of_nat i) r) l) <= length l)%nat) as H.
  { induction l as [|i l IH]; [done|]. cbn [omap list_omap] in *. destruct (RxRing.get_desc _ _); cbn [length]; lia. }
  specialize (H (seq 0 (Z.to_nat n))). rewrite length_seq in H. unfold len. lia.
Qed.

Lemma descs_ok (l : list nat) (r : RxRing.t XdpDesc) :
  Forall desc_ok (RingMmap.entries (RxRing.mmap r)) ->
  Forall desc_ok (omap (fun i => RxRing.get_desc (Z.of_nat i) r) l).
Proof.
  intros H. apply Forall_forall. intros d (i & _ & Hd)%list_elem_of_omap.
  rewrite Forall_forall in H. apply H. by eapply list_elem_of_lookup_2.
Qed.

(** Descriptors are released. *)
Lemma release_inv n total m k s :
  inv n total s -> 0 <= k <= m -> m <= RxRing.available (rx s) ->
  inv n (total + k) (with_rx s (RxRing.release m (rx s))).
Proof.
  intros [Hn Ht Hf Hp Hc Hr Hx Hcons Htot Hcomp Hu Hd] Hk. unfold RxRing.available, wrapping_sub.
  rewrite Z.mod_small by lia. intros Hm. split; try done; cbn; unfold wrapping_add; rewrite ?Z.mod_small by lia; lia.
Qed.

Definition event_ok (e : event) : Prop := match e with Kernel d => desc_ok d | Recv m | RecvBatch _ m => 0 <= m end.

Lemma receive_step_inv n total s e :
  inv n total s -> event_ok e ->
  exists s' k, step s e = Ok (s', k) /\ inv n (total + k) s'.
Proof.
  intros Hi He. assert (0 <= RxRing.available (rx s)) as Ha by (apply Z.mod_pos_bound; lia).
  destruct e as [d|m|handler m]; cbn [step event_ok] in *.
  - exists (kernel_receives d s), 0. split; [done|]. rewrite Z.add_0_r. unfold kernel_receives.
    destruct (_ || _) eqn:E; [done|]. apply orb_false_iff in E as [E _]. b2p.
    destruct Hi as [Hn Ht Hf Hp Hc Hr Hx Hcons Htot Hcomp Hu Hd].
    split; try done; cbn; try (by apply Forall_insert); unfold wrapping_add; rewrite ?Z.mod_small by lia; lia.
  - unfold recv. destruct (Z.eqb_spec (Z.min (RxRing.available (rx s)) m) 0) as [|Hne]; [exists s, 0; by rewrite Z.add_0_r|].
    set (k := Z.min _ m) in *. set (l := omap _ _).
    assert (0 <= len l <= k) as Hl by (split; [apply len_nonneg|apply descs_bound; lia]).
    destruct (refill_inv n (total + len l) k (with_rx s (RxRing.release k (rx s)))) as (s' & -> & Hs' & _);
      [apply release_inv; [done|lia|lia]|lia|]. simpl. exists s', (len l). split; [|done]. f_equal. f_equal. unfold len. by rewrite length_map.
  - unfold recv_batch. destruct (Z.eqb_spec (Z.min (RxRing.available (rx s)) m) 0) as [|Hne]; [exists s, 0; by rewrite Z.add_0_r|].
    set (k := Z.min _ m) in *. set (l := omap _ _). assert (len l <= k) as Hl by (apply descs_bound; lia).
    destruct (recv_packets_ok handler (umem s) l) as (p & ps & -> & Hp); [by apply (inv_umem _ _ _ Hi)|apply descs_ok, (inv_descs _ _ _ Hi)|].
    simpl.
    destruct (refill_inv n (total + p) p (with_rx s (RxRing.release p (rx s)))) as (s' & -> & Hs' & _);
      [apply release_inv; [done|lia|lia]|lia|]. by exists s', p.
Qed.

Lemma receive_run_inv n total s es :
  inv n total s -> Forall event_ok es -> exists s' k, run s es = Ok (s', k) /\ inv n (total + k) s'.
Proof.
  revert total s. induction es as [|e es IH]; intros total s Hi Hes; cbn [run].
  { exists s, 0. by rewrite Z.add_0_r. }
  apply Forall_cons in Hes as [He Hes]. destruct (receive_step_inv n total s e Hi He) as (s1 & k1 & -> & Hi1). simpl.
  destruct (IH _ _ Hi1 Hes) as (s2 & k2 & -> & Hi2). simpl. exists s2, (k1 + k2). split; [done|]. by rewrite Z.add_assoc.
Qed.

Lemma prefill_inv n count s s' :
  inv n 0 s -> 0 <= count -> prefill_fill_ring count s = Ok s' -> inv n 0 s'.
Proof.
  intros [Hn Ht Hf Hp Hc Hr Hx Hcons Htot Hcomp Hu Hd] Hcount. unfold prefill_fill_ring, Frames.available.
  set (k := Z.min count _). destruct (Z.eqb_spec k 0) as [|Hne]; [by intros [= <-]|].
  unfold FillRing.reserve, FillRing.free_slots. rewrite (proj2 (Z.ltb_ge _ _)) by lia. rewrite (proj2 (Z.ltb_ge _ _)) by lia. simpl.
  destruct (_ <? k) eqn:El; [done|]. b2p. cbn [rbind].
  edestruct (fill_frames_spec (Z.to_nat k)) as (f' & r' & -> & H1 & H2 & H3 & H4 & H5 & H6); [cbn; lia|].
  rewrite Nat.eqb_refl. intros [= <-]. cbn in *.
  split; cbn; unfold FillRing.submit, wrapping_add; cbn; rewrite ?H1, ?H2, ?H3, ?H4, ?H5, ?H6; unfold wrapping_add;
    rewrite ?Z.mod_small by lia; try done; lia.
Qed.

Lemma with_umem_prefilled sys config u f s :
  with_umem sys config u f = Ok s ->
  is_power_of_two (XskConfig.ring_size config) = true /\ exists b,
  prefill_fill_ring (XskConfig.fill_prefill config)
    (let size := XskConfig.ring_size config in
     mk u f (FillRing.new size 0) (RxRing.new size 0) (RxRing.new size (mk_desc 0 0)) (FillRing.new size (mk_desc 0 0)) b) = Ok s.
Proof.
  unfold with_umem, RingConfig.new. intros Hs. destruct (is_power_of_two _);
    do 5 (step_call Hs as E; clear E). cbn [rbind] in Hs. do 5 (step_call Hs as E; clear E). split; [done|]. by eexists.
Qed.

Lemma new_socket_inv sys config s :
  XskConfig.typed config -> XskSocket.new sys config = Ok s -> inv (UmemConfig.num_frames (XskConfig.umem config)) 0 s.
Proof.
  intros (Hfs & Hh & Hn & Hrs & Hpf). unfold XskSocket.new. intros Hs. step_call Hs as Ev. step_call Hs as Ec. step_call Hs as Eu.
  pose proof (UmemConfig.umem_config_wf _ _ _ _ Hfs Hh Hn Ec) as Hw. apply Umem.umem_new_wf in Eu; [|done].
  assert (UmemConfig.num_frames a0 = UmemConfig.num_frames (XskConfig.umem config)) as Hcn.
  { unfold UmemConfig.new in Ec. repeat (case_match; [done|]). by injection Ec as <-. }
  apply with_umem_prefilled in Hs as (Hp & b & Hs). unfold u32, uint in *. refine (prefill_inv _ _ _ _ _ _ Hs); [|lia]. rewrite Hcn.
  assert (0 < XskConfig.ring_size config). { unfold is_power_of_two in Hp. apply andb_true_iff in Hp as [Hp _]. b2p. lia. }
  split; cbn; try done; try lia; [rewrite FrameAllocator.len_addresses; lia|by apply Forall_replicate].
Qed.

(** C36: Receiving stops: no frame that carried a packet comes back.  Take a
    socket with its own memory of [n] frames, and any history of packets
    arriving and receives, of either kind, in batches of any size, with any
    handler (none of the code's handlers frees a frame).  Nothing aborts, and
    over the whole history, however long, at most [n] packets are received, less
    the frames that are still free: each takes a frame that nothing returns to
    the allocator. *)
Theorem receive_uses_up_frames sys config s es (n := UmemConfig.num_frames (XskConfig.umem config)) :
  XskConfig.typed config -> XskSocket.new sys config = Ok s -> Forall event_ok es ->
  exists s' total, run s es = Ok (s', total) /\ total + Frames.available (frames s') <= n.
Proof.
  intros Hc Hs Hes. destruct (receive_run_inv n 0 s es) as (s' & k & He & []); [by eapply new_socket_inv|done|].
  exists s', k. split; [done|]. unfold Frames.available. lia.
Qed.

End XskHistory.

(** * Examples *)

Definition example_queue : list (RingQueue.op Z) :=
  [RingQueue.Put [1; 2; 3]; RingQueue.Put [4; 5]; RingQueue.Take 2; RingQueue.Put [6; 7; 8]; RingQueue.Take 9].

Lemma ring_is_queue_witness :
  RingQueue.run (E := XskError.t) example_queue (FillRing.new 4 0) (RxRing.new 4 0) =
    Ok [inl true; inl false; inr [1; 2]; inl true; inr [3; 6; 7; 8]].
Proof. apply (RingQueue.ring_is_queue 2 0 example_queue); [lia|vm_compute; reflexivity]. Defined.

(** A small memory: 4 frames of 2048 bytes. *)
Definition example_config : XskConfig.t :=
  XskConfig.mk [101; 116; 104; 48] 0 (UmemConfig.mk 2048 256 4) 4 true true 2.

(** A system whose driver has no zero copy. *)
Definition example_system : System :=
  mk_system (fun _ => None) (fun _ => inr 2) (inr 7) None None (fun _ => None) (fun _ => None)
    (fun flags => if Z.testbit flags 2 then Some EOPNOTSUPP else None).

Definition example_socket : XskSocket.t :=
  match XskSocket.new example_system example_config with
  | Ok s => s
  | _ => XskSocket.mk (Umem.mk UmemConfig.default []) (Frames.new 2048 0) (FillRing.new 4 0) (RxRing.new 4 0)
      (RxRing.new 4 (mk_desc 0 0)) (FillRing.new 4 (mk_desc 0 0)) (XskSocket.mk_binding 0 0 0 false)
  end.

(** Packets arrive and are received, four of them; then no frame is left, in
    the allocator or in the fill ring. *)
Definition example_receives : list XskHistory.event :=
  concat (replicate 9 [XskHistory.Kernel (mk_desc 0 60); XskHistory.Recv 64]).

Lemma receive_uses_up_frames_witness :
  (exists s' total, XskHistory.run example_socket example_receives = Ok (s', total) /\
    total + Frames.available (XskSocket.frames s') <= 4) /\
  match XskHistory.run example_socket example_receives with
  | Ok (s', total) => total = 4 /\ Frames.available (XskSocket.frames s') = 0 /\
      RingMmap.producer (FillRing.mmap (XskSocket.fill s')) = RingMmap.consumer (FillRing.mmap (XskSocket.fill s'))
  | _ => False
  end.
Proof.
  split; [|vm_compute; by split_and!].
  apply (XskHistory.receive_uses_up_frames example_system example_config example_socket example_receives);
    [by_decide|vm_compute; reflexivity|]. repeat (constructor; [done|]). constructor.
Defined.

(** The kernel completes the packet that was sent, with the address of its
    descriptor, which is behind the headroom: freeing it aborts. *)
Definition example_sent : XskSocket.t := fst (XskSocket.send [1; 2; 3] example_socket).

Definition completed (addr : Z) (s : XskSocket.t) : XskSocket.t :=
  XskSocket.with_comp s (XskSocket.frames s) (RxRing.mk (RingMmap.mk [addr; 0; 0; 0] 1 0 3) 0).

Example completion_aborts :
  RingMmap.entries (FillRing.mmap (XskSocket.tx example_sent)) !! 0%nat = Some (mk_desc (2048 + 256) 3) /\
  XskSocket.reclaim_completed (completed (2048 + 256) example_sent) = Panic /\
  match XskSocket.reclaim_completed (completed 2048 example_sent) with Ok s => Frames.available (XskSocket.frames s) = 2 | _ => False end.
Proof. vm_compute. by split_and!. Qed.

(** A put after the producer's position has wrapped. *)
Example wrapped_put_aborts :
  RingQueue.put (E := XskError.t) [0] (FillRing.mk (RingMmap.mk [0; 0; 0; 0] 1 (2 ^ 32 - 1) 3) 1) = Panic.
Proof. vm_compute. reflexivity. Qed.
