(* ===== verification/ClientStats.v ===== *)
(** Connection statistics of the client: hpn-client-core/src/stats.rs.

    Instants and durations are nanoseconds; each clock reading of a call is an
    argument.  The counters behind atomics are 64-bit and wrap. *)

From S2P Require Import Prelude.

Definition RTT_SAMPLE_COUNT : Z := 20.

(** [Duration::MAX] *)
Definition DURATION_MAX : Z := U64_MAX * 1000000000 + 999999999.

Definition secs (n : Z) : Z := n * 1000000000.

(** [Instant::elapsed], which saturates at zero. *)
Definition elapsed (now t : Z) : Z := saturating_sub now t.

Module ConnectionHealth.

Inductive t := Unknown | Healthy | Degraded | Poor | Dead.

#[global] Instance t_eq_dec : EqDecision t.
Proof. solve_decision. Defined.

End ConnectionHealth.

Module AtomicStats.

Record t := mk {
  bytes_sent : Z;
  bytes_received : Z;
  packets_sent : Z;
  packets_received : Z;
  packets_dropped : Z;
}.

Definition new : t := mk 0 0 0 0 0.

Definition on_bytes_sent (s : t) (bytes : Z) : t :=
  mk (wrapping_add 64 (bytes_sent s) bytes) (bytes_received s) (wrapping_add 64 (packets_sent s) 1)
    (packets_received s) (packets_dropped s).

Definition on_bytes_received (s : t) (bytes : Z) : t :=
  mk (bytes_sent s) (wrapping_add 64 (bytes_received s) bytes) (packets_sent s)
    (wrapping_add 64 (packets_received s) 1) (packets_dropped s).

Definition on_packet_dropped (s : t) : t :=
  mk (bytes_sent s) (bytes_received s) (packets_sent s) (packets_received s)
    (wrapping_add 64 (packets_dropped s) 1).

Definition reset (_ : t) : t := mk 0 0 0 0 0.

End AtomicStats.

Module HealthThresholds.

Record t := mk {
  degraded_rtt_ms : Z;
  poor_rtt_ms : Z;
  degraded_idle : Z;
  dead_idle : Z;
}.

Definition default : t := mk 200 500 (secs 60) (secs 120).

End HealthThresholds.

Module ConnectionStats.

(** The counters of a snapshot are those of [AtomicStats]. *)
Record t := mk {
  counters : AtomicStats.t;
  rtt_ms : Z;
  avg_rtt_ms : Z;
  min_rtt_ms : Z;
  max_rtt_ms : Z;
  uptime : Z;
  idle_time : Z;
  rekey_count : Z;
  key_id : Z;
  session_id : Z;
  health : ConnectionHealth.t;
}.

Definition default : t :=
  mk AtomicStats.new 0 0 U64_MAX 0 0 0 0 0 0 ConnectionHealth.Unknown.

Definition set_session (s : t) (session_id : Z) (health : ConnectionHealth.t) : t :=
  mk (counters s) (rtt_ms s) (avg_rtt_ms s) (min_rtt_ms s) (max_rtt_ms s) (uptime s) (idle_time s)
    (rekey_count s) (key_id s) session_id health.

Definition set_rtt (s : t) (rtt avg low high : Z) : t :=
  mk (counters s) rtt avg low high (uptime s) (idle_time s) (rekey_count s) (key_id s) (session_id s)
    (health s).

Definition set_rekey (s : t) (rekey_count key_id : Z) : t :=
  mk (counters s) (rtt_ms s) (avg_rtt_ms s) (min_rtt_ms s) (max_rtt_ms s) (uptime s) (idle_time s)
    rekey_count key_id (session_id s) (health s).

Definition set_health (s : t) (idle_time : Z) (health : ConnectionHealth.t) : t :=
  mk (counters s) (rtt_ms s) (avg_rtt_ms s) (min_rtt_ms s) (max_rtt_ms s) (uptime s) idle_time
    (rekey_count s) (key_id s) (session_id s) health.

End ConnectionStats.

Module StatsTracker.

Record t := mk {
  connected_at : option Z;
  last_activity : option Z;
  last_keepalive_sent : option Z;
  rtt_samples : list Z;
  stats : ConnectionStats.t;
  thresholds : HealthThresholds.t;
  atomic : AtomicStats.t;
}.

Definition with_thresholds (thresholds : HealthThresholds.t) : t :=
  mk None None None [] ConnectionStats.default thresholds AtomicStats.new.

Definition new : t := with_thresholds HealthThresholds.default.

Definition on_connected (s : t) (now session_id : Z) : t :=
  mk (Some now) (Some now) (last_keepalive_sent s) (rtt_samples s)
    (ConnectionStats.set_session (stats s) session_id ConnectionHealth.Healthy) (thresholds s) (atomic s).

Definition set_atomic (s : t) (a : AtomicStats.t) : t :=
  mk (connected_at s) (last_activity s) (last_keepalive_sent s) (rtt_samples s) (stats s) (thresholds s) a.

Definition on_bytes_sent (s : t) (bytes : Z) : t := set_atomic s (AtomicStats.on_bytes_sent (atomic s) bytes).

Definition on_bytes_received (s : t) (now bytes : Z) : t :=
  mk (connected_at s) (Some now) (last_keepalive_sent s) (rtt_samples s) (stats s) (thresholds s)
    (AtomicStats.on_bytes_received (atomic s) bytes).

Definition on_packet_dropped (s : t) : t := set_atomic s (AtomicStats.on_packet_dropped (atomic s)).

Definition on_keepalive_sent (s : t) (now : Z) : t :=
  mk (connected_at s) (last_activity s) (Some now) (rtt_samples s) (stats s) (thresholds s) (atomic s).

Definition on_rekey (s : t) (new_key_id : Z) : t :=
  mk (connected_at s) (last_activity s) (last_keepalive_sent s) (rtt_samples s)
    (ConnectionStats.set_rekey (stats s)
       (saturating_add 32 (ConnectionStats.rekey_count (stats s)) 1) new_key_id)
    (thresholds s) (atomic s).

Definition idle (s : t) (now : Z) : Z :=
  match last_activity s with Some t => elapsed now t | None => DURATION_MAX end.

Definition health_by_idle (th : HealthThresholds.t) (idle_time : Z) : ConnectionHealth.t :=
  if HealthThresholds.degraded_idle th <? idle_time then ConnectionHealth.Degraded
  else ConnectionHealth.Healthy.

(** The worse of the two. *)
Definition worse (by_rtt by_idle : ConnectionHealth.t) : ConnectionHealth.t :=
  match by_rtt, by_idle with
  | ConnectionHealth.Poor, _ | _, ConnectionHealth.Poor => ConnectionHealth.Poor
  | ConnectionHealth.Degraded, _ | _, ConnectionHealth.Degraded => ConnectionHealth.Degraded
  | _, _ => ConnectionHealth.Healthy
  end.

Definition update_health (s : t) (now : Z) : t :=
  let idle_time := idle s now in
  let th := thresholds s in
  let rtt := ConnectionStats.avg_rtt_ms (stats s) in
  let health :=
    if HealthThresholds.dead_idle th <? idle_time then ConnectionHealth.Dead
    else
      let health_by_rtt :=
        if HealthThresholds.poor_rtt_ms th <? rtt then ConnectionHealth.Poor
        else if HealthThresholds.degraded_rtt_ms th <? rtt then ConnectionHealth.Degraded
        else ConnectionHealth.Healthy in
      worse health_by_rtt (health_by_idle th idle_time) in
  mk (connected_at s) (last_activity s) (last_keepalive_sent s) (rtt_samples s)
    (ConnectionStats.set_health (stats s) idle_time health) th (atomic s).

(** [iter().sum::<u64>()], which aborts on overflow. *)
Definition sum_u64 {E} (l : list Z) : result E Z :=
  let sum := zsum id l in if sum <=? U64_MAX then Ok sum else Panic.

(** [now] is read first, [now'] by [update_health]. *)
Definition on_keepalive_received {E} (s : t) (now now' rtt_ms : Z) : result E t :=
  let st := stats s in
  let samples :=
    if RTT_SAMPLE_COUNT <=? len (rtt_samples s) then drop 1 (rtt_samples s) else rtt_samples s in
  let samples := samples ++ [rtt_ms] in
  let? sum := sum_u64 samples in
  let st :=
    ConnectionStats.set_rtt st rtt_ms (sum / len samples) (Z.min (ConnectionStats.min_rtt_ms st) rtt_ms)
      (Z.max (ConnectionStats.max_rtt_ms st) rtt_ms) in
  Ok (update_health
        (mk (connected_at s) (Some now) (last_keepalive_sent s) samples st (thresholds s) (atomic s)) now').

Definition calculate_current_health (s : t) (now : Z) : ConnectionHealth.t :=
  match connected_at s with
  | None => ConnectionHealth.Unknown
  | Some _ =>
      let idle_time := idle s now in
      let th := thresholds s in
      let rtt := ConnectionStats.avg_rtt_ms (stats s) in
      if HealthThresholds.dead_idle th <? idle_time then ConnectionHealth.Dead
      else
        let health_by_rtt :=
          if HealthThresholds.poor_rtt_ms th <? rtt then ConnectionHealth.Poor
          else if HealthThresholds.degraded_rtt_ms th <? rtt then ConnectionHealth.Degraded
          else if (rtt =? 0) && (len (rtt_samples s) =? 0) then ConnectionHealth.Unknown
          else ConnectionHealth.Healthy in
        match health_by_rtt with
        | ConnectionHealth.Unknown => ConnectionHealth.Unknown
        | _ => worse health_by_rtt (health_by_idle th idle_time)
        end
  end.

(** The three readings of [snapshot]. *)
Definition snapshot (s : t) (now now' now'' : Z) : ConnectionStats.t :=
  let st := stats s in
  ConnectionStats.mk (atomic s) (ConnectionStats.rtt_ms st) (ConnectionStats.avg_rtt_ms st)
    (ConnectionStats.min_rtt_ms st) (ConnectionStats.max_rtt_ms st)
    (match connected_at s with Some t => elapsed now t | None => ConnectionStats.uptime st end)
    (match last_activity s with Some t => elapsed now' t | None => ConnectionStats.idle_time st end)
    (ConnectionStats.rekey_count st) (ConnectionStats.key_id st) (ConnectionStats.session_id st)
    (calculate_current_health s now'').

Definition reset (s : t) : t :=
  mk None None None [] ConnectionStats.default (thresholds s) (AtomicStats.reset (atomic s)).

(** * What the round-trip figures are *)

(** The calls of the client; [Atomic] is a call of [self.stats.read().atomic]. *)
Inductive op :=
  | Connected (now session_id : Z)
  | Sent (bytes : Z)
  | Received (now bytes : Z)
  | Atomic (f : AtomicStats.t -> AtomicStats.t)
  | KeepaliveSent (now : Z)
  | KeepaliveReceived (now now' rtt_ms : Z)
  | Rekeyed (new_key_id : Z)
  | Reset.

Definition apply (s : t) (o : op) : result Empty_set t :=
  match o with
  | Connected now session_id => Ok (on_connected s now session_id)
  | Sent bytes => Ok (on_bytes_sent s bytes)
  | Received now bytes => Ok (on_bytes_received s now bytes)
  | Atomic f => Ok (set_atomic s (f (atomic s)))
  | KeepaliveSent now => Ok (on_keepalive_sent s now)
  | KeepaliveReceived now now' rtt_ms => on_keepalive_received s now now' rtt_ms
  | Rekeyed new_key_id => Ok (on_rekey s new_key_id)
  | Reset => Ok (reset s)
  end.

Fixpoint run (s : t) (ops : list op) : result Empty_set t :=
  match ops with
  | [] => Ok s
  | o :: ops => let? s := apply s o in run s ops
  end.

(** The round trips measured since the last reset. *)
Definition measured (h : list Z) (o : op) : list Z :=
  match o with
  | KeepaliveReceived _ _ rtt_ms => h ++ [rtt_ms]
  | Reset => []
  | _ => h
  end.

(** A round trip of less than 2^59 ms. *)
Definition bounded (o : op) : Prop :=
  match o with KeepaliveReceived _ _ rtt_ms => uint 59 rtt_ms | _ => True end.

Definition last_samples (h : list Z) : list Z := drop (length h - Z.to_nat RTT_SAMPLE_COUNT) h.

Definition figures (h : list Z) (s : t) : Prop :=
  Forall (uint 59) h /\ rtt_samples s = last_samples h /\
  ConnectionStats.min_rtt_ms (stats s) = foldr Z.min U64_MAX h /\
  ConnectionStats.max_rtt_ms (stats s) = foldr Z.max 0 h /\
  (h <> [] -> ConnectionStats.avg_rtt_ms (stats s) = zsum id (last_samples h) / len (last_samples h)).

Lemma last_samples_snoc h x :
  last_samples (h ++ [x]) =
  (if RTT_SAMPLE_COUNT <=? len (last_samples h) then drop 1 (last_samples h) else last_samples h) ++ [x].
Proof.
  unfold last_samples, len. rewrite length_app, length_drop. simpl length. change (Z.to_nat RTT_SAMPLE_COUNT) with 20%nat.
  unfold RTT_SAMPLE_COUNT. destruct (Nat.le_gt_cases 20 (length h)) as [Hl|Hl].
  - rewrite (proj2 (Z.leb_le _ _)) by lia. rewrite drop_app_le by lia. rewrite drop_drop. f_equal. f_equal. lia.
  - rewrite (proj2 (Z.leb_gt _ _)) by lia. rewrite drop_app_le by lia.
    replace (length h + 1 - 20)%nat with 0%nat by lia. replace (length h - 20)%nat with 0%nat by lia. done.
Qed.

Lemma last_samples_len h : h <> [] -> 1 <= len (last_samples h) <= RTT_SAMPLE_COUNT.
Proof.
  intros Hh. destruct h as [|x h]; [done|]. unfold last_samples, len. rewrite length_drop.
  change (Z.to_nat RTT_SAMPLE_COUNT) with 20%nat. unfold RTT_SAMPLE_COUNT. simpl length. lia.
Qed.

Lemma zsum_between lo hi l :
  Forall (fun x => lo <= x <= hi) l -> lo * len l <= zsum id l <= hi * len l.
Proof. induction 1 as [|x l Hx _ IH]; [unfold zsum, len; simpl; lia|]. rewrite len_cons. change (zsum id (x :: l)) with (x + zsum id l). lia. Qed.

Lemma foldr_min_snoc b h x : foldr Z.min b (h ++ [x]) = Z.min (foldr Z.min b h) x.
Proof. induction h as [|y h IH]; simpl; [lia|]. rewrite IH. lia. Qed.

Lemma foldr_max_snoc b h x : foldr Z.max b (h ++ [x]) = Z.max (foldr Z.max b h) x.
Proof. induction h as [|y h IH]; simpl; [lia|]. rewrite IH. lia. Qed.

Lemma foldr_min_in h :
  h <> [] -> Forall (uint 59) h ->
  foldr Z.min U64_MAX h ∈ h /\ forall x, x ∈ h -> foldr Z.min U64_MAX h <= x.
Proof.
  intros Hne. induction 1 as [|y h Hy Hh IH]; [done|]. simpl. destruct h as [|z h].
  - simpl. unfold uint, U64_MAX in *. rewrite Z.min_l by lia. split; [left|]. intros x ->%list_elem_of_singleton. lia.
  - destruct IH as [IH1 IH2]; [done|]. split.
    + destruct (Z.min_spec y (foldr Z.min U64_MAX (z :: h))) as [[_ ->]|[_ ->]]; [left|by right].
    + intros x [->|Hx]%elem_of_cons; [lia|]. specialize (IH2 x Hx). lia.
Qed.

Lemma foldr_max_in h :
  h <> [] -> Forall (uint 59) h ->
  foldr Z.max 0 h ∈ h /\ forall x, x ∈ h -> x <= foldr Z.max 0 h.
Proof.
  intros Hne. induction 1 as [|y h Hy Hh IH]; [done|]. simpl. destruct h as [|z h].
  - simpl. unfold uint in *. rewrite Z.max_l by lia. split; [left|]. intros x ->%list_elem_of_singleton. lia.
  - destruct IH as [IH1 IH2]; [done|]. split.
    + destruct (Z.max_spec y (foldr Z.max 0 (z :: h))) as [[_ ->]|[_ ->]]; [by right|left].
    + intros x [->|Hx]%elem_of_cons; [lia|]. specialize (IH2 x Hx). lia.
Qed.

Lemma apply_figures h s o :
  figures h s -> bounded o -> exists s', apply s o = Ok s' /\ figures (measured h o) s'.
Proof.
  intros Hf Hb. destruct o; try (eexists; split; [done|]; exact Hf).
  - destruct Hf as (Hu & Hs & Hlo & Hhi & Hav). simpl in Hb. simpl. unfold on_keepalive_received.
    rewrite Hs, <- last_samples_snoc. set (l := last_samples (h ++ [rtt_ms])).
    assert (h ++ [rtt_ms] <> []) as Hne by by destruct h.
    pose proof (last_samples_len _ Hne) as Hl. fold l in Hl.
    assert (Forall (uint 59) (h ++ [rtt_ms])) as Hu' by (apply Forall_app; by split; [|constructor]).
    assert (0 * len l <= zsum id l <= (2 ^ 59 - 1) * len l) as Hsum.
    { apply zsum_between. unfold l, last_samples. apply Forall_drop. eapply Forall_impl; [exact Hu'|].
      unfold uint. intros. simpl. lia. }
    unfold sum_u64. rewrite (proj2 (Z.leb_le _ _)) by (unfold U64_MAX, RTT_SAMPLE_COUNT in *; lia). sbind.
    eexists. split; [done|]. split_and!; simpl; [done|done| | |done].
    + by rewrite foldr_min_snoc, <- Hlo.
    + by rewrite foldr_max_snoc, <- Hhi.
  - eexists. split; [done|]. by split_and!.
Qed.

Lemma run_figures h s ops :
  figures h s -> Forall bounded ops ->
  exists s', run s ops = Ok s' /\ figures (fold_left measured ops h) s'.
Proof.
  revert h s. induction ops as [|o ops IH]; intros h s Hf Hb; [by exists s|].
  apply Forall_cons in Hb as [Ho Hb]. destruct (apply_figures h s o Hf Ho) as (s' & Ha & Hf').
  simpl. rewrite Ha. sbind. by apply IH.
Qed.

(** The round-trip figures: whatever the client does, no call aborts; the
    samples are the last twenty round trips since the last reset, the average
    is their mean, rounded down, and it lies between the least and the greatest
    round trip measured, which are what the statistics report. *)
Lemma rtt_figures th ops :
  Forall bounded ops ->
  exists s, run (with_thresholds th) ops = Ok s /\
    let h := fold_left measured ops [] in
    let st := stats s in
    rtt_samples s = last_samples h /\
    (h <> [] ->
       ConnectionStats.avg_rtt_ms st = zsum id (last_samples h) / len (last_samples h) /\
       ConnectionStats.min_rtt_ms st <= ConnectionStats.avg_rtt_ms st <= ConnectionStats.max_rtt_ms st /\
       ConnectionStats.min_rtt_ms st ∈ h /\ ConnectionStats.max_rtt_ms st ∈ h).
Proof.
  intros Hb. destruct (run_figures [] (with_thresholds th) ops) as (s & Hr & Hu & Hs & Hlo & Hhi & Hav);
    [by split_and!|done|].
  exists s. split; [done|]. intros h st. fold h in Hu, Hs, Hlo, Hhi, Hav. split; [done|]. intros Hne.
  destruct (foldr_min_in h Hne Hu) as [Hmin Hmin']. destruct (foldr_max_in h Hne Hu) as [Hmax Hmax'].
  rewrite <- Hlo in Hmin, Hmin'. rewrite <- Hhi in Hmax, Hmax'. split_and!; try done; [by apply Hav| |];
    pose proof (last_samples_len h Hne); fold st in Hav, Hmin', Hmax'; rewrite (Hav Hne);
    destruct (zsum_between (ConnectionStats.min_rtt_ms st) (ConnectionStats.max_rtt_ms st) (last_samples h))
      as [H1 H2]; try (apply Forall_drop, Forall_forall; intros x Hx; split; auto).
  - apply Z.div_le_lower_bound; lia.
  - apply Z.div_le_upper_bound; lia.
Qed.

End StatsTracker.

