(* ===== verification/ClientConfig.v ===== *)
(** Configuration of the client: hpn-client-core/src/error.rs, config.rs.

    The texts of error messages are dropped.  The fields of the configuration
    that only the platform code reads (kill switch, split tunnelling, DNS) are
    left out.  [Base64] is the decoder of the base64 crate. *)

From S2P Require Import Prelude Types Net Keys Signature Kem ClientStats.

Module ClientError.

Inductive t :=
  | Config | ConnectionIo | Connection | Handshake
  | Protocol (e : ProtocolError.t)
  | Crypto (e : CryptoError.t)
  | Tunnel | Timeout | KeepaliveTimeout | NotConnected | ReconnectionFailed | Shutdown
  | InvalidState | Network | Auth.

#[global] Instance t_eq_dec : EqDecision t.
Proof. solve_decision. Defined.

End ClientError.

(** [STANDARD.decode] *)
Class Base64 := { decode_standard : string -> option (list Z) }.

Module ClientConfig.

Record t := mk {
  server_addr : SocketAddr.t;
  server_public_key : string;
  keepalive_interval_secs : Z;
  connection_timeout_secs : Z;
  rekey_interval_secs : Z;
  rekey_after_bytes : Z;
  keepalive_timeout_count : Z;
  auto_reconnect : bool;
  max_reconnect_attempts : Z;
  reconnect_delay_secs : Z;
  tcp_fallback : bool;
  tcp_fallback_addr : option SocketAddr.t;
  tcp_fallback_threshold : Z;
  security_level : SecurityLevel.t;
  server_kem_public_key : option string;
  stun_servers : list string;
  require_signed_rebind_ack : bool;
}.

Definition default_keepalive_interval : Z := 25.
Definition default_connection_timeout : Z := 30.
Definition default_rekey_interval : Z := 3600.
Definition default_rekey_bytes : Z := 64 * 1024 * 1024 * 1024.
Definition default_keepalive_timeout_count : Z := 3.
Definition default_auto_reconnect : bool := true.
Definition default_max_reconnect_attempts : Z := 5.
Definition default_reconnect_delay_secs : Z := 5.
Definition default_tcp_fallback : bool := false.
Definition default_tcp_fallback_threshold : Z := 3.
Definition default_require_signed_rebind_ack : bool := true.

Definition default : t :=
  mk (SocketAddr.V4 [127; 0; 0; 1] 51820) EmptyString default_keepalive_interval default_connection_timeout
    default_rekey_interval default_rekey_bytes default_keepalive_timeout_count default_auto_reconnect
    default_max_reconnect_attempts default_reconnect_delay_secs default_tcp_fallback None
    default_tcp_fallback_threshold SecurityLevel.default None [] default_require_signed_rebind_ack.

(** The widths of the fields. *)
Definition fits (c : t) : Prop :=
  SocketAddr.wf (server_addr c) /\ u64 (keepalive_interval_secs c) /\ u64 (connection_timeout_secs c) /\
  u64 (rekey_interval_secs c) /\ u64 (rekey_after_bytes c) /\ u32 (keepalive_timeout_count c) /\
  u32 (max_reconnect_attempts c) /\ u64 (reconnect_delay_secs c) /\ u32 (tcp_fallback_threshold c) /\
  (forall a, tcp_fallback_addr c = Some a -> SocketAddr.wf a).

Definition keepalive_interval (c : t) : Z := secs (keepalive_interval_secs c).
Definition connection_timeout (c : t) : Z := secs (connection_timeout_secs c).
Definition rekey_interval (c : t) : Z := secs (rekey_interval_secs c).
Definition reconnect_delay (c : t) : Z := secs (reconnect_delay_secs c).

(** The product of two [u64] aborts on overflow. *)
Definition keepalive_timeout {E} (c : t) : result E Z :=
  let product := keepalive_interval_secs c * keepalive_timeout_count c in
  if product <=? U64_MAX then Ok (secs product) else Panic.

Definition saturating_pow (base exp : Z) : Z := Z.min (base ^ exp) U64_MAX.
Definition saturating_mul (x y : Z) : Z := Z.min (x * y) U64_MAX.

Definition reconnect_delay_with_backoff (c : t) (attempt : Z) : Z :=
  let base_delay := reconnect_delay_secs c in
  let multiplier := saturating_pow 2 (Z.min attempt 5) in
  let delay := Z.min (saturating_mul base_delay multiplier) 300 in
  secs delay.

(** [addr.set_port(443)] keeps the flow label and scope. *)
Definition set_port (a : SocketAddr.t) (port : Z) : SocketAddr.t :=
  match a with
  | SocketAddr.V4 i _ => SocketAddr.V4 i port
  | SocketAddr.V6 i _ f s => SocketAddr.V6 i port f s
  end.

Definition tcp_fallback_address (c : t) : SocketAddr.t :=
  match tcp_fallback_addr c with Some a => a | None => set_port (server_addr c) 443 end.

Section Keys.
Context {B : Base64}.

Definition decode_server_public_key (c : t) : result ClientError.t (list Z) :=
  ok_or ClientError.Config (decode_standard (server_public_key c)).

Definition validate (c : t) : result ClientError.t unit :=
  if bool_decide (server_public_key c = EmptyString) then Err ClientError.Config
  else
    let? pk_bytes := decode_server_public_key c in
    let expected_size := SecurityLevel.mldsa_public_key_size (security_level c) in
    if negb (len pk_bytes =? expected_size) then Err ClientError.Config else Ok tt.

Definition decode_server_kem_public_key (c : t) : result ClientError.t (option HybridPublicKey.t) :=
  match server_kem_public_key c with
  | None => Ok None
  | Some key_str =>
      let? key_bytes := ok_or ClientError.Config (decode_standard key_str) in
      let? public_key := map_err (fun _ => ClientError.Config) (HybridPublicKey.from_bytes key_bytes) in
      if negb (bool_decide (HybridPublicKey.security_level public_key = security_level c)) then
        Err ClientError.Config
      else Ok (Some public_key)
  end.

End Keys.

Definition identity_hiding_enabled (c : t) : bool :=
  match server_kem_public_key c with Some _ => true | None => false end.

End ClientConfig.

Module Credentials.

Record t := mk { username : list Z; password : list Z }.

Definition new (username password : list Z) : t := mk username password.

(** A character the username may hold; no byte of a multi-byte character is. *)
Definition allowed (c : Z) : bool :=
  (48 <=? c) && (c <=? 57) || (65 <=? c) && (c <=? 90) || (97 <=? c) && (c <=? 122) ||
  (c =? 95) || (c =? 45) || (c =? 46).

Definition validate (c : t) : result ClientError.t unit :=
  if (len (username c) =? 0) || (64 <? len (username c)) then Err ClientError.Auth
  else if negb (forallb allowed (username c)) then Err ClientError.Auth
  else if len (password c) <? 8 then Err ClientError.Auth
  else if 256 <? len (password c) then Err ClientError.Auth
  else Ok tt.

End Credentials.

(** The delay before an attempt never exceeds five minutes and never shrinks. *)
Lemma backoff_bound c a b :
  0 <= a <= b -> 0 <= ClientConfig.reconnect_delay_secs c ->
  0 <= ClientConfig.reconnect_delay_with_backoff c a <= ClientConfig.reconnect_delay_with_backoff c b /\
  ClientConfig.reconnect_delay_with_backoff c b <= secs 300.
Proof.
  intros Hab Hd. unfold ClientConfig.reconnect_delay_with_backoff, ClientConfig.saturating_mul,
    ClientConfig.saturating_pow, secs.
  assert (2 ^ Z.min a 5 <= 2 ^ Z.min b 5) as Hp by (apply Z.pow_le_mono_r; lia).
  assert (0 < 2 ^ Z.min a 5) as H0 by (apply Z.pow_pos_nonneg; lia).
  assert (0 <= U64_MAX) as Hm by (unfold U64_MAX; lia).
  set (p := 2 ^ Z.min a 5) in *. set (q := 2 ^ Z.min b 5) in *.
  assert (0 <= Z.min p U64_MAX <= Z.min q U64_MAX) as Hpq by lia.
  set (p' := Z.min p U64_MAX) in *. set (q' := Z.min q U64_MAX) in *.
  assert (0 <= ClientConfig.reconnect_delay_secs c * p' <= ClientConfig.reconnect_delay_secs c * q')
    by (split; [apply Z.mul_nonneg_nonneg|apply Z.mul_le_mono_nonneg_l]; lia).
  lia.
Qed.
