(* ===== verification/Transport.v ===== *)
(** The client's transports: UDP, frames over TCP and TLS, and the fallback
    from one to the other (hpn-client-core/src/transport.rs).

    What the network and the operating system do is an argument: a bind or a
    connection attempt with its outcome, the datagrams a socket has received,
    the bytes a stream has received.  TLS itself carries the bytes of a stream
    and is left out; the check of its certificate is modelled.  A receive that
    waits is a value, so that it can be polled again, or dropped, as
    [tokio::select!] in the client's loop does. *)

From S2P Require Import Prelude Net Digest ClientConfig.

Module IoError.

Inductive t := NotConnected | InvalidInput | InvalidData | UnexpectedEof | NotFound | ConnectionRefused | TimedOut | Other | Os (code : Z).

End IoError.

Module TransportType.

Inductive t := Udp | Tcp.

End TransportType.

Definition TRANSPORT_MAX_PACKET_SIZE : Z := 65535.
Definition MAX_IGNORED_PACKETS : Z := 1000.
Definition TCP_FRAME_HEADER_SIZE : Z := 2.
Definition DEFAULT_TLS_SNI : list Z := bytes_of_string "www.google.com".

Module TransportConfig.

Inductive t :=
| Udp (server_addr : SocketAddr.t)
| Tcp (server_addr : SocketAddr.t) (connect_timeout_secs : option Z) (tls_sni : option (list Z)).

Definition server_addr (c : t) : SocketAddr.t := match c with Udp a => a | Tcp a _ _ => a end.
Definition transport_type (c : t) : TransportType.t :=
  match c with Udp _ => TransportType.Udp | Tcp _ _ _ => TransportType.Tcp end.

(** [ClientConfig::primary_transport_config] and [fallback_transport_config]. *)
Definition primary_transport_config (c : ClientConfig.t) : t := Udp (ClientConfig.server_addr c).

Definition fallback_transport_config (c : ClientConfig.t) : option t :=
  if ClientConfig.tcp_fallback c then
    Some (Tcp (ClientConfig.tcp_fallback_address c) (Some (ClientConfig.connection_timeout_secs c)) None)
  else None.

End TransportConfig.

(** * UDP *)

Module UdpTransport.

(** The socket is named by what the bind gave. *)
Record t := mk { socket : Z; server_addr : SocketAddr.t; local_addr : SocketAddr.t }.

Definition bind_addr (server : SocketAddr.t) : SocketAddr.t :=
  match server with
  | SocketAddr.V4 _ _ => SocketAddr.V4 [0; 0; 0; 0] 0
  | SocketAddr.V6 _ _ _ _ => SocketAddr.V6 Ipv6Addr.unspecified 0 0 0
  end.

(** [bind]: what [UdpSocket::bind] and [local_addr] give for an address. *)
Definition connect (bind : SocketAddr.t -> result IoError.t (Z * SocketAddr.t)) (server : SocketAddr.t)
    : result IoError.t t :=
  let? (socket, local) := bind (bind_addr server) in
  Ok (mk socket server local).

Definition update_server_addr (u : t) (new_addr : SocketAddr.t) : t := mk (socket u) new_addr (local_addr u).

Definition rebind (bind : SocketAddr.t -> result IoError.t (Z * SocketAddr.t)) (u : t) : t * result IoError.t unit :=
  match bind (bind_addr (server_addr u)) with
  | Ok (new_socket, new_local) => (mk new_socket (server_addr u) new_local, Ok tt)
  | Err e => (u, Err e)
  | Panic => (u, Panic)
  end.

(** What a call of [recv_from] gives: a datagram cut to the buffer with its
    source, or an error. *)
Definition datagram : Type := result IoError.t (list Z * SocketAddr.t).

Definition recv (buf_len : Z) (d : datagram) : datagram :=
  let? (bytes, addr) := d in Ok (take (Z.to_nat buf_len) bytes, addr).

(** The loop over the datagrams that arrive; [None] while it waits. *)
Fixpoint recv_loop (server : SocketAddr.t) (buf_len ignored_count : Z) (ds : list datagram)
    : option (result IoError.t (list Z)) * list datagram :=
  match ds with
  | [] => (None, [])
  | d :: ds =>
      match recv buf_len d with
      | Ok (bytes, addr) =>
          if bool_decide (addr = server) then (Some (Ok bytes), ds)
          else
            let ignored_count := ignored_count + 1 in
            if MAX_IGNORED_PACKETS <=? ignored_count then (Some (Err IoError.Other), ds)
            else recv_loop server buf_len ignored_count ds
      | Err e => (Some (Err e), ds)
      | Panic => (Some Panic, ds)
      end
  end.

Definition recv_from_server (u : t) (buf_len : Z) (ds : list datagram) : option (result IoError.t (list Z)) * list datagram :=
  recv_loop (server_addr u) buf_len 0 ds.

End UdpTransport.

(** * Certificates *)

Module PinnedCertVerifier.

Section PinnedCertVerifier.
Context `{Digest : RingDigest}.

(** [verify_tls_signature message cert dss]: the verifiers of rustls. *)
Context (verify_tls_signature : list Z -> list Z -> list Z -> bool).

Definition cert_matches_a_pin (pins : list (list Z)) (cert_der : list Z) : bool :=
  let actual := sha256 cert_der in
  foldl (fun matched pin => matched || bool_decide (actual = pin)) false pins.

Definition verify_server_cert (pins : list (list Z)) (end_entity : list Z) : bool :=
  if bool_decide (pins = []) then true else cert_matches_a_pin pins end_entity.

Definition verify_tls12_signature (pins : list (list Z)) (message cert dss : list Z) : bool :=
  if bool_decide (pins = []) then true else verify_tls_signature message cert dss.

Definition verify_tls13_signature (pins : list (list Z)) (message cert dss : list Z) : bool :=
  if bool_decide (pins = []) then true else verify_tls_signature message cert dss.

(** With pins, a connection is made only to the holder of a key whose
    certificate has a pinned digest. *)
Lemma pinned_connection pins cert message dss :
  pins <> [] -> verify_server_cert pins cert = true -> verify_tls13_signature pins message cert dss = true ->
  sha256 cert ∈ pins /\ verify_tls_signature message cert dss = true.
Proof.
  intros Hp. unfold verify_server_cert, verify_tls13_signature. rewrite bool_decide_false by done. intros Hc Hs.
  split; [|done]. revert Hc. unfold cert_matches_a_pin. clear.
  assert (forall b, foldl (fun m pin => m || bool_decide (sha256 cert = pin)) b pins = true -> b = true \/ sha256 cert ∈ pins) as H.
  { induction pins as [|p pins IH]; intros b; simpl; [by left|]. intros [Hb|Hin]%IH; [|right; by right].
    apply orb_true_iff in Hb as [->|Hd]; [by left|]. apply bool_decide_eq_true in Hd as ->. right. left. }
  intros Hc. by destruct (H false Hc).
Qed.

End PinnedCertVerifier.

End PinnedCertVerifier.

(** * Frames over a stream *)

Module TcpTransport.

(** The stream: the bytes that have arrived and are not read, whether the peer
    has closed it, and the bytes written. *)
Record Stream := mk_stream { inbound : list Z; eof : bool; outbound : list Z }.

(** A call of [read_frame] that waits, with the bytes it has taken from the
    stream: for the length, or for a payload of [n] bytes. *)
Inductive ReadFrame := ReadLength (got : list Z) | ReadPayload (n : Z) (got : list Z).

(** [receiving]: the receive in progress and the length of its buffer.  It
    holds the lock of the stream until it returns or is dropped. *)
Record t := mk {
  stream : Stream;
  receiving : option (Z * ReadFrame);
  server_addr : SocketAddr.t;
  local_addr : SocketAddr.t;
  connected : bool
}.

(** [tcp]: the outcome of the connection attempt ([None] for a timeout);
    [valid_name], [handshake]: whether rustls takes a server name and completes
    a handshake with it. *)
Definition connect (tcp : option (result IoError.t SocketAddr.t)) (valid_name handshake : list Z -> bool)
    (server : SocketAddr.t) (tls_sni : option (list Z)) : result IoError.t t :=
  match tcp with
  | None => Err IoError.TimedOut
  | Some tcp =>
      let? local := tcp in
      let sni := default DEFAULT_TLS_SNI tls_sni in
      if negb (valid_name sni) then Err IoError.InvalidInput
      else if negb (handshake sni) then Err IoError.ConnectionRefused
      else Ok (mk (mk_stream [] false []) None server local true)
  end.

Definition with_stream (c : t) (s : Stream) (r : option (Z * ReadFrame)) : t :=
  mk s r (server_addr c) (local_addr c) (connected c).

Definition disconnected (c : t) : t := mk (stream c) (receiving c) (server_addr c) (local_addr c) false.

Definition update_server_addr (c : t) (new_addr : SocketAddr.t) : t :=
  mk (stream c) (receiving c) new_addr (local_addr c) (connected c).

(** ** Writing *)

(** [write_all]; [fails]: the error and how many bytes were written before it. *)
Definition write_all (fails : option (nat * IoError.t)) (buf : list Z) (s : Stream) : Stream * result IoError.t unit :=
  match fails with
  | None => (mk_stream (inbound s) (eof s) (outbound s ++ buf), Ok tt)
  | Some (k, e) => (mk_stream (inbound s) (eof s) (outbound s ++ take k buf), Err e)
  end.

(** The outcomes of the writes of a frame and of the flush. *)
Record WriteOutcomes := mk_writes {
  write_length : option (nat * IoError.t);
  write_payload : option (nat * IoError.t);
  flush : result IoError.t unit
}.

Definition all_written : WriteOutcomes := mk_writes None None (Ok tt).

Definition write_frame (io : WriteOutcomes) (buf : list Z) (s : Stream) : Stream * result IoError.t Z :=
  if TRANSPORT_MAX_PACKET_SIZE <? len buf then (s, Err IoError.InvalidInput)
  else
    match write_all (write_length io) (be_bytes 2 (len buf)) s with
    | (s, Ok _) =>
        match write_all (write_payload io) buf s with
        | (s, Ok _) => (s, let? _ := flush io in Ok (len buf))
        | (s, Err e) => (s, Err e)
        | (s, Panic) => (s, Panic)
        end
    | (s, Err e) => (s, Err e)
    | (s, Panic) => (s, Panic)
    end.

(** [None]: the lock of the stream is held by a receive.  A packet that is too
    large is refused before the lock is taken. *)
Definition send (io : WriteOutcomes) (buf : list Z) (c : t) : t * option (result IoError.t Z) :=
  if connected c then
    match receiving c with
    | Some _ =>
        if TRANSPORT_MAX_PACKET_SIZE <? len buf then (disconnected c, Some (Err IoError.InvalidInput)) else (c, None)
    | None =>
        let '(s, r) := write_frame io buf (stream c) in
        let c := with_stream c s None in
        (match r with Err _ => disconnected c | _ => c end, Some r)
    end
  else (c, Some (Err IoError.NotConnected)).

(** ** Reading *)

(** A poll of [read_exact] for [n] bytes of which [got] are there: the bytes,
    or those it has so far. *)
Definition read_exact (n : Z) (got : list Z) (s : Stream) : Stream * (result IoError.t (list Z) + list Z) :=
  let need := Z.to_nat (n - len got) in
  let got := got ++ take need (inbound s) in
  let s := mk_stream (drop need (inbound s)) (eof s) (outbound s) in
  if n <=? len got then (s, inl (Ok got))
  else if eof s then (s, inl (Err IoError.UnexpectedEof))
  else (s, inr got).

Definition poll_payload (n : Z) (got : list Z) (s : Stream) : Stream * (result IoError.t (list Z) + ReadFrame) :=
  match read_exact n got s with
  | (s, inl r) => (s, inl r)
  | (s, inr got) => (s, inr (ReadPayload n got))
  end.

Definition read_frame (buf_len : Z) (f : ReadFrame) (s : Stream) : Stream * (result IoError.t (list Z) + ReadFrame) :=
  match f with
  | ReadLength got =>
      match read_exact TCP_FRAME_HEADER_SIZE got s with
      | (s, inl (Ok len_buf)) =>
          let n := from_be len_buf in
          if buf_len <? n then (s, inl (Err IoError.InvalidData))
          else if n =? 0 then (s, inl (Ok []))
          else poll_payload n [] s
      | (s, inl (Err e)) => (s, inl (Err e))
      | (s, inl Panic) => (s, inl Panic)
      | (s, inr got) => (s, inr (ReadLength got))
      end
  | ReadPayload n got => poll_payload n got s
  end.

Definition poll_frame (buf_len : Z) (f : ReadFrame) (c : t) : t * option (result IoError.t (list Z * SocketAddr.t)) :=
  match read_frame buf_len f (stream c) with
  | (s, inl (Ok bytes)) => (with_stream c s None, Some (Ok (bytes, server_addr c)))
  | (s, inl (Err e)) => (disconnected (with_stream c s None), Some (Err e))
  | (s, inl Panic) => (with_stream c s None, Some Panic)
  | (s, inr f) => (with_stream c s (Some (buf_len, f)), None)
  end.

(** A poll of [recv]: of the one in progress, or the first one of a new call. *)
Definition recv (buf_len : Z) (c : t) : t * option (result IoError.t (list Z * SocketAddr.t)) :=
  match receiving c with
  | Some (buf_len, f) => poll_frame buf_len f c
  | None => if connected c then poll_frame buf_len (ReadLength []) c else (c, Some (Err IoError.NotConnected))
  end.

(** Another branch of [select!] wins: the receive is dropped, and with it the
    bytes it has taken. *)
Definition drop_recv (c : t) : t := with_stream c (stream c) None.

(** [close]; the shutdown waits for the lock. *)
Definition close (shutdown : result IoError.t unit) (c : t) : t * option (result IoError.t unit) :=
  let c := disconnected c in
  match receiving c with Some _ => (c, None) | None => (c, Some shutdown) end.

(** * Histories *)

Inductive event :=
| Arrive (bytes : list Z)
| PollRecv (buf_len : Z)
| DropRecv
| Send (io : WriteOutcomes) (buf : list Z).

(** The transport after an event, and what a receive gave. *)
Definition step (c : t) (e : event) : t * list (result IoError.t (list Z * SocketAddr.t)) :=
  match e with
  | Arrive bytes => (with_stream c (mk_stream (inbound (stream c) ++ bytes) (eof (stream c)) (outbound (stream c))) (receiving c), [])
  | PollRecv buf_len => let '(c, r) := recv buf_len c in (c, match r with Some r => [r] | None => [] end)
  | DropRecv => (drop_recv c, [])
  | Send io buf => (fst (send io buf c), [])
  end.

Fixpoint run (c : t) (es : list event) : t * list (result IoError.t (list Z * SocketAddr.t)) :=
  match es with
  | [] => (c, [])
  | e :: es => let '(c, r) := step c e in let '(c, rs) := run c es in (c, r ++ rs)
  end.

(** What arrives over a history. *)
Definition arrived (es : list event) : list Z :=
  concat (map (fun e => match e with Arrive bytes => bytes | _ => [] end) es).

(** ** Frames *)

(** The bytes of a frame, as [write_frame] writes them. *)
Definition frame (buf : list Z) : list Z := be_bytes 2 (len buf) ++ buf.

Definition frame_ok (buf : list Z) : Prop := len buf <= TRANSPORT_MAX_PACKET_SIZE.

Definition frames (l : list (list Z)) : list Z := concat (map frame l).

Lemma write_frame_bytes buf s :
  frame_ok buf ->
  write_frame all_written buf s = (mk_stream (inbound s) (eof s) (outbound s ++ frame buf), Ok (len buf)).
Proof.
  intros Hb. unfold write_frame. rewrite (proj2 (Z.ltb_ge _ _)) by done. cbn. by rewrite <- app_assoc.
Qed.

(** Frames are read back one by one. *)
Lemma frames_prefix (d l : list (list Z)) rest more :
  Forall frame_ok d -> Forall frame_ok l -> frames d ++ rest ++ more = frames l ->
  exists l', l = d ++ l' /\ rest ++ more = frames l'.
Proof.
  intros Hd. revert l. induction Hd as [|f d Hf Hd IH]; intros l Hl H; [by exists l|].
  destruct l as [|g l].
  { apply (f_equal length) in H. unfold frames, frame in H. cbn [map concat] in H.
    rewrite !length_app, length_be_bytes in H. simpl in H. lia. }
  apply Forall_cons in Hl as [Hg Hl]. unfold frames in H. cbn [map concat] in H. unfold frame in H at 1 3.
  rewrite <- !app_assoc in H. apply app_inj_1 in H as [Hn H]; [|by rewrite !length_be_bytes].
  assert (len f = len g) as Hfg.
  { apply (f_equal from_be) in Hn. rewrite !from_be_be_bytes in Hn; [done|..].
    all: unfold frame_ok, TRANSPORT_MAX_PACKET_SIZE, uint in *; pose proof (len_nonneg f); pose proof (len_nonneg g); simpl; lia. }
  apply app_inj_1 in H as [-> H]; [|unfold len in Hfg; lia]. destruct (IH l Hl H) as (l' & -> & Hr). by exists l'.
Qed.

(** What [write_frame] leaves on a stream when it writes packets. *)
Definition written (l : list (list Z)) : list Z :=
  outbound (foldl (fun s buf => fst (write_frame all_written buf s)) (mk_stream [] false []) l).

Lemma written_frames l : Forall frame_ok l -> written l = frames l.
Proof.
  intros Hl. unfold written, frames.
  assert (forall s, outbound (foldl (fun s buf => fst (write_frame all_written buf s)) s l) = outbound s ++ concat (map frame l)) as H.
  { induction Hl as [|b l Hb _ IH]; intros s; [simpl; by rewrite app_nil_r|]. cbn [foldl map concat].
    rewrite write_frame_bytes, IH by done. simpl. by rewrite <- app_assoc. }
  apply H.
Qed.

(** The bytes the receive in progress has taken. *)
Definition taken (c : t) : list Z :=
  match receiving c with
  | None => []
  | Some (_, ReadLength got) => got
  | Some (_, ReadPayload n got) => be_bytes 2 n ++ got
  end.

Definition receiving_ok (c : t) : Prop :=
  match receiving c with
  | None => True
  | Some (buf_len, ReadLength got) => TRANSPORT_MAX_PACKET_SIZE <= buf_len /\ len got < 2
  | Some (buf_len, ReadPayload n got) => TRANSPORT_MAX_PACKET_SIZE <= buf_len /\ len got < n <= TRANSPORT_MAX_PACKET_SIZE
  end.

(** The bytes [a] have arrived and the packets [d] were delivered. *)
Definition inv (a : list Z) (d : list (list Z)) (c : t) : Prop :=
  eof (stream c) = false /\ a = frames d ++ taken c ++ inbound (stream c) /\ Forall frame_ok d /\ receiving_ok c.

Lemma read_exact_spec n got s s' r :
  eof s = false -> len got <= n -> read_exact n got s = (s', r) ->
  eof s' = false /\ outbound s' = outbound s /\
  ((exists got', r = inl (Ok got') /\ got ++ inbound s = got' ++ inbound s' /\ len got' = n) \/
   (r = inr (got ++ inbound s) /\ inbound s' = [] /\ len (got ++ inbound s) < n)).
Proof.
  intros He Hg. unfold read_exact. cbn [eof]. rewrite He. set (need := Z.to_nat (n - len got)).
  destruct (Z.leb_spec n (len (got ++ take need (inbound s)))) as [Hn|Hn]; intros [= <- <-]; cbn [eof outbound inbound];
    (split; [done|]); (split; [done|]).
  - left. eexists. split; [done|]. rewrite <- app_assoc, take_drop. split; [done|].
    unfold len in *. rewrite length_app, length_take in *. lia.
  - right. assert (length (inbound s) < need)%nat as Hlt.
    { unfold len in *. rewrite length_app, length_take in Hn. lia. }
    rewrite take_ge, drop_ge in * by lia. done.
Qed.

Lemma frames_snoc d b : frames (d ++ [b]) = frames d ++ frame b.
Proof. unfold frames. rewrite map_app, concat_app. simpl. by rewrite app_nil_r. Qed.

(** What a poll of [read_frame] does with the bytes: it takes a frame, or all
    there is of one. *)
Definition polled (pre : list Z) (s : Stream) (s' : Stream) (r : result IoError.t (list Z) + ReadFrame) : Prop :=
  eof s' = false /\ outbound s' = outbound s /\
  ((exists b, r = inl (Ok b) /\ frame_ok b /\ pre ++ inbound s = frame b ++ inbound s') \/
   (inbound s' = [] /\ exists f, r = inr f /\
     match f with
     | ReadLength got => got = pre ++ inbound s /\ len got < 2
     | ReadPayload n got => be_bytes 2 n ++ got = pre ++ inbound s /\ len got < n <= TRANSPORT_MAX_PACKET_SIZE
     end)).

Lemma poll_payload_spec n got s s' r :
  eof s = false -> len got < n <= TRANSPORT_MAX_PACKET_SIZE -> poll_payload n got s = (s', r) ->
  polled (be_bytes 2 n ++ got) s s' r.
Proof.
  intros He Hn. unfold poll_payload. destruct (read_exact n got s) as [s1 r1] eqn:E.
  apply read_exact_spec in E as (He' & Ho & [(got' & -> & Hb & Hl)|(-> & Hi & Hl)]); [| |done|lia]; intros [= <- <-];
    (split; [done|]); (split; [done|]).
  - left. exists got'. split; [done|]. unfold frame_ok, frame. rewrite Hl. split; [lia|]. by rewrite <- !app_assoc, Hb.
  - right. split; [done|]. eexists. split; [done|]. cbn beta iota. rewrite app_assoc. split; [done|lia].
Qed.

Lemma read_frame_spec buf_len f s s' r pre :
  eof s = false -> bytes_ok (pre ++ inbound s) -> TRANSPORT_MAX_PACKET_SIZE <= buf_len ->
  match f with
  | ReadLength got => pre = got /\ len got < 2
  | ReadPayload n got => pre = be_bytes 2 n ++ got /\ len got < n <= TRANSPORT_MAX_PACKET_SIZE
  end ->
  read_frame buf_len f s = (s', r) -> polled pre s s' r.
Proof.
  intros He Hok Hbl Hf. destruct f as [got|n got]; destruct Hf as [-> Hl]; [|by apply poll_payload_spec].
  cbn [read_frame]. unfold TCP_FRAME_HEADER_SIZE. destruct (read_exact 2 got s) as [s1 r1] eqn:E.
  apply read_exact_spec in E as (He' & Ho & [(lb & -> & Hb & Hn)|(-> & Hi & Hn)]); [| |done|lia].
  2: { intros [= <- <-]. split; [done|]. split; [done|]. right. split; [done|]. eexists. split; [done|]. done. }
  assert (bytes_ok lb /\ length lb = 2%nat) as [Hlb Hl2].
  { split; [|unfold len in Hn; lia]. rewrite Hb in Hok. by apply Forall_app in Hok as [? _]. }
  pose proof (from_be_bound 2 lb Hlb Hl2) as Hu. unfold uint in Hu. unfold TRANSPORT_MAX_PACKET_SIZE in *.
  assert (be_bytes 2 (from_be lb) = lb) as Hbe by (by apply be_bytes_from_be).
  cbn in Hu. rewrite (proj2 (Z.ltb_ge _ _)) by lia. destruct (Z.eqb_spec (from_be lb) 0) as [Hz|Hz].
  - intros [= <- <-]. split; [done|]. split; [done|]. left. exists []. split; [done|]. split; [done|].
    rewrite Hb. unfold frame. change (len []) with 0. by rewrite <- Hz, Hbe, app_nil_r.
  - intros H. apply poll_payload_spec in H as (H1 & H2 & H3); [|done|unfold TRANSPORT_MAX_PACKET_SIZE; change (len []) with 0; lia].
    rewrite Hbe, app_nil_r in H3. split; [done|]. split; [congruence|]. by rewrite Hb.
Qed.

Lemma poll_frame_spec a d buf_len f c c' r :
  eof (stream c) = false -> a = frames d ++ taken c ++ inbound (stream c) -> Forall frame_ok d -> bytes_ok a ->
  TRANSPORT_MAX_PACKET_SIZE <= buf_len ->
  match f with
  | ReadLength got => taken c = got /\ len got < 2
  | ReadPayload n got => taken c = be_bytes 2 n ++ got /\ len got < n <= TRANSPORT_MAX_PACKET_SIZE
  end ->
  poll_frame buf_len f c = (c', r) ->
  connected c' = connected c /\ server_addr c' = server_addr c /\
  ((r = None /\ inv a d c' /\ inbound (stream c') = []) \/
   (exists b, r = Some (Ok (b, server_addr c)) /\ inv a (d ++ [b]) c')).
Proof.
  intros He Ha Hd Hok Hbl Hf. unfold poll_frame. destruct (read_frame buf_len f (stream c)) as [s x] eqn:E.
  apply (read_frame_spec buf_len f (stream c) s x (taken c)) in E as (He' & Ho & [(b & -> & Hb & Hs)|(Hi & g & -> & Hg)]);
    [..|done|by rewrite Ha in Hok; apply Forall_app in Hok as [_ ?]|done|done];
    intros [= <- <-]; (split; [done|]); (split; [done|]).
  - right. exists b. split; [done|]. split; [done|]. cbn [taken receiving with_stream stream].
    split_and!; [|by apply Forall_app; split; [|apply Forall_singleton]|done].
    rewrite frames_snoc, Ha, Hs. by rewrite <- app_assoc.
  - left. split; [done|]. split; [|done]. split; [done|]. unfold taken, receiving_ok. cbn [receiving with_stream stream].
    rewrite Hi, app_nil_r, Ha. destruct g as [got|n got]; destruct Hg as [<- Hl]; split_and!; done || lia.
Qed.

Lemma recv_spec a d c buf_len c' r :
  inv a d c -> bytes_ok a -> TRANSPORT_MAX_PACKET_SIZE <= buf_len -> recv buf_len c = (c', r) ->
  connected c' = connected c /\ server_addr c' = server_addr c /\
  ((r = None /\ inv a d c' /\ inbound (stream c') = []) \/
   (exists b, r = Some (Ok (b, server_addr c)) /\ inv a (d ++ [b]) c') \/
   (r = Some (Err IoError.NotConnected) /\ connected c = false /\ c' = c)).
Proof.
  intros (He & Ha & Hd & Hr) Hok Hbl. unfold recv, receiving_ok in *.
  destruct (receiving c) as [[bl f]|] eqn:Er; [|destruct (connected c) eqn:Ec].
  - intros H. apply (poll_frame_spec a d) in H as (H1 & H2 & [H3|H3]); try done; [by auto|by auto|..].
    + by destruct f; destruct Hr.
    + unfold taken. rewrite Er. by destruct f; destruct Hr.
  - intros H. apply (poll_frame_spec a d) in H as (H1 & H2 & [H3|H3]); try done; [rewrite <- Ec; by auto|rewrite <- Ec; by auto|].
    unfold taken. by rewrite Er.
  - intros [= <- <-]. split; [done|]. split; [done|]. by right; right.
Qed.

(** ** Histories *)

(** The packets among what receives gave. *)
Definition delivered (rs : list (result IoError.t (list Z * SocketAddr.t))) : list (list Z) :=
  omap (fun r => match r with Ok (b, _) => Some b | _ => None end) rs.

(** Whether dropping the receive in progress loses no byte. *)
Definition between_frames (c : t) : bool := bool_decide (taken c = []).

(** A history in which buffers are as large as the client's and a receive is
    dropped only before it has taken a byte. *)
Fixpoint orderly (c : t) (es : list event) : bool :=
  match es with
  | [] => true
  | e :: es =>
      match e with
      | PollRecv buf_len => TRANSPORT_MAX_PACKET_SIZE <=? buf_len
      | DropRecv => between_frames c
      | _ => true
      end && orderly (fst (step c e)) es
  end.

Lemma step_spec a d c e c' r (a' := a ++ match e with Arrive b => b | _ => [] end) :
  inv a d c -> bytes_ok a' ->
  match e with PollRecv n => TRANSPORT_MAX_PACKET_SIZE <= n | DropRecv => taken c = [] | _ => True end ->
  step c e = (c', r) ->
  inv a' (d ++ delivered r) c' /\ (connected c' = true -> connected c = true) /\ server_addr c' = server_addr c.
Proof.
  intros Hi Hok He. unfold a' in *. destruct e as [b|n| |io buf]; cbn [step].
  - intros [= <- <-]. destruct Hi as (Hi1 & Hi2 & Hi3 & Hi4). simpl. rewrite app_nil_r. split; [|done].
    split_and!; try done. rewrite Hi2. by rewrite <- !app_assoc.
  - rewrite app_nil_r in *. destruct (recv n c) as [c1 o] eqn:E. intros [= <- <-].
    eapply recv_spec in E as (Hc & Hs & [(-> & H & _)|[(b & -> & H)|(-> & _ & ->)]]); try done;
      rewrite ?app_nil_r; (split; [done|]); split; by rewrite ?Hc.
  - intros [= <- <-]. destruct Hi as (Hi1 & Hi2 & Hi3 & Hi4). simpl. rewrite !app_nil_r in *. split; [|done].
    unfold drop_recv. split_and!; try done. by rewrite He in Hi2.
  - intros [= <- <-]. change (delivered []) with (@nil (list Z)). rewrite !app_nil_r in *. pose proof Hi as (Hi1 & Hi2 & Hi3 & Hi4).
    unfold send. destruct (connected c) eqn:Ec; [|cbn [fst]; rewrite Ec; by split_and!].
    destruct (receiving c) eqn:Er; [by destruct (TRANSPORT_MAX_PACKET_SIZE <? len buf); split_and!|].
    assert (eof (fst (write_frame io buf (stream c))) = eof (stream c) /\
      inbound (fst (write_frame io buf (stream c))) = inbound (stream c)) as [Hw1 Hw2].
    { unfold write_frame, write_all. destruct io as [[[]|] [[]|] []]; simpl; by destruct (_ <? _). }
    destruct (write_frame io buf (stream c)) as [s x]. simpl in Hw1, Hw2.
    assert (inv a d (with_stream c s None)) as Hn.
    { split; [simpl; by rewrite Hw1|]. split; [|done]. simpl. rewrite Hw2. unfold taken in Hi2. by rewrite Er in Hi2. }
    destruct x; by split_and!.
Qed.

Lemma run_spec a d c es :
  inv a d c -> bytes_ok (a ++ arrived es) -> orderly c es = true ->
  inv (a ++ arrived es) (d ++ delivered (snd (run c es))) (fst (run c es)) /\
  (connected (fst (run c es)) = true -> connected c = true).
Proof.
  revert a d c. induction es as [|e es IH]; intros a d c Hi Hok Ho.
  { unfold arrived. simpl. by rewrite !app_nil_r. }
  cbn [orderly] in Ho. apply andb_true_iff in Ho as [He Ho].
  change (arrived (e :: es)) with (match e with Arrive b => b | _ => [] end ++ arrived es) in *.
  cbn [run]. destruct (step c e) as [c1 r] eqn:E. rewrite app_assoc in Hok. pose proof Hok as [Hok1 _]%Forall_app.
  apply (step_spec a d) in E as (H1 & H2 & _); [|done|done|].
  2: { destruct e; try done; [by apply Z.leb_le in He|]. unfold between_frames in He. by apply bool_decide_eq_true in He. }
  cbn [fst] in Ho. destruct (IH _ _ _ H1 Hok Ho) as [H3 H4]. destruct (run c1 es) as [c2 rs]. simpl in *.
  unfold delivered in *. rewrite omap_app, !app_assoc in *. split; [done|auto].
Qed.

Lemma frames_app l l' : frames (l ++ l') = frames l ++ frames l'.
Proof. unfold frames. by rewrite map_app, concat_app. Qed.

Lemma frame_length g : frame_ok g -> u16 (len g).
Proof. unfold frame_ok, TRANSPORT_MAX_PACKET_SIZE, u16, uint. pose proof (len_nonneg g). lia. Qed.

(** A receive that has taken a whole frame does not wait. *)
Lemma taken_frame c g rest : frame_ok g -> receiving_ok c -> taken c <> frame g ++ rest.
Proof.
  intros Hg Hr H. unfold taken, receiving_ok in *. destruct (receiving c) as [[bl [got|n got]]|].
  - subst got. destruct Hr as [_ Hr]. unfold frame, len in Hr. rewrite !length_app, length_be_bytes in Hr. lia.
  - destruct Hr as [_ Hr]. unfold frame in H. rewrite <- app_assoc in H.
    apply app_inj_1 in H as [Hn ->]; [|by rewrite !length_be_bytes].
    apply be_bytes_inj in Hn; [|pose proof (len_nonneg (g ++ rest)); unfold uint, TRANSPORT_MAX_PACKET_SIZE in *; cbn; lia|by apply frame_length].
    rewrite len_app in Hr. pose proof (len_nonneg rest). lia.
  - apply (f_equal length) in H. unfold frame in H. rewrite !length_app, length_be_bytes in H. simpl in H. lia.
Qed.

Lemma next_frame d g l c buf_len :
  inv (frames (d ++ g :: l)) d c -> bytes_ok (frames (d ++ g :: l)) -> Forall frame_ok (d ++ g :: l) ->
  connected c = true -> TRANSPORT_MAX_PACKET_SIZE <= buf_len ->
  exists c', recv buf_len c = (c', Some (Ok (g, server_addr c))) /\ inv (frames (d ++ g :: l)) (d ++ [g]) c' /\
    connected c' = true.
Proof.
  intros Hi Hok Hl Hc Hb. destruct (recv buf_len c) as [c' r] eqn:E. pose proof Hl as [Hd [Hg Hl']%Forall_cons]%Forall_app.
  eapply recv_spec in E as (H1 & _ & [(_ & (_ & H2 & _ & H3) & H4)|[(b & -> & H2)|(_ & H2 & _)]]); [..|exact Hi|done|done]; [| |congruence].
  - exfalso. rewrite H4, app_nil_r, frames_app in H2. apply app_inv_head in H2.
    eapply taken_frame; [exact Hg|exact H3|]. by rewrite <- H2.
  - pose proof H2 as (_ & H3 & H4 & _). symmetry in H3. apply frames_prefix in H3 as (l' & H3 & _); [|done|done].
    rewrite <- app_assoc in H3. apply app_inv_head in H3. injection H3 as -> _. exists c'. by rewrite H1.
Qed.

Lemma remaining_frames d l c :
  inv (frames (d ++ l)) d c -> bytes_ok (frames (d ++ l)) -> Forall frame_ok (d ++ l) -> connected c = true ->
  delivered (snd (run c (replicate (length l) (PollRecv TRANSPORT_MAX_PACKET_SIZE)))) = l.
Proof.
  revert d c. induction l as [|g l IH]; intros d c Hi Hok Hl Hc; [done|]. cbn [length replicate run step].
  destruct (next_frame d g l c TRANSPORT_MAX_PACKET_SIZE Hi Hok Hl Hc ltac:(done)) as (c' & -> & Hi' & Hc').
  rewrite cons_middle, app_assoc in *. specialize (IH _ _ Hi' Hok Hl Hc').
  destruct (run c' _) as [c2 rs]. simpl in *. by rewrite IH.
Qed.

Lemma history_app c es es' :
  run c (es ++ es') = (fst (run (fst (run c es)) es'), snd (run c es) ++ snd (run (fst (run c es)) es')).
Proof.
  revert c. induction es as [|e es IH]; intros c; simpl; [by destruct (run c es')|]. destruct (step c e) as [c1 r].
  rewrite IH. destruct (run c1 es) as [c2 rs]. simpl. by rewrite app_assoc.
Qed.

Lemma orderly_app c es es' : orderly c (es ++ es') = orderly c es && orderly (fst (run c es)) es'.
Proof.
  revert c. induction es as [|e es IH]; intros c; [done|]. cbn [orderly run app]. rewrite IH, andb_assoc. f_equal.
  destruct (step c e) as [c1 r]. simpl. by destruct (run c1 es).
Qed.

Definition polls (n : nat) : list event := replicate n (PollRecv TRANSPORT_MAX_PACKET_SIZE).

Lemma polls_orderly c n : orderly c (polls n) = true.
Proof. revert c. induction n as [|n IH]; intros c; [done|]. apply IH. Qed.

Lemma arrived_app es es' : arrived (es ++ es') = arrived es ++ arrived es'.
Proof. unfold arrived. by rewrite map_app, concat_app. Qed.

Lemma polls_arrived n : arrived (polls n) = [].
Proof. by induction n. Qed.

(** A new connection. *)
Definition opened (server local : SocketAddr.t) : t := mk (mk_stream [] false []) None server local true.

Lemma delivered_prefix server local l es more :
  Forall frame_ok l -> bytes_ok (frames l) -> orderly (opened server local) es = true -> arrived es ++ more = frames l ->
  delivered (snd (run (opened server local) es)) `prefix_of` l.
Proof.
  intros Hl Hok Ho Ha. destruct (run_spec [] [] (opened server local) es) as [(_ & H1 & H2 & _) _]; [done| |done|].
  { rewrite <- Ha in Hok. by apply Forall_app in Hok as [? _]. }
  simpl in H1. rewrite H1, <- app_assoc in Ha. apply frames_prefix in Ha as (l' & -> & _); [|done|done]. by exists l'.
Qed.

Lemma delivered_app c es es' :
  delivered (snd (run c (es ++ es'))) = delivered (snd (run c es)) ++ delivered (snd (run (fst (run c es)) es')).
Proof. rewrite history_app. apply omap_app. Qed.

Lemma delivered_all server local l es (c := opened server local) :
  Forall frame_ok l -> bytes_ok (frames l) -> orderly c es = true -> arrived es = frames l ->
  connected (fst (run c es)) = true -> delivered (snd (run c (es ++ polls (length l)))) = l.
Proof.
  intros Hl Hok Ho Ha Hc.
  assert (forall n, delivered (snd (run c (es ++ polls n))) `prefix_of` l) as Hp.
  { intros n. apply (delivered_prefix server local l _ []); try done; fold c; [by rewrite orderly_app, Ho, polls_orderly|].
    by rewrite arrived_app, polls_arrived, !app_nil_r. }
  destruct (run_spec [] [] c es) as [Hi _]; [done|by rewrite Ha|done|]. simpl in Hi. rewrite Ha in Hi.
  destruct (Hp 0%nat) as [l' Hl']. rewrite app_nil_r in Hl'. set (d := delivered (snd (run c es))) in *.
  rewrite Hl' in Hi, Hok, Hl. pose proof (remaining_frames d l' _ Hi Hok Hl Hc) as Hr.
  assert (delivered (snd (run c (es ++ polls (length l')))) = l) as Hfull by (rewrite delivered_app, Hl'; by f_equal).
  assert (polls (length l) = polls (length l') ++ polls (length d)) as Hn.
  { unfold polls. rewrite <- replicate_add. f_equal. rewrite Hl', length_app. lia. }
  specialize (Hp (length l)). rewrite Hn, app_assoc, delivered_app, Hfull in Hp |- *.
  destruct Hp as [k Hk]. rewrite <- app_assoc in Hk. rewrite <- (app_nil_r l) in Hk at 1. apply app_inv_head in Hk.
  symmetry in Hk. apply app_nil in Hk as [-> _]. apply app_nil_r.
Qed.

(** C33: Packets written as frames arrive as they were sent, however the stream
    is cut, provided no receive is dropped in the middle of a frame.  Take any
    history of a new connection: bytes arriving, polls of the receive with
    buffers of the client's size, receives dropped before they have taken a
    byte, packets sent.  As long as what has arrived is a part of what
    [write_frame] writes for packets [l], the packets delivered are the first
    of [l], in order; when everything has arrived and the connection has not
    failed, as many polls as there are packets deliver all of [l].  While a
    receive waits it holds the stream, and a packet to send waits with it. *)
Theorem tcp_framing server local l es (c := opened server local) :
  Forall frame_ok l -> bytes_ok (written l) -> orderly c es = true ->
  (forall more, arrived es ++ more = written l -> delivered (snd (run c es)) `prefix_of` l) /\
  (arrived es = written l -> connected (fst (run c es)) = true ->
     delivered (snd (run c (es ++ polls (length l)))) = l) /\
  (forall io buf, connected (fst (run c es)) = true -> receiving (fst (run c es)) <> None -> frame_ok buf ->
     send io buf (fst (run c es)) = (fst (run c es), None)).
Proof.
  intros Hl Hok Ho. rewrite written_frames in * by done. split_and!.
  - intros more. by apply delivered_prefix.
  - by apply delivered_all.
  - intros io buf Hc Hr Hb. unfold send. rewrite Hc. destruct (receiving _); [|done].
    unfold frame_ok in Hb. by rewrite (proj2 (Z.ltb_ge _ _)) by lia.
Qed.

End TcpTransport.

(** * The transport in use *)

Module Transport.

Inductive t := Udp (u : UdpTransport.t) | Tcp (c : TcpTransport.t).

(** What the operating system and the network give to connection attempts. *)
Record Environment := mk_env {
  bind : SocketAddr.t -> result IoError.t (Z * SocketAddr.t);
  tcp_connect : SocketAddr.t -> option Z -> option (result IoError.t SocketAddr.t);
  valid_name : list Z -> bool;
  tls_connect : list Z -> bool
}.

Definition connect (env : Environment) (config : TransportConfig.t) : result IoError.t t :=
  match config with
  | TransportConfig.Udp server_addr => let? u := UdpTransport.connect (bind env) server_addr in Ok (Udp u)
  | TransportConfig.Tcp server_addr timeout sni =>
      let? c := TcpTransport.connect (tcp_connect env server_addr timeout) (valid_name env) (tls_connect env) server_addr sni in
      Ok (Tcp c)
  end.

Definition server_addr (x : t) : SocketAddr.t :=
  match x with Udp u => UdpTransport.server_addr u | Tcp c => TcpTransport.server_addr c end.

Definition transport_type (x : t) : TransportType.t :=
  match x with Udp _ => TransportType.Udp | Tcp _ => TransportType.Tcp end.

Lemma connect_spec env config x :
  connect env config = Ok x ->
  transport_type x = TransportConfig.transport_type config /\ server_addr x = TransportConfig.server_addr config.
Proof.
  destruct config as [a|a timeout sni]; cbn [connect].
  - unfold UdpTransport.connect. destruct (bind env _) as [[]| |]; [|done..]. by intros [= <-].
  - unfold TcpTransport.connect. destruct (tcp_connect _ _ _) as [[]|]; [|done..]. simpl.
    destruct (valid_name env _), (tls_connect env _); [|done..]. by intros [= <-].
Qed.

End Transport.

Module TransportFallback.

Record t := mk {
  primary_config : TransportConfig.t;
  fallback_config : option TransportConfig.t;
  current : option Transport.t;
  using_fallback : bool;
  udp_failure_threshold : Z;
  udp_failure_count : Z
}.

Definition new (primary : TransportConfig.t) (fallback : option TransportConfig.t) : t :=
  mk primary fallback None false 3 0.

Definition with_failure_threshold (f : t) (threshold : Z) : t :=
  mk (primary_config f) (fallback_config f) (current f) (using_fallback f) threshold (udp_failure_count f).

(** [ClientConfig::transport_fallback] *)
Definition transport_fallback (c : ClientConfig.t) : t :=
  with_failure_threshold (new (TransportConfig.primary_transport_config c) (TransportConfig.fallback_transport_config c))
    (ClientConfig.tcp_fallback_threshold c).

Definition set (f : t) (cur : option Transport.t) (fallback : bool) (count : Z) : t :=
  mk (primary_config f) (fallback_config f) cur fallback (udp_failure_threshold f) count.

Definition connect_primary (env : Transport.Environment) (f : t) : t * result IoError.t Transport.t :=
  match Transport.connect env (primary_config f) with
  | Ok transport => (set f (Some transport) false (udp_failure_count f), Ok transport)
  | Err e => (f, Err e)
  | Panic => (f, Panic)
  end.

Definition connect_fallback (env : Transport.Environment) (f : t) : t * result IoError.t Transport.t :=
  match fallback_config f with
  | None => (f, Err IoError.NotFound)
  | Some config =>
      match Transport.connect env config with
      | Ok transport => (set f (Some transport) true (udp_failure_count f), Ok transport)
      | Err e => (f, Err e)
      | Panic => (f, Panic)
      end
  end.

Definition connect (env : Transport.Environment) (f : t) : t * result IoError.t Transport.t :=
  if using_fallback f then connect_fallback env f else connect_primary env f.

(** [udp_failure_count += 1] aborts at the largest [u32]. *)
Definition record_failure (f : t) : t * result IoError.t bool :=
  if using_fallback f then (f, Ok false)
  else if udp_failure_count f + 1 <? 2 ^ 32 then
    let count := udp_failure_count f + 1 in
    if (udp_failure_threshold f <=? count) && match fallback_config f with Some _ => true | None => false end then
      (set f (current f) true count, Ok true)
    else (set f (current f) false count, Ok false)
  else (f, Panic).

Definition record_success (f : t) : t := if using_fallback f then f else set f (current f) false 0.

Definition reset_to_primary (f : t) : t := set f None false 0.

(** ** Histories *)

Inductive event := Connect (env : Transport.Environment) | Failure | Success | Reset.

Definition step (f : t) (e : event) : t :=
  match e with
  | Connect env => fst (connect env f)
  | Failure => fst (record_failure f)
  | Success => record_success f
  | Reset => reset_to_primary f
  end.

(** TCP is used only when there is a
    fallback, and not before as many failures as the threshold says. *)
Definition inv (f : t) : Prop :=
  0 <= udp_failure_count f /\
  (using_fallback f = true -> fallback_config f <> None /\ udp_failure_threshold f <= udp_failure_count f) /\
  (using_fallback f = false -> fallback_config f <> None -> 0 < udp_failure_count f ->
     udp_failure_count f < udp_failure_threshold f).

Lemma fallback_inv f e : inv f -> inv (step f e).
Proof.
  intros Hi. pose proof Hi as (H0 & H1 & H2). destruct e as [env| | |]; cbn [step].
  - unfold connect, connect_fallback, connect_primary. destruct (using_fallback f) eqn:E.
    + destruct (fallback_config f) eqn:Ef; [|exact Hi]. destruct (Transport.connect env _); try exact Hi.
      unfold inv. simpl. rewrite Ef. split_and!; try done; by apply H1.
    + destruct (Transport.connect env _); try exact Hi. unfold inv. simpl. by split_and!.
  - unfold record_failure. destruct (using_fallback f) eqn:E; [exact Hi|]. destruct (_ <? 2 ^ 32); [|exact Hi].
    destruct (fallback_config f) eqn:Ef; simpl; rewrite ?andb_true_r, ?andb_false_r.
    + destruct (Z.leb_spec (udp_failure_threshold f) (udp_failure_count f + 1)); unfold inv; simpl; rewrite Ef;
        split_and!; try done; lia.
    + unfold inv. simpl. rewrite Ef. split_and!; try done; lia.
  - unfold record_success. destruct (using_fallback f) eqn:E; [exact Hi|]. unfold inv. simpl. split_and!; try done; lia.
  - unfold inv. simpl. split_and!; try done; lia.
Qed.

(** TCP is tried after as many failures in a row as the threshold says, and
    after at least one. *)
Lemma failures_in_a_row f n :
  using_fallback f = false -> udp_failure_count f = 0 -> fallback_config f <> None -> Z.of_nat n < 2 ^ 32 ->
  using_fallback (Nat.iter n (fun f => step f Failure) f) = (0 <? Z.of_nat n) && (udp_failure_threshold f <=? Z.of_nat n).
Proof.
  intros Hu Hc Hf Hn. set (g := Nat.iter n (fun f => step f Failure) f).
  assert (udp_failure_threshold g = udp_failure_threshold f /\ fallback_config g = fallback_config f /\
    using_fallback g = (0 <? Z.of_nat n) && (udp_failure_threshold f <=? Z.of_nat n) /\
    (using_fallback g = false -> udp_failure_count g = Z.of_nat n)) as H; [|by destruct H as (_ & _ & ? & _)].
  unfold g. clear g. induction n as [|n IH]; [done|]. rewrite Nat.iter_succ. set (g := Nat.iter n _ f) in *.
  destruct IH as (H1 & H2 & H3 & H4); [lia|]. cbn [step]. unfold record_failure.
  rewrite (proj2 (Z.ltb_lt 0 (Z.of_nat (S n)))) by lia. simpl andb. destruct (using_fallback g) eqn:E.
  - symmetry in H3. apply andb_true_iff in H3 as [_ H3]. b2p. simpl. rewrite E, (proj2 (Z.leb_le _ _)) by lia. by split_and!.
  - rewrite H4 by done. rewrite (proj2 (Z.ltb_lt _ _)) by lia. rewrite H1, H2.
    replace (Z.of_nat n + 1) with (Z.of_nat (S n)) by lia. destruct (fallback_config f) eqn:Ef; [|done].
    rewrite andb_true_r. by destruct (udp_failure_threshold f <=? Z.of_nat (S n)).
Qed.

End TransportFallback.

(** * Examples *)

Import TcpTransport.

Definition example_packets : list (list Z) := [[1; 2; 3]; []; [4; 5]].
Definition example_server : SocketAddr.t := SocketAddr.V4 [198; 51; 100; 1] 443.
Definition example_local : SocketAddr.t := SocketAddr.V4 [192; 168; 0; 2] 50000.

(** The first frame arrives in two parts; the receive is dropped before it. *)
Definition example_history : list event :=
  [PollRecv 65535; DropRecv; Arrive [0; 3; 1]; PollRecv 65535; Send all_written [9]; Arrive [2; 3; 0; 0]; PollRecv 65535;
   Send all_written [9]; Arrive [0; 2; 4; 5]].

Lemma tcp_framing_witness :
  delivered (snd (run (opened example_server example_local) (example_history ++ polls 3))) = example_packets /\
  outbound (stream (fst (run (opened example_server example_local) example_history))) = [0; 1; 9].
Proof.
  split; [|vm_compute; reflexivity].
  apply (tcp_framing example_server example_local example_packets example_history);
    [by_decide|by_decide|vm_compute; reflexivity..].
Defined.

(** A receive dropped in the middle of a frame: its bytes are lost, and payload
    is taken for lengths. *)
Example dropped_mid_frame :
  delivered (snd (run (opened example_server example_local)
    [Arrive [0; 3]; PollRecv 65535; DropRecv; Arrive [0; 1; 7]; Arrive (written [[8; 9]]); PollRecv 65535; PollRecv 65535]))
  = [[7]; [8; 9]] /\
  written [[0; 1; 7]; [8; 9]] = [0; 3] ++ [0; 1; 7] ++ written [[8; 9]].
Proof. vm_compute. by split. Qed.
