(* ===== verification/KillSwitch.v ===== *)
(** The kill switch of the client (hpn-client-core/src/kill_switch.rs): its
    state machine, the back-off between attempts to reconnect, and the small
    detectors beside it.

    Each method is one step; instants and durations are nanoseconds, the clock
    and the random jitter are arguments. *)

From S2P Require Import Prelude ClientStats.

Definition SECOND : Z := 1000000000.

Definition duration_saturating_mul (d n : Z) : Z := Z.min (d * n) DURATION_MAX.

Module KillSwitchMode.

Inductive t := Disabled | Enabled | EnabledAllowLan.

#[global] Instance mode_eq_dec : EqDecision t.
Proof. solve_decision. Defined.

Definition is_active (m : t) : bool := match m with Disabled => false | _ => true end.
Definition allows_lan (m : t) : bool := match m with Disabled | EnabledAllowLan => true | Enabled => false end.
Definition default : t := Disabled.

End KillSwitchMode.

Module KillSwitchState.

Inductive t := Inactive | Armed | Engaged | Bypassed.

#[global] Instance kill_state_eq_dec : EqDecision t.
Proof. solve_decision. Defined.

Definition default : t := Inactive.

End KillSwitchState.

Module DisconnectReason.

Inductive t := UserRequested | ServerClosed | NetworkError | AuthFailure | SessionTimeout | SystemEvent | Unknown.

Definition should_engage_kill_switch (r : t) : bool := match r with UserRequested => false | _ => true end.

End DisconnectReason.

Module KillSwitchManager.

Record t := mk {
  mode : KillSwitchMode.t;
  state : KillSwitchState.t;
  state_changed_at : Z;
  reconnect_attempts : Z;
  max_reconnect_attempts : Z;
  base_reconnect_delay : Z;
}.

Definition with_reconnect_settings (now : Z) (mode : KillSwitchMode.t) (max_attempts base_delay : Z) : t :=
  mk mode KillSwitchState.Inactive now 0 max_attempts base_delay.

Definition new (now : Z) (mode : KillSwitchMode.t) : t :=
  mk mode KillSwitchState.Inactive now 0 5 (2 * SECOND).

Definition set_attempts (k : t) (n : Z) : t :=
  mk (mode k) (state k) (state_changed_at k) n (max_reconnect_attempts k) (base_reconnect_delay k).

Definition transition_to (k : t) (now : Z) (new_state : KillSwitchState.t) : t :=
  if negb (bool_decide (state k = new_state)) then
    mk (mode k) new_state now (reconnect_attempts k) (max_reconnect_attempts k) (base_reconnect_delay k)
  else k.

Definition set_mode (k : t) (now : Z) (m : KillSwitchMode.t) : t :=
  if negb (bool_decide (mode k = m)) then
    let k := mk m (state k) (state_changed_at k) (reconnect_attempts k) (max_reconnect_attempts k)
               (base_reconnect_delay k) in
    let should_transition := negb (KillSwitchMode.is_active m) && bool_decide (state k = KillSwitchState.Engaged) in
    if should_transition then transition_to k now KillSwitchState.Inactive else k
  else k.

Definition should_block_traffic (k : t) : bool :=
  KillSwitchMode.is_active (mode k) && bool_decide (state k = KillSwitchState.Engaged).

Definition is_lan_allowed (k : t) : bool := KillSwitchMode.allows_lan (mode k).

Definition on_vpn_connected (k : t) (now : Z) : t :=
  if KillSwitchMode.is_active (mode k) then set_attempts (transition_to k now KillSwitchState.Armed) 0 else k.

(** With whether traffic should be blocked. *)
Definition on_vpn_disconnected (k : t) (now : Z) (reason : DisconnectReason.t) : t * bool :=
  let current_state := state k in
  if negb (KillSwitchMode.is_active (mode k)) then (transition_to k now KillSwitchState.Inactive, false)
  else if bool_decide (current_state = KillSwitchState.Armed) && DisconnectReason.should_engage_kill_switch reason then
    (transition_to k now KillSwitchState.Engaged, true)
  else if negb (DisconnectReason.should_engage_kill_switch reason) then
    (transition_to k now KillSwitchState.Inactive, false)
  else (k, bool_decide (current_state = KillSwitchState.Engaged)).

Definition MAX_BACKOFF_EXPONENT : Z := 20.
Definition MAX_RECONNECT_DELAY : Z := 300 * SECOND.

(** [2u32.checked_pow(exponent).unwrap_or(u32::MAX)] *)
Definition backoff_multiplier (exponent : Z) : Z :=
  if 2 ^ exponent <=? U32_MAX then 2 ^ exponent else U32_MAX.

(** The delay before the attempt, or none when there were too many; [rnd] is
    [rand::random::<u64>()]. *)
Definition on_reconnect_attempt (k : t) (now rnd : Z) : t * result Empty_set (option Z) :=
  let attempts := reconnect_attempts k + 1 in
  if U32_MAX <? attempts then (k, Panic)
  else
    let k := set_attempts k attempts in
    if max_reconnect_attempts k <? attempts then (k, Ok None)
    else
      let exponent := Z.min (attempts - 1) MAX_BACKOFF_EXPONENT in
      let delay :=
        Z.min (duration_saturating_mul (base_reconnect_delay k) (backoff_multiplier exponent)) MAX_RECONNECT_DELAY in
      let jitter := rnd mod 500 * 1000000 in
      let k :=
        if bool_decide (state k = KillSwitchState.Engaged) then transition_to k now KillSwitchState.Bypassed
        else k in
      if DURATION_MAX <? delay + jitter then (k, Panic) else (k, Ok (Some (delay + jitter))).

Definition on_reconnect_success (k : t) (now : Z) : t := transition_to (set_attempts k 0) now KillSwitchState.Armed.

Definition on_reconnect_failed (k : t) (now : Z) : t :=
  if KillSwitchMode.is_active (mode k) then transition_to k now KillSwitchState.Engaged else k.

Definition reset (k : t) (now : Z) : t := set_attempts (transition_to k now KillSwitchState.Inactive) 0.

Definition time_in_current_state (k : t) (now : Z) : Z := saturating_sub now (state_changed_at k).

Definition default (now : Z) : t := new now KillSwitchMode.Disabled.

End KillSwitchManager.

Module NetworkChangeDetector.

Record t := mk { last_gateway : option (list Z); last_check : Z; check_interval : Z }.

Definition new (now : Z) : t := mk None now (5 * SECOND).
Definition with_interval (now interval : Z) : t := mk None now interval.
Definition record_gateway (d : t) (now : Z) (gateway : list Z) : t := mk (Some gateway) now (check_interval d).

Definition check_gateway_change (d : t) (current_gateway : list Z) : option (list Z) :=
  match last_gateway d with
  | Some last_gw => if negb (bool_decide (last_gw = current_gateway)) then Some current_gateway else None
  | None => None
  end.

Definition should_check (d : t) (now : Z) : bool := check_interval d <=? saturating_sub now (last_check d).
Definition mark_checked (d : t) (now : Z) : t := mk (last_gateway d) now (check_interval d).

End NetworkChangeDetector.

Module SystemEvent.

Inductive t := Sleep | Wake | NetworkChange | PowerChange.

Definition should_check_connection (e : t) : bool := match e with Wake | NetworkChange => true | _ => false end.
Definition should_pause_connection (e : t) : bool := match e with Sleep => true | _ => false end.

End SystemEvent.

(** * Histories *)

Module KillSwitchHistory.
Import KillSwitchManager.

(** What happens to the kill switch. *)
Inductive event :=
| SetMode (m : KillSwitchMode.t)
| Connected
| Disconnected (r : DisconnectReason.t)
| ReconnectAttempt (rnd : Z)
| ReconnectSuccess
| ReconnectFailed
| Reset.

Definition apply (k : t) (x : Z * event) : t :=
  let '(now, e) := x in
  match e with
  | SetMode m => set_mode k now m
  | Connected => on_vpn_connected k now
  | Disconnected r => fst (on_vpn_disconnected k now r)
  | ReconnectAttempt rnd => fst (on_reconnect_attempt k now rnd)
  | ReconnectSuccess => on_reconnect_success k now
  | ReconnectFailed => on_reconnect_failed k now
  | Reset => reset k now
  end.

Definition run (k : t) (h : list (Z * event)) : t := foldl apply k h.

(** The calls that let traffic through again. *)
Definition releases (e : event) : bool :=
  match e with
  | SetMode m => negb (KillSwitchMode.is_active m)
  | Disconnected r => negb (DisconnectReason.should_engage_kill_switch r)
  | ReconnectFailed => false
  | _ => true
  end.

(** The calls that say the connection is lost. *)
Definition loses (e : event) : bool :=
  match e with
  | Disconnected r => DisconnectReason.should_engage_kill_switch r
  | ReconnectFailed => true
  | _ => false
  end.

Lemma transition_state k now s : state (transition_to k now s) = s.
Proof. unfold transition_to. by case_bool_decide. Qed.

Lemma transition_mode k now s : mode (transition_to k now s) = mode k.
Proof. unfold transition_to. by case_bool_decide. Qed.

Lemma set_mode_mode k now m : mode (set_mode k now m) = m.
Proof.
  unfold set_mode. case_bool_decide; [done|]. simpl. destruct (_ && _); [by rewrite transition_mode|done].
Qed.

Lemma set_mode_state k now m :
  state (set_mode k now m) =
    if negb (KillSwitchMode.is_active m) && bool_decide (state k = KillSwitchState.Engaged) &&
       negb (bool_decide (mode k = m))
    then KillSwitchState.Inactive else state k.
Proof.
  unfold set_mode. destruct (bool_decide (mode k = m)); simpl; [by rewrite andb_false_r|]. rewrite andb_true_r.
  destruct (_ && _); [by rewrite transition_state|done].
Qed.

Lemma attempt_mode_state k now rnd :
  let k' := fst (on_reconnect_attempt k now rnd) in
  mode k' = mode k /\
  (state k' = state k \/ state k = KillSwitchState.Engaged /\ state k' = KillSwitchState.Bypassed).
Proof.
  unfold on_reconnect_attempt. destruct (U32_MAX <? _); [by auto|]. cbn [max_reconnect_attempts set_attempts].
  destruct (_ <? _); [by auto|]. cbn [state set_attempts]. case_bool_decide as Hs.
  - destruct (DURATION_MAX <? _); simpl; rewrite transition_mode, transition_state; simpl; by auto.
  - destruct (DURATION_MAX <? _); simpl; by auto.
Qed.

(** A call that releases nothing keeps an armed or engaged switch so, and one
    that loses the connection engages it. *)
Definition guarding (k : t) : Prop :=
  KillSwitchMode.is_active (mode k) = true /\
  (state k = KillSwitchState.Armed \/ state k = KillSwitchState.Engaged).

Lemma guarding_step k x :
  guarding k -> releases (snd x) = false ->
  guarding (apply k x) /\ (should_block_traffic k = true \/ loses (snd x) = true -> should_block_traffic (apply k x) = true).
Proof.
  intros [Ha Hs] Hr. destruct x as [now e]. unfold guarding, should_block_traffic. destruct e; simpl in *; try done.
  - apply negb_false_iff in Hr. rewrite set_mode_mode, set_mode_state, Hr. simpl. split; [done|].
    intros [Hb|?]; [|done]. by apply andb_true_iff in Hb as [_ ->].
  - apply negb_false_iff in Hr. unfold on_vpn_disconnected. rewrite Ha, Hr. simpl.
    destruct Hs as [Hs|Hs]; rewrite Hs; simpl; rewrite ?transition_mode, ?transition_state, ?Hs, ?Ha; by auto.
  - unfold on_reconnect_failed. rewrite Ha, transition_mode, transition_state, Ha. by auto.
Qed.

Lemma guarding_run k h :
  guarding k -> Forall (fun x => releases (snd x) = false) h ->
  guarding (run k h) /\ (should_block_traffic k = true -> should_block_traffic (run k h) = true).
Proof.
  intros Hk Hh. revert k Hk. induction Hh as [|x h Hx _ IH]; intros k Hk; [done|]. simpl.
  destruct (guarding_step k x Hk Hx) as [Hg Hb]. destruct (IH _ Hg) as [Hg' Hb']. split; [done|]. by auto.
Qed.

Lemma run_app k h1 h2 : run k (h1 ++ h2) = run (run k h1) h2.
Proof. apply foldl_app. Qed.

(** An engaged switch is enabled. *)
Definition sound (k : t) : Prop := state k = KillSwitchState.Engaged -> KillSwitchMode.is_active (mode k) = true.

Lemma sound_step k x : sound k -> sound (apply k x).
Proof.
  unfold sound. destruct x as [now e]. intros Hk. destruct e; simpl.
  - rewrite set_mode_mode, set_mode_state. destruct (KillSwitchMode.is_active m) eqn:Em; [done|]. simpl.
    case_bool_decide as He; simpl; [|by intros]. case_bool_decide as Hm; simpl; [|done]. intros _. subst m. apply Hk in He. congruence.
  - unfold on_vpn_connected. destruct (KillSwitchMode.is_active (mode k)) eqn:Ha.
    + simpl. by rewrite transition_state.
    + intros He. apply Hk in He. congruence.
  - unfold on_vpn_disconnected. destruct (KillSwitchMode.is_active (mode k)) eqn:Ha; simpl.
    2:{ by rewrite transition_state. }
    destruct (_ && _); simpl; [by rewrite transition_mode|]. destruct (negb _); simpl; [by rewrite transition_mode|done].
  - pose proof (attempt_mode_state k now rnd) as [-> [->|[_ ->]]]; [done|done].
  - unfold on_reconnect_success. by rewrite transition_state.
  - unfold on_reconnect_failed. destruct (KillSwitchMode.is_active (mode k)) eqn:Ha; [by rewrite transition_mode|].
    intros He. apply Hk in He. congruence.
  - unfold reset. simpl. by rewrite transition_state.
Qed.

Lemma sound_run k h : sound k -> sound (run k h).
Proof. revert k. induction h as [|x h IH]; intros k Hk; simpl; [done|]. by apply IH, sound_step. Qed.

(** A call that keeps blocked traffic blocked: it releases nothing, or it is
    an attempt to reconnect that is refused. *)
Definition keeps (e : event) : Prop := releases e = false \/ exists rnd, e = ReconnectAttempt rnd.

(** Blocked traffic is explained by a lost connection. *)
Lemma blocked_step k x :
  sound k -> should_block_traffic (apply k x) = true ->
  loses (snd x) = true \/ (should_block_traffic k = true /\ keeps (snd x)).
Proof.
  intros Hk. unfold should_block_traffic, keeps. destruct x as [now e].
  rewrite !andb_true_iff, !bool_decide_eq_true. unfold sound in Hk. destruct e; simpl; [| | | | |by auto|].
  - rewrite set_mode_mode, set_mode_state. intros [Hm Hs]. rewrite Hm in *. simpl in *. right. split; [by auto|by left].
  - unfold on_vpn_connected. destruct (KillSwitchMode.is_active (mode k)) eqn:Ha; [|by intros [? _]; congruence].
    simpl. rewrite transition_state. by intros [_ ?].
  - destruct (DisconnectReason.should_engage_kill_switch r) eqn:Er; [by auto|]. unfold on_vpn_disconnected. rewrite Er.
    rewrite andb_false_r. destruct (negb _); simpl; rewrite transition_state; by intros [_ ?].
  - pose proof (attempt_mode_state k now rnd) as [Hm Hs]. rewrite Hm. intros [Ha He]. right.
    destruct Hs as [<-|[_ Hs]]; [|congruence]. split; [done|]. right. by exists rnd.
  - unfold on_reconnect_success. rewrite transition_state. by intros [_ ?].
  - unfold reset. simpl. rewrite transition_state. by intros [_ ?].
Qed.

Lemma blocked_run k h :
  sound k -> should_block_traffic k = false -> should_block_traffic (run k h) = true ->
  exists h1 x h2, h = h1 ++ x :: h2 /\ loses (snd x) = true /\ Forall (fun y => keeps (snd y)) h2.
Proof.
  intros Hk Hn. induction h as [|x h IH] using rev_ind; [simpl; congruence|]. rewrite run_app. simpl. intros Hb.
  destruct (blocked_step _ _ (sound_run k h Hk) Hb) as [Hl|[Hb' Hx]]; [by exists h, x, []|].
  destruct (IH Hb') as (h1 & y & h2 & -> & Hl & Hf). exists h1, y, (h2 ++ [x]).
  rewrite <- app_assoc. split_and!; [done|done|]. apply Forall_app. by split; [|constructor].
Qed.

(** What the back-off before attempt [n] is: doubled each time, at most 2^20
    times, and never more than five minutes. *)
Lemma attempt_delay k now rnd :
  0 <= base_reconnect_delay k <= DURATION_MAX -> 0 <= reconnect_attempts k < U32_MAX -> 0 <= rnd ->
  let n := reconnect_attempts k in
  let '(k', x) := on_reconnect_attempt k now rnd in
  reconnect_attempts k' = n + 1 /\
  (n < max_reconnect_attempts k -> exists d, x = Ok (Some d) /\
     let delay := Z.min (base_reconnect_delay k * 2 ^ Z.min n 20) (300 * SECOND) in
     delay <= d < delay + SECOND / 2) /\
  (max_reconnect_attempts k <= n -> x = Ok None).
Proof.
  intros Hb Hn Hr n. unfold on_reconnect_attempt. fold n. rewrite (proj2 (Z.ltb_ge _ _)) by lia.
  cbn [max_reconnect_attempts set_attempts]. destruct (max_reconnect_attempts k <? n + 1) eqn:Em; b2p.
  { split_and!; [done|lia|done]. }
  replace (n + 1 - 1) with n by lia.
  assert (2 ^ Z.min n 20 <= 2 ^ 20) as Hp by (apply Z.pow_le_mono_r; lia).
  assert (0 < 2 ^ Z.min n 20) as Hp' by (apply Z.pow_pos_nonneg; lia).
  unfold backoff_multiplier, MAX_BACKOFF_EXPONENT. rewrite (proj2 (Z.leb_le _ _)) by (change (2 ^ 20) with 1048576 in Hp; unfold U32_MAX; lia).
  unfold duration_saturating_mul, MAX_RECONNECT_DELAY. cbn [base_reconnect_delay set_attempts].
  assert (300 * SECOND < DURATION_MAX) as Hd by done.
  set (p := base_reconnect_delay k * _). rewrite <- Z.min_assoc, (Z.min_r DURATION_MAX) by lia.
  pose proof (Z.mod_pos_bound rnd 500). rewrite (proj2 (Z.ltb_ge _ _)).
  2:{ unfold DURATION_MAX, SECOND, U64_MAX in *. lia. }
  split_and!.
  - simpl. case_bool_decide; [|done]. unfold transition_to. by case_bool_decide.
  - intros _. eexists. split; [done|]. unfold SECOND in *. change (1000000000 / 2) with 500000000. lia.
  - lia.
Qed.

(** C34: the kill switch over any history of calls.  After a connection was
    made while it is enabled, a loss of the connection (anything but a
    disconnection the user asked for) blocks traffic, and it stays blocked until
    a call that releases it.  Traffic is blocked only after such a loss.  The
    answer to a disconnection is whether traffic is blocked from then on; a
    loss blocks an enabled switch exactly if it was armed or engaged before, so
    not after the switch was enabled during a connection, nor during an attempt
    to reconnect. *)
Theorem kill_switch_protects now0 mode0 max base h :
  let k := run (with_reconnect_settings now0 mode0 max base) h in
  (KillSwitchMode.is_active (mode k) = true -> forall n1 h1 n2 r h2,
     Forall (fun x => releases (snd x) = false) h1 -> Forall (fun x => releases (snd x) = false) h2 ->
     DisconnectReason.should_engage_kill_switch r = true ->
     should_block_traffic (run k ((n1, Connected) :: h1 ++ (n2, Disconnected r) :: h2)) = true) /\
  (should_block_traffic k = true ->
     exists h1 x h2, h = h1 ++ x :: h2 /\ loses (snd x) = true /\ Forall (fun y => keeps (snd y)) h2) /\
  (forall now r, let '(k', blocked) := on_vpn_disconnected k now r in
     blocked = should_block_traffic k' /\
     (DisconnectReason.should_engage_kill_switch r = true ->
      blocked = KillSwitchMode.is_active (mode k) &&
        (bool_decide (state k = KillSwitchState.Armed) || bool_decide (state k = KillSwitchState.Engaged)))).
Proof.
  intros k. split_and!.
  - intros Ha n1 h1 n2 r h2 Hh1 Hh2 Hr. simpl. rewrite run_app. simpl.
    assert (guarding (on_vpn_connected k n1)) as Hg.
    { unfold guarding, on_vpn_connected. rewrite Ha. simpl. rewrite transition_mode, transition_state. by auto. }
    destruct (guarding_run _ h1 Hg Hh1) as [Hg1 _]. set (k1 := run _ h1) in *.
    destruct (guarding_step k1 (n2, Disconnected r) Hg1) as [Hg2 Hb2]; [simpl; by rewrite Hr|].
    apply (guarding_run _ h2 Hg2 Hh2), Hb2. by right.
  - apply blocked_run; [done|]. unfold should_block_traffic. simpl. apply andb_false_r.
  - intros now r. unfold on_vpn_disconnected, should_block_traffic.
    destruct (KillSwitchMode.is_active (mode k)) eqn:Ha; simpl; [|by rewrite transition_mode, Ha].
    destruct (bool_decide (state k = KillSwitchState.Armed)) eqn:Es; simpl.
    + destruct (DisconnectReason.should_engage_kill_switch r); simpl; rewrite transition_mode, transition_state, Ha; by auto.
    + destruct (DisconnectReason.should_engage_kill_switch r); simpl; [rewrite Ha; by auto|].
      rewrite transition_mode, transition_state, Ha. by auto.
Qed.

End KillSwitchHistory.

(** * Examples *)

Import KillSwitchHistory.

Definition should_block (m : KillSwitchMode.t) (es : list event) : bool :=
  KillSwitchManager.should_block_traffic (run (KillSwitchManager.new 0 m) (map (fun e => (0, e)) es)).

(** Enabled during a connection, the switch does not see it lost. *)
Example enabled_while_connected :
  should_block (KillSwitchMode.Disabled) [Connected; SetMode KillSwitchMode.Enabled; Disconnected DisconnectReason.NetworkError] = false.
Proof. reflexivity. Qed.

(** No limit on attempts cannot be expressed: zero refuses the first one. *)
Example zero_attempts_refused :
  snd (KillSwitchManager.on_reconnect_attempt
         (KillSwitchManager.with_reconnect_settings 0 KillSwitchMode.Enabled 0 SECOND) 0 0) = Ok None.
Proof. reflexivity. Qed.

Example kill_switch_cycle :
  let lost := [Connected; Disconnected DisconnectReason.NetworkError] in
  should_block KillSwitchMode.Enabled lost = true /\
  should_block KillSwitchMode.Enabled (lost ++ [ReconnectAttempt 7]) = false /\
  should_block KillSwitchMode.Enabled (lost ++ [ReconnectAttempt 7; Disconnected DisconnectReason.NetworkError]) = false /\
  should_block KillSwitchMode.Enabled (lost ++ [ReconnectAttempt 7; ReconnectFailed]) = true /\
  should_block KillSwitchMode.Enabled (lost ++ [ReconnectAttempt 7; ReconnectSuccess]) = false.
Proof. split_and!; reflexivity. Qed.

Lemma kill_switch_protects_witness :
  KillSwitchManager.should_block_traffic
    (run (KillSwitchManager.with_reconnect_settings 0 KillSwitchMode.Enabled 5 SECOND)
       [(1, Connected); (2, SetMode KillSwitchMode.EnabledAllowLan); (3, Disconnected DisconnectReason.ServerClosed);
        (4, Disconnected DisconnectReason.Unknown)]) = true.
Proof.
  apply (kill_switch_protects 0 KillSwitchMode.Enabled 5 SECOND []) with
    (h1 := [(2, SetMode KillSwitchMode.EnabledAllowLan)]) (n2 := 3) (r := DisconnectReason.ServerClosed)
    (h2 := [(4, Disconnected DisconnectReason.Unknown)]); repeat constructor.
Defined.
