(* ===== verification/NatTraversal.v ===== *)
(** NAT discovery and traversal: hpn-client-core/src/nat.rs.

    A UDP socket, the name resolver and the clocks are outside: what a call
    on them returned is an argument.  [HolePunchMessage::from_bytes] and
    [RendezvousInfo::from_bytes] return an [Option]; [Err tt] is [None]. *)

From S2P Require Import Prelude Types Codec Wire Net ClientStats ClientConfig.

Definition STUN_BINDING_REQUEST : Z := 1.
Definition STUN_BINDING_RESPONSE : Z := 257.
Definition STUN_BINDING_ERROR_RESPONSE : Z := 273.
Definition STUN_ATTR_MAPPED_ADDRESS : Z := 1.
Definition STUN_ATTR_XOR_MAPPED_ADDRESS : Z := 32.
Definition STUN_MAGIC_COOKIE : Z := 554869826.
Definition STUN_HEADER_SIZE : Z := 20.

Module StunResult.

Record t := mk { public_ip : IpAddr.t; public_port : Z; server : string }.

Definition socket_addr (r : t) : SocketAddr.t := SocketAddr.new (public_ip r) (public_port r).

End StunResult.

Module StunClient.

Record t := mk { servers : list string; timeout : Z; retries : Z }.

Definition new : t := mk [] (secs 3) 2.

Definition with_servers (c : t) (servers : list string) : t := mk servers (timeout c) (retries c).
Definition with_timeout (c : t) (timeout : Z) : t := mk (servers c) timeout (retries c).
Definition with_retries (c : t) (retries : Z) : t := mk (servers c) (timeout c) retries.

Definition is_enabled (c : t) : bool := match servers c with [] => false | _ => true end.

Definition build_binding_request (transaction_id : list Z) : list Z :=
  be_bytes 2 STUN_BINDING_REQUEST ++ be_bytes 2 0 ++ be_bytes 4 STUN_MAGIC_COOKIE ++ transaction_id.

(** [ip_bytes[i] = data[4 + i] ^ xor_key[i]] *)
Fixpoint xor_bytes {E} (data xor_key : list Z) (i : Z) (n : nat) : result E (list Z) :=
  match n with
  | O => Ok []
  | S n =>
      let? d := index data (4 + i) in
      let? k := index xor_key i in
      let? rest := xor_bytes data xor_key (i + 1) n in
      Ok (Z.lxor d k :: rest)
  end.

Definition parse_xor_mapped_address {E} (data xor_key : list Z) : result E (option (IpAddr.t * Z)) :=
  if (len data <? 8) || (len xor_key <? 16) then Ok None
  else
    let? family := index data 1 in
    let? xor_port := read_u16 data 2 in
    let port := Z.lxor xor_port (as_uint 16 (Z.shiftr STUN_MAGIC_COOKIE 16)) in
    if family =? 1 then
      let? xor_ip := read_u32 data 4 in
      let ip := Z.lxor xor_ip STUN_MAGIC_COOKIE in
      Ok (Some (IpAddr.V4 (be_bytes 4 ip), port))
    else if family =? 2 then
      if len data <? 20 then Ok None
      else
        let? ip_bytes := xor_bytes data xor_key 0 16 in
        Ok (Some (IpAddr.V6 ip_bytes, port))
    else Ok None.

Definition parse_mapped_address {E} (data : list Z) : result E (option (IpAddr.t * Z)) :=
  if len data <? 8 then Ok None
  else
    let? family := index data 1 in
    let? port := read_u16 data 2 in
    if family =? 1 then
      let? ip := range data 4 8 in
      Ok (Some (IpAddr.V4 ip, port))
    else if family =? 2 then
      if len data <? 20 then Ok None
      else
        let? ip := range data 4 20 in
        Ok (Some (IpAddr.V6 ip, port))
    else Ok None.

(** [(attr_len + 3) & !3] *)
Definition padded (attr_len : Z) : Z := Z.ldiff (attr_len + 3) 3.

(** The attribute loop; running out of [fuel] counts as an abort. *)
Fixpoint parse_attributes (fuel : nat) (data : list Z) (attrs_end offset : Z) (server : string)
    : result ClientError.t StunResult.t :=
  if offset + 4 <=? attrs_end then
    match fuel with
    | O => Panic
    | S fuel =>
        let? attr_type := read_u16 data offset in
        let? attr_len := read_u16 data (offset + 2) in
        let offset := offset + 4 in
        if attrs_end <? offset + attr_len then Err ClientError.Network
        else
          let? found :=
            if attr_type =? STUN_ATTR_XOR_MAPPED_ADDRESS then
              let? value := range data offset (offset + attr_len) in
              let? xor_key := range data 4 20 in
              parse_xor_mapped_address value xor_key
            else if attr_type =? STUN_ATTR_MAPPED_ADDRESS then
              let? value := range data offset (offset + attr_len) in
              parse_mapped_address value
            else Ok None in
          match found with
          | Some (ip, port) => Ok (StunResult.mk ip port server)
          | None => parse_attributes fuel data attrs_end (offset + padded attr_len) server
          end
    end
  else Err ClientError.Network.

Definition parse_binding_response (data transaction_id : list Z) (server : string)
    : result ClientError.t StunResult.t :=
  if len data <? STUN_HEADER_SIZE then Err ClientError.Network
  else
    let? msg_type := read_u16 data 0 in
    let? msg_len := read_u16 data 2 in
    let? magic := read_u32 data 4 in
    if negb (magic =? STUN_MAGIC_COOKIE) then Err ClientError.Network
    else
      let? id := range data 8 20 in
      if negb (bool_decide (id = transaction_id)) then Err ClientError.Network
      else if negb (msg_type =? STUN_BINDING_RESPONSE) then Err ClientError.Network
      else
        let attrs_end := STUN_HEADER_SIZE + msg_len in
        if len data <? attrs_end then Err ClientError.Network
        else parse_attributes (length data) data attrs_end STUN_HEADER_SIZE server.

(** What the socket did with a request: the addresses the server name gave
    ([None] when it was an address itself, with that address), whether the
    send succeeded, and the datagram received. *)
Record exchange := mk_exchange {
  resolved : sum SocketAddr.t (option (list SocketAddr.t));
  transaction_id : list Z;
  send_ok : bool;
  reply : option (list Z);
}.

Definition is_ipv4 (a : SocketAddr.t) : bool :=
  match a with SocketAddr.V4 _ _ => true | SocketAddr.V6 _ _ _ _ => false end.

Definition stun_request (local_is_v4 : bool) (x : exchange) (server : string)
    : result ClientError.t StunResult.t :=
  let? server_addr :=
    match resolved x with
    | inl direct => Ok direct
    | inr None => Err ClientError.Network
    | inr (Some addrs) =>
        ok_or ClientError.Network (List.find (fun a => Bool.eqb (is_ipv4 a) local_is_v4) addrs)
    end in
  if negb (Bool.eqb (is_ipv4 server_addr) local_is_v4) then Err ClientError.Network
  else
    let request := build_binding_request (transaction_id x) in
    if negb (send_ok x) then Err ClientError.Network
    else
      match reply x with
      | None => Err ClientError.Network
      | Some buf =>
          let? id := range request 8 20 in
          parse_binding_response buf id server
      end.

(** One server: attempts [0..=retries]. *)
Fixpoint try_server (local_is_v4 : bool) (net : nat -> exchange) (i : nat) (attempts : nat) (server : string)
    : result ClientError.t (option StunResult.t) :=
  match attempts with
  | O => Ok None
  | S attempts =>
      match stun_request local_is_v4 (net i) server with
      | Ok result => Ok (Some result)
      | Err _ => try_server local_is_v4 net (S i) attempts server
      | Panic => Panic
      end
  end.

Fixpoint try_servers (local_is_v4 : bool) (net : nat -> exchange) (i : nat) (attempts : nat)
    (servers : list string) : result ClientError.t StunResult.t :=
  match servers with
  | [] => Err ClientError.Network
  | server :: servers =>
      let? found := try_server local_is_v4 net i attempts server in
      match found with
      | Some result => Ok result
      | None => try_servers local_is_v4 net (i + attempts) attempts servers
      end
  end.

(** [socket_ok] tells whether binding the socket and setting its timeout
    succeeded; the socket is IPv4. *)
Definition discover (c : t) (socket_ok : bool) (net : nat -> exchange) : result ClientError.t StunResult.t :=
  if negb (is_enabled c) then Err ClientError.Network
  else if negb socket_ok then Err ClientError.Network
  else try_servers true net 0 (S (Z.to_nat (retries c))) (servers c).

(** The same on a socket of the caller, whose family decides. *)
Definition discover_with_socket (c : t) (timeout_ok local_is_v4 : bool) (net : nat -> exchange)
    : result ClientError.t StunResult.t :=
  if negb (is_enabled c) then Err ClientError.Network
  else if negb timeout_ok then Err ClientError.Network
  else try_servers local_is_v4 net 0 (S (Z.to_nat (retries c))) (servers c).

End StunClient.

Module NatType.

Inductive t := None | FullCone | AddressRestrictedCone | PortRestrictedCone | Symmetric | Unknown.

#[global] Instance t_eq_dec : EqDecision t.
Proof. solve_decision. Defined.

(** [self.nat_type as u8] *)
Definition as_u8 (n : t) : Z :=
  match n with
  | None => 0 | FullCone => 1 | AddressRestrictedCone => 2 | PortRestrictedCone => 3 | Symmetric => 4
  | Unknown => 5
  end.

Definition from_u8 (b : Z) : t :=
  if b =? 0 then None else if b =? 1 then FullCone else if b =? 2 then AddressRestrictedCone
  else if b =? 3 then PortRestrictedCone else if b =? 4 then Symmetric else Unknown.

End NatType.

Module NatInfo.

Record t := mk {
  public_endpoint : option StunResult.t;
  nat_type : NatType.t;
  local_addr : option SocketAddr.t;
}.

Definition can_hole_punch (i : t) : bool :=
  match nat_type i with
  | NatType.None | NatType.FullCone | NatType.AddressRestrictedCone | NatType.PortRestrictedCone => true
  | _ => false
  end.

Definition is_symmetric (i : t) : bool := bool_decide (nat_type i = NatType.Symmetric).

(** [StunClient::new] has no server, so nothing is sent. *)
Definition discover_nat_info (socket_ok : bool) (net : nat -> StunClient.exchange) : result Empty_set t :=
  let client := StunClient.new in
  if negb (StunClient.is_enabled client) then Ok (mk None NatType.Unknown None)
  else
    match StunClient.discover client socket_ok net with
    | Ok result => Ok (mk (Some result) NatType.Unknown None)
    | Err _ => Ok (mk None NatType.Unknown None)
    | Panic => Panic
    end.

End NatInfo.

(** * Hole punching *)

Module HolePunchConfig.

Record t := mk { attempts : Z; attempt_delay : Z; timeout : Z; port_prediction_range : Z }.

Definition default : t := mk 10 100000000 (secs 5) 10.

End HolePunchConfig.

Module HolePunchResult.

(** The round-trip time is in milliseconds. *)
Record t := mk { success : bool; remote_endpoint : option SocketAddr.t; attempts_made : Z; rtt : option Z }.

End HolePunchResult.

Module PeerInfo.

Record t := mk {
  public_endpoint : SocketAddr.t;
  private_endpoint : option SocketAddr.t;
  nat_type : NatType.t;
  peer_id : list Z;
}.

Definition new (public_endpoint : SocketAddr.t) (peer_id : list Z) : t :=
  mk public_endpoint None NatType.Unknown peer_id.

Definition with_details (public_endpoint : SocketAddr.t) (private_endpoint : option SocketAddr.t)
    (nat_type : NatType.t) (peer_id : list Z) : t :=
  mk public_endpoint private_endpoint nat_type peer_id.

End PeerInfo.

Module HolePunchMessageType.

Inductive t := Punch | PunchAck | Keepalive.

Definition as_u8 (m : t) : Z := match m with Punch => 1 | PunchAck => 2 | Keepalive => 3 end.

End HolePunchMessageType.

Module HolePunchMessage.

Record t := mk {
  msg_type : HolePunchMessageType.t;
  peer_id : list Z;
  sequence : Z;
  timestamp : Z;
}.

(** [now] is the wall clock in milliseconds, [None] before the epoch. *)
Definition punch (now : option Z) (peer_id : list Z) (sequence : Z) : t :=
  mk HolePunchMessageType.Punch peer_id sequence (as_uint 64 (default 0 now)).

Definition ack (peer_id : list Z) (sequence original_timestamp : Z) : t :=
  mk HolePunchMessageType.PunchAck peer_id sequence original_timestamp.

Definition to_bytes (m : t) : list Z :=
  [HolePunchMessageType.as_u8 (msg_type m)] ++ peer_id m ++ be_bytes 4 (sequence m) ++ be_bytes 8 (timestamp m).

Definition from_bytes (data : list Z) : result unit t :=
  if len data <? 29 then Err tt
  else
    let? b := index data 0 in
    let? msg_type :=
      if b =? 1 then Ok HolePunchMessageType.Punch
      else if b =? 2 then Ok HolePunchMessageType.PunchAck
      else if b =? 3 then Ok HolePunchMessageType.Keepalive
      else Err tt in
    let? peer_id := range data 1 17 in
    let? sequence := read_u32 data 17 in
    let? timestamp := read_u64 data 21 in
    Ok (mk msg_type peer_id sequence timestamp).

Definition wf (m : t) : Prop :=
  bytes_ok (peer_id m) /\ len (peer_id m) = 16 /\ u32 (sequence m) /\ u64 (timestamp m).

End HolePunchMessage.

Module HolePuncher.

Record t := mk { config : HolePunchConfig.t; our_peer_id : list Z; our_nat_info : option NatInfo.t }.

Definition with_config (our_peer_id : list Z) (config : HolePunchConfig.t) : t := mk config our_peer_id None.
Definition new (our_peer_id : list Z) : t := with_config our_peer_id HolePunchConfig.default.

Definition discover_nat (h : t) (socket_ok : bool) (net : nat -> StunClient.exchange)
    : result Empty_set (t * NatInfo.t) :=
  match our_nat_info h with
  | Some i => Ok (h, i)
  | None =>
      let? i := NatInfo.discover_nat_info socket_ok net in
      Ok (mk (config h) (our_peer_id h) (Some i), i)
  end.

(** The ports [base_port + offset] and [base_port - offset] that exist. *)
Definition predicted (ip : IpAddr.t) (base_port offset : Z) : list SocketAddr.t :=
  match checked_add 16 base_port offset with Some p => [SocketAddr.new ip p] | None => [] end ++
  match checked_sub base_port offset with Some p => [SocketAddr.new ip p] | None => [] end.

Definition generate_punch_endpoints (h : t) (peer : PeerInfo.t) : list SocketAddr.t :=
  let public := PeerInfo.public_endpoint peer in
  [public]
  ++ (if bool_decide (PeerInfo.nat_type peer = NatType.Symmetric) then
        concat (map (fun offset => predicted (SocketAddr.ip public) (SocketAddr.port public) (Z.of_nat offset))
          (seq 1 (Z.to_nat (HolePunchConfig.port_prediction_range (config h)))))
      else [])
  ++ match PeerInfo.private_endpoint peer with Some private => [private] | None => [] end.

(** What happened during one attempt: the wall clock at each punch and
    whether the socket took it, the datagrams received before the deadline
    with the wall clock at their receipt, and whether the total timeout had
    passed at the end. *)
Record round := mk_round {
  stamp : nat -> option Z;
  taken : nat -> bool;
  received : list (list Z * SocketAddr.t * option Z);
  expired : bool;
}.

Fixpoint send_punches (our_id : list Z) (attempt : Z) (r : round) (i : nat) (endpoints : list SocketAddr.t)
    : list (list Z * SocketAddr.t) :=
  match endpoints with
  | [] => []
  | e :: endpoints =>
      (if taken r i then [(HolePunchMessage.to_bytes (HolePunchMessage.punch (stamp r i) our_id attempt), e)]
       else [])
      ++ send_punches our_id attempt r (S i) endpoints
  end.

(** The receive loop: the acknowledgements sent, and the address and
    round-trip time of the peer's acknowledgement. *)
Fixpoint collect (our_id : list Z) (peer : PeerInfo.t) (inbound : list (list Z * SocketAddr.t * option Z))
    : result Empty_set (list (list Z * SocketAddr.t) * option (SocketAddr.t * Z)) :=
  match inbound with
  | [] => Ok ([], None)
  | (data, from, now) :: inbound =>
      match HolePunchMessage.from_bytes (take 64 data) with
      | Panic => Panic
      | Err _ => collect our_id peer inbound
      | Ok msg =>
          if negb (bool_decide (HolePunchMessage.peer_id msg = PeerInfo.peer_id peer)) then
            collect our_id peer inbound
          else
            match HolePunchMessage.msg_type msg with
            | HolePunchMessageType.Punch =>
                let ack := HolePunchMessage.ack our_id (HolePunchMessage.sequence msg)
                             (HolePunchMessage.timestamp msg) in
                let? (sent, found) := collect our_id peer inbound in
                Ok ((HolePunchMessage.to_bytes ack, from) :: sent, found)
            | HolePunchMessageType.PunchAck =>
                let now_ms := as_uint 64 (default 0 now) in
                Ok ([], Some (from, saturating_sub now_ms (HolePunchMessage.timestamp msg)))
            | HolePunchMessageType.Keepalive => collect our_id peer inbound
            end
      end
  end.

Fixpoint punch_attempts (h : t) (peer : PeerInfo.t) (endpoints : list SocketAddr.t) (attempt : Z) (n : nat)
    (rounds : nat -> round) : result Empty_set (list (list Z * SocketAddr.t) * HolePunchResult.t) :=
  match n with
  | O => Ok ([], HolePunchResult.mk false None attempt None)
  | S n =>
      let r := rounds (Z.to_nat attempt) in
      let attempts_made := attempt + 1 in
      let punches := send_punches (our_peer_id h) attempt r 0 endpoints in
      let? (acks, found) := collect (our_peer_id h) peer (received r) in
      match found with
      | Some (from, rtt_ms) =>
          Ok (punches ++ acks, HolePunchResult.mk true (Some from) attempts_made (Some rtt_ms))
      | None =>
          if expired r then Ok (punches ++ acks, HolePunchResult.mk false None attempts_made None)
          else
            let? (sent, result) := punch_attempts h peer endpoints attempts_made n rounds in
            Ok (punches ++ acks ++ sent, result)
      end
  end.

Definition punch (h : t) (peer : PeerInfo.t) (rounds : nat -> round)
    : result Empty_set (list (list Z * SocketAddr.t) * HolePunchResult.t) :=
  punch_attempts h peer (generate_punch_endpoints h peer) 0 (Z.to_nat (HolePunchConfig.attempts (config h)))
    rounds.

Definition keepalive (h : t) : list Z :=
  HolePunchMessage.to_bytes (HolePunchMessage.mk HolePunchMessageType.Keepalive (our_peer_id h) 0 0).

End HolePuncher.

Module RendezvousInfo.

Record t := mk {
  peer_id : list Z;
  public_endpoint : SocketAddr.t;
  private_endpoint : option SocketAddr.t;
  nat_type : NatType.t;
  timestamp : Z;
}.

Definition from_nat_info (now : option Z) (peer_id : list Z) (nat_info : NatInfo.t) : option t :=
  match NatInfo.public_endpoint nat_info with
  | Some r =>
      Some (mk peer_id (StunResult.socket_addr r) (NatInfo.local_addr nat_info) (NatInfo.nat_type nat_info)
              (default 0 now))
  | None => None
  end.

Definition to_peer_info (r : t) : PeerInfo.t :=
  PeerInfo.with_details (public_endpoint r) (private_endpoint r) (nat_type r) (peer_id r).

Definition endpoint_bytes (a : SocketAddr.t) : list Z :=
  match a with
  | SocketAddr.V4 ip port => [4] ++ ip ++ be_bytes 2 port
  | SocketAddr.V6 ip port _ _ => [6] ++ ip ++ be_bytes 2 port
  end.

Definition to_bytes (r : t) : list Z :=
  peer_id r ++ endpoint_bytes (public_endpoint r)
  ++ match private_endpoint r with Some a => [1] ++ endpoint_bytes a | None => [0] end
  ++ [NatType.as_u8 (nat_type r)] ++ be_bytes 8 (timestamp r).

(** The endpoint and the offset after it. *)
Definition parse_endpoint (data : list Z) (offset : Z) : result unit (SocketAddr.t * Z) :=
  if len data <=? offset then Err tt
  else
    let? ip_version := index data offset in
    let offset := offset + 1 in
    if ip_version =? 4 then
      if len data <? offset + 6 then Err tt
      else
        let? ip := range data offset (offset + 4) in
        let? port := read_u16 data (offset + 4) in
        Ok (SocketAddr.new (IpAddr.V4 ip) port, offset + 6)
    else if ip_version =? 6 then
      if len data <? offset + 18 then Err tt
      else
        let? ip_bytes := range data offset (offset + 16) in
        let? port := read_u16 data (offset + 16) in
        Ok (SocketAddr.new (IpAddr.V6 ip_bytes) port, offset + 18)
    else Err tt.

Definition from_bytes (data : list Z) : result unit t :=
  if len data <? 24 then Err tt
  else
    let? peer_id := range data 0 16 in
    let? (public_endpoint, offset) := parse_endpoint data 16 in
    let? has_private := index data offset in
    let? (private_endpoint, offset) :=
      if has_private =? 1 then
        let? (a, offset) := parse_endpoint data (offset + 1) in
        Ok (Some a, offset)
      else Ok (None, offset + 1) in
    if len data <=? offset then Err tt
    else
      let? n := index data offset in
      let offset := offset + 1 in
      if len data <? offset + 8 then Err tt
      else
        let? timestamp := read_u64 data offset in
        Ok (mk peer_id public_endpoint private_endpoint (NatType.from_u8 n) timestamp).

(** An address a message can carry. *)
Definition plain (a : SocketAddr.t) : Prop :=
  SocketAddr.wf a /\ match a with SocketAddr.V4 _ _ => True | SocketAddr.V6 _ _ f s => f = 0 /\ s = 0 end.

Definition wf (r : t) : Prop :=
  bytes_ok (peer_id r) /\ len (peer_id r) = 16 /\ plain (public_endpoint r) /\
  (forall a, private_endpoint r = Some a -> plain a) /\ u64 (timestamp r).

End RendezvousInfo.

(** * Messages of the peers *)

Lemma punch_codec m r :
  HolePunchMessage.wf m -> HolePunchMessage.from_bytes (HolePunchMessage.to_bytes m ++ r) = Ok m.
Proof.
  destruct m as [ty id sq ts]. intros (Hb & Hl & Hs & Ht). cbn [HolePunchMessage.peer_id
    HolePunchMessage.sequence HolePunchMessage.timestamp] in *.
  unfold HolePunchMessage.to_bytes, HolePunchMessage.from_bytes.
  cbn [HolePunchMessage.msg_type HolePunchMessage.peer_id HolePunchMessage.sequence HolePunchMessage.timestamp].
  rewrite <- !app_assoc.
  start_at ([HolePunchMessageType.as_u8 ty] ++ id ++ be_bytes 4 sq ++ be_bytes 8 ts ++ r).
  pose proof (len_nonneg r).
  match goal with |- context [len ?b <? 29] => replace (len b) with (29 + len r) by offsets end.
  check_len. eat. replace (if HolePunchMessageType.as_u8 ty =? 1 then _ else _) with (Ok (E:=unit) ty) by by destruct ty.
  sbind. do 3 eat. done.
Qed.

Lemma punch_from_bytes_total data : bytes_ok data -> HolePunchMessage.from_bytes data <> Panic.
Proof.
  intros Hb E. unfold HolePunchMessage.from_bytes in E. repeat (step_in E; b2p); try no_abort.
  repeat match goal with H : (if ?b then _ else _) = Panic |- _ => destruct b; try discriminate H end.
Qed.

Lemma endpoint_at data o a r p :
  rest_at data o (RendezvousInfo.endpoint_bytes a ++ r) -> p = o -> RendezvousInfo.plain a ->
  RendezvousInfo.parse_endpoint data p = Ok (a, o + len (RendezvousInfo.endpoint_bytes a)).
Proof.
  intros R -> [[Hip Hp] Hz]. pose proof (rest_at_len _ _ _ R) as HL. pose proof (len_nonneg r).
  unfold RendezvousInfo.parse_endpoint.
  destruct a as [ip port|ip port f s]; cbn [RendezvousInfo.endpoint_bytes SocketAddr.ip SocketAddr.port] in *;
    destruct Hip as [Hib Hil]; rewrite <- !app_assoc in R; autorewrite with len in HL |- *;
    check_len; eat; repeat check_len; do 2 eat.
  - f_equal. f_equal. lia.
  - destruct Hz as [-> ->]. f_equal. f_equal. lia.
Qed.

Lemma rendezvous_roundtrip x r :
  RendezvousInfo.wf x -> RendezvousInfo.from_bytes (RendezvousInfo.to_bytes x ++ r) = Ok x.
Proof.
  destruct x as [id pub priv ty ts]. intros (Hb & Hl & Hpub & Hpriv & Ht).
  cbn [RendezvousInfo.peer_id RendezvousInfo.public_endpoint RendezvousInfo.private_endpoint
    RendezvousInfo.timestamp] in *.
  unfold RendezvousInfo.to_bytes, RendezvousInfo.from_bytes. cbn [RendezvousInfo.peer_id
    RendezvousInfo.public_endpoint RendezvousInfo.private_endpoint RendezvousInfo.nat_type
    RendezvousInfo.timestamp].
  rewrite <- !app_assoc. set (buf := id ++ _). start_at buf. unfold buf in R at 2.
  pose proof (rest_at_len _ _ _ R) as HB. autorewrite with len in HB. pose proof (len_nonneg r).
  assert (7 <= len (RendezvousInfo.endpoint_bytes pub)) as Hp7.
  { destruct pub as [ip p|ip p f s]; destruct Hpub as [[[_ Hi] _] _]; simpl in Hi;
      unfold RendezvousInfo.endpoint_bytes; autorewrite with len; lia. }
  destruct priv as [a|].
  - rewrite <- !app_assoc in R. autorewrite with len in HB.
    pose proof (len_nonneg (RendezvousInfo.endpoint_bytes a)).
    check_len. eat. rewrite (endpoint_at _ _ _ _ 16 R) by (done || lia). sbind. apply rest_at_app in R.
    eat. change (1 =? 1) with true. cbv iota. erewrite (endpoint_at buf _ a _ _ R) by (auto || offsets). sbind. apply rest_at_app in R.
    change (len [1]) with 1. check_len. eat. check_len. eat. by destruct ty.
  - autorewrite with len in HB.
    check_len. eat. rewrite (endpoint_at _ _ _ _ 16 R) by (done || lia). sbind. apply rest_at_app in R.
    eat. change (0 =? 1) with false. cbv iota. sbind. change (len [0]) with 1 in R. check_len. eat. check_len. eat. by destruct ty.
Qed.

Lemma parse_endpoint_inv data o :
  bytes_ok data -> 0 <= o ->
  match RendezvousInfo.parse_endpoint data o with
  | Ok (a, o') =>
      RendezvousInfo.plain a /\ o' <= len data /\
      (data !! Z.to_nat o = Some 4 /\ o' = o + 7 \/ data !! Z.to_nat o = Some 6 /\ o' = o + 19)
  | Err _ => True
  | Panic => False
  end.
Proof.
  intros Hb Ho. destruct (RendezvousInfo.parse_endpoint data o) as [[a o']|e|] eqn:E; [|done|];
    unfold RendezvousInfo.parse_endpoint in E; repeat (step_in E; b2p); try no_abort;
    injection E as <- <-; subst; match goal with H : index data o = Ok _ |- _ => apply index_inv in H as [_ ?] end;
    access_facts; (split; [unfold RendezvousInfo.plain, SocketAddr.wf, uint in *; simpl; split_and!; done || lia|]); (split; [lia|]); [left|right]; (split; [done|lia]).
Qed.

Lemma rendezvous_abort data :
  bytes_ok data ->
  (RendezvousInfo.from_bytes data = Panic <-> len data = 35 /\ data !! 16%nat = Some 6).
Proof.
  intros Hb. unfold RendezvousInfo.from_bytes.
  destruct (len data <? 24) eqn:E24; b2p; [split; [done|intros [? _]; lia]|].
  rewrite range_ok by lia. sbind. pose proof (parse_endpoint_inv data 16 Hb ltac:(lia)) as Hp.
  destruct (RendezvousInfo.parse_endpoint data 16) as [[a o]|e|] eqn:Ea; [| |done].
  2: { split; [done|]. intros [Hl H6]. unfold RendezvousInfo.parse_endpoint in Ea. exfalso.
       assert (index (E:=unit) data 16 = Ok 6) as Hi
         by (unfold index; change (Z.to_nat 16) with 16%nat; by rewrite H6).
       rewrite Hl, Hi in Ea. cbn in Ea. rewrite range_ok in Ea by lia. sbind.
       rewrite read_u16_range, range_ok in Ea by lia. discriminate Ea. }
  destruct Hp as (_ & Ho & Hv). sbind. change (Z.to_nat 16) with 16%nat in Hv.
  destruct (decide (o < len data)) as [Hlt|Hge].
  - split; [|intros [? H6]; destruct Hv as [[H4 _]|[_ ?]]; [congruence|lia]].
    intros E. exfalso. step_in E; [|no_abort].
    destruct (a0 =? 1).
    + pose proof (parse_endpoint_inv data (o + 1) Hb ltac:(destruct Hv as [[_ ->]|[_ ->]]; lia)) as Hp.
      destruct (RendezvousInfo.parse_endpoint data (o + 1)) as [[a' o']|e|]; [|done|done]. sbind. simpl in E.
      destruct Hp as (_ & _ & Hv'). repeat (step_in E; b2p); no_abort.
    + simpl in E. repeat (step_in E; b2p); no_abort.
  - rewrite index_out by lia. split; [|done]. intros _.
    destruct Hv as [[_ ->]|[H6 ->]]; [lia|]. split; [lia|done].
Qed.

(** * STUN *)

Lemma padded_eq n : 0 <= n -> StunClient.padded n = (n + 3) / 4 * 4.
Proof.
  intros Hn. unfold StunClient.padded. change 3 with (Z.ones 2) at 2.
  rewrite Z.ldiff_ones_r by lia. by rewrite Z.shiftl_mul_pow2, Z.shiftr_div_pow2 by lia.
Qed.

Lemma padded_bound n : 0 <= n -> n <= StunClient.padded n < n + 4.
Proof.
  intros Hn. rewrite padded_eq by done. pose proof (Z.div_mod (n + 3) 4 ltac:(lia)).
  pose proof (Z.mod_pos_bound (n + 3) 4 ltac:(lia)). lia.
Qed.

Lemma xor_bytes_at {E} a b x y i n :
  rest_at a (4 + i) x -> rest_at b i y -> (n <= length x)%nat -> (n <= length y)%nat ->
  StunClient.xor_bytes (E:=E) a b i n = Ok (take n (zip_with Z.lxor x y)).
Proof.
  revert x y i. induction n as [|n IH]; intros x y i Ra Rb Hx Hy; [done|].
  destruct x as [|u x]; [simpl in Hx; lia|]. destruct y as [|v y]; [simpl in Hy; lia|].
  simpl. rewrite (index_rest_at _ _ _ _ Ra). sbind. rewrite (index_rest_at _ _ _ _ Rb). sbind.
  apply rest_at_cons in Ra, Rb. replace (4 + i + 1) with (4 + (i + 1)) in Ra by lia.
  rewrite (IH x y (i + 1)) by (done || simpl in *; lia). done.
Qed.

Lemma parse_xor_total {E} data key :
  bytes_ok data -> StunClient.parse_xor_mapped_address (E:=E) data key <> Panic.
Proof.
  intros Hb E'. unfold StunClient.parse_xor_mapped_address in E'. step_in E'. b2p.
  repeat (step_in E'; b2p); try no_abort.
  assert (StunClient.xor_bytes (E:=E) data key 0 16 <> Panic) as Hx; [|done].
  rewrite (xor_bytes_at data key (drop 4 data) key 0 16).
  - done.
  - apply (rest_at_drop data 4). lia.
  - apply rest_at_start.
  - rewrite length_drop. unfold len in *. lia.
  - unfold len in *. lia.
Qed.

Lemma parse_mapped_total {E} data : bytes_ok data -> StunClient.parse_mapped_address (E:=E) data <> Panic.
Proof.
  intros Hb E'. unfold StunClient.parse_mapped_address in E'. repeat (step_in E'; b2p); try no_abort.
Qed.

Lemma parse_attributes_total fuel data e o server :
  bytes_ok data -> 20 <= o -> e <= len data -> e - o <= Z.of_nat fuel ->
  StunClient.parse_attributes fuel data e o server <> Panic.
Proof.
  intros Hb. revert o. induction fuel as [|fuel IH]; intros o Ho He Hf; simpl.
  { destruct (o + 4 <=? e) eqn:E; b2p; [lia|done]. }
  destruct (o + 4 <=? e) eqn:E; b2p; [|done].
  rewrite read_u16_range, range_ok by lia. sbind. rewrite read_u16_range.
  destruct (range data (o + 2) (o + 2 + 2)) as [lb|err|] eqn:Er; [|by apply range_not_err in Er|no_abort].
  sbind. access_facts. pose proof (from_be_uint 2 lb ltac:(done) ltac:(lia)) as Hlen. unfold uint in Hlen.
  set (n := from_be lb) in *. destruct (e <? o + 4 + n) eqn:En; b2p; [done|].
  pose proof (padded_bound n ltac:(lia)) as Hpad. rewrite !range_ok by lia. sbind.
  set (value := slice data (o + 4) _). assert (bytes_ok value) as Hv by by apply bytes_ok_slice.
  destruct (_ =? STUN_ATTR_XOR_MAPPED_ADDRESS); [|destruct (_ =? STUN_ATTR_MAPPED_ADDRESS)].
  - pose proof (parse_xor_total (E:=ClientError.t) value (slice data 4 20) Hv).
    destruct (StunClient.parse_xor_mapped_address _ _) as [[[ip p]|]|err|]; try done. simpl. apply IH; lia.
  - pose proof (parse_mapped_total (E:=ClientError.t) value Hv).
    destruct (StunClient.parse_mapped_address _) as [[[ip p]|]|err|]; try done. simpl. apply IH; lia.
  - simpl. apply IH; lia.
Qed.

(** A binding response, as the server writes it: the header, attributes the
    client skips, and the XOR-MAPPED-ADDRESS attribute. *)
Definition attribute (ty : Z) (value : list Z) : list Z :=
  be_bytes 2 ty ++ be_bytes 2 (len value)
  ++ value ++ replicate (Z.to_nat (StunClient.padded (len value) - len value)) 0.

Definition xor_value (id : list Z) (a : SocketAddr.t) : list Z :=
  let port p := be_bytes 2 (Z.lxor p (as_uint 16 (Z.shiftr STUN_MAGIC_COOKIE 16))) in
  match a with
  | SocketAddr.V4 ip p => [0] ++ [1] ++ port p ++ be_bytes 4 (Z.lxor (from_be ip) STUN_MAGIC_COOKIE)
  | SocketAddr.V6 ip p _ _ => [0] ++ [2] ++ port p ++ zip_with Z.lxor ip (be_bytes 4 STUN_MAGIC_COOKIE ++ id)
  end.

Definition skipped (a : Z * list Z) : Prop :=
  u16 (fst a) /\ fst a <> STUN_ATTR_MAPPED_ADDRESS /\ fst a <> STUN_ATTR_XOR_MAPPED_ADDRESS.

Definition attributes (others : list (Z * list Z)) (id : list Z) (a : SocketAddr.t) : list Z :=
  concat (map (fun o => attribute (fst o) (snd o)) others)
  ++ attribute STUN_ATTR_XOR_MAPPED_ADDRESS (xor_value id a).

Definition binding_response (others : list (Z * list Z)) (id : list Z) (a : SocketAddr.t) : list Z :=
  be_bytes 2 STUN_BINDING_RESPONSE ++ be_bytes 2 (len (attributes others id a))
  ++ be_bytes 4 STUN_MAGIC_COOKIE ++ id ++ attributes others id a.

Lemma len_attribute ty v : len (attribute ty v) = 4 + StunClient.padded (len v).
Proof.
  pose proof (padded_bound (len v) (len_nonneg v)). unfold attribute. autorewrite with len. lia.
Qed.

Lemma lxor_cancel x k : Z.lxor (Z.lxor x k) k = x.
Proof. by rewrite Z.lxor_assoc, Z.lxor_nilpotent, Z.lxor_0_r. Qed.

Lemma lxor_uint w x y : 0 <= w -> uint w x -> uint w y -> uint w (Z.lxor x y).
Proof.
  intros Hw [Hx Hx'] [Hy Hy']. split; [by apply Z.lxor_nonneg|].
  destruct (decide (Z.lxor x y = 0)) as [->|Hn]; [by apply Z.pow_pos_nonneg|].
  assert (0 < Z.lxor x y) by (pose proof (proj2 (Z.lxor_nonneg x y)); lia).
  apply Z.log2_lt_pow2; [done|]. eapply Z.le_lt_trans; [by apply Z.log2_lxor|].
  apply Z.max_lub_lt.
  - destruct (decide (x = 0)) as [->|]; [simpl|apply Z.log2_lt_pow2; lia].
    destruct (decide (w = 0)) as [->|]; [|lia]. simpl in *. assert (y = 0) by lia. subst. by destruct Hn.
  - destruct (decide (y = 0)) as [->|]; [simpl|apply Z.log2_lt_pow2; lia].
    destruct (decide (w = 0)) as [->|]; [|lia]. simpl in *. assert (x = 0) by lia. subst. by destruct Hn.
Qed.

Lemma zip_lxor_cancel x k : length x = length k -> zip_with Z.lxor (zip_with Z.lxor x k) k = x.
Proof.
  revert k. induction x as [|u x IH]; intros [|v k]; simpl; try done. intros [= Hl]. by rewrite lxor_cancel, IH.
Qed.

Lemma cookie_port : u16 (as_uint 16 (Z.shiftr STUN_MAGIC_COOKIE 16)).
Proof. by_decide. Qed.

(** The attribute is read back. *)
Lemma parse_xor_value {E} id a :
  len id = 12 -> RendezvousInfo.plain a ->
  StunClient.parse_xor_mapped_address (E:=E) (xor_value id a) (be_bytes 4 STUN_MAGIC_COOKIE ++ id) =
    Ok (Some (SocketAddr.ip a, SocketAddr.port a)).
Proof.
  intros Hid [[Hip Hp] _]. pose proof cookie_port as Hc.
  unfold StunClient.parse_xor_mapped_address, xor_value.
  destruct a as [ip p|ip p f s]; cbn [SocketAddr.ip SocketAddr.port] in *; destruct Hip as [Hb Hl];
    set (pt := as_uint 16 _) in *; pose proof (lxor_uint 16 p pt ltac:(lia) Hp Hc) as Hpx;
    match goal with |- context [len ?b <? 8] => set (buf := b) end; start_at buf; unfold buf in R at 2;
    pose proof (rest_at_len _ _ _ R) as HB.
  - autorewrite with len in HB |- *. rewrite Hid. check_len. check_len. apply rest_at_app in R. eat. eat.
    assert (u32 (from_be ip)) as Hi by (apply (from_be_uint 4 ip); done).
    pose proof (lxor_uint 32 _ STUN_MAGIC_COOKIE ltac:(lia) Hi ltac:(by_decide)) as Hix.
    rewrite <- (app_nil_r (be_bytes 4 _)) in R. change (1 =? 1) with true. cbv iota. eat.
    rewrite !lxor_cancel. repeat f_equal. by apply be_bytes_from_be; [|unfold len in Hl; lia].
  - assert (length ip = 16%nat /\ length (be_bytes 4 STUN_MAGIC_COOKIE ++ id) = 16%nat) as [L1 L2].
    { rewrite length_app, length_be_bytes. unfold len in *. lia. }
    assert (length (zip_with Z.lxor ip (be_bytes 4 STUN_MAGIC_COOKIE ++ id)) = 16%nat) as L3
      by (rewrite length_zip_with; lia).
    autorewrite with len in HB |- *. rewrite Hid. unfold len in HB at 2. rewrite L3 in HB.
    check_len. check_len. apply rest_at_app in R. eat. eat.
    change (2 =? 1) with false. change (2 =? 2) with true. cbv iota. check_len.
    rewrite (xor_bytes_at buf _ (zip_with Z.lxor ip (be_bytes 4 STUN_MAGIC_COOKIE ++ id)) (be_bytes 4 STUN_MAGIC_COOKIE ++ id));
      [|by autorewrite with len in R|apply rest_at_start|lia|lia].
    sbind. rewrite lxor_cancel, zip_lxor_cancel, take_ge by lia. done.
Qed.

Lemma parse_attributes_finds fuel data others id a o server :
  rest_at data o (attributes others id a) -> 20 <= o -> len data - o <= Z.of_nat fuel ->
  slice data 4 20 = be_bytes 4 STUN_MAGIC_COOKIE ++ id -> len id = 12 ->
  Forall skipped others -> Forall (fun x => u16 (len (snd x))) others -> RendezvousInfo.plain a ->
  StunClient.parse_attributes fuel data (len data) o server =
    Ok (StunResult.mk (SocketAddr.ip a) (SocketAddr.port a) server).
Proof.
  intros R Ho Hf Hk Hid Hs Hu Ha. revert fuel o R Ho Hf.
  assert (forall v : list Z, 0 <= len v) as Hnn by (intros; apply len_nonneg).
  induction others as [|[ty v] others IH]; intros fuel o R Ho Hf; pose proof (rest_at_len _ _ _ R) as HL.
  - change (attributes [] id a) with (attribute STUN_ATTR_XOR_MAPPED_ADDRESS (xor_value id a)) in R, HL.
    rewrite len_attribute in HL.
    set (v := xor_value id a) in *. pose proof (padded_bound (len v) (Hnn v)).
    assert (len v <= 20) as Hv.
    { unfold v, xor_value. destruct a as [ip p|ip p f s]; autorewrite with len; [lia|].
      destruct Ha as [[[_ Hl] _] _]. simpl in Hl. unfold len in *. rewrite length_zip_with. lia. }
    destruct fuel as [|fuel]; [pose proof (Hnn v); lia|]. cbn [StunClient.parse_attributes]. rewrite (proj2 (Z.leb_le _ _)) by (pose proof (Hnn v); lia).
    unfold attribute in R. rewrite <- ?app_assoc in R. pose proof (Hnn v).
    assert (u16 STUN_ATTR_XOR_MAPPED_ADDRESS /\ u16 (len v)) as [? ?] by (split; [by_decide|unfold uint; lia]).
    do 2 eat. check_len. change (STUN_ATTR_XOR_MAPPED_ADDRESS =? STUN_ATTR_XOR_MAPPED_ADDRESS) with true. cbv iota.
    rewrite (range_at data _ (o + 4) (o + 4 + len v) v _ R) by offsets. sbind.
    rewrite range_ok by lia. sbind. rewrite Hk. unfold v. by rewrite parse_xor_value.
  - apply Forall_cons in Hs as [(Ht & Hm & Hx) Hs]. apply Forall_cons in Hu as [Hul Hu]. simpl in Ht, Hm, Hx, Hul.
    pose proof (padded_bound (len v) (Hnn v)).
    unfold attributes in R, HL. cbn [map concat fst snd] in R, HL. rewrite <- app_assoc in R.
    rewrite <- app_assoc in HL. fold (attributes others id a) in R, HL. rewrite len_app, len_attribute in HL.
    assert (4 <= len (attributes others id a)).
    { unfold attributes. rewrite len_app, len_attribute.
      pose proof (padded_bound _ (Hnn (xor_value id a))). pose proof (Hnn (xor_value id a)).
      pose proof (len_nonneg (concat (map (fun o => attribute (fst o) (snd o)) others))). lia. }
    destruct fuel as [|fuel]; [pose proof (Hnn v); lia|]. cbn [StunClient.parse_attributes]. rewrite (proj2 (Z.leb_le _ _)) by (pose proof (Hnn v); lia).
    pose proof (rest_at_app _ _ _ _ R) as R'. rewrite len_attribute in R'.
    unfold attribute in R at 1. rewrite <- ?app_assoc in R. pose proof (Hnn v). do 2 eat. check_len.
    rewrite (proj2 (Z.eqb_neq ty STUN_ATTR_XOR_MAPPED_ADDRESS)), (proj2 (Z.eqb_neq ty STUN_ATTR_MAPPED_ADDRESS)) by done.
    sbind. apply IH; [done|done| |lia|lia]. by replace (o + 4 + StunClient.padded (len v)) with (o + (4 + StunClient.padded (len v))) by lia.
Qed.

Lemma parse_binding_total data id server :
  bytes_ok data -> StunClient.parse_binding_response data id server <> Panic.
Proof.
  intros Hb E. unfold StunClient.parse_binding_response, STUN_HEADER_SIZE in E.
  repeat (step_in E; b2p); try no_abort. access_facts. unfold uint in *.
  apply (parse_attributes_total (length data) data (20 + a0) 20 server) in E; [done|done|lia|done|].
  unfold len in *. lia.
Qed.

Lemma parse_attributes_server fuel data e o server r :
  StunClient.parse_attributes fuel data e o server = Ok r -> StunResult.server r = server.
Proof.
  revert o. induction fuel as [|fuel IH]; intros o E; simpl in E; [by destruct (_ <=? _)|].
  destruct (o + 4 <=? e); [|done]. do 3 step_in E. destruct (if _ =? STUN_ATTR_XOR_MAPPED_ADDRESS then _ else _) as [[[ip p]|]|err|];
    [|by eapply IH|done|done].
  by injection E as <-.
Qed.

(** What an accepted response matched. *)
Lemma parse_binding_matches data id server r :
  bytes_ok data -> StunClient.parse_binding_response data id server = Ok r ->
  STUN_HEADER_SIZE <= len data /\ slice data 0 2 = be_bytes 2 STUN_BINDING_RESPONSE /\
  slice data 4 20 = be_bytes 4 STUN_MAGIC_COOKIE ++ id /\ StunResult.server r = server.
Proof.
  intros Hb E. unfold StunClient.parse_binding_response, STUN_HEADER_SIZE in *. step_in E. b2p.
  rewrite !read_u16_range, read_u32_range, !range_ok in E by lia. cbn [rbind] in E.
  change (0 + 2) with 2 in E. change (4 + 4) with 8 in E.
  assert (forall a b n, 0 <= a -> b <= 20 -> b - a = Z.of_nat n ->
    be_bytes n (from_be (slice data a b)) = slice data a b) as Hbe.
  { intros a b n Ha Hle Hn. apply be_bytes_from_be; [by apply bytes_ok_slice|].
    pose proof (len_slice data a b ltac:(lia) ltac:(lia) ltac:(lia)). unfold len in *. lia. }
  do 4 (step_in E; b2p). pose proof (Hbe 0 2 2%nat ltac:(lia) ltac:(lia) eq_refl) as Ht.
  pose proof (Hbe 4 8 4%nat ltac:(lia) ltac:(lia) eq_refl) as Hm.
  split_and!; [done|congruence| |by eapply parse_attributes_server].
  rewrite <- (slice_app data 4 8 20) by lia. congruence.
Qed.

(** The attributes of a response fit their length fields. *)
Lemma attribute_lengths others id a :
  u16 (len (attributes others id a)) -> Forall (fun x => u16 (len (snd x))) others.
Proof.
  intros Hu. unfold attributes in Hu. induction others as [|[ty v] others IH]; [done|].
  cbn [map concat fst snd] in Hu. rewrite <- app_assoc, len_app, len_attribute in Hu.
  pose proof (padded_bound (len v) (len_nonneg v)). pose proof (len_nonneg v). constructor.
  - simpl. unfold uint in *. pose proof (len_nonneg (concat (map (fun o => attribute (fst o) (snd o)) others)
      ++ attribute STUN_ATTR_XOR_MAPPED_ADDRESS (xor_value id a))). lia.
  - apply IH. unfold uint in *. pose proof (len_nonneg (concat (map (fun o => attribute (fst o) (snd o)) others)
      ++ attribute STUN_ATTR_XOR_MAPPED_ADDRESS (xor_value id a))). lia.
Qed.

Lemma slice_header (h k id r : list Z) :
  len h + len k = 4 -> len id = 16 -> slice (h ++ k ++ id ++ r) 4 20 = id.
Proof.
  intros Hh Hi. unfold slice. rewrite app_assoc, drop_app_length' by (unfold len in *; rewrite length_app; lia).
  by rewrite take_app_length' by (unfold len in *; lia).
Qed.

(** Discovery of the public address: no datagram aborts the parser of
    STUN responses; what it accepts is a binding response with the magic cookie
    and the transaction identifier of this request; and a response with any
    attributes the client skips followed by the XOR-mapped address of the
    client gives that address. *)
Lemma stun_responses data id server :
  bytes_ok data -> len id = 12 ->
  StunClient.parse_binding_response data id server <> Panic /\
  (forall r, StunClient.parse_binding_response data id server = Ok r ->
     slice data 0 2 = be_bytes 2 STUN_BINDING_RESPONSE /\
     slice data 4 20 = be_bytes 4 STUN_MAGIC_COOKIE ++ id) /\
  forall others a, RendezvousInfo.plain a -> Forall skipped others -> u16 (len (attributes others id a)) ->
    StunClient.parse_binding_response (binding_response others id a) id server =
      Ok (StunResult.mk (SocketAddr.ip a) (SocketAddr.port a) server).
Proof.
  intros Hb Hid. split; [by apply parse_binding_total|]. split.
  { intros r Hr. by apply parse_binding_matches in Hr as (_ & ? & ? & _). }
  intros others a Ha Hs Hu. unfold StunClient.parse_binding_response.
  set (attrs := attributes others id a) in *. set (buf := binding_response others id a).
  pose proof (rest_at_start buf) as R. unfold buf in R at 2. unfold binding_response in R. fold attrs in R.
  pose proof (rest_at_len _ _ _ R) as HL. autorewrite with len in HL. rewrite Hid in HL.
  pose proof (len_nonneg attrs). unfold STUN_HEADER_SIZE. check_len.
  assert (u16 STUN_BINDING_RESPONSE /\ u32 STUN_MAGIC_COOKIE) as [? ?] by (split; by_decide).
  do 3 eat. rewrite Z.eqb_refl. cbn [negb]. cbv iota. eat. rewrite bool_decide_true by done.
  rewrite Z.eqb_refl. cbn [negb]. cbv iota. check_len.
  replace (20 + len attrs) with (len buf) by lia.
  apply parse_attributes_finds with (others := others) (id := id); try done; try lia.
  - autorewrite with len in R. rewrite Hid in R. exact R.
  - unfold len. lia.
  - unfold buf, binding_response. rewrite (app_assoc (be_bytes 4 _)).
    rewrite slice_header; [done|by rewrite !len_be_bytes|autorewrite with len; lia].
  - by apply (attribute_lengths others id a).
Qed.

(** C28: the messages of the peers: a rendezvous or hole-punch message is read
    back as it was written, whatever follows it; no datagram aborts the parser
    of hole-punch messages; and the parser of rendezvous messages aborts
    exactly on those of 35 bytes that announce an IPv6 address. *)
Theorem peer_messages data :
  bytes_ok data ->
  (forall m r, HolePunchMessage.wf m -> HolePunchMessage.from_bytes (HolePunchMessage.to_bytes m ++ r) = Ok m) /\
  (forall x r, RendezvousInfo.wf x -> RendezvousInfo.from_bytes (RendezvousInfo.to_bytes x ++ r) = Ok x) /\
  HolePunchMessage.from_bytes data <> Panic /\
  (RendezvousInfo.from_bytes data = Panic <-> len data = 35 /\ data !! 16%nat = Some 6).
Proof.
  intros Hb. split_and!; [apply punch_codec|apply rendezvous_roundtrip|by apply punch_from_bytes_total
    |by apply rendezvous_abort].
Qed.

(** * Hole punching *)

Section Punching.
Variables (h : HolePuncher.t) (peer : PeerInfo.t).

(** A message of the peer among the datagrams of a round. *)
Definition from_peer (r : HolePuncher.round) (ty : HolePunchMessageType.t) (from : SocketAddr.t)
    (m : HolePunchMessage.t) : Prop :=
  exists data now, (data, from, now) ∈ HolePuncher.received r /\
    HolePunchMessage.from_bytes (take 64 data) = Ok m /\
    HolePunchMessage.peer_id m = PeerInfo.peer_id peer /\ HolePunchMessage.msg_type m = ty.

(** A punch to a candidate, or the acknowledgement of a punch of the peer. *)
Definition justified (endpoints : list SocketAddr.t) (r : HolePuncher.round) (d : list Z * SocketAddr.t) : Prop :=
  (snd d ∈ endpoints /\ exists now attempt,
     fst d = HolePunchMessage.to_bytes (HolePunchMessage.punch now (HolePuncher.our_peer_id h) attempt)) \/
  (exists m, from_peer r HolePunchMessageType.Punch (snd d) m /\
     fst d = HolePunchMessage.to_bytes
       (HolePunchMessage.ack (HolePuncher.our_peer_id h) (HolePunchMessage.sequence m) (HolePunchMessage.timestamp m))).

Definition round_ok (r : HolePuncher.round) : Prop :=
  Forall (fun x => bytes_ok (fst (fst x))) (HolePuncher.received r).

Lemma send_punches_justified attempt r i all endpoints :
  (forall e, e ∈ endpoints -> e ∈ all) ->
  Forall (justified all r) (HolePuncher.send_punches (HolePuncher.our_peer_id h) attempt r i endpoints).
Proof.
  revert i. induction endpoints as [|e endpoints IH]; intros i Hin; simpl; [constructor|].
  apply Forall_app. split; [|apply IH; intros; apply Hin; by right].
  destruct (HolePuncher.taken r i); [|constructor]. constructor; [|constructor]. left. split; [apply Hin; left|].
  by do 2 eexists.
Qed.

Lemma collect_spec r all inbound :
  Forall (fun x => bytes_ok (fst (fst x))) inbound -> (forall x, x ∈ inbound -> x ∈ HolePuncher.received r) ->
  exists sent found, HolePuncher.collect (HolePuncher.our_peer_id h) peer inbound = Ok (sent, found) /\
    Forall (justified all r) sent /\
    forall from rtt, found = Some (from, rtt) -> exists m, from_peer r HolePunchMessageType.PunchAck from m.
Proof.
  intros Hb. induction Hb as [|[[data from] now] inbound Hd Hb IH]; intros Hin; simpl; [by exists [], None|].
  destruct IH as (sent & found & Hc & Hs & Hf); [intros; apply Hin; by right|].
  pose proof (punch_from_bytes_total (take 64 data) (Forall_take _ 64 _ Hd)) as Ht.
  assert (forall m ty, HolePunchMessage.from_bytes (take 64 data) = Ok m ->
    HolePunchMessage.peer_id m = PeerInfo.peer_id peer -> HolePunchMessage.msg_type m = ty -> from_peer r ty from m) as Hpeer.
  { intros m ty E1 E2 E3. exists data, now. split; [apply Hin; left|by split_and!]. }
  destruct (HolePunchMessage.from_bytes (take 64 data)) as [m|e|]; [|by exists sent, found|done].
  case_bool_decide as Hid; simpl; [|by exists sent, found].
  destruct (HolePunchMessage.msg_type m) eqn:Ety; [| |by exists sent, found].
  2: { do 2 eexists. split; [done|]. split; [constructor|]. intros from' rtt [= <- _]. exists m. by apply Hpeer. }
  rewrite Hc. sbind. do 2 eexists. split; [done|]. split; [|done]. constructor; [|done].
  right. exists m. split; [by apply Hpeer|done].
Qed.

Lemma punch_attempts_spec endpoints attempt n rounds :
  0 <= attempt -> (forall i, round_ok (rounds i)) ->
  exists sent r, HolePuncher.punch_attempts h peer endpoints attempt n rounds = Ok (sent, r) /\
    attempt <= HolePunchResult.attempts_made r <= attempt + Z.of_nat n /\
    Forall (fun d => exists i, justified endpoints (rounds i) d) sent /\
    (HolePunchResult.success r = true -> exists i from m,
       HolePunchResult.remote_endpoint r = Some from /\ from_peer (rounds i) HolePunchMessageType.PunchAck from m).
Proof.
  intros Ha Hr. revert attempt Ha. induction n as [|n IH]; intros attempt Ha.
  { do 2 eexists. split; [done|]. split; [simpl; lia|]. split; [constructor|done]. }
  set (r := rounds (Z.to_nat attempt)).
  destruct (collect_spec r endpoints (HolePuncher.received r)) as (acks & found & Hc & Hs & Hf); [apply Hr|done|].
  pose proof (send_punches_justified attempt r 0 endpoints endpoints (fun _ H => H)) as Hp.
  assert (Forall (fun d => exists i, justified endpoints (rounds i) d)
    (HolePuncher.send_punches (HolePuncher.our_peer_id h) attempt r 0 endpoints ++ acks)) as Hsent.
  { apply Forall_app. split; eapply Forall_impl; try done; intros d Hd; by exists (Z.to_nat attempt). }
  cbn [HolePuncher.punch_attempts]. fold r. rewrite Hc. sbind. destruct found as [[from rtt]|].
  - destruct (Hf from rtt eq_refl) as [m Hm]. do 2 eexists. split; [done|]. simpl. split; [lia|]. split; [done|].
    intros _. by exists (Z.to_nat attempt), from, m.
  - destruct (HolePuncher.expired r).
    { do 2 eexists. split; [done|]. simpl. split; [lia|]. by split. }
    destruct (IH (attempt + 1) ltac:(lia)) as (sent & res & -> & Hb & Hj & Hok). sbind.
    do 2 eexists. split; [done|]. split; [lia|]. split; [|done]. rewrite app_assoc. by apply Forall_app.
Qed.

(** Hole punching always ends, after at most the configured number of
    attempts; it succeeds only when a datagram with an acknowledgement of the
    peer came from the address it reports; and it sends nothing but punches to
    the candidate addresses and acknowledgements of punches of the peer. *)
Lemma punch_outcome rounds :
  0 <= HolePunchConfig.attempts (HolePuncher.config h) -> (forall i, round_ok (rounds i)) ->
  exists sent r, HolePuncher.punch h peer rounds = Ok (sent, r) /\
    0 <= HolePunchResult.attempts_made r <= HolePunchConfig.attempts (HolePuncher.config h) /\
    Forall (fun d => exists i, justified (HolePuncher.generate_punch_endpoints h peer) (rounds i) d) sent /\
    (HolePunchResult.success r = true -> exists i from m,
       HolePunchResult.remote_endpoint r = Some from /\ from_peer (rounds i) HolePunchMessageType.PunchAck from m).
Proof.
  intros Ha Hr. unfold HolePuncher.punch.
  destruct (punch_attempts_spec (HolePuncher.generate_punch_endpoints h peer) 0
    (Z.to_nat (HolePunchConfig.attempts (HolePuncher.config h))) rounds ltac:(lia) Hr) as (sent & r & -> & Hb & Hj & Hs).
  exists sent, r. split_and!; try done; lia.
Qed.

End Punching.

(** * Examples *)

Lemma stun_responses_witness :
  let id := [1; 2; 3; 4; 5; 6; 7; 8; 9; 10; 11; 12] in
  let a := SocketAddr.V4 [203; 0; 113; 9] 51820 in
  StunClient.parse_binding_response (binding_response [(32802, [104; 112; 110])] id a) id "stun" =
    Ok (StunResult.mk (IpAddr.V4 [203; 0; 113; 9]) 51820 "stun").
Proof.
  intros id a. destruct (stun_responses [] id "stun") as (_ & _ & Hp); [constructor|reflexivity|].
  apply (Hp [(32802, [104; 112; 110])] a); [split; [by_decide|exact I]| |by_decide].
  constructor; [|constructor]. split_and!; [by_decide|discriminate|discriminate].
Defined.

(** The 35 bytes that abort the parser. *)
Lemma peer_messages_witness :
  RendezvousInfo.from_bytes (replicate 16 0 ++ [6] ++ replicate 18 0) = Panic.
Proof.
  apply (peer_messages (replicate 16 0 ++ [6] ++ replicate 18 0)); [by_decide|]. split; reflexivity.
Defined.

