(* ===== verification/Client.v ===== *)
(** The VPN client: hpn-client-core/src/client.rs, with the receive filter of
    connection.rs and the tunnel parameters of tunnel.rs.

    Each operation runs to completion on the client state; the locks of the
    code are held inside it.  The outcomes of the network, the clocks and the
    random values of a call are arguments: [clk] gives the successive readings
    of the monotonic clock, in nanoseconds.  The datagrams handed to the
    transport are the field [sent]; the events sent to the application are the
    field [events]; both grow only. *)

From S2P Require Import Prelude Types Codec Wire Net Header Digest Aead Keys Signature Kem Kdf Session Fragment Reassembly.
From S2P Require Import Tunnel Control Init Response Handshake ClientStats ClientConfig NatTraversal.

(** [const MAX_PACKET_SIZE] of client.rs and buffer_pool.rs. *)
Definition CLIENT_MAX_PACKET_SIZE : Z := 65535.

Module ClientState.

Inductive t := Disconnected | Connecting | Connected | Reconnecting | Disconnecting.

#[global] Instance t_eq_dec : EqDecision t.
Proof. solve_decision. Defined.

End ClientState.

Module TunnelInfo.

Record t := mk {
  client_ip : list Z;
  netmask : list Z;
  gateway : list Z;
  dns_servers : list (list Z);
  client_ipv6 : option (list Z);
  prefix_len_ipv6 : option Z;
  gateway_ipv6 : option (list Z);
  dns_servers_v6 : list (list Z);
  mtu : Z;
}.

Definition from (config : TunnelConfig.t) : t :=
  mk (TunnelConfig.client_ipv4 config) (TunnelConfig.netmask_ipv4 config) (TunnelConfig.gateway_ipv4 config)
    (TunnelConfig.dns_ipv4 config) (TunnelConfig.client_ipv6 config) (TunnelConfig.prefix_len_ipv6 config)
    (TunnelConfig.gateway_ipv6 config) (TunnelConfig.dns_ipv6 config) (TunnelConfig.mtu config).

Definition has_ipv6 (i : t) : bool := match client_ipv6 i with Some _ => true | None => false end.

End TunnelInfo.

Module ClientEvent.

(** The texts of [Error] and [ReconnectionFailed] are dropped. *)
Inductive t :=
  | StateChanged (s : ClientState.t)
  | Connected (i : TunnelInfo.t)
  | Disconnected (reason : option (list Z))
  | Keepalive (sequence rtt_ms : Z)
  | Error
  | RekeyComplete (new_key_id : Z)
  | ControlReceived (ty : ControlType.t) (message : option (list Z))
  | KeepaliveTimeout (missed_count : Z)
  | Reconnecting (attempt max_attempts : Z)
  | ReconnectionFailed
  | NatDiscovered (i : NatInfo.t)
  | RebindRequested (new_endpoint : SocketAddr.t)
  | RebindAcknowledged.

End ClientEvent.

(** Keepalive and rekey tracking. *)
Module KeepaliveState.

Record t := mk {
  last_sent : option Z;
  last_received : option Z;
  seq : Z;
  pending_seq : option Z;
  missed : Z;
}.

Definition initial : t := mk None None 0 None 0.

End KeepaliveState.

Module RekeyState.

Record t := mk { handler : option ClientRekey.t; in_progress : bool; started_at : option Z }.

Definition cleared : t := mk None false None.

End RekeyState.

(** What the transport delivers during the handshake: a datagram, with the
    instant the reassembler reads and its source, or an error of the socket. *)
Module Arrival.

Inductive t := Datagram (now : Z) (data : list Z) (from : SocketAddr.t) | Fault.

End Arrival.

(** The random values of one handshake. *)
Record draws := mk_draws {
  init_x25519 : list Z;
  init_mlkem : list Z;
  init_random : list Z;
  creds_x25519 : list Z;
  creds_mlkem : list Z;
  hide_x25519 : list Z;
  hide_mlkem : list Z;
  init_frag_id : Z;
}.

(** * The wait for the response *)

Definition MAX_IGNORED_PACKETS_HANDSHAKE : Z := 100.
Definition MAX_IGNORED_PACKETS_STEADY : Z := 1000.
Definition MAX_IGNORED_DURING_HANDSHAKE : Z := 100.

(** One datagram in the loop of [recv_from_server_scoped]: it is delivered, or
    ignored with the count so far, or it is one too many. *)
Inductive scoped := Delivered | Ignored (count : Z) | TooMany.

Definition recv_from_server_scoped (handshake_phase : bool) (server : SocketAddr.t) (ignored_count : Z)
    (from : SocketAddr.t) : scoped :=
  let cap := if handshake_phase then MAX_IGNORED_PACKETS_HANDSHAKE else MAX_IGNORED_PACKETS_STEADY in
  if bool_decide (SocketAddr.ip from = SocketAddr.ip server) then Delivered
  else if cap <=? ignored_count + 1 then TooMany else Ignored (ignored_count + 1).

(** A header of a message outside a session, and the body. *)
Definition framed (ty : MessageType.t) (body : list Z) : result ProtocolError.t (list Z) :=
  let header := PacketHeader.new ty 0 KeyId.initial Counter.initial in
  let? (hdr_buf, _) := PacketHeader.encode header (replicate (Z.to_nat HEADER_SIZE) 0) in
  Ok (hdr_buf ++ body).

(** The dummy key of the reassembler. *)
Definition peer_key : SocketAddr.t := SocketAddr.V4 [0; 0; 0; 0] 0.

Section Wait.
Context {IR : HashIter (SocketAddr.t * Z) Entry.t}.

Record waiting := mk_waiting { ignored : Z; reassembler : Reassembly.t (A:=SocketAddr.t) }.

Definition ignore (w : waiting) : result ClientError.t (waiting + list Z) :=
  if MAX_IGNORED_DURING_HANDSHAKE <=? ignored w + 1 then Err ClientError.Handshake
  else Ok (inl (mk_waiting (ignored w + 1) (reassembler w))).

(** One datagram of the server: wait on, or the response packet. *)
Definition on_packet (w : waiting) (now : Z) (data : list Z) : result ClientError.t (waiting + list Z) :=
  if len data <? HEADER_SIZE then ignore w
  else
    let? header := map_err ClientError.Protocol (PacketHeader.decode data) in
    match PacketHeader.msg_type header with
    | MessageType.HandshakeResponse => Ok (inr data)
    | MessageType.HandshakeFragment =>
        let? body := range data HEADER_SIZE (len data) in
        match HandshakeFragment.from_bytes body with
        | Panic => Panic
        | Err _ => ignore w
        | Ok fragment =>
            if negb (bool_decide (HandshakeFragment.inner_msg_type fragment = MessageType.HandshakeResponse)) then
              Ok (inl w)
            else
              let '(r, completed) := Reassembly.insert (reassembler w) now peer_key fragment in
              match completed with
              | Ok (Some (_, payload)) =>
                  let? synth := map_err (fun _ => ClientError.Handshake)
                    (framed MessageType.HandshakeResponse payload) in
                  Ok (inr synth)
              | Ok None => ignore (mk_waiting (ignored w) r)
              | Err e => match e with end
              | Panic => Panic
              end
        end
    | _ => ignore w
    end.

(** The loop over what arrives before the timeout; [None] is the timeout. *)
Fixpoint wait_response (server : SocketAddr.t) (w : waiting) (ignored_sources : Z) (net : list Arrival.t)
    : result ClientError.t (option (list Z)) :=
  match net with
  | [] => Ok None
  | Arrival.Fault :: _ => Err ClientError.ConnectionIo
  | Arrival.Datagram now data from :: net =>
      match recv_from_server_scoped true server ignored_sources from with
      | TooMany => Err ClientError.ConnectionIo
      | Ignored n => wait_response server w n net
      | Delivered =>
          let? next := on_packet w now data in
          match next with
          | inl w => wait_response server w 0 net
          | inr response => Ok (Some response)
          end
      end
  end.

End Wait.

Module VpnClient.

Section Client.
Context {R : RingAead} {D : RingDigest} {M : MlDsa} {K : KemPrimitives} {H : Hkdf} {B : Base64}.
Context {IR : HashIter (SocketAddr.t * Z) Entry.t}.

Record t := mk {
  config : ClientConfig.t;
  server_public_key : list Z;
  state : ClientState.t;
  session : option Session.t;
  tunnel_info : option TunnelInfo.t;
  events : list ClientEvent.t;
  is_shutdown : bool;
  keepalive : KeepaliveState.t;
  rekey : RekeyState.t;
  stats : StatsTracker.t;
  reconnect_attempts : Z;
  nat_info : option NatInfo.t;
  rebind_pending : bool;
  connect_in_progress : bool;
  sent : list (list Z);
}.

Definition with_state (c : t) (x : ClientState.t) : t :=
  mk (config c) (server_public_key c) x (session c) (tunnel_info c) (events c) (is_shutdown c) (keepalive c)
    (rekey c) (stats c) (reconnect_attempts c) (nat_info c) (rebind_pending c) (connect_in_progress c) (sent c).
Definition with_session (c : t) (x : option Session.t) : t :=
  mk (config c) (server_public_key c) (state c) x (tunnel_info c) (events c) (is_shutdown c) (keepalive c)
    (rekey c) (stats c) (reconnect_attempts c) (nat_info c) (rebind_pending c) (connect_in_progress c) (sent c).
Definition with_tunnel (c : t) (x : option TunnelInfo.t) : t :=
  mk (config c) (server_public_key c) (state c) (session c) x (events c) (is_shutdown c) (keepalive c)
    (rekey c) (stats c) (reconnect_attempts c) (nat_info c) (rebind_pending c) (connect_in_progress c) (sent c).
Definition with_events (c : t) (x : list ClientEvent.t) : t :=
  mk (config c) (server_public_key c) (state c) (session c) (tunnel_info c) x (is_shutdown c) (keepalive c)
    (rekey c) (stats c) (reconnect_attempts c) (nat_info c) (rebind_pending c) (connect_in_progress c) (sent c).
Definition with_shutdown (c : t) (x : bool) : t :=
  mk (config c) (server_public_key c) (state c) (session c) (tunnel_info c) (events c) x (keepalive c)
    (rekey c) (stats c) (reconnect_attempts c) (nat_info c) (rebind_pending c) (connect_in_progress c) (sent c).
Definition with_keepalive (c : t) (x : KeepaliveState.t) : t :=
  mk (config c) (server_public_key c) (state c) (session c) (tunnel_info c) (events c) (is_shutdown c) x
    (rekey c) (stats c) (reconnect_attempts c) (nat_info c) (rebind_pending c) (connect_in_progress c) (sent c).
Definition with_rekey (c : t) (x : RekeyState.t) : t :=
  mk (config c) (server_public_key c) (state c) (session c) (tunnel_info c) (events c) (is_shutdown c)
    (keepalive c) x (stats c) (reconnect_attempts c) (nat_info c) (rebind_pending c) (connect_in_progress c)
    (sent c).
Definition with_stats (c : t) (x : StatsTracker.t) : t :=
  mk (config c) (server_public_key c) (state c) (session c) (tunnel_info c) (events c) (is_shutdown c)
    (keepalive c) (rekey c) x (reconnect_attempts c) (nat_info c) (rebind_pending c) (connect_in_progress c)
    (sent c).
Definition with_attempts (c : t) (x : Z) : t :=
  mk (config c) (server_public_key c) (state c) (session c) (tunnel_info c) (events c) (is_shutdown c)
    (keepalive c) (rekey c) (stats c) x (nat_info c) (rebind_pending c) (connect_in_progress c) (sent c).
Definition with_nat (c : t) (x : option NatInfo.t) : t :=
  mk (config c) (server_public_key c) (state c) (session c) (tunnel_info c) (events c) (is_shutdown c)
    (keepalive c) (rekey c) (stats c) (reconnect_attempts c) x (rebind_pending c) (connect_in_progress c) (sent c).
Definition with_rebind (c : t) (x : bool) : t :=
  mk (config c) (server_public_key c) (state c) (session c) (tunnel_info c) (events c) (is_shutdown c)
    (keepalive c) (rekey c) (stats c) (reconnect_attempts c) (nat_info c) x (connect_in_progress c) (sent c).
Definition with_connecting (c : t) (x : bool) : t :=
  mk (config c) (server_public_key c) (state c) (session c) (tunnel_info c) (events c) (is_shutdown c)
    (keepalive c) (rekey c) (stats c) (reconnect_attempts c) (nat_info c) (rebind_pending c) x (sent c).
Definition with_sent (c : t) (x : list (list Z)) : t :=
  mk (config c) (server_public_key c) (state c) (session c) (tunnel_info c) (events c) (is_shutdown c)
    (keepalive c) (rekey c) (stats c) (reconnect_attempts c) (nat_info c) (rebind_pending c)
    (connect_in_progress c) x.

(** ** Operations: the client they leave and their outcome *)

Definition op (A : Type) : Type := t -> t * result ClientError.t A.

Definition ret {A} (a : A) : op A := fun c => (c, Ok a).
Definition throw {A} (e : ClientError.t) : op A := fun c => (c, Err e).
Definition lift {A} (r : result ClientError.t A) : op A := fun c => (c, r).
Definition gets {A} (f : t -> A) : op A := fun c => (c, Ok (f c)).
Definition modify (f : t -> t) : op unit := fun c => (f c, Ok tt).

Definition bind {A A'} (m : op A) (k : A -> op A') : op A' := fun c =>
  match m c with
  | (c, Ok a) => k a c
  | (c, Err e) => (c, Err e)
  | (c, Panic) => (c, Panic)
  end.

(** The outcome of [m] as a value, [inr] for an error. *)
Definition try {A} (m : op A) : op (A + ClientError.t) := fun c =>
  match m c with
  | (c, Ok a) => (c, Ok (inl a))
  | (c, Err e) => (c, Ok (inr e))
  | (c, Panic) => (c, Panic)
  end.

Notation "'do' x <- m ';' k" := (bind m (fun x => k))
  (at level 10, x pattern, m at level 100, k at level 200, format "'do'  x  <-  m ';' '/' k").
Notation "m ';;' k" := (bind m (fun _ => k)) (at level 100, k at level 200, right associativity,
  format "m ';;' '/' k").

Definition emit (e : ClientEvent.t) : op unit := modify (fun c => with_events c (events c ++ [e])).

Definition emit_error : op unit := emit ClientEvent.Error.

Definition set_state (new_state : ClientState.t) : op unit :=
  do old <- gets state;
  if bool_decide (old = new_state) then ret tt
  else modify (fun c => with_state c new_state);; emit (ClientEvent.StateChanged new_state).

(** [connection.send(..).await?] *)
Definition send (accepted : bool) (packet : list Z) : op unit :=
  if accepted then modify (fun c => with_sent c (sent c ++ [packet])) else throw ClientError.ConnectionIo.

(** Run a step of the session, [ok_or(NotConnected)?] first. *)
Definition on_session {A} (f : Session.t -> Session.t * result ClientError.t A) : op A := fun c =>
  match session c with
  | None => (c, Err ClientError.NotConnected)
  | Some s => let '(s, r) := f s in (with_session c (Some s), r)
  end.

Definition encrypt (ty : MessageType.t) (payload output : list Z) : op (list Z) :=
  on_session (fun s =>
    let '(s, r) := Session.encrypt_packet s ty payload output in
    (s, let? (output, packet_len) := map_err ClientError.Crypto r in range output 0 packet_len)).

(** The buffer after decryption and the length of the plaintext. *)
Definition decrypt (now : Z) (data output : list Z) : op (list Z * Z) :=
  on_session (fun s =>
    let '(s, r) := Session.decrypt_packet s now data output in
    (s, let? (output, _, n) := map_err ClientError.Protocol r in Ok (output, n))).

Definition update_stats (f : StatsTracker.t -> StatsTracker.t) : op unit :=
  modify (fun c => with_stats c (f (stats c))).

Definition count (f : AtomicStats.t -> AtomicStats.t) : op unit :=
  update_stats (fun s => StatsTracker.set_atomic s (f (StatsTracker.atomic s))).

(** ** Connecting *)

Definition new (config : ClientConfig.t) : result ClientError.t t :=
  let? _ := ClientConfig.validate config in
  let? pk_bytes := ClientConfig.decode_server_public_key config in
  let? server_public_key := map_err (fun _ => ClientError.Config) (MlDsaPublicKey.from_bytes pk_bytes) in
  Ok (mk config server_public_key ClientState.Disconnected None None [] false KeepaliveState.initial
        RekeyState.cleared StatsTracker.new 0 None false false []).

(** The handshake and the payload of its first message. *)
Definition init_message (config : ClientConfig.t) (server_public_key : list Z) (d : draws)
    (credentials : option Credentials.t)
    : result ClientError.t (ClientHandshake.t * MessageType.t * list Z) :=
  let? server_kem_pk := ClientConfig.decode_server_kem_public_key config in
  let? _ :=
    match credentials, server_kem_pk with Some _, None => Err ClientError.Config | _, _ => Ok tt end in
  let level := ClientConfig.security_level config in
  let handshake :=
    match server_kem_pk with
    | Some kem_pk => ClientHandshake.with_identity_hiding server_public_key kem_pk level
    | None => ClientHandshake.with_server_pk_and_level server_public_key level
    end in
  let '(handshake, init) :=
    ClientHandshake.create_init (init_x25519 d) (init_mlkem d) (init_random d) handshake in
  let? init := map_err (fun _ => ClientError.Handshake) init in
  let? init :=
    match credentials, server_kem_pk with
    | Some creds, Some kem_pk =>
        map_err (fun _ => ClientError.Handshake)
          (HandshakeInit.add_credentials init (creds_x25519 d) (creds_mlkem d) (Credentials.username creds)
             (Credentials.password creds) kem_pk)
    | _, _ => Ok init
    end in
  match server_kem_pk with
  | Some kem_pk =>
      let? encrypted := map_err (fun _ => ClientError.Handshake)
        (EncryptedHandshakeInit.encrypt (hide_x25519 d) (hide_mlkem d) init kem_pk) in
      Ok (handshake, MessageType.EncryptedHandshakeInit, EncryptedHandshakeInit.to_bytes encrypted)
  | None => Ok (handshake, MessageType.HandshakeInit, HandshakeInit.to_bytes init)
  end.

(** [accepted i] tells whether the transport takes the i-th datagram. *)
Fixpoint send_fragments (accepted : nat -> bool) (i : nat) (bodies : list (list Z)) : op unit :=
  match bodies with
  | [] => ret tt
  | body :: bodies =>
      do pkt <- lift (map_err (fun _ => ClientError.Handshake) (framed MessageType.HandshakeFragment body));
      send (accepted i) pkt;;
      send_fragments accepted (S i) bodies
  end.

Definition send_init (accepted : nat -> bool) (frag_id : Z) (ty : MessageType.t) (payload : list Z) : op unit :=
  if FRAGMENTATION_THRESHOLD <? len payload then
    do bodies <- lift (map_err (fun _ => ClientError.Handshake) (build_handshake_fragments ty frag_id payload));
    send_fragments accepted 0 bodies
  else
    do pkt <- lift (map_err (fun _ => ClientError.Handshake) (framed ty payload));
    send (accepted 0%nat) pkt.

Definition decode_handshake_response (level : SecurityLevel.t) (data : list Z)
    : result ClientError.t HandshakeResponse.t :=
  if len data <? HEADER_SIZE then Err ClientError.Handshake
  else
    let? _ := map_err ClientError.Protocol (PacketHeader.decode data) in
    let? payload := range data HEADER_SIZE (len data) in
    map_err (fun _ => ClientError.Handshake) (HandshakeResponse.from_bytes_with_level payload level).

Definition perform_handshake (d : draws) (accepted : nat -> bool) (net : list Arrival.t)
    (credentials : option Credentials.t) : op (Z * SessionKeys.t * TunnelConfig.t) :=
  do (cfg, pk) <- gets (fun c => (config c, server_public_key c));
  do (handshake, ty, payload) <- lift (init_message cfg pk d credentials);
  send_init accepted (init_frag_id d) ty payload;;
  do response <- lift (wait_response (ClientConfig.server_addr cfg)
    (mk_waiting 0 (Reassembly.new ReassemblerConfig.client_default)) 0 net);
  match response with
  | None => throw (match credentials with Some _ => ClientError.Auth | None => ClientError.Timeout end)
  | Some response_bytes =>
      do response <- lift (decode_handshake_response (ClientConfig.security_level cfg) response_bytes);
      lift (map_err ClientError.Protocol (snd (ClientHandshake.process_response handshake response)))
  end.

Definition finish_connect : op unit := modify (fun c => with_connecting c false).

Definition connect_with_credentials (clk : nat -> Z) (d : draws) (accepted : nat -> bool)
    (net : list Arrival.t) (credentials : option Credentials.t) : op TunnelInfo.t :=
  do (st, info, busy) <- gets (fun c => (state c, tunnel_info c, connect_in_progress c));
  if bool_decide (st = ClientState.Connected) then lift (ok_or ClientError.InvalidState info)
  else if (busy : bool) then throw ClientError.InvalidState
  else
    modify (fun c => with_connecting c true);;
    match match credentials with Some creds => Credentials.validate creds | None => Ok tt end with
    | Panic => lift Panic
    | Err e => finish_connect;; throw e
    | Ok _ =>
        set_state ClientState.Connecting;;
        do outcome <- try (perform_handshake d accepted net credentials);
        match outcome with
        | inl (session_id, keys, tunnel_config) =>
            do s <- lift (map_err (fun _ => ClientError.Handshake) (Session.new (clk 0%nat) session_id keys));
            let tunnel_info := TunnelInfo.from tunnel_config in
            modify (fun c => with_tunnel (with_session c (Some s)) (Some tunnel_info));;
            update_stats (fun s => StatsTracker.on_connected s (clk 1%nat) session_id);;
            set_state ClientState.Connected;;
            finish_connect;;
            emit (ClientEvent.Connected tunnel_info);;
            ret tunnel_info
        | inr e =>
            finish_connect;;
            set_state ClientState.Disconnected;;
            emit_error;;
            throw e
        end
    end.

Definition connect (clk : nat -> Z) (d : draws) (accepted : nat -> bool) (net : list Arrival.t) : op TunnelInfo.t :=
  connect_with_credentials clk d accepted net None.

(** ** The tunnel *)

Definition send_data (pooled : list Z) (accepted : bool) (payload : list Z) : op unit :=
  do packet <- encrypt MessageType.Data payload pooled;
  send accepted packet;;
  count (fun a => AtomicStats.on_bytes_sent a (len payload)).

Definition process_tunnel_packet (pooled : list Z) (accepted : bool) (data : list Z) : op unit :=
  send_data pooled accepted data.

Definition clear_rekey_state : op unit := modify (fun c => with_rekey c RekeyState.cleared).

Definition set_rebind (pending : bool) : op unit := modify (fun c => with_rebind c pending).

(** [unix] is the wall clock of [SignedRebindAckPayload::verify]. *)
Definition on_rebind_ack (unix : option Z) (signed_payload : option SignedRebindAckPayload.t) : op unit :=
  do s <- gets session;
  match s with
  | None => ret tt
  | Some s =>
      let session_id := Session.session_id s in
      match signed_payload with
      | Some signed =>
          do pk <- gets server_public_key;
          match SignedRebindAckPayload.verify unix signed pk session_id with
          | Ok _ => set_rebind false;; emit ClientEvent.RebindAcknowledged
          | Err _ => emit_error
          | Panic => lift Panic
          end
      | None =>
          do required <- gets (fun c => ClientConfig.require_signed_rebind_ack (config c));
          if (required : bool) then emit_error
          else set_rebind false;; emit ClientEvent.RebindAcknowledged
      end
  end.

Definition process_control_message (unix : option Z) (payload : list Z) : op unit :=
  do control <- lift (map_err ClientError.Protocol (ControlMessage.from_bytes payload));
  let message := ControlMessage.message control in
  emit (ClientEvent.ControlReceived (ControlMessage.control_type control) message);;
  match ControlMessage.control_type control with
  | ControlType.Close =>
      set_state ClientState.Disconnected;;
      emit (ClientEvent.Disconnected
        (match message with Some m => Some m | None => Some (bytes_of_string "server closed connection") end))
  | ControlType.Error => emit_error
  | ControlType.RebindAck => on_rebind_ack unix (ControlMessage.signed_payload control)
  | ControlType.Rebind => ret tt
  | ControlType.Config => ret tt
  end.

Definition process_rekey_response (payload : list Z) : op unit :=
  do level <- gets (fun c => ClientConfig.security_level (config c));
  do response <- lift (map_err ClientError.Protocol (RekeyResponse.from_bytes_with_level payload level));
  do rk <- gets rekey;
  match RekeyState.handler rk with
  | None => throw ClientError.InvalidState
  | Some handler =>
      let '(handler, new_keys) := ClientRekey.process_response handler response in
      modify (fun c => with_rekey c
        (RekeyState.mk (Some handler) (RekeyState.in_progress rk) (RekeyState.started_at rk)));;
      do new_keys <- lift (map_err ClientError.Protocol new_keys);
      on_session (fun s =>
        let '(s, r) := Session.update_keys s new_keys in (s, map_err (fun _ => ClientError.Handshake) r));;
      clear_rekey_state;;
      update_stats (fun s => StatsTracker.on_rekey s (RekeyResponse.new_key_id response));;
      emit (ClientEvent.RekeyComplete (RekeyResponse.new_key_id response))
  end.

(** [t.elapsed().as_millis() as u64] *)
Definition elapsed_ms (now t : Z) : Z := as_uint 64 (elapsed now t / NANOS_PER_MILLI).

Definition process_keepalive_reply (clk : nat -> Z) (data : list Z) : op unit :=
  do reply <- lift (map_err ClientError.Protocol (KeepaliveReplyMessage.from_bytes data));
  do ka <- gets keepalive;
  let rtt_ms :=
    match KeepaliveState.last_sent ka with Some t => elapsed_ms (clk 0%nat) t | None => 0 end in
  modify (fun c => with_keepalive c
    (KeepaliveState.mk (KeepaliveState.last_sent ka) (Some (clk 1%nat)) (KeepaliveState.seq ka) None 0));;
  do st <- gets stats;
  do st <- lift (StatsTracker.on_keepalive_received st (clk 2%nat) (clk 3%nat) rtt_ms);
  modify (fun c => with_stats c st);;
  emit (ClientEvent.Keepalive (KeepaliveReplyMessage.sequence reply) rtt_ms).

(** [clk 0] is the instant the session reads, the others are those of the
    keepalive handler; [output] is the buffer, returned with what was decoded. *)
Definition process_packet (clk : nat -> Z) (unix : option Z) (data output : list Z)
    : op (list Z * option (MessageType.t * Z)) :=
  if len data <? HEADER_SIZE then ret (output, None)
  else
    do header <- lift (map_err ClientError.Protocol (PacketHeader.decode data));
    match PacketHeader.msg_type header with
    | MessageType.Data =>
        do (output, n) <- decrypt (clk 0%nat) data output;
        count (fun a => AtomicStats.on_bytes_received a n);;
        ret (output, Some (MessageType.Data, n))
    | MessageType.KeepaliveReply =>
        do (output, n) <- decrypt (clk 0%nat) data output;
        do plain <- lift (range output 0 n);
        process_keepalive_reply (fun i => clk (S i)) plain;;
        ret (output, Some (MessageType.KeepaliveReply, 0))
    | MessageType.Control =>
        do (output, n) <- decrypt (clk 0%nat) data output;
        do plain <- lift (range output 0 n);
        process_control_message unix plain;;
        ret (output, Some (MessageType.Control, 0))
    | MessageType.RekeyResponse =>
        do (output, n) <- decrypt (clk 0%nat) data output;
        do plain <- lift (range output 0 n);
        process_rekey_response plain;;
        ret (output, Some (MessageType.RekeyResponse, 0))
    | _ =>
        count AtomicStats.on_packet_dropped;;
        ret (output, None)
    end.

(** ** Keepalives *)

(** [*x += 1] on a [u32]. *)
Definition increment (x : Z) : result ClientError.t Z :=
  match checked_add 32 x 1 with Some y => Ok y | None => Panic end.

Definition send_keepalive (clk : nat -> Z) (pooled : list Z) (accepted : bool) : op unit :=
  do ka <- gets keepalive;
  do missed <- lift (match KeepaliveState.pending_seq ka with
                     | Some _ => increment (KeepaliveState.missed ka)
                     | None => Ok (KeepaliveState.missed ka)
                     end);
  let sequence := KeepaliveState.seq ka in
  let ka := KeepaliveState.mk (KeepaliveState.last_sent ka) (KeepaliveState.last_received ka)
              (wrapping_add 32 sequence 1) (KeepaliveState.pending_seq ka) missed in
  modify (fun c => with_keepalive c ka);;
  let payload := KeepaliveMessage.to_bytes (KeepaliveMessage.mk sequence) in
  do packet <- encrypt MessageType.Keepalive payload pooled;
  send accepted packet;;
  modify (fun c => with_keepalive c
    (KeepaliveState.mk (Some (clk 0%nat)) (KeepaliveState.last_received ka) (KeepaliveState.seq ka)
       (Some sequence) missed));;
  update_stats (fun s => StatsTracker.on_keepalive_sent s (clk 1%nat)).

Definition should_send_keepalive (c : t) (now : Z) : bool :=
  match KeepaliveState.last_sent (keepalive c) with
  | Some t => ClientConfig.keepalive_interval (config c) <=? elapsed now t
  | None => true
  end.

Definition check_keepalive_timeout (c : t) (now : Z) : result ClientError.t (option Z) :=
  let? timeout := ClientConfig.keepalive_timeout (config c) in
  let ka := keepalive c in
  match KeepaliveState.last_sent ka with
  | None => Ok None
  | Some last_sent =>
      let since_last_response :=
        match KeepaliveState.last_received ka with
        | Some t => elapsed now t
        | None => elapsed now last_sent
        end in
      Ok (if timeout <? since_last_response then Some (KeepaliveState.missed ka) else None)
  end.

Definition is_connection_dead (c : t) : bool :=
  ClientConfig.keepalive_timeout_count (config c) <=? KeepaliveState.missed (keepalive c).

Definition reset_keepalive_state : op unit := modify (fun c => with_keepalive c KeepaliveState.initial).

(** ** Key rotation *)

Definition needs_rekey (c : t) (now : Z) : bool :=
  if RekeyState.in_progress (rekey c) then false
  else
    match session c with
    | Some s =>
        Session.needs_rekey s now (ClientConfig.rekey_after_bytes (config c))
          (ClientConfig.rekey_interval (config c))
    | None => false
    end.

(** [session.age().as_secs() >= rekey_interval_secs] *)
Definition should_rekey (c : t) (now : Z) : bool :=
  match session c with
  | Some s => ClientConfig.rekey_interval_secs (config c) <=? Session.age s now / 1000000000
  | None => false
  end.

Definition initiate_rekey (clk : nat -> Z) (x25519_rng mlkem_seed random : list Z) (accepted : bool) : op unit :=
  do rk <- gets rekey;
  if RekeyState.in_progress rk then throw ClientError.InvalidState
  else
    do (s, pk, level) <- gets (fun c => (session c, server_public_key c, ClientConfig.security_level (config c)));
    do s <- lift (ok_or ClientError.NotConnected s);
    let handler := ClientRekey.with_security_level pk (Session.session_id s) level in
    let '(handler, request) := ClientRekey.create_request x25519_rng mlkem_seed random handler in
    do request <- lift (map_err ClientError.Crypto request);
    let payload := RekeyMessage.to_bytes request in
    do packet <- encrypt MessageType.Rekey payload
      (replicate (Z.to_nat (HEADER_SIZE + len payload + TAG_SIZE + 32)) 0);
    modify (fun c => with_rekey c (RekeyState.mk (Some handler) true (Some (clk 0%nat))));;
    do outcome <- try (send accepted packet);
    match outcome with
    | inl _ => ret tt
    | inr _ => clear_rekey_state;; throw ClientError.ConnectionIo
    end.

(** ** Leaving *)

Definition disconnect (accepted : bool) : op unit :=
  do st <- gets state;
  if bool_decide (st = ClientState.Disconnected) then ret tt
  else
    set_state ClientState.Disconnecting;;
    let payload := ControlMessage.to_bytes ControlMessage.close in
    do packet <- try (encrypt MessageType.Control payload
      (replicate (Z.to_nat (HEADER_SIZE + len payload + TAG_SIZE + 32)) 0));
    modify (fun c => with_session c (option_map Session.close (session c)));;
    match packet with
    | inl data => do _ <- try (send accepted data); ret tt
    | inr _ => ret tt
    end;;
    clear_rekey_state;;
    modify (fun c => with_tunnel (with_session c None) None);;
    update_stats StatsTracker.reset;;
    set_state ClientState.Disconnected;;
    emit (ClientEvent.Disconnected (Some (bytes_of_string "user requested"))).

Definition shutdown : op unit := modify (fun c => with_shutdown c true).

(** ** The endpoint *)

Definition discover_nat (socket_ok : bool) (net : nat -> StunClient.exchange) : op NatInfo.t :=
  do servers <- gets (fun c => ClientConfig.stun_servers (config c));
  match servers with
  | [] => throw ClientError.Network
  | _ =>
      let client := StunClient.with_servers StunClient.new servers in
      do result <- lift (StunClient.discover client socket_ok net);
      let nat_info := NatInfo.mk (Some result) NatType.Unknown None in
      modify (fun c => with_nat c (Some nat_info));;
      emit (ClientEvent.NatDiscovered nat_info);;
      ret nat_info
  end.

Definition send_rebind (accepted : bool) (new_endpoint : SocketAddr.t) : op unit :=
  do pending <- gets rebind_pending;
  if (pending : bool) then throw ClientError.InvalidState
  else
    let rebind_msg :=
      ControlMessage.mk ControlType.Rebind None
        (Some (bytes_of_string (SocketAddr.to_string new_endpoint))) None in
    let payload := ControlMessage.to_bytes rebind_msg in
    do packet <- encrypt MessageType.Control payload
      (replicate (Z.to_nat (HEADER_SIZE + len payload + TAG_SIZE + 32)) 0);
    send accepted packet;;
    set_rebind true;;
    emit (ClientEvent.RebindRequested new_endpoint).

Definition endpoint_of (i : NatInfo.t) : option SocketAddr.t :=
  option_map StunResult.socket_addr (NatInfo.public_endpoint i).

Definition check_and_rebind (socket_ok : bool) (net : nat -> StunClient.exchange) (accepted : bool) : op bool :=
  do old_info <- gets nat_info;
  do new_info <- discover_nat socket_ok net;
  match old_info ≫= endpoint_of, endpoint_of new_info with
  | Some old, Some new =>
      if negb (bool_decide (old = new)) then send_rebind accepted new;; ret true else ret false
  | _, _ => ret false
  end.

(** ** The receive loop *)

(** What the outbound channel did with a packet. *)
Inductive slot := Taken | Full | Closed.

(** The branches of [tokio::select!]. *)
Inductive loop_event :=
  | Received (clk : nat -> Z) (unix : option Z) (pooled data : list Z) (channel : slot)
  | ReceiveError
  | KeepaliveTick (now : Z) (clk : nat -> Z) (pooled : list Z) (accepted : bool)
  | TimeoutTick (now now' : Z)
  | RekeyTick (now : Z) (clk : nat -> Z) (x25519_rng mlkem_seed random : list Z) (accepted : bool).

Definition message_type (data : list Z) : option MessageType.t :=
  match PacketHeader.decode data with Ok h => Some (PacketHeader.msg_type h) | _ => None end.

(** The packets for the tunnel device. *)
Definition on_received (clk : nat -> Z) (unix : option Z) (pooled data : list Z) (channel : slot)
    : op (list (list Z)) :=
  if negb (0 <? len data) then ret []
  else
    let inbound_msg_type := message_type data in
    do outcome <- try (process_packet clk unix data pooled);
    match outcome with
    | inl (output, Some (MessageType.Data, n)) =>
        if 0 <? n then
          match channel with
          | Taken => do bytes <- lift (range output 0 n); ret [bytes]
          | Full => count AtomicStats.on_packet_dropped;; ret []
          | Closed => throw ClientError.Connection
          end
        else ret []
    | inl _ => ret []
    | inr _ =>
        if bool_decide (inbound_msg_type = Some MessageType.RekeyResponse) then clear_rekey_state;; ret []
        else ret []
    end.

Definition on_timeout_tick (now now' : Z) : op unit :=
  do c <- gets id;
  do overdue <- lift (check_keepalive_timeout c now);
  match overdue with
  | Some missed =>
      (if 0 <? missed then emit (ClientEvent.KeepaliveTimeout missed) else ret tt);;
      (if is_connection_dead c then throw ClientError.KeepaliveTimeout else ret tt)
  | None => ret tt
  end;;
  match RekeyState.started_at (rekey c) with
  | Some started_at =>
      if ClientConfig.connection_timeout (config c) <? elapsed now' started_at then clear_rekey_state else ret tt
  | None => ret tt
  end.

Definition loop_step (e : loop_event) : op (list (list Z)) :=
  match e with
  | Received clk unix pooled data channel => on_received clk unix pooled data channel
  | ReceiveError => throw ClientError.Connection
  | KeepaliveTick now clk pooled accepted =>
      do due <- gets (fun c => should_send_keepalive c now);
      if (due : bool) then do _ <- try (send_keepalive clk pooled accepted); ret [] else ret []
  | TimeoutTick now now' => on_timeout_tick now now';; ret []
  | RekeyTick now clk x25519_rng mlkem_seed random accepted =>
      do due <- gets (fun c => needs_rekey c now);
      if (due : bool) then do _ <- try (initiate_rekey clk x25519_rng mlkem_seed random accepted); ret []
      else ret []
  end.

(** The packets delivered, and whether the loop has ended. *)
Fixpoint run_receive_loop (es : list loop_event) : op (list (list Z) * bool) :=
  do (down, st) <- gets (fun c => (is_shutdown c, state c));
  if (down : bool) || bool_decide (st = ClientState.Disconnected) then ret ([], true)
  else
    match es with
    | [] => ret ([], false)
    | e :: es =>
        do packets <- loop_step e;
        do (more, ended) <- run_receive_loop es;
        ret (packets ++ more, ended)
    end.

(** ** Reconnecting *)

Definition reset_for_reconnect : op unit := reset_keepalive_state;; clear_rekey_state.

Definition get_reconnect_attempt : op Z :=
  do attempts <- gets reconnect_attempts;
  do attempts <- lift (increment attempts);
  modify (fun c => with_attempts c attempts);;
  ret attempts.

Definition reset_reconnect_attempts : op unit := modify (fun c => with_attempts c 0).

Definition should_reconnect (c : t) : bool :=
  if negb (ClientConfig.auto_reconnect (config c)) then false
  else (ClientConfig.max_reconnect_attempts (config c) =? 0) ||
       (reconnect_attempts c <? ClientConfig.max_reconnect_attempts (config c)).

(** What one attempt meets: whether the application asked for shutdown while
    the client slept, and the network of its handshake. *)
Record attempt := mk_attempt {
  shutdown_requested : bool;
  attempt_clk : nat -> Z;
  attempt_draws : draws;
  attempt_accepted : nat -> bool;
  attempt_net : list Arrival.t;
}.

(** The delays slept and the tunnel parameters; [None] when the attempts
    given are used up. *)
Fixpoint reconnect_loop (attempts : list attempt) : op (list Z * option TunnelInfo.t) :=
  match attempts with
  | [] => ret ([], None)
  | a :: attempts =>
      do n <- get_reconnect_attempt;
      do cfg <- gets config;
      emit (ClientEvent.Reconnecting n (ClientConfig.max_reconnect_attempts cfg));;
      let delay := ClientConfig.reconnect_delay_with_backoff cfg (saturating_sub n 1) in
      (if shutdown_requested a then shutdown else ret tt);;
      do down <- gets is_shutdown;
      if (down : bool) then throw ClientError.Shutdown
      else
        reset_for_reconnect;;
        modify (fun c => with_tunnel (with_session c None) None);;
        update_stats StatsTracker.reset;;
        do outcome <- try (connect (attempt_clk a) (attempt_draws a) (attempt_accepted a) (attempt_net a));
        match outcome with
        | inl tunnel_info => reset_reconnect_attempts;; ret ([delay], Some tunnel_info)
        | inr _ =>
            do again <- gets should_reconnect;
            if negb again then
              set_state ClientState.Disconnected;;
              emit ClientEvent.ReconnectionFailed;;
              throw ClientError.ReconnectionFailed
            else
              do (delays, info) <- reconnect_loop attempts;
              ret (delay :: delays, info)
        end
  end.

Definition attempt_reconnect (attempts : list attempt) : op (list Z * option TunnelInfo.t) :=
  do again <- gets should_reconnect;
  if negb again then throw ClientError.ReconnectionFailed
  else set_state ClientState.Reconnecting;; reconnect_loop attempts.

End Client.

End VpnClient.
