(* ===== verification/Connect.v ===== *)
(** A client and a server put together: the datagrams of the client's
    handshake, delivered to the server, and the server's datagrams, delivered
    to the client, leave both with the two ends of one session. *)

From S2P Require Import Prelude Types Codec Wire Utf8 Net Header Digest ReplayWindow Aead Keys Signature Kem Kdf Session Fragment Reassembly.
From S2P Require Import Tunnel Control Init Response Handshake Agreement HandshakeReplay RateLimit AuthLockout AddressPool.
From S2P Require Import TokenBucket SessionManager DataPlane UserStore Server ServerSafety ClientStats ClientConfig NatTraversal Client.

(** * Messages outside a session *)

Definition wire0 (ty : MessageType.t) : list Z :=
  PacketHeader.wire (PacketHeader.new ty 0 KeyId.initial Counter.initial).

Lemma len_wire0 ty : len (wire0 ty) = HEADER_SIZE.
Proof. unfold wire0. by rewrite PacketHeader.len_wire. Qed.

Lemma bytes_ok_wire0 ty : bytes_ok (wire0 ty).
Proof. apply PacketHeader.bytes_ok_wire. by apply Session.data_header_wf. Qed.

Lemma framed_ok ty body : framed ty body = Ok (wire0 ty ++ body).
Proof.
  unfold framed. rewrite PacketHeader.encode_wire by by rewrite len_replicate. sbind.
  fold (wire0 ty). rewrite drop_ge; [by rewrite app_nil_r|].
  rewrite length_replicate. pose proof (len_wire0 ty). unfold len in *. lia.
Qed.

Lemma decode_wire0 ty body :
  PacketHeader.decode (wire0 ty ++ body) = Ok (PacketHeader.new ty 0 KeyId.initial Counter.initial).
Proof. unfold wire0. rewrite PacketHeader.decode_wire; [done|]. by apply Session.data_header_wf. Qed.

(** Access to the body of such a message. *)
Lemma frame_body {E} ty body :
  range (E:=E) (wire0 ty ++ body) HEADER_SIZE (len (wire0 ty ++ body)) = Ok body.
Proof.
  apply range_rest_at_end. exists (wire0 ty). split; [done|]. apply len_wire0.
Qed.

Lemma frame_long ty body : (len (wire0 ty ++ body) <? HEADER_SIZE) = false.
Proof. apply Z.ltb_ge. rewrite len_app, len_wire0. pose proof (len_nonneg body). lia. Qed.

(** A user name the client accepts. *)
Lemma allowed_byte b : Credentials.allowed b = true -> 45 <= b <= 122.
Proof.
  unfold Credentials.allowed. intros Hb. repeat (apply orb_true_iff in Hb as [Hb|Hb]); b2p; lia.
Qed.

Lemma ascii_valid l : Forall (fun b => 0 <= b <= 127) l -> utf8_valid l = true.
Proof.
  unfold utf8_valid. induction 1 as [|b l Hb _ IH]; [done|]. simpl. unfold next_chunk.
  rewrite (proj2 (Z.ltb_lt b 128)) by lia. exact IH.
Qed.

Section Connect.
Context {R : RingAead} {RL : RingAeadLaws} {D : RingDigest} {DL : RingDigestLaws}.
Context {M : MlDsa} {ML : MlDsaLaws} {K : KemPrimitives} {KL : KemLaws} {H : Hkdf} {HL : HkdfLaws}.
Context {A2 : Argon2} {B : Base64}.
Context {IS : SetIter Z} {IR : HashIter (SocketAddr.t * Z) Entry.t}.
Context {I1 : HashIter (list Z * IpAddr.t) TupleEntry.t} {I2 : HashIter IpAddr.t IpEntry.t}
  {I3 : HashIter (list Z) UsernameEntry.t}.

(** * The first message *)

(** The client holds the public keys of the server, at its security level. *)
Definition paired (cfg : ClientConfig.t) (pk : list Z) (s : VpnServer.t) : Prop :=
  let level := ClientConfig.security_level cfg in
  (exists seed, VpnServer.keypair_for_level s level = MlDsaKeypair.generate_with_level seed level /\
     pk = MlDsaKeypair.public_key (MlDsaKeypair.generate_with_level seed level)) /\
  exists kem, ClientConfig.decode_server_kem_public_key cfg = Ok kem /\
    match kem with
    | None => True
    | Some kpk => exists kx kseed ksk, len kx = 32 /\
        HybridKem.generate_keypair_with_level kx kseed level = Ok (ksk, kpk) /\
        VpnServer.kem_keypair_for_level s level = Some (ksk, kpk)
    end.

Definition draws_ok (d : draws) : Prop :=
  len (init_x25519 d) = 32 /\ bytes_ok (init_random d) /\ len (init_random d) = 32 /\
  len (creds_x25519 d) = 32 /\ len (hide_x25519 d) = 32 /\ u32 (init_frag_id d).

(** Credentials the client accepts; a [String] is valid UTF-8. *)
Definition creds_ok (cfg : ClientConfig.t) (creds : option Credentials.t) : Prop :=
  forall c, creds = Some c ->
    Credentials.validate c = Ok tt /\ bytes_ok (Credentials.password c) /\
    utf8_valid (Credentials.password c) = true /\ ClientConfig.identity_hiding_enabled cfg = true.

(** What the server recovers of the credentials in [init]. *)
Definition carries (s : VpnServer.t) (level : SecurityLevel.t) (init : HandshakeInit.t)
    (creds : option Credentials.t) : Prop :=
  forall c, creds = Some c -> exists ec ksk kpk,
    HandshakeInit.credentials init = Some ec /\ VpnServer.kem_keypair_for_level s level = Some (ksk, kpk) /\
    EncryptedCredentials.decrypt ec ksk =
      Ok (DecryptedCredentials.mk (Credentials.username c) (Credentials.password c)).

(** A client that waits for the answer to [init]. *)
Definition awaits (hs : ClientHandshake.t) (cfg : ClientConfig.t) (pk : list Z) (d : draws)
    (sk : HybridSecretKey.t) (epk : HybridPublicKey.t) : Prop :=
  ClientHandshake.state hs = HandshakeState.AwaitingResponse /\
  ClientHandshake.client_keypair hs = Some (sk, epk) /\
  ClientHandshake.client_random hs = Some (init_random d) /\
  ClientHandshake.security_level hs = ClientConfig.security_level cfg /\
  ClientHandshake.expected_server_pk hs = Some pk /\
  HybridKem.generate_keypair_with_level (init_x25519 d) (init_mlkem d) (ClientConfig.security_level cfg) =
    Ok (sk, epk).

Lemma validated_credentials x seed level x' rnd sk pk c :
  len x = 32 -> len x' = 32 -> HybridKem.generate_keypair_with_level x seed level = Ok (sk, pk) ->
  Credentials.validate c = Ok tt -> bytes_ok (Credentials.password c) ->
  utf8_valid (Credentials.password c) = true ->
  exists ec, EncryptedCredentials.encrypt x' rnd (Credentials.username c) (Credentials.password c) pk = Ok ec /\
    EncryptedCredentials.wf ec /\
    EncryptedCredentials.decrypt ec sk =
      Ok (DecryptedCredentials.mk (Credentials.username c) (Credentials.password c)).
Proof.
  intros Hx Hx' Hg Hv Hpb Hpu. unfold Credentials.validate in Hv. repeat (step_in Hv; b2p).
  assert (Forall (fun b => 45 <= b <= 122) (Credentials.username c)) as Hu.
  { apply Forall_forall. intros b Hin. apply allowed_byte. by eapply forallb_forall, list_elem_of_In. }
  assert (bytes_ok (Credentials.username c)) as Hub.
  { eapply Forall_impl; [exact Hu|]. unfold uint. intros. simpl. lia. }
  destruct (EncryptedCredentials.credentials_encrypt_ok x seed level x' rnd sk pk (Credentials.username c)
    (Credentials.password c)) as (ec & He & Hw & Hd); try done;
    try (unfold MAX_USERNAME_LEN, MAX_PASSWORD_LEN; lia).
  exists ec. split_and!; try done. apply Hd; try done.
  - eapply Forall_impl; [exact Hu|]. intros. simpl in *. lia.
  - apply ascii_valid. eapply Forall_impl; [exact Hu|]. intros. simpl in *. lia.
Qed.

Lemma len_encrypted_init e :
  EncryptedHandshakeInit.wf e ->
  bytes_ok (EncryptedHandshakeInit.to_bytes e) /\
  len (EncryptedHandshakeInit.encrypted_payload e) < len (EncryptedHandshakeInit.to_bytes e)
    <= 3000 + len (EncryptedHandshakeInit.encrypted_payload e).
Proof.
  intros (Hct & Hb & Hl). pose proof (HybridCiphertext.len_to_bytes_ct _ Hct) as Hcl.
  unfold EncryptedHandshakeInit.to_bytes. cbv zeta. split.
  - rewrite !bytes_ok_app. split_and!; [|auto with hpn| |done].
    + constructor; [|constructor]. by destruct (EncryptedHandshakeInit.security_level e).
    + apply bytes_ok_slice. by apply HybridCiphertext.ct_bytes.
  - autorewrite with len. unfold U16_MAX. rewrite Z.min_l by lia. rewrite slice_all.
    lia.
Qed.

(** The server reads a plain message back. *)
Lemma parse_plain s init :
  HandshakeInit.wf init ->
  VpnServer.parse_init s (wire0 MessageType.HandshakeInit ++ HandshakeInit.to_bytes init) = Ok (init, false).
Proof.
  intros Hw. unfold VpnServer.parse_init. rewrite frame_long, decode_wire0. sbind. rewrite frame_body. sbind.
  cbn [PacketHeader.msg_type PacketHeader.new]. rewrite <- (app_nil_r (HandshakeInit.to_bytes init)).
  by rewrite HandshakeInit.init_roundtrip.
Qed.

(** It recovers a hidden one with its KEM key. *)
Lemma parse_hidden s e init ksk kpk :
  EncryptedHandshakeInit.wf e -> EncryptedHandshakeInit.decrypt e ksk = Ok init ->
  let level := EncryptedHandshakeInit.security_level e in
  VpnServer.security_level_accepted s level = true ->
  VpnServer.kem_keypair_for_level s level = Some (ksk, kpk) ->
  VpnServer.parse_init s (wire0 MessageType.EncryptedHandshakeInit ++ EncryptedHandshakeInit.to_bytes e) =
    Ok (init, true).
Proof.
  intros Hw Hd level Ha Hk. unfold VpnServer.parse_init. rewrite frame_long, decode_wire0. sbind.
  rewrite frame_body. sbind. cbn [PacketHeader.msg_type PacketHeader.new].
  rewrite EncryptedHandshakeInit.encrypted_init_roundtrip by done. sbind. fold level. rewrite Ha, Hk. simpl.
  by rewrite Hd.
Qed.

Definition init_type (ty : MessageType.t) : Prop :=
  ty = MessageType.HandshakeInit \/ ty = MessageType.EncryptedHandshakeInit.

(** The credentials put into the message. *)
Lemma init_with_credentials s level d creds kem init :
  draws_ok d -> HandshakeInit.wf init ->
  (forall c, creds = Some c -> Credentials.validate c = Ok tt /\ bytes_ok (Credentials.password c) /\
     utf8_valid (Credentials.password c) = true /\ is_Some kem) ->
  match kem with
  | None => True
  | Some kpk => exists kx kseed ksk, len kx = 32 /\
      HybridKem.generate_keypair_with_level kx kseed level = Ok (ksk, kpk) /\
      VpnServer.kem_keypair_for_level s level = Some (ksk, kpk)
  end ->
  exists init',
    match creds, kem with
    | Some creds, Some kem_pk =>
        map_err (fun _ => ClientError.Handshake)
          (HandshakeInit.add_credentials init (creds_x25519 d) (creds_mlkem d) (Credentials.username creds)
             (Credentials.password creds) kem_pk)
    | _, _ => Ok init
    end = Ok init' /\
    HandshakeInit.wf init' /\
    HandshakeInit.client_ephemeral_pk init' = HandshakeInit.client_ephemeral_pk init /\
    HandshakeInit.client_random init' = HandshakeInit.client_random init /\
    HandshakeInit.security_level init' = HandshakeInit.security_level init /\ carries s level init' creds.
Proof.
  intros (_ & _ & _ & Hcx & _) Hw Hc Hk. destruct creds as [c|]; [|by exists init].
  destruct (Hc c eq_refl) as (Hv & Hpb & Hpu & kpk & ->). destruct Hk as (kx & kseed & ksk & Hkx & Hg & Hs).
  destruct (validated_credentials kx kseed level (creds_x25519 d) (creds_mlkem d) ksk kpk c)
    as (ec & He & Hew & Hd); try done.
  eexists. split; [unfold HandshakeInit.add_credentials; rewrite He; done|]. destruct Hw as (W1 & W2 & W3 & W4 & _).
  split; [by split_and!|]. split_and!; try done. intros c' [= <-]. by exists ec, ksk, kpk.
Qed.

Lemma init_message_ok cfg pk s d creds :
  let level := ClientConfig.security_level cfg in
  paired cfg pk s -> draws_ok d -> creds_ok cfg creds ->
  VpnServer.security_level_accepted s level = true ->
  exists hs ty payload init hidden sk epk,
    VpnClient.init_message cfg pk d creds = Ok (hs, ty, payload) /\ init_type ty /\
    bytes_ok payload /\ FRAGMENTATION_THRESHOLD < len payload <= 20000 /\
    VpnServer.parse_init s (wire0 ty ++ payload) = Ok (init, hidden) /\
    awaits hs cfg pk d sk epk /\ HandshakeInit.client_ephemeral_pk init = epk /\
    HandshakeInit.client_random init = init_random d /\ HandshakeInit.security_level init = level /\
    carries s level init creds.
Proof.
  intros level [_ (kem & Hkem & Hkg)] Hd Hcreds Hacc. pose proof Hd as (Hx & Hrb & Hrl & Hcx & Hhx & _).
  assert (forall c, creds = Some c -> Credentials.validate c = Ok tt /\ bytes_ok (Credentials.password c) /\
     utf8_valid (Credentials.password c) = true /\ is_Some kem) as Hc.
  { intros c Ec. destruct (Hcreds c Ec) as (? & ? & ? & Hh). split_and!; try done.
    unfold ClientConfig.decode_server_kem_public_key in Hkem. unfold ClientConfig.identity_hiding_enabled in Hh.
    destruct (ClientConfig.server_kem_public_key cfg); [|done]. repeat (step_in Hkem). by injection Hkem as <-. }
  unfold VpnClient.init_message. rewrite Hkem. sbind.
  assert (match creds, kem with Some _, None => Err ClientError.Config | _, _ => Ok tt end = Ok tt) as ->.
  { destruct creds as [c|]; [|done]. by destruct (Hc c eq_refl) as (_ & _ & _ & ? & ->). }
  sbind. set (hs0 := match kem with Some _ => _ | None => _ end).
  assert (ClientHandshake.state hs0 = HandshakeState.Idle /\ ClientHandshake.security_level hs0 = level /\
    ClientHandshake.expected_server_pk hs0 = Some pk) as (Hst & Hlv & Hpk) by by destruct kem.
  destruct (create_init_ok hs0 (init_x25519 d) (init_mlkem d) (init_random d) Hst Hrb Hrl)
    as (sk & epk & hs & init & Hg & -> & Hiw & Hie & Hir & Hs1 & Hs2 & Hs3 & Hs4 & Hs5).
  rewrite Hlv in Hg, Hs4. rewrite Hpk in Hs5. sbind.
  assert (awaits hs cfg pk d sk epk) as Haw by (unfold awaits; by split_and!).
  destruct (init_with_credentials s level d creds kem init Hd Hiw Hc Hkg)
    as (init' & Hadd & Hiw' & Hie' & Hir' & Hil' & Hcar).
  assert (HandshakeInit.security_level init' = level) as Hil.
  { destruct Hiw' as (_ & <- & _). rewrite Hie', Hie. by apply (HybridKem.generate_keypair_inv _ _ _ _ _ Hg). }
  match goal with |- context [rbind ?x _] => replace x with (Ok (E:=ClientError.t) init') end.
  sbind. pose proof (EncryptedHandshakeInit.len_init init' Hiw') as Hlen.
  destruct kem as [kpk|].
  - destruct Hkg as (kx & kseed & ksk & Hkx & Hkg & Hks).
    destruct (EncryptedHandshakeInit.hidden_encrypt_ok kx kseed level (hide_x25519 d) (hide_mlkem d) ksk kpk init')
      as (e & -> & Hew & Hdec & Hel & Hepl); try done.
    destruct (len_encrypted_init e Hew) as [Heb Hell]. sbind.
    exists hs, MessageType.EncryptedHandshakeInit, (EncryptedHandshakeInit.to_bytes e), init', true, sk, epk.
    unfold TAG_SIZE, FRAGMENTATION_THRESHOLD in *. split_and!; try done; try lia; try congruence; [by right|].
    apply (parse_hidden s e init' ksk kpk); try done; by rewrite Hel, Hil.
  - exists hs, MessageType.HandshakeInit, (HandshakeInit.to_bytes init'), init', false, sk, epk.
    unfold FRAGMENTATION_THRESHOLD. split_and!; try done; try lia; try congruence;
      [by left|by apply HandshakeInit.init_bytes|by apply parse_plain].
Qed.

(** * Messages in fragments *)

(** The datagrams of a fragmented message. *)
Definition fragment_packets (fs : list HandshakeFragment.t) : list (list Z) :=
  map (fun f => wire0 MessageType.HandshakeFragment ++ HandshakeFragment.to_bytes f) fs.

Definition fragments_of (ty : MessageType.t) (id : Z) (payload : list Z) (fs : list HandshakeFragment.t) : Prop :=
  Reassembly.message ty id fs /\ concat (map HandshakeFragment.payload fs) = payload /\
  0 < len fs <= MAX_FRAGMENTS_PER_HANDSHAKE.

Lemma split_fragments ty id payload :
  HandshakeFragment.is_valid_inner_type ty = true -> u32 id -> bytes_ok payload -> 0 < len payload <= 20000 ->
  exists fs, split_payload ty id payload = Ok fs /\ fragments_of ty id payload fs.
Proof.
  intros Hty Hid Hb Hl.
  destruct (split_payload_spec ty id payload Hty Hid Hb) as (fs & Hs & Hwf & Hcat & Hidx).
  { unfold MAX_FRAGMENTS_PER_HANDSHAKE, MAX_FRAGMENT_PAYLOAD. lia. }
  exists fs. split; [done|]. split; [by split|]. split; [done|].
  destruct fs as [|f fs]; [simpl in Hcat; subst; by destruct Hl|].
  destruct (Hidx 0%nat f eq_refl) as (_ & _ & _ & Ht). apply Forall_cons in Hwf as [(_ & _ & Hi & Hm & _) _]. lia.
Qed.

Lemma send_fragments_ok (c : VpnClient.t) accepted i fs :
  (forall i, accepted i = true) ->
  VpnClient.send_fragments accepted i (map HandshakeFragment.to_bytes fs) c =
    (VpnClient.with_sent c (VpnClient.sent c ++ fragment_packets fs), Ok tt).
Proof.
  intros Ha. revert c i. induction fs as [|f fs IH]; intros c i.
  { simpl. rewrite app_nil_r. by destruct c. }
  cbn [map VpnClient.send_fragments]. unfold VpnClient.bind at 1, VpnClient.lift. rewrite framed_ok. sbind.
  unfold VpnClient.bind, VpnClient.send. rewrite Ha. unfold VpnClient.modify. rewrite IH. simpl. by rewrite <- app_assoc.
Qed.

Lemma init_fragments ty id payload :
  init_type ty -> u32 id -> bytes_ok payload -> FRAGMENTATION_THRESHOLD < len payload <= 20000 ->
  exists fs, fragments_of ty id payload fs /\ split_payload ty id payload = Ok fs.
Proof.
  intros Hty Hid Hb Hl. destruct (split_fragments ty id payload) as (fs & Hs & Hf); try done; [| |by exists fs].
  - by destruct Hty as [-> | ->].
  - unfold FRAGMENTATION_THRESHOLD in Hl. lia.
Qed.

Lemma send_init_ok (c : VpnClient.t) accepted id ty payload fs :
  (forall i, accepted i = true) -> FRAGMENTATION_THRESHOLD < len payload ->
  split_payload ty id payload = Ok fs ->
  VpnClient.send_init accepted id ty payload c =
    (VpnClient.with_sent c (VpnClient.sent c ++ fragment_packets fs), Ok tt).
Proof.
  intros Ha Hl Hs. unfold VpnClient.send_init. rewrite (proj2 (Z.ltb_lt _ _)) by lia.
  unfold VpnClient.bind, VpnClient.lift, build_handshake_fragments. rewrite Hs. sbind. by apply send_fragments_ok.
Qed.

(** * The server takes the fragments *)

(** The server handles datagrams from one address, one after the other; none
    of them is forwarded to the tunnel. *)
Inductive serves (addr : SocketAddr.t) : VpnServer.t -> list (reading * list Z * list Z) -> VpnServer.t ->
    list sent -> Prop :=
| serves_nil s : serves addr s [] s []
| serves_cons s r pooled data l s1 out s2 out' :
    VpnServer.receive s r pooled data addr = (s1, Ok (out, None)) -> serves addr s1 l s2 out' ->
    serves addr s ((r, pooled, data) :: l) s2 (out ++ out').

(** A fragment in a datagram. *)
Lemma receive_fragment s r pooled f addr :
  HandshakeFragment.wf f ->
  VpnServer.receive s r pooled (wire0 MessageType.HandshakeFragment ++ HandshakeFragment.to_bytes f) addr =
  let is_new := negb (Reassembly.contains (VpnServer.fragment_reassembly s) addr (HandshakeFragment.frag_id f)) in
  let '(s1, allowed) := if is_new then VpnServer.allow s r addr else (s, true) in
  if negb allowed then (s1, Ok ([], None))
  else
    let '(reasm, completed) := Reassembly.insert (VpnServer.fragment_reassembly s1) (arrived_at r) addr f in
    let s2 := VpnServer.set_reassembly s1 reasm in
    let '(s3, out) :=
      let! completed := completed or s2 in
      match completed with
      | None => (s2, Ok [])
      | Some (ty, payload) =>
          VpnServer.handle_handshake_init_internal_prechecked s2 r (wire0 ty ++ payload) addr
      end in
    (s3, let? out := out in Ok (out, None)).
Proof.
  intros Hf. unfold VpnServer.receive, Workers.process_packet. rewrite frame_long, decode_wire0.
  cbn [PacketHeader.msg_type PacketHeader.new VpnServer.handle_control_message].
  assert (VpnServer.set_sessions s (VpnServer.sessions s) = s) as -> by by destruct s.
  unfold VpnServer.handle_handshake_fragment_internal. rewrite frame_long, decode_wire0. cbn [attempt].
  cbn [PacketHeader.msg_type PacketHeader.new]. rewrite bool_decide_true by done. cbn [negb]. cbv iota.
  rewrite frame_body. cbn [attempt]. rewrite <- (app_nil_r (HandshakeFragment.to_bytes f)).
  rewrite HandshakeFragment.from_bytes_to_bytes by done. cbn [attempt].
  destruct (if negb _ then _ else _) as [s1 allowed]. destruct allowed; cbn [negb]; cbv iota; [|done].
  destruct (Reassembly.insert _ _ _ _) as [reasm completed].
  destruct completed as [[[ty payload]|]|e|]; cbn [attempt]; try done.
  by rewrite packet_of_ok.
Qed.

Definition reassembled (fs : list HandshakeFragment.t) : list Z := concat (map HandshakeFragment.payload fs).

(** The fragment [f] comes after the fragments [p] of the same message. *)
Lemma fragment_step s r pooled f addr ty id fs p t0 :
  ServerSafety.ok s -> Reassembly.message ty id fs ->
  Reassembly.fits (Reassembly.config (VpnServer.fragment_reassembly s)) (len fs) ->
  NoDup (p ++ [f]) -> (forall g, g ∈ p ++ [f] -> g ∈ fs) ->
  Reassembly.in_progress (VpnServer.fragment_reassembly s) addr ty id fs p t0 ->
  (0 < len p -> saturating_sub (arrived_at r) t0 <=
     ReassemblerConfig.ttl (Reassembly.config (VpnServer.fragment_reassembly s))) ->
  (len p = 0 -> snd (VpnServer.allow s r addr) = true) -> len p < len fs ->
  exists s1, ServerSafety.ok s1 /\ ServerSafety.same_guards s s1 /\
    Reassembly.config (VpnServer.fragment_reassembly s1) = Reassembly.config (VpnServer.fragment_reassembly s) /\
    Reassembly.in_progress (VpnServer.fragment_reassembly s1) addr ty id fs (p ++ [f])
      (if len p =? 0 then arrived_at r else t0) /\
    VpnServer.receive s r pooled (wire0 MessageType.HandshakeFragment ++ HandshakeFragment.to_bytes f) addr =
      if len p + 1 =? len fs then
        let '(s3, out) :=
          VpnServer.handle_handshake_init_internal_prechecked s1 r (wire0 ty ++ reassembled fs) addr in
        (s3, let? out := out in Ok (out, None))
      else (s1, Ok ([], None)).
Proof.
  intros Hs Hm Hfit Hnd Hsub Hip Httl Hal Hlp.
  assert (f ∈ fs) as Hf by (apply Hsub, elem_of_app; right; by apply list_elem_of_singleton).
  destruct (Reassembly.message_index _ _ _ _ Hm Hf) as (_ & Hw & _ & Hid & _).
  rewrite receive_fragment by done. cbv zeta. rewrite Hid.
  set (x := if negb _ then _ else _).
  assert (ServerSafety.same_guards s (fst x) /\ snd x = true /\
    VpnServer.fragment_reassembly (fst x) = VpnServer.fragment_reassembly s) as (Hg & Hok & Hrea).
  { unfold x. unfold Reassembly.contains. unfold Reassembly.in_progress in Hip. rewrite Hip.
    destruct (decide _) as [[E|E]|E]; [|lia|done]. rewrite bool_decide_false by (by intros [? ?]).
    cbn [negb]. cbv iota. specialize (Hal E). pose proof (ServerSafety.allow_spec s r addr) as Hsp.
    destruct (VpnServer.allow s r addr) as [s1 b]. destruct Hsp as (? & ? & ? & ? & ? & ? & _). by split_and!. }
  destruct x as [s1 b]. cbn [fst snd] in Hg, Hok, Hrea. subst b. cbn [negb]. cbv iota.
  assert (ServerSafety.ok s1) as Hs1 by (eapply ServerSafety.ok_sessions; [apply Hg|exact Hrea|exact Hs]).
  destruct (Reassembly.insert_progress (VpnServer.fragment_reassembly s) addr ty id fs p f t0 (arrived_at r))
    as (rea & Hins & Hip' & Hc & _); try done.
  destruct (ServerSafety.ok_reassembly s Hs) as (hist & Hgood & Hhist).
  pose proof (Reassembly.insert_spec hist (VpnServer.fragment_reassembly s) (arrived_at r) addr f Hw Hgood) as Hi.
  rewrite Hins in Hi. destruct Hi as (Hgood' & _ & _).
  rewrite Hrea, Hins. exists (VpnServer.set_reassembly s1 rea). split_and!; try done; try apply Hg.
  - destruct Hs1 as [H1 H2 _]. split; try done. exists (hist ++ [(addr, f)]). split; [done|].
    apply Forall_app. split; [done|by apply Forall_singleton].
  - unfold Reassembly.step_result. rewrite len_app. change (len [f]) with 1.
    destruct (len p + 1 =? len fs); done.
Qed.

(** The datagrams that carry the fragments, with what the server reads of its
    clocks and random source while it handles them. *)
Definition arriving (l : list (reading * list Z * HandshakeFragment.t)) : list (reading * list Z * list Z) :=
  map (fun '(r, pooled, f) =>
    (r, pooled, wire0 MessageType.HandshakeFragment ++ HandshakeFragment.to_bytes f)) l.

Definition in_time (s : VpnServer.t) (t0 : Z) (l : list (reading * list Z * HandshakeFragment.t)) : Prop :=
  Forall (fun x => saturating_sub (arrived_at (fst (fst x))) t0 <=
    ReassemblerConfig.ttl (Reassembly.config (VpnServer.fragment_reassembly s))) l.

Lemma nodup_prefix {X} (p l fs : list X) f :
  p ++ f :: l ≡ₚ fs -> NoDup fs -> NoDup (p ++ [f]) /\ (forall g, g ∈ p ++ [f] -> g ∈ fs) /\
  len p + 1 + len l = len fs.
Proof.
  intros Hp Hnd. rewrite <- Hp in Hnd. change (f :: l) with ([f] ++ l) in Hnd. rewrite app_assoc in Hnd.
  apply NoDup_app in Hnd as [Hnd _]. split_and!; [done| |].
  - intros g Hg. rewrite <- Hp. change (f :: l) with ([f] ++ l). rewrite app_assoc. apply elem_of_app. by left.
  - apply Permutation_length in Hp. rewrite length_app in Hp. unfold len. simpl in Hp. lia.
Qed.

Lemma last_shift {X} (x : X) l d : List.last (x :: l) d = List.last l x.
Proof. revert x d. induction l as [|y l IH]; intros x d; [done|]. transitivity (List.last (y :: l) d); [done|]. by rewrite !IH. Qed.

Lemma same_guards_trans s s1 s2 :
  ServerSafety.same_guards s s1 -> ServerSafety.same_guards s1 s2 -> ServerSafety.same_guards s s2.
Proof. unfold ServerSafety.same_guards, ServerSafety.same_setup. intuition congruence. Qed.

(** The fragments of a message, in any order: the server handles the message
    they make up, with the reading of the last. *)
Lemma fragments_served addr ty id fs l : forall s p t0 r pooled f,
  ServerSafety.ok s -> Reassembly.message ty id fs ->
  Reassembly.fits (Reassembly.config (VpnServer.fragment_reassembly s)) (len fs) ->
  p ++ f :: map snd l ≡ₚ fs ->
  Reassembly.in_progress (VpnServer.fragment_reassembly s) addr ty id fs p t0 ->
  (len p = 0 -> snd (VpnServer.allow s r addr) = true) ->
  in_time s (if len p =? 0 then arrived_at r else t0) ((r, pooled, f) :: l) ->
  exists s1, ServerSafety.ok s1 /\ ServerSafety.same_guards s s1 /\ forall s2 out,
    VpnServer.handle_handshake_init_internal_prechecked s1 (List.last (map (fun x => fst (fst x)) l) r)
      (wire0 ty ++ reassembled fs) addr = (s2, Ok out) ->
    serves addr s (arriving ((r, pooled, f) :: l)) s2 out.
Proof.
  induction l as [|[[r' pooled'] f'] l IH]; intros s p t0 r pooled f Hs Hm Hfit Hperm Hip Hal Ht;
    apply Forall_cons in Ht as [Ht0 Ht]; cbn [fst] in Ht0;
    destruct (nodup_prefix p _ fs f Hperm (Reassembly.message_nodup _ _ _ Hm)) as (Hnd & Hsub & Hlen);
    (destruct (fragment_step s r pooled f addr ty id fs p t0) as (s1 & Hs1 & Hg & Hc & Hip1 & Hrec); try done;
      [by intros; rewrite (proj2 (Z.eqb_neq _ _)) in Ht0 by lia|
       match type of Hlen with _ + 1 + len ?x = _ => pose proof (len_nonneg x) end; lia|]).
  - change (len (map snd [])) with 0 in Hlen. rewrite (proj2 (Z.eqb_eq _ _)) in Hrec by lia.
    exists s1. split_and!; [done..|]. cbn [map List.last]. intros s2 out Hh. rewrite Hh in Hrec. cbn [rbind] in Hrec.
    rewrite <- (app_nil_r out). eapply serves_cons; [exact Hrec|constructor].
  - simpl map in Hlen. rewrite len_cons in Hlen. pose proof (len_nonneg (map snd l)).
    rewrite (proj2 (Z.eqb_neq _ _)) in Hrec by lia.
    set (t1 := if len p =? 0 then arrived_at r else t0) in *.
    assert ((len (p ++ [f]) =? 0) = false) as Hne.
    { apply Z.eqb_neq. rewrite len_app. change (len [f]) with 1. pose proof (len_nonneg p). lia. }
    destruct (IH s1 (p ++ [f]) t1 r' pooled' f') as (s2 & Hs2 & Hg2 & Hserve); try done.
    + by rewrite Hc.
    + by rewrite <- app_assoc.
    + by apply Z.eqb_neq in Hne.
    + rewrite Hne. unfold in_time. by rewrite Hc.
    + exists s2. split_and!; [done| |].
      * eapply same_guards_trans; done.
      * intros s3 out Hh. apply (serves_cons addr s r pooled _ _ s1 []); [exact Hrec|]. apply Hserve.
        rewrite <- Hh. cbn [map fst]. by rewrite last_shift.
Qed.

(** * The server answers *)

Lemma len_response level m :
  HandshakeResponse.wf level m ->
  bytes_ok (HandshakeResponse.to_bytes m) /\
  FRAGMENTATION_THRESHOLD < len (HandshakeResponse.to_bytes m) <= 20000.
Proof.
  intros Hw. split; [by eapply HandshakeResponse.response_bytes|].
  destruct Hw as (_ & Hct & Hl & _ & Hp & [_ Hs] & Hsl & _ & Hr & Hc & _ & Hk & _).
  unfold HandshakeResponse.to_bytes. cbv zeta. apply TunnelConfig.len_to_bytes in Hc.
  autorewrite with len. unfold SessionId.to_bytes. autorewrite with len.
  rewrite (HybridCiphertext.ct_len_to_bytes_raw _ Hct), Hl, Hp, Hs, Hsl, Hr, Hk.
  unfold U32_MAX, FRAGMENTATION_THRESHOLD. rewrite Z.min_l by lia. rewrite slice_all.
  set (n := len (TunnelConfig.to_bytes _)) in *. clearbody n.
  destruct level; cbv -[Z.add Z.le Z.lt]; lia.
Qed.

(** What the server hands out besides the addresses of the client. *)
Definition network_ok (s : VpnServer.t) : Prop :=
  let m := VpnServer.sessions s in
  let cfg := VpnServer.config s in
  TunnelConfig.address 4 (SessionManager.server_ip m) /\
  Forall (TunnelConfig.address 4) (ServerConfig.dns_servers cfg) /\
  len (ServerConfig.dns_servers cfg) <= MAX_DNS_SERVERS /\ u16 (ServerConfig.mtu cfg) /\
  match SessionManager.ipv6_allocator m, SessionManager.server_ipv6 m with
  | Some _, Some g =>
      TunnelConfig.address 16 g /\ Forall (TunnelConfig.address 16) (ServerConfig.dns_servers_v6 cfg) /\
      len (ServerConfig.dns_servers_v6 cfg) <= MAX_DNS_SERVERS
  | None, None => ServerConfig.dns_servers_v6 cfg = []
  | _, _ => False
  end.

(** A place for one more session, and an address of each family. *)
Definition room (m : SessionManager.t) : Prop :=
  SessionManager.session_count m < SessionManager.max_sessions m /\
  Z.of_nat (size (SessionManager.ip_to_session m)) < pool_capacity (SessionManager.ip_allocator m) /\
  forall a, SessionManager.ipv6_allocator m = Some a ->
    Z.of_nat (size (SessionManager.ipv6_to_session m)) < pool_capacity a.

Lemma v4_address m ip id :
  inv m -> SessionManager.ip_to_session m !! ip = Some id -> TunnelConfig.address 4 ip.
Proof.
  intros Hi Hip. destruct (inv_pool4 m Hi) as [_ (used & _ & Hd)].
  apply elem_of_dom_2 in Hip. rewrite Hd in Hip. apply elem_of_map in Hip as (o & -> & _).
  split; [apply be_bytes_ok|apply len_be_bytes].
Qed.

Lemma v6_address m ip id :
  inv m -> SessionManager.ipv6_to_session m !! ip = Some id -> TunnelConfig.address 16 ip.
Proof.
  intros Hi Hip. pose proof (inv_pool6 m Hi) as Hp.
  destruct (SessionManager.ipv6_allocator m) as [a|]; [|rewrite Hp in Hip; by apply lookup_empty_Some in Hip].
  destruct Hp as [(Hb & Hl & _) (used & _ & Hd)].
  apply elem_of_dom_2 in Hip. rewrite Hd in Hip. apply elem_of_map in Hip as (o & -> & _).
  unfold ipv6_at. split.
  - apply bytes_ok_app. split; [by apply bytes_ok_slice|apply be_bytes_ok].
  - rewrite len_app, len_be_bytes, len_slice by lia. lia.
Qed.

Lemma prefix_ok m a : inv m -> SessionManager.ipv6_allocator m = Some a -> u8 (Ipv6Allocator.prefix a).
Proof.
  intros Hi Ha. pose proof (inv_pool6 m Hi) as Hp. rewrite Ha in Hp. destruct Hp as [(_ & _ & _ & Hp) _].
  unfold uint. lia.
Qed.

Lemma remove_has_ipv6 m id :
  SessionManager.has_ipv6 (fst (SessionManager.remove_session m id)) = SessionManager.has_ipv6 m.
Proof.
  unfold SessionManager.remove_session. destruct (SessionManager.sessions m !! id) as [old|]; [|done]. simpl.
  unfold SessionManager.drop_session, SessionManager.emit_lifecycle, SessionManager.has_ipv6.
  destruct (SessionManager.lifecycle_cb _); simpl;
    by destruct (ClientSession.tunnel_ipv6 old), (SessionManager.ipv6_allocator m).
Qed.

(** A session for a table with room. *)
Lemma created_session m k session addr level :
  DataPath.healthy m -> Session.wf session ->
  room (fst (SessionManager.remove_session m (Session.session_id session))) ->
  exists m' ip ip6 c,
    SessionManager.create_session_dual_stack_with_level m k session addr level = (m', Ok (ip, ip6)) /\
    DataPath.healthy m' /\ SessionManager.get_session m' (Session.session_id session) = Some c /\
    ClientSession.session c = session /\ ClientSession.client_addr c = addr /\
    ClientSession.security_level c = level /\ ClientSession.tunnel_ip c = ip /\
    ClientSession.tunnel_ipv6 c = ip6 /\ TunnelConfig.address 4 ip /\
    match ip6 with
    | Some ip6 => TunnelConfig.address 16 ip6 /\ SessionManager.has_ipv6 m = true
    | None => SessionManager.has_ipv6 m = false
    end.
Proof.
  intros Hm Hw (Hmax & H4 & H6).
  destruct (SessionManager.create_session_dual_stack_with_level m k session addr level) as [m' x] eqn:Ec.
  destruct (create_spec _ _ _ _ _ _ _ (proj1 Hm) Ec) as [Hi Hc].
  destruct (ServerSafety.create_ok _ _ _ _ _ _ _ Hm Hw Ec) as (Hh & _ & Hx).
  destruct x as [[ip ip6]|e|]; [|exfalso|done].
  - exists m', ip, ip6. eexists. split; [done|].
    destruct Hc as (_ & _ & _ & E4 & _ & E6). split_and!; try done.
    + apply (v4_address m' ip (Session.session_id session)); [done|]. rewrite E4. apply lookup_insert_eq.
    + rewrite remove_has_ipv6 in E6. destruct ip6 as [ip6|]; [|done]. destruct E6 as (Hh6 & _ & E6).
      split; [|done]. apply (v6_address m' ip6 (Session.session_id session)); [done|].
      rewrite E6. apply lookup_insert_eq.
  - destruct Hc as (_ & _ & _ & _ & [[_ Hf]|[(_ & _ & Hf)|(_ & _ & a & Ha & Hf)]]); [lia|lia|].
    specialize (H6 a Ha). lia.
Qed.

(** The credentials of [creds] are right, and nothing fails when the server
    checks them. *)
Definition welcome (s : VpnServer.t) (r : reading) (level : SecurityLevel.t) (random : list Z)
    (creds : option Credentials.t) (addr : SocketAddr.t) : Prop :=
  VpnServer.security_level_accepted s level = true /\
  snd (HandshakeReplayCache.check_and_insert (VpnServer.handshake_replay s) (replay_clock r) random) = true /\
  forall store, VpnServer.user_store s = Some store -> exists c, creds = Some c /\
    ServerSafety.verified s r store (Credentials.username c) (Credentials.password c) addr /\
    join_error r = false /\ select_fault r = None /\ update_fault r = None.

Lemma verified_authenticated s r store u p addr :
  ServerSafety.verified s r store u p addr -> join_error r = false -> select_fault r = None ->
  update_fault r = None -> snd (VpnServer.authenticate_credentials s r store u p addr) = true.
Proof.
  intros (Hlo & row & Hrow & Hen & Hlock & Hh) Hj Hs Hu. unfold VpnServer.authenticate_credentials.
  rewrite Hlo, Hj, Hs, Hu. unfold UserStore.verify_password. rewrite Hrow.
  replace (match UserRow.locked_until row with Some _ => _ | None => false end) with false.
  2:{ destruct (UserRow.locked_until row) as [lim|]; [|done]. symmetry. apply Z.ltb_ge. by apply Hlock. }
  rewrite Hen, Hh. by repeat case_match.
Qed.

Lemma welcome_accepted s r init creds addr :
  HandshakeInit.wf init ->
  welcome s r (HandshakeInit.security_level init) (HandshakeInit.client_random init) creds addr ->
  carries s (HandshakeInit.security_level init) init creds ->
  exists s1, VpnServer.accept_init s r init addr = (s1, Ok tt) /\ ServerSafety.same_setup s s1 /\
    VpnServer.sessions s1 = VpnServer.sessions s /\
    VpnServer.fragment_reassembly s1 = VpnServer.fragment_reassembly s.
Proof.
  intros Hw (Hl & Hre & Hcr) Hc. pose proof (ServerSafety.accept_init_spec s r init addr Hw) as Hsp.
  assert (snd (VpnServer.accept_init s r init addr) = Ok tt) as Hok.
  { unfold VpnServer.accept_init. rewrite Hl. cbn [negb]. cbv iota.
    destruct (HandshakeReplayCache.check_and_insert _ _ _) as [cache fresh]. cbn [snd] in Hre. subst fresh.
    cbn [negb]. cbv iota. unfold VpnServer.check_credentials. cbn [VpnServer.user_store VpnServer.set_replay].
    destruct (VpnServer.user_store s) as [store|]; [|done].
    destruct (Hcr store eq_refl) as (c & -> & Hv & Hj & Hs & Hu).
    destruct (Hc c eq_refl) as (ec & ksk & kpk & He & Hk & Hd).
    change (VpnServer.kem_keypair_for_level (VpnServer.set_replay s cache)) with (VpnServer.kem_keypair_for_level s).
    rewrite Hk, He. cbn [ok_or rbind fst]. rewrite Hd. cbn [map_err DecryptedCredentials.username DecryptedCredentials.password].
    pose proof (verified_authenticated (VpnServer.set_replay s cache) r store (Credentials.username c)
      (Credentials.password c) addr Hv Hj Hs Hu) as Ha.
    destruct (VpnServer.authenticate_credentials _ _ _ _ _ _) as [s1 b]. cbn [snd] in *. by subst b. }
  destruct (VpnServer.accept_init s r init addr) as [s1 x]. cbn [snd] in Hok. subst x. exists s1.
  destruct Hsp as (? & ? & ? & _). by split_and!.
Qed.

(** What the server reads while it answers. *)
Definition answers_with (r : reading) : Prop :=
  ServerSafety.reading_ok r /\ len (x25519_rng r) = 32 /\ (exists ts, unix_secs r = Some ts /\ u64 ts) /\
  u32 (response_frag_id r) /\ forall i, accepts r i = true.

Lemma enqueue_all {X} (ok : nat -> bool) (l : list X) i : (forall i, ok i = true) -> enqueue ok i l = l.
Proof. intros Ha. revert i. induction l as [|x l IH]; intros i; [done|]. simpl. by rewrite Ha, IH. Qed.

Lemma encode_response_fragments id level m sid :
  HandshakeResponse.wf level m -> u32 id ->
  exists fs, fragments_of MessageType.HandshakeResponse id (HandshakeResponse.to_bytes m) fs /\
    encode_handshake_response_as_packets id m sid = Ok (fragment_packets fs).
Proof.
  intros Hw Hid. destruct (len_response _ _ Hw) as [Hb Hl].
  destruct (split_fragments MessageType.HandshakeResponse id (HandshakeResponse.to_bytes m))
    as (fs & Hs & Hf); try done; [unfold FRAGMENTATION_THRESHOLD in Hl; lia|].
  exists fs. split; [done|]. unfold encode_handshake_response_as_packets. cbv zeta.
  rewrite (proj2 (Z.leb_gt _ _)) by lia. unfold build_handshake_fragments. rewrite Hs. cbn [rbind map_err].
  rewrite packets_of_ok. cbn [map_err]. f_equal. unfold fragment_packets. by rewrite map_map.
Qed.

(** The session of the table, and what the client is told about it. *)
Definition opened (s : VpnServer.t) (r : reading) (addr : SocketAddr.t) (level : SecurityLevel.t)
    (keys : SessionKeys.t) (cfg : TunnelConfig.t) (s' : VpnServer.t) : Prop :=
  ServerSafety.same_setup s s' /\ DataPath.healthy (VpnServer.sessions s') /\
  exists c, SessionManager.get_session (VpnServer.sessions s') (generated_id r) = Some c /\
    Session.new (now (table_clock r)) (generated_id r) (SessionKeys.swap keys) = Ok (ClientSession.session c) /\
    ClientSession.client_addr c = addr /\ ClientSession.security_level c = level /\
    ClientSession.tunnel_ip c = TunnelConfig.client_ipv4 cfg /\
    ClientSession.tunnel_ipv6 c = TunnelConfig.client_ipv6 cfg.

(** The configuration sent with the addresses of the session. *)
Lemma assigned_config s config ip ip6 :
  ServerSafety.ok s -> network_ok s -> VpnServer.initial_config s = Ok config ->
  TunnelConfig.address 4 ip ->
  match ip6 with
  | Some ip6 => TunnelConfig.address 16 ip6 /\ SessionManager.has_ipv6 (VpnServer.sessions s) = true
  | None => SessionManager.has_ipv6 (VpnServer.sessions s) = false
  end ->
  exists cfg, (forall m, HandshakeResponse.config m = config -> VpnServer.assign m ip ip6 = with_config m cfg) /\
    TunnelConfig.wf cfg /\ TunnelConfig.client_ipv4 cfg = ip /\ TunnelConfig.client_ipv6 cfg = ip6.
Proof.
  intros Hs (Hgw & Hdns & Hdl & Hmtu & H6) Hc Hip Hip6. unfold VpnServer.initial_config in Hc.
  destruct (ServerSafety.netmask_ok s Hs) as (mask & Hmask & Hml & Hmb). rewrite Hmask in Hc. cbn [rbind] in Hc.
  injection Hc as <-. eexists. split; [intros m Hm; unfold VpnServer.assign; by rewrite Hm|].
  split; [|done]. unfold TunnelConfig.wf, TunnelConfig.ipv6_wf, SessionManager.ipv6_prefix.
  cbn [TunnelConfig.client_ipv4 TunnelConfig.netmask_ipv4 TunnelConfig.gateway_ipv4 TunnelConfig.dns_ipv4
    TunnelConfig.client_ipv6 TunnelConfig.prefix_len_ipv6 TunnelConfig.gateway_ipv6 TunnelConfig.dns_ipv6
    TunnelConfig.mtu]. split_and!; try done.
  unfold SessionManager.has_ipv6 in Hip6. pose proof (prefix_ok (VpnServer.sessions s)) as Hpre.
  destruct (SessionManager.ipv6_allocator (VpnServer.sessions s)) as [a|], ip6 as [ip6|];
    try (by destruct Hip6); destruct (SessionManager.server_ipv6 _) as [g|]; try done.
  cbn [option_map]. destruct Hip6 as [Hip6 _], H6 as (Hg & Hd & Hdl6). split_and!; try done.
  apply Hpre; [|done]. apply (proj1 (ServerSafety.ok_table s Hs)).
Qed.

Lemma init_answered s r init addr seedS x seed sk epk :
  let level := HandshakeInit.security_level init in
  ServerSafety.ok s -> answers_with r -> network_ok s ->
  room (fst (SessionManager.remove_session (VpnServer.sessions s) (generated_id r))) ->
  VpnServer.keypair_for_level s level = MlDsaKeypair.generate_with_level seedS level ->
  HybridKem.generate_keypair_with_level x seed level = Ok (sk, epk) ->
  HandshakeInit.client_ephemeral_pk init = epk -> len x = 32 ->
  exists s' m keys cfg fs,
    VpnServer.answer_init s r init addr = (s', Ok (map (fun p => (p, addr)) (fragment_packets fs))) /\
    fragments_of MessageType.HandshakeResponse (response_frag_id r) (HandshakeResponse.to_bytes m) fs /\
    answers level sk (HandshakeInit.client_random init) (generated_id r) cfg keys m /\
    HandshakeResponse.server_static_pk m =
      MlDsaKeypair.public_key (MlDsaKeypair.generate_with_level seedS level) /\
    opened s r addr level keys cfg s'.
Proof.
  intros level Hs ((Hid & Hsr & Hsl) & Hx' & (ts & Hts & Hts64) & Hfid & Hacc) Hnet Hroom Hkp Hg Hpk Hx.
  unfold VpnServer.answer_init. fold level.
  destruct (VpnServer.initial_config s) as [config|e|] eqn:Econf.
  2:{ destruct e. }
  2:{ unfold VpnServer.initial_config in Econf.
      destruct (ServerSafety.netmask_ok s Hs) as (mask & Hmask & _). by rewrite Hmask in Econf. }
  cbn [attempt]. rewrite Hts.
  destruct (process_init_core (ServerHandshake.new (cookie_secret r) (handshake_instant r)
      (VpnServer.keypair_for_level s level)) seedS level x seed sk epk init (server_random r) (x25519_rng r)
      (mlkem_rng r) (sign_rng r) ts (generated_id r) config)
    as (m & keys & -> & Hmc & Hans & _); try done.
  cbn [attempt]. assert (SessionKeys.wf keys) as Hkw by apply Hans.
  destruct (Session.new_ok (now (table_clock r)) (generated_id r) _ Hid (SessionKeys.swap_wf _ Hkw))
    as (session & Hsn & Hw & _ & _ & Hsid & _). rewrite Hsn. cbn [attempt].
  destruct (created_session (VpnServer.sessions s) (table_clock r) session addr level)
    as (tab & ip & ip6 & c & -> & Hh & Hget & Hc & Hca & Hcl & Hc4 & Hc6 & Hip & Hip6);
    [apply (ServerSafety.ok_table s Hs)|done|by rewrite Hsid|]. rewrite Hsid in Hget. cbn [attempt].
  destruct (assigned_config s config ip ip6 Hs Hnet Econf Hip Hip6) as (cfg & Hasg & Hcw & E4 & E6).
  rewrite (Hasg m Hmc). rewrite Hkp.
  destruct (refreshed_response_answers seedS level sk (HandshakeInit.client_random init) (generated_id r) keys
    (refresh_rng r) m cfg Hans Hcw) as (m2 & Href & Hspk & Ha).
  change (SessionKeys.send_key (SessionKeys.swap keys)) with (SessionKeys.recv_key keys).
  rewrite Href. cbn [attempt].
  destruct (encode_response_fragments (response_frag_id r) level m2 (generated_id r)) as (fs & Hf & Henc);
    [apply Ha|done|]. rewrite Henc. cbn [attempt]. rewrite enqueue_all, Nat.eqb_refl by done.
  exists (VpnServer.set_sessions s tab), m2, keys, cfg, fs. unfold opened. split_and!; try done.
  exists c. rewrite Hc. split_and!; try done; by etransitivity.
Qed.

(** * The client takes the answer *)

Definition arrivals (l : list (Z * SocketAddr.t * HandshakeFragment.t)) : list Arrival.t :=
  map (fun '(now, from, f) => Arrival.Datagram now
    (wire0 MessageType.HandshakeFragment ++ HandshakeFragment.to_bytes f) from) l.

(** The datagrams come from the server's address (any port), in time. *)
Definition from_server (server : SocketAddr.t) (t0 : Z) (l : list (Z * SocketAddr.t * HandshakeFragment.t)) : Prop :=
  Forall (fun '(now, from, _) => SocketAddr.ip from = SocketAddr.ip server /\
    saturating_sub now t0 <= ReassemblerConfig.ttl ReassemblerConfig.client_default) l.

Lemma fragment_received w now f id fs p t0 :
  Reassembly.message MessageType.HandshakeResponse id fs -> len fs <= MAX_FRAGMENTS_PER_HANDSHAKE ->
  Reassembly.config (reassembler w) = ReassemblerConfig.client_default ->
  NoDup (p ++ [f]) -> (forall g, g ∈ p ++ [f] -> g ∈ fs) ->
  Reassembly.in_progress (reassembler w) peer_key MessageType.HandshakeResponse id fs p t0 ->
  (0 < len p -> saturating_sub now t0 <= ReassemblerConfig.ttl ReassemblerConfig.client_default) ->
  ignored w = len p ->
  exists re, Reassembly.config re = ReassemblerConfig.client_default /\
    Reassembly.in_progress re peer_key MessageType.HandshakeResponse id fs (p ++ [f])
      (if len p =? 0 then now else t0) /\
    on_packet w now (wire0 MessageType.HandshakeFragment ++ HandshakeFragment.to_bytes f) =
      if len p + 1 =? len fs then Ok (inr (wire0 MessageType.HandshakeResponse ++ reassembled fs))
      else if MAX_IGNORED_DURING_HANDSHAKE <=? len p + 1 then Err ClientError.Handshake
      else Ok (inl (mk_waiting (len p + 1) re)).
Proof.
  intros Hm Hlen Hcfg Hnd Hsub Hip Ht Hig.
  assert (f ∈ fs) as Hf by (apply Hsub, elem_of_app; right; by apply list_elem_of_singleton).
  destruct (Reassembly.message_index _ _ _ _ Hm Hf) as (_ & Hw & Hty & Hid & _).
  unfold on_packet. rewrite frame_long, decode_wire0. cbn [map_err rbind PacketHeader.msg_type PacketHeader.new].
  rewrite frame_body. cbn [rbind]. rewrite <- (app_nil_r (HandshakeFragment.to_bytes f)).
  rewrite HandshakeFragment.from_bytes_to_bytes by done. rewrite Hty, bool_decide_true by done. cbn [negb]. cbv iota.
  destruct (Reassembly.insert_progress (reassembler w) peer_key MessageType.HandshakeResponse id fs p f t0 now)
    as (re & Hins & Hip' & Hc & _); try done.
  { rewrite Hcfg. split; [done|]. unfold MAX_FRAGMENTS_PER_HANDSHAKE in Hlen.
    cbn [ReassemblerConfig.max_entry_bytes ReassemblerConfig.client_default]. unfold MAX_FRAGMENT_PAYLOAD. lia. }
  { by rewrite Hcfg. }
  rewrite Hins. exists re. split_and!; [congruence|done|]. unfold Reassembly.step_result. rewrite len_app.
  change (len [f]) with 1. destruct (len p + 1 =? len fs).
  - rewrite framed_ok. done.
  - unfold ignore. cbn [ignored]. by rewrite Hig.
Qed.

Lemma response_received server id fs l : forall w p t0 now from f,
  Reassembly.message MessageType.HandshakeResponse id fs -> len fs <= MAX_FRAGMENTS_PER_HANDSHAKE ->
  Reassembly.config (reassembler w) = ReassemblerConfig.client_default -> ignored w = len p ->
  p ++ f :: map snd l ≡ₚ fs ->
  Reassembly.in_progress (reassembler w) peer_key MessageType.HandshakeResponse id fs p t0 ->
  from_server server (if len p =? 0 then now else t0) ((now, from, f) :: l) ->
  wait_response server w 0 (arrivals ((now, from, f) :: l)) =
    Ok (Some (wire0 MessageType.HandshakeResponse ++ reassembled fs)).
Proof.
  induction l as [|[[now' from'] f'] l IH]; intros w p t0 now from f Hm Hlen Hcfg Hig Hperm Hip Hall;
    apply Forall_cons in Hall as [[Hfrom Ht0] Hall];
    destruct (nodup_prefix p _ fs f Hperm (Reassembly.message_nodup _ _ _ Hm)) as (Hnd & Hsub & Hl);
    (destruct (fragment_received w now f id fs p t0) as (re & Hc & Hip' & Hon); try done;
      [by intros; rewrite (proj2 (Z.eqb_neq _ _)) in Ht0 by lia|]);
    cbn [arrivals map wait_response]; unfold recv_from_server_scoped; rewrite Hfrom, bool_decide_true by done;
    rewrite Hon; pose proof (len_nonneg p).
  - change (len (map snd [])) with 0 in Hl. by rewrite (proj2 (Z.eqb_eq _ _)) by lia.
  - simpl map in Hl. rewrite len_cons in Hl. pose proof (len_nonneg (map snd l)).
    rewrite (proj2 (Z.eqb_neq _ _)) by lia.
    rewrite (proj2 (Z.leb_gt _ _)) by (unfold MAX_IGNORED_DURING_HANDSHAKE, MAX_FRAGMENTS_PER_HANDSHAKE in *; lia).
    cbn [rbind]. set (t1 := if len p =? 0 then now else t0) in *.
    apply (IH (mk_waiting (len p + 1) re) (p ++ [f]) t1); try done.
    + cbn [ignored]. by rewrite len_app.
    + by rewrite <- app_assoc.
    + rewrite (proj2 (Z.eqb_neq _ _)); [done|]. rewrite len_app. change (len [f]) with 1. lia.
Qed.

(** * Connecting *)

Lemma set_state_fields st (c : VpnClient.t) :
  exists ev, VpnClient.set_state st c = (VpnClient.with_events (VpnClient.with_state c st) ev, Ok tt).
Proof.
  unfold VpnClient.set_state, VpnClient.bind, VpnClient.gets. destruct (bool_decide _) eqn:E; b2p.
  - exists (VpnClient.events c). destruct c. simpl in E. by subst.
  - by eexists.
Qed.

(** A handshake that succeeds leaves the client connected. *)
Lemma connect_ok (c : VpnClient.t) clk d accepted net creds pkts sid keys cfg :
  VpnClient.state c <> ClientState.Connected -> VpnClient.connect_in_progress c = false ->
  (forall cr, creds = Some cr -> Credentials.validate cr = Ok tt) -> u64 sid -> SessionKeys.wf keys ->
  (forall c0, VpnClient.config c0 = VpnClient.config c ->
     VpnClient.server_public_key c0 = VpnClient.server_public_key c ->
     VpnClient.perform_handshake d accepted net creds c0 =
       (VpnClient.with_sent c0 (VpnClient.sent c0 ++ pkts), Ok (sid, keys, cfg))) ->
  exists c' sc, VpnClient.connect_with_credentials clk d accepted net creds c = (c', Ok (TunnelInfo.from cfg)) /\
    VpnClient.state c' = ClientState.Connected /\ VpnClient.connect_in_progress c' = false /\
    VpnClient.tunnel_info c' = Some (TunnelInfo.from cfg) /\ VpnClient.session c' = Some sc /\
    Session.new (clk 0%nat) sid keys = Ok sc /\ VpnClient.sent c' = VpnClient.sent c ++ pkts.
Proof.
  intros Hst Hbusy Hcr Hid Hk Hp. unfold VpnClient.connect_with_credentials, VpnClient.bind at 1, VpnClient.gets.
  rewrite bool_decide_false, Hbusy by done. unfold VpnClient.bind at 1, VpnClient.modify at 1.
  replace (match creds with Some _ => _ | None => _ end) with (Ok (E:=ClientError.t) tt)
    by (destruct creds; [by rewrite Hcr|done]).
  unfold VpnClient.bind at 1. match goal with |- context [VpnClient.set_state ?st ?c0] =>
    destruct (set_state_fields st c0) as [ev ->] end.
  unfold VpnClient.bind at 1, VpnClient.try. rewrite Hp by done.
  destruct (Session.new_ok (clk 0%nat) sid keys Hid Hk) as (sc & Hsc & _). rewrite Hsc.
  unfold VpnClient.bind at 1, VpnClient.lift. cbn [map_err].
  unfold VpnClient.bind at 1, VpnClient.modify at 1, VpnClient.bind at 1, VpnClient.update_stats, VpnClient.modify at 1.
  unfold VpnClient.bind at 1. match goal with |- context [VpnClient.set_state ?st ?c0] =>
    destruct (set_state_fields st c0) as [ev' ->] end.
  do 2 eexists. split; [reflexivity|]. by split_and!.
Qed.

(** The handshake of a client whose answer arrives. *)
Lemma perform_handshake_ok (c : VpnClient.t) d accepted net creds hs ty payload fs m sk epk sid keys cfg :
  let level := ClientConfig.security_level (VpnClient.config c) in
  VpnClient.init_message (VpnClient.config c) (VpnClient.server_public_key c) d creds = Ok (hs, ty, payload) ->
  VpnClient.send_init accepted (init_frag_id d) ty payload c =
    (VpnClient.with_sent c (VpnClient.sent c ++ fragment_packets fs), Ok tt) ->
  awaits hs (VpnClient.config c) (VpnClient.server_public_key c) d sk epk ->
  wait_response (ClientConfig.server_addr (VpnClient.config c))
    (mk_waiting 0 (Reassembly.new ReassemblerConfig.client_default)) 0 net =
    Ok (Some (wire0 MessageType.HandshakeResponse ++ HandshakeResponse.to_bytes m)) ->
  answers level sk (init_random d) sid cfg keys m ->
  HandshakeResponse.server_static_pk m = VpnClient.server_public_key c ->
  VpnClient.perform_handshake d accepted net creds c =
    (VpnClient.with_sent c (VpnClient.sent c ++ fragment_packets fs), Ok (sid, keys, cfg)).
Proof.
  intros level Hi Hsend (Hst & Hkp & Hcr & Hl & Hpin & _) Hwait Ha Hspk.
  unfold VpnClient.perform_handshake, VpnClient.bind at 1, VpnClient.gets. unfold VpnClient.bind at 1, VpnClient.lift at 1.
  rewrite Hi. unfold VpnClient.bind at 1. rewrite Hsend. unfold VpnClient.bind at 1, VpnClient.lift at 1. rewrite Hwait.
  unfold VpnClient.bind, VpnClient.lift, VpnClient.decode_handshake_response.
  rewrite frame_long, decode_wire0. cbn [map_err rbind]. rewrite frame_body. cbn [rbind].
  rewrite <- (app_nil_r (HandshakeResponse.to_bytes m)). rewrite HandshakeResponse.response_roundtrip by apply Ha.
  cbn [map_err]. destruct (process_response_answers hs level sk epk (init_random d) sid cfg keys m)
    as (hs' & -> & _); try done; [by left|right; congruence].
Qed.

(** The deliveries of the client's fragments [fs] to the server, in any order:
    the first is admitted by the rate limiter, all are in time, and the last
    one finds a server that can answer. *)
Definition delivered (s : VpnServer.t) (addr : SocketAddr.t) (level : SecurityLevel.t) (random : list Z)
    (creds : option Credentials.t) (fs : list HandshakeFragment.t)
    (l : list (reading * list Z * HandshakeFragment.t)) (r : reading) : Prop :=
  exists r0 pooled f l0, l = (r0, pooled, f) :: l0 /\ map snd l ≡ₚ fs /\
    r = List.last (map (fun x => fst (fst x)) l0) r0 /\
    snd (VpnServer.allow s r0 addr) = true /\ in_time s (arrived_at r0) l /\
    answers_with r /\ welcome s r level random creds addr /\
    room (fst (SessionManager.remove_session (VpnServer.sessions s) (generated_id r))).

Lemma welcome_same s s1 r level random creds addr :
  ServerSafety.same_guards s s1 -> welcome s r level random creds addr -> welcome s1 r level random creds addr.
Proof.
  intros ((Ec & _) & _ & Eu & El & Er) (H1 & H2 & H3). unfold welcome.
  unfold VpnServer.security_level_accepted, VpnServer.min_security_level, ServerSafety.verified in *.
  by rewrite Ec, Eu, El, Er.
Qed.

Lemma keypairs_same s s1 level :
  ServerSafety.same_setup s s1 ->
  VpnServer.keypair_for_level s1 level = VpnServer.keypair_for_level s level /\
  VpnServer.kem_keypair_for_level s1 level = VpnServer.kem_keypair_for_level s level.
Proof. intros (_ & E1 & E2 & E3 & E4). by destruct level. Qed.

Lemma network_same s s1 :
  ServerSafety.same_setup s s1 -> VpnServer.sessions s1 = VpnServer.sessions s -> network_ok s -> network_ok s1.
Proof. intros (Ec & _) Es. unfold network_ok. by rewrite Ec, Es. Qed.

(** The whole message, when its last fragment is there. *)
Lemma prechecked_answered s r ty payload init hidden creds addr seedS x seed sk epk :
  let level := HandshakeInit.security_level init in
  ServerSafety.ok s -> bytes_ok payload -> VpnServer.parse_init s (wire0 ty ++ payload) = Ok (init, hidden) ->
  welcome s r level (HandshakeInit.client_random init) creds addr -> carries s level init creds ->
  answers_with r -> network_ok s ->
  room (fst (SessionManager.remove_session (VpnServer.sessions s) (generated_id r))) ->
  VpnServer.keypair_for_level s level = MlDsaKeypair.generate_with_level seedS level ->
  HybridKem.generate_keypair_with_level x seed level = Ok (sk, epk) ->
  HandshakeInit.client_ephemeral_pk init = epk -> len x = 32 ->
  exists s' m keys cfg gs,
    VpnServer.handle_handshake_init_internal_prechecked s r (wire0 ty ++ payload) addr =
      (s', Ok (map (fun p => (p, addr)) (fragment_packets gs))) /\
    fragments_of MessageType.HandshakeResponse (response_frag_id r) (HandshakeResponse.to_bytes m) gs /\
    answers level sk (HandshakeInit.client_random init) (generated_id r) cfg keys m /\
    HandshakeResponse.server_static_pk m =
      MlDsaKeypair.public_key (MlDsaKeypair.generate_with_level seedS level) /\
    opened s r addr level keys cfg s'.
Proof.
  intros level Hs Hb Hp Hwel Hcar Hans Hnet Hroom Hkp Hg Hpk Hx.
  assert (HandshakeInit.wf init) as Hiw.
  { pose proof (ServerSafety.parse_init_yields s (wire0 ty ++ payload)) as Hy. rewrite Hp in Hy. apply Hy.
    apply bytes_ok_app. split; [apply bytes_ok_wire0|done]. }
  unfold VpnServer.handle_handshake_init_internal_prechecked. rewrite Hp. cbn [attempt].
  destruct (welcome_accepted s r init creds addr) as (s1 & -> & Hset & Hses & Hrea); try done. cbn [attempt].
  destruct (init_answered s1 r init addr seedS x seed sk epk) as (s' & m & keys & cfg & gs & Ha & Hf & Hm & Hpk' & Ho);
    try done.
  - by eapply ServerSafety.ok_sessions.
  - by eapply network_same.
  - by rewrite Hses.
  - fold level. by rewrite (proj1 (keypairs_same s s1 level Hset)).
  - exists s', m, keys, cfg, gs. split_and!; try done. destruct Ho as (Hset' & Ho).
    split; [by eapply ServerSafety.same_setup_trans|done].
Qed.

Lemma carries_same s s1 level init creds :
  ServerSafety.same_setup s s1 -> carries s level init creds -> carries s1 level init creds.
Proof.
  intros Hs Hc c Ec. destruct (Hc c Ec) as (ec & ksk & kpk & H1 & H2 & H3). exists ec, ksk, kpk.
  split_and!; try done. by rewrite (proj2 (keypairs_same s s1 level Hs)).
Qed.

Lemma fits_server ty id payload fs :
  fragments_of ty id payload fs -> Reassembly.fits ReassemblerConfig.server_default (len fs).
Proof.
  intros (_ & _ & Hl). unfold MAX_FRAGMENTS_PER_HANDSHAKE in Hl. split; [by apply Hl|].
  cbn [ReassemblerConfig.max_entry_bytes ReassemblerConfig.server_default]. unfold MAX_FRAGMENT_PAYLOAD. lia.
Qed.

Lemma started (rs : Reassembly.t (A:=SocketAddr.t)) addr ty id fs t0 :
  Reassembly.entries rs !! (addr, id) = None -> Reassembly.in_progress rs addr ty id fs [] t0.
Proof. intros He. unfold Reassembly.in_progress. rewrite He. by rewrite decide_True by (by left). Qed.

(** The server, given the fragments of the client's first message. *)
Lemma init_served s addr cfg pk d creds ty payload init hidden sk epk fs l r :
  let level := ClientConfig.security_level cfg in
  ServerSafety.ok s -> network_ok s -> paired cfg pk s ->
  Reassembly.config (VpnServer.fragment_reassembly s) = ReassemblerConfig.server_default ->
  Reassembly.entries (VpnServer.fragment_reassembly s) !! (addr, init_frag_id d) = None ->
  bytes_ok payload -> fragments_of ty (init_frag_id d) payload fs ->
  VpnServer.parse_init s (wire0 ty ++ payload) = Ok (init, hidden) ->
  HybridKem.generate_keypair_with_level (init_x25519 d) (init_mlkem d) level = Ok (sk, epk) ->
  len (init_x25519 d) = 32 -> HandshakeInit.client_ephemeral_pk init = epk ->
  HandshakeInit.client_random init = init_random d -> HandshakeInit.security_level init = level ->
  carries s level init creds -> delivered s addr level (init_random d) creds fs l r ->
  exists s' m keys tcfg gs,
    serves addr s (arriving l) s' (map (fun p => (p, addr)) (fragment_packets gs)) /\
    fragments_of MessageType.HandshakeResponse (response_frag_id r) (HandshakeResponse.to_bytes m) gs /\
    answers level sk (init_random d) (generated_id r) tcfg keys m /\
    HandshakeResponse.server_static_pk m = pk /\ opened s r addr level keys tcfg s'.
Proof.
  intros level Hs Hnet [(seedS & Hkp & Hpk) _] Hrc Hent Hb Hf Hp Hg Hx Hie Hir Hil Hcar
    (r0 & pooled & f & l0 & -> & Hperm & -> & Hal & Ht & Hans & Hwel & Hroom).
  pose proof Hf as (Hm & Hcat & _).
  destruct (fragments_served addr ty (init_frag_id d) fs l0 s [] 0 r0 pooled f)
    as (s1 & Hs1 & Hsg & Hserve); try done.
  { rewrite Hrc. by eapply fits_server. }
  set (r := List.last _ r0) in *. pose proof Hsg as (Hset & Hses & _). 
  fold level in Hkp, Hpk. clearbody level. subst level. rewrite <- Hir in *.
  destruct (prechecked_answered s1 r ty payload init hidden creds addr seedS (init_x25519 d) (init_mlkem d) sk epk)
    as (s' & m & keys & tcfg & gs & Hh & Hgf & Ha & Hspk & Ho); try done.
  - by rewrite (ServerSafety.parse_init_same s s1).
  - by eapply welcome_same.
  - by eapply carries_same.
  - by eapply network_same.
  - by rewrite Hses.
  - by rewrite (proj1 (keypairs_same s s1 _ Hset)).
  - exists s', m, keys, tcfg, gs. split_and!; try done.
    + apply Hserve. unfold reassembled. rewrite Hcat. exact Hh.
    + by rewrite Hpk.
    + destruct Ho as (Hset' & Ho). split; [by eapply ServerSafety.same_setup_trans|done].
Qed.

(** Both ends of a session: the client is connected, the server has the
    session in its table, bound to the client's address and to the tunnel
    addresses the client was told; [up] packets were sent by the client and
    [down] by the server, and each side accepts what the other sends next. *)
Definition connected (c : VpnClient.t) (s : VpnServer.t) (id : Z) (addr : SocketAddr.t) (up down : Z) : Prop :=
  VpnClient.state c = ClientState.Connected /\ DataPath.healthy (VpnServer.sessions s) /\
  exists sc entry info,
    VpnClient.session c = Some sc /\ SessionManager.get_session (VpnServer.sessions s) id = Some entry /\
    Session.in_step sc (ClientSession.session entry) /\ Session.session_id sc = id /\
    Session.send_counter sc = up /\ Session.send_counter (ClientSession.session entry) = down /\
    ClientSession.client_addr entry = addr /\ VpnClient.tunnel_info c = Some info /\
    TunnelInfo.client_ip info = ClientSession.tunnel_ip entry /\
    TunnelInfo.client_ipv6 info = ClientSession.tunnel_ipv6 entry.

(** C1: connecting, end to end: for a client that holds the server's public
    keys of its security level, with or without credentials and identity
    hiding: the client sends the fragments of one message; whatever the order
    in which they reach the server (in time, past the rate limiter, with
    credentials the user store accepts if there is one, and room for a
    session), the server answers with the fragments of one message; and
    whatever the order in which those reach the client, [connect] succeeds.
    Then client and server hold the two ends of one fresh session, bound to the
    client's address and to the tunnel addresses in the configuration the
    client got. *)
Theorem connect_end_to_end (c : VpnClient.t) (s : VpnServer.t) addr d creds :
  let cfg := VpnClient.config c in
  VpnClient.state c <> ClientState.Connected -> VpnClient.connect_in_progress c = false ->
  ServerSafety.ok s -> network_ok s -> paired cfg (VpnClient.server_public_key c) s ->
  draws_ok d -> creds_ok cfg creds ->
  VpnServer.security_level_accepted s (ClientConfig.security_level cfg) = true ->
  Reassembly.config (VpnServer.fragment_reassembly s) = ReassemblerConfig.server_default ->
  Reassembly.entries (VpnServer.fragment_reassembly s) !! (addr, init_frag_id d) = None ->
  exists fs, fs <> [] /\ forall l r,
    delivered s addr (ClientConfig.security_level cfg) (init_random d) creds fs l r ->
    exists s' gs, gs <> [] /\
      serves addr s (arriving l) s' (map (fun p => (p, addr)) (fragment_packets gs)) /\
      forall l' t0 clk accepted, map snd l' ≡ₚ gs -> hd 0 (map (fun x => fst (fst x)) l') = t0 ->
        from_server (ClientConfig.server_addr cfg) t0 l' -> (forall i, accepted i = true) ->
        exists c' info,
          VpnClient.connect_with_credentials clk d accepted (arrivals l') creds c = (c', Ok info) /\
          VpnClient.sent c' = VpnClient.sent c ++ fragment_packets fs /\
          connected c' s' (generated_id r) addr 0 0.
Proof.
  intros cfg Hst Hbusy Hs Hnet Hpair Hd Hcr Hacc Hrc Hent.
  destruct (init_message_ok cfg (VpnClient.server_public_key c) s d creds)
    as (hs & ty & payload & init & hidden & sk & epk & Hi & Hty & Hb & Hl & Hp & Haw & Hie & Hir & Hil & Hcar);
    try done.
  pose proof Hd as (Hx & _ & _ & _ & _ & Hfid). pose proof Haw as (_ & _ & _ & _ & _ & Hg).
  destruct (init_fragments ty (init_frag_id d) payload) as (fs & Hf & Hsplit); try done.
  exists fs. split; [intros ->; by destruct Hf as (_ & _ & [? _])|]. intros l r Hdel.
  destruct (init_served s addr cfg (VpnClient.server_public_key c) d creds ty payload init hidden sk epk fs l r)
    as (s' & m & keys & tcfg & gs & Hserve & (Hgm & Hgc & Hgl) & Ha & Hspk & (_ & Hh & entry & He & Hen & Hea & _ & He4 & He6));
    try done.
  exists s', gs. split; [intros ->; by destruct Hgl|]. split; [done|]. intros l' t0 clk accepted Hperm Ht0 Hfrom Hok.
  assert (u64 (generated_id r)) as Hsid by (destruct Hdel as (? & ? & ? & ? & _ & _ & _ & _ & _ & ((? & _) & _) & _); done).
  assert (SessionKeys.wf keys) as Hkw by apply Ha.
  destruct (connect_ok c clk d accepted (arrivals l') creds (fragment_packets fs) (generated_id r) keys tcfg)
    as (c' & sc & Hc & Hst' & _ & Hti & Hsess & Hnew & Hsent); try done.
  { intros cr E. by apply (Hcr cr). }
  { intros c0 E1 E2. eapply (perform_handshake_ok c0); rewrite ?E1, ?E2; try done.
    - apply send_init_ok; [done|lia|done].
    - destruct l' as [|[[now from] f] l']; [apply Permutation_nil_l in Hperm; subst gs; by destruct Hgl|].
      rewrite <- Hgc. eapply (response_received _ _ gs l' _ [] 0); try done.
      + apply Hgl.
      + simpl in Ht0. by subst t0. }
  exists c', (TunnelInfo.from tcfg). split_and!; try done.
  destruct (Session.new_in_step _ _ _ _ _ _ Hsid Hkw Hnew Hen) as (Hin & Hc0 & Hs0 & Hid).
  split_and!; try done. exists sc, entry, (TunnelInfo.from tcfg). by split_and!.
Qed.

(** * Traffic *)

Lemma encrypt_ok (c : VpnClient.t) sc ty payload output :
  VpnClient.session c = Some sc -> Session.wf sc -> Session.send_counter sc < Counter.MAX_SAFE ->
  bytes_ok payload -> len payload <= MAX_SEAL -> HEADER_SIZE + len payload + TAG_SIZE <= len output ->
  exists sc' packet, Session.gave sc sc' /\
    VpnClient.encrypt ty payload output c = (VpnClient.with_session c (Some sc'), Ok packet) /\
    Session.sealed_packet (Session.send_key sc) (SessionKeys.send_nonce_prefix (Session.keys sc))
      (PacketHeader.new ty (Session.session_id sc) (Session.key_id sc) (Session.send_counter sc)) payload packet.
Proof.
  intros Hs Hw Hc Hb Hm Hl.
  destruct (Session.encrypt_packet_ok sc ty payload output Hw Hc Hb Hm Hl) as (packet & rest & Hseal & Hlen & _ & He).
  do 2 eexists. split; [by eexists|]. split; [|exact Hseal]. unfold VpnClient.encrypt, VpnClient.on_session.
  rewrite Hs, He. cbn [map_err rbind]. rewrite <- Hlen.
  by rewrite (range_rest_at _ 0 packet rest) by (apply rest_at_start || lia).
Qed.

(** What the peer sealed is decrypted by the client. *)
Lemma decrypt_ok (c : VpnClient.t) sc ss ty payload packet now output :
  VpnClient.session c = Some sc -> Session.in_step ss sc -> Session.send_counter ss < Counter.MAX_SAFE ->
  bytes_ok payload -> len payload <= MAX_SEAL -> len payload + TAG_SIZE <= len output ->
  Session.sealed_packet (Session.send_key ss) (SessionKeys.send_nonce_prefix (Session.keys ss))
    (PacketHeader.new ty (Session.session_id ss) (Session.key_id ss) (Session.send_counter ss)) payload packet ->
  exists sc' rest, Session.took sc sc' (Session.send_counter ss) /\
    VpnClient.decrypt now packet output c =
      (VpnClient.with_session c (Some sc'), Ok (payload ++ rest, len payload)).
Proof.
  intros Hs Hin Hc Hb Hm Ho Hseal. pose proof (Session.in_step_valid _ _ Hin) as Hv.
  destruct Hin as (Ws & Wr & (Li & Lk & Lr & Lp) & _). rewrite <- Lr, <- Lp in Hseal.
  destruct (Session.decrypt_packet_sealed sc now _ payload packet output Wr
    (DataPath.sent_header_wf ss ty Ws Hc) eq_refl (eq_sym Li) (eq_sym Lk) Hb Hm Hseal Ho) as (rest & Hd).
  cbn [PacketHeader.counter PacketHeader.new] in Hd.
  rewrite Session.is_valid_counter_update in Hv. unfold Session.took.
  destruct (Session.update_recv_counter sc (Session.send_counter ss)) as [s1 ok]. simpl in Hv. subst ok.
  cbn [negb] in Hd. cbv iota in Hd. do 2 eexists. split; [by do 2 eexists|].
  unfold VpnClient.decrypt, VpnClient.on_session. rewrite Hs, Hd. done.
Qed.

Lemma gave_id s s' : Session.gave s s' -> Session.session_id s' = Session.session_id s.
Proof. by intros (? & ->). Qed.

Lemma took_id s s' n : Session.took s s' n -> Session.session_id s' = Session.session_id s.
Proof.
  intros (? & ? & -> & _). unfold Session.update_recv_counter. by destruct (AntiReplayWindow.check_and_update _ _).
Qed.

(** One packet moved: both sessions changed, the table entry only in its
    session and counters. *)
Lemma connected_put c c' s id e e' sc sc' info :
  VpnClient.state c' = VpnClient.state c -> VpnClient.tunnel_info c' = VpnClient.tunnel_info c ->
  VpnClient.session c' = Some sc' ->
  VpnClient.state c = ClientState.Connected -> VpnClient.tunnel_info c = Some info ->
  DataPath.healthy (VpnServer.sessions s) -> SessionManager.get_session (VpnServer.sessions s) id = Some e ->
  Session.session_id sc = id -> Session.session_id sc' = Session.session_id sc ->
  Session.session_id (ClientSession.session e') = Session.session_id (ClientSession.session e) ->
  TunnelInfo.client_ip info = ClientSession.tunnel_ip e -> TunnelInfo.client_ipv6 info = ClientSession.tunnel_ipv6 e ->
  DataPath.endpoint e' = DataPath.endpoint e -> DataPath.limit e' = DataPath.limit e ->
  Session.in_step sc' (ClientSession.session e') ->
  connected c' (VpnServer.set_sessions s (Workers.put (VpnServer.sessions s) id e')) id (ClientSession.client_addr e)
    (Session.send_counter sc') (Session.send_counter (ClientSession.session e')).
Proof.
  intros Es Et Hs' Hst Hti Hh He Hid Hid' Hide H4 H6 Hep Hlim Hin. pose proof Hep as [= E1 E2 E3 E4].
  split_and!; [congruence| |].
  - eapply DataPath.put_healthy; [done..|]. unfold DataPath.same. split_and!; [done..|apply Hin|done].
  - exists sc', e', info. cbn [VpnServer.sessions VpnServer.set_sessions].
    rewrite DataPath.put_get, decide_True by done. split_and!; try done; congruence.
Qed.

(** C2: traffic, end to end: between a connected client and its server, every
    packet from the client's tunnel address that [send_data] takes reaches the
    server's TUN device unchanged (within the rate limit of the session), and
    every packet of the TUN device for the client's tunnel address is handed
    unchanged to the client; in both cases the two stay connected, with the
    counter of that direction one further, so the same holds for the next
    packet, until the counter of a direction is used up. *)
Theorem tunnel_end_to_end (c : VpnClient.t) (s : VpnServer.t) id addr up down entry :
  connected c s id addr up down -> SessionManager.get_session (VpnServer.sessions s) id = Some entry ->
  (forall p buf pooled r,
     bytes_ok p -> len p <= MAX_PACKET_SIZE - 64 -> len buf = MAX_PACKET_SIZE -> len pooled = MAX_PACKET_SIZE ->
     up < Counter.MAX_SAFE -> DataPath.from_tunnel entry p ->
     DataPath.within_limit entry (now_us (table_clock r)) (len p) ->
     exists c' s' packet,
       VpnClient.send_data buf true p c = (c', Ok tt) /\
       VpnClient.sent c' = VpnClient.sent c ++ [packet] /\
       VpnServer.receive s r pooled packet addr = (s', Ok ([], Some p)) /\
       connected c' s' id addr (up + 1) down) /\
  (forall q buf out clk unix,
     bytes_ok q -> len q <= MAX_PACKET_SIZE - 64 -> len buf = MAX_PACKET_SIZE -> len out = MAX_PACKET_SIZE ->
     down < Counter.MAX_SAFE -> DataPath.to_tunnel entry q ->
     exists m' packet c' rest,
       Workers.tun_read_inline (VpnServer.sessions s) q buf = (m', Ok (Some (packet, addr))) /\
       VpnClient.process_packet clk unix packet out c =
         (c', Ok (q ++ rest, Some (MessageType.Data, len q))) /\
       connected c' (VpnServer.set_sessions s m') id addr up (down + 1)).
Proof.
  intros (Hst & Hh & sc & e & info & Hsc & He & Hin & Hid & Hup & Hdown & Ha & Hti & H4 & H6) He'.
  rewrite He in He'. injection He' as <-. pose proof (Session.in_step_valid _ _ Hin) as Hv.
  pose proof Hin as (Ws & Wr & Ls & Lr & _). unfold MAX_PACKET_SIZE. split.
  - intros p buf pooled r Hb Hl Hbuf Hpo Hlt Hsrc Hrl.
    destruct (encrypt_ok c sc MessageType.Data p buf) as (sc' & packet & Hg & Hen & Hseal); try done;
      try (unfold MAX_SEAL, HEADER_SIZE, TAG_SIZE; lia).
    destruct (DataPath.upload (VpnServer.sessions s) id e sc p packet (table_clock r) pooled)
      as (e' & Hu & Hep & Hlim & Ht); try done; try (unfold MAX_PACKET_SIZE, TAG_SIZE; lia).
    destruct (Session.in_step_transfer _ _ _ _ Hin ltac:(lia) Hg Ht) as (Hin' & Hc1 & Hc2).
    do 3 eexists. split_and!.
    + unfold VpnClient.send_data, VpnClient.bind at 1. rewrite Hen. reflexivity.
    + reflexivity.
    + unfold VpnServer.receive. rewrite <- Ha, Hu. reflexivity.
    + rewrite <- Hup, <- Hc1, <- Hdown, <- Hc2, <- Ha.
      by eapply (connected_put c _ s id e e' sc sc'); eauto using gave_id, took_id.
  - intros q buf out clk unix Hb Hl Hbuf Hout Hlt Hdst.
    destruct (DataPath.download (VpnServer.sessions s) id e q buf) as (e' & packet & Hd & Hep & Hlim & Hg & Hseal);
      try done; try (unfold MAX_PACKET_SIZE, HEADER_SIZE, TAG_SIZE; lia).
    destruct (DataPath.decode_sealed _ _ _ _ _ (DataPath.sent_header_wf _ _ Wr ltac:(lia)) eq_refl Hseal) as [Hde Hlen].
    destruct (decrypt_ok c sc (ClientSession.session e) MessageType.Data q packet (clk 0%nat) out)
      as (sc' & rest & Ht & Hdec); try done; try (unfold MAX_SEAL, TAG_SIZE; lia);
      [by apply Session.in_step_sym|].
    destruct (Session.in_step_transfer _ _ _ _ (Session.in_step_sym _ _ Hin) ltac:(lia) Hg Ht) as (Hin' & Hc1 & Hc2).
    do 4 eexists. split_and!.
    + rewrite Hd, Ha. reflexivity.
    + unfold VpnClient.process_packet. rewrite (proj2 (Z.ltb_ge _ _) Hlen). unfold VpnClient.bind at 1, VpnClient.lift.
      rewrite Hde. cbn [map_err PacketHeader.msg_type PacketHeader.new]. unfold VpnClient.bind at 1. rewrite Hdec. reflexivity.
    + rewrite <- Hup, <- Hc2, <- Hdown, <- Hc1, <- Ha.
      by eapply (connected_put c _ s id e e' sc sc'); eauto using gave_id, took_id, Session.in_step_sym.
Qed.

End Connect.

(** * Concrete peers *)

(** The server of a user "bob", with a KEM key of its own. *)
Definition example_kem : HybridSecretKey.t * HybridPublicKey.t :=
  match HybridKem.generate_keypair_with_level (replicate 32 1) [2] SecurityLevel.Level3 with
  | Ok kp => kp
  | _ => (HybridSecretKey.mk [] [] SecurityLevel.Level3, HybridPublicKey.mk [] [] SecurityLevel.Level3)
  end.

Definition example_auth_server : VpnServer.t :=
  VpnServer.mk (ServerConfig.mk "level3" [[10; 99; 0; 1]] [] 1420) example_manager
    (MlDsaKeypair.generate_with_level [8] SecurityLevel.Level3)
    (MlDsaKeypair.generate_with_level [9] SecurityLevel.Level5) (Some example_kem) None
    (HandshakeRateLimiter.new 0) HandshakeReplayCache.new (Reassembly.new ReassemblerConfig.server_default)
    (Some example_users) AuthLockoutTracker.with_production_defaults [].

(** A decoder that knows one key. *)
#[local] Instance ExampleBase64 : Base64 := {
  decode_standard s := if String.eqb s "kem" then Some (HybridPublicKey.to_bytes (snd example_kem)) else None;
}.

Definition example_client_config : ClientConfig.t :=
  ClientConfig.mk (SocketAddr.V4 [192; 0; 2; 1] 51820) "pk" 25 30 3600 1000000 3 true 5 5 false None 3
    SecurityLevel.Level3 (Some "kem"%string) [] true.

Definition example_vpn_client : VpnClient.t :=
  VpnClient.mk example_client_config
    (MlDsaKeypair.public_key (MlDsaKeypair.generate_with_level [8] SecurityLevel.Level3))
    ClientState.Disconnected None None [] false KeepaliveState.initial RekeyState.cleared StatsTracker.new 0
    None false false [].

Definition example_draws : draws :=
  mk_draws (replicate 32 3) [3] (replicate 32 9) (replicate 32 4) [4] (replicate 32 5) [5] 1234.

Definition example_credentials : Credentials.t := Credentials.mk [98; 111; 98] example_password.

Lemma example_auth_server_ok : ServerSafety.ok example_auth_server.
Proof.
  eapply ServerSafety.ok_sessions; [| |apply (ServerSafety.reach_ok _ example_server_reach)]; reflexivity.
Qed.

Lemma example_paired : paired example_client_config (VpnClient.server_public_key example_vpn_client) example_auth_server.
Proof.
  split; [by exists [8]|]. exists (Some (snd example_kem)). split; [vm_compute; reflexivity|].
  exists (replicate 32 1), [2], (fst example_kem). split_and!; vm_compute; reflexivity.
Qed.

Lemma example_delivered fs :
  fs <> [] ->
  delivered example_auth_server example_addr SecurityLevel.Level3 (init_random example_draws)
    (Some example_credentials) fs (map (fun f => (example_reading, [], f)) fs) example_reading.
Proof.
  destruct fs as [|f fs]; [done|]. intros _. exists example_reading, [], f, (map (fun f => (example_reading, [], f)) fs).
  split; [done|]. split; [by rewrite map_map, map_id|]. split.
  { rewrite map_map. simpl. clear. induction fs as [|g fs IH]; [done|]. cbn [map]. by rewrite last_shift. }
  split; [vm_compute; reflexivity|]. split.
  { change ((example_reading, [], f) :: _) with (map (fun f : HandshakeFragment.t => (example_reading, [] : list Z, f)) (f :: fs)).
    apply Forall_map, Forall_true. intros g. vm_compute. discriminate. }
  split.
  { split; [exact example_reading_ok|]. split; [by_decide|]. split; [by exists 1000|]. split; [by_decide|done]. }
  split.
  { split; [vm_compute; reflexivity|]. split; [vm_compute; reflexivity|]. intros store [= <-].
    exists example_credentials. split; [done|]. split; [|done]. split; [vm_compute; reflexivity|].
    exists (hd (UserRow.mk 0 [] [] 0 0 true 0 None) (UserStore.rows example_users)).
    split; [vm_compute; reflexivity|]. split; [vm_compute; reflexivity|]. split; [|vm_compute; reflexivity].
    intros lim Hl. vm_compute in Hl. discriminate Hl. }
  split; [vm_compute; reflexivity|]. split; [vm_compute; reflexivity|].
  intros a Ha. vm_compute in Ha. discriminate Ha.
Qed.

Lemma connect_end_to_end_witness :
  exists fs s' gs c' info,
    serves example_addr example_auth_server (arriving (map (fun f => (example_reading, [], f)) fs)) s'
      (map (fun p => (p, example_addr)) (fragment_packets gs)) /\
    VpnClient.connect_with_credentials (fun _ => 5) example_draws (fun _ => true)
      (arrivals (map (fun g => (7, SocketAddr.V4 [192; 0; 2; 1] 51820, g)) gs)) (Some example_credentials)
      example_vpn_client = (c', Ok info) /\
    connected c' s' 11 example_addr 0 0.
Proof.
  destruct (connect_end_to_end example_vpn_client example_auth_server example_addr example_draws
    (Some example_credentials)) as (fs & Hfs & Hd).
  - discriminate.
  - reflexivity.
  - exact example_auth_server_ok.
  - split_and!; by_decide || done.
  - exact example_paired.
  - split_and!; by_decide.
  - intros c [= <-]. split_and!; by_decide || (vm_compute; reflexivity).
  - vm_compute. reflexivity.
  - reflexivity.
  - reflexivity.
  - destruct (Hd _ _ (example_delivered fs Hfs)) as (s' & gs & Hgs & Hs & Hc).
    destruct (Hc (map (fun g => (7, SocketAddr.V4 [192; 0; 2; 1] 51820, g)) gs) 7 (fun _ => 5) (fun _ => true))
      as (c' & info & Hconn & _ & Hcd).
    + rewrite map_map, map_id. reflexivity.
    + destruct gs; [done|reflexivity].
    + apply Forall_map, Forall_true. intros g. split; [reflexivity|]. vm_compute. discriminate.
    + reflexivity.
    + exists fs, s', gs, c', info. split; [exact Hs|]. split; [exact Hconn|exact Hcd].
Defined.

(** A client of the session 7. *)
Definition example_connected_client : VpnClient.t :=
  VpnClient.with_state
    (VpnClient.with_tunnel (VpnClient.with_session example_vpn_client (Some example_client_session))
      (Some (TunnelInfo.mk [10; 99; 0; 2] [255; 255; 255; 0] [10; 99; 0; 1] [] None None None [] 1420)))
    ClientState.Connected.

Lemma example_connected :
  connected example_connected_client (example_vpn_server example_table) 7 example_addr 0 0.
Proof.
  split; [done|]. split; [exact example_table_healthy|].
  exists example_client_session, example_entry. eexists. split; [done|].
  split; [exact example_entry_found|]. split; [|done].
  apply (Session.new_in_step 5 5 7 example_keys); [by_decide|exact example_keys_wf|reflexivity|reflexivity].
Qed.

Lemma tunnel_end_to_end_witness :
  let p := example_ip_packet [10; 99; 0; 2] [1; 1; 1; 1] in
  let q := example_ip_packet [1; 1; 1; 1] [10; 99; 0; 2] in
  (exists c' s' packet,
     VpnClient.send_data example_buffer true p example_connected_client = (c', Ok tt) /\
     VpnServer.receive (example_vpn_server example_table) example_reading example_buffer packet example_addr =
       (s', Ok ([], Some p)) /\ connected c' s' 7 example_addr 1 0) /\
  (exists m' packet c' rest,
     Workers.tun_read_inline example_table q example_buffer = (m', Ok (Some (packet, example_addr))) /\
     VpnClient.process_packet (fun _ => 9) None packet example_buffer example_connected_client =
       (c', Ok (q ++ rest, Some (MessageType.Data, 20))) /\
     connected c' (VpnServer.set_sessions (example_vpn_server example_table) m') 7 example_addr 0 1).
Proof.
  intros p q.
  destruct (tunnel_end_to_end example_connected_client (example_vpn_server example_table) 7 example_addr 0 0
    example_entry example_connected example_entry_found) as [Hup Hdown].
  split.
  - destruct (Hup p example_buffer example_buffer example_reading) as (c' & s' & packet & H1 & _ & H2 & H3).
    + by_decide.
    + vm_compute. discriminate.
    + exact len_example_buffer.
    + exact len_example_buffer.
    + reflexivity.
    + left. vm_compute. reflexivity.
    + eapply DataPath.within_limit_intro. vm_compute. reflexivity.
    + exists c', s', packet. split; [exact H1|]. split; [exact H2|exact H3].
  - destruct (Hdown q example_buffer example_buffer (fun _ => 9) None) as (m' & packet & c' & rest & H1 & H2 & H3).
    + by_decide.
    + vm_compute. discriminate.
    + exact len_example_buffer.
    + exact len_example_buffer.
    + reflexivity.
    + left. vm_compute. reflexivity.
    + exists m', packet, c', rest. split; [exact H1|]. split; [exact H2|exact H3].
Defined.
