(* ===== verification/ClientSafety.v ===== *)
(** Nothing a server or an attacker sends aborts the client, and every
    operation of the client keeps its invariant; what a datagram must be to
    have an effect; reconnection ends. *)

From S2P Require Import Prelude Types Codec Wire Utf8 Net Header Digest ReplayWindow Aead Keys Signature Kem Kdf Session Fragment Reassembly.
From S2P Require Import Tunnel Control Init Response Handshake Agreement ClientMachine HandshakeReplay RateLimit AuthLockout.
From S2P Require Import AddressPool TokenBucket SessionManager DataPlane UserStore Server ServerSafety ClientStats.
From S2P Require Import ClientConfig NatTraversal Client Connect.

Module ClientSafety.
Import VpnClient.

Section Safety.
Context {R : RingAead} {RL : RingAeadLaws} {D : RingDigest} {DL : RingDigestLaws}.
Context {M : MlDsa} {ML : MlDsaLaws} {K : KemPrimitives} {KL : KemLaws} {H : Hkdf} {HL : HkdfLaws}.
Context {B : Base64} {IR : HashIter (SocketAddr.t * Z) Entry.t}.

(** * Operations that keep an invariant *)

Definition safe {A} (I : t -> Prop) (m : op A) (Q : A -> Prop) : Prop :=
  forall c, I c -> let '(c', r) := m c in I c' /\ yields r Q.

Section Rules.
Variable I : t -> Prop.

Lemma safe_ret {A} (a : A) (Q : A -> Prop) : Q a -> safe I (ret a) Q.
Proof. by intros Ha c Hc. Qed.

Lemma safe_throw {A} e (Q : A -> Prop) : safe I (throw e) Q.
Proof. by intros c Hc. Qed.

Lemma safe_lift {A} (r : result ClientError.t A) Q : yields r Q -> safe I (lift r) Q.
Proof. by intros Hr c Hc. Qed.

Lemma safe_gets {A} (f : t -> A) (Q : A -> Prop) : (forall c, I c -> Q (f c)) -> safe I (gets f) Q.
Proof. intros Hf c Hc. split; [done|]. by apply Hf. Qed.

Lemma safe_modify f : (forall c, I c -> I (f c)) -> safe I (modify f) (fun _ => True).
Proof. intros Hf c Hc. split; [by apply Hf|done]. Qed.

Lemma safe_bind {A A'} (m : op A) (k : A -> op A') (P : A -> Prop) (Q : A' -> Prop) :
  safe I m P -> (forall a, P a -> safe I (k a) Q) -> safe I (bind m k) Q.
Proof.
  intros Hm Hk c Hc. unfold bind. specialize (Hm c Hc). destruct (m c) as [c1 [a|e|]]; destruct Hm as [H1 H2]; try done.
  by apply Hk.
Qed.

Lemma safe_seq {A A'} (m : op A) (k : op A') (Q : A' -> Prop) :
  safe I m (fun _ => True) -> safe I k Q -> safe I (bind m (fun _ => k)) Q.
Proof. intros Hm Hk. eapply safe_bind; [exact Hm|by intros]. Qed.

Lemma safe_try {A} (m : op A) (P : A -> Prop) :
  safe I m P -> safe I (try m) (fun x => match x with inl a => P a | inr _ => True end).
Proof.
  intros Hm c Hc. unfold try. specialize (Hm c Hc). by destruct (m c) as [c1 [a|e|]].
Qed.

Lemma safe_impl {A} (m : op A) (P Q : A -> Prop) : (forall a, P a -> Q a) -> safe I m P -> safe I m Q.
Proof.
  intros HPQ Hm c Hc. specialize (Hm c Hc). destruct (m c) as [c1 r]. destruct Hm. split; [done|].
  by eapply yields_impl.
Qed.

Lemma safe_true {A} (m : op A) (P : A -> Prop) : safe I m P -> safe I m (fun _ => True).
Proof. by apply safe_impl. Qed.

End Rules.

(** * The invariant *)

(** A reading of the clock, in nanoseconds. *)
Definition instant (x : Z) : Prop := 0 <= x < 2 ^ 63.

(** At most [n] keepalives were sent without an answer. *)
Record inv (cfg : ClientConfig.t) (pk : list Z) (attempts n : Z) (c : t) : Prop := {
  inv_config : config c = cfg;
  inv_pk : server_public_key c = pk;
  inv_attempts : reconnect_attempts c = attempts;
  inv_session s : session c = Some s -> Session.wf s;
  inv_missed : 0 <= KeepaliveState.missed (keepalive c) <= n;
  inv_seq : u32 (KeepaliveState.seq (keepalive c));
  inv_sent_at x : KeepaliveState.last_sent (keepalive c) = Some x -> instant x;
  inv_stats : exists h, StatsTracker.figures h (stats c);
}.

Section Ops.
Variables (cfg : ClientConfig.t) (pk : list Z) (attempts n : Z).
Notation I := (inv cfg pk attempts n).

Ltac kept := apply safe_modify; let c := fresh "c" in let Hc := fresh "Hc" in intros c Hc; destruct Hc; split; done.

Lemma safe_emit e : safe I (emit e) (fun _ => True).
Proof. kept. Qed.

Lemma safe_emit_error : safe I emit_error (fun _ => True).
Proof. apply safe_emit. Qed.

Lemma safe_set_state st : safe I (set_state st) (fun _ => True).
Proof.
  unfold set_state. eapply safe_bind with (P := fun _ => True); [by apply safe_gets|]. intros old _.
  destruct (bool_decide _); [by apply safe_ret|]. apply safe_seq; [kept|apply safe_emit].
Qed.

Lemma safe_send ok p : safe I (send ok p) (fun _ => True).
Proof. unfold send. destruct ok; [kept|apply safe_throw]. Qed.

Lemma safe_update_stats f :
  (forall h s, StatsTracker.figures h s -> exists h', StatsTracker.figures h' (f s)) ->
  safe I (update_stats f) (fun _ => True).
Proof.
  intros Hf. apply safe_modify. intros c [? ? ? ? ? ? ? [h Hh]]. split; try done. by eapply Hf.
Qed.

Lemma safe_count f : safe I (count f) (fun _ => True).
Proof. apply safe_update_stats. intros h s Hs. by exists h. Qed.

Lemma safe_clear_rekey : safe I clear_rekey_state (fun _ => True).
Proof. kept. Qed.

Lemma safe_set_rebind b : safe I (set_rebind b) (fun _ => True).
Proof. kept. Qed.

Lemma safe_on_session {A} (f : Session.t -> Session.t * result ClientError.t A) (Q : A -> Prop) :
  (forall s, Session.wf s -> Session.wf (fst (f s)) /\ yields (snd (f s)) Q) -> safe I (on_session f) Q.
Proof.
  intros Hf c Hc. unfold on_session. destruct (session c) as [s|] eqn:Es; [|done].
  destruct (Hf s (inv_session _ _ _ _ _ Hc s Es)) as [Hw Hy]. destruct (f s) as [s' r]. split; [|done].
  destruct Hc. split; try done. by intros s0 [= <-].
Qed.

Lemma safe_encrypt ty payload output :
  bytes_ok payload -> len payload <= MAX_SEAL -> safe I (encrypt ty payload output) (fun _ => True).
Proof.
  intros Hb Hm. apply safe_on_session. intros s Hs.
  pose proof (Session.encrypt_packet_wf s ty payload output Hs) as Hw.
  pose proof (DataPath.encrypt_packet_outcome s ty payload output Hs Hb Hm) as Ho.
  destruct (Session.encrypt_packet s ty payload output) as [s' [[out k]|e|]]; simpl in *; [|done|done].
  destruct Ho as (packet & rest & -> & -> & _ & _). split; [done|].
  by rewrite (range_rest_at _ 0 packet rest) by (apply rest_at_start || lia).
Qed.

Lemma safe_decrypt now data output :
  bytes_ok data ->
  safe I (decrypt now data output) (fun '(out, k) => 0 <= k <= len out /\ bytes_ok (slice out 0 k)).
Proof.
  intros Hb. apply safe_on_session. intros s Hs.
  pose proof (Session.decrypt_packet_wf s now data output Hs Hb) as Hw.
  pose proof (Session.decrypt_packet_no_panic s now data output Hs Hb) as Hp.
  destruct (Session.decrypt_packet s now data output) as [s' [[[out h] k]|e|]] eqn:E; simpl in *; [|done|done].
  destruct (Session.decrypt_packet_inv _ _ _ _ _ _ _ _ Hs Hb E) as (_ & _ & _ & _ & _ & [Hm Hpb] & _).
  split; [done|]. split; [lia|done].
Qed.

(** ** Messages of the server *)

Lemma verify_yields key m s level : yields (signature.verify key m s level) (fun _ => True).
Proof.
  unfold signature.verify. destruct level;
    (eapply yields_bind with (P := fun _ => True); [by apply yields_ok_or|intros ? _];
     eapply yields_bind with (P := fun _ => True); [by apply yields_ok_or|intros ? _]);
    by destruct (verify_detached_signature _ _ _ _).
Qed.

Lemma ack_verify_yields unix p key id : yields (SignedRebindAckPayload.verify unix p key id) (fun _ => True).
Proof.
  unfold SignedRebindAckPayload.verify. eapply yields_bind with (P := fun _ => True); [by repeat case_match|].
  intros _ _. apply yields_map_err, verify_yields.
Qed.

Lemma rekey_response_yields h m :
  yields (snd (ClientRekey.process_response h m)) SessionKeys.wf.
Proof.
  unfold ClientRekey.process_response. destruct (ClientRekey.client_keypair h) as [[sk p]|]; [|done].
  destruct (ClientRekey.client_random h); [|done]. cbn [snd].
  eapply yields_bind; [apply yields_map_err, verify_yields|]. intros _ _.
  eapply yields_bind; [apply yields_map_err, decapsulate_yields|]. intros ss _.
  eapply yields_bind; [apply yields_map_err, derive_keys_yields|]. intros keys Hk.
  eapply yields_bind with (P := fun _ => True); [|done]. apply yields_map_err. unfold verify_key_confirmation.
  by destruct (hmac_verify _ _ _).
Qed.

Lemma update_keys_yields s k :
  Session.wf s -> SessionKeys.wf k -> yields (snd (Session.update_keys s k)) (fun _ => True).
Proof.
  intros Hs (H1 & H2 & _). unfold Session.update_keys, PrecomputedKey.new.
  destruct (LessSafeKey_new_32 _ H1) as [k1 ->]. by destruct (LessSafeKey_new_32 _ H2) as [k2 ->].
Qed.

Lemma safe_on_rebind_ack unix p : safe I (on_rebind_ack unix p) (fun _ => True).
Proof.
  unfold on_rebind_ack. eapply safe_bind with (P := fun _ => True); [by apply safe_gets|].
  intros [s|] _; [|by apply safe_ret]. destruct p as [p|].
  - eapply safe_bind with (P := fun _ => True); [by apply safe_gets|]. intros key _.
    pose proof (ack_verify_yields unix p key (Session.session_id s)) as Hy.
    destruct (SignedRebindAckPayload.verify _ _ _ _); [|apply safe_emit_error|done].
    apply safe_seq; [apply safe_set_rebind|apply safe_emit].
  - eapply safe_bind with (P := fun _ => True); [by apply safe_gets|]. intros [] _; [apply safe_emit_error|].
    apply safe_seq; [apply safe_set_rebind|apply safe_emit].
Qed.

Lemma safe_control unix payload : bytes_ok payload -> safe I (process_control_message unix payload) (fun _ => True).
Proof.
  intros Hb. unfold process_control_message. eapply safe_bind with (P := fun _ => True).
  { apply safe_lift, yields_map_err, yields_total; [by apply ControlMessage.control_total|done]. }
  intros m _. apply safe_seq; [apply safe_emit|].
  destruct (ControlMessage.control_type m); try (by apply safe_ret); try apply safe_emit_error.
  - apply safe_on_rebind_ack.
  - apply safe_seq; [apply safe_set_state|apply safe_emit].
Qed.

Lemma safe_rekey_response payload : bytes_ok payload -> safe I (process_rekey_response payload) (fun _ => True).
Proof.
  intros Hb. unfold process_rekey_response.
  eapply safe_bind with (P := fun _ => True); [by apply safe_gets|]. intros level _.
  eapply safe_bind with (P := fun _ => True).
  { apply safe_lift, yields_map_err, yields_total; [|done].
    apply (codec_total (Codec:=RekeyResponse.rekey_response_codec_laws level)). done. }
  intros m _. eapply safe_bind with (P := fun _ => True); [by apply safe_gets|]. intros rk _.
  destruct (RekeyState.handler rk) as [h|]; [|apply safe_throw].
  pose proof (rekey_response_yields h m) as Hy. destruct (ClientRekey.process_response h m) as [h' keys].
  apply safe_seq; [kept|]. eapply safe_bind; [apply safe_lift, yields_map_err, Hy|]. intros k Hk.
  apply safe_seq.
  { eapply safe_true, (safe_on_session _ (fun _ => True)). intros s Hs.
    pose proof (Session.update_keys_wf s k Hs Hk). pose proof (update_keys_yields s k Hs Hk).
    destruct (Session.update_keys s k) as [s' r]. split; [done|]. by apply yields_map_err. }
  apply safe_seq; [apply safe_clear_rekey|]. apply safe_seq; [|apply safe_emit].
  apply safe_update_stats. intros x s Hs. by exists x.
Qed.

Lemma elapsed_small now x : instant now -> instant x -> uint 59 (elapsed_ms now x).
Proof.
  unfold instant, elapsed_ms, elapsed, saturating_sub, as_uint, uint, NANOS_PER_MILLI. intros Hn Hx.
  assert (0 <= Z.max 0 (now - x) / 1000000 <= Z.max 0 (now - x)) as Hd.
  { split; [apply Z.div_pos; lia|]. apply Z.div_le_upper_bound; lia. }
  assert (Z.max 0 (now - x) / 1000000 < 2 ^ 44) as Hd' by (apply Z.div_lt_upper_bound; lia).
  rewrite Z.mod_small by lia. lia.
Qed.

Lemma safe_keepalive_reply clk data :
  (forall i, instant (clk i)) -> bytes_ok data -> safe I (process_keepalive_reply clk data) (fun _ => True).
Proof.
  intros Hclk Hb. unfold process_keepalive_reply. eapply safe_bind with (P := fun _ => True).
  { apply safe_lift, yields_map_err, yields_total; [|done].
    by apply (codec_total (Codec:=KeepaliveReplyMessage.keepalive_reply_codec_laws)). }
  intros reply _. eapply safe_bind with (P := fun ka => u32 (KeepaliveState.seq ka) /\
    forall x, KeepaliveState.last_sent ka = Some x -> instant x).
  { apply safe_gets. intros c []. done. }
  intros ka [Hseq Hsent]. apply safe_seq.
  { apply safe_modify. intros c []. split; simpl; try done; lia. }
  set (rtt := match KeepaliveState.last_sent ka with Some _ => _ | None => _ end).
  assert (uint 59 rtt) as Hrtt.
  { unfold rtt. destruct (KeepaliveState.last_sent ka) as [x|]; [|by_decide]. apply elapsed_small; [apply Hclk|by apply Hsent]. }
  eapply safe_bind with (P := fun st => exists h, StatsTracker.figures h st).
  { apply safe_gets. intros c []. done. }
  intros st [h Hh].
  destruct (StatsTracker.apply_figures h st (StatsTracker.KeepaliveReceived (clk 2%nat) (clk 3%nat) rtt) Hh Hrtt)
    as (st' & Ha & Hf). simpl in Ha.
  eapply safe_bind with (P := fun x => x = st').
  { apply safe_lift. unfold StatsTracker.on_keepalive_received, StatsTracker.sum_u64 in *.
    destruct (_ <=? U64_MAX); [|done]. by injection Ha as <-. }
  intros ? ->. apply safe_seq; [|apply safe_emit].
  apply safe_modify. intros c []. split; try done. by eexists.
Qed.

Lemma safe_process_packet clk unix data output :
  (forall i, instant (clk i)) -> bytes_ok data ->
  safe I (process_packet clk unix data output)
    (fun '(out, x) => match x with Some (_, k) => 0 <= k <= len out | None => True end).
Proof.
  intros Hclk Hb. unfold process_packet. destruct (len data <? HEADER_SIZE); [by apply safe_ret|].
  eapply safe_bind with (P := fun _ => True).
  { apply safe_lift, yields_map_err, yields_total; [by apply PacketHeader.decode_no_panic|done]. }
  intros h _.
  assert (forall (ty : MessageType.t) (k : list Z -> op unit), (forall plain, bytes_ok plain -> safe I (k plain) (fun _ => True)) ->
    safe I (bind (decrypt (clk 0%nat) data output) (fun x : list Z * Z =>
      let '(output, m) := x in
      bind (lift (range output 0 m)) (fun plain => bind (k plain) (fun _ => ret (output, Some (ty, 0))))))
      (fun '(out, x) => match x with Some (_, k) => 0 <= k <= len out | None => True end)) as Hmsg.
  { intros ty k Hk. eapply safe_bind; [by apply safe_decrypt|]. intros [out m] [Hm Hs].
    rewrite range_ok by lia. eapply safe_bind with (P := bytes_ok); [by apply safe_lift|]. intros plain Hp.
    apply safe_seq; [by apply Hk|]. apply safe_ret. pose proof (len_nonneg out). lia. }
  destruct (PacketHeader.msg_type h);
    try (apply safe_seq; [apply safe_count|by apply safe_ret]).
  - eapply safe_bind; [by apply safe_decrypt|]. intros [out m] [Hm Hs].
    apply safe_seq; [apply safe_count|by apply safe_ret].
  - apply Hmsg. intros plain Hp. by apply safe_keepalive_reply.
  - apply Hmsg. intros plain Hp. by apply safe_control.
  - apply Hmsg. intros plain Hp. by apply safe_rekey_response.
Qed.

Lemma safe_on_received clk unix pooled data channel :
  (forall i, instant (clk i)) -> bytes_ok data -> safe I (on_received clk unix pooled data channel) (fun _ => True).
Proof.
  intros Hclk Hb. unfold on_received. destruct (negb _); [by apply safe_ret|].
  eapply safe_bind; [apply safe_try, safe_process_packet; done|].
  intros [[out [[ty m]|]]|e] Hx; [|by apply safe_ret|].
  - destruct ty; try (by apply safe_ret). destruct (0 <? m); [|by apply safe_ret].
    destruct channel; [|apply safe_seq; [apply safe_count|by apply safe_ret]|apply safe_throw].
    eapply safe_bind with (P := fun _ => True); [|by intros; apply safe_ret].
    apply safe_lift. by rewrite range_ok by lia.
  - destruct (bool_decide _); [|by apply safe_ret]. apply safe_seq; [apply safe_clear_rekey|by apply safe_ret].
Qed.

(** ** Requests of the client *)

Lemma control_message_fits m :
  ControlMessage.error_code m = None -> ControlMessage.signed_payload m = None ->
  (forall b, ControlMessage.message m = Some b -> bytes_ok b) ->
  bytes_ok (ControlMessage.to_bytes m) /\ len (ControlMessage.to_bytes m) <= MAX_SEAL.
Proof.
  intros He Hs Hm. unfold ControlMessage.to_bytes. rewrite He, Hs. cbn [ControlMessage.error_block ControlMessage.signed_block].
  destruct (ControlMessage.message m) as [b|]; cbn [ControlMessage.message_block].
  - specialize (Hm b eq_refl). pose proof (len_nonneg b). unfold MAX_CONTROL_MESSAGE_LEN, MAX_SEAL. split.
    + rewrite !bytes_ok_app. split_and!; auto with hpn; [by repeat constructor; destruct (ControlMessage.control_type m)|constructor].
    + autorewrite with len. rewrite len_slice by lia. change (len []) with 0. lia.
  - split.
    + rewrite !bytes_ok_app. split_and!; auto with hpn; [by repeat constructor; destruct (ControlMessage.control_type m)|constructor].
    + autorewrite with len. unfold MAX_SEAL. change (len []) with 0. lia.
Qed.

Lemma rekey_request_yields x seed random h :
  bytes_ok random -> len random = 32 ->
  yields (snd (ClientRekey.create_request x seed random h)) (fun r =>
    bytes_ok (RekeyMessage.to_bytes r) /\ len (RekeyMessage.to_bytes r) <= MAX_SEAL).
Proof.
  intros Hb Hl. unfold ClientRekey.create_request.
  destruct (HybridKem.generate_keypair_total x seed (ClientRekey.security_level h)) as (sk & p & Hg). rewrite Hg.
  destruct (HybridKem.generate_keypair_inv _ _ _ _ _ Hg) as [Hw _]. simpl.
  set (m := RekeyMessage.new random p). assert (RekeyMessage.wf m) as Hm by by split_and!.
  split; [by apply (codec_bytes (Codec:=RekeyMessage.rekey_codec_laws))|].
  unfold RekeyMessage.to_bytes. autorewrite with len. pose proof (HybridPublicKey.pk_len_to_bytes_raw p Hw) as Lp.
  cbn [m RekeyMessage.client_ephemeral_pk RekeyMessage.client_random RekeyMessage.new]. rewrite Lp, Hl. unfold MAX_SEAL.
  rewrite HybridPublicKey.pk_size_for_level_spec. destruct (HybridPublicKey.security_level p); simpl; lia.
Qed.

Lemma safe_initiate_rekey clk x seed random accepted :
  bytes_ok random -> len random = 32 -> safe I (initiate_rekey clk x seed random accepted) (fun _ => True).
Proof.
  intros Hb Hl. unfold initiate_rekey. eapply safe_bind with (P := fun _ => True); [by apply safe_gets|].
  intros rk _. destruct (RekeyState.in_progress rk); [apply safe_throw|].
  eapply safe_bind with (P := fun _ => True); [by apply safe_gets|]. intros [[s key] level] _.
  eapply safe_bind with (P := fun _ => True); [by apply safe_lift, yields_ok_or|]. intros s' _.
  pose proof (rekey_request_yields x seed random (ClientRekey.with_security_level key (Session.session_id s') level) Hb Hl) as Hy.
  destruct (ClientRekey.create_request _ _ _ _) as [h r]. cbn [snd] in Hy.
  eapply safe_bind; [apply safe_lift, yields_map_err, Hy|]. intros req [Hrb Hrl].
  eapply safe_bind; [by apply safe_encrypt|]. intros packet _. apply safe_seq; [kept|].
  eapply safe_bind; [apply safe_try, safe_send|]. intros [|e] _; [by apply safe_ret|].
  apply safe_seq; [apply safe_clear_rekey|apply safe_throw].
Qed.

Lemma safe_send_data pooled accepted payload :
  bytes_ok payload -> len payload <= MAX_SEAL -> safe I (send_data pooled accepted payload) (fun _ => True).
Proof.
  intros Hb Hl. unfold send_data. eapply safe_bind; [by apply safe_encrypt|]. intros packet _.
  apply safe_seq; [apply safe_send|apply safe_count].
Qed.

Lemma safe_reset_stats : safe I (update_stats StatsTracker.reset) (fun _ => True).
Proof.
  apply safe_update_stats. intros h s Hs. exists [].
  by destruct (StatsTracker.apply_figures h s StatsTracker.Reset Hs Logic.I) as (s' & [= <-] & Hf).
Qed.

Lemma safe_disconnect accepted : safe I (disconnect accepted) (fun _ => True).
Proof.
  unfold disconnect. eapply safe_bind with (P := fun _ => True); [by apply safe_gets|]. intros st _.
  destruct (bool_decide _); [by apply safe_ret|]. apply safe_seq; [apply safe_set_state|].
  destruct (control_message_fits ControlMessage.close) as [Hb Hl]; [done..|].
  eapply safe_bind; [by apply safe_try, safe_encrypt|]. intros packet _. apply safe_seq.
  { apply safe_modify. intros c Hc. destruct Hc as [? ? ? Hs ? ? ? ?]. split; try done. simpl.
    intros s E. destruct (session c) as [s0|]; [|done]. injection E as <-. exact (Hs s0 eq_refl). }
  apply safe_seq.
  { destruct packet as [data|e]; [|by apply safe_ret].
    eapply safe_bind; [apply safe_try, safe_send|]. intros; by apply safe_ret. }
  apply safe_seq; [apply safe_clear_rekey|]. apply safe_seq; [kept|].
  apply safe_seq; [apply safe_reset_stats|].
  apply safe_seq; [apply safe_set_state|apply safe_emit].
Qed.

Lemma bytes_of_string_ok s : bytes_ok (bytes_of_string s).
Proof.
  induction s as [|a s IH]; constructor; [|done]. pose proof (Ascii.N_ascii_bounded a). unfold uint. lia.
Qed.

Lemma safe_send_rebind accepted a : safe I (send_rebind accepted a) (fun _ => True).
Proof.
  unfold send_rebind. eapply safe_bind with (P := fun _ => True); [by apply safe_gets|].
  intros [] _; [apply safe_throw|]. cbv zeta.
  destruct (control_message_fits (ControlMessage.mk ControlType.Rebind None
    (Some (bytes_of_string (SocketAddr.to_string a))) None)) as [Hb Hl]; [done..| |].
  { intros b [= <-]. apply bytes_of_string_ok. }
  eapply safe_bind; [by apply safe_encrypt|]. intros packet _. apply safe_seq; [apply safe_send|].
  apply safe_seq; [apply safe_set_rebind|apply safe_emit].
Qed.

(** ** The endpoint *)

Definition exchange_ok (x : StunClient.exchange) : Prop :=
  len (StunClient.transaction_id x) = 12 /\ forall b, StunClient.reply x = Some b -> bytes_ok b.

Lemma stun_request_yields v4 x server :
  exchange_ok x -> yields (StunClient.stun_request v4 x server) (fun _ => True).
Proof.
  intros [Hid Hr]. unfold StunClient.stun_request. eapply yields_bind with (P := fun _ => True).
  { destruct (StunClient.resolved x) as [a|[l|]]; [done| |done]. by apply yields_ok_or. }
  intros a _. destruct (negb _); [done|]. destruct (negb _); [done|].
  destruct (StunClient.reply x) as [b|]; [|done].
  assert (len (StunClient.build_binding_request (StunClient.transaction_id x)) = 20) as Hl.
  { unfold StunClient.build_binding_request. autorewrite with len. rewrite Hid. done. }
  rewrite range_ok by lia. cbn [rbind].
  apply yields_total; [apply parse_binding_total; by apply Hr|done].
Qed.

Lemma try_server_yields v4 net server k : forall i,
  (forall i, exchange_ok (net i)) -> yields (StunClient.try_server v4 net i k server) (fun _ => True).
Proof.
  induction k as [|k IH]; intros i Hn; [done|]. simpl. pose proof (stun_request_yields v4 (net i) server (Hn i)) as Hy.
  destruct (StunClient.stun_request _ _ _); [done|by apply IH|done].
Qed.

Lemma try_servers_yields v4 net k servers : forall i,
  (forall i, exchange_ok (net i)) -> yields (StunClient.try_servers v4 net i k servers) (fun _ => True).
Proof.
  induction servers as [|s servers IH]; intros i Hn; [done|]. simpl.
  eapply yields_bind; [by apply try_server_yields|]. intros [r|] _; [done|]. by apply IH.
Qed.

Lemma safe_discover_nat socket_ok net :
  (forall i, exchange_ok (net i)) -> safe I (discover_nat socket_ok net) (fun _ => True).
Proof.
  intros Hn. unfold discover_nat. eapply safe_bind with (P := fun _ => True); [by apply safe_gets|].
  intros [|s servers] _; [apply safe_throw|]. eapply safe_bind with (P := fun _ => True).
  { apply safe_lift. unfold StunClient.discover. destruct (negb _); [done|]. destruct (negb _); [done|].
    by apply try_servers_yields. }
  intros r _. apply safe_seq; [kept|]. apply safe_seq; [apply safe_emit|by apply safe_ret].
Qed.

Lemma safe_check_and_rebind socket_ok net accepted :
  (forall i, exchange_ok (net i)) -> safe I (check_and_rebind socket_ok net accepted) (fun _ => True).
Proof.
  intros Hn. unfold check_and_rebind. eapply safe_bind with (P := fun _ => True); [by apply safe_gets|].
  intros old _. eapply safe_bind; [by apply safe_discover_nat|]. intros new _.
  destruct (old ≫= endpoint_of), (endpoint_of new); try (by apply safe_ret).
  destruct (negb _); [|by apply safe_ret]. apply safe_seq; [apply safe_send_rebind|by apply safe_ret].
Qed.

(** ** The handshake *)

(** What the client draws for a handshake. *)
Definition random_ok (d : draws) : Prop := bytes_ok (init_random d) /\ len (init_random d) = 32.

Definition creds_bytes (creds : option Credentials.t) : Prop :=
  forall c, creds = Some c -> bytes_ok (Credentials.username c) /\ bytes_ok (Credentials.password c).

Lemma credentials_encrypt_yields x rnd u p key :
  bytes_ok u -> bytes_ok p -> yields (EncryptedCredentials.encrypt x rnd u p key) EncryptedCredentials.wf.
Proof.
  intros Hu Hp. unfold EncryptedCredentials.encrypt.
  destruct (MAX_USERNAME_LEN <? len u) eqn:E1; [done|]. destruct (MAX_PASSWORD_LEN <? len p) eqn:E2; [done|]. b2p.
  eapply yields_bind; [apply yields_map_err, encapsulate_yields|]. intros [ss ct] Hct.
  destruct (derived_key_ok (HandshakeSecret.as_bytes ss) EncryptedCredentials.DOMAIN_SEPARATOR) as (k & -> & Hk).
  cbn [map_err rbind]. destruct (kem_nonce_ok (E:=ProtocolError.t) ct) as (nonce & -> & Hn). cbn [rbind].
  destruct (seal_vec_ok k nonce (HybridCiphertext.to_bytes ct) (u ++ [0] ++ p)) as (sealed & -> & Hsb & Hsl & _); try done.
  - rewrite !bytes_ok_app. split_and!; [done|by repeat constructor|done].
  - autorewrite with len. unfold MAX_USERNAME_LEN, MAX_PASSWORD_LEN, MAX_SEAL in *. change (len [0]) with 1. lia.
  - cbn [map_err rbind]. simpl. split_and!; try done. cbn [EncryptedCredentials.encrypted_payload].
    rewrite Hsl. autorewrite with len. change (len [0]) with 1. unfold MAX_USERNAME_LEN, MAX_PASSWORD_LEN, TAG_SIZE,
      EncryptedCredentials.MAX_CREDENTIALS_PAYLOAD_LEN in *. lia.
Qed.

Lemma hidden_encrypt_yields x rnd i key :
  HandshakeInit.wf i -> yields (EncryptedHandshakeInit.encrypt x rnd i key) (fun _ => True).
Proof.
  intros Hi. unfold EncryptedHandshakeInit.encrypt.
  eapply yields_bind; [apply yields_map_err, encapsulate_yields|]. intros [ss ct] Hct.
  destruct (derived_key_ok (HandshakeSecret.as_bytes ss) EncryptedHandshakeInit.DOMAIN_SEPARATOR) as (k & -> & Hk).
  cbn [map_err rbind]. destruct (kem_nonce_ok (E:=ProtocolError.t) ct) as (nonce & -> & Hn). cbn [rbind].
  pose proof (EncryptedHandshakeInit.len_init i Hi) as Hl.
  destruct (seal_vec_ok k nonce (EncryptedHandshakeInit.aad (HandshakeInit.security_level i) ct)
    (HandshakeInit.to_bytes i)) as (sealed & -> & _); try done.
  - by apply HandshakeInit.init_bytes.
  - unfold MAX_SEAL. lia.
Qed.

Lemma kem_pk_yields bytes : yields (HybridPublicKey.from_bytes bytes) (fun _ => True).
Proof.
  apply yields_total; [|done]. intros E. unfold HybridPublicKey.from_bytes in E. step_in E. b2p.
  pose proof (len_nonneg bytes). step_in E; [|no_abort]. step_in E; [|no_abort].
  rewrite HybridPublicKey.pk_size_for_level_spec in E. pose proof (SecurityLevel.sizes_pos a0).
  repeat (step_in E; b2p); try in_range. unfold MlKemPublicKey.from_bytes_strict in Hs3. by step_in Hs3.
Qed.

Lemma kem_key_yields : yields (ClientConfig.decode_server_kem_public_key cfg) (fun _ => True).
Proof.
  unfold ClientConfig.decode_server_kem_public_key. destruct (ClientConfig.server_kem_public_key cfg); [|done].
  eapply yields_bind with (P := fun _ => True); [by apply yields_ok_or|]. intros b _.
  eapply yields_bind with (P := fun _ => True).
  { apply yields_map_err, kem_pk_yields. }
  intros k _. by destruct (negb _).
Qed.

Lemma init_message_yields key d creds :
  random_ok d -> creds_bytes creds -> yields (init_message cfg key d creds) (fun _ => True).
Proof.
  intros [Hrb Hrl] Hc. unfold init_message. eapply yields_bind; [apply kem_key_yields|]. intros kem _.
  eapply yields_bind with (P := fun _ => True); [by destruct creds, kem|]. intros _ _.
  set (hs := match kem with Some _ => _ | None => _ end).
  assert (ClientHandshake.state hs = HandshakeState.Idle) as Hst by by destruct kem.
  destruct (create_init_ok hs (init_x25519 d) (init_mlkem d) (init_random d) Hst Hrb Hrl)
    as (sk & epk & hs' & init & _ & -> & Hi & _). cbn [map_err rbind].
  eapply yields_bind with (P := HandshakeInit.wf).
  { destruct creds as [c|]; [|done]. destruct kem as [k|]; [|done]. apply yields_map_err.
    unfold HandshakeInit.add_credentials. destruct (Hc c eq_refl) as [Hu Hp].
    eapply yields_bind; [by apply credentials_encrypt_yields|]. intros ec Hec. simpl.
    destruct Hi as (? & ? & ? & ? & _). by split_and!. }
  intros i Hi'. destruct kem as [k|]; [|done].
  eapply yields_bind with (P := fun _ => True); [|done]. by apply yields_map_err, hidden_encrypt_yields.
Qed.

(** *** Waiting for the answer *)

Definition arrival_ok (a : Arrival.t) : Prop :=
  match a with Arrival.Datagram _ data _ => bytes_ok data | Arrival.Fault => True end.

Definition waiting_ok (w : waiting) : Prop :=
  exists h, Reassembly.good h (reassembler w) /\ Forall (fun x => HandshakeFragment.wf (snd x)) h.

Lemma ignore_yields w : waiting_ok w ->
  yields (ignore w) (fun x => match x with inl w => waiting_ok w | inr b => bytes_ok b end).
Proof. intros Hw. unfold ignore. by destruct (_ <=? _). Qed.

Lemma framed_yields ty b : bytes_ok b -> yields (framed ty b) bytes_ok.
Proof.
  intros Hb. unfold framed. rewrite PacketHeader.encode_wire by by rewrite len_replicate. cbn [rbind yields].
  rewrite !bytes_ok_app. split_and!; [|apply Forall_drop, Forall_replicate; by_decide|done].
  apply PacketHeader.bytes_ok_wire. by apply Session.data_header_wf.
Qed.

Lemma on_packet_yields w now data :
  waiting_ok w -> bytes_ok data ->
  yields (on_packet w now data) (fun x => match x with inl w => waiting_ok w | inr b => bytes_ok b end).
Proof.
  intros Hw Hb. unfold on_packet. destruct (len data <? HEADER_SIZE) eqn:El; [by apply ignore_yields|]. b2p.
  eapply yields_bind with (P := fun _ => True).
  { apply yields_map_err, yields_total; [by apply PacketHeader.decode_no_panic|done]. }
  intros h _. destruct (PacketHeader.msg_type h); try (by apply ignore_yields); [done|].
  rewrite range_ok by (unfold HEADER_SIZE in *; lia). cbn [rbind].
  set (body := slice data _ _). assert (bytes_ok body) as Hbb by by apply bytes_ok_slice.
  destruct (HandshakeFragment.from_bytes body) as [f|e|] eqn:Ef;
    [|by apply ignore_yields|by apply HandshakeFragment.from_bytes_no_panic in Ef].
  assert (HandshakeFragment.wf f) as Hf by by apply (HandshakeFragment.from_bytes_inv body).
  destruct (negb _); [done|]. destruct Hw as (hist & Hg & Hh).
  pose proof (Reassembly.insert_spec hist (reassembler w) now peer_key f Hf Hg) as Hi.
  destruct (Reassembly.insert _ _ _ _) as [re out]. destruct Hi as (Hg' & _ & Ho).
  assert (Forall (fun x => HandshakeFragment.wf (snd x)) (hist ++ [(peer_key, f)])) as Hh'
    by (apply Forall_app; split; [done|by apply Forall_singleton]).
  pose proof (ServerSafety.reassembled_bytes _ _ _ _ Hh' Ho) as Hy.
  destruct out as [[[ty payload]|]|e|]; [|apply ignore_yields; by exists (hist ++ [(peer_key, f)])|done|done].
  eapply yields_bind; [by apply yields_map_err, framed_yields|]. done.
Qed.

Lemma wait_response_yields server net : forall w i,
  waiting_ok w -> Forall arrival_ok net ->
  yields (wait_response server w i net) (fun o => forall b, o = Some b -> bytes_ok b).
Proof.
  induction net as [|a net IH]; intros w i Hw Hn; [done|]. apply Forall_cons in Hn as [Ha Hn].
  destruct a as [now data from|]; [|done]. simpl. destruct (recv_from_server_scoped _ _ _ _); [|by apply IH|done].
  eapply yields_bind; [by apply on_packet_yields|]. intros [w'|b] Hx; [by apply IH|]. simpl. by intros ? [= <-].
Qed.

(** *** Connecting *)

Lemma split_payload_yields ty id payload : yields (split_payload ty id payload) (fun _ => True).
Proof. apply yields_total; [|done]. intros E. unfold split_payload in E. by repeat (step_in E). Qed.

Lemma framed_no_panic ty b : yields (framed ty b) (fun _ => True).
Proof. unfold framed. by rewrite PacketHeader.encode_wire by by rewrite len_replicate. Qed.

Lemma safe_send_fragments accepted bodies : forall i, safe I (send_fragments accepted i bodies) (fun _ => True).
Proof.
  induction bodies as [|b bodies IH]; intros i; [by apply safe_ret|]. cbn [send_fragments].
  eapply safe_bind; [apply safe_lift, yields_map_err, framed_no_panic|]. intros p _.
  apply safe_seq; [apply safe_send|apply IH].
Qed.

Lemma safe_send_init accepted id ty payload : safe I (send_init accepted id ty payload) (fun _ => True).
Proof.
  unfold send_init. destruct (_ <? _).
  - eapply safe_bind with (P := fun _ => True); [|intros; apply safe_send_fragments].
    apply safe_lift, yields_map_err. unfold build_handshake_fragments.
    eapply yields_bind; [apply split_payload_yields|done].
  - eapply safe_bind; [apply safe_lift, yields_map_err, framed_no_panic|]. intros p _. apply safe_send.
Qed.

Lemma response_yields level data :
  bytes_ok data -> yields (decode_handshake_response level data) (HandshakeResponse.wf level).
Proof.
  intros Hb. unfold decode_handshake_response. destruct (len data <? HEADER_SIZE) eqn:El; [done|]. b2p.
  eapply yields_bind with (P := fun _ => True).
  { apply yields_map_err, yields_total; [by apply PacketHeader.decode_no_panic|done]. }
  intros h _. rewrite range_ok by (unfold HEADER_SIZE in *; lia). cbn [rbind]. apply yields_map_err, yields_total.
  - apply HandshakeResponse.response_total. by apply bytes_ok_slice.
  - intros m. apply HandshakeResponse.response_sound. by apply bytes_ok_slice.
Qed.

Lemma process_response_yields hs m level :
  HandshakeResponse.wf level m ->
  yields (snd (ClientHandshake.process_response hs m)) (fun '(sid, keys, _) => u64 sid /\ SessionKeys.wf keys).
Proof.
  intros Hw. pose proof (response_cases hs m) as Hc.
  destruct (ClientHandshake.process_response hs m) as [hs' r] eqn:E.
  destruct r as [[[sid keys] tc]|e|]; [|done|done]. simpl.
  apply process_response_ok in E as (_ & sk & p & cr & _ & _ & _ & _ & E).
  apply finish_response_ok in E as (_ & -> & _ & (ss & _ & Hk) & _). split; [apply Hw|].
  pose proof (derive_keys_yields ss (HandshakeResponse.session_id m) (HandshakeResponse.kdf_timestamp m)) as Hy.
  by rewrite Hk in Hy.
Qed.

Lemma safe_perform_handshake d accepted net creds :
  random_ok d -> creds_bytes creds -> Forall arrival_ok net ->
  safe I (perform_handshake d accepted net creds) (fun '(sid, keys, _) => u64 sid /\ SessionKeys.wf keys).
Proof.
  intros Hd Hc Hn. unfold perform_handshake.
  eapply safe_bind with (P := fun x => x = (cfg, pk)).
  { apply safe_gets. intros c Hi. by rewrite (inv_config _ _ _ _ _ Hi), (inv_pk _ _ _ _ _ Hi). }
  intros [? ?] [= -> ->]. eapply safe_bind; [by apply safe_lift, init_message_yields|]. intros [[hs ty] payload] _.
  apply safe_seq; [apply safe_send_init|].
  eapply safe_bind.
  { apply safe_lift, wait_response_yields; [|done]. exists []. split; [|constructor]. split; [apply Reassembly.inv_new|].
    unfold Reassembly.bounded, Reassembly.len_entries. simpl. rewrite map_size_empty. lia. }
  intros [b|] Hb; [|apply safe_throw].
  eapply safe_bind; [apply safe_lift, response_yields; by apply Hb|]. intros m Hm.
  by eapply safe_lift, yields_map_err, process_response_yields.
Qed.

Lemma validate_yields c : yields (Credentials.validate c) (fun _ => True).
Proof. unfold Credentials.validate. by repeat case_match. Qed.

Lemma safe_connect clk d accepted net creds :
  random_ok d -> creds_bytes creds -> Forall arrival_ok net ->
  safe I (connect_with_credentials clk d accepted net creds) (fun _ => True).
Proof.
  intros Hd Hc Hn. unfold connect_with_credentials.
  eapply safe_bind with (P := fun _ => True); [by apply safe_gets|]. intros [[st info] busy] _.
  destruct (bool_decide _); [by apply safe_lift, yields_ok_or|]. destruct busy; [apply safe_throw|].
  apply safe_seq; [kept|]. assert (forall b, safe I (modify (fun c => with_connecting c b)) (fun _ => True)) as Hf by (intros b; kept).
  assert (yields (match creds with Some cr => Credentials.validate cr | None => Ok tt end) (fun _ => True)) as Hv
    by (destruct creds; [apply validate_yields|done]).
  destruct (match creds with Some _ => _ | None => _ end) as [u|e|]; [|apply safe_seq; [apply Hf|apply safe_throw]|done].
  apply safe_seq; [apply safe_set_state|]. eapply safe_bind; [by apply safe_try, safe_perform_handshake|].
  intros [[[sid keys] tc]|e] Hx.
  - destruct Hx as [Hs Hk]. destruct (Session.new_ok (clk 0%nat) sid keys Hs Hk) as (s & -> & Hw & _).
    eapply safe_bind with (P := fun x => x = s); [by apply safe_lift|]. intros ? ->.
    apply safe_seq. { apply safe_modify. intros c []. split; try done. by intros ? [= <-]. }
    apply safe_seq. { apply safe_update_stats. intros h x Hh. by exists h. }
    apply safe_seq; [apply safe_set_state|]. apply safe_seq; [apply Hf|].
    apply safe_seq; [apply safe_emit|by apply safe_ret].
  - apply safe_seq; [apply Hf|]. apply safe_seq; [apply safe_set_state|].
    apply safe_seq; [apply safe_emit_error|apply safe_throw].
Qed.

(** ** Timers *)

Lemma safe_timeout_tick now now' :
  ClientConfig.keepalive_interval_secs cfg * ClientConfig.keepalive_timeout_count cfg <= U64_MAX ->
  safe I (on_timeout_tick now now') (fun _ => True).
Proof.
  intros Hk. unfold on_timeout_tick. eapply safe_bind with (P := fun c => config c = cfg).
  { apply safe_gets. intros c. apply inv_config. }
  intros c0 E0. eapply safe_bind with (P := fun _ => True).
  { apply safe_lift. unfold check_keepalive_timeout, ClientConfig.keepalive_timeout. rewrite E0.
    rewrite (proj2 (Z.leb_le _ _)) by done. cbn [rbind]. by destruct (KeepaliveState.last_sent _). }
  intros [missed|] _.
  - apply safe_seq.
    + apply safe_seq; [destruct (0 <? missed); [apply safe_emit|by apply safe_ret]|].
      destruct (is_connection_dead c0); [apply safe_throw|by apply safe_ret].
    + destruct (RekeyState.started_at _); [|by apply safe_ret]. destruct (_ <? _); [apply safe_clear_rekey|by apply safe_ret].
  - apply safe_seq; [by apply safe_ret|].
    destruct (RekeyState.started_at _); [|by apply safe_ret]. destruct (_ <? _); [apply safe_clear_rekey|by apply safe_ret].
Qed.

End Ops.

(** A keepalive may be one more without an answer. *)
Lemma keepalive_step cfg pk attempts n clk pooled accepted c :
  n < U32_MAX -> instant (clk 0%nat) -> inv cfg pk attempts n c ->
  let '(c', r) := send_keepalive clk pooled accepted c in
  inv cfg pk attempts (n + 1) c' /\ yields r (fun _ => True).
Proof.
  intros Hn Hclk Hc. pose proof (inv_missed _ _ _ _ _ Hc) as Hm. pose proof (inv_seq _ _ _ _ _ Hc) as Hs.
  pose proof (inv_sent_at _ _ _ _ _ Hc) as Hat.
  assert (inv cfg pk attempts (n + 1) c) as Hc' by (destruct Hc; split; try done; lia).
  unfold send_keepalive, bind at 1, gets. set (ka := keepalive c) in *.
  set (x := match KeepaliveState.pending_seq ka with Some _ => _ | None => _ end).
  assert (exists missed, x = Ok missed /\ 0 <= missed <= n + 1) as (missed & -> & Hx).
  { unfold x. destruct (KeepaliveState.pending_seq ka); [|eexists; split; [done|]; lia].
    unfold increment, checked_add. unfold U32_MAX in *. rewrite (proj2 (Z.ltb_lt _ _)) by lia.
    eexists. split; [done|]. lia. }
  match goal with |- let '(_, _) := ?m c in _ => enough (safe (inv cfg pk attempts (n + 1)) m (fun _ => True)) as Hsafe by by apply Hsafe end.
  clearbody ka. eapply safe_bind with (P := fun x => x = missed); [by apply safe_lift|]. intros ? ->. cbv zeta.
  apply safe_seq.
  { apply safe_modify. intros c0 []. split; try done. simpl. apply Z.mod_pos_bound. lia. }
  eapply safe_bind; [apply safe_encrypt|].
  { by apply (codec_bytes (Codec:=KeepaliveMessage.keepalive_codec_laws)). }
  { unfold KeepaliveMessage.to_bytes, MAX_SEAL. autorewrite with len. lia. }
  intros packet _. apply safe_seq; [apply safe_send|]. apply safe_seq.
  { apply safe_modify. intros c0 []. split; try done; simpl; [apply Z.mod_pos_bound; lia|]. by intros ? [= <-]. }
  apply safe_update_stats. intros h st Hst. by exists h.
Qed.

(** ** One turn of the receive loop *)

Definition event_ok (e : loop_event) : Prop :=
  match e with
  | Received clk _ _ data _ => (forall i, instant (clk i)) /\ bytes_ok data
  | KeepaliveTick _ clk _ _ => instant (clk 0%nat)
  | RekeyTick _ _ _ _ random _ => bytes_ok random /\ len random = 32
  | _ => True
  end.

(** The product of the two keepalive settings fits its type. *)
Definition timeout_fits (cfg : ClientConfig.t) : Prop :=
  ClientConfig.keepalive_interval_secs cfg * ClientConfig.keepalive_timeout_count cfg <= U64_MAX.

Lemma inv_more cfg pk attempts n n' c : n <= n' -> inv cfg pk attempts n c -> inv cfg pk attempts n' c.
Proof. intros Hn []. split; try done. lia. Qed.

Lemma loop_step_inv cfg pk attempts n e c :
  timeout_fits cfg -> n < U32_MAX -> event_ok e -> inv cfg pk attempts n c ->
  let '(c', r) := loop_step e c in inv cfg pk attempts (n + 1) c' /\ yields r (fun _ => True).
Proof.
  intros Hcfg Hn He Hc. pose proof (inv_more _ _ _ n (n + 1) _ ltac:(lia) Hc) as Hc'.
  assert (forall m, safe (inv cfg pk attempts (n + 1)) m (fun _ => True) ->
    let '(c', r) := m c in inv cfg pk attempts (n + 1) c' /\ yields r (fun _ : list (list Z) => True)) as Hsafe
    by (intros m Hm; by apply Hm).
  destruct e as [clk unix pooled data channel| |now clk pooled accepted|now now'|now clk x seed random accepted]; simpl in He.
  - apply Hsafe. destruct He. by apply safe_on_received.
  - apply Hsafe, safe_throw.
  - unfold loop_step, bind at 1, gets. destruct (should_send_keepalive c now); [|by apply Hsafe, safe_ret].
    unfold bind, try. pose proof (keepalive_step cfg pk attempts n clk pooled accepted c Hn He Hc) as Hk.
    by destruct (send_keepalive clk pooled accepted c) as [c1 [u|e|]].
  - apply Hsafe, safe_seq; [by apply safe_timeout_tick|by apply safe_ret].
  - apply Hsafe. eapply safe_bind with (P := fun _ => True); [by apply safe_gets|]. intros [] _; [|by apply safe_ret].
    destruct He as [Hb Hl]. eapply safe_bind; [by apply safe_try, safe_initiate_rekey|]. intros; by apply safe_ret.
Qed.

(** * Reconnecting *)

Definition wp {A} (m : op A) (c : t) (P : t -> result ClientError.t A -> Prop) : Prop :=
  let '(c', r) := m c in P c' r.

Lemma wp_bind {A A'} (m : op A) (k : A -> op A') c P :
  wp m c (fun c' r => match r with Ok a => wp (k a) c' P | Err e => P c' (Err e) | Panic => P c' Panic end) ->
  wp (bind m k) c P.
Proof. unfold wp, bind. by destruct (m c) as [c' [a|e|]]. Qed.

Lemma wp_safe {A} (m : op A) c (J : t -> Prop) (Q : A -> Prop) P :
  safe J m Q -> J c -> (forall c' r, J c' -> yields r Q -> P c' r) -> wp m c P.
Proof. intros Hm Hc HP. unfold wp. specialize (Hm c Hc). destruct (m c) as [c' r]. destruct Hm. by apply HP. Qed.

(** A step that cannot fail. *)
Lemma wp_step {A A'} (m : op A) (k : A -> op A') c (J : t -> Prop) P :
  safe J m (fun _ => True) -> (forall c', exists a, snd (m c') = Ok a) -> J c ->
  (forall a c', J c' -> wp (k a) c' P) -> wp (bind m k) c P.
Proof.
  intros Hm Hok Hc HP. apply wp_bind. unfold wp at 1. specialize (Hm c Hc). destruct (Hok c) as [a Ha].
  destruct (m c) as [c' r]. simpl in Ha. subst r. destruct Hm. by apply HP.
Qed.

Lemma wp_try {A A'} (m : op A) (k : A + ClientError.t -> op A') c (J : t -> Prop) (Q : A -> Prop) P :
  safe J m Q -> J c -> (forall x c', J c' -> wp (k x) c' P) -> wp (bind (try m) k) c P.
Proof.
  intros Hm Hc HP. unfold wp, bind, try. specialize (Hm c Hc).
  destruct (m c) as [c' [a|e|]]; destruct Hm; [by apply (HP (inl a))|by apply (HP (inr e))|done].
Qed.

Definition attempt_ok (a : attempt) : Prop := random_ok (attempt_draws a) /\ Forall arrival_ok (attempt_net a).

(** How reconnecting may end when [k] attempts were made before: with a
    tunnel, after the delays of the schedule, or given up. *)
Definition reconnected (cfg : ClientConfig.t) (k : Z) (r : result ClientError.t (list Z * option TunnelInfo.t)) : Prop :=
  match r with
  | Ok (delays, Some _) =>
      delays = map (ClientConfig.reconnect_delay_with_backoff cfg) (seqZ k (len delays)) /\
      1 <= len delays <= ClientConfig.max_reconnect_attempts cfg - k
  | Ok (_, None) => False
  | Err e => e = ClientError.Shutdown \/ e = ClientError.ReconnectionFailed
  | Panic => False
  end.

Lemma get_attempt_ok c k :
  reconnect_attempts c = k -> 0 <= k < U32_MAX ->
  get_reconnect_attempt c = (with_attempts c (k + 1), Ok (k + 1)).
Proof.
  intros E Hk. unfold get_reconnect_attempt, bind, gets, lift, increment, checked_add. rewrite E.
  unfold U32_MAX in Hk. by rewrite (proj2 (Z.ltb_lt _ _)) by lia.
Qed.

Lemma delays_cons cfg k delays :
  delays = map (ClientConfig.reconnect_delay_with_backoff cfg) (seqZ (k + 1) (len delays)) ->
  ClientConfig.reconnect_delay_with_backoff cfg k :: delays =
    map (ClientConfig.reconnect_delay_with_backoff cfg)
      (seqZ k (len (ClientConfig.reconnect_delay_with_backoff cfg k :: delays))).
Proof.
  intros E. rewrite len_cons, seqZ_cons by (pose proof (len_nonneg delays); lia). cbn [map]. f_equal.
  rewrite E at 1. f_equal. f_equal; lia.
Qed.

(** The end of reconnecting, with the invariant. *)
Definition reconnect_end (cfg : ClientConfig.t) (pk : list Z) (n k : Z) (c : t)
    (r : result ClientError.t (list Z * option TunnelInfo.t)) : Prop :=
  (exists k', 0 <= k' <= ClientConfig.max_reconnect_attempts cfg /\ inv cfg pk k' n c) /\ reconnected cfg k r.

Lemma gives_up cfg pk n k k' c :
  0 <= k' <= ClientConfig.max_reconnect_attempts cfg -> inv cfg pk k' n c ->
  wp (bind (set_state ClientState.Disconnected) (fun _ =>
        bind (emit ClientEvent.ReconnectionFailed) (fun _ => throw ClientError.ReconnectionFailed))) c
    (reconnect_end cfg pk n k).
Proof.
  intros Hk Hc. eapply wp_step; [apply safe_set_state|intros c'|exact Hc|].
  { unfold set_state, bind, gets. destruct (bool_decide _); by eexists. }
  clear c Hc. intros _ c Hc. eapply wp_step; [apply safe_emit|by eexists|exact Hc|].
  clear c Hc. intros _ c Hc. split; [by exists k'|by right].
Qed.

Lemma reconnect_loop_spec cfg pk n atts : forall c k,
  0 <= n -> u32 (ClientConfig.max_reconnect_attempts cfg) -> Forall attempt_ok atts ->
  0 <= k < ClientConfig.max_reconnect_attempts cfg -> ClientConfig.max_reconnect_attempts cfg - k <= len atts ->
  inv cfg pk k n c -> wp (reconnect_loop atts) c (reconnect_end cfg pk n k).
Proof.
  induction atts as [|a atts IH]; intros c k Hn Hmax Hok Hk Hl Hc.
  { change (len []) with 0 in Hl. lia. }
  apply Forall_cons in Hok as [[Ha1 Ha2] Hok]. rewrite len_cons in Hl.
  cbn [reconnect_loop]. apply wp_bind. unfold wp at 1.
  rewrite (get_attempt_ok c k) by (apply Hc || (unfold uint, U32_MAX in *; lia)).
  assert (inv cfg pk (k + 1) n (with_attempts c (k + 1))) as Hc1 by (destruct Hc; by split).
  revert Hc1. generalize (with_attempts c (k + 1)). clear c Hc. intros c Hc.
  apply wp_bind. unfold wp at 1, gets. rewrite (inv_config _ _ _ _ _ Hc).
  apply (wp_step _ _ _ _ _ (safe_emit cfg pk (k + 1) n _) ltac:(by eexists) Hc). clear c Hc. intros _ c Hc.
  set (delay := ClientConfig.reconnect_delay_with_backoff _ _).
  assert (delay = ClientConfig.reconnect_delay_with_backoff cfg k) as Hd.
  { unfold delay, saturating_sub. f_equal. lia. }
  clearbody delay.
  assert (safe (inv cfg pk (k + 1) n) (if shutdown_requested a then shutdown else ret tt) (fun _ => True)) as Hsh.
  { destruct (shutdown_requested a); [|by apply safe_ret]. apply safe_modify. intros c0 []. by split. }
  apply (wp_step _ _ _ _ _ Hsh ltac:(intros; destruct (shutdown_requested a); by eexists) Hc). clear c Hc Hsh. intros _ c Hc.
  apply wp_bind. unfold wp at 1, gets. destruct (is_shutdown c).
  { split; [exists (k + 1); split; [lia|done]|by left]. }
  assert (safe (inv cfg pk (k + 1) n) reset_for_reconnect (fun _ => True)) as Hr.
  { apply safe_seq; [|apply safe_clear_rekey]. apply safe_modify. intros c0 []. split; try done. }
  apply (wp_step _ _ _ _ _ Hr ltac:(by eexists) Hc). clear c Hc Hr. intros _ c Hc.
  assert (safe (inv cfg pk (k + 1) n) (modify (fun c => with_tunnel (with_session c None) None)) (fun _ => True)) as Hm.
  { apply safe_modify. intros c0 []. by split. }
  apply (wp_step _ _ _ _ _ Hm ltac:(by eexists) Hc). clear c Hc Hm. intros _ c Hc.
  assert (safe (inv cfg pk (k + 1) n) (update_stats StatsTracker.reset) (fun _ => True)) as Hs by apply safe_reset_stats.
  apply (wp_step _ _ _ _ _ Hs ltac:(by eexists) Hc). clear c Hc Hs. intros _ c Hc.
  eapply wp_try; [by apply safe_connect|exact Hc|]. clear c Hc. intros [info|e] c Hc.
  - unfold wp, bind, reset_reconnect_attempts, modify, ret, reconnect_end. simpl. split.
    { exists 0. split; [lia|]. destruct Hc. by split. }
    rewrite Hd. split; [|change (len [_]) with 1; lia]. by apply (delays_cons cfg k []).
  - apply wp_bind. unfold wp at 1, gets. unfold should_reconnect.
    rewrite (inv_config _ _ _ _ _ Hc), (inv_attempts _ _ _ _ _ Hc).
    destruct (negb (ClientConfig.auto_reconnect cfg)) eqn:Ea; cbn [negb]; cbv iota; [eapply gives_up; [|done]; lia|].
    destruct ((ClientConfig.max_reconnect_attempts cfg =? 0) || (k + 1 <? ClientConfig.max_reconnect_attempts cfg)) eqn:El;
      cbn [negb]; cbv iota; [|eapply gives_up; [|done]; lia].
    assert (k + 1 < ClientConfig.max_reconnect_attempts cfg) as Hlt by (apply orb_true_iff in El as [El|El]; b2p; lia).
    apply wp_bind. specialize (IH c (k + 1) Hn Hmax Hok ltac:(lia) ltac:(lia) Hc). unfold wp in IH |- *.
    destruct (reconnect_loop atts c) as [c' [[delays [info|]]|e'|]]; destruct IH as [Hi IH]; try done.
    simpl in IH |- *. split; [done|]. destruct IH as [IH1 IH2]. simpl. rewrite Hd. split; [by apply delays_cons|].
    rewrite len_cons. lia.
Qed.

Lemma attempt_reconnect_spec cfg pk n k atts c :
  0 <= n -> u32 (ClientConfig.max_reconnect_attempts cfg) -> Forall attempt_ok atts ->
  0 < ClientConfig.max_reconnect_attempts cfg -> 0 <= k <= ClientConfig.max_reconnect_attempts cfg ->
  ClientConfig.max_reconnect_attempts cfg - k <= len atts -> inv cfg pk k n c ->
  wp (attempt_reconnect atts) c (reconnect_end cfg pk n k).
Proof.
  intros Hn Hmax Hok Hpos Hk Hl Hc. unfold attempt_reconnect. apply wp_bind. unfold wp at 1, gets.
  destruct (negb (should_reconnect c)) eqn:Es.
  { split; [by exists k|by right]. }
  apply negb_false_iff in Es. unfold should_reconnect in Es.
  rewrite (inv_config _ _ _ _ _ Hc), (inv_attempts _ _ _ _ _ Hc) in Es.
  destruct (negb (ClientConfig.auto_reconnect cfg)); [done|].
  assert (k < ClientConfig.max_reconnect_attempts cfg) as Hlt by (apply orb_true_iff in Es as [Es|Es]; b2p; lia).
  eapply wp_step; [apply safe_set_state|intros c'|exact Hc|].
  { unfold set_state, bind, gets. destruct (bool_decide _); by eexists. }
  clear c Hc Es. intros _ c Hc. apply reconnect_loop_spec; try done; lia.
Qed.

(** * Histories *)

(** What the application, the network and the timers do with a client. *)
Inductive input :=
  | Connect (clk : nat -> Z) (d : draws) (accepted : nat -> bool) (net : list Arrival.t) (creds : option Credentials.t)
  | Loop (e : loop_event)
  | Tunnel (pooled : list Z) (accepted : bool) (payload : list Z)
  | Disconnect (accepted : bool)
  | Shutdown
  | DiscoverNat (socket_ok : bool) (net : nat -> StunClient.exchange)
  | CheckAndRebind (socket_ok : bool) (net : nat -> StunClient.exchange) (accepted : bool)
  | Reconnect (atts : list attempt).

Definition run_input (i : input) : op unit :=
  match i with
  | Connect clk d accepted net creds => bind (connect_with_credentials clk d accepted net creds) (fun _ => ret tt)
  | Loop e => bind (loop_step e) (fun _ => ret tt)
  | Tunnel pooled accepted payload => process_tunnel_packet pooled accepted payload
  | Disconnect accepted => disconnect accepted
  | Shutdown => shutdown
  | DiscoverNat socket_ok net => bind (discover_nat socket_ok net) (fun _ => ret tt)
  | CheckAndRebind socket_ok net accepted => bind (check_and_rebind socket_ok net accepted) (fun _ => ret tt)
  | Reconnect atts => bind (attempt_reconnect atts) (fun _ => ret tt)
  end.

(** Inputs within the widths of their types; the attempts of [Reconnect] are
    as many as the configuration allows. *)
Definition input_ok (cfg : ClientConfig.t) (i : input) : Prop :=
  match i with
  | Connect _ d _ net creds => random_ok d /\ creds_bytes creds /\ Forall arrival_ok net
  | Loop e => event_ok e
  | Tunnel _ _ payload => bytes_ok payload /\ len payload <= MAX_SEAL
  | DiscoverNat _ net | CheckAndRebind _ net _ => forall i, exchange_ok (net i)
  | Reconnect atts =>
      0 < ClientConfig.max_reconnect_attempts cfg <= len atts /\ Forall attempt_ok atts
  | _ => True
  end.

(** The clients made with [cfg] and given [n] inputs. *)
Inductive reach (cfg : ClientConfig.t) : Z -> t -> Prop :=
  | reach_new c : new cfg = Ok c -> reach cfg 0 c
  | reach_input n c i c' r :
      reach cfg n c -> input_ok cfg i -> run_input i c = (c', r) -> reach cfg (n + 1) c'.

Definition config_ok (cfg : ClientConfig.t) : Prop :=
  timeout_fits cfg /\ u32 (ClientConfig.max_reconnect_attempts cfg).

(** The invariant of a client with [n] inputs, whatever attempts it counts. *)
Definition ok (cfg : ClientConfig.t) (pk : list Z) (n : Z) (c : t) : Prop :=
  exists k, 0 <= k /\ (0 < ClientConfig.max_reconnect_attempts cfg -> k <= ClientConfig.max_reconnect_attempts cfg) /\
    inv cfg pk k n c.

Lemma input_step cfg pk n c i :
  config_ok cfg -> 0 <= n < U32_MAX -> ok cfg pk n c -> input_ok cfg i ->
  let '(c', r) := run_input i c in ok cfg pk (n + 1) c' /\ yields r (fun _ => True).
Proof.
  intros [Hcfg Hmax] Hn (k & Hk0 & Hkm & Hc) Hi.
  pose proof (inv_more _ _ _ n (n + 1) _ ltac:(lia) Hc) as Hc'.
  assert (forall m, safe (inv cfg pk k (n + 1)) m (fun _ => True) ->
    let '(c', r) := m c in ok cfg pk (n + 1) c' /\ yields r (fun _ : unit => True)) as Hsafe.
  { intros m Hm. specialize (Hm c Hc'). destruct (m c) as [c' r]. destruct Hm. split; [by exists k|done]. }
  assert (forall {A} (m : op A), safe (inv cfg pk k (n + 1)) m (fun _ => True) ->
    let '(c', r) := bind m (fun _ => ret tt) c in ok cfg pk (n + 1) c' /\ yields r (fun _ : unit => True)) as Hdone.
  { intros A m Hm. apply Hsafe, safe_seq; [done|by apply safe_ret]. }
  destruct i as [clk d accepted net creds|e|pooled accepted payload|accepted| |so net|so net accepted|atts]; simpl in Hi.
  - destruct Hi as (? & ? & ?). by apply Hdone, safe_connect.
  - pose proof (loop_step_inv cfg pk k n e c Hcfg ltac:(lia) Hi Hc) as Hl. unfold run_input, bind.
    destruct (loop_step e c) as [c' [l|e'|]]; destruct Hl as [Hl Hy]; try done; (split; [by exists k|done]).
  - destruct Hi. by apply Hsafe, safe_send_data.
  - apply Hsafe, safe_disconnect.
  - apply Hsafe, safe_modify. intros c0 []. by split.
  - by apply Hdone, safe_discover_nat.
  - by apply Hdone, safe_check_and_rebind.
  - destruct Hi as [Hl Ha].
    pose proof (attempt_reconnect_spec cfg pk (n + 1) k atts c ltac:(lia) Hmax Ha ltac:(lia) ltac:(lia) ltac:(lia) Hc') as Hr.
    unfold wp in Hr. unfold run_input, bind.
    destruct (attempt_reconnect atts c) as [c' [[x y]|e|]]; destruct Hr as [(k' & Hk' & Hi') Hr]; try done;
      (split; [exists k'; split_and!; [lia|lia|done]|done]).
Qed.

(** [pk] is the server's key of the configuration. *)
Definition pinned (cfg : ClientConfig.t) (pk : list Z) : Prop :=
  exists bytes, ClientConfig.decode_server_public_key cfg = Ok bytes /\ MlDsaPublicKey.from_bytes bytes = Ok pk.

Lemma new_client_ok cfg c :
  0 <= ClientConfig.max_reconnect_attempts cfg -> new cfg = Ok c -> exists pk, pinned cfg pk /\ ok cfg pk 0 c.
Proof.
  intros Hm E. unfold new in E. destruct (ClientConfig.validate cfg); [|done..]. sbind.
  cbn [rbind] in E. destruct (ClientConfig.decode_server_public_key cfg) as [bytes| |] eqn:Ed; [|done..].
  cbn [rbind] in E. destruct (MlDsaPublicKey.from_bytes bytes) as [pk| |] eqn:Ek; [|done..]. injection E as <-.
  exists pk. split; [by exists bytes|]. exists 0. split_and!; [lia|lia|]. split; try done. exists []. by split_and!.
Qed.

Lemma reach_inv cfg n c :
  config_ok cfg -> reach cfg n c -> n <= U32_MAX -> 0 <= n /\ exists pk, pinned cfg pk /\ ok cfg pk n c.
Proof.
  intros Hcfg. induction 1 as [c Hnew|n c i c' r Hr IH Hi E]; intros Hn.
  - split; [lia|]. apply new_client_ok; [|done]. destruct Hcfg as [_ [? _]]. lia.
  - destruct IH as (H0 & pk & Hpk & Hok); [lia|]. split; [lia|]. exists pk. split; [done|].
    pose proof (input_step cfg pk n c i Hcfg ltac:(lia) Hok Hi) as Hs. rewrite E in Hs. apply Hs.
Qed.


(** C15: reconnecting ends: a client allowed a positive number of attempts, of
    which [k] are used up, makes at most the rest of them and then returns: a
    tunnel, with the delays slept before each attempt those of the back-off
    schedule, never shrinking and never above five minutes; or it gives up; or
    it was shut down.  It never aborts. *)
Theorem reconnect_terminates cfg pk n k atts c :
  0 <= n -> inv cfg pk k n c -> u32 (ClientConfig.max_reconnect_attempts cfg) ->
  0 <= ClientConfig.reconnect_delay_secs cfg -> 0 < ClientConfig.max_reconnect_attempts cfg ->
  0 <= k <= ClientConfig.max_reconnect_attempts cfg ->
  Forall attempt_ok atts -> ClientConfig.max_reconnect_attempts cfg - k <= len atts ->
  match snd (attempt_reconnect atts c) with
  | Ok (delays, Some _) =>
      delays = map (ClientConfig.reconnect_delay_with_backoff cfg) (seqZ k (len delays)) /\
      1 <= len delays <= ClientConfig.max_reconnect_attempts cfg - k /\
      Forall (fun d => 0 <= d <= secs 300) delays /\
      (forall i j x y, (i <= j)%nat -> delays !! i = Some x -> delays !! j = Some y -> x <= y)
  | Ok (_, None) => False
  | Err e => e = ClientError.Shutdown \/ e = ClientError.ReconnectionFailed
  | Panic => False
  end.
Proof.
  intros Hn Hc Hmax Hd Hpos Hk Hok Hl.
  pose proof (attempt_reconnect_spec cfg pk n k atts c Hn Hmax Hok Hpos Hk Hl Hc) as Hr. unfold wp in Hr.
  destruct (attempt_reconnect atts c) as [c' r]. destruct Hr as [_ Hr]. simpl.
  destruct r as [[delays [info|]]|e|]; try done. destruct Hr as [Ed Hlen].
  assert (forall i x, delays !! i = Some x ->
    x = ClientConfig.reconnect_delay_with_backoff cfg (k + Z.of_nat i)) as Hnth.
  { intros i x Hx. rewrite Ed, list_lookup_fmap in Hx. apply fmap_Some in Hx as (z & Hz & ->).
    apply lookup_seqZ in Hz as [-> _]. f_equal. }
  split_and!; [done|lia|lia| |].
  - apply Forall_lookup. intros i x Hx. rewrite (Hnth i x Hx).
    destruct (backoff_bound cfg (k + Z.of_nat i) (k + Z.of_nat i) ltac:(lia) Hd). lia.
  - intros i j x y Hij Hx Hy. rewrite (Hnth i x Hx), (Hnth j y Hy).
    destruct (backoff_bound cfg (k + Z.of_nat i) (k + Z.of_nat j) ltac:(lia) Hd). lia.
Qed.

(** * Datagrams *)

(** [data] carries [plain] to the session of the client. *)
Definition genuine (c : t) (h : PacketHeader.t) (plain data : list Z) : Prop :=
  exists s, session c = Some s /\ PacketHeader.decode data = Ok h /\ DataPath.authentic s h plain data.

(** Decryption succeeds only for genuine packets, and otherwise changes nothing. *)
Lemma decrypt_cases c now data output :
  (forall s, session c = Some s -> Session.wf s) -> bytes_ok data ->
  match decrypt now data output c with
  | (c', Ok (out, k)) =>
      exists h s', genuine c h (slice out 0 k) data /\ 0 <= k <= len out /\ c' = with_session c (Some s') /\
        (forall s, session c = Some s -> Session.session_id s' = Session.session_id s)
  | (c', Err _) => c' = c
  | (_, Panic) => False
  end.
Proof.
  intros Hw Hb. unfold decrypt, on_session. destruct (session c) as [s|] eqn:Es; [|done].
  pose proof (Session.decrypt_packet_refused s now data output) as Hr.
  pose proof (Session.decrypt_packet_no_panic s now data output (Hw s eq_refl) Hb) as Hp.
  destruct (Session.decrypt_packet s now data output) as [s' [[[out h] k]|e|]] eqn:E; simpl in *.
  - destruct (Session.decrypt_packet_inv _ _ _ _ _ _ _ _ (Hw s eq_refl) Hb E)
      as (Hh & Hn & Hi & Hk & _ & [Hm Hpb] & Hseal & w & Hcu & Hs').
    exists h, s'. split_and!; try done; try lia; [|intros s1 [= <-]; by rewrite Hs'].
    exists s. split_and!; try done.
    + pose proof Hseal as (u & ct & tag & _ & _ & ->). rewrite PacketHeader.decode_wire by done. by rewrite Hn.
    + unfold DataPath.authentic. split_and!; try done. unfold Session.is_valid_counter.
      by rewrite <- AntiReplayWindow.check_and_update_check, Hcu.
  - rewrite Hr by tauto. destruct c. simpl in *. by subst.
  - done.
Qed.

(** The client with or without one more dropped packet counted. *)
Definition dropped (b : bool) (c : t) : t := if b then with_stats c (StatsTracker.on_packet_dropped (stats c)) else c.

(** What a datagram that is not genuine may still change: one more dropped
    packet is counted, and a rekey that is under way is given up where the
    header says RekeyResponse. *)
Definition untouched (data : list Z) (c c' : t) : Prop :=
  exists b, c' = dropped b c \/
    c' = with_rekey (dropped b c) RekeyState.cleared /\ message_type data = Some MessageType.RekeyResponse.

Lemma untouched_refl data c : untouched data c c.
Proof. exists false. by left. Qed.

(** [process_packet] on a datagram that is not genuine. *)
Lemma process_packet_forged c clk unix data output :
  (forall s, session c = Some s -> Session.wf s) -> bytes_ok data ->
  (forall h plain, ~ genuine c h plain data) ->
  exists b r, process_packet clk unix data output c = (dropped b c, r) /\
    match r with Ok (_, x) => x = None | Err _ => True | Panic => False end.
Proof.
  intros Hw Hb Hg.
  assert (forall r : result ClientError.t (list Z * option (MessageType.t * Z)),
    match r with Ok (_, x) => x = None | Err _ => True | Panic => False end ->
    exists b r', (c, r) = (dropped b c, r') /\
      match r' with Ok (_, x) => x = None | Err _ => True | Panic => False end) as Hsame.
  { intros r Hr. by exists false, r. }
  assert (forall (k : list Z * Z -> op (list Z * option (MessageType.t * Z))),
    exists e, bind (decrypt (clk 0%nat) data output) k c = (c, Err e)) as Hd.
  { intros k. pose proof (decrypt_cases c (clk 0%nat) data output Hw Hb) as Hc. unfold bind.
    destruct (decrypt (clk 0%nat) data output c) as [c' [[out m]|e|]]; [|by exists e; subst|done].
    destruct Hc as (h' & s' & Hgen & _). by apply Hg in Hgen. }
  unfold process_packet. destruct (len data <? HEADER_SIZE); [by apply Hsame|].
  pose proof (PacketHeader.decode_no_panic data Hb) as Hp.
  destruct (PacketHeader.decode data) as [h|e|]; [|by apply Hsame|done].
  match goal with |- context [bind (lift _) ?k c] => change (bind (lift (map_err ClientError.Protocol (Ok h))) k c) with (k h c) end.
  cbv beta. destruct (PacketHeader.msg_type h);
    try (match goal with |- context [bind (decrypt _ _ _) ?k c] => destruct (Hd k) as [e ->] end; by apply Hsame);
    by exists true; eexists.
Qed.

Lemma bind_inv {A A'} (m : op A) (k : A -> op A') c c' y :
  bind m k c = (c', Ok y) -> exists c1 x, m c = (c1, Ok x) /\ k x c1 = (c', Ok y).
Proof. unfold bind. destruct (m c) as [c1 [x|e|]] eqn:E; [|done|done]. intros Hk. by exists c1, x. Qed.

(** Data comes out of [process_packet] only from a genuine data packet. *)
Lemma process_packet_data c clk unix data output c' out n :
  (forall s, session c = Some s -> Session.wf s) -> bytes_ok data ->
  process_packet clk unix data output c = (c', Ok (out, Some (MessageType.Data, n))) ->
  exists h, genuine c h (slice out 0 n) data /\ PacketHeader.msg_type h = MessageType.Data /\ 0 <= n <= len out.
Proof.
  intros Hw Hb. unfold process_packet. destruct (len data <? HEADER_SIZE); [done|].
  pose proof (decrypt_cases c (clk 0%nat) data output Hw Hb) as Hd.
  destruct (PacketHeader.decode data) as [h|e|] eqn:Eh; [|done|done].
  match goal with |- context [bind (lift _) ?k c] => change (bind (lift (map_err ClientError.Protocol (Ok h))) k c) with (k h c) end.
  cbv beta. destruct (PacketHeader.msg_type h) eqn:Em; try done; unfold bind at 1; 
    destruct (decrypt (clk 0%nat) data output c) as [c1 [[o m]|e|]]; try done.
  2-4: cbv beta iota; intros E; apply bind_inv in E as (c2 & p & _ & E); apply bind_inv in E as (c3 & u & _ & E); done.
  intros [= <- <- <-]. destruct Hd as (h' & s' & (s & Hs & Hdec & Ha) & Hm & _).
  rewrite Eh in Hdec. injection Hdec as <-. exists h. split; [by exists s; split; [|split]|]. split; [done|lia].
Qed.

(** C13: what an attacker who cannot seal packets of the session achieves with a
    datagram: nothing reaches the tunnel, and the client is as before, except
    that one more dropped packet may be counted and that a datagram whose header
    says RekeyResponse ends a rekey under way.  What reaches the tunnel is what the
    server sealed for this session, with a counter not seen before. *)
Theorem only_genuine_datagrams c clk unix pooled data channel :
  (forall s, session c = Some s -> Session.wf s) -> bytes_ok data ->
  let '(c', r) := on_received clk unix pooled data channel c in
  ((forall h plain, ~ genuine c h plain data) -> untouched data c c' /\ r = Ok []) /\
  (forall l, r = Ok l -> l <> [] ->
     exists h plain, genuine c h plain data /\ PacketHeader.msg_type h = MessageType.Data /\ l = [plain]).
Proof.
  intros Hw Hb. destruct (on_received clk unix pooled data channel c) as [c' r] eqn:E. unfold on_received in E.
  destruct (negb (0 <? len data)).
  { injection E as <- <-. split; [intros _; split; [apply untouched_refl|done]|]. by intros l [= <-]. }
  split.
  - intros Hg. destruct (process_packet_forged c clk unix data pooled Hw Hb Hg) as (b & r0 & Hp & Hr0).
    unfold bind at 1, try in E. rewrite Hp in E.
    destruct r0 as [[out x]|e|]; [subst x| |done]; cbv beta iota in E.
    + injection E as <- <-. split; [|done]. exists b. by left.
    + destruct (bool_decide (message_type data = _)) eqn:Ek.
      * injection E as <- <-. split; [|done]. exists b. right. split; [done|]. by apply bool_decide_eq_true in Ek.
      * injection E as <- <-. split; [|done]. exists b. by left.
  - intros l -> Hl. unfold bind at 1, try in E.
    destruct (process_packet clk unix data pooled c) as [c1 [[out [[mt n]|]]|e|]] eqn:Hp; cbv beta iota in E.
    + destruct mt; try (injection E as <- <-; done).
      destruct (process_packet_data _ _ _ _ _ _ _ _ Hw Hb Hp) as (h & Hgen & Hmt & Hn).
      exists h, (slice out 0 n). split_and!; try done.
      destruct (0 <? n); [|by injection E as <- <-]. destruct channel; [|by injection E as <- <-|done].
      unfold bind, lift in E. rewrite range_ok in E by lia. by injection E as <- <-.
    + by injection E as <- <-.
    + destruct (bool_decide _); injection E as <- <-; done.
    + done.
Qed.

(** ** Rebinding *)

(** The operations that leave a pending rebind pending. *)
Definition keeps {A} (m : op A) : Prop :=
  forall c, rebind_pending c = true -> rebind_pending (fst (m c)) = true.

Lemma keeps_bind {A A'} (m : op A) (k : A -> op A') : keeps m -> (forall a, keeps (k a)) -> keeps (bind m k).
Proof.
  intros Hm Hk c Hc. specialize (Hm c Hc). unfold bind. destruct (m c) as [c1 [a|e|]]; [by apply Hk|done|done].
Qed.

Lemma keeps_try {A} (m : op A) : keeps m -> keeps (try m).
Proof. intros Hm c Hc. specialize (Hm c Hc). unfold try. by destruct (m c) as [c1 [a|e|]]. Qed.

Lemma keeps_modify f : (forall c, rebind_pending (f c) = rebind_pending c) -> keeps (modify f).
Proof. intros Hf c Hc. simpl. by rewrite Hf. Qed.

Lemma keeps_pure {A} (m : op A) : (forall c, fst (m c) = c) -> keeps m.
Proof. intros Hm c Hc. by rewrite Hm. Qed.

Lemma keeps_on_session {A} (f : Session.t -> Session.t * result ClientError.t A) : keeps (on_session f).
Proof. intros c Hc. unfold on_session. destruct (session c) as [s|]; [|done]. by destruct (f s). Qed.

Create HintDb keeps.
#[local] Hint Resolve keeps_try keeps_on_session : keeps.

Ltac keeps :=
  repeat first
    [ progress intros
    | solve [auto with keeps]
    | apply keeps_bind
    | apply keeps_try
    | apply keeps_on_session
    | apply keeps_modify; intros; reflexivity
    | apply keeps_pure; intros; reflexivity
    | match goal with
      | |- keeps (match ?x with _ => _ end) => destruct x
      | |- keeps (let '_ := ?x in _) => destruct x
      end ].

Lemma keeps_set_state s : keeps (set_state s).
Proof. unfold set_state, emit. keeps. Qed.

Lemma keeps_set_rebind : keeps (set_rebind true).
Proof. by intros c Hc. Qed.

Lemma keeps_send accepted p : keeps (send accepted p).
Proof. unfold send. keeps. Qed.
#[local] Hint Resolve keeps_set_state keeps_send keeps_set_rebind : keeps.

Lemma keeps_connect clk d accepted net creds : keeps (connect_with_credentials clk d accepted net creds).
Proof.
  assert (forall bodies i, keeps (send_fragments accepted i bodies)) as Hf.
  { induction bodies; intros i; simpl; keeps. }
  unfold connect_with_credentials, perform_handshake, send_init, finish_connect, update_stats, emit_error, emit. keeps.
Qed.
#[local] Hint Resolve keeps_connect : keeps.

Lemma keeps_tick e : match e with Received _ _ _ _ _ => True | _ => keeps (loop_step e) end.
Proof.
  destruct e; try done; unfold loop_step, send_keepalive, initiate_rekey, on_timeout_tick, clear_rekey_state, emit,
    encrypt, update_stats; keeps.
Qed.

Lemma keeps_reconnect atts : keeps (attempt_reconnect atts).
Proof.
  assert (forall l, keeps (reconnect_loop l)) as Hl.
  { induction l as [|a l IH]; simpl; unfold get_reconnect_attempt, reset_for_reconnect, reset_keepalive_state,
      clear_rekey_state, update_stats, reset_reconnect_attempts, connect, shutdown, emit; keeps. }
  unfold attempt_reconnect. keeps.
Qed.

Lemma keeps_check_and_rebind so net accepted : keeps (check_and_rebind so net accepted).
Proof. unfold check_and_rebind, discover_nat, send_rebind, encrypt, emit. keeps. Qed.

(** Everything but a datagram. *)
Lemma keeps_input i : (forall clk unix pooled data ch, i <> Loop (Received clk unix pooled data ch)) -> keeps (run_input i).
Proof.
  intros Hi. destruct i as [clk d accepted net creds|e|pooled accepted payload|accepted| |so net|so net accepted|atts];
    unfold run_input; try (apply keeps_bind; [|keeps]).
  - apply keeps_connect.
  - pose proof (keeps_tick e) as He. destruct e; try done. by edestruct Hi.
  - unfold process_tunnel_packet, send_data, encrypt, count, update_stats. keeps.
  - unfold disconnect, encrypt, clear_rekey_state, update_stats, emit. keeps.
  - unfold shutdown. keeps.
  - unfold discover_nat, emit. keeps.
  - apply keeps_check_and_rebind.
  - apply keeps_reconnect.
Qed.

Lemma keeps_after {A A'} (m : op A) (k : A -> op A') c :
  rebind_pending (fst (m c)) = true -> (forall a, keeps (k a)) -> rebind_pending (fst (bind m k c)) = true.
Proof. intros Hm Hk. unfold bind. destruct (m c) as [c1 [a|e|]]; [by apply Hk|done|done]. Qed.

Lemma try_pending {A} (m : op A) c : rebind_pending (fst (m c)) = true -> rebind_pending (fst (try m c)) = true.
Proof. unfold try. by destruct (m c) as [c1 [a|e|]]. Qed.

(** The acknowledgements the client accepts. *)
Definition acknowledges (c : t) (unix : option Z) (control : ControlMessage.t) : Prop :=
  ControlMessage.control_type control = ControlType.RebindAck /\
  match ControlMessage.signed_payload control with
  | Some signed =>
      exists s, session c = Some s /\
        SignedRebindAckPayload.verify unix signed (server_public_key c) (Session.session_id s) = Ok tt
  | None => ClientConfig.require_signed_rebind_ack (config c) = false
  end.

Lemma control_message_rebind c unix payload :
  rebind_pending c = true -> rebind_pending (fst (process_control_message unix payload c)) = false ->
  exists control, ControlMessage.from_bytes payload = Ok control /\ acknowledges c unix control.
Proof.
  intros Hc. unfold process_control_message. unfold bind at 1, lift.
  destruct (ControlMessage.from_bytes payload) as [control|e|]; simpl; [|congruence|congruence].
  destruct (ControlMessage.control_type control) eqn:Et; unfold bind at 1, emit at 1, modify at 1;
    try (set (c1 := with_events _ _); assert (rebind_pending c1 = true) as Hc1 by done;
         match goal with |- rebind_pending (fst (?m c1)) = false -> _ =>
           assert (keeps m) as Hk by (unfold emit_error, emit; keeps); rewrite (Hk c1 Hc1); done end).
  intros Ha. exists control. split; [done|]. split; [done|]. revert Ha.
  unfold on_rebind_ack. unfold bind at 1. cbn. destruct (session c) as [s|]; [|cbn; congruence].
  destruct (ControlMessage.signed_payload control) as [signed|]; unfold bind at 1; cbn.
  - destruct (SignedRebindAckPayload.verify _ _ _ _) as [[]|e|] eqn:Ev; [|cbn; congruence|cbn; congruence].
    intros _. by exists s.
  - by destruct (ClientConfig.require_signed_rebind_ack (config c)); [cbn; congruence|].
Qed.

Lemma process_packet_rebind c clk unix data output :
  (forall s, session c = Some s -> Session.wf s) -> bytes_ok data ->
  rebind_pending c = true -> rebind_pending (fst (process_packet clk unix data output c)) = false ->
  exists h plain control, genuine c h plain data /\ PacketHeader.msg_type h = MessageType.Control /\
    ControlMessage.from_bytes plain = Ok control /\ acknowledges c unix control.
Proof.
  intros Hw Hb Hc. unfold process_packet. destruct (len data <? HEADER_SIZE); [simpl; congruence|].
  pose proof (decrypt_cases c (clk 0%nat) data output Hw Hb) as Hd.
  destruct (PacketHeader.decode data) as [h|e|] eqn:Eh; [|simpl; congruence|simpl; congruence].
  match goal with |- context [bind (lift _) ?k c] => change (bind (lift (map_err ClientError.Protocol (Ok h))) k c) with (k h c) end.
  cbv beta. destruct (PacketHeader.msg_type h) eqn:Em;
    try (match goal with |- rebind_pending (fst (?m c)) = false -> _ =>
           assert (keeps m) as Hk by (unfold process_keepalive_reply, process_rekey_response, clear_rekey_state,
             decrypt, count, update_stats, emit; keeps); rewrite (Hk c Hc); done end).
  unfold bind at 1. destruct (decrypt (clk 0%nat) data output c) as [c1 [[o m]|e|]]; [|subst; simpl; congruence|done].
  destruct Hd as (h' & s' & Hg & Hm & -> & Hid). cbv beta iota. unfold bind at 1, lift. rewrite range_ok by lia.
  intros Hr. unfold bind in Hr.
  destruct (process_control_message unix (slice o 0 m) (with_session c (Some s'))) as [c2 r] eqn:E.
  assert (rebind_pending c2 = false) as Hc2 by (by destruct r).
  destruct (control_message_rebind (with_session c (Some s')) unix (slice o 0 m) Hc) as (control & Hf & Ht & Ha); [by rewrite E|].
  destruct Hg as (s & Hs & Hdec & Hau). rewrite Eh in Hdec. injection Hdec as <-.
  exists h, (slice o 0 m), control. split; [by exists s; split; [|split]|]. split; [done|]. split; [done|]. split; [done|].
  destruct (ControlMessage.signed_payload control); [|done].
  destruct Ha as (s2 & [= <-] & Hv). exists s. split; [done|]. rewrite <- (Hid s Hs). apply Hv.
Qed.

(** C14: while a change of endpoint awaits its acknowledgement, only a control
    packet the server sealed for this session ends the wait: a RebindAck that
    carries the signature of the pinned key over this session, fresh by the
    client's clock, or one without signature if the configuration allows it.
    Until then no endpoint is announced again: neither another change, nor a
    reconnection, nor disconnecting ends the wait. *)
Theorem rebind_acknowledged c i :
  (forall s, session c = Some s -> Session.wf s) -> rebind_pending c = true ->
  (forall clk unix pooled data ch, i = Loop (Received clk unix pooled data ch) -> bytes_ok data) ->
  (rebind_pending (fst (run_input i c)) = false ->
   exists clk unix pooled data ch h plain control,
     i = Loop (Received clk unix pooled data ch) /\ genuine c h plain data /\
     PacketHeader.msg_type h = MessageType.Control /\ ControlMessage.from_bytes plain = Ok control /\
     acknowledges c unix control) /\
  (forall accepted endpoint, send_rebind accepted endpoint c = (c, Err ClientError.InvalidState)).
Proof.
  intros Hw Hc Hb. split; [|intros accepted endpoint; unfold send_rebind, bind, gets; by rewrite Hc].
  intros Hr. assert ((exists e, i = Loop e) \/ (forall e, i <> Loop e)) as [[e ->]|Hi]
    by (destruct i; (right; congruence) || (left; by eexists)).
  2: { rewrite (keeps_input i) in Hr; [done| |done]. intros. apply Hi. }
  destruct e as [clk unix pooled data ch| | | |]; try (rewrite keeps_input in Hr; [done|by intros|done]).
  destruct (rebind_pending (fst (process_packet clk unix data pooled c))) eqn:Ep.
  - exfalso. revert Hr. unfold run_input, loop_step, on_received. destruct (negb _); [simpl; congruence|].
    rewrite keeps_after; [done| |keeps]. apply keeps_after; [by apply try_pending|].
    unfold count, update_stats, clear_rekey_state. keeps.
  - destruct (process_packet_rebind c clk unix data pooled Hw (Hb _ _ _ _ _ eq_refl) Hc Ep) as (h & plain & control & Hp).
    by exists clk, unix, pooled, data, ch, h, plain, control.
Qed.

End Safety.
End ClientSafety.

(** * Concrete clients *)

(** A decoder that knows two keys. *)
#[local] Instance ExampleKeys : Base64 := {
  decode_standard s :=
    if String.eqb s "kem" then Some (HybridPublicKey.to_bytes (snd example_kem))
    else if String.eqb s "pk" then Some (VpnClient.server_public_key example_vpn_client) else None;
}.

Lemma example_client_new : VpnClient.new example_client_config = Ok example_vpn_client.
Proof. reflexivity. Qed.

Lemma example_config_ok : ClientSafety.config_ok example_client_config.
Proof. split; [|split]; vm_compute; congruence. Qed.


(** Nobody answers. *)
Definition example_attempt : VpnClient.attempt := VpnClient.mk_attempt false (fun _ => 5) example_draws (fun _ => true) [].

Lemma example_client_inv :
  ClientSafety.inv example_client_config (VpnClient.server_public_key example_vpn_client) 0 0 example_vpn_client.
Proof. split; try done. exists []. by split_and!. Qed.

Lemma reconnect_terminates_witness :
  match snd (VpnClient.attempt_reconnect (replicate 5 example_attempt) example_vpn_client) with
  | Err e => e = ClientError.Shutdown \/ e = ClientError.ReconnectionFailed
  | Ok (delays, info) => is_Some info /\ 1 <= len delays <= 5
  | Panic => False
  end.
Proof.
  pose proof (ClientSafety.reconnect_terminates example_client_config (VpnClient.server_public_key example_vpn_client) 0 0
    (replicate 5 example_attempt) example_vpn_client ltac:(lia) example_client_inv ltac:(by_decide) ltac:(by_decide)
    ltac:(by_decide) ltac:(by_decide)) as Hr.
  destruct (snd (VpnClient.attempt_reconnect _ _)) as [[delays [info|]]|e|].
  - destruct Hr as (_ & Hl & _).
    + repeat constructor; by_decide.
    + by_decide.
    + split; [by eexists|exact Hl].
  - destruct Hr; [repeat constructor; by_decide|by_decide].
  - apply Hr; [repeat constructor; by_decide|by_decide].
  - apply Hr; [repeat constructor; by_decide|by_decide].
Defined.

Lemma only_genuine_datagrams_witness :
  ClientSafety.untouched [1; 2; 3] example_connected_client
    (fst (VpnClient.on_received (fun _ => 5) None [] [1; 2; 3] VpnClient.Taken example_connected_client)).
Proof.
  pose proof (ClientSafety.only_genuine_datagrams example_connected_client (fun _ => 5) None [] [1; 2; 3] VpnClient.Taken)
    as Hd.
  destruct (VpnClient.on_received _ _ _ _ _ _) as [c' r]. apply Hd.
  - intros s [= <-]. exact example_client_session_wf.
  - by_decide.
  - intros h plain (s & _ & Hh & _). discriminate Hh.
Defined.

Lemma rebind_acknowledged_witness :
  let c := VpnClient.with_rebind example_connected_client true in
  VpnClient.rebind_pending (fst (ClientSafety.run_input (ClientSafety.Disconnect true) c)) = true.
Proof.
  intros c. destruct (ClientSafety.rebind_acknowledged c (ClientSafety.Disconnect true)) as [Hr _].
  - intros s [= <-]. exact example_client_session_wf.
  - reflexivity.
  - intros clk unix pooled data ch E. discriminate E.
  - destruct (VpnClient.rebind_pending _); [reflexivity|].
    destruct (Hr eq_refl) as (clk & unix & pooled & data & ch & h & plain & control & E & _). discriminate E.
Defined.
