(* ===== verification/RelaySession.v ===== *)
(** The relay's session table (hpn-relay/src/session.rs).

    A session is bound to the address of one client.  Every method is atomic
    but [remove], which takes the locks of the two maps one after the other
    and is taken apart below.  Clock readings are arguments, as in
    SessionManager.v; what a check of [is_expired] reads during a cleanup is a
    function of the session. *)

From S2P Require Import Prelude Types Net Session TokenBucket SessionManager.

(** * The rate limiter

    The structure and its [refill] are those of the server's limiter, which
    aborts where [max_bps * 2] does not fit; the bucket starts with one
    second's worth. *)
Module RateLimiter.

Definition t : Type := SessionRateLimiter.t.

Definition new (now_us max_pps max_bps : Z) : t :=
  SessionRateLimiter.mk max_pps max_bps max_pps max_bps now_us.

Definition unlimited (now_us : Z) : t := new now_us 0 0.

Definition MAX_RETRIES : Z := 32.

Definition refill {E} : t -> Z -> result E t := SessionRateLimiter.refill.

(** [lost_packet] and [lost_byte]: how many of the compare-and-swaps on the
    two buckets fail. *)
Definition check {E} (l : t) (now_us bytes lost_packet lost_byte : Z) : result E (t * bool) :=
  if (SessionRateLimiter.max_pps l =? 0) && (SessionRateLimiter.max_bps l =? 0) then Ok (l, true)
  else
    let? l := refill l now_us in
    let pps := SessionRateLimiter.max_pps l in
    let bps := SessionRateLimiter.max_bps l in
    let packets := SessionRateLimiter.packet_tokens l in
    let byte_tokens := SessionRateLimiter.byte_tokens l in
    let set p b := SessionRateLimiter.mk pps bps p b (SessionRateLimiter.last_refill_us l) in
    if (0 <? pps) && ((packets =? 0) || (MAX_RETRIES <=? lost_packet)) then Ok (l, false)
    else
      let packets := if 0 <? pps then packets - 1 else packets in
      let rollback := if 0 <? pps then packets + 1 else packets in
      if 0 <? bps then
        if byte_tokens <? bytes then Ok (set rollback byte_tokens, false)
        else if MAX_RETRIES <=? lost_byte then Ok (set rollback byte_tokens, false)
        else Ok (set packets (byte_tokens - bytes), true)
      else Ok (set packets byte_tokens, true).

End RateLimiter.

Module SessionStats.

Record t := mk {
  session_id : Z;
  client_addr : SocketAddr.t;
  bytes_sent : Z;
  bytes_received : Z;
  packets_sent : Z;
  packets_received : Z;
  age : Z;
}.

End SessionStats.

Module RelaySession.

Record t := mk {
  session_id : Z;
  client_addr : SocketAddr.t;
  last_activity_ms : Z;
  created_at : Z;
  bytes_sent : Z;
  bytes_received : Z;
  packets_sent : Z;
  packets_received : Z;
  client_rate_limiter : RateLimiter.t;
  upstream_rate_limiter : RateLimiter.t;
}.

Definition with_rate_limit (c : clock) (session_id : Z) (client_addr : SocketAddr.t)
    (max_pps max_bps : Z) : t :=
  mk session_id client_addr (now_ms c) (now c) 0 0 0 0 (RateLimiter.new (now_us c) max_pps max_bps)
    (RateLimiter.new (now_us c) max_pps max_bps).

Definition new (c : clock) (session_id : Z) (client_addr : SocketAddr.t) : t :=
  with_rate_limit c session_id client_addr 0 0.

Definition set_limiters (s : t) (client upstream : RateLimiter.t) : t :=
  mk (session_id s) (client_addr s) (last_activity_ms s) (created_at s) (bytes_sent s)
    (bytes_received s) (packets_sent s) (packets_received s) client upstream.

Definition check_rate_limit {E} (s : t) (now_us bytes lost_packet lost_byte : Z) : result E (t * bool) :=
  let? (l, ok) := RateLimiter.check (client_rate_limiter s) now_us bytes lost_packet lost_byte in
  Ok (set_limiters s l (upstream_rate_limiter s), ok).

Definition check_upstream_rate_limit {E} (s : t) (now_us bytes lost_packet lost_byte : Z) : result E (t * bool) :=
  let? (l, ok) := RateLimiter.check (upstream_rate_limiter s) now_us bytes lost_packet lost_byte in
  Ok (set_limiters s (client_rate_limiter s) l, ok).

Definition touch (s : t) (now_ms : Z) : t :=
  mk (session_id s) (client_addr s) now_ms (created_at s) (bytes_sent s) (bytes_received s)
    (packets_sent s) (packets_received s) (client_rate_limiter s) (upstream_rate_limiter s).

(** [timeout] in milliseconds. *)
Definition is_expired (s : t) (now_ms timeout_ms : Z) : bool :=
  timeout_ms <? saturating_sub now_ms (last_activity_ms s).

Definition record_sent (s : t) (bytes : Z) : t :=
  mk (session_id s) (client_addr s) (last_activity_ms s) (created_at s)
    (wrapping_add 64 (bytes_sent s) bytes) (bytes_received s)
    (wrapping_add 64 (packets_sent s) 1) (packets_received s)
    (client_rate_limiter s) (upstream_rate_limiter s).

Definition record_received (s : t) (bytes : Z) : t :=
  mk (session_id s) (client_addr s) (last_activity_ms s) (created_at s)
    (bytes_sent s) (wrapping_add 64 (bytes_received s) bytes)
    (packets_sent s) (wrapping_add 64 (packets_received s) 1)
    (client_rate_limiter s) (upstream_rate_limiter s).

Definition stats (s : t) (now : Z) : SessionStats.t :=
  SessionStats.mk (session_id s) (client_addr s) (bytes_sent s) (bytes_received s) (packets_sent s)
    (packets_received s) (saturating_sub now (created_at s)).

End RelaySession.

Definition DEFAULT_MAX_SESSIONS_PER_IP : Z := 100.
Definition DEFAULT_MAX_TRACKED_IPS_RELAY : Z := 100000.

Module ClientPacketProcessResult.

Inductive t :=
  | Forward (is_new : bool)
  | SessionRejected
  | RoamingBlocked
  | RateLimited.

End ClientPacketProcessResult.

Module AggregateStats.

Record t := mk {
  session_count : Z;
  total_bytes_sent : Z;
  total_bytes_received : Z;
  total_packets_sent : Z;
  total_packets_received : Z;
}.

End AggregateStats.

Module RelaySessionManager.

Record t := mk {
  sessions : gmap Z RelaySession.t;
  ip_session_counts : gmap IpAddr.t Z;
  timeout : Z;
  max_sessions : Z;
  max_sessions_per_ip : Z;
  max_tracked_ips : Z;
  rate_limit_pps : Z;
  rate_limit_bps : Z;
}.

Definition with_rate_limits (timeout max_sessions rate_limit_pps rate_limit_bps : Z) : t :=
  mk ∅ ∅ timeout max_sessions DEFAULT_MAX_SESSIONS_PER_IP DEFAULT_MAX_TRACKED_IPS_RELAY
    rate_limit_pps rate_limit_bps.

Definition new (timeout max_sessions : Z) : t := with_rate_limits timeout max_sessions 0 0.

Definition set_maps (m : t) (s : gmap Z RelaySession.t) (c : gmap IpAddr.t Z) : t :=
  mk s c (timeout m) (max_sessions m) (max_sessions_per_ip m) (max_tracked_ips m)
    (rate_limit_pps m) (rate_limit_bps m).

Definition client_ip (s : RelaySession.t) : IpAddr.t := SocketAddr.ip (RelaySession.client_addr s).

(** One session less of an address. *)
Definition decrement (counts : gmap IpAddr.t Z) (ip : IpAddr.t) : gmap IpAddr.t Z :=
  match counts !! ip with
  | Some count =>
      let count := saturating_sub count 1 in
      if count =? 0 then delete ip counts else <[ip := count]> counts
  | None => counts
  end.

Definition cleanup_expired_locked {O : HashIter Z RelaySession.t} (m : t) (now_ms : Z -> Z) : t * Z :=
  let expired := fun kv : Z * RelaySession.t =>
    RelaySession.is_expired (snd kv) (now_ms (fst kv)) (timeout m) = true in
  let removed_ips := (fun kv => client_ip (snd kv)) <$> filter expired (hash_iter (sessions m)) in
  let kept := filter (fun kv => ~ expired kv) (sessions m) in
  (set_maps m kept (foldl decrement (ip_session_counts m) removed_ips),
   Z.of_nat (size (sessions m)) - Z.of_nat (size kept)).

Definition cleanup_expired {O : HashIter Z RelaySession.t} (m : t) (now_ms : Z -> Z) : t * Z :=
  cleanup_expired_locked m now_ms.

Section Binding.
Context {O : HashIter Z RelaySession.t}.

Definition get_or_create (m : t) (c : clock) (cleanup_ms : Z -> Z) (session_id : Z)
    (client_addr : SocketAddr.t) : t * bool :=
  let ip := SocketAddr.ip client_addr in
  if match sessions m !! session_id with
     | Some session => bool_decide (RelaySession.client_addr session = client_addr)
     | None => false
     end then (m, false)
  else
    match sessions m !! session_id with
    | Some session =>
        if negb (bool_decide (RelaySession.client_addr session = client_addr)) then (m, false)
        else
          (set_maps m (<[session_id := RelaySession.touch session (now_ms c)]> (sessions m))
             (ip_session_counts m), false)
    | None =>
        let cap := max_sessions m in
        let m :=
          if cap <=? Z.of_nat (size (sessions m)) then fst (cleanup_expired_locked m cleanup_ms) else m in
        if cap <=? Z.of_nat (size (sessions m)) then (m, false)
        else
          let counts := ip_session_counts m in
          if bool_decide (counts !! ip = None) && (max_tracked_ips m <=? Z.of_nat (size counts)) then
            (m, false)
          else
            let count := default 0 (counts !! ip) in
            if max_sessions_per_ip m <=? count then
              (set_maps m (sessions m) (<[ip := count]> counts), false)
            else
              (set_maps m
                 (<[session_id :=
                      RelaySession.with_rate_limit c session_id client_addr (rate_limit_pps m)
                        (rate_limit_bps m)]> (sessions m))
                 (<[ip := count + 1]> counts), true)
    end.

Definition bind_established (m : t) (c : clock) (cleanup_ms : Z -> Z) (session_id : Z)
    (client_addr : SocketAddr.t) : t * bool :=
  if session_id =? 0 then (m, false) else get_or_create m c cleanup_ms session_id client_addr.

End Binding.

Definition put (m : t) (session_id : Z) (s : RelaySession.t) : t :=
  set_maps m (<[session_id := s]> (sessions m)) (ip_session_counts m).

Definition process_upstream_packet (m : t) (now_ms session_id bytes : Z) : t * option SocketAddr.t :=
  match sessions m !! session_id with
  | Some session =>
      (put m session_id (RelaySession.touch (RelaySession.record_received session bytes) now_ms),
       Some (RelaySession.client_addr session))
  | None => (m, None)
  end.

Definition is_rate_limited (m : t) : bool := (0 <? rate_limit_pps m) || (0 <? rate_limit_bps m).

Definition process_client_packet {E} (m : t) (now_ms now_us lost_packet lost_byte session_id : Z)
    (client_addr : SocketAddr.t) (bytes : Z) : t * result E ClientPacketProcessResult.t :=
  if session_id =? 0 then (m, Ok ClientPacketProcessResult.SessionRejected)
  else
    match sessions m !! session_id with
    | None => (m, Ok ClientPacketProcessResult.SessionRejected)
    | Some session =>
        if negb (bool_decide (RelaySession.client_addr session = client_addr)) then
          (m, Ok ClientPacketProcessResult.RoamingBlocked)
        else
          match (if is_rate_limited m then
                   RelaySession.check_rate_limit session now_us bytes lost_packet lost_byte
                 else Ok (session, true)) with
          | Panic => (m, Panic)
          | Err e => (m, Err e)
          | Ok (session, false) => (put m session_id session, Ok ClientPacketProcessResult.RateLimited)
          | Ok (session, true) =>
              (put m session_id (RelaySession.touch (RelaySession.record_sent session bytes) now_ms),
               Ok (ClientPacketProcessResult.Forward false))
          end
    end.

(** The two critical sections of [remove]. *)
Definition remove_entry (m : t) (session_id : Z) : t * option RelaySession.t :=
  (set_maps m (delete session_id (sessions m)) (ip_session_counts m), sessions m !! session_id).

Definition remove_count (m : t) (ip : IpAddr.t) : t :=
  set_maps m (sessions m) (decrement (ip_session_counts m) ip).

Definition remove (m : t) (session_id : Z) : t * option RelaySession.t :=
  let '(m, session) := remove_entry m session_id in
  match session with
  | Some s => (remove_count m (client_ip s), session)
  | None => (m, session)
  end.

Definition check_upstream_rate_limit {E} (m : t) (now_us lost_packet lost_byte session_id bytes : Z)
    : t * result E bool :=
  match sessions m !! session_id with
  | Some session =>
      match RelaySession.check_upstream_rate_limit session now_us bytes lost_packet lost_byte with
      | Ok (s, ok) => (put m session_id s, Ok ok)
      | Err e => (m, Err e)
      | Panic => (m, Panic)
      end
  | None => (m, Ok false)
  end.

Definition session_count (m : t) : Z := Z.of_nat (size (sessions m)).

(** The additions wrap around. *)
Definition aggregate_stats (m : t) : AggregateStats.t :=
  let sum f := as_uint 64 (map_sum f (sessions m)) in
  AggregateStats.mk (session_count m) (sum RelaySession.bytes_sent) (sum RelaySession.bytes_received)
    (sum RelaySession.packets_sent) (sum RelaySession.packets_received).

End RelaySessionManager.

(** * The bound on the traffic *)

(** Contention only refuses what the server's limiter might pass. *)
Lemma relay_check_cases {E} l now bytes lp lb :
  RateLimiter.check (E := E) l now bytes lp lb = SessionRateLimiter.check l now bytes \/
  exists l', (SessionRateLimiter.max_pps l =? 0) && (SessionRateLimiter.max_bps l =? 0) = false /\
    SessionRateLimiter.refill (E := E) l now = Ok l' /\ RateLimiter.check (E := E) l now bytes lp lb = Ok (l', false).
Proof.
  unfold RateLimiter.check, SessionRateLimiter.check, RateLimiter.refill.
  destruct (_ && _); [by left|]. destruct (SessionRateLimiter.refill l now) as [[pps bps pt bt last]| |]; [|by left..]. simpl.
  destruct (0 <? pps); simpl;
    [destruct (pt =? 0); simpl; [by left|]; destruct (_ <=? lp); simpl; [right; by eexists|]|];
    (destruct (0 <? bps); [|by left]; destruct (bt <? bytes) eqn:E1; b2p;
     [rewrite (proj2 (Z.leb_gt bytes bt)) by lia|rewrite (proj2 (Z.leb_le bytes bt)) by lia;
      destruct (_ <=? lb); [right; eexists; split_and!; [done|done|]|by left]]).
  all: try left; repeat f_equal; lia.
Qed.

Lemma relay_check_spec {E} l now bytes lp lb :
  match RateLimiter.check (E := E) l now bytes lp lb with
  | Ok (l', _) => SessionRateLimiter.max_bps l' = SessionRateLimiter.max_bps l
  | Err _ => False
  | Panic => ~ SessionRateLimiter.fits l
  end.
Proof.
  pose proof (SessionRateLimiter.check_spec (E := E) l now bytes) as Hc.
  pose proof (SessionRateLimiter.refill_spec (E := E) l now) as Hr.
  destruct (relay_check_cases (E := E) l now bytes lp lb) as [->|(l' & _ & E1 & ->)].
  - destruct (SessionRateLimiter.check l now bytes) as [[l' ok]| |]; by try apply Hc.
  - rewrite E1 in Hr. apply Hr.
Qed.

(** [relay_run pps bps t0 l p b T]: a limiter created at [t0] is in state [l]
    at [T] after it let [p] packets with [b] bytes through. *)
Inductive relay_run (pps bps t0 : Z) : RateLimiter.t -> Z -> Z -> Z -> Prop :=
  | relay_run_new : relay_run pps bps t0 (RateLimiter.new t0 pps bps) 0 0 t0
  | relay_run_check l p b T now bytes lp lb l' (ok : bool) :
      relay_run pps bps t0 l p b T -> T <= now -> 0 <= bytes ->
      RateLimiter.check (E := Empty_set) l now bytes lp lb = Ok (l', ok) ->
      relay_run pps bps t0 l' (if ok then p + 1 else p) (if ok then b + bytes else b) now.

Lemma relay_run_kept pps bps t0 l p b T :
  0 <= pps < 2 ^ 32 -> 0 <= bps < 2 ^ 63 -> relay_run pps bps t0 l p b T -> kept pps bps t0 l p b T.
Proof.
  intros Hp Hb. induction 1 as [|l p b T now bytes lp lb l' ok Hr IH HT Hn Hc].
  - split; try done; cbn [RateLimiter.new SessionRateLimiter.last_refill_us
      SessionRateLimiter.packet_tokens SessionRateLimiter.byte_tokens]; try lia;
      intros Hpos; (split; [lia|rewrite Z.sub_diag; lia]).
  - destruct (relay_check_cases (E := Empty_set) l now bytes lp lb) as [E|(l1 & _ & E1 & E)]; rewrite E in Hc.
    + by apply (kept_check (E := Empty_set) pps bps t0 l p b T now bytes).
    + injection Hc as <- <-. by apply (kept_refill (E := Empty_set) pps bps t0 l p b T).
Qed.

(** A session keeps to its rate, at the server and at the relay: whatever
    traffic it offers and whatever contention there is, the packets (bytes)
    let through up to time [T] are at most a burst of two seconds' worth plus
    the rate times the elapsed time, with an error of the floating point
    refill of less than one part in 2^50; and a limiter without limits refuses
    nothing. *)
Lemma rate_limiters_bound pps bps t0 p b T :
  0 <= pps < 2 ^ 32 -> 0 <= bps < 2 ^ 63 ->
  (forall l, run pps bps t0 l p b T ->
     (0 < pps -> at_rate pps (T - t0) p) /\ (0 < bps -> at_rate bps (T - t0) b) /\
     (pps = 0 -> bps = 0 -> forall now bytes, SessionRateLimiter.check (E := Empty_set) l now bytes = Ok (l, true))) /\
  (forall l, relay_run pps bps t0 l p b T ->
     (0 < pps -> at_rate pps (T - t0) p) /\ (0 < bps -> at_rate bps (T - t0) b) /\
     (pps = 0 -> bps = 0 -> forall now bytes lp lb, RateLimiter.check (E := Empty_set) l now bytes lp lb = Ok (l, true))).
Proof.
  intros Hp Hb. split; intros l Hr.
  - apply run_kept in Hr; [|done..]. destruct (kept_at_rate pps bps t0 l p b T) as [H1 H2]; [lia|lia|done|].
    split; [done|]. split; [done|]. intros E1 E2 now bytes. by eapply unlimited_passes.
  - apply relay_run_kept in Hr; [|done..]. destruct (kept_at_rate pps bps t0 l p b T) as [H1 H2]; [lia|lia|done|].
    split; [done|]. split; [done|]. intros -> -> now bytes lp lb. destruct Hr as [K1 K2 _ _ _].
    unfold RateLimiter.check. by rewrite K1, K2.
Qed.

(** A limit of 3 packets per second lets a burst of six through at the start
    of a session at the server. *)
Lemma rate_limiters_bound_witness :
  exists l, run 3 0 0 l 6 (6 * 100) 0 /\ at_rate 3 (0 - 0) 6.
Proof.
  assert (exists l, run 3 0 0 l 6 (6 * 100) 0) as [l Hr].
  { assert (run 3 0 0 (SessionRateLimiter.mk 3 0 6 0 0) 0 0 0) as Hr by by apply run_new.
    do 6 (pose proof (fun l' => run_check 3 0 0 _ _ _ _ 0 100 l' true Hr (Z.le_refl 0) ltac:(lia)) as Hs; clear Hr;
          specialize (Hs _ eq_refl) as Hr; clear Hs; vm_compute in Hr).
    eexists. exact Hr. }
  exists l. split; [exact Hr|].
  apply (proj1 (rate_limiters_bound 3 0 0 6 (6 * 100) 0 ltac:(lia) ltac:(lia)) l Hr). lia.
Defined.

(** * Invariants *)

Section Invariant.
Context {O : HashIter Z RelaySession.t}.
Import RelaySessionManager.

Definition one (ip x : IpAddr.t) : Z := Z.b2z (bool_decide (x = ip)).

(** The sessions of an address, and how often it occurs in a list. *)
Definition held (m : gmap Z RelaySession.t) (ip : IpAddr.t) : Z :=
  map_sum (fun s => one ip (client_ip s)) m.

Definition occurs (l : list IpAddr.t) (ip : IpAddr.t) : Z := zsum (one ip) l.

Definition counts_ok (counts : gmap IpAddr.t Z) (f : IpAddr.t -> Z) : Prop :=
  forall ip, match counts !! ip with Some n => n = f ip /\ 0 < n | None => f ip = 0 end.

Lemma one_nonneg ip x : 0 <= one ip x.
Proof. unfold one. destruct (bool_decide _); simpl; lia. Qed.

Lemma one_eq ip : one ip ip = 1.
Proof. unfold one. by rewrite bool_decide_true. Qed.

Lemma one_ne ip x : x <> ip -> one ip x = 0.
Proof. intros H. unfold one. by rewrite bool_decide_false. Qed.

Lemma occurs_nonneg l ip : 0 <= occurs l ip.
Proof. apply zsum_nonneg. intros. apply one_nonneg. Qed.

Lemma held_nonneg m ip : 0 <= held m ip.
Proof. apply map_sum_nonneg. intros. apply one_nonneg. Qed.

Lemma counts_ok_ext counts f g : (forall ip, f ip = g ip) -> counts_ok counts f -> counts_ok counts g.
Proof. intros He Hf ip. specialize (Hf ip). by rewrite <- He. Qed.

Lemma decrement_ok counts f ip :
  counts_ok counts f -> 0 < f ip -> counts_ok (decrement counts ip) (fun x => f x - one x ip).
Proof.
  intros Hf Hp. pose proof (Hf ip) as Hip. unfold decrement. destruct (counts !! ip) as [n|] eqn:E; [|lia].
  destruct Hip as [-> _]. unfold saturating_sub. intros x. specialize (Hf x).
  destruct (Z.eqb_spec (Z.max 0 (f ip - 1)) 0), (decide (ip = x)) as [<-|Hne].
  - rewrite lookup_delete_eq, one_eq. lia.
  - rewrite lookup_delete_ne, one_ne by done. destruct (counts !! x); lia.
  - rewrite lookup_insert_eq, one_eq. lia.
  - rewrite lookup_insert_ne, one_ne by done. destruct (counts !! x); lia.
Qed.

Lemma decrements_ok l counts f :
  counts_ok counts f -> (forall ip, occurs l ip <= f ip) ->
  counts_ok (foldl decrement counts l) (fun x => f x - occurs l x).
Proof.
  revert counts f. induction l as [|ip l IH]; intros counts f Hf Hl; cbn [foldl].
  { eapply counts_ok_ext, Hf. intros x. unfold occurs, zsum. simpl. lia. }
  assert (forall x, occurs (ip :: l) x = one x ip + occurs l x) as Hc by done.
  eapply counts_ok_ext, IH; [|apply decrement_ok; [done|]|].
  - intros x. cbv beta. rewrite Hc. lia.
  - specialize (Hl ip). rewrite Hc, one_eq in Hl. pose proof (occurs_nonneg l ip). lia.
  - intros x. cbv beta. specialize (Hl x). rewrite Hc in Hl. lia.
Qed.

Lemma counts_bound counts f ip n : counts_ok counts f -> f ip <= n -> 0 <= n -> default 0 (counts !! ip) <= n.
Proof. intros Hf Hn Hp. specialize (Hf ip). destruct (counts !! ip); simpl; lia. Qed.

Lemma retain_sum (f : RelaySession.t -> Z) (P : Z * RelaySession.t -> Prop) `{!forall kv, Decision (P kv)} m :
  zsum (fun kv => f (snd kv)) (filter P (hash_iter m)) + map_sum f (filter (fun kv => ~ P kv) m) =
    map_sum f m.
Proof.
  rewrite (zsum_perm _ _ (filter P (map_to_list m))) by (by rewrite hash_iter_perm).
  induction m as [|k s m Hk IH] using map_ind; [by rewrite map_filter_empty, !map_sum_empty, map_to_list_empty|].
  rewrite map_sum_insert by done.
  rewrite (zsum_perm _ _ (filter P ((k, s) :: map_to_list m))) by (by rewrite map_to_list_insert).
  rewrite filter_cons. destruct (decide (P (k, s))).
  - rewrite map_filter_insert_False by (intros HP; by apply HP). rewrite delete_id by done. simpl. lia.
  - rewrite map_filter_insert_True by done. rewrite map_sum_insert by (apply map_lookup_filter_None; by left). lia.
Qed.

(** A configuration: the manager, and the addresses of the sessions a call of
    [remove] has taken out whose count it has yet to take down. *)
Definition config : Type := t * list IpAddr.t.

Inductive event := Bound (id : Z) (addr : SocketAddr.t) | Other.

Inductive step : config -> event -> config -> Prop :=
  | step_bind m p c cleanup id addr :
      let r := bind_established m c cleanup id addr in
      step (m, p) (if snd r then Bound id addr else Other) (fst r, p)
  | step_client m p now now_us lp lb id addr bytes :
      step (m, p) Other (fst (process_client_packet (E := Empty_set) m now now_us lp lb id addr bytes), p)
  | step_upstream m p now id bytes : step (m, p) Other (fst (process_upstream_packet m now id bytes), p)
  | step_check m p now_us lp lb id bytes :
      step (m, p) Other (fst (check_upstream_rate_limit (E := Empty_set) m now_us lp lb id bytes), p)
  | step_cleanup m p now_ms : step (m, p) Other (fst (cleanup_expired m now_ms), p)
  | step_remove m p id s :
      sessions m !! id = Some s -> step (m, p) Other (fst (remove_entry m id), client_ip s :: p)
  | step_remove_count m p q ip : step (m, p ++ ip :: q) Other (remove_count m ip, p ++ q).

Inductive reachable : config -> Prop :=
  | reach_new timeout max pps bps :
      0 <= max -> reachable (RelaySessionManager.with_rate_limits timeout max pps bps, [])
  | reach_step x e y : reachable x -> step x e y -> reachable y.

Record relay_inv (m : t) (p : list IpAddr.t) : Prop := {
  ri_counts : counts_ok (ip_session_counts m) (fun ip => held (sessions m) ip + occurs p ip);
  ri_per_ip ip n : ip_session_counts m !! ip = Some n -> n <= max_sessions_per_ip m;
  ri_tracked : Z.of_nat (size (ip_session_counts m)) <= max_tracked_ips m;
  ri_max : Z.of_nat (size (sessions m)) <= max_sessions m;
  ri_id id s : sessions m !! id = Some s -> RelaySession.session_id s = id /\ id <> 0;
  ri_params : max_sessions_per_ip m = DEFAULT_MAX_SESSIONS_PER_IP /\
              max_tracked_ips m = DEFAULT_MAX_TRACKED_IPS_RELAY /\ 0 <= max_sessions m;
}.

(** An operation that only rewrites the counters of a session. *)
Definition same_session (s s' : RelaySession.t) : Prop :=
  RelaySession.session_id s' = RelaySession.session_id s /\
  RelaySession.client_addr s' = RelaySession.client_addr s.

Lemma held_put m id s s' ip :
  m !! id = Some s -> same_session s s' -> held (<[id := s']> m) ip = held m ip.
Proof.
  intros Hs [_ Ha]. unfold held. rewrite (map_sum_replace _ _ _ _ _ Hs). unfold client_ip. rewrite Ha. lia.
Qed.

Lemma put_inv m p id s s' :
  relay_inv m p -> sessions m !! id = Some s -> same_session s s' -> relay_inv (put m id s') p.
Proof.
  intros [Hc Hp Ht Hm Hi Hd] Hs Hss. split; simpl; try done.
  - eapply counts_ok_ext, Hc. intros ip. cbv beta. by rewrite (held_put _ _ _ _ _ Hs Hss).
  - by rewrite map_size_insert_Some by (by eexists).
  - intros id' t' [[<- <-]|[_ Ht']]%lookup_insert_Some; [|by apply Hi].
    destruct Hss as [-> _]. by apply Hi.
Qed.

Lemma decrement_bound counts ip x n :
  decrement counts ip !! x = Some n -> exists n', counts !! x = Some n' /\ n <= Z.max 0 n'.
Proof.
  unfold decrement, saturating_sub. destruct (counts !! ip) as [c|] eqn:E; [|intros H; exists n; split; [done|lia]].
  destruct (_ =? 0).
  - intros [_ H]%lookup_delete_Some. exists n. split; [done|lia].
  - intros [[<- <-]|[_ H]]%lookup_insert_Some; [exists c; split; [done|lia]|exists n; split; [done|lia]].
Qed.

(** The burst of every limiter fits. *)
Definition limits_fit (m : t) : Prop :=
  forall id s, sessions m !! id = Some s ->
    SessionRateLimiter.fits (RelaySession.client_rate_limiter s) /\
    SessionRateLimiter.fits (RelaySession.upstream_rate_limiter s).

(** The data path changes at most the counters of one session. *)
Definition touches (m m' : t) : Prop :=
  m' = m \/ exists id s s', sessions m !! id = Some s /\ same_session s s' /\ m' = put m id s'.

Lemma client_packet_touches {E} m now now_us lp lb id addr bytes :
  touches m (fst (process_client_packet (E := E) m now now_us lp lb id addr bytes)).
Proof.
  unfold process_client_packet. destruct (id =? 0); [by left|].
  destruct (sessions m !! id) as [s|] eqn:Es; [|by left]. destruct (negb _); [by left|].
  assert (forall s', same_session s s' -> touches m (put m id s')) as Hput by (intros s' Hs; right; by exists id, s, s').
  unfold RelaySession.check_rate_limit. destruct (is_rate_limited m); [|by apply Hput].
  destruct (RateLimiter.check _ _ _ _ _) as [[l [|]]| |]; simpl; [by apply Hput..|by left|by left].
Qed.

Lemma upstream_packet_touches m now id bytes : touches m (fst (process_upstream_packet m now id bytes)).
Proof.
  unfold process_upstream_packet. destruct (sessions m !! id) as [s|] eqn:Es; [|by left].
  right. eexists id, s, _. split; [done|]. split; [|reflexivity]. done.
Qed.

Lemma check_upstream_touches {E} m now_us lp lb id bytes :
  touches m (fst (check_upstream_rate_limit (E := E) m now_us lp lb id bytes)).
Proof.
  unfold check_upstream_rate_limit. destruct (sessions m !! id) as [s|] eqn:Es; [|by left].
  unfold RelaySession.check_upstream_rate_limit.
  destruct (RateLimiter.check _ _ _ _ _) as [[l ok]| |]; simpl; [|by left..].
  right. eexists id, s, _. split; [done|]. split; [|reflexivity]. done.
Qed.

Lemma touches_inv m m' p : touches m m' -> relay_inv m p -> relay_inv m' p.
Proof. intros [->|(id & s & s' & Hs & Hss & ->)]; [done|]. intros Hi. by apply (put_inv m p id s). Qed.

Lemma decrement_size counts ip : (size (decrement counts ip) <= size counts)%nat.
Proof.
  unfold decrement. destruct (counts !! ip) eqn:E; [|done].
  destruct (_ =? 0); [|by rewrite map_size_insert_Some by (by eexists)].
  pose proof (size_take _ _ _ E). lia.
Qed.

Lemma decrements_shrink l counts :
  (size (foldl decrement counts l) <= size counts)%nat /\
  forall ip n, foldl decrement counts l !! ip = Some n -> exists n', counts !! ip = Some n' /\ n <= Z.max 0 n'.
Proof.
  revert counts. induction l as [|x l IH]; intros counts; cbn [foldl].
  { split; [done|]. intros ip n H. exists n. split; [done|lia]. }
  destruct (IH (decrement counts x)) as [H1 H2]. pose proof (decrement_size counts x). split; [lia|].
  intros ip n (n1 & H3 & H4)%H2. apply decrement_bound in H3 as (n2 & H5 & H6).
  exists n2. split; [done|lia].
Qed.

Lemma cleanup_inv m p now_ms : relay_inv m p -> relay_inv (fst (cleanup_expired_locked m now_ms)) p.
Proof.
  intros [Hc Hp Ht Hm Hi Hd]. unfold cleanup_expired_locked. cbv zeta. cbn [fst].
  set (expired := fun kv : Z * RelaySession.t =>
    RelaySession.is_expired (snd kv) (now_ms (fst kv)) (timeout m) = true).
  set (l := (fun kv => client_ip (snd kv)) <$> filter expired (hash_iter (sessions m))).
  match goal with |- context [set_maps m ?k _] => set (kept := k) end.
  assert (forall ip, occurs l ip + held kept ip = held (sessions m) ip) as Hsum.
  { intros ip. unfold held at 2. rewrite <- (retain_sum _ expired (sessions m)). f_equal. apply zsum_fmap. }
  destruct (decrements_shrink l (ip_session_counts m)) as [S1 S2].
  split; unfold set_maps; cbn [sessions ip_session_counts max_sessions_per_ip max_tracked_ips max_sessions].
  - eapply counts_ok_ext, (decrements_ok l _ _ Hc).
    + intros ip. cbv beta. specialize (Hsum ip). lia.
    + intros ip. cbv beta. specialize (Hsum ip). pose proof (occurs_nonneg p ip).
      pose proof (held_nonneg kept ip). lia.
  - intros ip n (n' & H1 & H2)%S2. apply Hp in H1. destruct Hd as [H3 _].
    unfold DEFAULT_MAX_SESSIONS_PER_IP in H3. lia.
  - lia.
  - pose proof (map_subseteq_size kept (sessions m) (map_filter_subseteq _ _)). lia.
  - intros id s [Hs _]%map_lookup_filter_Some. by apply Hi.
  - done.
Qed.

(** Opening a session of an address within its limits. *)
Lemma open_inv m p c id addr :
  relay_inv m p -> id <> 0 -> sessions m !! id = None -> session_count m < max_sessions m ->
  (ip_session_counts m !! SocketAddr.ip addr = None ->
   Z.of_nat (size (ip_session_counts m)) < max_tracked_ips m) ->
  default 0 (ip_session_counts m !! SocketAddr.ip addr) < max_sessions_per_ip m ->
  relay_inv
    (set_maps m
       (<[id := RelaySession.with_rate_limit c id addr (rate_limit_pps m) (rate_limit_bps m)]> (sessions m))
       (<[SocketAddr.ip addr := default 0 (ip_session_counts m !! SocketAddr.ip addr) + 1]>
          (ip_session_counts m))) p.
Proof.
  intros [Hc Hp Ht Hm Hi Hd] Hid Hn Hmax Htr Hper. unfold session_count in Hmax.
  set (ip := SocketAddr.ip addr) in *.
  split; unfold set_maps; cbn [sessions ip_session_counts max_sessions_per_ip max_tracked_ips max_sessions].
  - intros x. unfold held. rewrite map_sum_insert by done. fold (held (sessions m) x).
    unfold client_ip. cbn [RelaySession.with_rate_limit RelaySession.client_addr]. fold ip.
    pose proof (Hc x) as Hx. pose proof (held_nonneg (sessions m) x). pose proof (occurs_nonneg p x).
    destruct (decide (ip = x)) as [<-|Hne].
    + rewrite lookup_insert_eq, one_eq. destruct (ip_session_counts m !! ip); simpl; lia.
    + rewrite lookup_insert_ne, one_ne by done. destruct (ip_session_counts m !! x); lia.
  - intros x n [[<- <-]|[_ Hx]]%lookup_insert_Some; [lia|by apply (Hp x)].
  - rewrite map_size_insert. destruct (ip_session_counts m !! ip) eqn:E; simpl; [lia|].
    specialize (Htr eq_refl). lia.
  - rewrite map_size_insert_None by done. lia.
  - intros id' s' [[<- <-]|[_ Hs]]%lookup_insert_Some; [done|by apply Hi].
  - done.
Qed.

(** What [bind_established] does, in all its branches. *)
Lemma bind_spec m p c cleanup id addr :
  relay_inv m p ->
  let '(m', ok) := bind_established m c cleanup id addr in
  relay_inv m' p /\
  (forall id' s', sessions m' !! id' = Some s' ->
     (exists s, sessions m !! id' = Some s /\ same_session s s') \/
     (ok = true /\ id' = id /\ sessions m !! id = None /\ RelaySession.client_addr s' = addr)) /\
  (ok = true -> exists s', sessions m' !! id = Some s' /\ RelaySession.client_addr s' = addr).
Proof.
  intros Hr. unfold bind_established. destruct (Z.eqb_spec id 0) as [|Hid].
  { split; [done|]. split; [|done]. intros id' s' Hs. left. exists s'. by split. }
  unfold get_or_create. destruct (sessions m !! id) as [s|] eqn:Es.
  - destruct (bool_decide _) eqn:Eb; simpl; (split; [done|]; split; [|done]);
      intros id' s' Hs; left; exists s'; by split.
  - set (m1 := if max_sessions m <=? _ then _ else m).
    assert (relay_inv m1 p /\ max_sessions m1 = max_sessions m /\ sessions m1 ⊆ sessions m) as (Hr1 & Em & Hsub).
    { subst m1. destruct (_ <=? _); [|done]. split; [by apply cleanup_inv|]. split; [done|].
      apply map_filter_subseteq. }
    rewrite <- Em. assert (sessions m1 !! id = None) as En by (by eapply lookup_weaken_None).
    assert (forall id' s', sessions m1 !! id' = Some s' -> exists s, sessions m !! id' = Some s /\ same_session s s')
      as Hold by (intros id' s' Hs; exists s'; split; [by eapply lookup_weaken|done]).
    clearbody m1. cbv iota zeta.
    destruct (Z.leb_spec (max_sessions m1) (Z.of_nat (size (sessions m1)))) as [|Hmax].
    { split; [done|]. split; [|done]. intros id' s' Hs. left. by apply Hold. }
    destruct (bool_decide _ && _) eqn:Et.
    { split; [done|]. split; [|done]. intros id' s' Hs. left. by apply Hold. }
    destruct (Z.leb_spec (max_sessions_per_ip m1) (default 0 (ip_session_counts m1 !! SocketAddr.ip addr)))
      as [Hper|Hper].
    + split; [|split; [|done]]; [|intros id' s' Hs; left; by apply Hold].
      assert (set_maps m1 (sessions m1) (<[SocketAddr.ip addr :=
        default 0 (ip_session_counts m1 !! SocketAddr.ip addr)]> (ip_session_counts m1)) = m1) as ->; [|done].
      pose proof (ri_params _ _ Hr1) as [Hp1 _]. unfold DEFAULT_MAX_SESSIONS_PER_IP in Hp1.
      destruct (ip_session_counts m1 !! SocketAddr.ip addr) as [n|] eqn:E; simpl in *; [|lia].
      rewrite insert_id by done. by destruct m1.
    + split; [|split].
      * apply open_inv; try done. intros Hnone. apply andb_false_iff in Et as [Et|Et]; [|by b2p].
        by rewrite bool_decide_true in Et.
      * intros id' s'. cbn [sessions set_maps]. intros [[<- <-]|[_ Hs]]%lookup_insert_Some; [by right|left; by apply Hold].
      * intros _. eexists. split; [apply lookup_insert_eq|done].
Qed.

Lemma bind_rates m c cleanup id addr :
  is_rate_limited (fst (bind_established m c cleanup id addr)) = is_rate_limited m.
Proof.
  unfold bind_established, get_or_create. destruct (id =? 0); [done|].
  destruct (sessions m !! id) as [s|]; [by destruct (bool_decide _)|].
  cbv zeta. destruct (_ <=? _); destruct (_ <=? _); try done; destruct (_ && _); try done;
    destruct (_ <=? _); done.
Qed.

Lemma occurs_app l k ip : occurs (l ++ k) ip = occurs l ip + occurs k ip.
Proof. apply zsum_app. Qed.

Lemma occurs_cons x l ip : occurs (x :: l) ip = one ip x + occurs l ip.
Proof. done. Qed.

Lemma remove_entry_inv m p id s :
  relay_inv m p -> sessions m !! id = Some s -> relay_inv (fst (remove_entry m id)) (client_ip s :: p).
Proof.
  intros [Hc Hp Ht Hm Hi Hd] Hs.
  split; unfold remove_entry, set_maps;
    cbn [fst sessions ip_session_counts max_sessions_per_ip max_tracked_ips max_sessions]; try done.
  - eapply counts_ok_ext, Hc. intros ip. cbv beta. unfold held. rewrite (map_sum_delete _ _ _ _ Hs), occurs_cons. lia.
  - pose proof (size_take _ _ _ Hs). lia.
  - intros id' s' [_ Hs']%lookup_delete_Some. by apply Hi.
Qed.

Lemma remove_count_inv m p ip q : relay_inv m (p ++ ip :: q) -> relay_inv (remove_count m ip) (p ++ q).
Proof.
  intros [Hc Hp Ht Hm Hi Hd]. pose proof (decrement_size (ip_session_counts m) ip) as Hz.
  split; unfold remove_count, set_maps;
    cbn [sessions ip_session_counts max_sessions_per_ip max_tracked_ips max_sessions]; try done.
  - eapply counts_ok_ext, (decrement_ok _ _ ip Hc).
    + intros x. cbv beta. rewrite !occurs_app, occurs_cons. lia.
    + cbv beta. rewrite !occurs_app, occurs_cons, one_eq. pose proof (held_nonneg (sessions m) ip).
      pose proof (occurs_nonneg p ip). pose proof (occurs_nonneg q ip). lia.
  - intros x n (n' & H1 & H2)%decrement_bound. apply Hp in H1. destruct Hd as [H3 _].
    unfold DEFAULT_MAX_SESSIONS_PER_IP in H3. lia.
  - lia.
Qed.

Lemma step_inv x e y : relay_inv (fst x) (snd x) -> step x e y -> relay_inv (fst y) (snd y).
Proof.
  intros Hi Hs. destruct Hs; cbn [fst snd] in *.
  - pose proof (bind_spec m p c cleanup id addr Hi) as H. subst r.
    by destruct (bind_established m c cleanup id addr); destruct H.
  - eapply touches_inv, Hi. apply client_packet_touches.
  - eapply touches_inv, Hi. apply upstream_packet_touches.
  - eapply touches_inv, Hi. apply check_upstream_touches.
  - by apply cleanup_inv.
  - by apply remove_entry_inv.
  - by apply remove_count_inv.
Qed.

Lemma relay_reachable_inv x : reachable x -> relay_inv (fst x) (snd x).
Proof.
  induction 1 as [timeout max pps bps Hm|x e y _ IH Hs]; [|by eapply step_inv].
  split; simpl; try done; lia.
Qed.

(** The address of a session never changes, and only a binding makes one. *)
Lemma step_sessions x e y id s' :
  relay_inv (fst x) (snd x) -> step x e y -> sessions (fst y) !! id = Some s' ->
  (exists s, sessions (fst x) !! id = Some s /\ same_session s s') \/
  (sessions (fst x) !! id = None /\ e = Bound id (RelaySession.client_addr s')).
Proof.
  intros Hi Hs Hy.
  assert (forall m', touches (fst x) m' -> sessions m' !! id = Some s' ->
            exists s, sessions (fst x) !! id = Some s /\ same_session s s') as Ht.
  { intros m' [->|(id' & s & s1 & H1 & H2 & ->)] H3; [by exists s'|].
    cbn [put set_maps sessions] in H3.
    apply lookup_insert_Some in H3 as [[<- <-]|[_ H3]]; [by exists s|by exists s']. }
  destruct Hs; cbn [fst snd] in *.
  - pose proof (bind_spec m p c cleanup id0 addr Hi) as H. subst r.
    destruct (bind_established m c cleanup id0 addr) as [m' ok]. destruct H as (_ & H & _).
    destruct (H id s' Hy) as [?|(-> & -> & ? & <-)]; [by left|by right].
  - left. eapply Ht; [apply (client_packet_touches (E := Empty_set))|exact Hy].
  - left. eapply Ht; [apply upstream_packet_touches|exact Hy].
  - left. eapply Ht; [apply (check_upstream_touches (E := Empty_set))|exact Hy].
  - left. cbn in Hy. apply map_lookup_filter_Some in Hy as [Hy _]. by exists s'.
  - left. cbn in Hy. apply lookup_delete_Some in Hy as [_ Hy]. by exists s'.
  - left. by exists s'.
Qed.

(** * Properties *)

(** The relay keeps to its limits however its calls interleave, the two
    halves of a removal included: an address never has more than 100
    sessions, the table never more than [max_sessions], the per-address
    counts never more than 100,000 entries; and a count is the number of
    sessions of the address and of the removals still to be counted, without
    entries for addresses that have none. *)
Lemma relay_limits x :
  reachable x ->
  let '(m, pending) := x in
  (forall ip, held (sessions m) ip <= DEFAULT_MAX_SESSIONS_PER_IP) /\
  session_count m <= max_sessions m /\
  Z.of_nat (size (ip_session_counts m)) <= DEFAULT_MAX_TRACKED_IPS_RELAY /\
  forall ip, match ip_session_counts m !! ip with
             | Some n => n = held (sessions m) ip + occurs pending ip /\ 0 < n
             | None => held (sessions m) ip + occurs pending ip = 0
             end.
Proof.
  intros Hx. destruct x as [m pending]. apply relay_reachable_inv in Hx. cbn [fst snd] in Hx.
  destruct Hx as [Hc Hp Ht Hm Hi (D1 & D2 & D3)]. rewrite <- D1, <- D2.
  split; [|done]. intros ip. pose proof (Hc ip) as H. pose proof (occurs_nonneg pending ip).
  destruct (ip_session_counts m !! ip) as [n|] eqn:E.
  - pose proof (Hp ip n E). lia.
  - rewrite D1. unfold DEFAULT_MAX_SESSIONS_PER_IP. lia.
Qed.

(** C25: the relay forwards for the bound client only.  A packet of a client
    passes only if its session is bound to the very address it came from,
    and passes if no rate is set; the relay aborts on it only where the byte
    limit of a session is 2^63 or more, whose double does not fit; a packet of the server goes to the bound
    address; the address of a session never changes while it lives, and a
    session comes into being only when the relay binds it. *)
Theorem relay_forwards_bound x e y :
  reachable x -> step x e y ->
  let m := fst x in
  (forall now now_us lp lb id addr bytes,
     match snd (process_client_packet (E := Empty_set) m now now_us lp lb id addr bytes) with
     | Ok (ClientPacketProcessResult.Forward _) =>
         id <> 0 /\ option_map RelaySession.client_addr (sessions m !! id) = Some addr
     | Ok ClientPacketProcessResult.SessionRejected => sessions m !! id = None
     | Ok ClientPacketProcessResult.RoamingBlocked =>
         exists a, option_map RelaySession.client_addr (sessions m !! id) = Some a /\ a <> addr
     | Ok ClientPacketProcessResult.RateLimited => is_rate_limited m = true
     | Err _ => False
     | Panic => is_rate_limited m = true /\ ~ limits_fit m
     end) /\
  (forall now id bytes,
     snd (process_upstream_packet m now id bytes) =
       option_map RelaySession.client_addr (sessions m !! id)) /\
  (forall id s', sessions (fst y) !! id = Some s' ->
     option_map RelaySession.client_addr (sessions m !! id) = Some (RelaySession.client_addr s') \/
     (sessions m !! id = None /\ e = Bound id (RelaySession.client_addr s'))).
Proof.
  intros Hx%relay_reachable_inv Hs m. split; [|split].
  - intros now now_us lp lb id addr bytes. unfold process_client_packet.
    destruct (Z.eqb_spec id 0) as [->|Hid]; simpl.
    { destruct (sessions m !! 0) as [s|] eqn:E; [|done]. by destruct (ri_id _ _ Hx 0 s E). }
    destruct (sessions m !! id) as [s|] eqn:E; simpl; [|done].
    destruct (bool_decide _) eqn:Eb; simpl.
    + apply bool_decide_eq_true in Eb. destruct (is_rate_limited m).
      * unfold RelaySession.check_rate_limit.
        pose proof (relay_check_spec (E := Empty_set) (RelaySession.client_rate_limiter s) now_us bytes lp lb) as Hc.
        destruct (RateLimiter.check _ _ _ _ _) as [[l [|]]| |]; simpl; [by subst|done|done|].
        split; [done|]. intros Hf. apply Hc, (Hf id s E).
      * simpl. by subst.
    + apply bool_decide_eq_false in Eb. by eexists.
  - intros now id bytes. unfold process_upstream_packet. by destruct (sessions m !! id).
  - intros id s' Hy. destruct (step_sessions x e y id s' Hx Hs Hy) as [(s & H1 & _ & H2)|?]; [|by right].
    left. subst m. rewrite H1. simpl. by rewrite H2.
Qed.

End Invariant.

(** * Examples *)

Definition example_relay : RelaySessionManager.t := RelaySessionManager.with_rate_limits 60000 2 0 0.

Definition example_bound : RelaySessionManager.t :=
  fst (RelaySessionManager.bind_established example_relay example_clock (fun _ => 0) 7 example_addr).

Lemma example_bound_reachable : reachable (example_bound, []).
Proof.
  eapply reach_step; [apply (reach_new 60000 2 0 0); lia|].
  apply (step_bind example_relay [] example_clock (fun _ => 0) 7 example_addr).
Qed.

Lemma relay_limits_witness :
  RelaySessionManager.session_count example_bound <= 2 /\
  RelaySessionManager.ip_session_counts example_bound !! SocketAddr.ip example_addr = Some 1.
Proof.
  destruct (relay_limits (example_bound, []) example_bound_reachable) as (_ & H & _).
  split; [exact H|vm_compute; reflexivity].
Defined.

Lemma relay_forwards_bound_witness :
  snd (RelaySessionManager.process_client_packet example_bound 5 5000 0 0 7 example_addr 100) =
    Ok (E := Empty_set) (ClientPacketProcessResult.Forward false) /\
  snd (RelaySessionManager.process_upstream_packet example_bound 5 7 100) = Some example_addr.
Proof.
  destruct (relay_forwards_bound (example_bound, []) Other _ example_bound_reachable
    (step_upstream example_bound [] 5 7 100)) as (_ & H & _).
  split; [vm_compute; reflexivity|]. etransitivity; [exact (H 5 7 100)|vm_compute; reflexivity].
Defined.
