(* ===== verification/Relay.v ===== *)
(** The packet handlers of the relay (hpn-relay/src/relay.rs).

    Sockets are effects: a handler returns what it sent, and what a socket
    delivers or fails to do is an argument.  [forward_handshake_packet] runs
    over the datagrams its dedicated socket receives until it returns. *)

From S2P Require Import Prelude Types Net Header Keys Signature Kem Fragment Reassembly Tunnel Response.
From S2P Require Import Session TokenBucket SessionManager RelaySession.

Definition DEFAULT_MAX_CONCURRENT_HANDSHAKES : Z := 256.
Definition DEFAULT_HANDSHAKE_RATE_LIMIT_PPS : Z := 64.
Definition MAX_HANDSHAKE_RATE_TRACKED_IPS : Z := 16384.
Definition HANDSHAKE_RATE_IDLE_TTL : Z := 10 * NANOS_PER_SEC.
Definition DEFAULT_GLOBAL_HANDSHAKE_RATE_LIMIT_PPS : Z := 256.

Module HandshakeRateEntry.
Record t := mk { window_start : Z; count : Z }.
End HandshakeRateEntry.

(** The relay's [HandshakeRateLimiter]. *)
Module RelayHandshakeLimiter.

Record t := mk {
  max_pps : Z;
  entries : gmap IpAddr.t HandshakeRateEntry.t;
  global : HandshakeRateEntry.t;
  global_max_pps : Z;
}.

Definition new (now max_pps global_max_pps : Z) : t :=
  mk max_pps ∅ (HandshakeRateEntry.mk now 0) global_max_pps.

(** A window of one second that admits [max] requests. *)
Definition take (now max : Z) (e : HandshakeRateEntry.t) : HandshakeRateEntry.t * bool :=
  let e :=
    if NANOS_PER_SEC <=? saturating_sub now (HandshakeRateEntry.window_start e) then
      HandshakeRateEntry.mk now 0
    else e in
  if max <=? HandshakeRateEntry.count e then (e, false)
  else
    (HandshakeRateEntry.mk (HandshakeRateEntry.window_start e)
       (saturating_add 32 (HandshakeRateEntry.count e) 1), true).

Definition allow (l : t) (now : Z) (ip : IpAddr.t) : t * bool :=
  let '(global, ok) := if 0 <? global_max_pps l then take now (global_max_pps l) (global l) else (global l, true) in
  let l := mk (max_pps l) (entries l) global (global_max_pps l) in
  if negb ok then (l, false)
  else
    let full m := MAX_HANDSHAKE_RATE_TRACKED_IPS <=? Z.of_nat (size m) in
    let entries :=
      if full (entries l) then
        filter (fun kv => (saturating_sub now (HandshakeRateEntry.window_start (snd kv))
                             <=? HANDSHAKE_RATE_IDLE_TTL) = true) (entries l)
      else entries l in
    if full entries then (mk (max_pps l) entries global (global_max_pps l), false)
    else
      let '(entry, ok) := take now (max_pps l) (default (HandshakeRateEntry.mk now 0) (entries !! ip)) in
      (mk (max_pps l) (<[ip := entry]> entries) global (global_max_pps l), ok).

End RelayHandshakeLimiter.

(** What a handler sends. *)
Inductive sent :=
  | ToClient (data : list Z) (client_addr : SocketAddr.t)
  | ToUpstream (data : list Z)
  | SpawnHandshake (data : list Z) (client_addr : SocketAddr.t).

(** The readings and losses during the call of a session method. *)
Record reading := mk_reading {
  at_clock : clock;
  at_cleanup : Z -> Z;
  lost_packet : Z;
  lost_byte : Z;
}.

Section Handlers.
Context {O : HashIter Z RelaySession.t} {I : HashIter (SocketAddr.t * Z) Entry.t}.

Definition handle_upstream_packet (m : RelaySessionManager.t) (r : reading) (data : list Z)
    : RelaySessionManager.t * result Empty_set (list sent) :=
  if len data <? HEADER_SIZE then (m, Ok [])
  else
    match PacketHeader.decode data with
    | Panic => (m, Panic)
    | Err _ => (m, Ok [])
    | Ok header =>
        let session_id := PacketHeader.session_id header in
        let '(m, allowed) :=
          if RelaySessionManager.is_rate_limited m then
            RelaySessionManager.check_upstream_rate_limit m (now_us (at_clock r)) (lost_packet r)
              (lost_byte r) session_id (len data)
          else (m, Ok true) in
        match allowed with
        | Panic => (m, Panic)
        | Err e => (m, Err e)
        | Ok false => (m, Ok [])
        | Ok true =>
            let '(m, addr) :=
              RelaySessionManager.process_upstream_packet m (now_ms (at_clock r)) session_id (len data) in
            match addr with
            | Some client_addr => (m, Ok [ToClient data client_addr])
            | None => (m, Ok [])
            end
        end
    end.

(** Whether the loop of [forward_handshake_packet] goes on. *)
Inductive flow := Continue | Return.

(** A datagram on the dedicated socket: its bytes, the instant the reassembly
    reads, the readings of the session table, and whether the socket to the
    client accepts what is sent. *)
Record datagram := mk_datagram {
  response : list Z;
  arrived : Z;
  readings : reading;
  send_ok : bool;
}.

(** The state of the loop: the shared table and the local reassembly. *)
Definition forwarding : Type := RelaySessionManager.t * Reassembly.t (A:=SocketAddr.t).

Definition rejected_by_reassembler (before after : ReassemblerStats.t) : bool :=
  (ReassemblerStats.fragments_dropped before <? ReassemblerStats.fragments_dropped after)
  || (ReassemblerStats.entries_rejected before <? ReassemblerStats.entries_rejected after)
  || (ReassemblerStats.fragments_duplicate before <? ReassemblerStats.fragments_duplicate after).

Definition bind (m : RelaySessionManager.t) (d : datagram) (session_id : Z) (client_addr : SocketAddr.t)
    : RelaySessionManager.t * bool :=
  RelaySessionManager.bind_established m (at_clock (readings d)) (at_cleanup (readings d)) session_id
    client_addr.

(** The branch for a fragment. *)
Definition on_fragment (upstream_addr client_addr : SocketAddr.t) (x : forwarding) (d : datagram)
    : result Empty_set (forwarding * list sent * flow) :=
  let '(m, reassembly) := x in
  let? fragment_bytes := range (response d) HEADER_SIZE (len (response d)) in
  match HandshakeFragment.from_bytes fragment_bytes with
  | Panic => Panic
  | Err _ => Ok (x, [], Continue)
  | Ok fragment =>
      if negb (bool_decide (HandshakeFragment.inner_msg_type fragment = MessageType.HandshakeResponse)) then
        Ok (x, [], Continue)
      else
        let stats_before := Reassembly.stats reassembly in
        let '(reassembly, insert_outcome) := Reassembly.insert reassembly (arrived d) upstream_addr fragment in
        let? insert_outcome := insert_outcome in
        if rejected_by_reassembler stats_before (Reassembly.stats reassembly) then
          Ok (m, reassembly, [], Continue)
        else if negb (send_ok d) then Ok (m, reassembly, [], Return)
        else
          match insert_outcome with
          | None => Ok (m, reassembly, [ToClient (response d) client_addr], Continue)
          | Some (_, payload) =>
              match HandshakeResponse.session_id_from_bytes payload with
              | Panic => Panic
              | Err _ => Ok (m, reassembly, [ToClient (response d) client_addr], Return)
              | Ok session_id =>
                  let m := fst (bind m d session_id client_addr) in
                  Ok (m, reassembly, [ToClient (response d) client_addr], Return)
              end
          end
  end.

(** One round of the loop, for a datagram. *)
Definition on_response (upstream_addr client_addr : SocketAddr.t) (x : forwarding) (d : datagram)
    : result Empty_set (forwarding * list sent * flow) :=
  let '(m, reassembly) := x in
  match PacketHeader.decode (response d) with
  | Panic => Panic
  | Err _ => Ok (x, [], Continue)
  | Ok header =>
      match PacketHeader.msg_type header with
      | MessageType.HandshakeResponse =>
          let session_id := PacketHeader.session_id header in
          let '(m, bound) := bind m d session_id client_addr in
          if negb bound then Ok (m, reassembly, [], Return)
          else if negb (send_ok d) then
            Ok (fst (RelaySessionManager.remove m session_id), reassembly, [], Return)
          else Ok (m, reassembly, [ToClient (response d) client_addr], Return)
      | MessageType.HandshakeFragment => on_fragment upstream_addr client_addr x d
      | MessageType.CookieRequest =>
          Ok (x, if send_ok d then [ToClient (response d) client_addr] else [], Return)
      | _ => Ok (x, [], Continue)
      end
  end.

(** What the dedicated socket yields. *)
Inductive received := Datagram (d : datagram) | ReceiveError | TimedOut.

Fixpoint await_response (upstream_addr client_addr : SocketAddr.t) (x : forwarding) (rs : list received)
    : result Empty_set (forwarding * list sent * flow) :=
  match rs with
  | [] => Ok (x, [], Continue)
  | Datagram d :: rs =>
      let? (x, out, next) := on_response upstream_addr client_addr x d in
      match next with
      | Return => Ok (x, out, Return)
      | Continue =>
          let? (x, out', next) := await_response upstream_addr client_addr x rs in
          Ok (x, out ++ out', next)
      end
  | ReceiveError :: _ | TimedOut :: _ => Ok (x, [], Return)
  end.

(** [opened]: the dedicated socket could be bound and connected, and accepted
    the packet. *)
Definition forward_handshake_packet (m : RelaySessionManager.t) (upstream_addr : SocketAddr.t)
    (data : list Z) (client_addr : SocketAddr.t) (opened : bool) (rs : list received)
    : result Empty_set (forwarding * list sent * flow) :=
  let reassembly := Reassembly.new ReassemblerConfig.client_default in
  if negb opened then Ok (m, reassembly, [], Return)
  else
    let? (x, out, next) := await_response upstream_addr client_addr (m, reassembly) rs in
    Ok (x, ToUpstream data :: out, next).

(** The relay: its sessions, the limiter of handshakes, and the permits left
    of the semaphore. *)
Record relay := mk_relay {
  sessions : RelaySessionManager.t;
  handshake_rate_limiter : RelayHandshakeLimiter.t;
  permits : Z;
}.

Definition is_handshake (ty : MessageType.t) : bool :=
  match ty with
  | MessageType.HandshakeInit | MessageType.EncryptedHandshakeInit
  | MessageType.HandshakeFragment | MessageType.CookieReply => true
  | _ => false
  end.

Definition handle_client_packet (s : relay) (r : reading) (data : list Z) (client_addr : SocketAddr.t)
    : relay * result Empty_set (list sent) :=
  match PacketHeader.decode data with
  | Panic => (s, Panic)
  | Err _ => (s, Ok [])
  | Ok header =>
      if is_handshake (PacketHeader.msg_type header) then
        let '(l, allowed) :=
          RelayHandshakeLimiter.allow (handshake_rate_limiter s) (now (at_clock r)) (SocketAddr.ip client_addr) in
        let s := mk_relay (sessions s) l (permits s) in
        if negb allowed then (s, Ok [])
        else if permits s <=? 0 then (s, Ok [])
        else (mk_relay (sessions s) l (permits s - 1), Ok [SpawnHandshake data client_addr])
      else
        let '(m, result) :=
          RelaySessionManager.process_client_packet (sessions s) (now_ms (at_clock r)) (now_us (at_clock r))
            (lost_packet r) (lost_byte r) (PacketHeader.session_id header) client_addr (len data) in
        (mk_relay m (handshake_rate_limiter s) (permits s),
         let? result := result in
         Ok match result with
            | ClientPacketProcessResult.Forward _ => [ToUpstream data]
            | _ => []
            end)
  end.

End Handlers.

(** * Totality *)

Section Total.
Context {O : HashIter Z RelaySession.t} {I : HashIter (SocketAddr.t * Z) Entry.t}.

(** A reassembly buffer that has only seen decoded fragments. *)
Definition sane (r : Reassembly.t (A:=SocketAddr.t)) : Prop := exists h, Reassembly.good h r.

Lemma sane_new cfg : sane (Reassembly.new cfg).
Proof. exists []. apply (Reassembly.reachable_good cfg). constructor. Qed.

Lemma decoded_length data h : PacketHeader.decode data = Ok h -> HEADER_SIZE <= len data.
Proof. unfold PacketHeader.decode. destruct (len data <? HEADER_SIZE) eqn:E; [done|]. b2p. lia. Qed.

Lemma session_id_no_panic b : HandshakeResponse.session_id_from_bytes b <> Panic.
Proof.
  unfold HandshakeResponse.session_id_from_bytes. destruct (len b <? 8) eqn:E; [done|]. b2p.
  rewrite range_ok by lia. done.
Qed.

(** The handler returns with a buffer known to be sane. *)
Ltac returns := do 4 eexists; split; [reflexivity|assumption].

Lemma on_fragment_total upstream client m r d :
  bytes_ok (response d) -> HEADER_SIZE <= len (response d) -> sane r ->
  exists m' r' out next, on_fragment upstream client (m, r) d = Ok (m', r', out, next) /\ sane r'.
Proof.
  intros Hb Hl Hr0. unfold on_fragment. unfold HEADER_SIZE in *. rewrite range_ok by lia. sbind.
  assert (bytes_ok (slice (response d) 24 (len (response d)))) as Hs by auto with hpn.
  destruct (HandshakeFragment.from_bytes _) as [f|e|] eqn:Ef.
  - apply HandshakeFragment.from_bytes_inv in Ef as [Hw _]; [|done].
    destruct (negb _); [returns|].
    destruct Hr0 as [h Hg]. pose proof (Reassembly.insert_spec h r (arrived d) upstream f Hw Hg) as Hi.
    destruct (Reassembly.insert r (arrived d) upstream f) as [r' o]. destruct Hi as (Hg' & _ & Ho).
    assert (sane r') as Hr by (by eexists).
    destruct o as [[[ty payload]|]|[]|]; [| |destruct Ho]; sbind;
      (destruct (rejected_by_reassembler _ _); [returns|]);
      (destruct (negb (send_ok d)); [returns|]); [|returns].
    pose proof (session_id_no_panic payload).
    destruct (HandshakeResponse.session_id_from_bytes payload); [returns..|done].
  - returns.
  - by apply HandshakeFragment.from_bytes_no_panic in Ef.
Qed.

Lemma on_response_total upstream client m r d :
  bytes_ok (response d) -> sane r ->
  exists m' r' out next, on_response upstream client (m, r) d = Ok (m', r', out, next) /\ sane r'.
Proof.
  intros Hb Hr. unfold on_response. pose proof (PacketHeader.decode_no_panic _ Hb).
  destruct (PacketHeader.decode (response d)) as [h|e|] eqn:Ed; [|returns|done].
  apply decoded_length in Ed.
  destruct (PacketHeader.msg_type h); try (returns).
  - destruct (bind m d _ client) as [m' [|]]; simpl; [destruct (send_ok d)|]; returns.
  - by apply on_fragment_total.
Qed.

Lemma await_total upstream client rs x :
  (forall d, Datagram d ∈ rs -> bytes_ok (response d)) -> sane (snd x) ->
  await_response upstream client x rs <> Panic.
Proof.
  revert x. induction rs as [|[d| |] rs IH]; intros [m r] Hd Hr; cbn [await_response]; try done.
  destruct (on_response_total upstream client m r d) as (m' & r' & out & next & E & Hr'); [|done|].
  { apply Hd, elem_of_cons. by left. }
  rewrite E. sbind. destruct next; [|done].
  specialize (IH (m', r') ltac:(intros d' H'; apply Hd, elem_of_cons; by right) Hr').
  by destruct (await_response upstream client (m', r') rs) as [[[? ?] ?]|?|].
Qed.

End Total.

(** * Bootstrap *)

Section Bootstrap.
Context {O : HashIter Z RelaySession.t} {I : HashIter (SocketAddr.t * Z) Entry.t}.

(** A datagram that carries a fragment, and that reaches the client. *)
Definition carries (d : datagram) (f : HandshakeFragment.t) : Prop :=
  send_ok d = true /\
  exists h, PacketHeader.wf h /\ PacketHeader.msg_type h = MessageType.HandshakeFragment /\
    PacketHeader.timestamp h = None /\ response d = PacketHeader.wire h ++ HandshakeFragment.to_bytes f.

Lemma not_rejected (r r' : Reassembly.t (A:=SocketAddr.t)) :
  Reassembly.refusals r' = Reassembly.refusals r ->
  rejected_by_reassembler (Reassembly.stats r) (Reassembly.stats r') = false.
Proof. unfold rejected_by_reassembler, Reassembly.refusals. intros [= -> -> ->]. by rewrite !Z.ltb_irrefl. Qed.

(** A fragment of a response in progress is forwarded; the last one binds the
    session. *)
Lemma fragment_forwarded upstream client m r d f level resp id fs p t0 :
  HandshakeResponse.wf level resp ->
  Reassembly.message MessageType.HandshakeResponse id fs ->
  concat (map HandshakeFragment.payload fs) = HandshakeResponse.to_bytes resp ->
  Reassembly.fits (Reassembly.config r) (len fs) ->
  NoDup (p ++ [f]) -> (forall g, g ∈ p ++ [f] -> g ∈ fs) -> carries d f ->
  Reassembly.in_progress r upstream MessageType.HandshakeResponse id fs p t0 ->
  (0 < len p -> saturating_sub (arrived d) t0 <= ReassemblerConfig.ttl (Reassembly.config r)) ->
  exists r',
    on_response upstream client (m, r) d =
      Ok ((if len p + 1 =? len fs then fst (bind m d (HandshakeResponse.session_id resp) client) else m), r',
          [ToClient (response d) client], if len p + 1 =? len fs then Return else Continue) /\
    Reassembly.in_progress r' upstream MessageType.HandshakeResponse id fs (p ++ [f])
      (if len p =? 0 then arrived d else t0) /\
    Reassembly.config r' = Reassembly.config r.
Proof.
  intros Hresp Hm Hcat Hfit Hnd Hsub (Hok & h & Hw & Ht & Hts & Hd) Hip Htime.
  destruct (Reassembly.insert_progress r upstream MessageType.HandshakeResponse id fs p f t0 (arrived d))
    as (r' & Hins & Hip' & Hc & Href); [done..|].
  exists r'. split; [|done].
  assert (f ∈ fs) as Hf by (apply Hsub, elem_of_app; right; by apply list_elem_of_singleton).
  destruct (Reassembly.message_index _ _ _ _ Hm Hf) as (_ & Hwf & Hty & _ & _).
  unfold on_response. rewrite Hd, PacketHeader.decode_wire by done. cbn [PacketHeader.normalise PacketHeader.msg_type].
  rewrite Ht. unfold on_fragment. rewrite Hd.
  rewrite (range_rest_at_end (PacketHeader.wire h ++ HandshakeFragment.to_bytes f) HEADER_SIZE (HandshakeFragment.to_bytes f)).
  2:{ replace HEADER_SIZE with (len (PacketHeader.wire h)) by (rewrite PacketHeader.len_wire; unfold PacketHeader.encoded_size; by rewrite Hts).
      apply (rest_at_app _ 0 (PacketHeader.wire h)), rest_at_start. }
  sbind. rewrite <- (app_nil_r (HandshakeFragment.to_bytes f)) at 1.
  rewrite HandshakeFragment.from_bytes_to_bytes, Hty, bool_decide_true by done. cbn [negb].
  rewrite Hins. unfold Reassembly.step_result. rewrite len_app. change (len [f]) with 1.
  destruct (len p + 1 =? len fs); sbind; rewrite (not_rejected _ _ Href), Hok; cbn [negb]; [|done].
  rewrite Hcat, <- (app_nil_r (HandshakeResponse.to_bytes resp)).
  by rewrite (HandshakeResponse.session_id_prefix level).
Qed.

(** The instant the reassembly of the datagrams [ds] counts from. *)
Definition first_seen (p : list HandshakeFragment.t) (t0 : Z) (ds : list datagram) : Z :=
  if len p =? 0 then from_option arrived t0 (head ds) else t0.

Lemma await_forwarded upstream client m level resp id fs dl : forall ds l r p t0,
  HandshakeResponse.wf level resp ->
  Reassembly.message MessageType.HandshakeResponse id fs ->
  concat (map HandshakeFragment.payload fs) = HandshakeResponse.to_bytes resp ->
  Reassembly.fits (Reassembly.config r) (len fs) ->
  Forall2 carries ds l -> last ds = Some dl -> p ++ l ≡ₚ fs ->
  Reassembly.in_progress r upstream MessageType.HandshakeResponse id fs p t0 ->
  Forall (fun d => saturating_sub (arrived d) (first_seen p t0 ds)
                     <= ReassemblerConfig.ttl (Reassembly.config r)) ds ->
  exists r',
    await_response upstream client (m, r) (map Datagram ds) =
      Ok (fst (bind m dl (HandshakeResponse.session_id resp) client), r',
          map (fun d => ToClient (response d) client) ds, Return).
Proof.
  induction ds as [|d ds IH]; intros l r p t0 Hresp Hm Hcat Hfit Hc Hl Hperm Hip Htime; [done|].
  apply Forall2_cons_inv_l in Hc as (f & k & Hcf & Hc & ->).
  assert (NoDup (p ++ f :: k)) as Hnd by (rewrite Hperm; by eapply Reassembly.message_nodup).
  change (f :: k) with ([f] ++ k) in Hnd, Hperm. rewrite app_assoc in Hnd, Hperm.
  assert (NoDup (p ++ [f])) as Hnd' by (by apply NoDup_app in Hnd as [? _]).
  destruct (fragment_forwarded upstream client m r d f level resp id fs p t0) as (r1 & E & Hip' & Hcfg); try done.
  { intros g Hg. rewrite <- Hperm. apply elem_of_app. by left. }
  { apply Forall_cons in Htime as [Ht _]. intros Hp. unfold first_seen in Ht.
    by rewrite (proj2 (Z.eqb_neq (len p) 0)) in Ht by lia. }
  assert (len p + 1 + len k = len fs) as Hlen.
  { apply Permutation_length in Hperm. rewrite !length_app in Hperm. simpl in Hperm. unfold len. lia. }
  assert (length ds = length k) as Hlk by (by eapply Forall2_length). pose proof (len_nonneg p).
  cbn [map await_response]. rewrite E. sbind. destruct ds as [|d' ds].
  - destruct k; [|done]. change (len []) with 0 in Hlen. rewrite (proj2 (Z.eqb_eq _ _)) by lia.
    injection Hl as <-. by eexists.
  - assert (0 < len k) by (unfold len; simpl in Hlk; lia). rewrite (proj2 (Z.eqb_neq _ _)) by lia.
    destruct (IH k r1 (p ++ [f]) (if len p =? 0 then arrived d else t0)) as [r' E']; try done.
    + by rewrite Hcfg.
    + rewrite Hcfg. apply Forall_cons in Htime as [_ Htime]. eapply Forall_impl; [exact Htime|].
      intros x. unfold first_seen. rewrite len_app. change (len [f]) with 1. simpl head. simpl from_option.
      by rewrite (proj2 (Z.eqb_neq (len p + 1) 0)) by lia.
    + rewrite E'. sbind. by exists r'.
Qed.

(** What a bound session is good for. *)
Lemma bound_forwards m pending client s id :
  relay_inv m pending -> RelaySessionManager.is_rate_limited m = false ->
  RelaySessionManager.sessions m !! id = Some s -> RelaySession.client_addr s = client ->
  (forall limiter permits reading h payload,
     PacketHeader.wf h -> is_handshake (PacketHeader.msg_type h) = false -> PacketHeader.session_id h = id ->
     snd (handle_client_packet (mk_relay m limiter permits) reading (PacketHeader.wire h ++ payload) client)
       = Ok [ToUpstream (PacketHeader.wire h ++ payload)]) /\
  (forall reading h payload,
     PacketHeader.wf h -> PacketHeader.session_id h = id ->
     snd (handle_upstream_packet m reading (PacketHeader.wire h ++ payload))
       = Ok [ToClient (PacketHeader.wire h ++ payload) client]).
Proof.
  intros Hi Hn Hlk Ha. destruct (ri_id _ _ Hi _ _ Hlk) as [_ Hne]. split.
  - intros limiter permits reading h payload Hh Hty Hsid. unfold handle_client_packet.
    rewrite PacketHeader.decode_wire by done. cbn [PacketHeader.normalise PacketHeader.msg_type PacketHeader.session_id].
    rewrite Hty, Hsid. unfold RelaySessionManager.process_client_packet. cbn [sessions].
    rewrite (proj2 (Z.eqb_neq _ _) Hne), Hlk, Ha, bool_decide_true, Hn by done. done.
  - intros reading h payload Hh Hsid. unfold handle_upstream_packet.
    assert (HEADER_SIZE <= len (PacketHeader.wire h ++ payload)) as Hhs.
    { rewrite len_app, PacketHeader.len_wire. pose proof (len_nonneg payload).
      unfold PacketHeader.encoded_size, HEADER_SIZE, HEADER_SIZE_WITH_TIMESTAMP. destruct (PacketHeader.timestamp h); lia. }
    rewrite (proj2 (Z.ltb_ge _ _) Hhs), PacketHeader.decode_wire by done. cbn [PacketHeader.normalise PacketHeader.session_id].
    rewrite Hsid, Hn. cbn [negb]. unfold RelaySessionManager.process_upstream_packet. rewrite Hlk, Ha. done.
Qed.

(** * Properties *)

(** C24: a client behind the relay gets its session.  When the server answers
    a forwarded handshake with a response in fragments, the relay forwards
    every datagram to the client, in whatever order they arrive, binds the
    session identifier of the response to the client, and from then on
    forwards the client's packets and hands the server's packets for this
    session to the client. *)
Theorem relay_bootstrap m pending upstream client data level resp id fs l ds dl :
  reachable (m, pending) -> RelaySessionManager.is_rate_limited m = false ->
  HandshakeResponse.wf level resp -> u32 id ->
  split_payload MessageType.HandshakeResponse id (HandshakeResponse.to_bytes resp) = Ok fs ->
  l ≡ₚ fs -> Forall2 carries ds l -> last ds = Some dl ->
  Forall (fun d => saturating_sub (arrived d) (from_option arrived 0 (head ds)) <= 5 * NANOS_PER_SEC) ds ->
  snd (bind m dl (HandshakeResponse.session_id resp) client) = true ->
  exists m' r,
    forward_handshake_packet m upstream data client true (map Datagram ds) =
      Ok (m', r, ToUpstream data :: map (fun d => ToClient (response d) client) ds, Return) /\
    (forall limiter permits reading h payload,
       PacketHeader.wf h -> is_handshake (PacketHeader.msg_type h) = false ->
       PacketHeader.session_id h = HandshakeResponse.session_id resp ->
       snd (handle_client_packet (mk_relay m' limiter permits) reading
              (PacketHeader.wire h ++ payload) client)
         = Ok [ToUpstream (PacketHeader.wire h ++ payload)]) /\
    (forall reading h payload,
       PacketHeader.wf h -> PacketHeader.session_id h = HandshakeResponse.session_id resp ->
       snd (handle_upstream_packet m' reading (PacketHeader.wire h ++ payload))
         = Ok [ToClient (PacketHeader.wire h ++ payload) client]).
Proof.
  intros Hr Hrate Hresp Hid Hsplit Hperm Hc Hl Htime Hbind.
  assert (bytes_ok (HandshakeResponse.to_bytes resp)) as Hb
    by (eapply HandshakeResponse.response_bytes; exact Hresp).
  destruct (split_payload_inv _ _ _ _ Hid Hb Hsplit) as (_ & Hlen & Hwf & Hcat & Hm).
  assert (Reassembly.message MessageType.HandshakeResponse id fs) as Hmsg by (by split).
  assert (len fs <= 32) as Hfs.
  { destruct fs as [|f fs']; [done|]. destruct (Hm 0%nat f eq_refl) as (_ & _ & _ & Ht).
    apply Forall_cons in Hwf as [(_ & _ & _ & Hw & _) _]. unfold MAX_FRAGMENTS_PER_HANDSHAKE in Hw. lia. }
  destruct (await_forwarded upstream client m level resp id fs dl ds l
    (Reassembly.new ReassemblerConfig.client_default) [] 0) as [r E]; try done.
  { unfold Reassembly.fits, MAX_FRAGMENT_PAYLOAD. simpl. unfold MAX_FRAGMENTS_PER_HANDSHAKE. lia. }
  exists (fst (bind m dl (HandshakeResponse.session_id resp) client)), r.
  unfold forward_handshake_packet. cbn [negb]. rewrite E. sbind. split; [done|].
  apply relay_reachable_inv in Hr. unfold bind in *.
  pose proof (bind_spec m pending (at_clock (readings dl)) (at_cleanup (readings dl))
    (HandshakeResponse.session_id resp) client Hr) as Hs.
  pose proof (bind_rates m (at_clock (readings dl)) (at_cleanup (readings dl))
    (HandshakeResponse.session_id resp) client) as Hn. rewrite Hrate in Hn.
  destruct (RelaySessionManager.bind_established m (at_clock (readings dl)) (at_cleanup (readings dl))
    (HandshakeResponse.session_id resp) client) as [m' ok]. cbn [fst snd] in *. subst ok.
  destruct Hs as (Hi & _ & Hs). destruct (Hs eq_refl) as (s & Hlk & Ha).
  by apply (bound_forwards m' pending client s).
Qed.

(** Nothing a client or the server sends aborts the relay, where the byte
    limits of its sessions are below 2^63: its three handlers return on
    arbitrary bytes. *)
Lemma relay_never_aborts :
  (forall s r data addr, limits_fit (sessions s) -> bytes_ok data ->
     is_ok (snd (handle_client_packet s r data addr)) = true) /\
  (forall m r data, limits_fit m -> bytes_ok data -> is_ok (snd (handle_upstream_packet m r data)) = true) /\
  (forall m upstream data client opened rs,
     (forall d, Datagram d ∈ rs -> bytes_ok (response d)) ->
     is_ok (forward_handshake_packet m upstream data client opened rs) = true).
Proof.
  split; [|split].
  - intros s r data addr Hf Hb. unfold handle_client_packet. pose proof (PacketHeader.decode_no_panic _ Hb).
    destruct (PacketHeader.decode data) as [h|e|]; [|done|done].
    destruct (is_handshake _).
    + destruct (RelayHandshakeLimiter.allow _ _ _) as [l [|]]; simpl; [|done]. by destruct (_ <=? 0).
    + unfold RelaySessionManager.process_client_packet. destruct (_ =? 0); [done|].
      destruct (_ !! _) as [x|] eqn:Ex; [|done]. destruct (negb _); [done|].
      destruct (RelaySessionManager.is_rate_limited _); [|done]. unfold RelaySession.check_rate_limit.
      pose proof (relay_check_spec (E := Empty_set) (RelaySession.client_rate_limiter x) (now_us (at_clock r)) (len data)
        (lost_packet r) (lost_byte r)) as Hc.
      destruct (RateLimiter.check _ _ _ _ _) as [[l [|]]| |]; simpl; [done..|]. destruct (Hc (proj1 (Hf _ _ Ex))).
  - intros m r data Hf Hb. unfold handle_upstream_packet. destruct (_ <? _); [done|].
    pose proof (PacketHeader.decode_no_panic _ Hb). destruct (PacketHeader.decode data) as [h|e|]; [|done|done].
    assert (forall m, is_ok (snd (let '(m, addr) := RelaySessionManager.process_upstream_packet m (now_ms (at_clock r))
      (PacketHeader.session_id h) (len data) in
      match addr with Some a => (m, Ok (E := Empty_set) [ToClient data a]) | None => (m, Ok []) end)) = true) as Hup.
    { intros m0. by destruct (RelaySessionManager.process_upstream_packet _ _ _ _) as [m'' [a|]]. }
    destruct (RelaySessionManager.is_rate_limited m); [|apply Hup].
    unfold RelaySessionManager.check_upstream_rate_limit. destruct (_ !! _) as [x|] eqn:Ex; [|done].
    unfold RelaySession.check_upstream_rate_limit.
    pose proof (relay_check_spec (E := Empty_set) (RelaySession.upstream_rate_limiter x) (now_us (at_clock r)) (len data)
      (lost_packet r) (lost_byte r)) as Hc.
    destruct (RateLimiter.check _ _ _ _ _) as [[l [|]]| |]; [apply Hup|done|done|]. destruct (Hc (proj2 (Hf _ _ Ex))).
  - intros m upstream data client opened rs Hb. unfold forward_handshake_packet.
    destruct opened; cbn [negb]; [|done].
    pose proof (await_total upstream client rs (m, Reassembly.new ReassemblerConfig.client_default) Hb
      (sane_new _)) as Ht.
    by destruct (await_response upstream client _ rs) as [[[? ?] ?]|[]|].
Qed.

End Bootstrap.

(** * Fragmented initiations

    The relay opens a socket, hence a source port, for every packet it
    forwards.  A server reassembles the fragments of one source, so an
    initiation of more than one fragment that comes through the relay is
    never complete. *)

Lemma distinct_sources_never_complete {O : HashIter (SocketAddr.t * Z) Entry.t} cfg h s now source f :
  Reassembly.reachable (A:=SocketAddr.t) cfg h s -> HandshakeFragment.wf f ->
  1 < HandshakeFragment.frag_total f -> NoDup (map fst (h ++ [(source, f)])) ->
  snd (Reassembly.insert s now source f) = Ok None.
Proof.
  intros Hr Hw Ht Hnd. destruct (Reassembly.reachable_good _ _ _ Hr) as [Hg _].
  pose proof (Reassembly.insert_spec h s now source f Hw Hg) as Hs.
  destruct (Reassembly.insert s now source f) as [s' r]. destruct Hs as (_ & _ & Ho). simpl.
  destruct r as [[[ty bytes]|]|[]|]; [|done|destruct Ho]. destruct Ho as (fs & _ & Hpos & Hfs).
  assert (forall i g, fs !! i = Some g -> g = f) as Hall.
  { intros i g Hi. destruct (Hfs i g Hi) as (Hin & _).
    apply list_elem_of_lookup in Hin as [j Hj].
    assert ((h ++ [(source, f)]) !! length h = Some (source, f)) as Hl by (by apply list_lookup_middle).
    assert (j = length h) as ->; [|congruence].
    eapply (NoDup_lookup _ _ _ source Hnd); rewrite list_lookup_fmap; [by rewrite Hj|by rewrite Hl]. }
  destruct fs as [|g fs]; [done|]. pose proof (Hall 0%nat g eq_refl) as ->.
  destruct (Hfs 0%nat f eq_refl) as (_ & _ & H0 & Hl & _). rewrite Hl in Ht.
  destruct fs as [|g fs]; [done|]. pose proof (Hall 1%nat g eq_refl) as ->.
  destruct (Hfs 1%nat f eq_refl) as (_ & _ & H1 & _). lia.
Qed.

(** * The limiter of handshakes *)

(** Requests of one address that its own limit refuses still use up the
    relay's budget: after a burst of one address nobody else is served in
    that second, although only 64 of its requests passed. *)
Lemma one_address_exhausts_budget :
  let l := RelayHandshakeLimiter.new 0 DEFAULT_HANDSHAKE_RATE_LIMIT_PPS
             DEFAULT_GLOBAL_HANDSHAKE_RATE_LIMIT_PPS in
  let '(l, passed) :=
    foldl (fun '(l, n) _ =>
             let '(l, ok) := RelayHandshakeLimiter.allow l 5 (IpAddr.V4 [198; 51; 100; 7]) in
             (l, if ok : bool then n + 1 else n)) (l, 0) (replicate 256 tt) in
  passed = 64 /\ snd (RelayHandshakeLimiter.allow l 5 (IpAddr.V4 [203; 0; 113; 9])) = false.
Proof. vm_compute. split; reflexivity. Qed.

(** * Examples *)

Definition example_response : HandshakeResponse.t :=
  HandshakeResponse.mk 7 (HybridCiphertext.mk (replicate 32 1) (replicate 1088 2) SecurityLevel.Level3)
    (replicate 1952 3) (MlDsaSignature.mk (replicate 3309 4) SecurityLevel.Level3) (replicate 32 5)
    (TunnelConfig.mk [10; 99; 0; 2] [255; 255; 255; 0] [10; 99; 0; 1] [] None None None [] 1400)
    (replicate 32 6) 1000.

Definition example_response_fragments : list HandshakeFragment.t :=
  match split_payload MessageType.HandshakeResponse 9 (HandshakeResponse.to_bytes example_response) with
  | Ok fs => fs
  | _ => []
  end.

Definition example_datagram (f : HandshakeFragment.t) : datagram :=
  mk_datagram
    (PacketHeader.wire (PacketHeader.new MessageType.HandshakeFragment 0 0 0) ++ HandshakeFragment.to_bytes f)
    0 (mk_reading example_clock (fun _ => 0) 0 0) true.

Lemma relay_bootstrap_witness :
  exists m r,
    forward_handshake_packet example_relay (SocketAddr.V4 [192; 0; 2; 1] 51820) [1] example_addr true
      (map Datagram (map example_datagram (rev example_response_fragments))) =
      Ok (m, r, ToUpstream [1] ::
            map (fun d => ToClient (response d) example_addr)
              (map example_datagram (rev example_response_fragments)), Return) /\
    snd (handle_upstream_packet m (mk_reading example_clock (fun _ => 0) 0 0)
           (PacketHeader.wire (PacketHeader.new MessageType.Data 7 0 1) ++ [1; 2])) =
      Ok [ToClient (PacketHeader.wire (PacketHeader.new MessageType.Data 7 0 1) ++ [1; 2]) example_addr].
Proof.
  destruct (relay_bootstrap example_relay [] (SocketAddr.V4 [192; 0; 2; 1] 51820) example_addr [1]
    SecurityLevel.Level3 example_response 9 example_response_fragments (rev example_response_fragments)
    (map example_datagram (rev example_response_fragments))
    (example_datagram (HandshakeFragment.mk MessageType.HandshakeResponse 9 0 6
       (take 1165 (HandshakeResponse.to_bytes example_response))))) as (m & r & E & _ & H).
  - apply (reach_new 60000 2 0 0). lia.
  - reflexivity.
  - by_decide.
  - by_decide.
  - vm_compute. reflexivity.
  - apply Permutation_rev.
  - apply Forall2_fmap_l, Forall_Forall2_diag, Forall_forall. intros f _. split; [reflexivity|].
    eexists. split; [|split; [|split; [|reflexivity]]]; [by_decide|reflexivity|reflexivity].
  - vm_compute. reflexivity.
  - apply Forall_forall. intros d (f & -> & _)%list_elem_of_fmap. vm_compute. discriminate.
  - vm_compute. reflexivity.
  - exists m, r. split; [exact E|]. apply H; [by_decide|reflexivity].
Defined.

Lemma relay_never_aborts_witness :
  is_ok (snd (handle_upstream_packet example_bound (mk_reading example_clock (fun _ => 0) 0 0)
    (replicate 30 255))) = true.
Proof.
  apply (proj1 (proj2 relay_never_aborts)); [|by_decide].
  assert (map_Forall (fun _ s =>
    SessionRateLimiter.max_bps (RelaySession.client_rate_limiter s) * 2 <= U64_MAX /\
    SessionRateLimiter.max_bps (RelaySession.upstream_rate_limiter s) * 2 <= U64_MAX)
    (RelaySessionManager.sessions example_bound)) as H by by_decide.
  exact H.
Defined.
